(* ===== verification/_CoqProject ===== *)
-Q . S2P
Prelude.v
GoStrings.v
GoTime.v
LogTime.v
GoErrors.v
GoFloat.v
GoUtf8.v
Pretty.v
PrettyFacts.v
FxLog.v
Redact.v
Spans.v
Perms.v
Authz.v
GoEncoding.v
GoCrypto.v
GoURL.v
GoHttp.v
GoNetip.v
Ratelimit.v
Oidc.v
EndpointLimits.v
Denylist.v
Keys.v
Signer.v
Verifier.v
Binding.v
Client.v
Cli.v
CliFacts.v
CliRefresh.v
CliRefreshFacts.v
Sessions.v
Sql.v
Sqlite.v
Reaper.v
ReaperFacts.v
Token.v
UserInfo.v
Admin.v
VerifierExamples.v
Session.v
Login.v
Google.v
CliLogin.v
Device.v
TokenFacts.v
TokenGrants.v
SqlSessions.v
SqliteSessions.v
SqliteFacts.v
Postgres.v
PgReaper.v
PostgresSessions.v
Transfer.v
TransferFacts.v
StateCopy.v
Migrate.v
ChangeFeed.v
StoreOpen.v
AdminFacts.v
AdminStores.v
PgLocks.v
LoginFacts.v
GoogleFacts.v
CliLoginFacts.v
DeviceFacts.v
DeviceBudget.v
TokenExamples.v
LoginExamples.v
GoogleExamples.v
DeviceExamples.v
AdminExamples.v
CliExamples.v
Surfaces.v
SurfaceFacts.v
Config.v
Startup.v
StartupFacts.v
Commands.v
