(* ===== verification/Prelude.v ===== *)
(** * tempogate: a verification library

    tempogate is an OpenID Connect provider in front of Temporal: it signs
    people in through Google, gives them access tokens that carry Temporal
    permissions, mints long-lived integration keys for machines through an admin
    API, and ships a command line client that signs in and keeps a token fresh.
    This library models its Go sources (paths below are under src/) as
    executable definitions and proves what makes them correct.

    ** The program and its model

    A request enters the HTTP server, passes the per-client rate limiter, and
    reaches a handler of one of the endpoints: /authorize, /callback, /token,
    /userinfo, /device_authorization and the /device pages, or, on a second
    listener behind a guard, the admin API. Handlers read and write the state
    store, SQLite or PostgreSQL, through interfaces; they mint and verify tokens
    with the keypairs the keys package holds; every secret they touch is declared
    to the redaction set that the log and the traces are masked with. A reaper
    deletes expired rows; writes to the keys and the denylist are announced to
    every replica; commands migrate, copy and inspect the state and start the
    server; the client talks to it.

    Handlers are programs of the monad [M] (GoErrors.v): a state (the store), the
    clock and randomness consumed so far, the trace of what is logged, counted and
    declared, and an error as Go returns it. A store interface is a type class
    ([TokenStore], [CallbackStore], [KeyStore], ...); the handlers are proved
    against the class and its contract, and the two backends are instances.
    A SQL statement (Sql.v) runs on whatever other requests have made of the
    tables in the meantime, and may fail before or after taking effect.

    - Go's library: GoStrings (strings), GoTime (calendar, time.Format,
      Duration.String), GoErrors (errors, the monad), GoFloat (float64), GoUtf8
      (unicode/utf8, strconv.Quote), GoEncoding (base64, hex), GoCrypto (SHA-256,
      HMAC), GoURL (net/url), GoHttp (cookies), GoNetip (net/netip, net).
    - perms/perms.go: Perms. authz/authz.go: Authz.
    - oidc/ data, parameters and store interfaces: Oidc. oidc/client.go: Client.
    - oidc/token.go, device_token.go, authz.go: Token; theorems in TokenFacts
      (single use, reuse), TokenGrants (what a success proves), runs in
      TokenExamples.
    - oidc/connector.go, authorize.go, callback.go: Login, LoginFacts,
      LoginExamples. oidc/mac.go, upstreambinding.go: Binding. oidc/session.go:
      Session. oidc/connector/google/: Google, GoogleFacts, GoogleExamples.
    - oidc/device_authorization.go, device_ui.go: Device, DeviceFacts,
      DeviceBudget (guessing), DeviceExamples.
    - oidc/userinfo.go: UserInfo. ratelimit/ and oidc/ratelimit.go: Ratelimit,
      EndpointLimits.
    - keys/: Keys (keypairs, publication, retirement, encryption at rest), Signer,
      Denylist (the cache, as a step relation), Verifier, VerifierExamples.
    - state/: Sessions (the abstract session machine), Sql, Sqlite, SqlSessions
      (linearizability of methods), SqliteSessions, SqliteFacts, Postgres,
      PostgresSessions, PgLocks (row locks as a step relation), Reaper,
      ReaperFacts, PgReaper. Opening a store (dsn.go, store.go): StoreOpen. The
      runners of the migrations: Migrate. dump.go and import.go: Transfer,
      TransferFacts (with each record as a row), and with the command that runs
      them StateCopy.
    - state/internal/changefeed, state/postgres/changes.go, keys/changes.go and
      the watcher of keys/retire.go: ChangeFeed.
    - api/ and cmd/servercmd/accesslog.go: Surfaces, SurfaceFacts.
    - admin/: Admin (the guard and every handler), AdminFacts, AdminStores,
      AdminExamples.
    - redact/: Redact. telemetry/ and observe/ (spans): Spans. log/: LogTime,
      Pretty, PrettyFacts, FxLog (failed starts).
    - cli/ and cmd/login.go, token.go: Cli (the user's machine, transport, token
      file), CliRefresh (refresh under the file lock), CliLogin (browser and
      device flows), CliFacts, CliRefreshFacts, CliLoginFacts, CliExamples.
    - config/: Config. The fx.go files, cmd/servercmd/graph.go, serve.go and
      api/wellknown.go: Startup, StartupFacts. The keys, sessions
      and authz commands of cmd/servercmd/: Commands.

    Types and functions keep their Go names, with a prefix where two packages
    share one; a definition's comment names the Go expression it stands for when
    the name does not.

    ** What the theorems show

    - Tokens: an authorization code and a refresh token are exchanged at most once
      in any sequence and interleaving of requests; a replay ends the whole
      session; a success proves everything the grant requires; rotation inherits
      the sign-in; both stores are linearizable implementations of the abstract
      session machine, and PostgreSQL's row locks leave no live token in a revoked
      family.
    - Logins: what a completed callback proves, and that a login state works once;
      what Google's answer must have been; that failures keep their class.
    - Device flow: an approval needs a session, a permission and the form of that
      session; guesses are bounded.
    - Keys, verification and revocation: what an accepted token proves; a minted
      token reads back; a revoked integration key is refused; how stale the
      denylist cache may be; a keypair table never runs out of active keypairs.
    - Admin API: the guard; revocation of sessions is complete; the default hosts
      are loopback names.
    - Reaping: the SQLite sweep deletes exactly what is overdue and never blinds
      replay detection; the PostgreSQL sweeps of any replicas spare what matters,
      and one alone leaves nothing dead.
    - Database: every migration runs once however runs interleave, and the schema
      is what the files of the recorded versions made; a copy to PostgreSQL is
      everything or nothing, keeps the state as the session machine reads it, and
      goes through where PostgreSQL can store the values; every connection is
      authenticated, and the SQLite files are the owner's alone.
    - Change feed: a subscriber gets what was published in order until its queue
      is full; a listener that comes back reports what it missed; the key watcher
      keeps the keys it has.
    - HTTP: every admin route is behind the guard and the public surface has
      none; a server error tells the client nothing; the access log is the
      response.
    - Commands: a kid that looks like a flag is kept; revoking from the command
      line is the admin route; explain says what the server does.
    - Client: nothing is sent anywhere but to the issuer, a refresh token is
      presented again only where its replacement never reached the file, saving
      is atomic, polling and waiting are bounded.
    - Start-up: a server that binds its listeners is configured safely and its
      parts agree with each other.
    - Log and redaction: every occurrence of a declared value meets a masked
      piece, also in the failures a trace exports; an entry is one line, timestamps
      are those of time.Format, a failed start is reported once, by its root
      cause.

    Where the code or a comment of it turned out differently, the run is evaluated
    next to the theorem ([sweep_races_rotation], [consumed_code_forgotten],
    [pg_sweep_races_rotation], [advertised_issuer], [failed_resync_loses],
    [explain_empty_domain], [copy_stops_at_nul], [raw_copied], [killed_replays],
    and others).

    ** Bounds and fuel

    Recursion that is not structural takes fuel. Loops over the bytes of a string
    (UTF-8, escaping, Fields, JSON) take its length; best_run and print6 of an
    address take its eight groups; big_bytes the bits of the number. The sweeps of
    the reapers and the pages of the admin listing need more fuel than there are
    rows, and the theorems about them say so and conclude that they finish. The
    generator of user codes is followed for 64 reads, where each read of 16 bytes
    runs dry with probability below 16^-16. The pretty log shows at most 64 errors
    of an entry, so 65 rounds suffice; the summary of a failed start visits at
    most 64 of a chain, as the code does. A redirect chain stops at 10. Locking a
    family in PostgreSQL takes two rounds, as the row is there after the first.
    The client's waits and polls are bounded by the deadline over the interval,
    which their theorems prove sufficient.

    ** Parameters

    What is not under src/ is a class with the documented behaviour the proofs use
    as its laws: [URLParser] (url.Parse), [JWX], [JOSE] and [JOSELaws] (JWT),
    [AEAD], [RSAKeyGen], [X509], [UUIDGen], [UUIDParse], [Env] (clock and
    randomness), [Unicode] and [CaseFold] (case tables), [PrintTable], [LogLib],
    [ErrorGraph] (the logging library), [BounceJSON], [CliJSON], [MapOrder] (map
    iteration), [RowIDs] (SQLite rowids), [SkipLocked] (which rows a scan finds
    unlocked), [Codegen], [GoogleAPI] and [GoogleLaws] (oauth2, go-oidc), [Host],
    [Shell], [Rotating], [EndpointURLs] (the machine of a client), [ConfigEnv]
    (files, environment, the ferry library), [Machine] (what a server finds),
    [Huma] and [HumaLaws] (the HTTP framework), [Pgx] (parsing a connection
    string), [DigErrors] (errors of the dependency-injection framework). Arguments
    of the definitions that use them are time.Parse and the reads of a dump
    (Transfer), what a migration file does to the schema (Migrate), the system
    calls and the umask (StoreOpen), pflag (Commands), and the world of a copy
    ([CopyWorld]).
    Every theorem with such a law has a witness at a concrete instance.

    ** Not modelled

    Of telemetry, the metric instruments hand their arguments to OpenTelemetry;
    of logging, the JSON encoder is the logging library and the rest the
    construction of a logger; gen-oas prints what the HTTP framework generates;
    pages of the device flow are kept as their template and values, the HTML and
    CSS are not. The tickers around the modelled sweeps, the shutdown of the
    listeners and the connection pool are the Go runtime and libraries. Shared
    test suites and the mock provider are not the program. Mutexes are taken to
    serialise what they guard. Of PostgreSQL, what a column takes and the
    constraints of the migrations are modelled for the COPY of an import; a
    statement of a handler that is refused for its values is one that fails. *)

From stdpp Require Export base tactics list gmap strings sorting.
From Stdlib Require Export ZArith Lia.
From Stdlib Require Ascii.
Export Stdlib.Strings.Ascii (ascii(..)).
Export (notations) Stdlib.Strings.Ascii.

#[global] Open Scope Z_scope.
#[global] Generalizable No Variables.

(** ** Proof automation *)

(** The rewriting base every component adds its simplification equations to,
    and the resolution base of the facts that close routine side goals. *)
Create Rewrite HintDb tg_simpl.
Create HintDb tg discriminated.

(** Split every [match]/[if] of the goal or of a hypothesis on its scrutinee,
    remembering the equation. *)
Ltac case_match_in H :=
  match type of H with
  | context [ match ?x with _ => _ end ] =>
      lazymatch x with
      | context [ match _ with _ => _ end ] => fail
      | _ => let E := fresh "E" in destruct x eqn:E
      end
  end.

Ltac destruct_goal_match :=
  match goal with
  | |- context [ match ?x with _ => _ end ] =>
      lazymatch x with
      | context [ match _ with _ => _ end ] => fail
      | _ => let E := fresh "E" in destruct x eqn:E
      end
  end.

(** Case analysis on every branch of a handler equation [H : handler .. = (w, r)]. *)
Ltac split_run H :=
  repeat (case_match_in H; simplify_eq/=).

Ltac solve_bool :=
  repeat match goal with
  | H : (_ && _)%bool = true |- _ => apply andb_true_iff in H as [? ?]
  | H : (_ || _)%bool = false |- _ => apply orb_false_iff in H as [? ?]
  | H : negb _ = true |- _ => apply negb_true_iff in H
  | H : negb _ = false |- _ => apply negb_false_iff in H
  | H : (_ =? _)%string = true |- _ => apply String.eqb_eq in H
  | H : (_ =? _)%string = false |- _ => apply String.eqb_neq in H
  | H : (_ <? _) = true |- _ => apply Z.ltb_lt in H
  | H : (_ <? _) = false |- _ => apply Z.ltb_ge in H
  | H : (_ <=? _) = true |- _ => apply Z.leb_le in H
  | H : (_ <=? _) = false |- _ => apply Z.leb_gt in H
  | H : (_ =? _) = true |- _ => apply Z.eqb_eq in H
  | H : (_ =? _) = false |- _ => apply Z.eqb_neq in H
  end.

(** Decide a closed proposition by evaluating its decision procedure. *)
Ltac vm_dec := refine (bool_decide_unpack _ _); vm_compute; exact I.

(** ** Machine integers

    Go's [int], [int64] and [time.Duration] are 64-bit two's complement. *)
Definition int64_min : Z := - 2 ^ 63.
Definition int64_max : Z := 2 ^ 63 - 1.

Definition wrap64 (z : Z) : Z := (z + 2 ^ 63) mod 2 ^ 64 - 2 ^ 63.

Definition in_int64 (z : Z) : Prop := int64_min <= z <= int64_max.

Lemma wrap64_id z : in_int64 z -> wrap64 z = z.
Proof.
  unfold in_int64, int64_min, int64_max, wrap64. intros H.
  rewrite Z.mod_small; lia.
Qed.

Lemma wrap64_range z : in_int64 (wrap64 z).
Proof.
  unfold in_int64, int64_min, int64_max, wrap64.
  pose proof (Z.mod_pos_bound (z + 2 ^ 63) (2 ^ 64)). lia.
Qed.

(** ** Time

    An instant is a count of nanoseconds; a [Duration] is an [int64] count of
    nanoseconds. Application instants are microsecond-truncated at the source
    (internal/clock), so they compare in Go and in SQL alike. [time.Time.Sub]
    saturates at the ends of the duration range. *)
Abbreviation time := Z (only parsing).
Abbreviation duration := Z (only parsing).

Definition Microsecond : duration := 1000.
Definition Second : duration := 1000000 * Microsecond.
Definition Minute : duration := 60 * Second.
Definition Hour : duration := 60 * Minute.

Definition time_Sub (t u : time) : duration :=
  Z.max int64_min (Z.min int64_max (t - u)).

(** [t.Truncate(d)] for instants at or after the zero time and [d > 0]. *)
Definition time_Truncate (t : time) (d : duration) : time := t - t mod d.

Definition time_Before (t u : time) : bool := t <? u.
Definition time_After (t u : time) : bool := u <? t.
Definition time_Add (t : time) (d : duration) : time := t + d.

Lemma time_Sub_nonpos t u : time_Sub t u <= 0 <-> t <= u.
Proof. unfold time_Sub, int64_min, int64_max. lia. Qed.

Lemma time_Sub_ge t u d : 0 <= d <= int64_max -> d <= time_Sub t u <-> u + d <= t.
Proof. unfold time_Sub, int64_min, int64_max. lia. Qed.

Lemma time_Before_spec t u : time_Before t u = true <-> t < u.
Proof. apply Z.ltb_lt. Qed.

Lemma time_After_spec t u : time_After t u = true <-> u < t.
Proof. apply Z.ltb_lt. Qed.

(** ** Generic facts *)

Lemma option_eq_None_or_Some {A} (o : option A) : o = None \/ exists x, o = Some x.
Proof. destruct o; eauto. Qed.

Lemma existsb_In {A} (p : A -> bool) (l : list A) :
  existsb p l = true <-> exists x, In x l /\ p x = true.
Proof. apply existsb_exists. Qed.

Lemma Forall_filter_l {A} (P : A -> Prop) (p : A -> bool) (l : list A) :
  Forall P l -> Forall P (List.filter p l).
Proof.
  rewrite !List.Forall_forall. intros H x Hx. apply H.
  by apply List.filter_In in Hx as [? _].
Qed.

(** Strings in byte order, as [slices.Sorted] and [ORDER BY] have them. *)
Definition string_le (a b : string) : Prop := String.leb a b = true.

#[export] Instance string_le_dec a b : Decision (string_le a b).
Proof. unfold string_le. apply _. Defined.

#[export] Instance string_le_total : Total string_le.
Proof. intros a b. unfold string_le. destruct (String.leb_total a b); auto. Qed.
