(* ===== verification/GoStrings.v ===== *)
(** * Go's [strings] package on byte strings

    A Go string is a sequence of bytes; [string] (a list of 8-bit [ascii]) is
    that sequence. This file models the functions of [strings] that tempogate
    calls, on bytes, including how the whitespace functions treat the UTF-8
    encodings of Unicode spaces. Lower-casing a string with non-ASCII bytes
    follows the Unicode tables, which are an argument ([Unicode]). *)

From S2P Require Import Prelude.

Definition byte_of (n : N) : ascii := Ascii.ascii_of_N n.
Definition code (c : ascii) : N := Ascii.N_of_ascii c.

(** ** Cutting and splitting at one byte *)

(** [strings.Cut(s, string(c))]: the text before and after the first [c]. *)
Fixpoint Cut (s : string) (c : ascii) : option (string * string) :=
  match s with
  | "" => None
  | String d s' =>
      if Ascii.eqb d c then Some ("", s')
      else match Cut s' c with
           | Some (a, b) => Some (String d a, b)
           | None => None
           end
  end.

(** [s[:i], s[i+1:]] where [i = strings.LastIndexByte(s, c)]; [None] when
    [i < 0]. *)
Fixpoint CutLast (s : string) (c : ascii) : option (string * string) :=
  match s with
  | "" => None
  | String d s' =>
      match CutLast s' c with
      | Some (a, b) => Some (String d a, b)
      | None => if Ascii.eqb d c then Some ("", s') else None
      end
  end.

(** [strings.Split(s, string(c))]: never empty. *)
Fixpoint Split (s : string) (c : ascii) : list string :=
  match s with
  | "" => [""]
  | String d s' =>
      match Split s' c with
      | [] => []
      | x :: xs => if Ascii.eqb d c then "" :: x :: xs else String d x :: xs
      end
  end.

(** [strings.Contains(s, string(c))]. *)
Fixpoint ContainsByte (s : string) (c : ascii) : bool :=
  match s with
  | "" => false
  | String d s' => Ascii.eqb d c || ContainsByte s' c
  end.

Definition HasPrefix (s p : string) : bool := String.prefix p s.

Fixpoint HasSuffixByte (s : string) (c : ascii) : bool :=
  match s with
  | "" => false
  | String d "" => Ascii.eqb d c
  | String _ s' => HasSuffixByte s' c
  end.

(** [strings.TrimRight(s, string(c))]. *)
Fixpoint TrimRightByte (s : string) (c : ascii) : string :=
  match s with
  | "" => ""
  | String d s' =>
      match TrimRightByte s' c with
      | "" => if Ascii.eqb d c then "" else String d ""
      | t => String d t
      end
  end.

(** ** Whitespace

    [unicode.IsSpace] holds of TAB, LF, VT, FF, CR, SPACE, U+0085, U+00A0,
    U+1680, U+2000..U+200A, U+2028, U+2029, U+202F, U+205F and U+3000. A lead
    byte never occurs inside another rune's encoding, so scanning bytes for
    these encodings agrees with scanning runes, also on invalid UTF-8. *)
Definition ascii_space (c : ascii) : bool :=
  let n := code c in ((9 <=? n) && (n <=? 13) || (n =? 32))%N.

Definition space_width (s : string) : nat :=
  match s with
  | "" => 0%nat
  | String a s1 =>
      if ascii_space a then 1%nat else
      match s1 with
      | "" => 0%nat
      | String b s2 =>
          if ((code a =? 0xC2) && ((code b =? 0x85) || (code b =? 0xA0)))%N then 2%nat else
          match s2 with
          | "" => 0%nat
          | String c _ =>
              if ((code a =? 0xE1) && (code b =? 0x9A) && (code c =? 0x80)
                  || (code a =? 0xE2) && (code b =? 0x80)
                       && ((0x80 <=? code c) && (code c <=? 0x8A) || (code c =? 0xA8)
                           || (code c =? 0xA9) || (code c =? 0xAF))
                  || (code a =? 0xE2) && (code b =? 0x81) && (code c =? 0x9F)
                  || (code a =? 0xE3) && (code b =? 0x80) && (code c =? 0x80))%N
              then 3%nat else 0%nat
          end
      end
  end.

Fixpoint drop_bytes (n : nat) (s : string) : string :=
  match n, s with
  | S n', String _ s' => drop_bytes n' s'
  | _, _ => s
  end.

Lemma length_drop_bytes n s : String.length (drop_bytes n s) = (String.length s - n)%nat.
Proof. revert n. induction s as [|c s IH]; intros [|n]; cbn; try done. Qed.

(** The whole string is a run of space runes. *)
Fixpoint all_space (fuel : nat) (s : string) : bool :=
  match s with
  | "" => true
  | _ => match fuel, space_width s with
         | S f, S n => all_space f (drop_bytes (S n) s)
         | _, _ => false
         end
  end.

Fixpoint trim_left_fuel (fuel : nat) (s : string) : string :=
  match fuel, space_width s with
  | S f, S n => trim_left_fuel f (drop_bytes (S n) s)
  | _, _ => s
  end.

Definition TrimLeftSpace (s : string) : string := trim_left_fuel (String.length s) s.

(** A suffix of spaces is dropped from the right, rune by rune. *)
Fixpoint TrimRightSpace (s : string) : string :=
  if all_space (String.length s) s then "" else
  match s with
  | "" => ""
  | String c s' => String c (TrimRightSpace s')
  end.

(** [strings.TrimSpace]. *)
Definition TrimSpace (s : string) : string := TrimRightSpace (TrimLeftSpace s).

(** [strings.Fields]: the maximal space-free runs. [acc] is the current run,
    reversed by construction of the append. *)
Fixpoint fields_fuel (fuel : nat) (acc s : string) : list string :=
  match fuel with
  | O => []
  | S f =>
      match s with
      | "" => if (acc =? "")%string then [] else [acc]
      | String c s' =>
          match space_width s with
          | O => fields_fuel f (acc +:+ String c "") s'
          | S n => (if (acc =? "")%string then [] else [acc])
                     ++ fields_fuel f "" (drop_bytes (S n) s)
          end
      end
  end.

Definition Fields (s : string) : list string := fields_fuel (S (String.length s)) "" s.

(** ** Case *)

Definition lower_byte (c : ascii) : ascii :=
  let n := code c in if ((65 <=? n) && (n <=? 90))%N then byte_of (n + 32) else c.

Fixpoint map_bytes (f : ascii -> ascii) (s : string) : string :=
  match s with
  | "" => ""
  | String c s' => String (f c) (map_bytes f s')
  end.

(** Lower-casing A-Z only: SQLite's [lower()], and [lower() COLLATE C]. *)
Definition ascii_lower (s : string) : string := map_bytes lower_byte s.

Fixpoint is_ascii (s : string) : bool :=
  match s with
  | "" => true
  | String c s' => (code c <? 128)%N && is_ascii s'
  end.

(** The Unicode case tables, as [strings.Map(unicode.ToLower, s)] applies
    them to a string with a non-ASCII byte. *)
Class Unicode := { unicode_lower : string -> string }.

(** [strings.ToLower]: ASCII strings take the byte path. *)
Definition ToLower `{Unicode} (s : string) : string :=
  if is_ascii s then ascii_lower s else unicode_lower s.

(** [strings.EqualFold(s, t)] for an ASCII [t]. Simple folding identifies an
    ASCII letter with its other case, and additionally U+017F (C5 BF) with
    [s] and U+212A (E2 84 AA) with [k]; no other rune folds to ASCII. *)
Fixpoint fold_bytes (fuel : nat) (s : string) : string :=
  match fuel with
  | O => s
  | S f =>
      match s with
      | String a (String b s') =>
          if ((code a =? 0xC5) && (code b =? 0xBF))%N then String "s"%char (fold_bytes f s') else
          match s' with
          | String c s'' =>
              if ((code a =? 0xE2) && (code b =? 0x84) && (code c =? 0xAA))%N
              then String "k"%char (fold_bytes f s'')
              else String (lower_byte a) (fold_bytes f (String b s'))
          | "" => String (lower_byte a) (fold_bytes f (String b ""))
          end
      | String a "" => String (lower_byte a) ""
      | "" => ""
      end
  end.

Definition EqualFold (s t : string) : bool :=
  (fold_bytes (String.length s) s =? ascii_lower t)%string.

(** ** Facts *)

Lemma append_cons c a b : String c a +:+ b = String c (a +:+ b).
Proof. done. Qed.

Lemma append_nil_l b : "" +:+ b = b.
Proof. done. Qed.

#[export] Hint Rewrite append_cons append_nil_l : tg_simpl.
Ltac str_simpl := repeat progress (autorewrite with tg_simpl in *; cbn in *).

Lemma append_nil_r s : s +:+ "" = s.
Proof. induction s as [|c s IH]; [done|]. by rewrite append_cons, IH. Qed.

Lemma append_assoc a b c : (a +:+ b) +:+ c = a +:+ (b +:+ c).
Proof. induction a as [|d a IH]; [done|]. by rewrite !append_cons, IH. Qed.

Lemma append_inj_l a b c : a +:+ b = a +:+ c -> b = c.
Proof.
  induction a as [|d a IH]; [done|]. rewrite !append_cons.
  intros [= H]. by apply IH.
Qed.

Lemma length_append a b : String.length (a +:+ b) = (String.length a + String.length b)%nat.
Proof. induction a as [|d a IH]; [done|]. rewrite append_cons. cbn. by rewrite IH. Qed.

Lemma Cut_Some s c a b :
  Cut s c = Some (a, b) <-> s = a +:+ String c b /\ ContainsByte a c = false.
Proof.
  revert a b. induction s as [|d s IH]; intros a b; str_simpl.
  - split; [done|]. intros [H _]. by destruct a.
  - destruct (Ascii.eqb d c) eqn:E.
    + apply Ascii.eqb_eq in E as ->. split.
      * intros [= <- <-]. done.
      * intros [H Hc]. destruct a as [|x a]; str_simpl; [by simplify_eq|].
        injection H as -> _. by rewrite Ascii.eqb_refl in Hc.
    + destruct (Cut s c) as [[x y]|] eqn:Ec.
      * split.
        -- intros [= <- <-]. destruct (proj1 (IH x y) eq_refl) as [-> Hx].
           split; [done|]. cbn. by rewrite E.
        -- intros [H Hc]. destruct a as [|x' a]; str_simpl.
           { injection H as -> _. by rewrite Ascii.eqb_refl in E. }
           injection H as -> H. apply orb_false_iff in Hc as [_ Hc].
           assert (Some (x, y) = Some (a, b)) as [= -> ->]; [|done].
           by apply IH.
      * split; [done|]. intros [H Hc]. destruct a as [|x' a]; str_simpl.
        { injection H as -> _. by rewrite Ascii.eqb_refl in E. }
        injection H as -> H. apply orb_false_iff in Hc as [_ Hc].
        assert (None = Some (a, b)) by (by apply IH). done.
Qed.

Lemma Cut_None s c : Cut s c = None <-> ContainsByte s c = false.
Proof.
  induction s as [|d s IH]; cbn; [done|].
  destruct (Ascii.eqb d c); cbn; [done|].
  destruct (Cut s c) as [[x y]|]; naive_solver.
Qed.

Lemma CutLast_None s c : CutLast s c = None <-> ContainsByte s c = false.
Proof.
  induction s as [|d s IH]; cbn; [done|].
  destruct (CutLast s c) as [[x y]|].
  - split; [done|]. intros [_ H]%orb_false_iff.
    by apply (proj2 IH) in H.
  - rewrite (proj1 IH eq_refl). destruct (Ascii.eqb d c); naive_solver.
Qed.

Lemma CutLast_Some s c a b :
  CutLast s c = Some (a, b) <-> s = a +:+ String c b /\ ContainsByte b c = false.
Proof.
  revert a b. induction s as [|d s IH]; intros a b; str_simpl.
  - split; [done|]. intros [H _]. by destruct a.
  - destruct (CutLast s c) as [[x y]|] eqn:Ec.
    + split.
      * intros [= <- <-]. destruct (proj1 (IH x y) eq_refl) as [-> Hx]. done.
      * intros [H Hc]. destruct a as [|x' a]; str_simpl.
        { injection H as -> ->. apply CutLast_None in Hc. congruence. }
        injection H as -> H.
        assert (Some (x, y) = Some (a, b)) as [= -> ->]; [|done]. by apply IH.
    + split.
      * destruct (Ascii.eqb d c) eqn:E; [|done]. intros [= <- <-].
        apply Ascii.eqb_eq in E as ->. split; [done|]. by apply CutLast_None.
      * intros [H Hc]. destruct a as [|x' a]; str_simpl.
        { injection H as -> ->. by rewrite Ascii.eqb_refl. }
        injection H as -> H.
        assert (None = Some (a, b)) by (by apply IH). done.
Qed.

Lemma ContainsByte_app a b c :
  ContainsByte (a +:+ b) c = ContainsByte a c || ContainsByte b c.
Proof. induction a as [|d a IH]; str_simpl; [done|]. by rewrite IH, orb_assoc. Qed.

Lemma map_bytes_app f a b : map_bytes f (a +:+ b) = map_bytes f a +:+ map_bytes f b.
Proof. induction a as [|d a IH]; str_simpl; [done|]. by rewrite IH. Qed.

Lemma lower_byte_idem c : lower_byte (lower_byte c) = lower_byte c.
Proof. destruct c as [[] [] [] [] [] [] [] []]; reflexivity. Qed.

Lemma ascii_lower_idem s : ascii_lower (ascii_lower s) = ascii_lower s.
Proof.
  unfold ascii_lower. induction s as [|c s IH]; cbn; [done|].
  by rewrite lower_byte_idem, IH.
Qed.

Lemma Split_nonempty s c : Split s c <> [].
Proof.
  induction s as [|d s IH]; cbn; [done|].
  destruct (Split s c); [done|]. by destruct (Ascii.eqb d c).
Qed.

Lemma Split_none s c : ContainsByte s c = false -> Split s c = [s].
Proof.
  induction s as [|d s IH]; [done|]. cbn. intros [Hd Hs]%orb_false_iff.
  by rewrite (IH Hs), Hd.
Qed.

Lemma Split_cons s t c : ContainsByte s c = false -> Split (s +:+ String c t) c = s :: Split t c.
Proof.
  induction s as [|d s IH]; cbn [ContainsByte].
  - intros _. rewrite append_nil_l. cbn [Split]. destruct (Split t c) eqn:E; [by apply Split_nonempty in E|]. by rewrite Ascii.eqb_refl.
  - intros [Hd Hs]%orb_false_iff. rewrite append_cons. cbn [Split]. by rewrite (IH Hs), Hd.
Qed.

Lemma HasPrefix_append p s : HasPrefix (p +:+ s) p = true.
Proof.
  unfold HasPrefix. induction p as [|c p IH]; [by destruct s|]. rewrite append_cons. cbn.
  by destruct (Ascii.ascii_dec c c).
Qed.

Example TrimSpace_ex : TrimSpace "  a b	 " = "a b". Proof. reflexivity. Qed.
Example Fields_ex : Fields " openid  email " = ["openid"; "email"]. Proof. reflexivity. Qed.
Example EqualFold_ex : EqualFold "bAsIc " "Basic " = true. Proof. reflexivity. Qed.
