(* ===== verification/GoTime.v ===== *)
(** * Calendar time and [time.Format]

    Instants count nanoseconds from the Unix epoch. The calendar is the
    proleptic Gregorian one; a zone is its offset in seconds. [Format] reads the
    layout the way [time.nextStdChunk] does, for the elements the program's
    layouts use. *)

From stdpp Require Import pretty.
From S2P Require Import Prelude GoStrings.

Definition Millisecond : duration := 1000 * Microsecond.
Definition Day : duration := 24 * Hour.

(** ** The calendar *)

(** Days since 1970-01-01 as year, month and day: eras of 400 years that start
    in March. *)
Definition year_of_era (doe : Z) : Z := (doe - doe / 1460 + doe / 36524 - doe / 146096) / 365.

Definition civil_of_days (days : Z) : Z * Z * Z :=
  let z := days + 719468 in
  let era := z / 146097 in
  let doe := z - era * 146097 in
  let yoe := year_of_era doe in
  let doy := doe - (365 * yoe + yoe / 4 - yoe / 100) in
  let mp := (5 * doy + 2) / 153 in
  let day := doy - (153 * mp + 2) / 5 + 1 in
  let month := if mp <? 10 then mp + 3 else mp - 9 in
  (yoe + era * 400 + (if month <=? 2 then 1 else 0), month, day).

Definition days_of_civil (year month day : Z) : Z :=
  let y := if month <=? 2 then year - 1 else year in
  let era := y / 400 in
  let yoe := y - era * 400 in
  let mp := if 2 <? month then month - 3 else month + 9 in
  let doy := (153 * mp + 2) / 5 + day - 1 in
  era * 146097 + (yoe * 365 + yoe / 4 - yoe / 100 + doy) - 719468.

(** [t.Date()], [t.Clock()] and [t.Nanosecond()] in the zone. *)
Definition in_zone (t : time) (offset : Z) : Z := t + offset * Second.
Definition Date (t : time) (offset : Z) : Z * Z * Z := civil_of_days (in_zone t offset / Day).
Definition Clock (t : time) (offset : Z) : Z * Z * Z :=
  let s := in_zone t offset mod Day / Second in (s / 3600, s / 60 mod 60, s mod 60).
Definition Nanosecond_ (t : time) : Z := t mod Second.

(** ** Formatting *)

Definition zeros (n : nat) : string := Nat.iter n (String "0") "".

(** [time.appendInt(nil, x, width)]: the sign, then zeros up to the width. *)
Definition appendInt (x : Z) (width : nat) : string :=
  let u := pretty (Z.abs x) in
  (if x <? 0 then "-" else "") +:+ zeros (width - String.length u) +:+ u.

Inductive chunk :=
  | stdLongYear | stdZeroMonth | stdZeroDay | stdHour | stdZeroMinute | stdZeroSecond
  | stdFracSecond0 (digits : nat)
  | stdFracSecond9 (digits : nat)
  | stdISO8601TZ
  | stdISO8601ColonTZ
  | literal (c : ascii).

Definition chunks : list (string * chunk) :=
  [("2006", stdLongYear); ("01", stdZeroMonth); ("02", stdZeroDay); ("15", stdHour); ("04", stdZeroMinute); ("05", stdZeroSecond);
   (".000", stdFracSecond0 3); (".999999999", stdFracSecond9 9); ("Z0700", stdISO8601TZ); ("Z07:00", stdISO8601ColonTZ)].

Definition next_chunk (layout : string) : option (string * chunk) :=
  List.find (fun pc => String.prefix pc.1 layout) chunks.

(** Each step consumes a byte or more. *)
Fixpoint parse_layout (fuel : nat) (layout : string) : list chunk :=
  match fuel, layout with
  | S fuel, String c rest =>
      match next_chunk layout with
      | Some (p, k) => k :: parse_layout fuel (String.substring (String.length p) (String.length layout - String.length p) layout)
      | None => literal c :: parse_layout fuel rest
      end
  | _, _ => []
  end.

Fixpoint trim_zeros (s : string) : string :=
  match s with
  | "" => ""
  | String c s => match trim_zeros s with "" => if Ascii.eqb c "0" then "" else String c "" | t => String c t end
  end.

Definition format_zone (sep : string) (offset : Z) : string :=
  if offset =? 0 then "Z"
  else
    let zone := Z.quot offset 60 in
    (if zone <? 0 then "-" else "+") +:+ appendInt (Z.abs zone / 60) 2 +:+ sep +:+ appendInt (Z.abs zone mod 60) 2.

Definition format_chunk (t : time) (offset : Z) (k : chunk) : string :=
  let '(year, month, day) := Date t offset in
  let '(hour, minute, sec) := Clock t offset in
  match k with
  | stdLongYear => appendInt year 4
  | stdZeroMonth => appendInt month 2
  | stdZeroDay => appendInt day 2
  | stdHour => appendInt hour 2
  | stdZeroMinute => appendInt minute 2
  | stdZeroSecond => appendInt sec 2
  | stdFracSecond0 n => "." +:+ appendInt (Nanosecond_ t / 10 ^ (9 - Z.of_nat n)) n
  | stdFracSecond9 n =>
      match trim_zeros (appendInt (Nanosecond_ t / 10 ^ (9 - Z.of_nat n)) n) with
      | "" => ""
      | s => "." +:+ s
      end
  | stdISO8601TZ => format_zone "" offset
  | stdISO8601ColonTZ => format_zone ":" offset
  | literal c => String c ""
  end.

(** [t.Format(layout)]. *)
Definition Format (layout : string) (t : time) (offset : Z) : string :=
  String.concat "" (List.map (format_chunk t offset) (parse_layout (String.length layout) layout)).

Definition RFC3339 : string := "2006-01-02T15:04:05Z07:00".
Definition RFC3339Nano : string := "2006-01-02T15:04:05.999999999Z07:00".

Example format_epoch : Format RFC3339 0 0 = "1970-01-01T00:00:00Z".
Proof. vm_compute. reflexivity. Qed.

Example format_leap : Format RFC3339Nano (951827696 * Second + 120000000) (-16200) = "2000-02-29T08:04:56.12-04:30".
Proof. vm_compute. reflexivity. Qed.

(** ** Facts *)

(** What a day of an era satisfies. *)
Lemma era_day doe :
  let yoe := year_of_era doe in
  let doy := doe - (365 * yoe + yoe / 4 - yoe / 100) in
  let mp := (5 * doy + 2) / 153 in
  let day := doy - (153 * mp + 2) / 5 + 1 in
  0 <= doe < 146097 -> 0 <= yoe < 400 /\ 0 <= mp < 12 /\ 1 <= day <= 31.
Proof.
  intros yoe doy mp day Hd. assert (0 <= yoe < 400 /\ 0 <= doy <= 365) as [Hy Hdoy].
  { unfold doy, yoe, year_of_era. Z.to_euclidean_division_equations. lia. }
  split; [done|]. unfold day, mp. clearbody doy. Z.to_euclidean_division_equations. lia.
Qed.

(** A date is a date. *)
Lemma civil_range days y m d : civil_of_days days = (y, m, d) -> 1 <= m <= 12 /\ 1 <= d <= 31.
Proof.
  unfold civil_of_days. set (doe := days + 719468 - (days + 719468) / 146097 * 146097).
  destruct (era_day doe) as (_ & Hm & Hd); [unfold doe; Z.to_euclidean_division_equations; lia|].
  intros [= _ <- <-]. split; [|done]. case Z.ltb_spec; lia.
Qed.

(** A date determines its day. *)
Lemma days_of_civil_of_days days : let '(y, m, d) := civil_of_days days in days_of_civil y m d = days.
Proof.
  unfold civil_of_days, days_of_civil. set (era := (days + 719468) / 146097). set (doe := days + 719468 - era * 146097).
  assert (0 <= doe < 146097) as Hdoe by (unfold doe, era; Z.to_euclidean_division_equations; lia).
  destruct (era_day doe Hdoe) as (Hyoe & Hmp & _).
  set (yoe := year_of_era doe) in *. set (doy := doe - _) in *. set (mp := (5 * doy + 2) / 153) in *.
  set (month := if mp <? 10 then mp + 3 else mp - 9) in *.
  assert ((if month <=? 2 then yoe + era * 400 + (if month <=? 2 then 1 else 0) - 1 else yoe + era * 400 + (if month <=? 2 then 1 else 0)) = yoe + era * 400) as ->
    by (case_match; lia).
  rewrite Z.div_add, (Z.div_small yoe) by lia.
  assert ((if 2 <? month then month - 3 else month + 9) = mp) as -> by (unfold month; repeat case_match; rewrite ?Z.ltb_lt, ?Z.ltb_ge in *; lia).
  assert (doy = doe - (365 * yoe + yoe / 4 - yoe / 100)) as Ey by done. assert (doe = days + 719468 - era * 146097) as Ee by done.
  clear - Ey Ee. clearbody mp doy yoe doe era. rewrite Z.add_0_l. replace (yoe + era * 400 - era * 400) with yoe by lia. lia.
Qed.

(** *** Decimal digits *)

Definition digit (d : Z) : string := String (pretty_N_char (Z.to_N d)) "".

Lemma pretty_go_app x s : pretty_N_go x s = pretty_N_go x "" +:+ s.
Proof.
  revert s. induction (N.lt_wf_0 x) as [x _ IH]; intros s. destruct (decide (x = 0)%N) as [->|Hx]; [done|].
  rewrite (pretty_N_go_step x s), (pretty_N_go_step x "") by lia.
  assert (x / 10 < x)%N by (apply N.div_lt; lia). rewrite (IH _ H (String _ s)), (IH _ H (String _ "")). by rewrite append_assoc.
Qed.

Lemma pretty_digit x : 0 <= x < 10 -> pretty x = digit x.
Proof.
  intros Hx. unfold digit. assert (x = 0 \/ x = 1 \/ x = 2 \/ x = 3 \/ x = 4 \/ x = 5 \/ x = 6 \/ x = 7 \/ x = 8 \/ x = 9) as Hc by lia.
  repeat destruct Hc as [->|Hc]; [vm_compute; reflexivity..|]. subst x. by vm_compute.
Qed.

Lemma pretty_step x : 10 <= x -> pretty x = pretty (x / 10) +:+ digit (x mod 10).
Proof.
  intros Hx. assert (forall z, 0 < z -> pretty z = pretty_N_go (Z.to_N z) "") as Hp.
  { intros z Hz. destruct z as [|p|p]; [lia| |lia]. change (pretty (Z.pos p)) with (pretty (N.pos p)). unfold pretty, pretty_N. by rewrite decide_False. }
  rewrite (Hp x), (Hp (x / 10)) by (try apply Z.div_str_pos; lia). rewrite pretty_N_go_step by lia. rewrite pretty_go_app. unfold digit.
  by rewrite Z2N.inj_div, Z2N.inj_mod by lia.
Qed.

Lemma pretty_length n x : 10 ^ Z.of_nat n <= x -> (n < String.length (pretty x))%nat.
Proof.
  revert x. induction n as [|n IH]; intros x Hx.
  - change (1 <= x) in Hx. destruct (decide (x < 10)); [by rewrite pretty_digit by lia; cbn; lia|].
    rewrite pretty_step by lia. rewrite length_append. cbn. lia.
  - rewrite Nat2Z.inj_succ, Z.pow_succ_r in Hx by lia. assert (1 <= 10 ^ Z.of_nat n) by (apply (Z.pow_le_mono_r 10 0); lia).
    rewrite pretty_step by lia. rewrite length_append. cbn [digit String.length].
    assert (n < String.length (pretty (x / 10)%Z))%nat by (apply IH, Z.div_le_lower_bound; lia). lia.
Qed.

(** ** Durations *)

(** [fmtFrac]: the fraction of [10^prec]-ths without trailing zeros. *)
Definition fmtFrac (u : Z) (prec : nat) : string :=
  match trim_zeros (appendInt (u mod 10 ^ Z.of_nat prec) prec) with
  | "" => ""
  | f => "." +:+ f
  end.

(** [d.String()]. *)
Definition Duration_String (d : duration) : string :=
  let u := Z.abs d in
  (if d <? 0 then "-" else "") +:+
  if u =? 0 then "0s"
  else if u <? Microsecond then pretty u +:+ "ns"
  else if u <? Millisecond then pretty (u / 1000) +:+ fmtFrac u 3 +:+ "µs"
  else if u <? Second then pretty (u / 1000000) +:+ fmtFrac u 6 +:+ "ms"
  else
    let frac := fmtFrac u 9 in
    let s := u / Second in
    (if 3600 <=? s then pretty (s / 3600) +:+ "h" else "") +:+ (if 60 <=? s then pretty (s / 60 mod 60) +:+ "m" else "")
    +:+ pretty (s mod 60) +:+ frac +:+ "s".

Example durations : Duration_String (90 * Minute + 1500 * Millisecond) = "1h30m1.5s" /\ Duration_String (- 1500) = "-1.5µs".
Proof. vm_compute. done. Qed.
