(* ===== verification/LogTime.v ===== *)
(** * The log's timestamps (log/timefmt.go)

    The hand-written encoder of the timestamp, and that it writes what
    [time.Format] writes. *)

From stdpp Require Import pretty.
From S2P Require Import Prelude GoStrings GoTime.

Definition iso8601Layout : string := "2006-01-02T15:04:05.000Z0700".
Definition digits : string := "0123456789abcdef".

(** [digits[i]]; the index is below 16 wherever it is used. *)
Definition digits_at (i : Z) : string := match String.get (Z.to_nat i) digits with Some c => String c "" | None => "" end.

Definition append2 (b : string) (x : Z) : string := b +:+ digits_at (x / 10) +:+ digits_at (x mod 10).

(** [for i, p := 1, 10; i < width; i, p = i+1, p*10 { if x < p { ... } }]. *)
Fixpoint pad_loop (n : nat) (x p : Z) (b : string) : string :=
  match n with
  | O => b
  | S n => pad_loop n x (p * 10) (if x <? p then b +:+ "0" else b)
  end.

Definition appendPadded (b : string) (x : Z) (width : nat) : string :=
  if (width =? 4)%nat && (0 <=? x) && (x <? 10000) then
    b +:+ digits_at (x / 1000) +:+ digits_at (x / 100 mod 10) +:+ digits_at (x / 10 mod 10) +:+ digits_at (x mod 10)
  else if (width =? 2)%nat && (0 <=? x) && (x <? 100) then append2 b x
  else
    let '(b, x) := if x <? 0 then (b +:+ "-", - x) else (b, x) in
    pad_loop (width - 1) x 10 b +:+ pretty x.

Definition appendClock (b : string) (t : time) (offset : Z) : string :=
  let '(hour, minute, sec) := Clock t offset in
  let ms := Nanosecond_ t / 1000000 in
  let b := append2 b hour +:+ ":" in
  let b := append2 b minute +:+ ":" in
  let b := append2 b sec in
  b +:+ "." +:+ digits_at (ms / 100) +:+ digits_at (ms / 10 mod 10) +:+ digits_at (ms mod 10).

Definition appendISO8601 (b : string) (t : time) (offset : Z) : string :=
  let '(year, month, day) := Date t offset in
  let b := appendPadded b year 4 +:+ "-" in
  let b := append2 b month +:+ "-" in
  let b := append2 b day +:+ "T" in
  let b := appendClock b t offset in
  if offset =? 0 then b +:+ "Z"
  else
    let zone := Z.quot offset 60 in
    let '(b, zone) := if zone <? 0 then (b +:+ "-", - zone) else (b +:+ "+", zone) in
    append2 (appendPadded b (zone / 60) 2) (zone mod 60).

(** ** Facts *)

Lemma digits_at_digit d : 0 <= d < 10 -> digits_at d = digit d.
Proof.
  intros Hd. assert (d = 0 \/ d = 1 \/ d = 2 \/ d = 3 \/ d = 4 \/ d = 5 \/ d = 6 \/ d = 7 \/ d = 8 \/ d = 9) as Hc by lia.
  repeat destruct Hc as [->|Hc]; [reflexivity..|]. by subst d.
Qed.

(** The digits of a number of two to four digits. *)
Lemma pretty2 x : 10 <= x < 100 -> pretty x = digit (x / 10) +:+ digit (x mod 10).
Proof. intros Hx. rewrite pretty_step by lia. rewrite pretty_digit; [done|]. Z.to_euclidean_division_equations. lia. Qed.

Lemma pretty3 x : 100 <= x < 1000 -> pretty x = digit (x / 100) +:+ digit (x / 10 mod 10) +:+ digit (x mod 10).
Proof.
  intros Hx. rewrite pretty_step by lia. rewrite pretty2 by (Z.to_euclidean_division_equations; lia).
  rewrite Z.div_div by lia. by rewrite append_assoc.
Qed.

Lemma pretty4 x : 1000 <= x < 10000 -> pretty x = digit (x / 1000) +:+ digit (x / 100 mod 10) +:+ digit (x / 10 mod 10) +:+ digit (x mod 10).
Proof.
  intros Hx. rewrite pretty_step by lia. rewrite pretty3 by (Z.to_euclidean_division_equations; lia).
  rewrite !Z.div_div by lia. by rewrite !append_assoc.
Qed.

Lemma append2_spec b x : 0 <= x < 100 -> append2 b x = b +:+ appendInt x 2.
Proof.
  intros Hx. unfold append2, appendInt. rewrite (proj2 (Z.ltb_ge x 0)), Z.abs_eq by lia.
  rewrite !digits_at_digit by (Z.to_euclidean_division_equations; lia). f_equal.
  destruct (decide (x < 10)) as [?|?].
  - rewrite pretty_digit by lia. rewrite Z.div_small, Z.mod_small by lia. reflexivity.
  - by rewrite pretty2 by lia.
Qed.

(** How many zeros a number of [u] needs. *)
Lemma zeros_needed u w : 0 <= u -> (w = 2 \/ w = 4)%nat ->
  zeros (w - String.length (pretty u)) =
    if decide (w = 2%nat) then (if u <? 10 then "0" else "")
    else if u <? 10 then "000" else if u <? 100 then "00" else if u <? 1000 then "0" else "".
Proof.
  intros Hu Hw. destruct (Z.ltb_spec u 10).
  { rewrite pretty_digit by lia. destruct Hw as [->| ->]; reflexivity. }
  destruct (Z.ltb_spec u 100).
  { rewrite pretty2 by lia. destruct Hw as [->| ->]; reflexivity. }
  destruct (Z.ltb_spec u 1000).
  { rewrite pretty3 by lia. destruct Hw as [->| ->]; reflexivity. }
  pose proof (pretty_length 3 u ltac:(lia)). destruct Hw as [->| ->]; case_decide; try done;
    (replace (_ - _)%nat with 0%nat by lia; reflexivity).
Qed.

Lemma pad_loop_spec u w b : 0 <= u -> (w = 2 \/ w = 4)%nat -> pad_loop (w - 1) u 10 b = b +:+ zeros (w - String.length (pretty u)).
Proof.
  intros Hu Hw. rewrite zeros_needed by done. destruct Hw as [->| ->]; cbn [pad_loop Nat.sub]; case_decide; try done.
  - by destruct (Z.ltb_spec u 10); rewrite ?append_nil_r.
  - change (10 * 10) with 100. change (100 * 10) with 1000.
    destruct (Z.ltb_spec u 10), (Z.ltb_spec u 100), (Z.ltb_spec u 1000); try lia; rewrite ?append_assoc, ?append_nil_r; done.
Qed.

Lemma appendPadded_spec b x w : (w = 2 \/ w = 4)%nat -> appendPadded b x w = b +:+ appendInt x w.
Proof.
  intros Hw. unfold appendPadded. destruct ((w =? 4)%nat && (0 <=? x) && (x <? 10000)) eqn:Hf.
  { apply andb_true_iff in Hf as [[->%Nat.eqb_eq Hx%Z.leb_le]%andb_true_iff Hx'%Z.ltb_lt].
    rewrite !digits_at_digit by (Z.to_euclidean_division_equations; lia). f_equal. unfold appendInt.
    rewrite (proj2 (Z.ltb_ge x 0)), Z.abs_eq, zeros_needed by lia. case_decide; [done|].
    destruct (Z.ltb_spec x 10); [rewrite pretty_digit by lia|destruct (Z.ltb_spec x 100); [rewrite pretty2 by lia|
      destruct (Z.ltb_spec x 1000); [rewrite pretty3 by lia|by rewrite pretty4 by lia]]].
    - rewrite (Z.div_small x 1000), (Z.div_small x 100), (Z.div_small x 10), (Z.mod_small x) by lia. reflexivity.
    - rewrite (Z.div_small x 1000), (Z.div_small x 100), (Z.mod_small (x / 10)) by (Z.to_euclidean_division_equations; lia). reflexivity.
    - rewrite (Z.div_small x 1000), (Z.mod_small (x / 100)) by (Z.to_euclidean_division_equations; lia). reflexivity. }
  destruct ((w =? 2)%nat && (0 <=? x) && (x <? 100)) eqn:Hf2.
  { apply andb_true_iff in Hf2 as [[->%Nat.eqb_eq Hx%Z.leb_le]%andb_true_iff Hx'%Z.ltb_lt]. by apply append2_spec. }
  unfold appendInt. destruct (Z.ltb_spec x 0).
  - rewrite pad_loop_spec by (done || lia). rewrite Z.abs_neq by lia. by rewrite !append_assoc.
  - rewrite pad_loop_spec by (done || lia). rewrite Z.abs_eq by lia. by rewrite !append_assoc.
Qed.

Lemma clock_range t offset h m s : Clock t offset = (h, m, s) -> 0 <= h < 100 /\ 0 <= m < 100 /\ 0 <= s < 100.
Proof.
  unfold Clock. intros [= <- <- <-]. assert (0 <= in_zone t offset mod Day / Second < 86400).
  { pose proof (Z.mod_pos_bound (in_zone t offset) Day ltac:(done)). split; [apply Z.div_pos; [lia|done]|]. apply Z.div_lt_upper_bound; [done|]. change (Second * 86400) with Day. lia. }
  Z.to_euclidean_division_equations. lia.
Qed.

Lemma millis_spec ms : 0 <= ms < 1000 ->
  digits_at (ms / 100) +:+ digits_at (ms / 10 mod 10) +:+ digits_at (ms mod 10) = appendInt ms 3.
Proof.
  intros Hms. rewrite !digits_at_digit by (Z.to_euclidean_division_equations; lia). unfold appendInt.
  rewrite (proj2 (Z.ltb_ge ms 0)), Z.abs_eq by lia. destruct (decide (ms < 10)); [|destruct (decide (ms < 100))].
  - rewrite pretty_digit by lia. rewrite (Z.div_small ms 100), (Z.div_small ms 10), (Z.mod_small ms) by lia. reflexivity.
  - rewrite pretty2 by lia. rewrite (Z.div_small ms 100), (Z.mod_small (ms / 10)) by (Z.to_euclidean_division_equations; lia). reflexivity.
  - by rewrite pretty3 by lia.
Qed.

(** The log's own timestamp encoder writes, byte for byte, what
    [time.Format] writes for the layout it replaces: for every instant, years
    beyond four digits and before the common era included, and in every zone. *)
Theorem appendISO8601_is_Format b t offset : appendISO8601 b t offset = b +:+ Format iso8601Layout t offset.
Proof.
  unfold Format. change (parse_layout _ iso8601Layout) with
    [stdLongYear; literal "-"; stdZeroMonth; literal "-"; stdZeroDay; literal "T"; stdHour; literal ":"; stdZeroMinute; literal ":";
     stdZeroSecond; stdFracSecond0 3; stdISO8601TZ].
  unfold appendISO8601, format_chunk. destruct (Date t offset) as [[year month] day] eqn:Hd. destruct (Clock t offset) as [[h m] s] eqn:Hc.
  cbn [List.map String.concat]. unfold appendClock. rewrite Hc.
  apply civil_range in Hd as [Hm Hday]. apply clock_range in Hc as (? & ? & ?).
  assert (0 <= Nanosecond_ t / 1000000 < 1000) as Hms.
  { unfold Nanosecond_. pose proof (Z.mod_pos_bound t Second ltac:(done)). split; [apply Z.div_pos; lia|]. apply Z.div_lt_upper_bound; [done|]. change (1000000 * 1000) with Second. lia. }
  assert (digits_at (Nanosecond_ t / 1000000 / 100) +:+ digits_at (Nanosecond_ t / 1000000 / 10 mod 10) +:+ digits_at (Nanosecond_ t / 1000000 mod 10)
          = appendInt (Nanosecond_ t / 1000000) 3) as Hfrac.
  { generalize dependent (Nanosecond_ t / 1000000). intros ms Hms. apply millis_spec. lia. }
  change (10 ^ (9 - Z.of_nat 3)) with 1000000. rewrite <- Hfrac.
  rewrite !append2_spec, !appendPadded_spec by (auto || lia). unfold format_zone.
  destruct (offset =? 0).
  - by rewrite !append_assoc.
  - destruct (Z.ltb_spec (offset ÷ 60) 0).
    + rewrite append2_spec, appendPadded_spec, Z.abs_neq by (auto || (Z.to_euclidean_division_equations; lia) || lia). by rewrite !append_assoc.
    + rewrite append2_spec, appendPadded_spec, Z.abs_eq by (auto || (Z.to_euclidean_division_equations; lia) || lia). by rewrite !append_assoc.
Qed.
