(* ===== verification/GoErrors.v ===== *)
(** * Go errors and effects

    Go errors as values: sentinels compared by identity, the OAuth2 and HTTP
    status errors the handlers answer with, and [fmt.Errorf("...: %w", e)]
    wrappers that [errors.Is] and [errors.As] look through. The effects of a
    request handler (the state store, the clock, randomness, what it logs and
    counts) are a state-and-error monad over an explicit world. *)

From S2P Require Import Prelude.

(** ** Errors *)

Inductive sentinel :=
  (* perms, authz *)
  | ErrInvalidRole | ErrEmptyNamespace | ErrMalformedEntry | ErrWorkerRole
  | ErrWildcardNamespace | ErrInvalidRule | ErrNoPolicy
  (* oidc *)
  | ErrAuthRequestNotFound | ErrAuthCodeNotFound | ErrAuthCodeReused
  | ErrBrowserSessionNotFound | ErrNoSession
  | ErrDeviceCodeNotFound | ErrDuplicateDeviceCode | ErrDeviceCodeNotPending
  | ErrRefreshNotFound | ErrRefreshReused | ErrRefreshFamilyRevoked | errNoPermissions
  | ErrUnknownClient | ErrUnauthorizedClient | ErrRedirectURINotAllowed
  | ErrInvalidClientRegistration | ErrUnknownClientSecret | ErrMissingResponse
  (* keys *)
  | ErrKeypairExists | ErrNoKeypair | ErrKeypairNotFound | ErrLastActiveKeypair
  | ErrReplacementPending | ErrNoSigningKeys | ErrNoVerificationKeys
  | ErrTokenRevoked | ErrNotAccessToken
  | ErrUnsupportedAlgorithm | ErrNoEncryptionKey | ErrDecryptKeypair | ErrNotRSAPublicKey
  (* admin *)
  | ErrIntegrationKeyNotFound | ErrSessionNotFound | ErrEmptyOwner | ErrAdminEmptyNamespace
  (* cli *)
  | ErrInsecureIssuer | ErrUnsafeRedirect | ErrNoToken | ErrRefreshLockTimeout
  | ErrUserDenied | ErrDeviceCodeExpired | ErrInvalidGrant | ErrInvalidClient | ErrPollDeadlineExceeded
  (* the state backends *)
  | ErrDuplicateRefreshToken | ErrDuplicateAuthCode | ErrDuplicateInternalState
  | ErrDuplicateBrowserSession | ErrDuplicateKid | ErrTargetNotEmpty.

#[export] Instance sentinel_eq_dec : EqDecision sentinel.
Proof. solve_decision. Defined.

Inductive error :=
  | Sentinel (s : sentinel)
  (** [oauthErr(status, code, desc)]: an RFC 6749 error body. *)
  | OAuthError (status : Z) (oauth_code desc : string)
  (** [huma.ErrorNNN(msg)]: an HTTP status error. *)
  | StatusError (status : Z) (msg : string)
  (** [&UpstreamDenied{code, desc}]. *)
  | UpstreamDenied (denied_code denied_desc : string)
  (** [&UpstreamError{Reason, OAuthError, Timeout, Err}], which unwraps to
      [Err]. *)
  | UpstreamError (reason oauth_error : string) (timeout : bool) (e : error)
  (** [&ReplacementPendingError{Kid, ActivatesAt}], which
      [errors.Is] equates with [ErrReplacementPending]. *)
  | ReplacementPending (kid : string) (activates_at : Z)
  (** [fmt.Errorf("msg: %w", e)]. *)
  | Errorf (msg : string) (e : error)
  (** [errors.New(msg)], and failures of the database, the network, .... *)
  | Opaque (msg : string).

#[export] Instance error_eq_dec : EqDecision error.
Proof. solve_decision. Defined.

(** [errors.Is(err, sentinel)]. *)
Fixpoint errors_Is (e : error) (s : sentinel) : bool :=
  match e with
  | Sentinel s' => bool_decide (s' = s)
  | ReplacementPending _ _ => bool_decide (s = ErrReplacementPending)
  | Errorf _ e' | UpstreamError _ _ _ e' => errors_Is e' s
  | _ => false
  end.

(** [errors.As(err, &oe)] for [oe *oauthError]: status, code, description. *)
Fixpoint errors_As_oauth (e : error) : option (Z * string * string) :=
  match e with
  | OAuthError st c d => Some (st, c, d)
  | Errorf _ e' | UpstreamError _ _ _ e' => errors_As_oauth e'
  | _ => None
  end.

(** [errors.As(err, &denied)] for [denied *UpstreamDenied]. *)
Fixpoint errors_As_denied (e : error) : option (string * string) :=
  match e with
  | UpstreamDenied c d => Some (c, d)
  | Errorf _ e' | UpstreamError _ _ _ e' => errors_As_denied e'
  | _ => None
  end.

(** [errors.As(err, &ue)] for [ue *UpstreamError]: reason, OAuth code, timeout. *)
Fixpoint errors_As_upstream (e : error) : option (string * string * bool) :=
  match e with
  | UpstreamError r o t _ => Some (r, o, t)
  | Errorf _ e' => errors_As_upstream e'
  | _ => None
  end.

(** [errors.As(err, &se)] for [se huma.StatusError], whose [GetStatus] both
    status errors and OAuth errors implement. *)
Fixpoint errors_As_status (e : error) : option Z :=
  match e with
  | OAuthError st _ _ | StatusError st _ => Some st
  | Errorf _ e' | UpstreamError _ _ _ e' => errors_As_status e'
  | _ => None
  end.

(** The HTTP status a handler error is answered with: its own, or 500. *)
Definition http_status (e : error) : Z :=
  match errors_As_status e with Some st => st | None => 500 end.

(** ** The world of a request *)

(** What a handler makes observable beside its response. *)
Inductive event :=
  (** [redact.Declare(ctx, kind, values...)]. *)
  | Declared (kind : string) (values : list string)
  (** a counter of [oidc.Telemetry], with its labels. *)
  | Counted (metric : string) (labels : list string)
  (** one structured log line: message and the security-relevant attributes. *)
  | Logged (msg : string) (attrs : list (string * string)).

(** The environment: the application clock, read once per tick, and the
    randomness source, [entropy i n] being the [n] bytes of draw [i] or a
    failure of [rand.Read]. *)
Class Env := { clock : nat -> time; entropy : nat -> nat -> option string }.

Record World (S : Type) := mkWorld {
  w_store : S;
  w_tick : nat;
  w_draw : nat;
  w_trace : list event;
  (** the signer's last parsed private key: its kid and raw form. *)
  w_memo : option (string * string)
}.
Arguments mkWorld {S}.
Arguments w_store {S}.
Arguments w_tick {S}.
Arguments w_draw {S}.
Arguments w_trace {S}.
Arguments w_memo {S}.

(** ** The handler monad: state, and a Go error or a value *)

Definition M (S A : Type) : Type := World S -> World S * (error + A).

#[export] Instance M_ret {S} : MRet (M S) := fun A x w => (w, inr x).
#[export] Instance M_bind {S} : MBind (M S) := fun A B f m w =>
  match m w with
  | (w', inr x) => f x w'
  | (w', inl e) => (w', inl e)
  end.

Definition throw {S A} (e : error) : M S A := fun w => (w, inl e).

(** Run [m] and hand its error, if any, to the caller as a value. *)
Definition attempt {S A} (m : M S A) : M S (error + A) := fun w =>
  let (w', r) := m w in (w', inr r).

(** An operation of the state store. *)
Definition on_store {S A} (f : S -> S * A) : M S A := fun w =>
  let (s', r) := f (w_store w) in
  (mkWorld s' (w_tick w) (w_draw w) (w_trace w) (w_memo w), inr r).

Definition emit {S} (ev : event) : M S unit := fun w =>
  (mkWorld (w_store w) (w_tick w) (w_draw w) (w_trace w ++ [ev]) (w_memo w), inr tt).

(** The signer's memo. *)
Definition get_memo {S} : M S (option (string * string)) := fun w => (w, inr (w_memo w)).
Definition put_memo {S} (m : string * string) : M S unit := fun w =>
  (mkWorld (w_store w) (w_tick w) (w_draw w) (w_trace w) (Some m), inr tt).

(** [if err != nil { return nil, wrap(err) }]. *)
Definition or_throw {S A} (wrap : error -> error) (r : A * option error) : M S A :=
  match r with
  | (x, None) => mret x
  | (_, Some e) => throw (wrap e)
  end.

Section Effects.
Context `{Env} {S : Type}.

(** [t.now()]: every read takes the next tick. *)
Definition now : M S time := fun w =>
  (mkWorld (w_store w) (Datatypes.S (w_tick w)) (w_draw w) (w_trace w) (w_memo w),
   inr (clock (w_tick w))).

(** [rand.Read(b)] for [len(b) = n]. *)
Definition rand_Read (n : nat) : M S (option string) := fun w =>
  (mkWorld (w_store w) (w_tick w) (Datatypes.S (w_draw w)) (w_trace w) (w_memo w),
   inr (entropy (w_draw w) n)).

End Effects.

(** A clock that never runs backwards (internal/clock over the OS clock). *)
Definition monotone_clock `{Env} : Prop :=
  forall i j : nat, (i <= j)%nat -> clock i <= clock j.

(** [rand.Read(b)] fills the whole slice. *)
Definition entropy_sized `{Env} : Prop :=
  forall i n b, entropy i n = Some b -> String.length b = n.

(** ** Facts *)

Lemma bind_inr {S A B} (m : M S A) (f : A -> M S B) w w' b :
  (m ≫= f) w = (w', inr b) ->
  exists w1 a, m w = (w1, inr a) /\ f a w1 = (w', inr b).
Proof.
  unfold mbind, M_bind. destruct (m w) as [w1 [e|a]] eqn:E; [done|]. eauto.
Qed.

Lemma bind_cases {S A B} (m : M S A) (f : A -> M S B) w w' r :
  (m ≫= f) w = (w', r) ->
  (exists e, m w = (w', inl e) /\ r = inl e) \/
  (exists w1 a, m w = (w1, inr a) /\ f a w1 = (w', r)).
Proof.
  unfold mbind, M_bind. destruct (m w) as [w1 [e|a]] eqn:E; intros Hr.
  - left. exists e. by simplify_eq.
  - right. eauto.
Qed.

Lemma errors_Is_Errorf msg e s : errors_Is (Errorf msg e) s = errors_Is e s.
Proof. done. Qed.
#[export] Hint Rewrite @errors_Is_Errorf : tg_simpl.

(** ** Relational reasoning

    [respects R m]: whatever [m] does, it relates the world before and after by
    [R]. For a preorder [R] this composes along the structure of a handler. *)
Definition respects {S A} (R : World S -> World S -> Prop) (m : M S A) : Prop :=
  forall w w' r, m w = (w', r) -> R w w'.

Section Respects.
Context {S : Type} (R : World S -> World S -> Prop) `{!PreOrder R}.

Lemma respects_bind {A B} (m : M S A) (f : A -> M S B) :
  respects R m -> (forall x, respects R (f x)) -> respects R (m ≫= f).
Proof.
  intros Hm Hf w w' r [(e & Hm1 & ->)|(w1 & x & Hm1 & Hf1)]%bind_cases; [by eapply Hm|].
  etrans; [by eapply Hm|by eapply Hf].
Qed.

Lemma respects_ret {A} (x : A) : respects R (mret x).
Proof. by intros w w' r [= <- <-]. Qed.

Lemma respects_throw {A} e : respects R (@throw S A e).
Proof. by intros w w' r [= <- <-]. Qed.

Lemma respects_attempt {A} (m : M S A) : respects R m -> respects R (attempt m).
Proof.
  intros Hm w w' r. unfold attempt. destruct (m w) as [w1 r1] eqn:E. intros [= <- <-]. eauto.
Qed.

End Respects.

#[export] Hint Extern 1 (respects _ (mret _)) => apply respects_ret; apply _ : tg.
#[export] Hint Extern 1 (respects _ (throw _)) => apply respects_throw; apply _ : tg.

(** Walk a handler: split its branches and binds down to its primitives. *)
Ltac respects :=
  repeat first
    [ progress intros
    | solve [auto with tg]
    | apply respects_bind; [apply _|..]
    | apply respects_attempt
    | match goal with |- respects _ (match ?x with _ => _ end) => destruct x end
    | match goal with |- respects _ (let '(_, _) := ?x in _) => destruct x end ].

(** Evaluate the end of a run: a [mret] or a [throw]. *)
Ltac run_in H :=
  cbn in H; unfold mbind, M_bind, mret, M_ret, throw, now, rand_Read, emit, get_memo, put_memo in H; cbn in H; simplify_eq.

(** ** Observability

    [silent p]: no event that [p] selects was emitted. *)
Definition silent {S} (p : event -> bool) (w w' : World S) : Prop :=
  exists evs, w_trace w' = w_trace w ++ evs /\ Forall (fun ev => p ev = false) evs.

#[export] Instance silent_preorder S p : PreOrder (@silent S p).
Proof.
  split.
  - intros w. exists []. by rewrite app_nil_r.
  - intros w1 w2 w3 (e1 & H1 & F1) (e2 & H2 & F2). exists (e1 ++ e2).
    rewrite H2, H1, <- app_assoc. split; [done|]. by apply Forall_app.
Qed.

Lemma silent_same {S A} p (m : M S A) :
  (forall w w' r, m w = (w', r) -> w_trace w' = w_trace w) -> respects (silent p) m.
Proof. intros Hm w w' r Hr. exists []. rewrite app_nil_r. split; [by eapply Hm|constructor]. Qed.

Lemma silent_emit {S} p ev : p ev = false -> respects (silent p) (@emit S ev).
Proof. intros He w w' r [= <- <-]. exists [ev]. split; [done|]. by constructor. Qed.

Lemma silent_now `{Env} {S} p : respects (silent p) (@now _ S).
Proof. apply silent_same. by intros w w' r [= <- <-]. Qed.
Lemma silent_rand `{Env} {S} p n : respects (silent p) (@rand_Read _ S n).
Proof. apply silent_same. by intros w w' r [= <- <-]. Qed.
Lemma silent_store {S A} p (op : S -> S * A) : respects (silent p) (on_store op).
Proof. apply silent_same. intros w w' r. unfold on_store. destruct (op _). by intros [= <- <-]. Qed.

#[export] Hint Resolve silent_now silent_rand silent_store : tg.
#[export] Hint Extern 1 (respects (silent _) (emit _)) => apply silent_emit; reflexivity : tg.

(** ** Handlers that answer every failure themselves

    [always P m]: [m] never ends in an error of its own, and its result
    satisfies [P]. *)
Definition always {S A} (P : A -> Prop) (m : M S A) : Prop :=
  forall w w' r, m w = (w', r) -> exists x, r = inr x /\ P x.

Lemma always_bind {S A B} (P : B -> Prop) (m : M S A) (f : A -> M S B) :
  always (fun _ => True) m -> (forall x, always P (f x)) -> always P (m ≫= f).
Proof.
  intros Hm Hf w w' r [(e & Hm1 & ->)|(w1 & x & Hm1 & Hf1)]%bind_cases; [|by eapply Hf].
  by destruct (Hm _ _ _ Hm1) as (x & [=] & _).
Qed.

Lemma always_ret {S A} (P : A -> Prop) (x : A) : P x -> always (S := S) P (mret x).
Proof. intros Hx w w' r [= <- <-]. eauto. Qed.

Lemma always_emit {S} ev : always (fun _ => True) (@emit S ev).
Proof. intros w w' r [= <- <-]. eauto. Qed.
Lemma always_now `{Env} {S} : always (fun _ => True) (@now _ S).
Proof. intros w w' r [= <- <-]. eauto. Qed.
Lemma always_rand `{Env} {S} n : always (fun _ => True) (@rand_Read _ S n).
Proof. intros w w' r [= <- <-]. eauto. Qed.
Lemma always_store {S A} (op : S -> S * A) : always (fun _ => True) (on_store op).
Proof. intros w w' r. unfold on_store. destruct (op _). intros [= <- <-]. eauto. Qed.

#[export] Hint Resolve always_emit always_now always_rand always_store : tg.
#[export] Hint Extern 1 (always _ (mret _)) => apply always_ret; exact I : tg.

(** Walk a handler down to its results. *)
Ltac always :=
  repeat first
    [ progress intros
    | solve [auto with tg]
    | apply always_bind
    | match goal with |- always _ (match ?x with _ => _ end) => destruct x end
    | match goal with |- always _ (let '(_, _) := ?x in _) => destruct x end ].
