(* ===== verification/GoFloat.v ===== *)
(** * Go's float64 arithmetic, as far as the program computes with it

    A finite binary64 value is a rational; each operation rounds the exact
    result to the nearest representable value, ties to even, with gradual
    underflow. The program's quantities (seconds, tokens, limits) stay far below
    2^1023, so overflow to infinity and NaN do not arise. *)

From Stdlib Require Export QArith.
From Stdlib Require Import Qround Qabs Qpower Lqa.
From S2P Require Import Prelude.

#[global] Open Scope Z_scope.

(** ** Rounding *)

Definition pow2 (k : Z) : Q := Qpower (2 # 1) k.

(** The exponent of a positive value: [2^(qlog2 q) <= q < 2^(qlog2 q + 1)]. *)
Definition qlog2 (q : Q) : Z :=
  let k := Z.log2 (Qnum q) - Z.log2 (Z.pos (Qden q)) in
  if Qle_bool (pow2 k) q then k else k - 1.

(** The nearest integer, ties to even. *)
Definition round_half_even (q : Q) : Z :=
  let f := Qfloor q in
  match Qcompare (q - inject_Z f) (1 # 2) with
  | Lt => f
  | Gt => f + 1
  | Eq => if Z.even f then f else f + 1
  end.

(** The exponent of the last of the 53 significand bits of [q]. *)
Definition ulp_exp (q : Q) : Z := Z.max (qlog2 (Qabs q) - 52) (-1074).

Definition fl (q : Q) : Q :=
  if Qeq_bool q 0 then 0%Q
  else Qred (inject_Z (round_half_even (q / pow2 (ulp_exp q))) * pow2 (ulp_exp q)).

Definition fadd (x y : Q) : Q := fl (x + y).
Definition fsub (x y : Q) : Q := fl (x - y).
Definition fmul (x y : Q) : Q := fl (x * y).
Definition fdiv (x y : Q) : Q := fl (x / y).

(** [x*y + z], which a Go compiler may fuse into one rounding or not. *)
Definition fmuladd (fused : bool) (x y z : Q) : Q :=
  if fused then fl (x * y + z) else fadd z (fmul x y).

(** [float64(n)]. *)
Definition float64_of (n : Z) : Q := fl (inject_Z n).

Definition flt (x y : Q) : bool := negb (Qle_bool y x).
Definition fmin (x y : Q) : Q := if flt y x then y else x.

(** [d.Seconds()]: the whole seconds, and the rest divided by 1e9. *)
Definition Seconds (d : duration) : Q :=
  fadd (float64_of (Z.quot d Second)) (fdiv (float64_of (Z.rem d Second)) (float64_of Second)).

(** ** Facts *)

#[local] Open Scope Q_scope.

Lemma pow2_pos k : 0 < pow2 k.
Proof. apply Qpower_0_lt. reflexivity. Qed.

Lemma pow2_plus a b : pow2 (a + b) == pow2 a * pow2 b.
Proof. apply Qpower_plus. discriminate. Qed.

Lemma pow2_succ k : pow2 (k + 1) == 2 * pow2 k.
Proof. rewrite pow2_plus. change (pow2 1) with 2. ring. Qed.

Lemma pow2_inject k : (0 <= k)%Z -> pow2 k == inject_Z (2 ^ k).
Proof. intros Hk. unfold pow2. by rewrite <- (Zpower_Qpower 2 k Hk). Qed.

Lemma pow2_mono a b : (a <= b)%Z -> pow2 a <= pow2 b.
Proof.
  intros Hab. replace b with (a + (b - a))%Z by lia. rewrite pow2_plus, (pow2_inject (b - a)) by lia.
  pose proof (pow2_pos a). assert (1 <= inject_Z (2 ^ (b - a))) as H1.
  { change 1 with (inject_Z 1). rewrite <- Zle_Qle. pose proof (Z.pow_pos_nonneg 2 (b - a)). lia. }
  rewrite <- (Qmult_1_r (pow2 a)) at 1. by apply Qmult_le_l.
Qed.

Lemma qlog2_le q : 0 < q -> pow2 (qlog2 q) <= q.
Proof.
  intros Hq. unfold qlog2. destruct (Qle_bool _ _) eqn:E; [by apply Qle_bool_iff|].
  destruct q as [n d]. unfold Qlt in Hq. cbn in Hq. cbn [Qnum Qden].
  destruct (Z.log2_spec n) as [Hn _]; [lia|]. destruct (Z.log2_spec (Z.pos d)) as [_ Hd]; [lia|].
  set (a := Z.log2 n) in *. set (b := Z.log2 (Z.pos d)) in *.
  assert (Ha : (0 <= a)%Z) by apply Z.log2_nonneg. assert (Hb : (0 <= b)%Z) by apply Z.log2_nonneg.
  assert (Hm : pow2 (a - b - 1) * inject_Z (Z.pos d) <= inject_Z n).
  { apply Qle_trans with (pow2 (a - b - 1) * pow2 (b + 1)).
    - apply Qmult_le_l; [apply pow2_pos|]. rewrite pow2_inject, <- Zle_Qle by lia. unfold Z.succ in Hd. lia.
    - rewrite <- pow2_plus. replace (a - b - 1 + (b + 1))%Z with a by lia.
      by rewrite pow2_inject, <- Zle_Qle by lia. }
  assert (Hqq : (n # d) * inject_Z (Z.pos d) == inject_Z n) by (unfold Qeq; cbn; lia).
  rewrite <- Hqq in Hm. eapply Qmult_lt_0_le_reg_r; [|exact Hm]. reflexivity.
Qed.

Lemma round_half_even_err q : Qabs (inject_Z (round_half_even q) - q) <= 1 # 2.
Proof.
  unfold round_half_even. pose proof (Qfloor_le q) as H1. pose proof (Qlt_floor q) as H2.
  rewrite inject_Z_plus in H2. change (inject_Z 1) with 1 in H2.
  apply Qabs_Qle_condition.
  destruct (Qcompare _ _) eqn:E.
  - apply Qeq_alt in E. destruct (Z.even _); rewrite ?inject_Z_plus; change (inject_Z 1) with 1; lra.
  - apply Qlt_alt in E. lra.
  - apply Qgt_alt in E. rewrite inject_Z_plus. change (inject_Z 1) with 1. lra.
Qed.

Lemma round_half_even_int n q : q == inject_Z n -> round_half_even q = n.
Proof.
  intros E. unfold round_half_even. assert (Qfloor q = n) as -> by (rewrite (Qfloor_comp _ _ E); apply Qfloor_Z).
  destruct (Qcompare _ _) eqn:C; [|done|]; exfalso; [apply Qeq_alt in C|apply Qgt_alt in C]; lra.
Qed.

(** The unit of the last place, and the half of it an operation may be off by. *)
Definition unit_roundoff : Q := pow2 (-53).
Definition underflow_unit : Q := pow2 (-1075).

Lemma ulp_bound q : ~ q == 0 -> pow2 (ulp_exp q) * (1 # 2) <= Qabs q * unit_roundoff + underflow_unit.
Proof.
  intros Hq. assert (Hp : 0 < Qabs q).
  { destruct (Qlt_le_dec 0 (Qabs q)) as [|Hl]; [done|]. destruct Hq.
    pose proof (Qabs_nonneg q). apply Qabs_Qle_condition in Hl as [H1 H2]. lra. }
  pose proof (qlog2_le _ Hp) as Hl. pose proof (pow2_pos (-53)) as Hu. pose proof (pow2_pos (-1075)) as Hv.
  unfold ulp_exp, unit_roundoff, underflow_unit.
  destruct (Z.max_spec (qlog2 (Qabs q) - 52) (-1074)) as [[_ ->]|[_ ->]].
  - assert (pow2 (-1074) * (1 # 2) == pow2 (-1075)) as ->.
    { change (-1074)%Z with (-1075 + 1)%Z. rewrite pow2_succ. lra. }
    assert (0 <= Qabs q * pow2 (-53)) by (apply Qmult_le_0_compat; lra). lra.
  - replace (qlog2 (Qabs q) - 52)%Z with (qlog2 (Qabs q) + (-53 + 1))%Z by lia.
    rewrite pow2_plus, pow2_succ.
    assert (pow2 (qlog2 (Qabs q)) * pow2 (-53) <= Qabs q * pow2 (-53)) by (by apply Qmult_le_r). lra.
Qed.

Lemma fl_err q : Qabs (fl q - q) <= Qabs q * unit_roundoff + underflow_unit.
Proof.
  unfold fl. destruct (Qeq_bool q 0) eqn:E.
  - apply Qeq_bool_iff in E. rewrite E. vm_compute. discriminate.
  - apply Qeq_bool_neq in E. rewrite Qred_correct. pose proof (ulp_bound q E) as Hu.
    set (p := pow2 (ulp_exp q)) in *. pose proof (pow2_pos (ulp_exp q) : 0 < p) as Hp.
    assert (inject_Z (round_half_even (q / p)) * p - q == (inject_Z (round_half_even (q / p)) - q / p) * p) as ->.
    { field. lra. }
    rewrite Qabs_Qmult, (Qabs_pos p) by lra. eapply Qle_trans; [|exact Hu]. rewrite (Qmult_comm p).
    apply Qmult_le_r; [done|]. apply round_half_even_err.
Qed.

Lemma fl_upper q : 0 <= q -> fl q <= q * (1 + unit_roundoff) + underflow_unit.
Proof.
  intros Hq. pose proof (fl_err q) as H. rewrite (Qabs_pos q Hq) in H. apply Qabs_Qle_condition in H as [_ H]. lra.
Qed.

Lemma qlog2_int n : (0 < n)%Z -> qlog2 (inject_Z n) = Z.log2 n.
Proof.
  intros Hn. unfold qlog2. cbn [Qnum Qden inject_Z]. change (Z.log2 1) with 0%Z. rewrite Z.sub_0_r.
  destruct (Qle_bool _ _) eqn:E; [done|]. apply not_true_iff_false in E. destruct E. apply Qle_bool_iff.
  rewrite pow2_inject, <- Zle_Qle by apply Z.log2_nonneg. by apply Z.log2_spec.
Qed.

(** The integers below 2^53 are represented exactly. *)
Lemma fl_int n : (0 <= n < 2 ^ 53)%Z -> fl (inject_Z n) == inject_Z n.
Proof.
  intros [H0 H1]. unfold fl. destruct (Qeq_bool _ _) eqn:E; [apply Qeq_bool_iff in E; by rewrite E|].
  assert (Hn : (0 < n)%Z).
  { destruct (Z.eq_dec n 0) as [->|]; [done|lia]. }
  assert (ulp_exp (inject_Z n) = Z.log2 n - 52)%Z as ->.
  { unfold ulp_exp. change (Qabs (inject_Z n)) with (inject_Z (Z.abs n)). rewrite Z.abs_eq by done.
    rewrite qlog2_int by done. pose proof (Z.log2_nonneg n). lia. }
  pose proof (Z.log2_lt_pow2 n 53 Hn) as [Hl _]. specialize (Hl H1).
  rewrite Qred_correct. set (k := (52 - Z.log2 n)%Z).
  assert (Hk : inject_Z n / pow2 (Z.log2 n - 52) == inject_Z (n * 2 ^ k)).
  { rewrite inject_Z_mult, <- pow2_inject by lia. pose proof (pow2_pos (Z.log2 n - 52)) as Hp.
    assert (pow2 k * pow2 (Z.log2 n - 52) == 1) as Hinv.
    { rewrite <- pow2_plus. replace (k + (Z.log2 n - 52))%Z with 0%Z by lia. done. }
    apply (Qmult_inj_r _ _ (pow2 (Z.log2 n - 52))); [lra|].
    rewrite <- Qmult_assoc, Hinv. field. lra. }
  rewrite (round_half_even_int _ _ Hk). rewrite <- Hk. field. pose proof (pow2_pos (Z.log2 n - 52)). lra.
Qed.

Lemma fmin_le_l x y : fmin x y <= x.
Proof.
  unfold fmin, flt. destruct (Qle_bool x y) eqn:E; cbn; [apply Qle_refl|].
  apply not_true_iff_false in E. destruct (Qlt_le_dec y x) as [|H]; [lra|]. by destruct E; apply Qle_bool_iff.
Qed.

Lemma fmin_le_r x y : fmin x y <= y.
Proof.
  unfold fmin, flt. destruct (Qle_bool x y) eqn:E; cbn; [by apply Qle_bool_iff|apply Qle_refl].
Qed.

Lemma flt_iff x y : flt x y = true <-> x < y.
Proof.
  unfold flt. rewrite negb_true_iff, <- not_true_iff_false, Qle_bool_iff.
  split; [apply Qnot_le_lt|apply Qlt_not_le].
Qed.

Lemma flt_false x y : flt x y = false <-> y <= x.
Proof. unfold flt. by rewrite negb_false_iff, Qle_bool_iff. Qed.

(** The two error units, as far as the proofs need to know them. *)
Lemma units_small : 0 < unit_roundoff <= 1 # 1000 /\ 0 < underflow_unit <= unit_roundoff * (1 # 1000).
Proof. vm_compute. repeat split; discriminate || reflexivity. Qed.

Lemma round_half_even_nonneg q : 0 <= q -> (0 <= round_half_even q)%Z.
Proof.
  intros Hq. unfold round_half_even. assert (0 <= Qfloor q)%Z.
  { change 0%Z with (Qfloor (inject_Z 0)). by apply Qfloor_resp_le. }
  destruct (Qcompare _ _); [destruct (Z.even _)|..]; lia.
Qed.

Lemma fl_nonneg q : 0 <= q -> 0 <= fl q.
Proof.
  intros Hq. unfold fl. destruct (Qeq_bool q 0); [apply Qle_refl|]. rewrite Qred_correct.
  pose proof (pow2_pos (ulp_exp q)) as Hp. apply Qmult_le_0_compat; [|lra].
  change 0 with (inject_Z 0). rewrite <- Zle_Qle. apply round_half_even_nonneg.
  apply Qle_shift_div_l; lra.
Qed.

(** Adding error to error stays first-order. *)
Lemma fl_upper_le q b : 0 <= q <= b -> fl q <= q + b * unit_roundoff + underflow_unit.
Proof.
  intros [H0 Hb]. pose proof (fl_upper q H0). pose proof units_small as [[Hu _] _].
  assert (q * unit_roundoff <= b * unit_roundoff) by (by apply Qmult_le_r). lra.
Qed.

(** [d.Seconds()] is the exact number of seconds, up to rounding. *)
Definition seconds_of (d : duration) : Q := inject_Z d / inject_Z Second.

Lemma float64_of_int n : (0 <= n < 2 ^ 53)%Z -> float64_of n == inject_Z n.
Proof. apply fl_int. Qed.

Lemma seconds_split d :
  seconds_of d == inject_Z (Z.quot d Second) + inject_Z (Z.rem d Second) / inject_Z Second.
Proof.
  unfold seconds_of. rewrite (Z.quot_rem' d Second) at 1. rewrite inject_Z_plus, inject_Z_mult.
  field. discriminate.
Qed.

Lemma rounding_twice a x f u v :
  0 <= a -> 0 <= x -> 0 < u -> u <= 1 # 1000 -> 0 < v -> f <= x * (1 + u) + v ->
  (a + f) * (1 + u) + v <= (a + x) * (1 + 3 * u) + 3 * v.
Proof.
  intros Ha Hx Hu0 Hu Hv Hf.
  assert (f * (1 + u) <= (x * (1 + u) + v) * (1 + u)) by (apply Qmult_le_r; lra).
  assert (0 <= a * u) by (apply Qmult_le_0_compat; lra). assert (0 <= x * u) by (apply Qmult_le_0_compat; lra).
  assert (x * u * u <= x * u * (1 # 1000)) by (apply Qmult_le_compat_nonneg; lra).
  assert (v * u <= v * (1 # 1000)) by (apply Qmult_le_compat_nonneg; lra). lra.
Qed.

Lemma Seconds_bounds d :
  (0 <= d <= int64_max)%Z ->
  0 <= Seconds d <= seconds_of d * (1 + 3 * unit_roundoff) + 3 * underflow_unit.
Proof.
  intros Hd. unfold Seconds, fadd, fdiv. assert (HS : Second = 1000000000%Z) by reflexivity.
  assert (Hq : (0 <= Z.quot d Second < 2 ^ 53)%Z).
  { rewrite Z.quot_div_nonneg by lia. split; [apply Z.div_pos; lia|].
    apply Z.div_lt_upper_bound; unfold int64_max in *; lia. }
  assert (Hr : (0 <= Z.rem d Second < Second)%Z) by (apply Z.rem_bound_pos; lia).
  pose proof (seconds_split d) as Hs. set (q := Z.quot d Second) in *. set (r := Z.rem d Second) in *.
  pose proof (float64_of_int q Hq) as Eq. pose proof (float64_of_int r ltac:(lia)) as Er.
  pose proof (float64_of_int Second ltac:(lia)) as Es.
  assert (Hq0 : 0 <= inject_Z q) by (change 0 with (inject_Z 0); rewrite <- Zle_Qle; lia).
  assert (Hr0 : 0 <= inject_Z r) by (change 0 with (inject_Z 0); rewrite <- Zle_Qle; lia).
  set (x := inject_Z r / inject_Z Second) in *.
  assert (Hx0 : 0 <= x) by (apply Qle_shift_div_l; [reflexivity|lra]).
  set (y := float64_of r / float64_of Second). assert (Ey : y == x) by (unfold y, x; by rewrite Er, Es).
  pose proof (fl_nonneg y ltac:(lra)) as Hy0. pose proof (fl_upper y ltac:(lra)) as Hy.
  assert (Ey' : y * (1 + unit_roundoff) == x * (1 + unit_roundoff)) by (by rewrite Ey). rewrite Ey' in Hy.
  set (z := float64_of q + fl y). assert (Ez : z == inject_Z q + fl y) by (unfold z; by rewrite Eq).
  pose proof (fl_nonneg z ltac:(lra)) as Hz0. pose proof (fl_upper z ltac:(lra)) as Hz.
  split; [done|]. rewrite Hs. eapply Qle_trans; [exact Hz|]. clear Hz Hz0. rewrite Ez.
  destruct units_small as [[Hu0 Hu] [Hv0 Hv]]. set (u := unit_roundoff) in *. set (v := underflow_unit) in *.
  set (a := inject_Z q) in *. clearbody a x u v. clear - Hq0 Hx0 Hy Hu0 Hu Hv0 Hv.
  set (f := fl y) in *. clearbody f. apply rounding_twice; lra.
Qed.
