(* ===== verification/GoUtf8.v ===== *)
(** * UTF-8 (unicode/utf8) and [strconv.Quote]

    Decoding as Go does it: a byte that starts no valid encoding is the rune
    U+FFFD of size 1. Which runes are printable is Unicode's table, a parameter
    with what is fixed of it. *)

From S2P Require Import Prelude GoStrings.

Definition in_range (lo hi : N) (c : ascii) : bool := ((lo <=? code c) && (code c <=? hi))%N.

(** The size [utf8.DecodeRuneInString] returns: 1 for an invalid encoding. *)
Definition rune_size (s : string) : nat :=
  let cont := in_range 0x80 0xBF in
  match s with
  | "" => 0
  | String a s1 =>
      if (code a <? 0x80)%N then 1
      else match s1 with
      | "" => 1
      | String b s2 =>
          if in_range 0xC2 0xDF a then if cont b then 2 else 1
          else match s2 with
          | "" => 1
          | String c s3 =>
              if in_range 0xE0 0xEF a then
                let lo := if (code a =? 0xE0)%N then 0xA0%N else 0x80%N in
                let hi := if (code a =? 0xED)%N then 0x9F%N else 0xBF%N in
                if in_range lo hi b && cont c then 3 else 1
              else match s3 with
              | "" => 1
              | String d _ =>
                  if in_range 0xF0 0xF4 a then
                    let lo := if (code a =? 0xF0)%N then 0x90%N else 0x80%N in
                    let hi := if (code a =? 0xF4)%N then 0x8F%N else 0xBF%N in
                    if in_range lo hi b && cont c && cont d then 4 else 1
                  else 1
              end
          end
      end
  end%nat.

(** [utf8.RuneCountInString(s)]; a step consumes at least one byte. *)
Fixpoint rune_count (fuel : nat) (s : string) : nat :=
  match fuel, s with
  | Datatypes.S f, String _ _ => Datatypes.S (rune_count f (drop_bytes (rune_size s) s))
  | _, _ => 0
  end.

Definition RuneCount (s : string) : nat := rune_count (String.length s) s.


Definition RuneError : Z := 0xFFFD.
Definition byte_at (i : nat) (s : string) : Z := match String.get i s with Some c => Z.of_N (code c) | None => 0 end.
Definition take_bytes (n : nat) (s : string) : string := String.substring 0 n s.

(** [utf8.DecodeRuneInString(s)]. *)
Definition DecodeRune (s : string) : Z * nat :=
  let low i := Z.land (byte_at i s) 0x3F in
  match rune_size s with
  | 0%nat => (RuneError, 0%nat)
  | 1%nat => (if byte_at 0 s <? 0x80 then byte_at 0 s else RuneError, 1%nat)
  | 2%nat => (Z.land (byte_at 0 s) 0x1F * 0x40 + low 1%nat, 2%nat)
  | 3%nat => (Z.land (byte_at 0 s) 0x0F * 0x1000 + low 1%nat * 0x40 + low 2%nat, 3%nat)
  | _ => (Z.land (byte_at 0 s) 0x07 * 0x40000 + low 1%nat * 0x1000 + low 2%nat * 0x40 + low 3%nat, 4%nat)
  end.

(** No encoding of a rune starts here. *)
Definition invalid_at (s : string) : bool := let '(r, n) := DecodeRune s in (r =? RuneError) && (n =? 1)%nat.

(** The runes of [s] with their bytes, as a [range] loop meets them; a step
    consumes at least one byte. *)
Fixpoint runes_from (fuel : nat) (s : string) : list (Z * string) :=
  match fuel, s with
  | S fuel, String _ _ => let '(r, n) := DecodeRune s in (r, take_bytes n s) :: runes_from fuel (drop_bytes n s)
  | _, _ => []
  end.
Definition runes (s : string) : list (Z * string) := runes_from (String.length s) s.

Definition invalid_token (t : Z * string) : bool := (t.1 =? RuneError) && (String.length t.2 =? 1)%nat.

(** [utf8.ValidString(s)]. *)
Definition ValidString (s : string) : bool := forallb (fun t => negb (invalid_token t)) (runes s).

(** [unicode.IsSpace(r)]. *)
Definition IsSpace (r : Z) : bool :=
  (9 <=? r) && (r <=? 13) || (r =? 0x20) || (r =? 0x85) || (r =? 0xA0) || (r =? 0x1680) || (0x2000 <=? r) && (r <=? 0x200a)
  || (r =? 0x2028) || (r =? 0x2029) || (r =? 0x202f) || (r =? 0x205f) || (r =? 0x3000).

(** The C0 and C1 controls and DEL. *)
Definition control_rune (r : Z) : bool := (r <? 0x20) || (0x7f <=? r) && (r <=? 0x9f).

(** [unicode.IsPrint]: no control is printable. *)
Class PrintTable := {
  IsPrint : Z -> bool;
  control_unprintable r : control_rune r = true -> IsPrint r = false
}.

Definition lowerhex : string := "0123456789abcdef".
Definition hex_digit (d : Z) : string := match String.get (Z.to_nat d) lowerhex with Some c => String c "" | None => "" end.

(** The last [n] hexadecimal digits of [x]. *)
Fixpoint hex_digits (n : nat) (x : Z) : string :=
  match n with O => "" | S n => hex_digit (Z.land (Z.shiftr x (4 * Z.of_nat n)) 0xF) +:+ hex_digits n x end.

Definition dquote : ascii := Ascii.ascii_of_nat 34.
Definition backslash : ascii := Ascii.ascii_of_nat 92.
Definition esc (s : string) : string := String backslash s.

(** [strconv.Quote(s)]. *)
Definition quote_rune `{PrintTable} (t : Z * string) : string :=
  let '(r, bytes) := t in
  if invalid_token t then esc ("x" +:+ hex_digits 2 (byte_at 0 bytes))
  else if (r =? 34) || (r =? 92) then esc bytes
  else if IsPrint r then bytes
  else if r =? 7 then esc "a" else if r =? 8 then esc "b" else if r =? 12 then esc "f" else if r =? 10 then esc "n"
  else if r =? 13 then esc "r" else if r =? 9 then esc "t" else if r =? 11 then esc "v"
  else if (r <? 0x20) || (r =? 0x7f) then esc ("x" +:+ hex_digits 2 r)
  else if r <? 0x10000 then esc ("u" +:+ hex_digits 4 r)
  else esc ("U" +:+ hex_digits 8 r).

Definition strconv_Quote `{PrintTable} (s : string) : string :=
  String dquote (String.concat "" (List.map quote_rune (runes s))) +:+ String dquote "".

(** ** Facts *)

Lemma rune_size_bounds s : s <> "" -> (1 <= rune_size s <= 4 /\ rune_size s <= String.length s)%nat.
Proof.
  unfold rune_size. destruct s as [|a s1]; [done|intros _]. destruct (code a <? 0x80)%N; cbn; [lia|].
  destruct s1 as [|b s2]; cbn; [lia|]. destruct (in_range 0xC2 0xDF a); [case_match; lia|].
  destruct s2 as [|c s3]; cbn; [lia|]. destruct (in_range 0xE0 0xEF a); [case_match; lia|].
  destruct s3 as [|d s4]; cbn; [lia|]. destruct (in_range 0xF0 0xF4 a); [case_match; lia|lia].
Qed.

(** The bytes [u] encode the rune [r]. *)
Definition glyph (u : string) (r : Z) : Prop :=
  u <> "" /\ rune_size u = String.length u /\ (DecodeRune u).1 = r /\ invalid_at u = false.

Lemma take_drop_bytes n s : take_bytes n s +:+ drop_bytes n s = s.
Proof. revert s. induction n as [|n IH]; intros [|c s]; [done..|]. cbn. rewrite append_cons. f_equal. apply IH. Qed.

Lemma size_of_DecodeRune s : (DecodeRune s).2 = rune_size s.
Proof.
  unfold DecodeRune. destruct (rune_size s) as [|[|[|[|[|n]]]]] eqn:E; [done..|]. exfalso.
  destruct s as [|c s]; [done|]. destruct (rune_size_bounds (String c s)) as [Hb _]; [done|lia].
Qed.

Local Ltac prefix_bytes := unfold take_bytes; cbn [String.substring]; rewrite ?append_cons; cbn -[in_range code N.ltb N.eqb].

(** Later bytes do not matter. *)
Lemma rune_size_local s t n :
  rune_size s = n -> (1 < n)%nat \/ byte_at 0 s < 0x80 /\ s <> "" -> rune_size (take_bytes n s +:+ t) = n.
Proof.
  assert (forall a y, (byte_at 0 (String a y) <? 0x80) = (code a <? 0x80)%N) as Hlow.
  { intros a y. unfold byte_at. cbn -[code Z.ltb N.ltb]. destruct (N.ltb_spec (code a) 128); [apply Z.ltb_lt|apply Z.ltb_ge]; lia. }
  destruct s as [|a s]; [intros <- [Hn|[_ Hn]]; [cbn in Hn; lia|done]|]. unfold rune_size at 1.
  destruct (code a <? 0x80)%N eqn:E1; [intros <- _; prefix_bytes; by rewrite E1|].
  intros En [Hn|[Hn _]]; [|apply Z.ltb_lt in Hn; by rewrite Hlow, E1 in Hn].
  revert En Hn. destruct s as [|b s]; [lia|]. destruct (in_range 0xC2 0xDF a) eqn:E2.
  { destruct (in_range 0x80 0xBF b) eqn:E3; [|lia]. intros <- _. prefix_bytes. by rewrite E1, E2, E3. }
  destruct s as [|c s]; [lia|]. destruct (in_range 0xE0 0xEF a) eqn:E4.
  { destruct (_ && _) eqn:E3; [|lia]. intros <- _. prefix_bytes. by rewrite E1, E2, E4, E3. }
  destruct s as [|d s]; [lia|]. destruct (in_range 0xF0 0xF4 a) eqn:E5; [|lia].
  destruct (_ && _) eqn:E3; [|lia]. intros <- _. prefix_bytes. by rewrite E1, E2, E4, E5, E3.
Qed.

Lemma take_bytes_length n s : (n <= String.length s)%nat -> String.length (take_bytes n s) = n.
Proof. revert s. induction n as [|n IH]; intros [|c s] Hn; cbn in *; [done..|lia|]. f_equal. apply IH. lia. Qed.

Lemma byte_at_app i u t : (i < String.length u)%nat -> byte_at i (u +:+ t) = byte_at i u.
Proof.
  unfold byte_at. revert u. induction i as [|i IH]; intros [|c u] Hi; cbn in Hi; [lia| |lia|]; rewrite append_cons; [done|]. cbn. apply IH. lia.
Qed.

(** Valid bytes decode on their own as they do in place. *)
Lemma decode_app u t : rune_size u = String.length u -> rune_size (u +:+ t) = rune_size u -> DecodeRune (u +:+ t) = DecodeRune u.
Proof.
  unfold DecodeRune. intros Hu ->. destruct (rune_size u) as [|[|[|[|n]]]]; [done|..]; rewrite !byte_at_app by lia; done.
Qed.

Lemma valid_start s : s <> "" -> invalid_at s = false -> (1 < rune_size s)%nat \/ byte_at 0 s < 0x80 /\ s <> "".
Proof.
  intros Hs. pose proof (rune_size_bounds s Hs) as [Hn _]. unfold invalid_at. pose proof (size_of_DecodeRune s) as E.
  destruct (DecodeRune s) as [r n] eqn:D. cbn in E. subst n. destruct (decide (rune_size s = 1%nat)) as [E1|]; [|left; lia].
  intros Hi. right. split; [|done]. unfold DecodeRune in D. rewrite E1 in D. injection D as <-.
  destruct (Z.ltb_spec (byte_at 0 s) 0x80); [done|]. by rewrite E1 in Hi.
Qed.

Lemma first_glyph s : s <> "" -> invalid_at s = false -> glyph (take_bytes (rune_size s) s) (DecodeRune s).1.
Proof.
  intros Hs Hi. destruct (rune_size_bounds s Hs) as [Hn Hl]. pose proof (valid_start s Hs Hi) as Hv.
  assert (String.length (take_bytes (rune_size s) s) = rune_size s) as Hlen by (by apply take_bytes_length).
  assert (rune_size (take_bytes (rune_size s) s) = rune_size s) as Hsz.
  { rewrite <- (append_nil_r (take_bytes _ _)). by apply rune_size_local. }
  assert (DecodeRune (take_bytes (rune_size s) s) = DecodeRune s) as Hd.
  { symmetry. transitivity (DecodeRune (take_bytes (rune_size s) s +:+ drop_bytes (rune_size s) s)); [by rewrite take_drop_bytes|].
    apply decode_app; [congruence|]. by rewrite take_drop_bytes. }
  unfold glyph, invalid_at in *. rewrite Hd. split_and!; [|congruence|done|done]. intros E. rewrite E in Hlen. cbn in Hlen. lia.
Qed.

(** A decoder that meets the bytes of a rune reads the rune. *)
Lemma glyph_decodes u r t : glyph u r -> DecodeRune (u +:+ t) = (r, String.length u).
Proof.
  intros (Hu & Hsz & <- & Hi). assert (rune_size (u +:+ t) = rune_size u) as Hs.
  { pose proof (rune_size_local u t (rune_size u) eq_refl (valid_start u Hu Hi)) as H. rewrite Hsz in H.
    assert (take_bytes (String.length u) u = u) as E.
    { clear. induction u as [|c u IH]; [done|]. cbn. by f_equal. }
    by rewrite E, <- Hsz in H. }
  rewrite decode_app by done. rewrite <- Hsz, <- size_of_DecodeRune. by destruct (DecodeRune u).
Qed.

Lemma ascii_glyph c : (code c <? 0x80)%N = true -> glyph (String c "") (Z.of_N (code c)).
Proof.
  intros Hc. assert (rune_size (String c "") = 1%nat) as Hs by (unfold rune_size; by rewrite Hc).
  assert (byte_at 0 (String c "") = Z.of_N (code c)) as Hb by done. apply N.ltb_lt in Hc.
  unfold glyph, invalid_at, DecodeRune. rewrite Hs, Hb. replace (Z.of_N (code c) <? 0x80) with true by (symmetry; apply Z.ltb_lt; lia).
  split_and!; [done..|]. cbn [fst]. unfold RuneError. destruct (Z.eqb_spec (Z.of_N (code c)) 0xFFFD); [lia|done].
Qed.

(** ** Text made of admissible runes *)

Inductive shown (ok : Z -> bool) : string -> Prop :=
  | shown_nil : shown ok ""
  | shown_rune u r s : glyph u r -> ok r = true -> shown ok s -> shown ok (u +:+ s).

Section Shown.
Context (ok : Z -> bool).
Implicit Types (s t : string).

Lemma shown_app s t : shown ok s -> shown ok t -> shown ok (s +:+ t).
Proof. induction 1 as [|u r s Hu Hr _ IH]; intros Ht; [done|]. rewrite append_assoc. econstructor; eauto. Qed.

Lemma shown_one u r : glyph u r -> ok r = true -> shown ok u.
Proof. intros Hu Hr. rewrite <- (append_nil_r u). econstructor; [done..|constructor]. Qed.

Lemma shown_concat l : Forall (shown ok) l -> shown ok (String.concat "" l).
Proof.
  induction 1 as [|s l Hs Hl IH]; [constructor|]. cbn. destruct l; [done|]. rewrite append_nil_l. by apply shown_app.
Qed.

(** Text of admissible ASCII. *)
Lemma shown_ascii s : (forall c, c ∈ String.list_ascii_of_string s -> (code c <? 0x80)%N = true /\ ok (Z.of_N (code c)) = true) -> shown ok s.
Proof.
  induction s as [|c s IH]; intros Hs; [constructor|]. change (String c s) with (String c "" +:+ s).
  destruct (Hs c) as [Hc Hok]; [cbn; set_solver|]. eapply shown_rune; [by apply ascii_glyph|done|]. apply IH. intros d Hd. apply Hs. cbn. set_solver.
Qed.

(** What a decoder reads in it. *)
Lemma shown_runes s : shown ok s -> forall fuel, (String.length s <= fuel)%nat ->
  Forall (fun x => ok x.1 = true /\ invalid_token x = false) (runes_from fuel s).
Proof.
  induction 1 as [|u r s Hu Hr _ IH]; intros fuel Hf; [by destruct fuel; constructor|].
  pose proof (glyph_decodes u r s Hu) as Hd. destruct Hu as (Hne & Hsz & Hdec & Hi). rewrite length_append in Hf.
  destruct u as [|c u]; [done|]. destruct fuel as [|fuel]; [cbn in Hf; lia|]. rewrite append_cons in *. cbn [runes_from]. rewrite Hd.
  rewrite <- append_cons. assert (forall v t, take_bytes (String.length v) (v +:+ t) = v /\ drop_bytes (String.length v) (v +:+ t) = t) as Hsplit.
  { clear. induction v as [|d v IH]; intros t; [by destruct t|]. rewrite append_cons. cbn. destruct (IH t). split; [by f_equal|done]. }
  destruct (Hsplit (String c u) s) as [-> ->]. constructor; [|apply IH; cbn in Hf; lia].
  split; [done|]. unfold invalid_token, invalid_at in *. cbn [fst snd]. rewrite <- Hsz, <- size_of_DecodeRune.
  destruct (DecodeRune (String c u)) as [r' n]. cbn in *. by subst r'.
Qed.

End Shown.
