(* ===== verification/Pretty.v ===== *)
(** * The pretty log format (log/pretty.go, log/pretty_inline.go)

    The encoder that writes log entries for a person at a terminal. A buffer is
    only appended to, so a function that appends to it is the text it appends.
    Errors are the vertices of a graph, which may be cyclic: what their methods
    return, and which compare equal, are the program's. zap's map encoder, JSON
    and the formatting of floats are parameters. The theorems are in
    PrettyFacts.v. *)

From stdpp Require Import pretty.
From S2P Require Import Prelude GoTime LogTime GoStrings GoUtf8.
#[local] Open Scope Z_scope.

Definition newline_char : ascii := Ascii.ascii_of_nat 10.
Definition eol : string := String newline_char "".

Definition blockIndent : string := "  ".
Definition causeMarker : string := "↳ ".
Definition maxErrorNodes : Z := 64.

(** ** Strings *)

(** [strings.Cut(s, sep)] for a text [sep]. *)
Fixpoint CutText (s sep : string) : option (string * string) :=
  if String.prefix sep s then Some ("", drop_bytes (String.length sep) s)
  else match s with
       | "" => None
       | String c s => match CutText s sep with Some (a, b) => Some (String c a, b) | None => None end
       end.

(** [strings.CutSuffix(s, suffix)]. *)
Definition CutSuffix (s suffix : string) : option string :=
  let n := (String.length s - String.length suffix)%nat in
  if (String.length suffix <=? String.length s)%nat && (drop_bytes n s =? suffix)%string then Some (take_bytes n s) else None.

(** [strings.TrimLeft] and [strings.TrimRight] with a cut set of ASCII. *)
Fixpoint TrimLeftSet (cutset : string -> bool) (s : string) : string :=
  match s with
  | "" => ""
  | String c s' => if cutset (String c "") then TrimLeftSet cutset s' else s
  end.

Fixpoint TrimRightSet (cutset : string -> bool) (s : string) : string :=
  match s with
  | "" => ""
  | String c s' =>
      match TrimRightSet cutset s' with
      | "" => if cutset (String c "") then "" else String c ""
      | t => String c t
      end
  end.

Definition tab : string := String (Ascii.ascii_of_nat 9) "".
Definition one_of (set : list string) (c : string) : bool := bool_decide (c ∈ set).

(** ** Escaping *)

Definition isControl (r : Z) (newline : bool) : bool :=
  if (r =? 9) || (r =? 10) && newline then false
  else if (r <? 0x20) || (r =? 0x7f) then true
  else (0x80 <=? r) && (r <=? 0x9f).

Definition appendHex (r : Z) : string := digits_at (Z.land (Z.shiftr r 4) 0xf) +:+ digits_at (Z.land r 0xf).

(** The loop of [appendEscaped]; [seg] is [s[start:i]]. A round consumes a byte
    or more. *)
Fixpoint escape_loop (fuel : nat) (newline : bool) (seg s : string) : string :=
  match fuel, s with
  | S fuel, String c _ =>
      let '(r, n) := if (code c <? 0x80)%N then (Z.of_N (code c), 1%nat) else DecodeRune s in
      let invalid := (r =? RuneError) && (n =? 1)%nat in
      if negb invalid && negb (isControl r newline) then escape_loop fuel newline (seg +:+ take_bytes n s) (drop_bytes n s)
      else
        seg +:+ (if invalid then esc "x" +:+ appendHex (Z.of_N (code c))
                 else if r =? 10 then esc "n"
                 else if r =? 13 then esc "r"
                 else esc "x" +:+ appendHex r)
        +:+ escape_loop fuel newline "" (drop_bytes n s)
  | _, _ => seg
  end.

Definition appendEscaped (s : string) (newline : bool) : string := escape_loop (String.length s) newline "" s.

(** The loop of [appendJSON]. *)
Fixpoint json_loop (fuel : nat) (seg s : string) : string :=
  match fuel, s with
  | S fuel, String _ _ =>
      let '(r, n) := DecodeRune s in
      if (r =? 0x7f) || (0x80 <=? r) && (r <=? 0x9f) then seg +:+ esc "u00" +:+ appendHex r +:+ json_loop fuel "" (drop_bytes n s)
      else json_loop fuel (seg +:+ take_bytes n s) (drop_bytes n s)
  | _, _ => seg
  end.

Definition appendJSON (b : string) : string := json_loop (String.length b) "" b.

(** [isPlainJSON(s)]. *)
Definition plain_byte (c : ascii) : bool :=
  negb ((code c <? 0x20)%N || (0x7f <=? code c)%N || existsb (Ascii.eqb c) [dquote; backslash; "<"%char; ">"%char; "&"%char]).
Definition isPlainJSON (s : string) : bool := forallb plain_byte (String.list_ascii_of_string s).

Definition appendString `{PrintTable} (s : string) : string :=
  if (s =? "")%string || negb (ValidString s)
     || existsb (fun t => (t.1 =? 61) || (t.1 =? 34) || IsSpace t.1 || negb (IsPrint t.1)) (runes s)
  then strconv_Quote s
  else s.

Definition appendKey (namespace key : string) : string := " " +:+ appendEscaped namespace false +:+ appendEscaped key false +:+ "=".

(** ** Fields *)

(** What calling a text method does: it returns, or it panics, on a nil pointer
    or not. *)
Inductive text_call := Text (s : string) | Panics (nilPointer : bool) (value : string).

(** [recoverText(v, text)]. *)
Definition recoverText (c : text_call) : string * bool :=
  match c with
  | Text s => (s, false)
  | Panics true _ => ("<nil>", false)
  | Panics false v => ("PANIC=" +:+ v, true)
  end.

(** A value as zap's map encoder holds it; a map in the order a loop over it
    visits it. *)
Inductive mval :=
  | MString (s : string) | MBool (b : bool) | MInt (z : Z) | MUint (z : Z) | MFloat (bitSize bits : Z)
  | MDuration (d : duration) | MTime (t : time) (offset : Z)
  | MMap (m : list (string * mval)) | MList (l : list mval) | MOther (id : nat).

(** An element a marshaler adds to an array. *)
Inductive item := IString (s : string) | IBool (b : bool) | IInt (z : Z) | IUint (z : Z) | IOther.

(** A field by its type, with what the cases read of it; [mapped] is what it
    adds to a map encoder. *)
Inductive fval :=
  | SkipType
  | NamespaceType
  | StringType (s : string)
  | ByteStringType (s : string)
  | BoolType (i : Z)
  | IntType (width i : Z)
  | UintType (width i : Z)
  | FloatType (bitSize i : Z)
  | DurationType (i : Z)
  | TimeType (i offset : Z)
  | TimeFullType (t : time) (offset : Z)
  | StringerType (call : text_call)
  | ArrayMarshalerType (items : list item) (failed : bool) (mapped : list (string * mval))
  | ErrorsType (errs : list (option nat))
  | ErrorType (err : option nat)
  | MappedType (mapped : list (string * mval)).

Record Field := mkField { f_Key : string; f_val : fval }.

Class LogLib := {
  json_Marshal : mval -> option string;
  Sprint : mval -> string;
  AppendFloat : Z -> Z -> string;
  (** encoding/json writes nothing below a space: it escapes it in a Go string,
      and of what a Marshaler returns it drops the blanks and refuses the
      rest. *)
  json_bytes v b : json_Marshal v = Some b -> forallb (fun c => 0x20 <=? code c)%N (String.list_ascii_of_string b) = true;
  (** digits, a sign, a point, an exponent, NaN or Inf. *)
  float_text bitSize bits : isPlainJSON (AppendFloat bitSize bits) = true
}.

Definition signed (width i : Z) : Z := (i + 2 ^ (width - 1)) mod 2 ^ width - 2 ^ (width - 1).
Definition unsigned (width i : Z) : Z := i mod 2 ^ width.

Definition show_bool (b : bool) : string := if b then "true" else "false".

(** [plainArray]: the text so far, the number of elements and [other]. *)
Definition plain_next (n : nat) : string := if (0 <? n)%nat then "," else "".

Fixpoint plain_items (items : list item) (buf : string) (n : nat) (other : bool) : string * bool :=
  match items with
  | [] => (buf, other)
  | it :: items =>
      let add t := plain_items items (buf +:+ plain_next n +:+ t) (S n) other in
      match it with
      | IString s => if isPlainJSON s then add (String dquote s +:+ String dquote "") else plain_items items buf n true
      | IBool v => add (show_bool v)
      | IInt v => add (pretty v)
      | IUint v => add (pretty v)
      | IOther => plain_items items buf n true
      end
  end.

(** [dropVerbose(v)]: the loop deletes as it goes. *)
Fixpoint drop_loop (todo kept : list (string * mval)) : list (string * mval) :=
  match todo with
  | [] => rev kept
  | (k, x) :: todo =>
      match CutSuffix k "Verbose" with
      | Some base =>
          if negb (base =? "")%string && existsb (fun kv => (kv.1 =? base)%string) (kept ++ todo) then drop_loop todo kept
          else drop_loop todo ((k, x) :: kept)
      | None => drop_loop todo ((k, x) :: kept)
      end
  end.

Fixpoint dropVerbose (v : mval) : mval :=
  match v with
  | MMap m => MMap (drop_loop (List.map (fun kv => (kv.1, dropVerbose kv.2)) m) [])
  | MList l => MList (List.map dropVerbose l)
  | v => v
  end.

Section Inline.
Context `{PrintTable} `{LogLib}.

Definition appendValue (v : mval) : string :=
  match v with
  | MString s => appendString s
  | MBool b => show_bool b
  | MInt z => pretty z
  | MUint z => pretty z
  | MFloat bitSize bits => AppendFloat bitSize bits
  | MDuration d => Duration_String d
  | MTime t offset => Format RFC3339Nano t offset
  | v => match json_Marshal v with Some b => appendJSON b | None => appendString (Sprint v) end
  end.

Definition key_le (a b : string * mval) : Prop := String.leb a.1 b.1 = true.
#[local] Instance key_le_dec a b : Decision (key_le a b).
Proof. unfold key_le. apply _. Defined.

Definition appendMapped (namespace : string) (mapped : list (string * mval)) : string :=
  match dropVerbose (MMap mapped) with
  | MMap m => String.concat "" (List.map (fun kv => appendKey namespace kv.1 +:+ appendValue kv.2) (merge_sort key_le m))
  | _ => ""
  end.

Definition appendPlainArray (namespace key : string) (items : list item) (failed : bool) : option string :=
  let '(buf, other) := plain_items items "" 0 false in
  if failed || other then None else Some (appendKey namespace key +:+ "[" +:+ buf +:+ "]").

Definition appendInline (namespace : string) (f : Field) : string :=
  let key := appendKey namespace (f_Key f) in
  match f_val f with
  | SkipType | NamespaceType => ""
  | StringType s => key +:+ appendString s
  | ByteStringType s => key +:+ appendString s
  | BoolType i => key +:+ show_bool (i =? 1)
  | IntType width i => key +:+ pretty (signed width i)
  | UintType width i => key +:+ pretty (unsigned width i)
  | FloatType bitSize i => key +:+ AppendFloat bitSize (unsigned bitSize i)
  | DurationType i => key +:+ Duration_String i
  | TimeType i offset => key +:+ Format RFC3339Nano i offset
  | TimeFullType t offset => key +:+ Format RFC3339Nano t offset
  | StringerType call =>
      let '(s, panicked) := recoverText call in
      appendKey namespace (if panicked then f_Key f +:+ "Error" else f_Key f) +:+ appendString s
  | ArrayMarshalerType items failed mapped =>
      match appendPlainArray namespace (f_Key f) items failed with
      | Some t => t
      | None => appendMapped namespace mapped
      end
  | ErrorsType _ | ErrorType _ => ""
  | MappedType mapped => appendMapped namespace mapped
  end.

End Inline.

(** ** Errors *)

(** What an error's Errors or Unwrap method does. *)
Inductive unwrap_call := NoUnwrap | Wraps (l : list (option nat)) | UnwrapPanics.

Class ErrorGraph := {
  err_Error : nat -> text_call;
  err_Unwrap : nat -> unwrap_call;
  isComparable : nat -> bool;
  err_equal : nat -> nat -> bool
}.

Record link := mkLink { l_err : nat; l_text : string }.

Definition trimSeparator (s : string) : string :=
  let s := TrimRightSet (one_of [" "; tab; eol]) s in
  let n := String.length s in
  match drop_bytes (n - 1) s with
  | "" => s
  | c => if one_of [":"; ";"; ","] c then take_bytes (n - 1) s else s
  end.

(** The loop of [splitOwn]: what is left of the text, and the causes it does not
    quote. *)
Fixpoint quoted_loop (rest : string) (causes : list link) : string * list link :=
  match causes with
  | [] => (rest, [])
  | c :: causes =>
      match (if (l_text c =? "")%string then None else CutText rest (l_text c)) with
      | Some (a, b) => quoted_loop (a +:+ b) causes
      | None => let '(rest, unquoted) := quoted_loop rest causes in (rest, c :: unquoted)
      end
  end.

Definition splitOwn_rest (msg : string) (causes : list link) : string * list link :=
  let '(rest, unquoted) := quoted_loop msg causes in
  if negb (bool_decide (causes = [])) && (TrimLeftSet (one_of [" "; tab; eol; ":"; ";"; ","]) rest =? "")%string then ("", causes)
  else (msg, unquoted).

Definition splitOwn (msg : string) (causes : list link) : string * list link :=
  match causes with
  | [c] =>
      match (if (l_text c =? "")%string then None else CutSuffix msg (l_text c)) with
      | Some own => (trimSeparator own, causes)
      | None => splitOwn_rest msg causes
      end
  | _ => splitOwn_rest msg causes
  end.

Section Errors.
Context `{ErrorGraph}.

Definition errorText (e : nat) : string := (recoverText (err_Error e)).1.

Definition causesOf (e : nat) : list nat :=
  match err_Unwrap e with
  | Wraps l => omap id l
  | _ => []
  end.

Definition on_path (path : list nat) (c : nat) : bool := isComparable c && existsb (fun p => err_equal p c) path.

(** [w.addCauses(err)]: the links it adds and how many causes it left out. *)
Definition addCauses (path : list nat) (e : nat) : list link * Z :=
  let cs := causesOf e in
  (List.map (fun c => mkLink c (errorText c)) (List.filter (fun c => negb (on_path path c)) cs),
   Z.of_nat (length (List.filter (on_path path) cs))).

Definition newline (base : string) (level : nat) (marker : string) : string :=
  eol +:+ base +:+ String.concat "" (repeat blockIndent level) +:+ marker.

Definition marker (base : string) (level : nat) (what : string) : string :=
  newline base (Nat.max level 1) causeMarker +:+ "… (" +:+ what +:+ ")".

(** An error's own lines. *)
Definition own_lines (base : string) (level : nat) (own : string) : string :=
  match Split own newline_char with
  | [] => ""
  | line :: lines => appendEscaped line true +:+ String.concat "" (List.map (fun l => newline base (S level) "" +:+ appendEscaped l true) lines)
  end.

(** [for _, c := range causes { w.write(c, next) }]. *)
Fixpoint write_all (write_ : link -> Z -> option (string * Z)) (causes : list link) (budget : Z) : option (string * Z) :=
  match causes with
  | [] => Some ("", budget)
  | c :: causes =>
      match write_ c budget with
      | None => None
      | Some (t, budget) =>
          match write_all write_ causes budget with
          | None => None
          | Some (ts, budget) => Some (t +:+ ts, budget)
          end
      end
  end.

(** [w.write(e, level)]: the text and the budget left. [path] is what the caller
    pushed; the causes on [w.links] are this level's alone, so they are a value.
    The recursion is as deep as the budget. *)
Fixpoint write (fuel : nat) (base : string) (path : list nat) (e : link) (level : nat) (budget : Z) : option (string * Z) :=
  match fuel with
  | O => None
  | S fuel =>
      if budget <=? 0 then
        if budget =? 0 then Some (marker base level "truncated", budget - 1) else Some ("", budget)
      else
        let '(links, cycle) := addCauses path (l_err e) in
        let '(own, causes) := splitOwn (l_text e) links in
        let '(head, next) :=
          if negb (own =? "")%string then ((if (level =? 0)%nat then " " else newline base level causeMarker) +:+ own_lines base level own, S level)
          else if (level =? 0)%nat && (1 <? Z.of_nat (length causes) + cycle) then ("", 1%nat)
          else ("", level) in
        let path := if isComparable (l_err e) then path ++ [l_err e] else path in
        match write_all (fun c => write fuel base path c next) causes (budget - 1) with
        | None => None
        | Some (t, budget) => Some (head +:+ t +:+ (if 0 <? cycle then marker base next "cycle" else ""), budget)
        end
  end.

(** Enough for the budget of a new writer. *)
Definition write_fuel : nat := 65.

(** [unwrap(err)]. *)
Definition unwrap (e : nat) : string * list nat :=
  let '(own, shown_) := splitOwn (errorText e) (List.map (fun c => mkLink c (errorText c)) (causesOf e)) in
  (own, List.map l_err shown_).

(** ** Entries *)

Definition appendText (s : string) : string :=
  String.concat "" (List.map (fun line => eol +:+ blockIndent +:+ blockIndent +:+ appendEscaped line false) (Split (TrimRightByte s newline_char) newline_char)).

(** The errors of a zap.Errors, each under its index. *)
Fixpoint error_list (i : Z) (errs : list (option nat)) (budget : Z) : option string :=
  match errs with
  | [] => Some ""
  | None :: errs => error_list (i + 1) errs budget
  | Some e :: errs =>
      let base := blockIndent +:+ blockIndent in
      match write write_fuel base [] (mkLink e (errorText e)) 0 budget with
      | None => None
      | Some (t, budget) =>
          match error_list (i + 1) errs budget with
          | None => None
          | Some ts => Some (eol +:+ base +:+ "[" +:+ pretty i +:+ "]" +:+ t +:+ ts)
          end
      end
  end.

Definition appendBlock (f : Field) : option string :=
  match
    (match f_val f with
     | ErrorType (Some e) => option_map fst (write write_fuel blockIndent [] (mkLink e (errorText e)) 0 maxErrorNodes)
     | ErrorType None => Some ""
     | ErrorsType errs => error_list 0 errs maxErrorNodes
     | StringType s => Some (appendText s)
     | _ => Some (appendText "")
     end)
  with
  | None => None
  | Some t => Some (blockIndent +:+ appendEscaped (f_Key f) false +:+ ":" +:+ t +:+ eol)
  end.

Fixpoint appendBlocks (blocks : list Field) : option string :=
  match blocks with
  | [] => Some ""
  | f :: blocks =>
      match appendBlock f, appendBlocks blocks with
      | Some t, Some ts => Some (t +:+ ts)
      | _, _ => None
      end
  end.

Context `{PrintTable} `{LogLib}.

(** Rendered under the header line. *)
Definition is_block (f : Field) : bool :=
  match f_val f with
  | ErrorType _ | ErrorsType _ => true
  | StringType s => ContainsByte s newline_char
  | _ => false
  end.

Fixpoint appendFields (namespace : string) (blocks fields : list Field) : string * string * list Field :=
  match fields with
  | [] => ("", namespace, blocks)
  | f :: fields =>
      if match f_val f with NamespaceType => true | _ => false end then appendFields (namespace +:+ f_Key f +:+ ".") blocks fields
      else if is_block f then appendFields namespace (blocks ++ [mkField (namespace +:+ f_Key f) (f_val f)]) fields
      else
        let '(text, namespace', blocks) := appendFields namespace blocks fields in (appendInline namespace f +:+ text, namespace', blocks)
  end.

Record EntryCaller := mkCaller { ec_File : string; ec_Line : Z }.

(** [en_Time] is [None] for the zero time, [en_Caller] when it is not defined. *)
Record Entry := mkEntry {
  en_Time : option (time * Z); en_Level : Z; en_LoggerName : string; en_Caller : option EntryCaller; en_Message : string; en_Stack : string
}.

(** What zap's level encoder, with or without colours, writes. *)
Context (levelText : bool -> Z -> string).

Record prettyEncoder := mkPrettyEncoder {
  pe_levels : list string; pe_color : bool; pe_inline : string; pe_blocks : list Field; pe_namespace : string
}.

Definition DebugLevel : Z := -1.
Definition FatalLevel : Z := 5.

Definition newPrettyEncoder (color : bool) : prettyEncoder :=
  mkPrettyEncoder (List.map (fun i => levelText color (DebugLevel + Z.of_nat i)) (seq 0 (Z.to_nat (FatalLevel - DebugLevel + 1)))) color "" [] "".

Definition with_ (e : prettyEncoder) (fields : list Field) : prettyEncoder :=
  let '(text, namespace, blocks) := appendFields (pe_namespace e) (pe_blocks e) fields in
  mkPrettyEncoder (pe_levels e) (pe_color e) (pe_inline e +:+ text) blocks namespace.

Definition appendCaller (c : EntryCaller) : string :=
  let file :=
    match CutLast (ec_File c) "/" with
    | Some (dir, name) => match CutLast dir "/" with Some (_, parent) => parent +:+ "/" +:+ name | None => ec_File c end
    | None => ec_File c
    end in
  file +:+ ":" +:+ pretty (ec_Line c).

Definition header_time (ent : Entry) : string :=
  match en_Time ent with Some (t, offset) => appendClock "" t offset +:+ " " | None => "" end.

Definition header_level (e : prettyEncoder) (ent : Entry) : string :=
  let i := en_Level ent - DebugLevel in
  match (if 0 <=? i then pe_levels e !! Z.to_nat i else None) with
  | Some t => t
  | None => levelText (pe_color e) (en_Level ent)
  end.

Definition header_rest (ent : Entry) : string :=
  (if (en_LoggerName ent =? "")%string then "" else " [" +:+ appendEscaped (en_LoggerName ent) false +:+ "]")
  +:+ match en_Caller ent with Some c => " " +:+ appendCaller c | None => "" end
  +:+ " " +:+ appendEscaped (en_Message ent) false.

Definition appendHeader (e : prettyEncoder) (ent : Entry) : string := header_time ent +:+ header_level e ent +:+ header_rest ent.

Definition EncodeEntry (e : prettyEncoder) (ent : Entry) (fields : list Field) : option string :=
  let '(text, _, blocks) := appendFields (pe_namespace e) (pe_blocks e) fields in
  match appendBlocks blocks with
  | None => None
  | Some bs =>
      Some (appendHeader e ent +:+ pe_inline e +:+ text +:+ eol +:+ bs
            +:+ if (en_Stack ent =? "")%string then "" else blockIndent +:+ "stacktrace:" +:+ appendText (en_Stack ent) +:+ eol)
  end.

End Errors.
