(* ===== verification/PrettyFacts.v ===== *)
(** * What the pretty log format shows

    That an entry, whatever was logged, is one line and indented blocks, of
    visible text but for invalid bytes of a value's own JSON. *)

From stdpp Require Import pretty.
From S2P Require Import Prelude GoTime LogTime GoStrings GoUtf8 Pretty.
#[local] Open Scope Z_scope.

Definition visible (r : Z) : bool := negb (isControl r false).
Abbreviation clean := (shown visible).

(** ** Printable ASCII *)

Definition printable_byte (c : ascii) : bool := ((0x20 <=? code c) && (code c <=? 0x7e))%N.
Definition printable (s : string) : bool := forallb printable_byte (String.list_ascii_of_string s).

Lemma printable_app s t : printable (s +:+ t) = printable s && printable t.
Proof. unfold printable. induction s as [|c s IH]; [done|]. rewrite append_cons. cbn. by rewrite IH, andb_assoc. Qed.

Lemma printable_clean s : printable s = true -> clean s.
Proof.
  unfold printable. rewrite forallb_forall. intros Hs. apply shown_ascii. intros c Hc%list_elem_of_In%Hs.
  unfold printable_byte in Hc. apply andb_true_iff in Hc as [H1%N.leb_le H2%N.leb_le]. split; [apply N.ltb_lt; lia|].
  unfold visible, isControl. rewrite andb_false_r, orb_false_r.
  destruct (Z.eqb_spec (Z.of_N (code c)) 9); [lia|]. destruct (Z.ltb_spec (Z.of_N (code c)) 0x20); [lia|].
  destruct (Z.eqb_spec (Z.of_N (code c)) 0x7f); [lia|]. destruct (Z.leb_spec 0x80 (Z.of_N (code c))); [lia|done].
Qed.

Lemma printable_get n s c : printable s = true -> String.get n s = Some c -> printable (String c "") = true.
Proof.
  revert n. induction s as [|d s IH]; intros n Hs Hg; [by destruct n|]. unfold printable in Hs. cbn in Hs. apply andb_true_iff in Hs as [Hd Hs].
  destruct n as [|n]; cbn in Hg; [injection Hg as <-; unfold printable; cbn; by rewrite Hd|by eapply IH].
Qed.

Lemma printable_lookup n s : printable s = true -> printable (match String.get n s with Some c => String c "" | None => "" end) = true.
Proof. intros Hs. destruct (String.get n s) eqn:E; [by eapply printable_get|done]. Qed.

Lemma printable_digits i : printable (digits_at i) = true.
Proof. by apply printable_lookup. Qed.

Lemma printable_hex n x : printable (hex_digits n x) = true.
Proof. induction n as [|n IH]; [done|]. cbn [hex_digits]. rewrite printable_app, IH, andb_true_r. by apply printable_lookup. Qed.

Lemma printable_go x s : printable s = true -> printable (pretty_N_go x s) = true.
Proof.
  revert s. induction (N.lt_wf_0 x) as [x _ IH]; intros s Hs. destruct (decide (x = 0)%N) as [->|Hx]; [done|].
  rewrite pretty_N_go_step by lia. apply IH; [apply N.div_lt; lia|].
  change (printable (String (pretty_N_char (x `mod` 10)) "" +:+ s) = true). rewrite printable_app, Hs, andb_true_r.
  unfold pretty_N_char. by repeat case_match.
Qed.

Lemma printable_pretty (z : Z) : printable (pretty z) = true.
Proof.
  assert (forall n : N, printable (pretty n) = true) as Hn.
  { intros n. unfold pretty, pretty_N. case_decide; [done|]. by apply printable_go. }
  destruct z as [|p|p]; [done|apply (Hn (N.pos p))|]. change (pretty (Z.neg p)) with ("-" +:+ pretty (N.pos p)). rewrite printable_app. by rewrite Hn.
Qed.

Lemma printable_zeros n : printable (zeros n) = true.
Proof. induction n as [|n IH]; [done|]. exact IH. Qed.

Lemma printable_appendInt x n : printable (appendInt x n) = true.
Proof. unfold appendInt. rewrite !printable_app, printable_zeros, printable_pretty. by destruct (x <? 0). Qed.

Lemma printable_trim s : printable s = true -> printable (trim_zeros s) = true.
Proof.
  induction s as [|c s IH]; [done|]. intros Hs. assert (printable (String c "" +:+ s) = true) as Hs' by exact Hs. clear Hs. rename Hs' into Hs.
  rewrite printable_app in Hs. apply andb_true_iff in Hs as [Hc Hs].
  cbn [trim_zeros]. specialize (IH Hs). destruct (trim_zeros s) as [|d t] eqn:E; [by destruct (Ascii.eqb c "0")|].
  change (printable (String c "" +:+ String d t) = true). by rewrite printable_app, Hc, IH.
Qed.

Lemma printable_frac (f : string) : printable f = true -> printable (match f with "" => "" | String c s => "." +:+ String c s end) = true.
Proof. destruct f; [done|]. intros Hf. by rewrite printable_app, Hf. Qed.

Lemma printable_chunk t offset k : (forall c, k = literal c -> printable_byte c = true) -> printable (format_chunk t offset k) = true.
Proof.
  intros Hk. unfold format_chunk. destruct (Date t offset) as [[y m] d], (Clock t offset) as [[h mi] s].
  destruct k; rewrite ?printable_app, ?printable_appendInt; try done.
  - apply printable_frac, printable_trim, printable_appendInt.
  - unfold format_zone. destruct (offset =? 0); [done|]. rewrite !printable_app, !printable_appendInt. by destruct (_ <? 0).
  - unfold format_zone. destruct (offset =? 0); [done|]. rewrite !printable_app, !printable_appendInt. by destruct (_ <? 0).
  - unfold printable. cbn. by rewrite Hk.
Qed.

Lemma printable_concat l : Forall (fun s => printable s = true) l -> printable (String.concat "" l) = true.
Proof. induction 1 as [|s l Hs _ IH]; [done|]. cbn [String.concat]. destruct l; [done|]. change (printable (s +:+ "" +:+ String.concat "" (s0 :: l)) = true). by rewrite !printable_app, Hs, IH. Qed.

Definition printable_literal (k : chunk) : bool := match k with literal c => printable_byte c | _ => true end.

Lemma printable_Format layout t offset :
  forallb printable_literal (parse_layout (String.length layout) layout) = true -> printable (Format layout t offset) = true.
Proof.
  rewrite forallb_forall. intros Hl. apply printable_concat, Forall_fmap, Forall_forall. intros k Hk%list_elem_of_In%Hl. apply printable_chunk.
  by intros c ->.
Qed.

Lemma clean_time t offset : clean (Format RFC3339Nano t offset).
Proof. by apply printable_clean, printable_Format. Qed.

Lemma clean_duration d : clean (Duration_String d).
Proof.
  assert (forall u n, printable (fmtFrac u n) = true) as Hf by (intros; apply printable_frac, printable_trim, printable_appendInt).
  assert (clean "µs") as Hmu.
  { change "µs" with ("µ" +:+ "s"). apply shown_app; [|by apply printable_clean]. apply (shown_one _ _ 0xB5); [|done]. by vm_compute. }
  unfold Duration_String. apply shown_app; [apply printable_clean; by destruct (d <? 0)|].
  repeat case_match; try (apply printable_clean; rewrite ?printable_app, ?printable_pretty, ?Hf; done).
  apply shown_app; [apply printable_clean, printable_pretty|]. apply shown_app; [by apply printable_clean|done].
Qed.

(** ** Escaping *)

Lemma ascii_decodes c s : (if (code c <? 0x80)%N then (Z.of_N (code c), 1%nat) else DecodeRune (String c s)) = DecodeRune (String c s).
Proof.
  destruct (code c <? 0x80)%N eqn:Hc; [|done]. pose proof (glyph_decodes _ _ s (ascii_glyph c Hc)) as Hd. by rewrite append_cons in Hd.
Qed.

Local Ltac all_bytes := let a := fresh in intros a; destruct a as [[] [] [] [] [] [] [] []]; vm_compute; intros; try done; lia.

Lemma lead2 : forall a, in_range 0xC2 0xDF a = true -> 2 <= Z.land (Z.of_N (code a)) 0x1F.
Proof. all_bytes. Qed.
Lemma lead3 : forall a, in_range 0xE0 0xEF a = true -> (code a =? 0xE0)%N = false -> 1 <= Z.land (Z.of_N (code a)) 0x0F.
Proof. all_bytes. Qed.
Lemma lead4 : forall a, in_range 0xF0 0xF4 a = true -> (code a =? 0xF0)%N = false -> 1 <= Z.land (Z.of_N (code a)) 0x07.
Proof. all_bytes. Qed.
Lemma next3 : forall b, in_range 0xA0 0xBF b = true -> 0x20 <= Z.land (Z.of_N (code b)) 0x3F.
Proof. all_bytes. Qed.
Lemma next4 : forall b, in_range 0x90 0xBF b = true -> 0x10 <= Z.land (Z.of_N (code b)) 0x3F.
Proof. all_bytes. Qed.

(** A rune of several bytes is none of the ASCII ones. *)
Lemma decode_big c s : (code c <? 0x80)%N = false -> 0x80 <= (DecodeRune (String c s)).1.
Proof.
  intros Hc. assert (forall i t, 0 <= Z.land (byte_at i t) 0x3F) as Hlow by (intros; apply Z.land_nonneg; right; lia).
  assert (forall t k, 0 <= k -> 0 <= Z.land (byte_at 0 t) k) as Hhigh by (intros; apply Z.land_nonneg; by right).
  unfold DecodeRune. destruct (rune_size (String c s)) as [|[|[|[|n]]]] eqn:E.
  - done.
  - replace (byte_at 0 (String c s)) with (Z.of_N (code c)) by done. apply N.ltb_ge in Hc. case_match; [rewrite Z.ltb_lt in *; cbn; lia|done].
  - unfold rune_size in E. rewrite Hc in E. destruct s as [|b s]; [done|]. destruct (in_range 0xC2 0xDF c) eqn:E2; [|repeat case_match; done].
    pose proof (lead2 c E2). cbn [fst]. replace (byte_at 0 (String c _)) with (Z.of_N (code c)) by done. pose proof (Hlow 1%nat (String c (String b s))). lia.
  - unfold rune_size in E. rewrite Hc in E. destruct s as [|b s]; [done|]. destruct (in_range 0xC2 0xDF c); [repeat case_match; done|].
    destruct s as [|d s]; [done|]. destruct (in_range 0xE0 0xEF c) eqn:E2; [|repeat case_match; done].
    cbn [fst]. set (str := String c (String b (String d s))). pose proof (Hlow 1%nat str). pose proof (Hlow 2%nat str). pose proof (Hhigh str 0x0F ltac:(lia)).
    destruct (_ && _) eqn:E3; [|done]. apply andb_true_iff in E3 as [E3 _].
    destruct (code c =? 0xE0)%N eqn:E0.
    + replace (code c =? 0xED)%N with false in E3 by (apply N.eqb_eq in E0; by rewrite E0). pose proof (next3 b E3) as Hn.
      replace (Z.land (byte_at 1 str) 0x3F) with (Z.land (Z.of_N (code b)) 0x3F) by done. lia.
    + pose proof (lead3 c E2 E0) as Hn. replace (Z.land (byte_at 0 str) 0x0F) with (Z.land (Z.of_N (code c)) 0x0F) by done. lia.
  - unfold rune_size in E. rewrite Hc in E. destruct s as [|b s]; [done|]. destruct (in_range 0xC2 0xDF c); [repeat case_match; done|].
    destruct s as [|d s]; [done|]. destruct (in_range 0xE0 0xEF c); [repeat case_match; done|]. destruct s as [|e s]; [done|].
    destruct (in_range 0xF0 0xF4 c) eqn:E2; [|done].
    cbn [fst]. set (str := String c (String b (String d (String e s)))). pose proof (Hlow 1%nat str). pose proof (Hlow 2%nat str). pose proof (Hlow 3%nat str).
    pose proof (Hhigh str 0x07 ltac:(lia)). destruct (_ && _) eqn:E3; [|done]. apply andb_true_iff in E3 as [[E3 _]%andb_true_iff _].
    destruct (code c =? 0xF0)%N eqn:E0.
    + replace (code c =? 0xF4)%N with false in E3 by (apply N.eqb_eq in E0; by rewrite E0). pose proof (next4 b E3) as Hn.
      replace (Z.land (byte_at 1 str) 0x3F) with (Z.land (Z.of_N (code b)) 0x3F) by done. lia.
    + pose proof (lead4 c E2 E0) as Hn. replace (Z.land (byte_at 0 str) 0x07) with (Z.land (Z.of_N (code c)) 0x07) by done. lia.
Qed.

Lemma clean_hex r : clean (appendHex r).
Proof. apply printable_clean. unfold appendHex. by rewrite printable_app, !printable_digits. Qed.

Lemma clean_esc s : printable s = true -> clean (esc s).
Proof. intros Hs. apply printable_clean. change (esc s) with (esc "" +:+ s). by rewrite printable_app, Hs. Qed.

Lemma drop_contains n s c : ContainsByte s c = false -> ContainsByte (drop_bytes n s) c = false.
Proof. revert s. induction n as [|n IH]; intros [|d s] Hs; [done..|]. cbn in *. apply orb_false_iff in Hs as [_ Hs]. by apply IH. Qed.

Lemma clean_escape_loop fuel newline seg s :
  newline = false \/ ContainsByte s newline_char = false -> clean seg -> clean (escape_loop fuel newline seg s).
Proof.
  revert seg s. induction fuel as [|fuel IH]; intros seg s Hn Hseg; [by destruct s|]. destruct s as [|c s]; [done|].
  cbn [escape_loop]. rewrite ascii_decodes. destruct (DecodeRune (String c s)) as [r n] eqn:Hd.
  assert (newline = false \/ ContainsByte (drop_bytes n (String c s)) newline_char = false) as Hn' by (destruct Hn; [by left|right; by apply drop_contains]).
  destruct (_ && _) eqn:Hok.
  - apply andb_true_iff in Hok as [Hi Hc]. apply IH; [done|]. apply shown_app; [done|].
    pose proof (first_glyph (String c s) ltac:(done)) as Hg. rewrite <- size_of_DecodeRune, Hd in Hg. cbn [fst snd] in Hg.
    apply (shown_one _ _ r); [apply Hg; unfold invalid_at; rewrite Hd; by apply negb_true_iff|].
    unfold visible. destruct newline; [|done]. destruct Hn as [?|Hn]; [done|].
    assert (r <> 10).
    { intros ->. destruct (code c <? 0x80)%N eqn:Hlow; [|pose proof (decode_big c s Hlow) as Hb; rewrite Hd in Hb; cbn in Hb; lia].
      pose proof (ascii_decodes c s) as Ha. rewrite Hlow, Hd in Ha. injection Ha as Ha _. cbn [ContainsByte] in Hn. apply orb_false_iff in Hn as [Hn _].
      apply Ascii.eqb_neq in Hn. apply Hn. unfold code in Ha. rewrite <- (Ascii.ascii_N_embedding c). replace (Ascii.N_of_ascii c) with 10%N by lia. done. }
    revert Hc. unfold isControl. destruct (Z.eqb_spec r 10); [done|]. cbn [andb]. done.
  - assert (clean (escape_loop fuel newline "" (drop_bytes n (String c s)))) as Hrest by (apply IH; [done|constructor]).
    apply shown_app; [done|]. apply shown_app; [|done].
    repeat case_match; try (by apply clean_esc); apply shown_app; (apply clean_hex || by apply clean_esc).
Qed.

Lemma clean_escaped s : clean (appendEscaped s false).
Proof. apply clean_escape_loop; [by left|constructor]. Qed.

Lemma clean_escaped_line s : ContainsByte s newline_char = false -> clean (appendEscaped s true).
Proof. intros Hs. apply clean_escape_loop; [by right|constructor]. Qed.

Lemma split_glyph u t : take_bytes (String.length u) (u +:+ t) = u /\ drop_bytes (String.length u) (u +:+ t) = t.
Proof. induction u as [|d v IH]; [by destruct t|]. rewrite append_cons. cbn. destruct IH. split; [by f_equal|done]. Qed.

Lemma clean_json_loop b : shown (fun r => 0x20 <=? r) b -> forall fuel seg, clean seg -> clean (json_loop fuel seg b).
Proof.
  induction 1 as [|u r s Hu Hr _ IH]; intros fuel seg Hseg; [by destruct fuel|]. destruct fuel as [|fuel]; [done|].
  pose proof (glyph_decodes u r s Hu) as Hd. pose proof (split_glyph u s) as [Ht Hdr]. assert (u <> "") as Hne by apply Hu.
  destruct u as [|c u]; [done|]. rewrite append_cons in *. cbn [json_loop]. rewrite Hd, Ht, Hdr. destruct (_ || _) eqn:Hc.
  - apply shown_app; [done|]. apply shown_app; [by apply clean_esc|]. apply shown_app; [apply clean_hex|]. apply IH. constructor.
  - apply IH, shown_app; [done|]. apply (shown_one _ _ r); [done|]. unfold visible, isControl. rewrite andb_false_r, orb_false_r.
    apply orb_false_iff in Hc as [-> ->]. apply Z.leb_le in Hr. destruct (Z.ltb_spec r 0x20); [lia|]. by destruct (r =? 9).
Qed.

(** ** Bytes *)

(** A byte that moves no terminal to another line: a tab, or neither below a
    space nor DEL. *)
Definition sober_byte (c : ascii) : bool := ((code c =? 9) || (0x20 <=? code c) && negb (code c =? 0x7f))%N.
Abbreviation bytes := String.list_ascii_of_string.
Definition sober (s : string) : bool := forallb sober_byte (bytes s).

Lemma bytes_app s t : bytes (s +:+ t) = bytes s ++ bytes t.
Proof. induction s as [|c s IH]; [done|]. rewrite append_cons. cbn. by rewrite IH. Qed.

Lemma sober_app s t : sober (s +:+ t) = sober s && sober t.
Proof. unfold sober. by rewrite bytes_app, forallb_app. Qed.

(** A rune that does not start in ASCII has no ASCII byte. *)
Lemma high_bytes c s : (code c <? 0x80)%N = false ->
  forallb (fun d => 0x80 <=? code d)%N (bytes (take_bytes (rune_size (String c s)) (String c s))) = true.
Proof.
  intros Hc. assert (Hh : (0x80 <=? code c)%N = true) by (apply N.ltb_ge in Hc; by apply N.leb_le).
  assert (Hr : forall lo hi d, (0x80 <= lo)%N -> in_range lo hi d = true -> (0x80 <=? code d)%N = true).
  { intros lo hi d Hlo [H1%N.leb_le _]%andb_true_iff. apply N.leb_le. lia. }
  assert (H1 : forall t, forallb (fun d => 0x80 <=? code d)%N (bytes (take_bytes 1 (String c t))) = true).
  { intros t. unfold take_bytes. cbn. destruct t; cbn; by rewrite Hh. }
  unfold rune_size. rewrite Hc. destruct s as [|b s]; [apply H1|]. destruct (in_range 0xC2 0xDF c).
  { destruct (in_range 0x80 0xBF b) eqn:Hb; [|apply H1]. unfold take_bytes. destruct s; cbn; by rewrite Hh, (Hr _ _ _ (N.le_refl _) Hb). }
  destruct s as [|d s]; [apply H1|]. destruct (in_range 0xE0 0xEF c).
  { destruct (_ && _) eqn:Hb; [|apply H1]. apply andb_true_iff in Hb as [Hb Hd]. apply Hr in Hb; [|by destruct (_ =? _)%N].
    unfold take_bytes. destruct s; cbn; by rewrite Hh, Hb, (Hr _ _ _ (N.le_refl _) Hd). }
  destruct s as [|e s]; [apply H1|]. destruct (in_range 0xF0 0xF4 c); [|apply H1].
  destruct (_ && _) eqn:Hb; [|apply H1]. apply andb_true_iff in Hb as [[Hb Hd]%andb_true_iff He]. apply Hr in Hb; [|by destruct (_ =? _)%N].
  unfold take_bytes. destruct s; cbn; by rewrite Hh, Hb, (Hr _ _ _ (N.le_refl _) Hd), (Hr _ _ _ (N.le_refl _) He).
Qed.

Lemma high_sober t : forallb (fun d => 0x80 <=? code d)%N (bytes t) = true -> sober t = true.
Proof.
  unfold sober. rewrite !forallb_forall. intros Ht c Hc%Ht%N.leb_le. unfold sober_byte.
  destruct (N.eqb_spec (code c) 9); [done|]. destruct (N.leb_spec 0x20 (code c)); [|lia]. destruct (N.eqb_spec (code c) 0x7f); [lia|done].
Qed.

Lemma take_low c s : (code c <? 0x80)%N = true -> DecodeRune (String c s) = (Z.of_N (code c), 1%nat) /\ take_bytes 1 (String c s) = String c "".
Proof. intros Hc. pose proof (ascii_decodes c s) as Hd. rewrite Hc in Hd. split; [done|]. by destruct s. Qed.

Lemma glyph_low c u r : glyph (String c u) r -> (code c <? 0x80)%N = true -> u = "" /\ r = Z.of_N (code c).
Proof.
  intros (_ & Hsz & Hd & _) Hc. destruct (take_low c u Hc) as [E _]. rewrite E in Hd. split; [|done].
  rewrite <- size_of_DecodeRune, E in Hsz. destruct u; [done|]. cbn in Hsz. lia.
Qed.

Lemma clean_sober s : clean s -> sober s = true.
Proof.
  induction 1 as [|u r s Hu Hr _ IH]; [done|]. rewrite sober_app, IH, andb_true_r. assert (u <> "") as Hne by apply Hu. destruct u as [|c u]; [done|].
  destruct (code c <? 0x80)%N eqn:Hc.
  - destruct (glyph_low _ _ _ Hu Hc) as [-> ->]. unfold sober, sober_byte. cbn [String.list_ascii_of_string forallb]. rewrite andb_true_r. unfold visible, isControl in Hr.
    apply negb_true_iff in Hr. destruct (N.eqb_spec (code c) 9) as [|H9]; [done|]. destruct (Z.eqb_spec (Z.of_N (code c)) 9); [lia|].
    rewrite andb_false_r, orb_false_r in Hr. apply orb_false_iff in Hr as [[Hlo%Z.ltb_ge Hdel%Z.eqb_neq]%orb_false_iff _].
    apply andb_true_iff. split; [apply N.leb_le; lia|]. apply negb_true_iff, N.eqb_neq. lia.
  - apply high_sober. destruct Hu as (_ & Hsz & _). pose proof (high_bytes c u Hc) as Hh. rewrite Hsz in Hh.
    pose proof (split_glyph (String c u) "") as [Ht _]. rewrite append_nil_r in Ht. by rewrite Ht in Hh.
Qed.

Lemma drop_bytes_all (p : ascii -> bool) n s : forallb p (bytes s) = true -> forallb p (bytes (drop_bytes n s)) = true.
Proof. intros Hs. rewrite <- (take_drop_bytes n s), bytes_app, forallb_app in Hs. by apply andb_true_iff in Hs as [_ ?]. Qed.

(** JSON with nothing below a space in it stays on its line, valid UTF-8 or not. *)
Lemma sober_json_loop fuel seg b :
  forallb (fun c => 0x20 <=? code c)%N (bytes b) = true -> sober seg = true -> sober (json_loop fuel seg b) = true.
Proof.
  revert seg b. induction fuel as [|fuel IH]; intros seg b Hb Hseg; [by destruct b|]. destruct b as [|c b]; [done|]. cbn [json_loop].
  destruct (DecodeRune (String c b)) as [r n] eqn:Hd. pose proof (drop_bytes_all _ n _ Hb) as Hb'. destruct (_ || _) eqn:Hr.
  - rewrite !sober_app, Hseg, (clean_sober (appendHex r)), IH by (done || apply clean_hex). done.
  - apply IH; [done|]. rewrite sober_app, Hseg. cbn [andb]. destruct (code c <? 0x80)%N eqn:Hc.
    + destruct (take_low c b Hc) as [E Et]. rewrite E in Hd. injection Hd as <- <-. rewrite Et. unfold sober, sober_byte. cbn [String.list_ascii_of_string forallb] in *.
      rewrite andb_true_r. apply andb_true_iff in Hb as [-> _]. apply orb_false_iff in Hr as [Hr _]. destruct (N.eqb_spec (code c) 0x7f) as [E7|]; [by rewrite E7 in Hr|].
      by rewrite orb_true_r.
    + apply high_sober. pose proof (high_bytes c b Hc) as Hh. by rewrite <- size_of_DecodeRune, Hd in Hh.
Qed.

(** ** Quoting *)

Lemma runes_tokens fuel s : Forall (fun x => invalid_token x = true \/ glyph x.2 x.1) (runes_from fuel s).
Proof.
  revert s. induction fuel as [|fuel IH]; intros [|c s]; [constructor..|]. cbn [runes_from].
  destruct (DecodeRune (String c s)) as [r n] eqn:Hd. constructor; [|apply IH].
  pose proof (first_glyph (String c s) ltac:(done)) as Hg. destruct (rune_size_bounds (String c s)) as [Hn Hl]; [done|].
  rewrite <- size_of_DecodeRune, Hd in *. cbn [fst snd] in *. destruct (invalid_at (String c s)) eqn:Hi; [left|right; by apply Hg].
  unfold invalid_at in Hi. rewrite Hd in Hi. unfold invalid_token. cbn [fst snd]. by rewrite take_bytes_length.
Qed.

Lemma runes_concat fuel s : (String.length s <= fuel)%nat -> String.concat "" (List.map snd (runes_from fuel s)) = s.
Proof.
  revert s. induction fuel as [|fuel IH]; intros [|c s] Hf; cbn in Hf; [done|lia|done|]. cbn [runes_from].
  destruct (DecodeRune (String c s)) as [r n] eqn:Hd. destruct (rune_size_bounds (String c s)) as [Hn Hl]; [done|].
  rewrite <- size_of_DecodeRune, Hd in *. cbn [fst snd] in *. cbn [List.map snd].
  assert (forall a l, String.concat "" (a :: l) = a +:+ String.concat "" l) as Hc.
  { intros a l. cbn. destruct l; [by rewrite append_nil_r|done]. }
  rewrite Hc, IH; [apply take_drop_bytes|].
  pose proof (take_drop_bytes n (String c s)) as E. apply (f_equal String.length) in E. rewrite length_append, take_bytes_length in E by done. cbn in E. lia.
Qed.

Section Text.
Context `{PrintTable} `{LogLib}.

Lemma print_visible r : IsPrint r = true -> visible r = true.
Proof.
  intros Hp. destruct (control_rune r) eqn:Hc; [by rewrite control_unprintable in Hp|]. unfold visible, isControl, control_rune in *.
  rewrite andb_false_r, orb_false_r. destruct (r =? 9); [done|]. apply orb_false_iff in Hc as [-> Hc].
  destruct (Z.eqb_spec r 0x7f) as [->|?]; [done|]. cbn [orb]. destruct (Z.leb_spec 0x7f r), (Z.leb_spec 0x80 r); try done; lia.
Qed.

Lemma clean_quote_rune x : invalid_token x = true \/ glyph x.2 x.1 -> clean (quote_rune x).
Proof.
  destruct x as [r bytes]. cbn [fst snd]. intros Hx. unfold quote_rune.
  destruct (invalid_token (r, bytes)) eqn:Hi; [apply clean_esc; by rewrite printable_app, printable_hex|]. destruct Hx as [?|Hg]; [done|].
  destruct ((r =? 34) || (r =? 92)) eqn:Hq.
  { apply (shown_app _ (esc "") bytes); [by apply clean_esc|]. apply (shown_one _ _ r); [done|].
    apply orb_true_iff in Hq as [->%Z.eqb_eq| ->%Z.eqb_eq]; done. }
  destruct (IsPrint r) eqn:Hp; [by apply (shown_one _ _ r); [|apply print_visible]|].
  repeat case_match; try (by apply clean_esc); apply clean_esc; by rewrite printable_app, printable_hex.
Qed.

Lemma clean_string s : clean (appendString s).
Proof.
  unfold appendString. destruct (_ || _) eqn:Hq.
  - unfold strconv_Quote. change (clean (String dquote "" +:+ String.concat "" (List.map quote_rune (runes s)) +:+ String dquote "")).
    apply shown_app; [by apply printable_clean|]. apply shown_app; [|by apply printable_clean]. apply shown_concat, Forall_fmap.
    eapply Forall_impl; [apply runes_tokens|]. intros x Hx. by apply clean_quote_rune.
  - apply orb_false_iff in Hq as [[Hne Hv]%orb_false_iff Hq]. apply negb_false_iff in Hv.
    rewrite <- (runes_concat (String.length s) s) by lia. apply shown_concat, Forall_fmap, Forall_forall. intros x Hx.
    unfold ValidString in Hv. rewrite forallb_forall in Hv. pose proof (Hv x ltac:(by apply list_elem_of_In)) as Hi. apply negb_true_iff in Hi.
    pose proof (runes_tokens (String.length s) s) as Ht. rewrite Forall_forall in Ht. destruct (Ht x Hx) as [?|Hg]; [congruence|].
    apply (shown_one _ _ x.1); [done|]. apply print_visible. destruct (IsPrint x.1) eqn:Hp; [done|].
    assert (existsb (fun t => (t.1 =? 61) || (t.1 =? 34) || IsSpace t.1 || negb (IsPrint t.1)) (runes s) = true); [|congruence].
    apply existsb_exists. exists x. split; [by apply list_elem_of_In|]. by rewrite Hp, orb_true_r.
Qed.

(** ** Fields *)

Lemma clean_key namespace key : clean (appendKey namespace key).
Proof. unfold appendKey. repeat (apply shown_app; [apply clean_escaped || by apply printable_clean|]). by apply printable_clean. Qed.

Lemma clean_pretty (z : Z) : clean (pretty z).
Proof. apply printable_clean, printable_pretty. Qed.

Lemma clean_bool b : clean (show_bool b).
Proof. by destruct b; apply printable_clean. Qed.

Lemma clean_plain s : isPlainJSON s = true -> clean s.
Proof.
  unfold isPlainJSON. rewrite forallb_forall. intros Hs. apply printable_clean. unfold printable. apply forallb_forall. intros c Hc%Hs.
  unfold plain_byte in Hc. apply negb_true_iff, orb_false_iff in Hc as [[H1%N.ltb_ge H2%N.leb_gt]%orb_false_iff _].
  unfold printable_byte. apply andb_true_iff. split; apply N.leb_le; lia.
Qed.

(** JSON that is valid UTF-8 is made of runes from the space up. *)
Lemma valid_shown b :
  ValidString b = true -> forallb (fun c => 0x20 <=? code c)%N (bytes b) = true -> shown (fun r => 0x20 <=? r) b.
Proof.
  intros Hv Hb. pose proof (runes_concat (String.length b) b (Nat.le_refl _)) as E. fold (runes b) in E. rewrite <- E in Hb |- *.
  pose proof (runes_tokens (String.length b) b) as Ht. fold (runes b) in Ht. clear E. apply shown_concat.
  unfold ValidString in Hv. rewrite forallb_forall in Hv. assert (Hv' : Forall (fun x => invalid_token x = false) (runes b)).
  { apply Forall_forall. intros x Hx%list_elem_of_In%Hv. by apply negb_true_iff. }
  clear Hv. induction (runes b) as [|[r u] l IH]; [constructor|]. apply Forall_cons in Ht as [Ht Htl]. apply Forall_cons in Hv' as [Hi Hil]. cbn [fst snd] in *.
  assert (Hcat : String.concat "" (List.map snd ((r, u) :: l)) = u +:+ String.concat "" (List.map snd l)).
  { cbn [List.map snd]. generalize (List.map snd l). intros l'. cbn. destruct l'; [by rewrite append_nil_r|done]. }
  rewrite Hcat, bytes_app, forallb_app in Hb. apply andb_true_iff in Hb as [Hu Hb]. constructor; [|by apply IH].
  destruct Ht as [?|Hg]; [congruence|]. apply (shown_one _ _ r); [done|]. apply Z.leb_le. assert (u <> "") as Hne by apply Hg. destruct u as [|c u]; [done|].
  destruct (code c <? 0x80)%N eqn:Hc.
  - destruct (glyph_low _ _ _ Hg Hc) as [_ ->]. cbn [String.list_ascii_of_string forallb] in Hu. apply andb_true_iff in Hu as [Hu%N.leb_le _]. lia.
  - destruct Hg as (_ & _ & <- & _). pose proof (decode_big c u Hc). lia.
Qed.

(** The values of a field that are written as JSON, where encoding/json has one
    for them. *)
Definition mapped_values (mapped : list (string * mval)) : list mval :=
  match dropVerbose (MMap mapped) with MMap m => m.*2 | _ => [] end.
Definition field_json (f : Field) : list mval :=
  match f_val f with ArrayMarshalerType _ _ mapped | MappedType mapped => mapped_values mapped | _ => [] end.

(** Every one of them is valid UTF-8, as encoding/json writes what is no
    json.RawMessage or json.Marshaler. *)
Definition json_utf8 (f : Field) : Prop := forall v b, v ∈ field_json f -> json_Marshal v = Some b -> ValidString b = true.

Lemma clean_items items buf n other : clean buf -> clean (plain_items items buf n other).1.
Proof.
  assert (clean (plain_next 0) /\ forall n, clean (plain_next (S n))) as [Hp0 Hp] by (split; intros; by apply printable_clean).
  revert buf n other. induction items as [|it items IH]; intros buf n other Hb; [done|]. cbn [plain_items].
  assert (forall t, clean t -> clean (buf +:+ plain_next n +:+ t)) as Ht.
  { intros t Ht. apply shown_app; [done|]. apply shown_app; [by destruct n|done]. }
  destruct it as [s|b|z|z|]; try (by apply IH, Ht, clean_bool); try (by apply IH, Ht, clean_pretty); [|by apply IH].
  destruct (isPlainJSON s) eqn:Hs; apply IH; [|done]. apply Ht. change (clean (String dquote "" +:+ s +:+ String dquote "")).
  apply shown_app; [by apply printable_clean|]. apply shown_app; [by apply clean_plain|by apply printable_clean].
Qed.

(** What holds of clean text and of the JSON in it holds of a field. *)
Section Inline.
Context (P : string -> Prop) (P_app : forall s t, P s -> P t -> P (s +:+ t)) (P_clean : forall s, clean s -> P s).

Definition json_fine (v : mval) : Prop := forall b, json_Marshal v = Some b -> P (appendJSON b).

Lemma value_text v : json_fine v -> P (appendValue v).
Proof.
  intros Hv. destruct v; cbn [appendValue]; try (case_match eqn:Hj; [by apply Hv|apply P_clean, clean_string]);
    apply P_clean; auto using clean_string, clean_bool, clean_pretty, clean_duration, clean_time, clean_plain, float_text.
Qed.

Lemma concat_text l : Forall P l -> P (String.concat "" l).
Proof.
  induction 1 as [|s l Hs Hl IH]; [apply P_clean; constructor|]. cbn. destruct l; [done|]. rewrite append_nil_l. by apply P_app.
Qed.

Lemma mapped_text namespace mapped : Forall json_fine (mapped_values mapped) -> P (appendMapped namespace mapped).
Proof.
  unfold appendMapped, mapped_values. intros Hj. destruct (dropVerbose _); try (apply P_clean; constructor).
  apply concat_text, Forall_fmap, Forall_forall. intros kv Hkv. rewrite merge_sort_Permutation in Hkv.
  apply P_app; [apply P_clean, clean_key|]. apply value_text. rewrite Forall_forall in Hj. apply Hj. by apply list_elem_of_fmap_2.
Qed.

Lemma inline_text namespace f : Forall json_fine (field_json f) -> P (appendInline namespace f).
Proof.
  unfold appendInline, field_json. intros Hj.
  destruct (f_val f) as [| |s|s|i|w i|w i|w i|i|i o|t o|c|items failed mapped|l|e|mapped]; try (apply P_clean; constructor); try (by apply mapped_text);
    try (apply P_clean, shown_app; [apply clean_key|]; auto using clean_string, clean_bool, clean_pretty, clean_duration, clean_time, clean_plain, float_text).
  - destruct (recoverText c) as [s panicked]. apply P_clean, shown_app; [apply clean_key|apply clean_string].
  - destruct (appendPlainArray namespace (f_Key f) items failed) as [t|] eqn:E; [|by apply mapped_text]. unfold appendPlainArray in E.
    pose proof (clean_items items "" 0 false ltac:(constructor)) as Hb. destruct (plain_items items "" 0 false) as [buf other]. destruct (failed || other); [done|].
    injection E as <-. apply P_clean, shown_app; [apply clean_key|]. apply shown_app; [by apply printable_clean|]. apply shown_app; [done|by apply printable_clean].
Qed.

End Inline.

Lemma json_sober v : json_fine (fun s => sober s = true) v.
Proof. intros b Hb%json_bytes. by apply sober_json_loop. Qed.

Lemma json_clean f : json_utf8 f -> Forall (json_fine (shown visible)) (field_json f).
Proof.
  intros Hf. apply Forall_forall. intros v Hv b Hb. apply clean_json_loop; [|constructor]. apply valid_shown; [by eapply Hf|by eapply json_bytes].
Qed.

End Text.

(** ** Blocks *)

(** A line, and lines under it that are indented. *)
Inductive blocky : string -> Prop :=
  | blocky_line l : clean l -> blocky l
  | blocky_more s l : blocky s -> clean l -> blocky (s +:+ eol +:+ blockIndent +:+ l).

Lemma blocky_app s t : blocky s -> blocky t -> blocky (s +:+ t).
Proof.
  intros Hs. induction 1 as [l Hl|t l _ IH Hl]; [|rewrite <- append_assoc; by constructor].
  destruct Hs as [l' Hl'|s l' Hs Hl']; [constructor; by apply shown_app|]. rewrite !append_assoc. constructor; [done|by apply shown_app].
Qed.

Lemma blocky_concat l : Forall blocky l -> blocky (String.concat "" l).
Proof. induction 1 as [|s l Hs Hl IH]; [by constructor; constructor|]. cbn. destruct l; [done|]. rewrite append_nil_l. by apply blocky_app. Qed.

Lemma blocky_indented l : clean l -> blocky (eol +:+ blockIndent +:+ l).
Proof. intros Hl. apply (blocky_more ""); [constructor; constructor|done]. Qed.

(** The indents in use: blanks, at least a block's. *)
Definition indent (base : string) : Prop := exists x, base = blockIndent +:+ x /\ clean x.

Lemma indent_block : indent blockIndent.
Proof. exists "". split; [done|constructor]. Qed.

Lemma indent_deep : indent (blockIndent +:+ blockIndent).
Proof. exists blockIndent. split; [done|by apply printable_clean]. Qed.

Lemma clean_repeat n : clean (String.concat "" (repeat blockIndent n)).
Proof. apply shown_concat, Forall_forall. intros x Hx. apply list_elem_of_In, repeat_spec in Hx as ->. by apply printable_clean. Qed.

Lemma clean_causeMarker : clean causeMarker.
Proof. change causeMarker with ("↳" +:+ " "). apply shown_app; [|by apply printable_clean]. apply (shown_one _ _ 0x21B3); [|done]. by vm_compute. Qed.

Lemma clean_ellipsis : clean "… (".
Proof. change "… (" with ("…" +:+ " ("). apply shown_app; [|by apply printable_clean]. apply (shown_one _ _ 0x2026); [|done]. by vm_compute. Qed.

Lemma blocky_newline base level m : indent base -> clean m -> blocky (newline base level m).
Proof.
  intros (x & -> & Hx) Hm. unfold newline. rewrite append_assoc. apply blocky_indented. apply shown_app; [done|]. apply shown_app; [apply clean_repeat|done].
Qed.

Lemma blocky_marker base level what : indent base -> printable what = true -> blocky (marker base level what).
Proof.
  intros Hb Hw. apply blocky_app; [apply blocky_newline; [done|apply clean_causeMarker]|]. constructor.
  apply shown_app; [apply clean_ellipsis|]. apply printable_clean. by rewrite printable_app, Hw.
Qed.

Lemma Split_pieces s c : Forall (fun x => ContainsByte x c = false) (Split s c).
Proof.
  induction s as [|d s IH]; [by repeat constructor|]. cbn [Split]. destruct (Split s c) as [|x xs]; [constructor|]. inversion_clear IH.
  destruct (Ascii.eqb d c) eqn:E; repeat constructor; try done. cbn. by rewrite E.
Qed.

Lemma blocky_own base level own : indent base -> blocky (own_lines base level own).
Proof.
  intros Hb. unfold own_lines. pose proof (Split_pieces own newline_char) as Hs. destruct Hs as [|line lines Hl Hs]; [by constructor; constructor|].
  apply blocky_app; [constructor; by apply clean_escaped_line|]. apply blocky_concat, Forall_fmap. eapply Forall_impl; [exact Hs|].
  intros x Hx. apply blocky_app; [by apply blocky_newline; [|constructor]|]. constructor. by apply clean_escaped_line.
Qed.

Section Errors.
Context `{ErrorGraph}.

(** Writing a chain ends, within the budget, in indented lines. *)
Lemma write_ends fuel base path e level budget :
  indent base -> budget < Z.of_nat fuel -> (0 < fuel)%nat ->
  exists t budget', write fuel base path e level budget = Some (t, budget') /\ blocky t /\ budget' <= budget.
Proof.
  intros Hb. revert path e level budget. induction fuel as [|fuel IH]; intros path e level budget Hf Hpos; [lia|]. cbn [write].
  destruct (Z.leb_spec budget 0).
  { destruct (Z.eqb_spec budget 0); [exists (marker base level "truncated"), (budget - 1)|exists "", budget]; (split; [done|]; split; [|lia]).
    - by apply blocky_marker.
    - constructor. constructor. }
  destruct (addCauses path (l_err e)) as [links cycle]. destruct (splitOwn (l_text e) links) as [own causes].
  set (hn := if negb (own =? "")%string then _ else _). assert (blocky hn.1) as Hhead.
  { unfold hn. destruct (negb _); [|destruct (_ && _); constructor; constructor]. apply blocky_app; [|by apply blocky_own].
    destruct (_ =? _)%nat; [by constructor; apply printable_clean|]. apply blocky_newline; [done|apply clean_causeMarker]. }
  destruct hn as [head next]. cbn [fst] in Hhead. set (path' := if isComparable _ then _ else _).
  assert (forall cs b, b < Z.of_nat fuel -> (0 < fuel)%nat ->
    exists t b', write_all (fun c => write fuel base path' c next) cs b = Some (t, b') /\ blocky t /\ b' <= b) as Hall.
  { induction cs as [|c cs IHc]; intros b Hlt Hp; [exists "", b; split; [done|]; split; [constructor; constructor|lia]|].
    destruct (IH path' c next b Hlt Hp) as (t & b1 & E1 & Ht & Hb1). destruct (IHc b1 ltac:(lia) Hp) as (ts & b2 & E2 & Hts & Hb2).
    exists (t +:+ ts), b2. cbn [write_all]. rewrite E1, E2. split; [done|]. split; [by apply blocky_app|lia]. }
  destruct (Hall causes (budget - 1)) as (t & b' & E & Ht & Hb'); [lia|lia|]. rewrite E. eexists _, b'. split; [done|]. split; [|lia].
  apply blocky_app; [done|]. apply blocky_app; [done|]. destruct (0 <? cycle); [by apply blocky_marker|constructor; constructor].
Qed.

Lemma write_new base e budget :
  indent base -> budget <= maxErrorNodes ->
  exists t budget', write write_fuel base [] e 0 budget = Some (t, budget') /\ blocky t /\ budget' <= maxErrorNodes.
Proof.
  unfold maxErrorNodes. intros Hb Hle. destruct (write_ends write_fuel base [] e 0 budget) as (t & b & E & Ht & ?); [done|unfold write_fuel; lia|unfold write_fuel; lia|].
  exists t, b. split; [done|]. split; [done|lia].
Qed.

Lemma blocky_text s : blocky (appendText s).
Proof.
  apply blocky_concat, Forall_fmap, Forall_forall. intros line _. apply blocky_indented. apply shown_app; [by apply printable_clean|apply clean_escaped].
Qed.

Lemma error_list_ends i errs budget : budget <= maxErrorNodes -> exists t, error_list i errs budget = Some t /\ blocky t.
Proof.
  revert i budget. induction errs as [|[e|] errs IH]; intros i budget Hb; cbn [error_list].
  - exists "". split; [done|constructor; constructor].
  - destruct (write_new (blockIndent +:+ blockIndent) (mkLink e (errorText e)) budget indent_deep Hb) as (t & b & -> & Ht & Hb').
    destruct (IH (i + 1) b Hb') as (ts & -> & Hts). eexists. split; [done|].
    replace (eol +:+ (blockIndent +:+ blockIndent) +:+ "[" +:+ pretty i +:+ "]" +:+ t +:+ ts)
      with ((eol +:+ blockIndent +:+ (blockIndent +:+ "[" +:+ pretty i +:+ "]")) +:+ t +:+ ts) by (by rewrite !append_assoc).
    apply blocky_app; [|by apply blocky_app]. apply blocky_indented, printable_clean. by rewrite !printable_app, printable_pretty.
  - by apply IH.
Qed.

(** A block is indented, and so is the next. *)
Lemma block_ends f : exists t, appendBlock f = Some (blockIndent +:+ t +:+ eol) /\ blocky t.
Proof.
  assert (forall t, blocky t -> blocky (appendEscaped (f_Key f) false +:+ ":" +:+ t)) as Hk.
  { intros t Ht. apply blocky_app; [constructor; apply clean_escaped|]. apply blocky_app; [by constructor; apply printable_clean|done]. }
  assert (forall t, blocky t -> exists t', Some (blockIndent +:+ appendEscaped (f_Key f) false +:+ ":" +:+ t +:+ eol) = Some (blockIndent +:+ t' +:+ eol) /\ blocky t') as Hdone.
  { intros t Ht. eexists. split; [|by apply Hk]. by rewrite !append_assoc. }
  unfold appendBlock. destruct (f_val f); try (apply Hdone, blocky_text).
  - destruct (error_list_ends 0 errs maxErrorNodes) as (t & -> & Ht); [done|]. by apply Hdone.
  - destruct err as [e|]; [|apply Hdone; constructor; constructor].
    destruct (write_new blockIndent (mkLink e (errorText e)) maxErrorNodes indent_block) as (t & b & -> & Ht & _); [done|]. by apply Hdone.
Qed.

Lemma blocky_under t : blocky t -> blocky (eol +:+ blockIndent +:+ t).
Proof.
  induction 1 as [l Hl|s l _ IH Hl]; [by apply blocky_indented|].
  replace (eol +:+ blockIndent +:+ s +:+ eol +:+ blockIndent +:+ l) with ((eol +:+ blockIndent +:+ s) +:+ eol +:+ blockIndent +:+ l) by (by rewrite !append_assoc).
  by constructor.
Qed.

Lemma blocks_end blocks : exists t, appendBlocks blocks = Some t /\ (exists t', eol +:+ t = t' +:+ eol /\ blocky t').
Proof.
  induction blocks as [|f blocks IH]; cbn [appendBlocks].
  - exists "". split; [done|]. exists "". split; [done|constructor; constructor].
  - destruct (block_ends f) as (t & -> & Ht). destruct IH as (ts & -> & t' & E & Ht'). eexists. split; [done|].
    exists ((eol +:+ blockIndent +:+ t) +:+ t'). split; [by rewrite !append_assoc, E|].
    apply blocky_app; [by apply blocky_under|done].
Qed.

Context `{PrintTable} `{LogLib}.

Lemma fields_text (P : string -> Prop) namespace blocks fields :
  (forall s t, P s -> P t -> P (s +:+ t)) -> (forall s, clean s -> P s) ->
  Forall (fun f => Forall (json_fine P) (field_json f)) fields -> P (appendFields namespace blocks fields).1.1.
Proof.
  intros P_app P_clean Hf. revert namespace blocks. induction Hf as [|f fields Hf _ IH]; intros namespace blocks; cbn [appendFields]; [apply P_clean; constructor|].
  destruct (match f_val f with NamespaceType => true | _ => false end); [apply IH|]. destruct (is_block f); [apply IH|].
  specialize (IH namespace blocks). destruct (appendFields namespace blocks fields) as [[text ns] bs]. cbn in *.
  apply P_app; [by apply inline_text|done].
Qed.

Lemma printable_cut_last s a b : printable s = true -> CutLast s "/" = Some (a, b) -> printable a = true /\ printable b = true.
Proof.
  intros Hs [-> _]%CutLast_Some. change (String "/" b) with ("/" +:+ b) in Hs. rewrite !printable_app in Hs.
  by apply andb_true_iff in Hs as [? [_ ?]%andb_true_iff].
Qed.

Lemma caller_clean c : printable (ec_File c) = true -> clean (appendCaller c).
Proof.
  intros Hf. apply printable_clean. unfold appendCaller. rewrite !printable_app, printable_pretty, andb_true_r. cbn.
  destruct (CutLast (ec_File c) "/") as [[dir name]|] eqn:E1; [|by rewrite Hf]. destruct (CutLast dir "/") as [[x parent]|] eqn:E2; [|by rewrite Hf].
  apply printable_cut_last in E1 as [Hd Hn]; [|done]. apply printable_cut_last in E2 as [_ Hp]; [|done]. by rewrite !printable_app, Hp, Hn.
Qed.

Lemma header_clean ent : (forall c, en_Caller ent = Some c -> printable (ec_File c) = true) -> clean (header_rest ent).
Proof.
  intros Hc. unfold header_rest. apply shown_app.
  { destruct (_ =? "")%string; [constructor|]. apply shown_app; [by apply printable_clean|]. apply shown_app; [apply clean_escaped|by apply printable_clean]. }
  apply shown_app; [|apply shown_app; [by apply printable_clean|apply clean_escaped]].
  destruct (en_Caller ent) as [c|]; [|constructor]. apply shown_app; [by apply printable_clean|]. by apply caller_clean, Hc.
Qed.

Context (levelText : bool -> Z -> string).

(** The encoder of a logger: With fields added to a new one. *)
Definition logger (color : bool) (withs : list (list Field)) : prettyEncoder := foldl with_ (newPrettyEncoder levelText color) withs.

Lemma logger_keeps color withs :
  pe_color (logger color withs) = color /\ pe_levels (logger color withs) = pe_levels (newPrettyEncoder levelText color).
Proof.
  unfold logger. induction withs as [|w withs IH] using rev_ind; [done|]. rewrite foldl_snoc.
  destruct (foldl with_ (newPrettyEncoder levelText color) withs) as [lv c inl bs ns]. cbn in IH. destruct IH as (-> & ->).
  unfold with_. cbn. by destruct (appendFields ns bs w) as [[text ns'] bs'].
Qed.

Lemma logger_text (P : string -> Prop) color withs :
  (forall s t, P s -> P t -> P (s +:+ t)) -> (forall s, clean s -> P s) ->
  Forall (fun f => Forall (json_fine P) (field_json f)) (concat withs) -> P (pe_inline (logger color withs)).
Proof.
  intros P_app P_clean. unfold logger. induction withs as [|w withs IH] using rev_ind; intros Hf; [apply P_clean; constructor|].
  rewrite foldl_snoc. rewrite concat_app in Hf. cbn in Hf. rewrite app_nil_r in Hf. apply Forall_app in Hf as [Hf Hw]. specialize (IH Hf).
  destruct (foldl with_ (newPrettyEncoder levelText color) withs) as [lv c inl bs ns]. cbn in IH.
  unfold with_. cbn. pose proof (fields_text P ns bs w P_app P_clean Hw) as Ht. destruct (appendFields ns bs w) as [[text ns'] bs']. cbn in *. by apply P_app.
Qed.

(** The text of an entry's own line. *)
Definition entry_line color withs ent fields : string :=
  let e := logger color withs in
  header_rest ent +:+ pe_inline e +:+ (appendFields (pe_namespace e) (pe_blocks e) fields).1.1.

Lemma line_text (P : string -> Prop) color withs ent fields :
  (forall s t, P s -> P t -> P (s +:+ t)) -> (forall s, clean s -> P s) ->
  (forall c, en_Caller ent = Some c -> printable (ec_File c) = true) ->
  Forall (fun f => Forall (json_fine P) (field_json f)) (concat withs ++ fields) -> P (entry_line color withs ent fields).
Proof.
  intros P_app P_clean Hc [Hw Hf]%Forall_app. apply P_app; [by apply P_clean, header_clean|].
  apply P_app; [by apply logger_text|by apply fields_text].
Qed.

Lemma level_text color withs ent : header_level levelText (logger color withs) ent = levelText color (en_Level ent).
Proof.
  destruct (logger_keeps color withs) as (Hc & Hl). unfold header_level. rewrite Hc, Hl. cbn [pe_levels newPrettyEncoder].
  destruct (Z.leb_spec 0 (en_Level ent - DebugLevel)) as [Hle|]; [|done]. rewrite list_lookup_fmap.
  destruct (seq 0 _ !! Z.to_nat (en_Level ent - DebugLevel)) as [i|] eqn:E; [|done]. apply lookup_seq in E as [-> _]. cbn. f_equal. unfold DebugLevel in *. lia.
Qed.

(** C38. A log entry cannot pass for another one. Whatever was logged, fields of any type and bytes, error chains that are
    deep, cyclic or panic, from a caller whose file name is printable: the entry
    is written in full; after its time and its level come the text of one line,
    without a byte below a space but tabs and without DEL, and further lines
    that are indented and visible text, valid UTF-8 without control characters
    but tabs. The one line is visible text too where the JSON of its fields'
    values is valid UTF-8, as it is but for what a json.RawMessage or a
    json.Marshaler brings. *)
Theorem entry_is_one_line color withs ent fields :
  (forall c, en_Caller ent = Some c -> printable (ec_File c) = true) ->
  exists line more,
    EncodeEntry levelText (logger color withs) ent fields = Some (header_time ent +:+ levelText color (en_Level ent) +:+ line +:+ more +:+ eol) /\
    clean (header_time ent) /\ sober line = true /\ blocky more /\
    (Forall json_utf8 (concat withs ++ fields) -> clean line).
Proof.
  intros Hc. pose proof (line_text (fun s => sober s = true) color withs ent fields) as Hsober.
  pose proof (line_text (shown visible) color withs ent fields) as Hclean. unfold entry_line in *. unfold EncodeEntry.
  destruct (appendFields _ _ _) as [[text ns] blocks]. cbn [fst] in *. destruct (blocks_end blocks) as (bs & -> & bs' & E & Hbs).
  unfold appendHeader. rewrite level_text. set (stack := if (en_Stack ent =? "")%string then "" else _).
  assert (exists st, eol +:+ stack = st +:+ eol /\ blocky st) as (st & Es & Hst).
  { unfold stack. destruct (_ =? "")%string; [exists ""; split; [done|constructor; constructor]|].
    exists (eol +:+ blockIndent +:+ "stacktrace:" +:+ appendText (en_Stack ent)). split; [by rewrite !append_assoc|].
    apply blocky_under, blocky_app; [by constructor; apply printable_clean|apply blocky_text]. }
  exists (header_rest ent +:+ pe_inline (logger color withs) +:+ text), (bs' +:+ st). split_and!.
  - f_equal. rewrite !append_assoc. do 5 f_equal. rewrite <- append_assoc, E, append_assoc, Es. done.
  - unfold header_time. destruct (en_Time ent) as [[t o]|]; [|constructor]. apply printable_clean. unfold appendClock, append2.
    destruct (Clock t o) as [[h m] s]. by rewrite !printable_app, !printable_digits.
  - apply Hsober; [intros s t Hs Ht; by rewrite sober_app, Hs, Ht|apply clean_sober|done|].
    apply Forall_forall. intros f _. apply Forall_forall. intros v _. apply json_sober.
  - by apply blocky_app.
  - intros Hj. apply Hclean; [apply shown_app|done|done|]. eapply Forall_impl; [exact Hj|apply json_clean].
Qed.

End Errors.

(** ** An entry *)

Module PrettyExample.

#[local] Instance ascii_table : PrintTable.
Proof.
  refine {| IsPrint r := negb (control_rune r) |}. by intros r ->.
Defined.

(** A value with JSON of its own, in it the lone byte 0x9b. *)
Definition raw_json : string := String dquote (String (Ascii.ascii_of_nat 0x9b) (String dquote "")).

#[local] Instance log_lib : LogLib.
Proof.
  refine {| json_Marshal v := match v with MList _ => Some "[1,2]" | MOther _ => Some raw_json | _ => None end; Sprint _ := "?"; AppendFloat _ _ := "0.5" |}; [|done].
  intros v b Hv. destruct v; try done; injection Hv as <-; by vm_compute.
Defined.

(** Error 0 wraps 1, which wraps 2; 3 wraps itself; the text of 4 has a line
    break and an escape code in it. *)
#[local] Instance graph : ErrorGraph := {
  err_Error e := match e with
    | 0%nat => Text "start: open db: refused"
    | 1%nat => Text "open db: refused"
    | 2%nat => Text "refused"
    | 3%nat => Text "loop"
    | _ => Text ("bad" +:+ eol +:+ String (Ascii.ascii_of_nat 27) "[2J")
    end;
  err_Unwrap e := match e with 0%nat => Wraps [Some 1%nat] | 1%nat => Wraps [Some 2%nat; None] | 3%nat => Wraps [Some 3%nat] | _ => NoUnwrap end;
  isComparable _ := true;
  err_equal := Nat.eqb
}.

Definition level (color : bool) (l : Z) : string := "ERROR".

Definition entry : Entry :=
  mkEntry (Some (0, 3600)) 2 "oidc" (Some (mkCaller "/src/tempogate/oidc/token.go" 42)) ("hi" +:+ eol +:+ "fake") "".

Definition fields : list Field :=
  [mkField "n" (IntType 8 200); mkField "err" (ErrorType (Some 0%nat)); mkField "self" (ErrorType (Some 3%nat)); mkField "bad" (ErrorType (Some 4%nat));
   mkField "user" (StringType ("a b")); mkField "took" (DurationType (1500 * Millisecond))].

Example shown_entry : EncodeEntry level (logger level false [[mkField "svc" (StringType "gate")]]) entry fields =
  Some ("01:00:00.000 ERROR [oidc] oidc/token.go:42 hi\nfake svc=gate n=-56 user=" +:+ String dquote ("a b" +:+ String dquote (" took=1.5s" +:+ eol
   +:+ "  err: start" +:+ eol +:+ "    ↳ open db" +:+ eol +:+ "      ↳ refused" +:+ eol
   +:+ "  self: loop" +:+ eol +:+ "    ↳ … (cycle)" +:+ eol
   +:+ "  bad: bad" +:+ eol +:+ "    \x1b[2J" +:+ eol))).
Proof. vm_compute. reflexivity. Qed.

Lemma entry_is_one_line_witness :
  exists line more, EncodeEntry level (logger level false [[mkField "svc" (StringType "gate")]]) entry fields =
    Some ("01:00:00.000 ERROR" +:+ line +:+ more +:+ eol) /\ clean line /\ sober line = true /\ blocky more.
Proof.
  destruct (entry_is_one_line level false [[mkField "svc" (StringType "gate")]] entry fields) as (line & more & E & _ & Hs & Hm & Hc).
  - intros c [= <-]. reflexivity.
  - exists line, more. split; [rewrite E; reflexivity|]. split; [|split; [exact Hs|exact Hm]].
    apply Hc. clear. assert (Forall (fun f => field_json f = []) (concat [[mkField "svc" (StringType "gate")]] ++ fields)) as Hnone by repeat constructor.
    eapply Forall_impl; [exact Hnone|]. intros f Hf v b Hv. rewrite Hf in Hv. by apply elem_of_nil in Hv.
Defined.

(** Invalid bytes of a value's own JSON are copied as they are. *)
Example raw_copied : appendInline "" (mkField "v" (MappedType [("v", MOther 0)])) = " v=" +:+ raw_json.
Proof. vm_compute. reflexivity. Qed.

End PrettyExample.
