(* ===== verification/FxLog.v ===== *)
(** * Start-up failures in the log (log/fx.go)

    What a failed start says: the events of the dependency-injection framework
    that are logged, the summary of its error chains, and the logger that holds
    events until there is one. Errors are the graph of Pretty.v, of which the
    framework's own are marked; an event is what the code reads of it. *)

From S2P Require Import Prelude GoStrings GoUtf8 Pretty PrettyFacts.
#[local] Open Scope Z_scope.

(** Which errors are dig's. *)
Class DigErrors := { isDig : nat -> bool }.

(** [escapeControls(s, newline)]. *)
Definition escapeControls (s : string) (newline : bool) : string :=
  if negb (existsb (fun t => isControl t.1 newline) (runes s)) && ValidString s then s else appendEscaped s newline.

(** ** Summaries *)

Definition digFunc_space (c : ascii) : bool := existsb (N.eqb (code c)) [9; 10; 12; 13; 32]%N.

(** The [(\S+)] that [s] starts with. *)
Fixpoint word (s : string) : string :=
  match s with
  | String c s => if digFunc_space c then "" else String c (word s)
  | "" => ""
  end.

(** [digFunc] from just after the opening quote. *)
Definition digFunc_here (s : string) : option (string * string) :=
  match Cut s dquote with
  | Some (body, String "." tail) =>
      if (word tail =? "")%string then None else Some (default "" (last (Split body "/")), word tail)
  | _ => None
  end.

(** [digFunc.FindStringSubmatch(s)]: its two groups, at the leftmost match. *)
Fixpoint digFunc (s : string) : option (string * string) :=
  let opening := "function " +:+ String dquote "" in
  match (if HasPrefix s opening then digFunc_here (drop_bytes (String.length opening) s) else None), s with
  | Some m, _ => Some m
  | None, String _ s => digFunc s
  | None, "" => None
  end.

Section Fx.
Context `{ErrorGraph} `{DigErrors}.

(** The errors [findDig] has queued; it visits at most [fuel] of them. *)
Fixpoint findDig_queue (fuel : nat) (queue : list nat) : option nat :=
  match fuel, queue with
  | S fuel, e :: queue => if isDig e then Some e else findDig_queue fuel (queue ++ (unwrap e).2)
  | _, _ => None
  end.
Definition findDig (e : nat) : option nat := findDig_queue (Z.to_nat maxErrorNodes) [e].

(** What one error of the chain adds to the path and the function. *)
Definition note (own : string) (path : list string) (fn : string) : list string * string :=
  let building := "failed to build " in
  let group := "could not build value group " in
  if HasPrefix own building then (path ++ [drop_bytes (String.length building) own], fn)
  else if HasPrefix own group then (path ++ [drop_bytes (String.length group) own], fn)
  else if HasPrefix own "missing dependencies for function "
  then match digFunc own with Some (pkg, name) => (path, pkg +:+ "." +:+ name) | None => (path, fn) end
  else (path, fn).

Fixpoint walk (fuel : nat) (e : nat) (path : list string) (fn : string) : nat * list string * string :=
  match fuel with
  | O => (e, path, fn)
  | S fuel =>
      let '(own, causes) := unwrap e in
      let '(path, fn) := note own path fn in
      match causes with
      | [c] => if isDig c then walk fuel c path fn else (c, path, fn)
      | _ => (e, path, fn)
      end
  end.

(** An error as it is, or behind a text: [fmt.Errorf("%s%w", text, err)]. *)
Inductive reported := Err (e : nat) | Prefixed (text : string) (e : nat).

(** [%w] of fmt, which survives a panicking Error method. *)
Definition formatted (c : text_call) : string :=
  match c with
  | Text s => s
  | Panics true _ => "<nil>"
  | Panics false v => "%!w(PANIC=Error method: " +:+ v +:+ ")"
  end.

(** [errorText(err)]. *)
Definition reported_text (r : reported) : string :=
  match r with Err e => errorText e | Prefixed text e => text +:+ formatted (err_Error e) end.

Record summary := mkSummary { sm_err : reported; sm_in : string; sm_dig : bool }.

Definition summarize (e : nat) : summary :=
  match findDig e with
  | None => mkSummary (Err e) "" false
  | Some d =>
      let '(root, path, fn) := walk (Z.to_nat maxErrorNodes) d [] "" in
      let joined := String.concat " > " path in
      let in_ := if (joined =? "")%string then fn else joined in
      let top := errorText e in
      let inner := errorText d in
      mkSummary (if negb (top =? inner)%string
                 then match CutSuffix top inner with Some text => Prefixed text root | None => Err root end
                 else Err root) in_ true
  end.

(** ** Events *)

(** An event, by the errors it carries; [Started] and [Stopped] are told apart. *)
Inductive event := Started (e : option nat) | Stopped (e : option nat) | OtherEvent (id : nat) (errors : list (option nat)).

Definition event_errors (ev : event) : list (option nat) :=
  match ev with Started e | Stopped e => [e] | OtherEvent _ l => l end.

Definition failed (ev : event) : bool := existsb (fun e => bool_decide (is_Some e)) (event_errors ev).

(** What is written: an entry at error level, with where the failure was and the
    whole chain at debug; an event handed to the framework's logger, at warning
    and above or at debug; and the one line of a logger that has no sink. *)
Inductive output :=
  | ErrorEntry (msg : string) (err : reported) (in_ : string) (errorChain : option nat)
  | EventsLogged (ev : event)
  | DebugLogged (ev : event)
  | Line (s : string).

(** [Failure(z, msg, err)]; [debug] is whether debug is enabled. *)
Definition Failure (debug : bool) (msg : string) (e : nat) : output :=
  let s := summarize e in
  ErrorEntry msg (sm_err s) (sm_in s) (if sm_dig s && debug then Some e else None).

(** [l.LogEvent(event)] of an [fxLogger]; [returned] is set by [ErrorsReturned]. *)
Definition fx_LogEvent (debug returned : bool) (ev : event) : list output :=
  match (if returned then None else
           match ev with
           | Started (Some e) => Some [Failure debug "start failed" e]
           | Stopped (Some _) => Some [EventsLogged ev]
           | _ => None
           end) with
  | Some out => out
  | None => if failed ev then [DebugLogged ev] else [EventsLogged ev]
  end.

(** ** The boot logger *)

Record BootLogger := mkBoot { bl_name : string; bl_next : bool; bl_held : list event }.

Definition NewBootLogger (name : string) : BootLogger := mkBoot name false [].

Definition Use (debug : bool) (b : BootLogger) : BootLogger * list output :=
  (mkBoot (bl_name b) true [], mjoin (fx_LogEvent debug false <$> bl_held b)).

Definition boot_line (name : string) (e : nat) : output :=
  Line (name +:+ ": " +:+ escapeControls (reported_text (sm_err (summarize e))) false +:+ eol).

Definition boot_LogEvent (debug : bool) (b : BootLogger) (ev : event) : BootLogger * list output :=
  if bl_next b then (b, fx_LogEvent debug false ev)
  else match ev with
       | Started (Some e) => (b, [boot_line (bl_name b) e])
       | _ => (mkBoot (bl_name b) (bl_next b) (bl_held b ++ [ev]), [])
       end.

Inductive call := LogEvent (ev : event) | UseLogger.

Definition boot_call (debug : bool) (b : BootLogger) (c : call) : BootLogger * list output :=
  match c with LogEvent ev => boot_LogEvent debug b ev | UseLogger => Use debug b end.

Fixpoint boot_run (debug : bool) (b : BootLogger) (cs : list call) : BootLogger * list output :=
  match cs with
  | [] => (b, [])
  | c :: cs => let '(b, out) := boot_call debug b c in let '(b, rest) := boot_run debug b cs in (b, out ++ rest)
  end.

(** ** What is reported *)

Definition start_failure (ev : event) : option nat := match ev with Started e => e | _ => None end.
Definition events_of (cs : list call) : list event := omap (fun c => match c with LogEvent ev => Some ev | UseLogger => None end) cs.

Lemma boot_run_app debug b cs cs' :
  boot_run debug b (cs ++ cs') = let '(b, out) := boot_run debug b cs in let '(b, rest) := boot_run debug b cs' in (b, out ++ rest).
Proof.
  revert b. induction cs as [|c cs IH]; intros b; cbn; [by destruct (boot_run debug b cs')|].
  destruct (boot_call debug b c) as [b1 o1]. rewrite IH. destruct (boot_run debug b1 cs) as [b2 o2], (boot_run debug b2 cs') as [b3 o3].
  by rewrite app_assoc.
Qed.

(** Before there is a logger, events are held and failed starts written. *)
Lemma boot_run_held debug b es :
  bl_next b = false ->
  boot_run debug b (LogEvent <$> es) =
    (mkBoot (bl_name b) false (bl_held b ++ filter (fun ev => start_failure ev = None) es), boot_line (bl_name b) <$> omap start_failure es).
Proof.
  revert b. induction es as [|ev es IH]; intros b Hb.
  { cbn. rewrite app_nil_r, <- Hb. by destruct b. }
  rewrite filter_cons, fmap_cons. cbn [boot_run boot_call]. unfold boot_LogEvent. rewrite Hb. destruct ev as [[e|]|e|id l]; cbn [start_failure]; rewrite IH by done; cbn;
    rewrite ?decide_True, ?decide_False by done; cbn; by rewrite <- ?app_assoc.
Qed.

Lemma boot_run_used debug b cs :
  bl_next b = true -> bl_held b = [] ->
  boot_run debug b cs = (b, mjoin (fx_LogEvent debug false <$> events_of cs)).
Proof.
  intros Hn Hh. induction cs as [|[ev|] cs IH]; cbn; [done| |].
  - unfold boot_LogEvent. by rewrite Hn, IH.
  - unfold Use. rewrite Hh. cbn. replace (mkBoot (bl_name b) true []) with b by (destruct b; cbn in *; congruence). by rewrite IH.
Qed.

Lemma clean_escapeControls s : clean (escapeControls s false).
Proof.
  unfold escapeControls. destruct (_ && _) eqn:Hq; [|apply clean_escaped]. apply andb_true_iff in Hq as [Hc%negb_true_iff Hv].
  rewrite <- (runes_concat (String.length s) s) by lia. apply shown_concat, Forall_fmap, Forall_forall. intros x Hx.
  unfold ValidString in Hv. rewrite forallb_forall in Hv. pose proof (Hv x ltac:(by apply list_elem_of_In)) as Hi. apply negb_true_iff in Hi.
  pose proof (runes_tokens (String.length s) s) as Ht. rewrite Forall_forall in Ht. destruct (Ht x Hx) as [?|Hg]; [congruence|].
  apply (shown_one _ _ x.1); [done|]. unfold visible. destruct (isControl x.1 false) eqn:Hx1; [|done].
  assert (existsb (fun t => isControl t.1 false) (runes s) = true); [|congruence].
  apply existsb_exists. exists x. split; [by apply list_elem_of_In|done].
Qed.

(** A failure of the graph is reported once, and nothing else at error level. A
    boot logger that is given a logger after the events [es] leaves what that
    logger would have been told directly, in order, except the failed starts
    among [es], each of which is one line of visible text that names the program
    and the cause. What an [fxLogger] is told of an event with an error goes to
    debug, unless it is a failed start or stop whose error nobody else reports. *)
Theorem start_failures_reported (debug : bool) (name : string) (es : list event) (cs : list call) :
  (boot_run debug (NewBootLogger name) (LogEvent <$> es)).2 = boot_line name <$> omap start_failure es /\
  (boot_run debug (NewBootLogger name) ((LogEvent <$> es) ++ UseLogger :: cs)).2 =
    (boot_line name <$> omap start_failure es) ++
    mjoin (fx_LogEvent debug false <$> (filter (fun ev => start_failure ev = None) es ++ events_of cs)) /\
  (forall e, exists t, boot_line name e = Line (name +:+ ": " +:+ t +:+ eol) /\ clean t) /\
  (forall returned ev, failed ev = true ->
     fx_LogEvent debug returned ev = [DebugLogged ev] \/
     returned = false /\ (exists e, ev = Stopped (Some e) /\ fx_LogEvent debug returned ev = [EventsLogged ev]) \/
     returned = false /\ (exists e, ev = Started (Some e) /\ fx_LogEvent debug returned ev = [Failure debug "start failed" e])).
Proof.
  split_and!.
  - by rewrite boot_run_held.
  - rewrite boot_run_app, boot_run_held by done. cbn [NewBootLogger bl_name bl_held boot_run boot_call Use bl_next app].
    rewrite boot_run_used by done. cbn [snd]. by rewrite fmap_app, join_app.
  - intros e. eexists. split; [reflexivity|apply clean_escapeControls].
  - intros returned ev Hf. unfold fx_LogEvent. rewrite Hf. destruct returned; [by left|].
    destruct ev as [[e|]|[e|]|id l]; eauto 6.
Qed.

(** The framework's errors of a chain, each the only cause of the one before. *)
Inductive dig_chain : nat -> nat -> nat -> Prop :=
  | dc_here e : dig_chain 0 e e
  | dc_cause n e c r : (unwrap e).2 = [c] -> dig_chain n c r -> dig_chain (S n) e r.

Lemma walk_root fuel e path fn :
  exists n, (n <= fuel)%nat /\ dig_chain n e (walk fuel e path fn).1.1 /\
    (n = fuel \/ isDig (walk fuel e path fn).1.1 = false \/ forall c, (unwrap (walk fuel e path fn).1.1).2 <> [c]).
Proof.
  revert e path fn. induction fuel as [|fuel IH]; intros e path fn; cbn; [exists 0%nat; split_and!; [done|constructor|by left]|].
  destruct (unwrap e) as [own causes] eqn:Eu. destruct (note own path fn) as [path' fn'].
  destruct causes as [|c [|c' causes]].
  - exists 0%nat. cbn. split_and!; [lia|constructor|]. right. right. intros c. by rewrite Eu.
  - destruct (isDig c) eqn:Ec.
    + destruct (IH c path' fn') as (n & Hn & Hch & Hend). exists (S n). split_and!; [lia|by econstructor; [rewrite Eu|]|].
      destruct Hend as [->|Hend]; [by left|by right].
    + exists 1%nat. cbn. split_and!; [lia|econstructor; [by rewrite Eu|constructor]|]. right. by left.
  - exists 0%nat. cbn. split_and!; [lia|constructor|]. right. right. intros x. by rewrite Eu.
Qed.

(** A summary is the root cause: where the framework's chain ends, or 64 errors
    down, behind whatever text the error adds above the framework. An error
    without one of the framework's is left as it is. *)
Theorem summarize_root (e : nat) :
  match findDig e with
  | None => summarize e = mkSummary (Err e) "" false
  | Some d => exists n root, dig_chain n d root /\
      (n = Z.to_nat maxErrorNodes \/ isDig root = false \/ forall c, (unwrap root).2 <> [c]) /\
      (sm_err (summarize e) = Err root \/
       exists text, sm_err (summarize e) = Prefixed text root /\ CutSuffix (errorText e) (errorText d) = Some text)
  end.
Proof.
  unfold summarize. destruct (findDig e) as [d|]; [|done].
  destruct (walk_root (Z.to_nat maxErrorNodes) d [] "") as (n & _ & Hch & Hend).
  destruct (walk (Z.to_nat maxErrorNodes) d [] "") as [[root path] fn]. cbn [fst] in *. exists n, root. split_and!; [done..|].
  cbn [sm_err]. destruct (negb _); [|by left]. destruct (CutSuffix _ _) as [text|]; [right; by eexists|by left].
Qed.
End Fx.

(** ** A start that fails *)

Module FxLogExample.

Example digFunc_ex :
  digFunc ("missing dependencies for function " +:+ String dquote ("github.com/onhotpath/tempogate/app" +:+ String dquote ".run (app/fx.go:12)")) =
    Some ("app", "run").
Proof. vm_compute. reflexivity. Qed.

(** "serve: " above dig's error 1, whose cause 2 failed to build a logger because
    of 3, which has an escape code in it. *)
Definition root_text : string := "LOG_LEVEL must be debug" +:+ String (Ascii.ascii_of_nat 27) "[2J".
Definition dig2 : string := "failed to build *zap.Logger: " +:+ root_text.
Definition dig1 : string := "could not build arguments: " +:+ dig2.

#[local] Instance fx_graph : ErrorGraph := {
  err_Error e := Text match e with
    | 0%nat => "serve: " +:+ dig1
    | 1%nat => dig1
    | 2%nat => dig2
    | _ => root_text
    end;
  err_Unwrap e := match e with 0%nat => Wraps [Some 1%nat] | 1%nat => Wraps [Some 2%nat] | 2%nat => Wraps [Some 3%nat] | _ => NoUnwrap end;
  isComparable _ := true;
  err_equal := Nat.eqb
}.
#[local] Instance fx_dig : DigErrors := { isDig e := bool_decide (e ∈ [1%nat; 2%nat]) }.

Example summarized : summarize 0 = mkSummary (Prefixed "serve: " 3) "*zap.Logger" true.
Proof. vm_compute. reflexivity. Qed.

Definition provided : event := OtherEvent 0 [].
Definition broken : event := OtherEvent 1 [None; Some 2%nat].

(** Without a logger the start that fails is the one line written; with one, the
    constructor's own event goes to debug and the start to error. *)
Example boot_alone :
  (boot_run false (NewBootLogger "tempogate") (LogEvent <$> [provided; broken; Started (Some 0%nat)])).2 =
    [Line ("tempogate: serve: LOG_LEVEL must be debug\x1b[2J" +:+ eol)].
Proof. vm_compute. reflexivity. Qed.

Example boot_used :
  (boot_run true (NewBootLogger "tempogate") [LogEvent provided; LogEvent broken; UseLogger; LogEvent (Started (Some 0%nat))]).2 =
    [EventsLogged provided; DebugLogged broken; ErrorEntry "start failed" (Prefixed "serve: " 3) "*zap.Logger" (Some 0%nat)].
Proof. vm_compute. reflexivity. Qed.

End FxLogExample.
