(* ===== verification/Redact.v ===== *)
(** * Redaction (package redact)

    The sets of declared values that keep secrets and personal data out of what
    the process exports: declaring, inheriting from a parent set, the cached
    replacer and the scrubbing of a text with [strings.Replacer]. *)

From S2P Require Import Prelude GoStrings GoUtf8.

(** ** Rules *)

Inductive Rule := Secret | PII | Identifier.

#[export] Instance Rule_eq_dec : EqDecision Rule.
Proof. solve_decision. Defined.

Definition strength (r : Rule) : Z := match r with Secret => 3 | PII => 2 | Identifier => 1 end.
Definition minLen (r : Rule) : nat := match r with Secret => 4 | PII => 4 | Identifier => 8 end.

(** The bytes of the first [n] runes. *)
Fixpoint runes_len (n : nat) (s : string) : nat :=
  match n with
  | O => 0
  | Datatypes.S n => let k := rune_size s in k + runes_len n (drop_bytes k s)
  end.

Definition keepPrefix (n : nat) (v : string) : string :=
  let keep := Nat.min n (RuneCount v / 3) in
  String.substring 0 (runes_len keep v) v +:+ "***".

Definition maskPII (v : string) : string :=
  match Cut v "@" with
  | None => "***"
  | Some (local, domain) =>
      if (local =? "")%string || (domain =? "")%string then "***"
      else String.substring 0 (rune_size local) local +:+ "***@" +:+ domain
  end.

Definition Mask (r : Rule) (v : string) : string :=
  match r with Secret => "[REDACTED]" | PII => maskPII v | Identifier => keepPrefix 6 v end.

(** ** [strings.Replacer] *)

Abbreviation replacer := (list (string * string)) (only parsing).

(** The first pair, in argument order, whose value starts the text. *)
Fixpoint first_match (pairs : replacer) (text : string) : option (string * string) :=
  match pairs with
  | [] => None
  | (v, m) :: pairs => if String.prefix v text then Some (v, m) else first_match pairs text
  end.

(** What the replacer makes of a text: bytes kept, and values masked. *)
Inductive piece := Kept (c : ascii) | Masked (v m : string).

Fixpoint pieces (fuel : nat) (pairs : replacer) (text : string) : list piece :=
  match fuel, text with
  | Datatypes.S f, String c rest =>
      match first_match pairs text with
      | Some (v, m) => Masked v m :: pieces f pairs (drop_bytes (String.length v) text)
      | None => Kept c :: pieces f pairs rest
      end
  | _, _ => []
  end.

Definition piece_in (p : piece) : string := match p with Kept c => String c "" | Masked v _ => v end.
Definition piece_out (p : piece) : string := match p with Kept c => String c "" | Masked _ m => m end.

Definition flat (l : list string) : string := foldr String.append "" l.

Definition Replace (pairs : replacer) (text : string) : string :=
  flat (map piece_out (pieces (String.length text) pairs text)).

(** ** Sets *)

Record Set_ := mkSet {
  rs_parent : option nat;
  rs_values : gmap string Rule;
  rs_version : Z;
  rs_cached : option replacer;
  rs_cachedVersion : Z
}.

(** The sets of the process; a parent comes before its children. Versions are
    64-bit counters of declarations, and do not wrap. *)
Abbreviation Sets := (list Set_) (only parsing).

Definition NewSet : Set_ := mkSet None ∅ 0 None 0.

(** [s.Child()], at the next index. *)
Definition Child (i : nat) (h : Sets) : Sets := h ++ [mkSet (Some i) ∅ 0 None 0].

(** One value of [s.Declare(r, values...)]. *)
Definition declare_one (r : Rule) (s : Set_) (v : string) : Set_ :=
  if (v =? "")%string || (String.length v <? minLen r)%nat then s
  else
    let keep := match rs_values s !! v with Some prev => strength r <=? strength prev | None => false end in
    if keep then s
    else mkSet (rs_parent s) (<[v := r]> (rs_values s)) (rs_version s + 1) (rs_cached s) (rs_cachedVersion s).

Definition Set_Declare (i : nat) (r : Rule) (values : list string) (h : Sets) : Sets :=
  match h !! i with Some s => <[i := foldl (declare_one r) s values]> h | None => h end.

(** [s.versionLocked()]: along the parents, which come strictly before. *)
Fixpoint versionLocked (fuel : nat) (h : Sets) (i : nat) : Z :=
  match fuel, h !! i with
  | Datatypes.S f, Some s =>
      rs_version s + match rs_parent s with Some p => versionLocked f h p | None => 0 end
  | _, _ => 0
  end.

(** [add(values)] of [collectLocked]: the stronger rule per value. *)
Definition stronger (into values : gmap string Rule) : gmap string Rule :=
  union_with (fun prev r => Some (if strength prev <? strength r then r else prev)) into values.

(** [s.collectLocked(into)]: the parents from the nearest up, then [s]. *)
Fixpoint collect_parents (fuel : nat) (h : Sets) (p : option nat) (into : gmap string Rule) : gmap string Rule :=
  match fuel, p with
  | Datatypes.S f, Some i =>
      match h !! i with
      | Some s => collect_parents f h (rs_parent s) (stronger into (rs_values s))
      | None => into
      end
  | _, _ => into
  end.

(** Longest first, then bytewise. *)
Definition value_le (a b : string) : Prop :=
  (String.length b < String.length a)%nat \/ (String.length a = String.length b /\ String.le a b).

#[export] Instance value_le_dec a b : Decision (value_le a b).
Proof. unfold value_le, String.le. apply _. Defined.

Definition pairs_of (merged : gmap string Rule) : replacer :=
  map (fun v => (v, Mask (default Secret (merged !! v)) v)) (merge_sort value_le (map_to_list merged).*1).

(** What a set masks: its own values and its parents'. *)
Definition merged_at (fuel : nat) (h : Sets) (s : Set_) : gmap string Rule :=
  stronger (collect_parents fuel h (rs_parent s) ∅) (rs_values s).

(** [s.replacer()], past the delegation to the parent: the cached replacer, or a
    new one. *)
Definition rebuild (fuel i : nat) (s : Set_) (h : Sets) : Sets * option replacer :=
  let v := versionLocked fuel h i in
  if (v =? 0) || (rs_cachedVersion s =? v) then (h, rs_cached s)
  else
    let pairs := pairs_of (merged_at fuel h s) in
    (<[i := mkSet (rs_parent s) (rs_values s) (rs_version s) (Some pairs) v]> h, Some pairs).

Fixpoint get_replacer (fuel i : nat) (h : Sets) : Sets * option replacer :=
  match fuel, h !! i with
  | Datatypes.S f, Some s =>
      match rs_parent s with
      | Some p => if bool_decide (rs_values s = ∅) then get_replacer f p h else rebuild fuel i s h
      | None => rebuild fuel i s h
      end
  | _, _ => (h, None)
  end.

(** [s.Scrub(text)]. *)
Definition Scrub (i : nat) (text : string) (h : Sets) : Sets * string :=
  if (text =? "")%string then (h, text)
  else match get_replacer (length h) i h with
       | (h', None) => (h', text)
       | (h', Some pairs) => (h', Replace pairs text)
       end.

(** ** Replacing *)

Lemma prefix_drop v text : String.prefix v text = true -> v +:+ drop_bytes (String.length v) text = text.
Proof.
  revert text. induction v as [|c v IH]; intros text; [done|]. destruct text as [|d text]; [done|]. cbn [String.prefix].
  destruct (Ascii.ascii_dec c d) as [->|]; [|done]. intros Hp. rewrite append_cons. cbn. by rewrite IH.
Qed.

Lemma first_match_Some pairs text v m :
  first_match pairs text = Some (v, m) -> In (v, m) pairs /\ String.prefix v text = true.
Proof.
  induction pairs as [|[v' m'] pairs IH]; [done|]. cbn. destruct (String.prefix v' text) eqn:E.
  - intros [= <- <-]. split; [by left|done].
  - intros Hf. destruct (IH Hf). split; [by right|done].
Qed.

Lemma first_match_None pairs text v m :
  first_match pairs text = None -> In (v, m) pairs -> String.prefix v text = false.
Proof.
  induction pairs as [|[v' m'] pairs IH]; [done|]. cbn. destruct (String.prefix v' text) eqn:E; [done|].
  intros Hf [[= -> ->]|Hin]; auto.
Qed.

Definition no_empty (pairs : replacer) : Prop := Forall (fun p => p.1 <> "") pairs.

Lemma no_empty_In pairs v m : no_empty pairs -> In (v, m) pairs -> v <> "".
Proof. unfold no_empty. rewrite List.Forall_forall. intros Hne Hin. by apply (Hne (v, m)). Qed.

(** One step of [pieces]. *)
Lemma pieces_step f pairs c rest :
  no_empty pairs ->
  (exists v m, pieces (Datatypes.S f) pairs (String c rest) = Masked v m :: pieces f pairs (drop_bytes (String.length v) (String c rest)) /\
     In (v, m) pairs /\ v <> "" /\ v +:+ drop_bytes (String.length v) (String c rest) = String c rest) \/
  (pieces (Datatypes.S f) pairs (String c rest) = Kept c :: pieces f pairs rest /\
     forall v m, In (v, m) pairs -> String.prefix v (String c rest) = false).
Proof.
  intros Hne. cbn [pieces]. destruct (first_match pairs (String c rest)) as [[v m]|] eqn:E.
  - left. apply first_match_Some in E as [Hin Hp]. exists v, m. split; [done|]. split; [done|]. split.
    + by eapply no_empty_In.
    + by apply prefix_drop.
  - right. split; [done|]. intros v m Hin. by eapply first_match_None.
Qed.

(** The pieces are the text. *)
Lemma pieces_in fuel pairs text :
  no_empty pairs -> (String.length text <= fuel)%nat -> flat (map piece_in (pieces fuel pairs text)) = text.
Proof.
  intros Hne. revert text. induction fuel as [|f IH]; intros [|c rest] Hl; try done; [cbn in Hl; lia|].
  destruct (pieces_step f pairs c rest Hne) as [(v & m & -> & _ & Hv & Hd)|[-> _]].
  - cbn [map flat foldr piece_in]. fold (flat (map piece_in (pieces f pairs (drop_bytes (String.length v) (String c rest))))).
    rewrite IH; [done|]. rewrite length_drop_bytes. destruct v; [done|]. cbn in Hl |- *. lia.
  - cbn [map flat foldr piece_in]. fold (flat (map piece_in (pieces f pairs rest))). rewrite IH; [done|]. cbn in Hl. lia.
Qed.

Lemma append_split a b x y :
  a +:+ b = x +:+ y -> (String.length x <= String.length a)%nat -> exists a', a = x +:+ a' /\ a' +:+ b = y.
Proof.
  revert x. induction a as [|c a IH]; intros [|d x] E Hl; cbn in Hl; try lia.
  - exists "". done.
  - exists (String c a). done.
  - rewrite !append_cons in E. injection E as <- E. destruct (IH x E) as (a' & -> & Ha'); [lia|]. by exists a'.
Qed.

Lemma prefix_append v b : String.prefix v (v +:+ b) = true.
Proof.
  induction v as [|c v IH]; [by destruct b|]. rewrite append_cons. cbn. by destruct (Ascii.ascii_dec c c).
Qed.

(** Every occurrence of a declared value overlaps a masked piece. *)
Lemma pieces_cover fuel pairs text v m a b :
  no_empty pairs -> (String.length text <= fuel)%nat -> In (v, m) pairs -> text = a +:+ (v +:+ b) ->
  exists ps1 v' m' ps2, pieces fuel pairs text = ps1 ++ Masked v' m' :: ps2 /\ In (v', m') pairs /\
    (String.length (flat (map piece_in ps1)) < String.length a + String.length v)%nat /\
    (String.length a < String.length (flat (map piece_in ps1)) + String.length v')%nat.
Proof.
  intros Hne. revert text a. induction fuel as [|f IH]; intros text a Hl Hin E.
  { destruct text; [|cbn in Hl; lia]. assert (v <> "") by by eapply no_empty_In.
    destruct a; [|done]. by destruct v. }
  assert (v <> "") as Hv by by eapply no_empty_In.
  destruct text as [|c rest]; [destruct a; [by destruct v|done]|].
  destruct (pieces_step f pairs c rest Hne) as [(v0 & m0 & -> & Hin0 & Hv0 & Hd)|[-> Hnone]].
  - destruct (decide (String.length a < String.length v0)%nat) as [Hlt|Hge].
    + exists [], v0, m0, (pieces f pairs (drop_bytes (String.length v0) (String c rest))). cbn [map flat foldr app String.length]. split; [done|]. split; [done|]. destruct v; [done|]. cbn. lia.
    + rewrite <- Hd in E. symmetry in E. apply append_split in E as (a' & -> & E); [|lia].
      destruct (IH (drop_bytes (String.length v0) (String c rest)) a') as (ps1 & v' & m' & ps2 & -> & Hin' & H1 & H2).
      { rewrite length_drop_bytes. destruct v0; [done|]. cbn in Hl |- *. lia. }
      { done. } { by symmetry. }
      exists (Masked v0 m0 :: ps1), v', m', ps2. cbn [map piece_in flat foldr app]. fold (flat (map piece_in ps1)).
      rewrite !length_append. split; [done|]. split; [done|]. lia.
  - destruct a as [|c' a].
    + rewrite append_nil_l in E. specialize (Hnone v m Hin). rewrite E, prefix_append in Hnone. done.
    + rewrite append_cons in E. injection E as <- E.
      destruct (IH rest a) as (ps1 & v' & m' & ps2 & -> & Hin' & H1 & H2); [cbn in Hl; lia|done|done|].
      exists (Kept c :: ps1), v', m', ps2. cbn [map piece_in flat foldr app]. fold (flat (map piece_in ps1)).
      rewrite append_cons, append_nil_l. cbn [String.length]. split; [done|]. split; [done|]. lia.
Qed.

Lemma pieces_Masked fuel pairs text v m : In (Masked v m) (pieces fuel pairs text) -> In (v, m) pairs.
Proof.
  revert text. induction fuel as [|f IH]; intros [|c rest]; cbn; try done.
  destruct (first_match pairs (String c rest)) as [[v' m']|] eqn:E.
  - intros [[= -> ->]|Hin]; [by apply first_match_Some in E as [? _]|by eapply IH].
  - intros [[=]|Hin]. by eapply IH.
Qed.

(** ** Rules compose by strength *)

Definition opt_stronger (a b : option Rule) : option Rule :=
  match a, b with
  | Some x, Some y => Some (if strength x <? strength y then y else x)
  | Some x, None => Some x
  | None, o => o
  end.

Lemma lookup_stronger a b v : stronger a b !! v = opt_stronger (a !! v) (b !! v).
Proof. unfold stronger. rewrite lookup_union_with. by destruct (a !! v), (b !! v). Qed.

Lemma stronger_empty_l a : stronger ∅ a = a.
Proof. apply map_eq. intros v. rewrite lookup_stronger, lookup_empty. by destruct (a !! v). Qed.

Lemma stronger_empty_r a : stronger a ∅ = a.
Proof. apply map_eq. intros v. rewrite lookup_stronger, lookup_empty. by destruct (a !! v). Qed.

Lemma stronger_comm a b : stronger a b = stronger b a.
Proof. apply map_eq. intros v. rewrite !lookup_stronger. by destruct (a !! v) as [[]|], (b !! v) as [[]|]. Qed.

Lemma stronger_assoc a b c : stronger a (stronger b c) = stronger (stronger a b) c.
Proof.
  apply map_eq. intros v. rewrite !lookup_stronger.
  by destruct (a !! v) as [[]|], (b !! v) as [[]|], (c !! v) as [[]|].
Qed.

(** ** Chains of sets *)

(** A parent comes before its child. *)
Definition wf (h : Sets) : Prop :=
  forall i s p, h !! i = Some s -> rs_parent s = Some p -> (p < i)%nat.

Lemma collect_into fuel h p into :
  collect_parents fuel h p into = stronger into (collect_parents fuel h p ∅).
Proof.
  revert p into. induction fuel as [|f IH]; intros [i|] into; cbn; try by rewrite stronger_empty_r.
  destruct (h !! i) as [s|]; [|by rewrite stronger_empty_r].
  rewrite IH, (IH _ (stronger ∅ _)), stronger_empty_l. by rewrite stronger_assoc.
Qed.

(** With the parents strictly before, any fuel past the index is enough. *)
Lemma version_fuel h f1 f2 i :
  wf h -> (i < f1)%nat -> (i < f2)%nat -> versionLocked f1 h i = versionLocked f2 h i.
Proof.
  intros Hwf. revert f1 f2. induction i as [i IH] using lt_wf_ind. intros [|f1] [|f2] H1 H2; try lia. cbn.
  destruct (h !! i) as [s|] eqn:E; [|done]. destruct (rs_parent s) as [p|] eqn:Ep; [|done].
  pose proof (Hwf _ _ _ E Ep). f_equal. apply IH; lia.
Qed.

Lemma collect_fuel h f1 f2 i into :
  wf h -> (i < f1)%nat -> (i < f2)%nat ->
  collect_parents f1 h (Some i) into = collect_parents f2 h (Some i) into.
Proof.
  intros Hwf. revert f1 f2 into. induction i as [i IH] using lt_wf_ind. intros [|f1] [|f2] into H1 H2; try lia. cbn.
  destruct (h !! i) as [s|] eqn:E; [|done]. destruct (rs_parent s) as [p|] eqn:Ep; [|by destruct f1, f2].
  pose proof (Hwf _ _ _ E Ep). apply IH; lia.
Qed.

(** The version of a set with its parents, and what it masks. *)
Definition vers (h : Sets) (i : nat) : Z := versionLocked (Datatypes.S i) h i.
Definition masks (h : Sets) (i : nat) : gmap string Rule := collect_parents (Datatypes.S i) h (Some i) ∅.

Lemma merged_masks h fuel i s :
  wf h -> h !! i = Some s -> (i <= fuel)%nat -> merged_at fuel h s = masks h i.
Proof.
  intros Hwf E Hf. unfold merged_at, masks. cbn [collect_parents]. rewrite E, stronger_empty_l.
  rewrite (collect_into i), (stronger_comm (rs_values s)). f_equal. destruct (rs_parent s) as [p|] eqn:Ep; [|by destruct fuel, i].
  pose proof (Hwf _ _ _ E Ep). apply collect_fuel; [done|lia|lia].
Qed.

Lemma vers_unfold h i s :
  wf h -> h !! i = Some s ->
  vers h i = rs_version s + match rs_parent s with Some p => vers h p | None => 0 end.
Proof.
  intros Hwf E. unfold vers at 1. cbn [versionLocked]. rewrite E. f_equal.
  destruct (rs_parent s) as [p|] eqn:Ep; [|done]. pose proof (Hwf _ _ _ E Ep). apply version_fuel; [done|lia|lia].
Qed.

Lemma masks_unfold h i s :
  wf h -> h !! i = Some s ->
  masks h i = stronger (rs_values s) (match rs_parent s with Some p => masks h p | None => ∅ end).
Proof.
  intros Hwf E. unfold masks at 1. cbn [collect_parents]. rewrite E, stronger_empty_l, collect_into. f_equal.
  destruct (rs_parent s) as [p|] eqn:Ep; [|by destruct i]. pose proof (Hwf _ _ _ E Ep).
  apply collect_fuel; [done|lia|lia].
Qed.

(** Two heaps that agree on parents, values and versions agree on both. *)
Definition same_core (s s' : Set_) : Prop :=
  rs_parent s = rs_parent s' /\ rs_values s = rs_values s' /\ rs_version s = rs_version s'.

Lemma chain_agree h h' i :
  wf h -> wf h' ->
  (forall k, (k <= i)%nat -> option_Forall2 same_core (h !! k) (h' !! k)) ->
  vers h i = vers h' i /\ masks h i = masks h' i.
Proof.
  intros Hwf Hwf'. induction i as [i IH] using lt_wf_ind. intros Hag.
  pose proof (Hag i ltac:(lia)) as Hi. destruct (h !! i) as [s|] eqn:E; destruct (h' !! i) as [s'|] eqn:E'; inversion Hi as [? ? Hs|];
    [subst|unfold vers, masks; cbn; by rewrite E, E'].
  destruct Hs as (Hp & Hv & Hn). rewrite (vers_unfold h i s), (vers_unfold h' i s'), (masks_unfold h i s), (masks_unfold h' i s') by done.
  rewrite Hp, Hv, Hn. destruct (rs_parent s') as [p|] eqn:Ep; [|done]. pose proof (Hwf' _ _ _ E' Ep).
  destruct (IH p) as [-> ->]; [lia| |done]. intros k Hk. apply Hag. lia.
Qed.

(** ** The cache is never stale *)

Record sets_ok (h : Sets) : Prop := {
  so_wf : wf h;
  so_version : forall i s, h !! i = Some s -> 0 <= rs_version s /\ (rs_values s <> ∅ -> 0 < rs_version s);
  so_cache : forall i s, h !! i = Some s ->
    rs_cachedVersion s <= vers h i /\
    (rs_cachedVersion s = 0 /\ rs_cached s = None \/
     0 < rs_cachedVersion s /\ (rs_cachedVersion s = vers h i -> rs_cached s = Some (pairs_of (masks h i))));
  so_values : forall i s v r, h !! i = Some s -> rs_values s !! v = Some r -> v <> ""
}.

Lemma vers_zero h i :
  sets_ok h -> 0 <= vers h i /\ (vers h i = 0 -> masks h i = ∅).
Proof.
  intros Hok. induction i as [i IH] using lt_wf_ind. destruct (h !! i) as [s|] eqn:E.
  2:{ unfold vers, masks. cbn. by rewrite E. }
  rewrite (vers_unfold h i s), (masks_unfold h i s) by (done || apply Hok). destruct (so_version h Hok i s E) as [Hn Hv].
  destruct (rs_parent s) as [p|] eqn:Ep.
  - destruct (IH p) as [Hp Hm]; [by eapply so_wf|]. split; [lia|]. intros Hz.
    rewrite Hm by lia. rewrite stronger_empty_r. destruct (decide (rs_values s = ∅)) as [->|Hne]; [done|]. specialize (Hv Hne). lia.
  - split; [lia|]. intros Hz. rewrite stronger_empty_r. destruct (decide (rs_values s = ∅)) as [->|Hne]; [done|]. specialize (Hv Hne). lia.
Qed.

(** One more declaration in set [j]: a set either has it in its chain, and a new
    version, or is not concerned. *)
Lemma bump h j s s' i :
  wf h -> h !! j = Some s -> rs_parent s' = rs_parent s -> rs_version s' = rs_version s + 1 ->
  wf (<[j := s']> h) /\
  (vers (<[j := s']> h) i = vers h i + 1 \/
   vers (<[j := s']> h) i = vers h i /\ masks (<[j := s']> h) i = masks h i).
Proof.
  intros Hwf Hj Hp Hv. assert (Hwf' : wf (<[j := s']> h)).
  { intros k x p Hk Hx. apply list_lookup_insert_Some in Hk as [(<- & -> & _)|[_ Hk]]; [|by eapply Hwf].
    eapply Hwf; [done|]. congruence. }
  split; [done|]. assert (j < length h)%nat as Hlt by by eapply lookup_lt_Some.
  assert (Hbelow : forall k, (k < j)%nat -> vers h k = vers (<[j := s']> h) k /\ masks h k = masks (<[j := s']> h) k).
  { intros k Hk. apply chain_agree; [done|done|]. intros n Hn. rewrite list_lookup_insert_ne by lia.
    destruct (h !! n); by constructor. }
  induction i as [i IH] using lt_wf_ind. destruct (lt_eq_lt_dec i j) as [[Hij| ->]|Hij].
  - right. destruct (Hbelow i Hij) as [-> ->]. done.
  - left. rewrite (vers_unfold (<[j := s']> h) j s'), (vers_unfold h j s) by (done || by apply list_lookup_insert_eq).
    rewrite Hp, Hv. destruct (rs_parent s) as [p|] eqn:Ep; [|lia]. destruct (Hbelow p) as [<- _]; [by eapply Hwf|]. lia.
  - destruct (h !! i) as [x|] eqn:Ei.
    + assert (<[j := s']> h !! i = Some x) as Ei' by (rewrite list_lookup_insert_ne by lia; done).
      rewrite (vers_unfold (<[j := s']> h) i x), (vers_unfold h i x), (masks_unfold (<[j := s']> h) i x), (masks_unfold h i x) by done.
      destruct (rs_parent x) as [p|] eqn:Ep; [|by right]. destruct (IH p) as [Hc|[Hc1 Hc2]]; [by eapply Hwf|left; lia|].
      right. by rewrite Hc1, Hc2.
    + right. assert (<[j := s']> h !! i = None) as Ei' by (rewrite list_lookup_insert_ne by lia; done).
      unfold vers, masks. cbn. by rewrite Ei, Ei'.
Qed.

Lemma bump_ok h j s s' :
  sets_ok h -> h !! j = Some s -> rs_parent s' = rs_parent s -> rs_version s' = rs_version s + 1 ->
  rs_cached s' = rs_cached s -> rs_cachedVersion s' = rs_cachedVersion s ->
  (forall v r, rs_values s' !! v = Some r -> v <> "") -> sets_ok (<[j := s']> h).
Proof.
  intros Hok Hj Hp Hv Hc Hcv Hval. pose proof (fun i => bump h j s s' i (so_wf h Hok) Hj Hp Hv) as Hb.
  constructor.
  - apply (Hb j).
  - intros i x Hx. apply list_lookup_insert_Some in Hx as [(<- & -> & _)|[_ Hx]]; [|by apply (so_version h Hok i)].
    destruct (so_version h Hok j s Hj). lia.
  - assert (Hpres : forall i x, h !! i = Some x ->
      rs_cachedVersion x <= vers (<[j := s']> h) i /\
      (rs_cachedVersion x = 0 /\ rs_cached x = None \/ 0 < rs_cachedVersion x /\
       (rs_cachedVersion x = vers (<[j := s']> h) i -> rs_cached x = Some (pairs_of (masks (<[j := s']> h) i))))).
    { intros i x Hx. destruct (so_cache h Hok i x Hx) as [Hle Hca].
      destruct (Hb i) as [_ [Hbi|[Hb1 Hb2]]]; [|by rewrite Hb1, Hb2].
      split; [lia|]. destruct Hca as [?|[? _]]; [by left|right; split; [done|lia]]. }
    intros i x Hx. apply list_lookup_insert_Some in Hx as [(<- & -> & _)|[_ Hx]]; [|by apply Hpres].
    rewrite Hc, Hcv. by apply Hpres.
  - intros i x v r Hx. apply list_lookup_insert_Some in Hx as [(<- & -> & _)|[_ Hx]]; [by apply Hval|by apply (so_values h Hok i)].
Qed.

(** Declaring values. *)
Lemma declare_one_ok h j s r v : sets_ok h -> h !! j = Some s -> sets_ok (<[j := declare_one r s v]> h).
Proof.
  intros Hok Hj. unfold declare_one. assert (sets_ok (<[j := s]> h)) as Hsame by by rewrite list_insert_id.
  destruct ((v =? "")%string || _) eqn:E; [done|]. apply orb_false_iff in E as [Hne _]. apply String.eqb_neq in Hne.
  assert (forall x r', <[v := r]> (rs_values s) !! x = Some r' -> x <> "").
  { intros x r' [[<- _]|[_ Hx]]%lookup_insert_Some; [done|]. by apply (so_values h Hok j s x r'). }
  destruct (match rs_values s !! v with Some prev => strength r <=? strength prev | None => false end); [done|].
  by eapply bump_ok.
Qed.

Lemma Declare_ok h j r values : sets_ok h -> sets_ok (Set_Declare j r values h).
Proof.
  unfold Set_Declare. destruct (h !! j) as [s|] eqn:Hj; [|done]. revert h s Hj.
  induction values as [|v values IH]; intros h s Hj Hok; cbn [foldl]; [by rewrite list_insert_id|].
  rewrite <- (list_insert_insert_eq h j _ (declare_one r s v)).
  apply IH; [|by apply declare_one_ok]. apply list_lookup_insert_eq. by eapply lookup_lt_Some.
Qed.

Lemma Child_ok h i : sets_ok h -> (i < length h)%nat -> sets_ok (Child i h).
Proof.
  intros Hok Hi. unfold Child.
  assert (Hlook : forall k x, (h ++ [mkSet (Some i) ∅ 0 None 0]) !! k = Some x ->
    h !! k = Some x \/ k = length h /\ x = mkSet (Some i) ∅ 0 None 0).
  { intros k x [Hk|[Hk Hx]]%lookup_app_Some; [by left|]. right.
    destruct (k - length h)%nat as [|n] eqn:Ek; [|by destruct n]. injection Hx as <-. split; [lia|done]. }
  assert (Hwf : wf (h ++ [mkSet (Some i) ∅ 0 None 0])).
  { intros k x p Hk Hp. destruct (Hlook k x Hk) as [Hk'|[-> ->]]; [by eapply (so_wf h Hok)|]. by injection Hp as <-. }
  assert (Hag : forall k, (k < length h)%nat -> vers h k = vers (h ++ [mkSet (Some i) ∅ 0 None 0]) k /\
    masks h k = masks (h ++ [mkSet (Some i) ∅ 0 None 0]) k).
  { intros k Hk. apply chain_agree; [apply Hok|done|]. intros n Hn. rewrite lookup_app_l by lia. destruct (h !! n); by constructor. }
  constructor; [done| | |].
  - intros k x Hk. destruct (Hlook k x Hk) as [Hk'|[-> ->]]; [by apply (so_version h Hok k)|]. cbn. done.
  - intros k x Hk. destruct (Hlook k x Hk) as [Hk'|[-> ->]].
    + destruct (Hag k) as [<- <-]; [by eapply lookup_lt_Some|]. by apply so_cache.
    + split; [|by left]. rewrite (vers_unfold _ (length h) (mkSet (Some i) ∅ 0 None 0)) by (done || by apply list_lookup_middle).
      cbn [rs_version rs_parent rs_cachedVersion]. destruct (Hag i Hi) as [<- _]. destruct (vers_zero h i Hok). lia.
  - intros k x v r Hk. destruct (Hlook k x Hk) as [Hk'|[-> ->]]; [by apply (so_values h Hok k)|]. cbn. by rewrite lookup_empty.
Qed.

(** Looking up the replacer changes caches only, and finds the right one. *)
Lemma get_replacer_ok fuel h i h' r :
  sets_ok h -> (i < fuel)%nat -> get_replacer fuel i h = (h', r) ->
  sets_ok h' /\ length h' = length h /\ (forall k, masks h' k = masks h k) /\
  match r with Some pairs => pairs = pairs_of (masks h i) | None => masks h i = ∅ end.
Proof.
  intros Hok. revert i. induction fuel as [|f IH]; intros i Hf Hg; [lia|]. cbn [get_replacer] in Hg.
  destruct (h !! i) as [s|] eqn:E.
  2:{ injection Hg as <- <-. split; [done|]. split; [done|]. split; [done|]. unfold masks. cbn. by rewrite E. }
  assert (Hre : rebuild (Datatypes.S f) i s h = (h', r) -> sets_ok h' /\ length h' = length h /\
    (forall k, masks h' k = masks h k) /\ match r with Some pairs => pairs = pairs_of (masks h i) | None => masks h i = ∅ end).
  { unfold rebuild. rewrite (version_fuel h _ (Datatypes.S i) i) by (lia || apply Hok). fold (vers h i).
    rewrite (merged_masks h _ i s) by (lia || done || apply Hok). destruct (so_cache h Hok i s E) as [Hle Hca].
    destruct (vers_zero h i Hok) as [Hnn Hz].
    destruct (vers h i =? 0) eqn:E0; cbn [orb].
    { apply Z.eqb_eq in E0. intros [= <- <-]. split_and?; try done.
      destruct Hca as [[_ ->]|[? _]]; [by apply Hz|lia]. }
    apply Z.eqb_neq in E0. destruct (rs_cachedVersion s =? vers h i) eqn:Ev.
    { apply Z.eqb_eq in Ev. intros [= <- <-]. split_and?; try done. destruct Hca as [[? _]|[_ ->]]; [lia|done|done]. }
    intros [= <- <-]. set (s' := mkSet _ _ _ _ _).
    assert (Hwf' : wf (<[i := s']> h)).
    { intros k x p Hk Hx. apply list_lookup_insert_Some in Hk as [(<- & Hxs & _)|[_ Hk]];
        [rewrite <- Hxs in Hx; exact (so_wf h Hok _ _ _ E Hx)|exact (so_wf h Hok _ _ _ Hk Hx)]. }
    assert (Hag : forall k, vers h k = vers (<[i := s']> h) k /\ masks h k = masks (<[i := s']> h) k).
    { intros k. apply chain_agree; [apply Hok|done|]. intros n _. destruct (decide (i = n)) as [<-|Hne].
      - rewrite list_lookup_insert_eq by (by eapply lookup_lt_Some). rewrite E. by constructor.
      - rewrite list_lookup_insert_ne by done. destruct (h !! n); by constructor. }
    split; [|split; [apply length_insert|split; [intros k; symmetry; apply Hag|done]]].
    constructor; [done| | |].
    - intros k x Hk. apply list_lookup_insert_Some in Hk as [(<- & Hxs & _)|[_ Hk]]; [rewrite <- Hxs; exact (so_version h Hok i s E)|by apply (so_version h Hok k)].
    - intros k x Hk. destruct (Hag k) as [<- <-]. apply list_lookup_insert_Some in Hk as [(<- & Hxs & _)|[_ Hk]]; [|by apply so_cache].
      rewrite <- Hxs. cbn [s' rs_cached rs_cachedVersion]. split; [lia|]. right. split; [lia|done].
    - intros k x v q Hk. apply list_lookup_insert_Some in Hk as [(<- & Hxs & _)|[_ Hk]]; [rewrite <- Hxs; exact (so_values h Hok i s v q E)|by apply (so_values h Hok k)]. }
  destruct (rs_parent s) as [p|] eqn:Ep; [|by apply Hre].
  destruct (bool_decide (rs_values s = ∅)) eqn:Ev; [|by apply Hre]. apply bool_decide_eq_true in Ev.
  pose proof (so_wf h Hok _ _ _ E Ep). rewrite (masks_unfold h i s) by (done || apply Hok). rewrite Ev, Ep, stronger_empty_l.
  apply IH; [lia|done].
Qed.

(** The sets of a process: one root, and whatever it did since. *)
Inductive reachable : Sets -> Prop :=
  | r_new : reachable [NewSet]
  | r_child h i : reachable h -> (i < length h)%nat -> reachable (Child i h)
  | r_declare h i r values : reachable h -> reachable (Set_Declare i r values h)
  | r_scrub h i text : reachable h -> (i < length h)%nat -> reachable (Scrub i text h).1.

Lemma Scrub_ok h i text h' out :
  sets_ok h -> (i < length h)%nat -> Scrub i text h = (h', out) ->
  sets_ok h' /\ length h' = length h /\ out = Replace (pairs_of (masks h i)) text.
Proof.
  intros Hok Hi. unfold Scrub. destruct (text =? "")%string eqn:E.
  { apply String.eqb_eq in E as ->. intros [= <- <-]. done. }
  destruct (get_replacer (length h) i h) as [h1 r] eqn:Hg.
  destruct (get_replacer_ok _ _ _ _ _ Hok Hi Hg) as (Hok1 & Hlen & _ & Hr).
  destruct r as [pairs|]; intros [= <- <-]; (split; [done|]); (split; [done|]); [by rewrite Hr|]. rewrite Hr.
  symmetry. unfold Replace. cbn. clear. assert (forall f t, (String.length t <= f)%nat -> flat (map piece_out (pieces f [] t)) = t) as Hid;
    [|by apply Hid]. induction f as [|f IH]; intros [|c t] Hl; try done; [cbn in Hl; lia|]. cbn [pieces first_match map piece_out flat foldr].
  fold (flat (map piece_out (pieces f [] t))). rewrite IH; [done|]. cbn in Hl. lia.
Qed.

Lemma reachable_ok h : reachable h -> sets_ok h.
Proof.
  induction 1 as [|h i _ IH Hi|h i r values _ IH|h i text _ IH Hi].
  - assert (forall i s, [NewSet] !! i = Some s -> s = NewSet) as Hone by (intros [|[|i]] s; cbn; congruence).
    constructor.
    + intros i s p Hs%Hone. by subst.
    + intros i s Hs%Hone. by subst.
    + intros [|[|i]] s; cbn; [intros [= <-]|done|done]. split; [done|by left].
    + intros i s v r Hs%Hone. subst. cbn. by rewrite lookup_empty.
  - by apply Child_ok.
  - by apply Declare_ok.
  - destruct (Scrub i text h) as [h' out] eqn:E. by destruct (Scrub_ok _ _ _ _ _ IH Hi E).
Qed.

Lemma masks_values h i v r : sets_ok h -> masks h i !! v = Some r -> v <> "".
Proof.
  intros Hok. induction i as [i IH] using lt_wf_ind. destruct (h !! i) as [s|] eqn:E.
  2:{ unfold masks. cbn. rewrite E. by rewrite lookup_empty. }
  rewrite (masks_unfold h i s) by (done || apply Hok). rewrite lookup_stronger.
  destruct (rs_values s !! v) eqn:Ev; [intros _; by eapply (so_values h Hok i)|]. cbn.
  destruct (rs_parent s) as [p|] eqn:Ep; [|by rewrite lookup_empty]. apply IH. by eapply (so_wf h Hok).
Qed.

Lemma pairs_of_In m v x :
  In (v, x) (pairs_of m) <-> exists r, m !! v = Some r /\ x = Mask r v.
Proof.
  unfold pairs_of. rewrite in_map_iff. split.
  - intros (v' & [= -> <-] & Hin). rewrite <- list_elem_of_In, merge_sort_Permutation in Hin.
    apply list_elem_of_fmap in Hin as ([v' r] & -> & Hr). apply elem_of_map_to_list in Hr. cbn.
    exists r. by rewrite Hr.
  - intros (r & Hr & ->). exists v. rewrite Hr. split; [done|].
    rewrite <- list_elem_of_In, merge_sort_Permutation. apply list_elem_of_fmap. exists (v, r). split; [done|].
    by apply elem_of_map_to_list.
Qed.

Lemma pairs_no_empty h i : sets_ok h -> no_empty (pairs_of (masks h i)).
Proof.
  intros Hok. apply List.Forall_forall. intros [v x] (r & Hr & _)%pairs_of_In. by eapply masks_values.
Qed.

(** What declaring does to the rule of a value: never weaker than before, and at
    least the one declared. *)
Lemma declare_one_rule r s v v' :
  let s' := declare_one r s v in
  (forall q, rs_values s !! v' = Some q -> exists q', rs_values s' !! v' = Some q' /\ strength q <= strength q') /\
  (v = v' -> v <> "" -> (minLen r <= String.length v)%nat ->
   exists q', rs_values s' !! v' = Some q' /\ strength r <= strength q').
Proof.
  cbn. unfold declare_one. destruct (v =? "")%string eqn:E; cbn [orb].
  { apply String.eqb_eq in E as ->. split; [eauto using Z.le_refl|done]. }
  destruct (String.length v <? minLen r)%nat eqn:El.
  { apply Nat.ltb_lt in El. split; [eauto using Z.le_refl|intros; lia]. }
  destruct (rs_values s !! v) as [prev|] eqn:Ev; [destruct (strength r <=? strength prev) eqn:Es|].
  - split; [eauto using Z.le_refl|]. intros <- _ _. exists prev. split; [done|lia].
  - split.
    + intros q Hq. cbn. destruct (decide (v = v')) as [<-|Hne].
      * rewrite lookup_insert_eq. exists r. split; [done|]. rewrite Ev in Hq. injection Hq as <-. lia.
      * rewrite lookup_insert_ne by done. eauto using Z.le_refl.
    + intros <- _ _. cbn. rewrite lookup_insert_eq. eauto using Z.le_refl.
  - split.
    + intros q Hq. cbn. destruct (decide (v = v')) as [<-|Hne]; [congruence|]. rewrite lookup_insert_ne by done. eauto using Z.le_refl.
    + intros <- _ _. cbn. rewrite lookup_insert_eq. eauto using Z.le_refl.
Qed.

Lemma declared_rule r values s v :
  In v values -> v <> "" -> (minLen r <= String.length v)%nat ->
  exists q, rs_values (foldl (declare_one r) s values) !! v = Some q /\ strength r <= strength q.
Proof.
  assert (Hkeep : forall values s q, rs_values s !! v = Some q ->
    exists q', rs_values (foldl (declare_one r) s values) !! v = Some q' /\ strength q <= strength q').
  { clear. induction values as [|x values IH]; intros s q Hq; cbn; [eauto using Z.le_refl|].
    destruct (proj1 (declare_one_rule r s x v) q Hq) as (q1 & Hq1 & Hle). destruct (IH _ _ Hq1) as (q2 & Hq2 & Hle2).
    exists q2. split; [done|lia]. }
  revert s. induction values as [|x values IH]; intros s Hin Hne Hl; [done|]. cbn. destruct Hin as [->|Hin]; [|by apply IH].
  destruct (proj2 (declare_one_rule r s v v) eq_refl Hne Hl) as (q & Hq & Hle).
  destruct (Hkeep values _ _ Hq) as (q' & Hq' & Hle'). exists q'. split; [done|lia].
Qed.

(** A piece of [ps] masks part of every occurrence of [v] in the text. *)
Definition covered (v text : string) (ps : list piece) : Prop := forall a b, text = a +:+ (v +:+ b) ->
  exists ps1 v' m' ps2, ps = ps1 ++ Masked v' m' :: ps2 /\
    (String.length (flat (map piece_in ps1)) < String.length a + String.length v)%nat /\
    (String.length a < String.length (flat (map piece_in ps1)) + String.length v')%nat.

Lemma Scrub_pieces h i text :
  sets_ok h -> (i < length h)%nat ->
  exists ps, flat (map piece_in ps) = text /\ flat (map piece_out ps) = (Scrub i text h).2 /\
    (forall v m, In (Masked v m) ps -> exists r, masks h i !! v = Some r /\ m = Mask r v) /\
    (forall v r, masks h i !! v = Some r -> covered v text ps).
Proof.
  intros Hok Hi. pose proof (pairs_no_empty h i Hok) as Hne.
  destruct (Scrub i text h) as [h' out] eqn:E. destruct (Scrub_ok _ _ _ _ _ Hok Hi E) as (_ & _ & ->).
  exists (pieces (String.length text) (pairs_of (masks h i)) text). split; [by apply pieces_in|]. split; [done|]. split.
  - intros v m Hin. apply pairs_of_In. by eapply pieces_Masked.
  - intros v r Hv a b Ht. destruct (pieces_cover (String.length text) (pairs_of (masks h i)) text v (Mask r v) a b)
      as (ps1 & v' & m' & ps2 & Hp & _ & H1 & H2); [done|done|apply pairs_of_In; eauto|done|]. eauto 10.
Qed.

Lemma declare_masks h i r values v :
  sets_ok h -> (i < length h)%nat -> In v values -> v <> "" -> (minLen r <= String.length v)%nat ->
  exists q, masks (Set_Declare i r values h) i !! v = Some q /\ strength r <= strength q.
Proof.
  intros Hok Hi Hin Hv Hl. destruct (lookup_lt_is_Some_2 h i Hi) as [s Hs].
  pose proof (so_wf _ (Declare_ok h i r values Hok)) as Hwf. unfold Set_Declare in *. rewrite Hs in *.
  rewrite (masks_unfold _ i (foldl (declare_one r) s values)) by (done || by apply list_lookup_insert_eq).
  rewrite lookup_stronger. destruct (declared_rule r values s v Hin Hv Hl) as (q & -> & Hq).
  destruct (match rs_parent _ with Some p => _ | None => _ end !! v) as [q'|]; cbn; [|eauto].
  destruct (strength q <? strength q') eqn:Es; eexists; (split; [reflexivity|]); lia.
Qed.

(** Set [j] is set [i] or one of its parents. *)
Inductive above (h : Sets) (j : nat) : nat -> Prop :=
  | above_self : above h j j
  | above_parent i s p : h !! i = Some s -> rs_parent s = Some p -> above h j p -> above h j i.

Definition at_least (r : Rule) (o : option Rule) : Prop := exists q, o = Some q /\ strength r <= strength q.

Lemma at_least_stronger r a b : at_least r a \/ at_least r b -> at_least r (opt_stronger a b).
Proof.
  intros [(q & -> & Hq)|(q & -> & Hq)]; [destruct b as [x|]|destruct a as [x|]]; cbn; try by exists q.
  - destruct (strength q <? strength x) eqn:E; eexists; (split; [done|lia]).
  - destruct (strength x <? strength q) eqn:E; eexists; (split; [done|lia]).
Qed.

Lemma above_masks h j i r v : sets_ok h -> above h j i -> at_least r (masks h j !! v) -> at_least r (masks h i !! v).
Proof.
  intros Hok. induction 1 as [|i s p Hs Hp _ IH]; [done|]. intros Hr. rewrite (masks_unfold h i s), Hp, lookup_stronger by (done || apply Hok).
  apply at_least_stronger. right. by apply IH.
Qed.

Lemma foldl_declare_keeps r values s v q :
  rs_values s !! v = Some q -> at_least q (rs_values (foldl (declare_one r) s values) !! v).
Proof.
  revert s q. induction values as [|x values IH]; intros s q Hq; cbn; [by exists q|].
  destruct (proj1 (declare_one_rule r s x v) q Hq) as (q1 & Hq1 & Hle). destruct (IH _ _ Hq1) as (q2 & Hq2 & Hle2).
  exists q2. split; [done|lia].
Qed.

Lemma foldl_declare_parent r values s : rs_parent (foldl (declare_one r) s values) = rs_parent s.
Proof.
  revert s. induction values as [|x values IH]; intros s; cbn; [done|]. rewrite IH. unfold declare_one.
  destruct (_ || _); [done|]. by destruct (match _ with Some _ => _ | None => _ end).
Qed.

(** Declaring weakens nothing and leaves the parents as they are. *)
Lemma Declare_mono h j r values i v q :
  sets_ok h -> at_least q (masks h i !! v) -> at_least q (masks (Set_Declare j r values h) i !! v).
Proof.
  intros Hok. pose proof (so_wf _ (Declare_ok h j r values Hok)) as Hwf. unfold Set_Declare in *.
  destruct (h !! j) as [s|] eqn:Hj; [|done]. induction i as [i IH] using lt_wf_ind.
  destruct (h !! i) as [x|] eqn:Hi.
  2:{ unfold masks. cbn. rewrite Hi. intros (? & ? & _). rewrite lookup_empty in *. done. }
  set (s' := foldl (declare_one r) s values) in *.
  assert (exists x', <[j := s']> h !! i = Some x' /\ rs_parent x' = rs_parent x /\
            forall w, rs_values x !! v = Some w -> at_least w (rs_values x' !! v)) as (x' & Hi' & Hp & Hv).
  { destruct (decide (j = i)) as [<-|Hne].
    - exists s'. rewrite list_lookup_insert_eq by (by eapply lookup_lt_Some). assert (x = s) as -> by congruence.
      split_and!; [done|apply foldl_declare_parent|intros w; apply foldl_declare_keeps].
    - exists x. rewrite list_lookup_insert_ne by done. split_and!; [done..|]. intros w ->. by exists w. }
  rewrite (masks_unfold h i x), (masks_unfold _ i x'), !lookup_stronger by (done || apply Hok). rewrite Hp.
  intros (w & Hw & Hle). apply at_least_stronger.
  assert (at_least q (rs_values x !! v) \/ at_least q (match rs_parent x with Some p => masks h p | None => ∅ end !! v)) as [(w' & Hw' & Hle')|Hup].
  { destruct (rs_values x !! v) as [a|] eqn:Ha, (match rs_parent x with Some p => masks h p | None => ∅ end !! v) as [b|] eqn:Hb; cbn in Hw;
      try discriminate; injection Hw as <-;
      [destruct (strength a <? strength b); [right; by eexists|left; by eexists]|left; by eexists|right; by eexists]. }
  - left. destruct (Hv w' Hw') as (w2 & -> & ?). exists w2. split; [done|lia].
  - right. destruct (rs_parent x) as [p|] eqn:Ep; [|done]. apply IH; [by eapply (so_wf h Hok)|done].
Qed.

Lemma Child_masks h i j : sets_ok h -> (i < length h)%nat -> (j < length h)%nat -> masks (Child i h) j = masks h j.
Proof.
  intros Hok Hi Hj. symmetry. apply chain_agree; [apply Hok|apply (so_wf _ (Child_ok h i Hok Hi))|].
  intros k Hk. unfold Child. rewrite lookup_app_l by lia. destruct (h !! k); by constructor.
Qed.

Lemma Scrub_masks h i text j : sets_ok h -> (i < length h)%nat -> masks (Scrub i text h).1 j = masks h j.
Proof.
  intros Hok Hi. unfold Scrub. destruct (_ =? _)%string; [done|]. destruct (get_replacer _ _ _) as [h1 r] eqn:Hg.
  destruct (get_replacer_ok _ _ _ _ _ Hok Hi Hg) as (_ & _ & Hm & _). destruct r; apply Hm.
Qed.

(** What a process does with its sets. *)
Inductive set_step : Sets -> Sets -> Prop :=
  | ss_child h i : (i < length h)%nat -> set_step h (Child i h)
  | ss_declare h i r values : set_step h (Set_Declare i r values h)
  | ss_scrub h i text : (i < length h)%nat -> set_step h (Scrub i text h).1.

Lemma set_step_keeps h h' :
  set_step h h' -> sets_ok h ->
  sets_ok h' /\ (length h <= length h')%nat /\
  forall j v q, (j < length h)%nat -> at_least q (masks h j !! v) -> at_least q (masks h' j !! v).
Proof.
  destruct 1 as [h i Hi|h i r values|h i text Hi]; intros Hok.
  - split_and!; [by apply Child_ok|unfold Child; rewrite length_app; lia|]. intros j v q Hj. by rewrite Child_masks.
  - split_and!; [by apply Declare_ok|unfold Set_Declare; destruct (h !! i); [by rewrite length_insert|done]|].
    intros j v q _. by apply Declare_mono.
  - destruct (Scrub i text h) as [h' out] eqn:E. destruct (Scrub_ok _ _ _ _ _ Hok Hi E) as (Hok' & Hl & _).
    split_and!; [done|cbn; lia|]. intros j v q _. pose proof (Scrub_masks h i text j Hok Hi) as Hm. by rewrite E in Hm; rewrite Hm.
Qed.

Lemma set_steps_keep h h' :
  rtc set_step h h' -> sets_ok h ->
  sets_ok h' /\ forall j v q, (j < length h)%nat -> at_least q (masks h j !! v) -> at_least q (masks h' j !! v).
Proof.
  induction 1 as [|h h1 h' Hs _ IH]; intros Hok; [done|]. destruct (set_step_keeps _ _ Hs Hok) as (Hok1 & Hl & Hk).
  destruct (IH Hok1) as [Hok' Hk']. split; [done|]. intros j v q Hj Ha. apply Hk'; [lia|auto].
Qed.

(** C29. Redaction misses nothing. In whatever order values were declared in a set
    and its parents, texts scrubbed and replacers cached, scrubbing splits the
    text into bytes kept and declared values masked such that every occurrence
    of a value declared in the set or above it overlaps a masked piece (of that
    value or of another declared one), and every masked piece is exported as the
    strongest rule declared for it shows it. A value
    of at least its rule's length that is declared in a set stays masked at
    least as strongly, in that set and every set below it, whatever the process
    declares, derives and scrubs afterwards. *)
Theorem scrub_masks (h : Sets) (i : nat) (text : string) :
  reachable h -> (i < length h)%nat ->
  (exists ps, flat (map piece_in ps) = text /\ flat (map piece_out ps) = (Scrub i text h).2 /\
     (forall v m, In (Masked v m) ps -> exists r, masks h i !! v = Some r /\ m = Mask r v) /\
     (forall v r a b, masks h i !! v = Some r -> text = a +:+ (v +:+ b) ->
        exists ps1 v' m' ps2, ps = ps1 ++ Masked v' m' :: ps2 /\
          (String.length (flat (map piece_in ps1)) < String.length a + String.length v)%nat /\
          (String.length a < String.length (flat (map piece_in ps1)) + String.length v')%nat)) /\
  (forall r values v h' k, In v values -> v <> "" -> (minLen r <= String.length v)%nat ->
     rtc set_step (Set_Declare i r values h) h' -> above h' i k ->
     exists q, masks h' k !! v = Some q /\ strength r <= strength q).
Proof.
  intros Hr%reachable_ok Hi. split.
  - destruct (Scrub_pieces h i text Hr Hi) as (ps & H1 & H2 & H3 & H4). exists ps. split_and!; [done..|].
    intros v r a b Hv Ht. exact (H4 v r Hv a b Ht).
  - intros r values v h' k Hin Hv Hl Hs Ha. destruct (set_steps_keep _ _ Hs) as [Hok' Hk]; [by apply Declare_ok|].
    apply (above_masks h' i k r v Hok' Ha), Hk; [|by apply declare_masks].
    unfold Set_Declare. destruct (h !! i); [by rewrite length_insert|done].
Qed.

(** The replacer cache never shows: in every reachable state, scrubbing gives
    what a replacer built afresh from all declared values gives, whatever was
    declared since the cached one was built, in the set or in any parent. *)
Theorem scrub_cache_equiv (h : Sets) (i : nat) (text : string) :
  reachable h -> (i < length h)%nat -> (Scrub i text h).2 = Replace (pairs_of (masks h i)) text.
Proof.
  intros Hr Hi. destruct (Scrub i text h) as [h' out] eqn:E.
  by destruct (Scrub_ok _ _ _ _ _ (reachable_ok h Hr) Hi E) as (_ & _ & ->).
Qed.

(** ** Runs *)

Module RedactExample.

Example masks_shown :
  (Mask PII "alice@example.com", Mask PII "1234567", Mask Identifier "tempogate-cli", Mask Secret "x") =
    ("a***@example.com", "***", "temp***", "[REDACTED]").
Proof. vm_compute. reflexivity. Qed.

Definition process : Sets := Set_Declare 0 Secret ["s3cret-key"] [NewSet].
(** A request's set: an address, and a text scrubbed before its code is declared. *)
Definition request : Sets := Set_Declare 1 PII ["alice@example.com"] (Child 0 process).
Definition scrubbed : Sets := (Scrub 1 "alice@example.com sent s3cret-key" request).1.
Definition later_ : Sets := Set_Declare 1 Secret ["code-1234"] scrubbed.

Lemma later_reachable : reachable later_.
Proof.
  apply r_declare, r_scrub; [|vm_compute; lia]. apply r_declare, r_child; [|vm_compute; lia].
  apply r_declare, r_new.
Qed.

Example scrubbed_text :
  (Scrub 1 "google: refused alice@example.com: code-1234 s3cret-key" later_).2 =
    "google: refused a***@example.com: [REDACTED] [REDACTED]".
Proof. vm_compute. reflexivity. Qed.

Lemma scrub_cache_equiv_witness :
  (Scrub 1 "code-1234" later_).2 = Replace (pairs_of (masks later_ 1)) "code-1234".
Proof. apply (scrub_cache_equiv later_ 1 "code-1234"); [apply later_reachable|vm_compute; lia]. Defined.

(** Later a child of the request's set is made and another value declared. *)
Definition after_ : Sets := Set_Declare 0 PII ["bob@example.com"] (Child 1 later_).

Lemma scrub_masks_witness :
  (exists ps, flat (map piece_in ps) = "code-1234" /\ flat (map piece_out ps) = (Scrub 1 "code-1234" later_).2) /\
  exists q, masks after_ 2 !! "code-1234" = Some q /\ strength Secret <= strength q.
Proof.
  split.
  - destruct (scrub_masks later_ 1 "code-1234") as [(ps & H1 & H2 & _) _].
    + apply later_reachable.
    + vm_compute. lia.
    + exists ps. split; [exact H1|exact H2].
  - destruct (scrub_masks scrubbed 1 "") as [_ H].
    + apply r_scrub; [|vm_compute; lia]. apply r_declare, r_child; [apply r_declare, r_new|vm_compute; lia].
    + vm_compute. lia.
    + apply (H Secret ["code-1234"] "code-1234" after_ 2%nat); [by left|done|vm_compute; lia| |].
      * apply (rtc_l _ _ (Child 1 later_)); [apply ss_child; vm_compute; lia|apply rtc_once, ss_declare].
      * eapply (above_parent _ _ 2); [vm_compute; reflexivity|reflexivity|apply above_self].
Defined.

(** A value inside a longer one shows what the longer one's rule shows. *)
Example overlapping :
  (Scrub 0 "tempogate-cli temp" (Set_Declare 0 Secret ["temp"] (Set_Declare 0 Identifier ["tempogate-cli"] [NewSet]))).2 =
    "temp*** [REDACTED]".
Proof. vm_compute. reflexivity. Qed.

End RedactExample.
