(* ===== verification/Spans.v ===== *)
(** * Spans (telemetry/tracer.go, telemetry/env.go, telemetry/provider.go, observe/trace.go)

    The adapter that exports what the process traces: when a span starts, what is
    said about it, and the message of a failure, which is masked when the span
    ends. Of an OpenTelemetry span the model keeps the calls made on it. The
    exporters and the SDK behind them are parameters. *)

From S2P Require Import Prelude GoStrings GoErrors Redact.

(** ** Attributes and options (package observe) *)

Inductive attr_value := AString (s : string) | AInt (n : Z).
Record Attr := mkAttr { at_Key : string; at_Value : attr_value }.

Inductive SpanKind := SpanKindInternal | SpanKindServer | SpanKindClient.

Record SpanConfig := mkSpanConfig { sc_Kind : SpanKind; sc_Root : bool; sc_Attrs : list Attr }.

Definition SpanOption := SpanConfig -> SpanConfig.
Definition WithSpanKind (k : SpanKind) : SpanOption := fun c => mkSpanConfig k (sc_Root c) (sc_Attrs c).
Definition AsRoot : SpanOption := fun c => mkSpanConfig (sc_Kind c) true (sc_Attrs c).
Definition WithAttributes (attrs : list Attr) : SpanOption := fun c => mkSpanConfig (sc_Kind c) (sc_Root c) (sc_Attrs c ++ attrs).
Definition NewSpanConfig (opts : list SpanOption) : SpanConfig := foldl (fun c opt => opt c) (mkSpanConfig SpanKindInternal false []) opts.

(** ** The adapter *)

(** The calls made on an OpenTelemetry span. *)
Inductive otel_call :=
  | OtelStart (name : string) (kind : SpanKind) (attrs : list Attr) (new_root : bool)
  | OtelSetName (name : string)
  | OtelSetAttributes (attrs : list Attr)
  | OtelAddEvent (name : string) (attrs : list Attr)
  | OtelSetStatus (msg : string)
  | OtelEnd.

(** What [ctx] carries: a valid span or not, and a set of declared values. *)
Record Ctx := mkCtx { cx_span : bool; cx_set : option nat }.

(** An error by its Go type and its text. *)
Record err := mkErr { er_type : string; er_Error : string }.

Record span := mkSpan {
  sp_s : list otel_call;
  sp_set : option nat;
  sp_failed : bool;
  sp_errorType : string;
  sp_err : option err
}.

Definition attrErrorType : string := "error.type".

(** [t.Start(ctx, name, opts...)]: no span ([observe.NopSpan]), or one. *)
Definition tracer_Start (redaction : option nat) (cx : Ctx) (name : string) (opts : list SpanOption) : option span :=
  let cfg := NewSpanConfig opts in
  if negb (sc_Root cfg) && negb (cx_span cx) then None
  else
    let set := match cx_set cx with None => redaction | Some i => Some i end in
    Some (mkSpan [OtelStart name (sc_Kind cfg) (sc_Attrs cfg) (sc_Root cfg)] set false "" None).

Definition on_otel (calls : list otel_call) (s : span) : span :=
  mkSpan (sp_s s ++ calls) (sp_set s) (sp_failed s) (sp_errorType s) (sp_err s).

Definition span_SetName (name : string) (s : span) : span := on_otel [OtelSetName name] s.
Definition span_SetAttributes (attrs : list Attr) (s : span) : span := on_otel [OtelSetAttributes attrs] s.
Definition span_Fail (errorType : string) (e : option err) (s : span) : span := mkSpan (sp_s s) (sp_set s) true errorType e.

(** [set.Scrub(text)], of a set that may be nil. *)
Definition scrub_in (set : option nat) (text : string) (h : list Set_) : list Set_ * string :=
  match set with Some i => Scrub i text h | None => (h, text) end.

Definition span_End (s : span) (h : list Set_) : list Set_ * span :=
  if sp_failed s then
    let class := OtelSetAttributes [mkAttr attrErrorType (AString (sp_errorType s))] in
    match sp_err s with
    | Some e =>
        let '(h, msg) := scrub_in (sp_set s) (er_Error e) h in
        (h, on_otel [class;
                     OtelAddEvent "exception" [mkAttr "exception.type" (AString (er_type e)); mkAttr "exception.message" (AString msg)];
                     OtelSetStatus msg; OtelEnd] s)
    | None => (h, on_otel [class; OtelSetStatus ""; OtelEnd] s)
    end
  else (h, on_otel [OtelEnd] s).

(** ** A process that traces *)

Record Tracing := mkTracing { tr_sets : list Set_; tr_spans : list (option span) }.

Inductive op :=
  | DeclareIn (cx : Ctx) (r : Rule) (values : list string)
  | ChildOf (i : nat)
  | Start (cx : Ctx) (name : string) (opts : list SpanOption)
  | SetName (k : nat) (name : string)
  | SetAttributes (k : nat) (attrs : list Attr)
  | Fail_ (k : nat) (errorType : string) (e : option err)
  | End_ (k : nat).

(** Operation [f] of span [k]; [observe.NopSpan] ignores it. *)
Definition on_span (k : nat) (f : span -> span) (w : Tracing) : Tracing :=
  mkTracing (tr_sets w) (alter (fmap f) k (tr_spans w)).

Definition step (redaction : option nat) (w : Tracing) (o : op) : Tracing :=
  match o with
  | DeclareIn cx r values => match cx_set cx with Some i => mkTracing (Set_Declare i r values (tr_sets w)) (tr_spans w) | None => w end
  | ChildOf i => mkTracing (Child i (tr_sets w)) (tr_spans w)
  | Start cx name opts => mkTracing (tr_sets w) (tr_spans w ++ [tracer_Start redaction cx name opts])
  | SetName k name => on_span k (span_SetName name) w
  | SetAttributes k attrs => on_span k (span_SetAttributes attrs) w
  | Fail_ k errorType e => on_span k (span_Fail errorType e) w
  | End_ k =>
      match tr_spans w !! k with
      | Some (Some s) => let '(h, s) := span_End s (tr_sets w) in mkTracing h (<[k := Some s]> (tr_spans w))
      | _ => w
      end
  end.

(** A set a context or a parent names exists. *)
Definition known (w : Tracing) (set : option nat) : Prop := forall i, set = Some i -> (i < length (tr_sets w))%nat.
Definition names_known (w : Tracing) (o : op) : Prop :=
  match o with
  | DeclareIn cx _ _ | Start cx _ _ => known w (cx_set cx)
  | ChildOf i => known w (Some i)
  | _ => True
  end.

(** The runs of a process, which starts with its own set. *)
Inductive traced (redaction : option nat) : list op -> Tracing -> Prop :=
  | tr_start : known (mkTracing [NewSet] []) redaction -> traced redaction [] (mkTracing [NewSet] [])
  | tr_op ops w o : traced redaction ops w -> names_known w o -> traced redaction (ops ++ [o]) (step redaction w o).

(** ** The provider (telemetry/env.go, provider.go, fx.go) *)

Section Provider.
Context {Exporter : Type} (otlptracehttp_New otlptracegrpc_New : error + Exporter).
(** What describing the process, and setting up its metrics, fails with. *)
Context (resource_New metrics_New : option error).

Definition spanExporterFromEnv (getenv : string -> string) : error + option Exporter :=
  if EqualFold (TrimSpace (getenv "OTEL_SDK_DISABLED")) "true" then inr None
  else
    let exporter := TrimSpace (getenv "OTEL_TRACES_EXPORTER") in
    if (exporter =? "")%string || (exporter =? "none")%string then inr None
    else if negb (exporter =? "otlp")%string
    then inl (Opaque ("telemetry: OTEL_TRACES_EXPORTER=" +:+ exporter +:+ " is not supported; use otlp or none"))
    else
      let protocol := match TrimSpace (getenv "OTEL_EXPORTER_OTLP_TRACES_PROTOCOL") with
                      | "" => TrimSpace (getenv "OTEL_EXPORTER_OTLP_PROTOCOL")
                      | p => p
                      end in
      let built :=
        if (protocol =? "")%string || (protocol =? "http/protobuf")%string then Some otlptracehttp_New
        else if (protocol =? "grpc")%string then Some otlptracegrpc_New
        else None in
      match built with
      | None => inl (Opaque ("telemetry: OTLP protocol " +:+ protocol +:+ " is not supported; use http/protobuf or grpc"))
      | Some (inl e) => inl (Errorf "telemetry: otlp trace exporter" e)
      | Some (inr exp) => inr (Some exp)
      end.

(** The tracing half of a provider. *)
Record Provider := mkProvider { pv_traces : option Exporter; pv_redaction : option nat }.

Definition NewProvider (spans : option Exporter) (redaction : option nat) : error + Provider :=
  match metrics_New with
  | Some e => inl e
  | None => inr (mkProvider spans redaction)
  end.

Definition newProviderFx (getenv : string -> string) (redaction : option nat) : error + Provider :=
  match spanExporterFromEnv getenv with
  | inl e => inl e
  | inr None => NewProvider None redaction
  | inr (Some exp) =>
      match resource_New with
      | Some e => inl (Errorf "telemetry: resource" e)
      | None => NewProvider (Some exp) redaction
      end
  end.

(** [p.Tracer()]: nil while tracing is off, and else a tracer with this set. *)
Definition Tracer (p : Provider) : option (option nat) := match pv_traces p with None => None | Some _ => Some (pv_redaction p) end.
End Provider.

(** Tracing is off unless the environment asks for it. *)
Lemma tracing_opt_in {Exporter} (http grpc : error + Exporter) res met getenv redaction p :
  newProviderFx http grpc res met getenv redaction = inr p ->
  (is_Some (Tracer p) <->
   EqualFold (TrimSpace (getenv "OTEL_SDK_DISABLED")) "true" = false /\ TrimSpace (getenv "OTEL_TRACES_EXPORTER") = "otlp").
Proof.
  assert (forall spans, NewProvider met spans redaction = inr p -> pv_traces p = spans) as Hnew.
  { intros spans. unfold NewProvider. destruct met; [done|]. by intros [= <-]. }
  assert (Hoff : NewProvider met None redaction = inr p -> ~ is_Some (Tracer p)).
  { intros Hp%Hnew. unfold Tracer. rewrite Hp. by intros []. }
  unfold newProviderFx, spanExporterFromEnv. destruct (EqualFold _ _); [intros ?%Hoff; naive_solver|].
  set (e := TrimSpace (getenv "OTEL_TRACES_EXPORTER")). destruct (decide (e = "otlp")) as [->|He].
  - cbn [String.eqb Ascii.eqb Bool.eqb orb negb]. destruct (if _ || _ then _ else _) as [[|x]|]; [done| |done].
    destruct res; [done|]. intros Hp%Hnew. unfold Tracer. rewrite Hp. naive_solver.
  - destruct (e =? "otlp")%string eqn:Hb; [by apply String.eqb_eq in Hb|]. destruct (_ || _); [|done]. intros ?%Hoff. naive_solver.
Qed.

(** ** Sets over a run *)

Section Runs.
Context (redaction : option nat).

(** Every set a span uses exists, and the sets are ones a process can reach. *)
Definition spans_known (w : Tracing) : Prop := forall k s i, tr_spans w !! k = Some (Some s) -> sp_set s = Some i -> (i < length (tr_sets w))%nat.

Lemma span_End_sets s h :
  (span_End s h).1 = h \/ exists i text, sp_set s = Some i /\ (span_End s h).1 = (Scrub i text h).1.
Proof.
  unfold span_End. destruct (sp_failed s); [|by left]. destruct (sp_err s) as [e|]; [|by left]. unfold scrub_in.
  destruct (sp_set s) as [i|] eqn:E; [|by left]. right. exists i, (er_Error e). split; [done|]. by destruct (Scrub _ _ _).
Qed.

Lemma span_End_set s h : sp_set (span_End s h).2 = sp_set s.
Proof. unfold span_End. destruct (sp_failed s), (sp_err s) as [e|]; try done. by destruct (scrub_in _ _ _). Qed.

(** What a step does to the sets. *)
Lemma step_sets w o :
  reachable (tr_sets w) -> spans_known w -> names_known w o ->
  reachable (tr_sets (step redaction w o)) /\ (length (tr_sets w) <= length (tr_sets (step redaction w o)))%nat /\
  forall j v q, (j < length (tr_sets w))%nat -> at_least q (masks (tr_sets w) j !! v) -> at_least q (masks (tr_sets (step redaction w o)) j !! v).
Proof.
  intros Hr Hk Ho. pose proof (reachable_ok _ Hr) as Hok. destruct o as [cx r values|i|cx name opts|k n|k a|k ty e|k]; cbn [step on_span tr_sets]; try done.
  - destruct (cx_set cx) as [i|]; [|done]. cbn. split_and!; [by constructor| |intros; by apply Declare_mono].
    unfold Set_Declare. destruct (_ !! i); [by rewrite length_insert|done].
  - specialize (Ho i eq_refl). split_and!; [by constructor|unfold Child; rewrite length_app; lia|].
    intros j v q Hj. by rewrite Child_masks.
  - destruct (tr_spans w !! k) as [[s|]|] eqn:E; try done. pose proof (span_End_sets s (tr_sets w)) as Hs.
    destruct (span_End s (tr_sets w)) as [h s']. cbn [fst tr_sets] in *. destruct Hs as [->|(i & text & Hi & ->)]; [done|].
    pose proof (Hk k s i E Hi) as Hlt. split_and!; [by constructor| |intros j v q _; by rewrite Scrub_masks].
    destruct (Scrub i text (tr_sets w)) as [h' out] eqn:Es. destruct (Scrub_ok _ _ _ _ _ Hok Hlt Es) as (_ & Hl & _). cbn. lia.
Qed.

Lemma alter_span (k : nat) (f : span -> span) (l : list (option span)) (k' : nat) s : alter (fmap f) k l !! k' = Some (Some s) ->
  exists s0 : span, l !! k' = Some (Some s0) /\ (s = s0 \/ k = k' /\ s = f s0).
Proof.
  destruct (decide (k = k')) as [<-|Hne]; [rewrite list_lookup_alter_eq|rewrite list_lookup_alter_ne by done; eauto].
  destruct (l !! k) as [[s0|]|]; cbn; [intros [= <-]; eauto|done|done].
Qed.

(** A span keeps its set. *)
Lemma step_span w o k s :
  tr_spans (step redaction w o) !! k = Some (Some s) ->
  (exists s0, tr_spans w !! k = Some (Some s0) /\ sp_set s = sp_set s0) \/
  (exists cx name opts, o = Start cx name opts /\ tracer_Start redaction cx name opts = Some s).
Proof.
  destruct o as [cx r values|i|cx name opts|k' n|k' a|k' ty e|k']; cbn [step on_span tr_spans].
  - destruct (cx_set cx); cbn; eauto.
  - eauto.
  - intros [H|[_ H]]%lookup_app_Some; [by eauto|]. apply list_lookup_singleton_Some in H as [_ H]. right. by eauto.
  - intros (s0 & H & [->|[_ ->]])%alter_span; eauto.
  - intros (s0 & H & [->|[_ ->]])%alter_span; eauto.
  - intros (s0 & H & [->|[_ ->]])%alter_span; eauto.
  - destruct (tr_spans w !! k') as [[s0|]|] eqn:E; eauto. pose proof (span_End_set s0 (tr_sets w)) as Hs.
    destruct (span_End s0 (tr_sets w)) as [h s1]. cbn in *.
    intros [(<- & [= <-] & _)|[_ H]]%list_lookup_insert_Some; eauto.
Qed.

Lemma start_set cx name opts s i : tracer_Start redaction cx name opts = Some s -> sp_set s = Some i -> cx_set cx = Some i \/ redaction = Some i.
Proof. unfold tracer_Start. destruct (_ && _); [done|]. intros [= <-]. cbn. destruct (cx_set cx); auto. Qed.

Lemma traced_ok ops w : traced redaction ops w -> reachable (tr_sets w) /\ spans_known w /\ known w redaction.
Proof.
  induction 1 as [Hr|ops w o _ (Hr & Hk & Hp) Ho]; [split_and!; [constructor|by intros []|done]|].
  destruct (step_sets w o Hr Hk Ho) as (Hr' & Hlen & _). split_and!; [done| |intros i Hi; specialize (Hp i Hi); lia].
  intros k s i [(s0 & Hs & Heq)|(cx & name & opts & -> & Hs)]%step_span Hi.
  - rewrite Heq in Hi. specialize (Hk k s0 i Hs Hi). lia.
  - destruct (start_set _ _ _ _ _ Hs Hi) as [Hc|Hc]; [specialize (Ho i Hc)|specialize (Hp i Hc)]; lia.
Qed.

(** A value is masked from its declaration on. *)
Lemma declared_masked ops w cx r values j v :
  traced redaction ops w -> DeclareIn cx r values ∈ ops -> cx_set cx = Some j -> v ∈ values -> v <> "" -> (minLen r <= String.length v)%nat ->
  (j < length (tr_sets w))%nat /\ at_least r (masks (tr_sets w) j !! v).
Proof.
  intros Ht Hin Hj Hv Hne Hl. induction Ht as [|ops w o Ht IH Ho]; [by apply not_elem_of_nil in Hin|].
  destruct (traced_ok _ _ Ht) as (Hr & Hk & _). destruct (step_sets w o Hr Hk Ho) as (_ & Hlen & Hm).
  apply elem_of_app in Hin as [Hin|Hin%list_elem_of_singleton].
  - destruct (IH Hin) as [Hlt Ha]. split; [lia|by apply Hm].
  - subst o. specialize (Ho j Hj). split; [lia|]. cbn. rewrite Hj. cbn. apply declare_masks; [by apply reachable_ok|done|by apply list_elem_of_In|done|done].
Qed.
End Runs.

(** ** What leaves in a failure *)

(** The text a call exports. *)
Definition exports (c : otel_call) (m : string) : Prop :=
  c = OtelSetStatus m \/ exists name attrs, c = OtelAddEvent name attrs /\ mkAttr "exception.message" (AString m) ∈ attrs.

Section Exports.
Context (redaction : option nat).

Lemma span_End_exports s h c m :
  c ∈ sp_s (span_End s h).2 -> exports c m -> m <> "" ->
  c ∈ sp_s s \/ exists e, sp_err s = Some e /\ m = (scrub_in (sp_set s) (er_Error e) h).2.
Proof.
  unfold span_End. destruct (sp_failed s).
  2:{ cbn. intros [?|Hc%list_elem_of_singleton]%elem_of_app He; [auto|]. subst c. by destruct He as [?|(? & ? & ? & _)]. }
  destruct (sp_err s) as [e|].
  - destruct (scrub_in _ _ _) as [h' out] eqn:Es. cbn. intros [?|Hc]%elem_of_app He Hm; [by left|]. right. exists e. split; [done|].
    rewrite Es. cbn. destruct He as [He|(name & attrs & He & Ha)]; subst c; set_unfold in Hc; destruct_or?; simplify_eq; [done|].
    set_unfold in Ha. destruct_or?; simplify_eq. done.
  - cbn. intros [?|Hc]%elem_of_app He Hm; [by left|]. exfalso.
    destruct He as [He|(name & attrs & He & Ha)]; subst c; set_unfold in Hc; destruct_or?; simplify_eq; done.
Qed.

(** An exported text is that of the failure a span held when it ended. *)
Lemma exported_at_end ops w k s c m :
  traced redaction ops w -> tr_spans w !! k = Some (Some s) -> c ∈ sp_s s -> exports c m -> m <> "" ->
  exists ops1 ops2 w1 s1 e, ops = ops1 ++ End_ k :: ops2 /\ traced redaction ops1 w1 /\ tr_spans w1 !! k = Some (Some s1) /\
    sp_set s1 = sp_set s /\ sp_err s1 = Some e /\ m = (scrub_in (sp_set s) (er_Error e) (tr_sets w1)).2.
Proof.
  intros Ht. revert k s c m. induction Ht as [|ops w o Ht IH Ho]; intros k s c m Hs Hc He Hm; [done|].
  assert (Hold : forall s0, tr_spans w !! k = Some (Some s0) -> c ∈ sp_s s0 -> sp_set s0 = sp_set s -> exists ops1 ops2 w1 s1 e,
    ops ++ [o] = ops1 ++ End_ k :: ops2 /\ traced redaction ops1 w1 /\ tr_spans w1 !! k = Some (Some s1) /\
    sp_set s1 = sp_set s /\ sp_err s1 = Some e /\ m = (scrub_in (sp_set s) (er_Error e) (tr_sets w1)).2).
  { intros s0 Hs0 Hc0 Heq. destruct (IH k s0 c m Hs0 Hc0 He Hm) as (ops1 & ops2 & w1 & s1 & e & -> & H).
    rewrite Heq in H. exists ops1, (ops2 ++ [o]), w1, s1, e. split; [by rewrite <- app_assoc|done]. }
  assert (Hcall : forall s0 c0, c ∈ sp_s s0 ++ [c0] -> (forall m', exports c0 m' -> False) -> c ∈ sp_s s0).
  { intros s0 c0 [?|Hc0%list_elem_of_singleton]%elem_of_app Hn; [done|]. subst c0. by destruct (Hn m). }
  destruct o as [cx r values|i|cx name opts|k' n|k' a|k' ty e|k']; cbn [step on_span tr_spans] in Hs.
  - eapply Hold; [|done|done]. by destruct (cx_set cx).
  - by eapply Hold.
  - apply lookup_app_Some in Hs as [Hs|[_ Hs]]; [by eapply Hold|]. apply list_lookup_singleton_Some in Hs as [_ Hs].
    unfold tracer_Start in Hs. destruct (_ && _); [done|]. injection Hs as <-. cbn in Hc. apply list_elem_of_singleton in Hc as ->.
    by destruct He as [?|(? & ? & ? & _)].
  - apply alter_span in Hs as (s0 & Hs0 & [->|[_ ->]]); [by eapply Hold|]. eapply Hold; [done| |done].
    eapply Hcall; [exact Hc|]. intros m' [?|(? & ? & ? & _)]; done.
  - apply alter_span in Hs as (s0 & Hs0 & [->|[_ ->]]); [by eapply Hold|]. eapply Hold; [done| |done].
    eapply Hcall; [exact Hc|]. intros m' [?|(? & ? & ? & _)]; done.
  - apply alter_span in Hs as (s0 & Hs0 & [->|[_ ->]]); by eapply Hold.
  - destruct (tr_spans w !! k') as [[s0|]|] eqn:E; [|by eapply Hold..].
    pose proof (span_End_set s0 (tr_sets w)) as Hset. pose proof (span_End_exports s0 (tr_sets w) c m) as Hx.
    destruct (span_End s0 (tr_sets w)) as [h s1]. cbn [snd tr_spans] in *.
    apply list_lookup_insert_Some in Hs as [(<- & [= <-] & _)|[_ Hs]]; [|by eapply Hold].
    destruct (Hx Hc He Hm) as [Hc0|(e & Herr & ->)]; [by eapply Hold|].
    exists ops, [], w, s0, e. rewrite Hset. split_and!; done.
Qed.

(** The failure a span holds is one it was given. *)
Lemma held_failure ops w k s e :
  traced redaction ops w -> tr_spans w !! k = Some (Some s) -> sp_err s = Some e -> exists ty, Fail_ k ty (Some e) ∈ ops.
Proof.
  intros Ht. revert k s. induction Ht as [|ops w o Ht IH Ho]; intros k s Hs He; [done|].
  assert (Hold : forall s0, tr_spans w !! k = Some (Some s0) -> sp_err s0 = Some e -> exists ty, Fail_ k ty (Some e) ∈ ops ++ [o]).
  { intros s0 Hs0 He0. destruct (IH k s0 Hs0 He0) as [ty ?]. exists ty. apply elem_of_app. by left. }
  destruct o as [cx r values|i|cx name opts|k' n|k' a|k' ty e'|k']; cbn [step on_span tr_spans] in Hs.
  - eapply Hold; [|done]. by destruct (cx_set cx).
  - by eapply Hold.
  - apply lookup_app_Some in Hs as [Hs|[_ Hs]]; [by eapply Hold|]. apply list_lookup_singleton_Some in Hs as [_ Hs].
    unfold tracer_Start in Hs. destruct (_ && _); [done|]. by injection Hs as <-.
  - apply alter_span in Hs as (s0 & Hs0 & [->|[_ ->]]); by eapply Hold.
  - apply alter_span in Hs as (s0 & Hs0 & [->|[_ ->]]); by eapply Hold.
  - apply alter_span in Hs as (s0 & Hs0 & [->|[<- ->]]); [by eapply Hold|]. cbn in He. subst e'. exists ty. apply elem_of_app. right. by left.
  - destruct (tr_spans w !! k') as [[s0|]|] eqn:E; [|by eapply Hold..].
    assert (sp_err (span_End s0 (tr_sets w)).2 = sp_err s0) as Hkeep.
    { unfold span_End. destruct (sp_failed s0), (sp_err s0) as [x|] eqn:Ex; cbn; try done. by destruct (scrub_in _ _ _). }
    destruct (span_End s0 (tr_sets w)) as [h s1]. cbn [snd tr_spans] in *.
    apply list_lookup_insert_Some in Hs as [(<- & [= <-] & _)|[_ Hs]]; [|by eapply Hold]. eapply Hold; [done|]. congruence.
Qed.

(** C30. What a trace says about a failure is scrubbed. Whatever the process does,
    in whatever order it starts, fails and ends spans and declares values: the
    text a span with a set exports about a failure is that of an error the span
    was failed with, scrubbed by the span's set as it was when the span ended.
    Of that text only bytes kept and the masks of declared values leave: each
    masked piece is a value of the set or of one above it, shown as its
    strongest rule shows it, and every occurrence of a value declared until
    then (of its rule's length or longer), also after the failure, in the
    request's set or the process's above it, is ruled at least as strongly as it
    was declared and overlaps a masked piece. *)
Theorem span_errors_masked (ops : list op) (w : Tracing) (k i : nat) (s : span) (c : otel_call) (m : string) :
  traced redaction ops w -> tr_spans w !! k = Some (Some s) -> sp_set s = Some i -> c ∈ sp_s s -> exports c m -> m <> "" ->
  exists ops1 ops2 w1 ty e ps, ops = ops1 ++ End_ k :: ops2 /\ traced redaction ops1 w1 /\ Fail_ k ty (Some e) ∈ ops1 /\
    m = (Scrub i (er_Error e) (tr_sets w1)).2 /\
    flat (map piece_in ps) = er_Error e /\ flat (map piece_out ps) = m /\
    (forall v x, In (Masked v x) ps -> exists r, masks (tr_sets w1) i !! v = Some r /\ x = Mask r v) /\
    (forall cx r values j v, DeclareIn cx r values ∈ ops1 -> cx_set cx = Some j -> above (tr_sets w1) j i ->
       v ∈ values -> v <> "" -> (minLen r <= String.length v)%nat ->
       at_least r (masks (tr_sets w1) i !! v) /\ covered v (er_Error e) ps).
Proof.
  intros Ht Hs Hi Hc He Hm. destruct (exported_at_end _ _ _ _ _ _ Ht Hs Hc He Hm) as (ops1 & ops2 & w1 & s1 & e & -> & Ht1 & Hs1 & Hset & Herr & ->).
  destruct (traced_ok _ _ _ Ht1) as (Hr & Hk & _). pose proof (reachable_ok _ Hr) as Hok. rewrite Hi in *.
  destruct (Scrub_pieces (tr_sets w1) i (er_Error e) Hok (Hk _ _ _ Hs1 Hset)) as (ps & H1 & H2 & H3 & H4).
  destruct (held_failure _ _ _ _ _ Ht1 Hs1 Herr) as [ty Hty]. exists ops1, ops2, w1, ty, e, ps. split_and!; [done..|].
  intros cx r values j v Hd Hj Ha Hv Hne Hl. destruct (declared_masked _ _ _ _ _ _ _ _ Ht1 Hd Hj Hv Hne Hl) as [_ Hat].
  pose proof (above_masks _ _ _ _ _ Hok Ha Hat) as Hi'. split; [done|]. destruct Hi' as (q & Hq & _). by apply (H4 v q).
Qed.
End Exports.

(** ** A request *)

Module SpanExample.

Definition started : Tracing := mkTracing [NewSet] [].

Lemma traced_run redaction ops :
  known started redaction ->
  (forall n o, ops !! n = Some o -> names_known (foldl (step redaction) started (take n ops)) o) ->
  traced redaction ops (foldl (step redaction) started ops).
Proof.
  intros Hr. induction ops as [|o ops IH] using rev_ind; intros Hn; [by constructor|].
  rewrite foldl_app. cbn. constructor.
  - apply IH. intros n o' Ho. pose proof (lookup_lt_Some _ _ _ Ho). specialize (Hn n o'). rewrite lookup_app_l, take_app_le in Hn by lia. by apply Hn.
  - specialize (Hn (length ops) o). rewrite lookup_app_r, Nat.sub_diag, take_app_length in Hn by lia. by apply Hn.
Qed.

(** A token request that fails before it declares the code it was given, next to
    background work, which starts no trace of its own. *)
Definition in_request : Ctx := mkCtx true (Some 1%nat).
Definition request_ops : list op := [
  DeclareIn (mkCtx false (Some 0%nat)) Secret ["s3cret-key"]; ChildOf 0;
  Start (mkCtx false (Some 1%nat)) "POST" [AsRoot; WithSpanKind SpanKindServer];
  Fail_ 0 "500" (Some (mkErr "*errors.errorString" "db: code-1234 refused s3cret-key"));
  DeclareIn in_request Secret ["code-1234"];
  SetName 0 "POST /token"; End_ 0;
  Start (mkCtx false None) "reap" []; SetName 1 "reap"; End_ 1].

Definition request_world : Tracing := foldl (step (Some 0%nat)) started request_ops.

Example request_exported : tr_spans request_world = [
  Some (mkSpan [OtelStart "POST" SpanKindServer [] true; OtelSetName "POST /token";
                OtelSetAttributes [mkAttr "error.type" (AString "500")];
                OtelAddEvent "exception" [mkAttr "exception.type" (AString "*errors.errorString");
                                          mkAttr "exception.message" (AString "db: [REDACTED] refused [REDACTED]")];
                OtelSetStatus "db: [REDACTED] refused [REDACTED]"; OtelEnd]
               (Some 1%nat) true "500" (Some (mkErr "*errors.errorString" "db: code-1234 refused s3cret-key"))); None].
Proof. vm_compute. reflexivity. Qed.

Lemma request_traced : traced (Some 0%nat) request_ops request_world.
Proof.
  apply traced_run; [intros i [= <-]; vm_compute; lia|].
  intros n o Ho. do 10 (destruct n as [|n]; [injection Ho as <-; cbn [names_known]; try done; intros i [= <-]; vm_compute; lia|]). done.
Qed.

Lemma span_errors_masked_witness : exists ps,
  flat (map piece_in ps) = "db: code-1234 refused s3cret-key" /\ flat (map piece_out ps) = "db: [REDACTED] refused [REDACTED]".
Proof.
  destruct (span_errors_masked (Some 0%nat) request_ops request_world 0 1
              (mkSpan [OtelStart "POST" SpanKindServer [] true; OtelSetName "POST /token";
                OtelSetAttributes [mkAttr "error.type" (AString "500")];
                OtelAddEvent "exception" [mkAttr "exception.type" (AString "*errors.errorString");
                                          mkAttr "exception.message" (AString "db: [REDACTED] refused [REDACTED]")];
                OtelSetStatus "db: [REDACTED] refused [REDACTED]"; OtelEnd]
               (Some 1%nat) true "500" (Some (mkErr "*errors.errorString" "db: code-1234 refused s3cret-key")))
              (OtelSetStatus "db: [REDACTED] refused [REDACTED]") "db: [REDACTED] refused [REDACTED]")
    as (ops1 & ops2 & w1 & ty & e & ps & Hops & _ & Hf & _ & H1 & H2 & _).
  - apply request_traced.
  - vm_compute. reflexivity.
  - reflexivity.
  - cbn. set_solver.
  - left. reflexivity.
  - discriminate.
  - exists ps. split; [|exact H2]. rewrite H1.
    assert (Fail_ 0 ty (Some e) ∈ request_ops) as Hin by (rewrite Hops; apply elem_of_app; by left).
    unfold request_ops in Hin. set_unfold in Hin. destruct_or?; simplify_eq. reflexivity.
Defined.

Example tracing_env : forall exp : string,
  newProviderFx (inr exp) (inr exp) None None (fun k => if (k =? "OTEL_TRACES_EXPORTER")%string then " otlp " else "") (Some 0%nat) =
    inr (mkProvider (Some exp) (Some 0%nat)) /\
  (exists e, newProviderFx (inr exp) (inr exp) None None (fun k => if (k =? "OTEL_TRACES_EXPORTER")%string then "jaeger" else "") None = inl e).
Proof. intros exp. split; [reflexivity|eexists; reflexivity]. Qed.

End SpanExample.
