(* ===== verification/Perms.v ===== *)
(** * perms: what a token may do, and its wire form

    Models perms/perms.go: roles, [Grant] (one role per namespace, the highest
    given), [Merge], [ToClaim], [ParseClaim], [ParseConfig] and [Grantable]. A
    [Role] is a Go string, so it may be any string; [Role_Valid] tells the four
    canonical ones. A [*Grant] may be nil: [option Grant]. *)

From S2P Require Import Prelude GoStrings GoErrors.

Abbreviation Role := string (only parsing).
Abbreviation Grant := (gmap string string) (only parsing).

Definition RoleRead : Role := "read".
Definition RoleWrite : Role := "write".
Definition RoleWorker : Role := "worker".
Definition RoleAdmin : Role := "admin".

Definition SystemNamespace : string := "temporal-system".
Definition Wildcard : string := "*".

(** The map [roleBits]: Temporal's role bitmask. *)
Definition roleBits : gmap string Z :=
  list_to_map [(RoleWorker, 1); (RoleRead, 2); (RoleWrite, 4); (RoleAdmin, 8)].

(** [roleBits[r]]: a missing key reads as the zero value. *)
Definition bits (r : Role) : Z := default 0 (roleBits !! r).

Definition Role_Valid (r : Role) : bool := bool_decide (is_Some (roleBits !! r)).

Definition Grantable (namespace : string) (role : Role) : option error :=
  if (namespace =? Wildcard)%string then Some (Sentinel ErrWildcardNamespace)
  else if (role =? RoleWorker)%string then Some (Sentinel ErrWorkerRole)
  else None.

(** ** Building grants *)

Definition grant_add (g : Grant) (namespace : string) (role : Role) : Grant :=
  match g !! namespace with
  | Some cur => if bits cur <? bits role then <[namespace := role]> g else g
  | None => <[namespace := role]> g
  end.

Definition Option_ := Grant -> Grant.

Definition New (opts : list Option_) : Grant := foldl (fun g o => o g) ∅ opts.

Definition AddNamespace (namespace : string) (role : Role) : Option_ :=
  fun g => grant_add g namespace role.

Definition WithSystemRole (role : Role) : Option_ := AddNamespace SystemNamespace role.

Definition AddWildcard (role : Role) : Option_ := WithSystemRole role.

(** One pass of [for ns, role := range ...  out.add(ns, role)], over the pairs
    in the order the loop meets them. *)
Definition add_all (out : Grant) (pairs : list (string * Role)) : Grant :=
  foldl (fun o p => grant_add o p.1 p.2) out pairs.

Definition Merge (grants : list (option Grant)) : Grant :=
  foldl (fun out g =>
           match g with
           | None => out
           | Some m => add_all out (map_to_list m)
           end) (New []) grants.

Definition Empty (g : option Grant) : bool :=
  match g with
  | None => true
  | Some m => Nat.eqb (size m) 0
  end.

(** ** The wire form *)

Definition ns_le (p q : string * Role) : Prop := String.le p.1 q.1.

#[export] Instance ns_le_dec p q : Decision (ns_le p q).
Proof. unfold ns_le. apply _. Defined.

(** [g.Namespaces()]: the pairs by namespace, bytewise. *)
Definition Namespaces (g : option Grant) : list (string * Role) :=
  match g with
  | None => []
  | Some m => merge_sort ns_le (map_to_list m)
  end.

Definition entry (p : string * Role) : string := p.1 +:+ ":" +:+ p.2.

Definition ToClaim (g : option Grant) : list string := entry <$> Namespaces g.

(** The loop body of [ParseClaim]: one entry, or the error it stops with. *)
Definition parse_entry (e : string) : error + (string * Role) :=
  match CutLast e ":" with
  | None => inl (Errorf e (Sentinel ErrMalformedEntry))
  | Some (namespace, role) =>
      if (namespace =? "")%string then inl (Errorf e (Sentinel ErrEmptyNamespace))
      else if negb (Role_Valid role) then inl (Errorf e (Sentinel ErrInvalidRole))
      else inr (namespace, role)
  end.

Fixpoint parse_claim_loop (g : Grant) (claim : list string) : error + Grant :=
  match claim with
  | [] => inr g
  | e :: rest =>
      match parse_entry e with
      | inl err => inl err
      | inr (namespace, role) => parse_claim_loop (grant_add g namespace role) rest
      end
  end.

Definition ParseClaim (claim : list string) : error + Grant :=
  parse_claim_loop (New []) claim.

(** The second loop of [ParseConfig]: [Grantable] on every entry, which
    [ParseClaim] has found well formed. *)
Fixpoint grantable_loop (entries : list string) : option error :=
  match entries with
  | [] => None
  | e :: rest =>
      match CutLast e ":" with
      | None => None
      | Some (ns, role) =>
          match Grantable ns role with
          | Some err => Some (Errorf e err)
          | None => grantable_loop rest
          end
      end
  end.

Definition ParseConfig (entries : list string) : error + Grant :=
  let trimmed := TrimSpace <$> entries in
  match ParseClaim trimmed with
  | inl err => inl err
  | inr g =>
      match grantable_loop trimmed with
      | Some err => inl err
      | None => inr g
      end
  end.

(** ** What Temporal makes of a claim

    The default ClaimMapper ORs the bits of every entry of a namespace into one
    mask, and the default authorizer lets a call pass when the mask of the
    target namespace, ORed with the mask of [temporal-system], is numerically
    at least the bit the API needs (package comment of perms.go). *)
Definition temporal_mask (claim : list string) (ns : string) : Z :=
  foldr (fun e m =>
           match CutLast e ":" with
           | Some (n, r) => if (n =? ns)%string then Z.lor (bits r) m else m
           | None => m
           end) 0 claim.

Definition temporal_allows (claim : list string) (ns : string) (required : Z) : bool :=
  required <=? Z.lor (temporal_mask claim SystemNamespace) (temporal_mask claim ns).

(** The rank a grant gives a namespace: 0 for none. *)
Definition rank (g : Grant) (ns : string) : Z :=
  match g !! ns with Some r => bits r | None => 0 end.

(** Well-formed grants: what [ParseClaim] and the callers build. *)
Definition wf_pair (p : string * Role) : Prop := p.1 <> "" /\ Role_Valid p.2 = true.
Definition wf_grant (g : Grant) : Prop := map_Forall (fun ns r => wf_pair (ns, r)) g.

(** ** Facts *)

Lemma bits_cases r : bits r = 0 \/ bits r = 1 \/ bits r = 2 \/ bits r = 4 \/ bits r = 8.
Proof.
  unfold bits, roleBits. cbn [list_to_map foldr curry fst snd].
  rewrite !lookup_insert. repeat case_decide; naive_solver.
Qed.

Lemma bits_pos r : Role_Valid r = true -> 0 < bits r.
Proof.
  unfold Role_Valid, bits, roleBits. intros H%bool_decide_eq_true.
  revert H. cbn [list_to_map foldr curry fst snd]. rewrite !lookup_insert.
  repeat case_decide; cbn; intros [? ?]; simplify_eq; lia.
Qed.

Lemma bits_nonneg r : 0 <= bits r.
Proof. destruct (bits_cases r) as [->|[->|[->|[->| ->]]]]; lia. Qed.

Lemma bits_inj r r' : Role_Valid r = true -> bits r = bits r' -> r = r'.
Proof.
  unfold Role_Valid, bits, roleBits. intros H%bool_decide_eq_true.
  revert H. cbn [list_to_map foldr curry fst snd]. rewrite !lookup_insert.
  repeat case_decide; cbn; intros [? ?]; simplify_eq; intros; simplify_eq; done.
Qed.

Lemma rank_grant_add g ns r ns' :
  rank (grant_add g ns r) ns' = if decide (ns = ns') then Z.max (rank g ns') (bits r) else rank g ns'.
Proof.
  unfold rank, grant_add. case_decide as Heq; [subst ns'|].
  - destruct (g !! ns) as [cur|] eqn:E.
    + destruct (bits cur <? bits r) eqn:L; solve_bool.
      * rewrite lookup_insert_eq. lia.
      * rewrite E. lia.
    + rewrite lookup_insert_eq. pose proof (bits_nonneg r). lia.
  - destruct (g !! ns) as [cur|]; [destruct (bits cur <? bits r)|];
      rewrite ?lookup_insert_ne by done; done.
Qed.

(** The largest rank a list of pairs gives [ns]. *)
Definition pairs_rank (pairs : list (string * Role)) (ns : string) : Z :=
  foldr (fun p m => if decide (p.1 = ns) then Z.max (bits p.2) m else m) 0 pairs.

Lemma pairs_rank_cons p ps ns :
  pairs_rank (p :: ps) ns
  = if decide (p.1 = ns) then Z.max (bits p.2) (pairs_rank ps ns) else pairs_rank ps ns.
Proof. done. Qed.

Lemma pairs_rank_nonneg pairs ns : 0 <= pairs_rank pairs ns.
Proof.
  induction pairs as [|p ps IH]; [done|]. rewrite pairs_rank_cons. case_decide; lia.
Qed.

Lemma rank_nonneg g ns : 0 <= rank g ns.
Proof. unfold rank. destruct (g !! ns) as [r|]; [apply bits_nonneg|lia]. Qed.

Lemma pairs_rank_app ps qs ns :
  pairs_rank (ps ++ qs) ns = Z.max (pairs_rank ps ns) (pairs_rank qs ns).
Proof.
  induction ps as [|p ps IH].
  - pose proof (pairs_rank_nonneg qs ns). cbn [app]. unfold pairs_rank at 2. cbn. lia.
  - cbn [app]. rewrite !pairs_rank_cons, IH. case_decide; lia.
Qed.

Lemma rank_add_all out pairs ns :
  rank (add_all out pairs) ns = Z.max (rank out ns) (pairs_rank pairs ns).
Proof.
  revert out. induction pairs as [|p ps IH]; intros out.
  - pose proof (rank_nonneg out ns). cbn. lia.
  - change (add_all out (p :: ps)) with (add_all (grant_add out p.1 p.2) ps).
    rewrite IH, rank_grant_add, pairs_rank_cons.
    repeat case_decide; try congruence; lia.
Qed.

#[export] Instance pairs_rank_proper :
  Proper ((≡ₚ) ==> eq ==> eq) pairs_rank.
Proof.
  intros ps qs Hp ns ? <-.
  induction Hp; rewrite ?pairs_rank_cons; [done|by rewrite IHHp| |congruence].
  repeat case_decide; lia.
Qed.

Lemma pairs_rank_map (m : Grant) ns : pairs_rank (map_to_list m) ns = rank m ns.
Proof.
  induction m as [|k r m Hk IH] using map_ind.
  - unfold rank. by rewrite map_to_list_empty.
  - rewrite map_to_list_insert, pairs_rank_cons, IH by done. cbn. unfold rank.
    rewrite lookup_insert. case_decide; [subst|done].
    rewrite Hk. pose proof (bits_nonneg r). lia.
Qed.

Lemma Merge_snoc gs g :
  Merge (gs ++ [g])
  = match g with None => Merge gs | Some m => add_all (Merge gs) (map_to_list m) end.
Proof. unfold Merge. by rewrite foldl_app. Qed.

(** The rank of a union is the largest rank of its parts. *)
Definition max_rank (gs : list (option Grant)) (ns : string) : Z :=
  foldr (fun g m => match g with None => m | Some x => Z.max (rank x ns) m end) 0 gs.

Lemma max_rank_app gs hs ns : max_rank (gs ++ hs) ns = Z.max (max_rank gs ns) (max_rank hs ns).
Proof.
  assert (Hnn : forall l, 0 <= max_rank l ns).
  { induction l as [|[x|] l IH]; unfold max_rank in *; cbn; lia. }
  induction gs as [|g gs IH].
  - specialize (Hnn hs). cbn [app]. unfold max_rank at 2. cbn. lia.
  - unfold max_rank in *. cbn. destruct g; lia.
Qed.

Lemma rank_Merge gs ns : rank (Merge gs) ns = max_rank gs ns.
Proof.
  induction gs as [|g gs IH] using rev_ind; [done|].
  rewrite Merge_snoc, max_rank_app, <- IH.
  pose proof (rank_nonneg (Merge gs) ns) as Hn.
  destruct g as [m|]; unfold max_rank; cbn.
  - rewrite rank_add_all, pairs_rank_map. pose proof (rank_nonneg m ns). lia.
  - lia.
Qed.

Lemma rank_pos_lookup g ns : 0 < rank g ns -> is_Some (g !! ns).
Proof. unfold rank. destruct (g !! ns); [eauto|lia]. Qed.

(** A well-formed grant is determined by its ranks. *)
Lemma wf_rank_ext g h :
  wf_grant g -> wf_grant h -> (forall ns, rank g ns = rank h ns) -> g = h.
Proof.
  intros Hg Hh Hr. apply map_eq. intros ns. specialize (Hr ns). unfold rank in Hr.
  destruct (g !! ns) as [r|] eqn:Eg, (h !! ns) as [r'|] eqn:Eh; [| | |done].
  - apply Hg in Eg as [_ Hv]. f_equal. by apply bits_inj.
  - apply Hg in Eg as [_ Hv%bits_pos]. cbn in Hv. lia.
  - apply Hh in Eh as [_ Hv%bits_pos]. cbn in Hv. lia.
Qed.

Lemma wf_grant_add g ns r : wf_grant g -> wf_pair (ns, r) -> wf_grant (grant_add g ns r).
Proof.
  intros Hg Hp. unfold grant_add.
  destruct (g !! ns); [destruct (_ <? _); [|done]|]; by apply map_Forall_insert_2.
Qed.

Lemma wf_add_all out pairs :
  wf_grant out -> Forall wf_pair pairs -> wf_grant (add_all out pairs).
Proof.
  intros Ho Hp. revert out Ho. induction Hp as [|[n r] ps Hp Hps IH]; intros out Ho; [done|].
  apply IH. by apply wf_grant_add.
Qed.

Lemma wf_pairs_of_grant g : wf_grant g -> Forall wf_pair (map_to_list g).
Proof.
  intros Hg. apply Forall_forall. intros [n r] Hin%elem_of_map_to_list. by apply Hg.
Qed.

Definition wf_opt (g : option Grant) : Prop :=
  match g with None => True | Some m => wf_grant m end.

Lemma wf_Merge gs : Forall wf_opt gs -> wf_grant (Merge gs).
Proof.
  induction gs as [|g gs IH] using rev_ind; [done|].
  intros [Hgs Hg]%Forall_app. apply Forall_inv in Hg. rewrite Merge_snoc.
  destruct g as [m|]; [|by apply IH].
  apply wf_add_all; [by apply IH|apply wf_pairs_of_grant; exact Hg].
Qed.

Lemma lookup_grant_add_inv g ns r ns' r' :
  grant_add g ns r !! ns' = Some r' -> g !! ns' = Some r' \/ (ns' = ns /\ r' = r).
Proof.
  unfold grant_add. destruct (g !! ns); [destruct (_ <? _)|];
    rewrite ?lookup_insert; repeat case_decide; naive_solver.
Qed.

Lemma lookup_add_all_inv out pairs ns r :
  add_all out pairs !! ns = Some r -> out !! ns = Some r \/ (ns, r) ∈ pairs.
Proof.
  revert out. induction pairs as [|[n r0] ps IH]; intros out; [by left|].
  intros [H|H]%(IH (grant_add out n r0)).
  - apply lookup_grant_add_inv in H as [H|[-> ->]]; [by left|right; set_solver].
  - right. set_solver.
Qed.

(** The namespaces of the result are exactly those given. *)
Lemma dom_add_all out pairs ns :
  is_Some (add_all out pairs !! ns) <-> is_Some (out !! ns) \/ exists r, (ns, r) ∈ pairs.
Proof.
  revert out. induction pairs as [|[n r0] ps IH]; intros out.
  - cbn. split; [by left|]. intros [H|[r H]]; [done|set_solver].
  - change (add_all out ((n, r0) :: ps)) with (add_all (grant_add out n r0) ps).
    rewrite IH. unfold grant_add. split.
    + intros [[r Hr]|[r Hr]]; [|right; exists r; set_solver].
      apply (lookup_grant_add_inv out n r0) in Hr as [Hr|[-> ->]]; [by left; exists r|].
      right. exists r0. set_solver.
    + intros [[r Hr]|[r [[= -> ->]|Hr]%elem_of_cons]].
      * left. destruct (out !! n); [destruct (_ <? _)|]; rewrite ?lookup_insert;
          repeat case_decide; eauto.
      * left. destruct (out !! n) eqn:E; [destruct (_ <? _)|]; rewrite ?lookup_insert_eq; eauto.
      * right. eauto.
Qed.

(** ** The two directions of the wire form *)

Lemma Role_Valid_no_colon r : Role_Valid r = true -> ContainsByte r ":" = false.
Proof.
  unfold Role_Valid, roleBits. intros H%bool_decide_eq_true. revert H.
  cbn [list_to_map foldr curry fst snd]. rewrite !lookup_insert.
  repeat case_decide; subst; try done. by intros [? ?].
Qed.

Lemma parse_entry_spec e ns r :
  parse_entry e = inr (ns, r) <-> e = entry (ns, r) /\ wf_pair (ns, r).
Proof.
  unfold parse_entry, entry, wf_pair. cbn [fst snd].
  destruct (CutLast e ":") as [[a b]|] eqn:E.
  - apply CutLast_Some in E as [-> Hb].
    destruct (a =? "")%string eqn:Ea; [|destruct (Role_Valid b) eqn:Ev]; cbn; solve_bool.
    + split; [done|]. intros [He [Hn Hv]]. subst a. cbn in *.
      exfalso. assert (CutLast (":" +:+ b) ":" = Some (ns, r)) as Hc.
      { apply CutLast_Some. split; [done|by apply Role_Valid_no_colon]. }
      assert (CutLast (":" +:+ b) ":" = Some ("", b)) by (by apply CutLast_Some). congruence.
    + split; [intros [= <- <-]; done|]. intros [He [Hn Hv]].
      assert (CutLast (a +:+ ":" +:+ b) ":" = Some (ns, r)) as Hc.
      { apply CutLast_Some. split; [done|by apply Role_Valid_no_colon]. }
      assert (CutLast (a +:+ ":" +:+ b) ":" = Some (a, b)) by (by apply CutLast_Some). congruence.
    + split; [done|]. intros [He [Hn Hv]].
      assert (CutLast (a +:+ ":" +:+ b) ":" = Some (ns, r)) as Hc.
      { apply CutLast_Some. split; [done|by apply Role_Valid_no_colon]. }
      assert (CutLast (a +:+ ":" +:+ b) ":" = Some (a, b)) by (by apply CutLast_Some). congruence.
  - split; [done|]. intros [-> _]. apply CutLast_None in E.
    rewrite ContainsByte_app in E. cbn in E. by rewrite orb_true_r in E.
Qed.

Lemma parse_claim_loop_spec g claim g' :
  parse_claim_loop g claim = inr g' <->
  exists pairs, claim = entry <$> pairs /\ Forall wf_pair pairs /\ g' = add_all g pairs.
Proof.
  revert g. induction claim as [|e claim IH]; intros g; cbn.
  - split; [intros [= <-]; by exists []|]. by intros ([|] & ? & ? & ->).
  - destruct (parse_entry e) as [err|[n r]] eqn:E.
    + split; [done|]. intros ([|[n r] ps] & Heq & Hall & _); [done|].
      injection Heq as -> ->. apply Forall_cons in Hall as [Hp _].
      assert (parse_entry (entry (n, r)) = inr (n, r)) by (by apply parse_entry_spec). congruence.
    + apply parse_entry_spec in E as [-> Hp]. rewrite IH. split.
      * intros (ps & -> & Hps & ->). exists ((n, r) :: ps). split_and!; [done|by constructor|done].
      * intros ([|[n' r'] ps] & Heq & Hall & ->); [done|].
        injection Heq as He ->. apply Forall_cons in Hall as [Hp' Hps].
        assert (parse_entry (entry (n, r)) = inr (n, r)) as H1 by (by apply parse_entry_spec).
        rewrite He in H1.
        assert (parse_entry (entry (n', r')) = inr (n', r')) as H2 by (by apply parse_entry_spec).
        assert ((n, r) = (n', r')) as [= -> ->] by congruence. by exists ps.
Qed.

Lemma Namespaces_perm g : Namespaces (Some g) ≡ₚ map_to_list g.
Proof. apply merge_sort_Permutation. Qed.

Lemma add_all_perm_wf (g : Grant) pairs :
  wf_grant g -> pairs ≡ₚ map_to_list g -> add_all ∅ pairs = g.
Proof.
  intros Hg Hp. apply wf_rank_ext; [|done|].
  - apply wf_add_all; [apply map_Forall_empty|]. rewrite Hp. by apply wf_pairs_of_grant.
  - intros ns. rewrite rank_add_all, Hp, pairs_rank_map.
    unfold rank at 1. rewrite lookup_empty. pose proof (rank_nonneg g ns). lia.
Qed.

Lemma ParseClaim_spec claim g :
  ParseClaim claim = inr g <->
  exists pairs, claim = entry <$> pairs /\ Forall wf_pair pairs /\ g = add_all ∅ pairs.
Proof. apply parse_claim_loop_spec. Qed.

(** A grant that is not empty puts something in the claim. *)
Lemma ToClaim_nonempty (g : option Grant) : Empty g = false -> ToClaim g <> [].
Proof.
  destruct g as [m|]; [|done]. cbn. intros Hs%Nat.eqb_neq He. apply fmap_nil_inv in He.
  pose proof (merge_sort_Permutation ns_le (map_to_list m)) as Hp. rewrite He in Hp.
  apply Permutation_nil_l in Hp. symmetry in Hp. apply map_to_list_empty_iff in Hp as ->. by apply Hs.
Qed.

(** [ParseClaim] inverts [ToClaim]: a grant whose namespaces are non-empty
    and whose roles are canonical is read back from its claim exactly, also
    when a namespace itself contains a colon. *)
Theorem ParseClaim_ToClaim (g : Grant) :
  wf_grant g -> ParseClaim (ToClaim (Some g)) = inr g.
Proof.
  intros Hg. apply ParseClaim_spec. exists (Namespaces (Some g)). split_and!; [done| |].
  - rewrite Namespaces_perm. by apply wf_pairs_of_grant.
  - symmetry. apply add_all_perm_wf; [done|]. apply Namespaces_perm.
Qed.

Definition g_example : Grant :=
  New [AddNamespace "a:b" RoleRead; WithSystemRole RoleAdmin; AddNamespace "a:b" RoleWrite].

Lemma ParseClaim_ToClaim_witness :
  ToClaim (Some g_example) = ["a:b:write"; "temporal-system:admin"] /\
  ParseClaim (ToClaim (Some g_example)) = inr g_example.
Proof.
  split; [vm_compute; reflexivity|].
  apply (ParseClaim_ToClaim g_example).
  apply map_Forall_to_list. vm_compute. repeat constructor; discriminate.
Defined.

(** Strict bytewise order on the namespaces of two pairs. *)
Definition ns_lt (p q : string * Role) : Prop := ns_le p q /\ p.1 <> q.1.

Lemma ns_le_trans : Transitive ns_le.
Proof. intros p q r. unfold ns_le. apply (transitivity (R := String.le)). Qed.

Lemma ns_le_total : Total ns_le.
Proof. intros p q. apply (total String.le). Qed.

(** A claim is canonical: its entries are the grant's pairs in strictly
    increasing namespace order, hence no namespace is named twice, and the
    entries do not depend on the order the map was iterated in. *)
Theorem ToClaim_canonical (g : Grant) (pairs : list (string * Role)) :
  pairs ≡ₚ map_to_list g ->
  ToClaim (Some g) = entry <$> merge_sort ns_le pairs /\
  StronglySorted ns_lt (Namespaces (Some g)) /\
  (forall ns r, (ns, r) ∈ Namespaces (Some g) <-> g !! ns = Some r).
Proof.
  intros Hp.
  assert (Hfst : NoDup (map_to_list g).*1) by apply NoDup_fst_map_to_list.
  assert (Hns : Namespaces (Some g) ≡ₚ map_to_list g) by apply Namespaces_perm.
  split_and!.
  - unfold ToClaim. f_equal. cbn. apply (StronglySorted_unique_strong ns_le).
    + intros [a r] [b r'] Ha Hb H1 H2.
      rewrite merge_sort_Permutation in Ha, Hb. rewrite Hp in Hb.
      assert (a = b) as -> by (by apply (anti_symm String.le)).
      f_equal. apply elem_of_map_to_list in Ha, Hb. congruence.
    + apply StronglySorted_merge_sort; [apply ns_le_trans|apply ns_le_total].
    + apply StronglySorted_merge_sort; [apply ns_le_trans|apply ns_le_total].
    + rewrite !merge_sort_Permutation. by symmetry.
  - assert (Hs : StronglySorted ns_le (Namespaces (Some g))).
    { apply StronglySorted_merge_sort; [apply ns_le_trans|apply ns_le_total]. }
    rewrite <- Hns in Hfst. revert Hs Hfst. generalize (Namespaces (Some g)).
    induction l as [|p l IH]; intros Hs Hd; [constructor|].
    apply StronglySorted_inv in Hs as [Hs Hall]. cbn in Hd.
    apply NoDup_cons in Hd as [Hnin Hd]. constructor; [by apply IH|].
    apply Forall_forall. intros q Hq. split.
    + by eapply Forall_forall in Hall.
    + intros Heq. apply Hnin. rewrite Heq. by apply list_elem_of_fmap_2.
  - intros ns r. rewrite Hns. apply elem_of_map_to_list.
Qed.

Lemma ToClaim_canonical_witness :
  ToClaim (Some g_example) = entry <$> merge_sort ns_le (rev (map_to_list g_example)) /\
  StronglySorted ns_lt (Namespaces (Some g_example)).
Proof.
  destruct (ToClaim_canonical g_example (rev (map_to_list g_example))) as (H1 & H2 & _).
  - symmetry. apply Permutation_rev.
  - split; [exact H1|exact H2].
Defined.

Lemma max_rank_perm gs hs ns : gs ≡ₚ hs -> max_rank gs ns = max_rank hs ns.
Proof.
  unfold max_rank. induction 1 as [|g l l' Hp IH|g h l|]; cbn; [done|by rewrite IH| |congruence].
  destruct g, h; lia.
Qed.

Lemma dom_Merge gs ns :
  is_Some (Merge gs !! ns) <-> exists m, Some m ∈ gs /\ is_Some (m !! ns).
Proof.
  induction gs as [|g gs IH] using rev_ind.
  - cbn. rewrite lookup_empty. split; [by intros [? ?]|]. intros (m & Hm & _). set_solver.
  - rewrite Merge_snoc. setoid_rewrite elem_of_app. setoid_rewrite list_elem_of_singleton.
    destruct g as [m|].
    + rewrite dom_add_all, IH. setoid_rewrite elem_of_map_to_list.
      unfold is_Some. naive_solver.
    + rewrite IH. naive_solver.
Qed.

(** [Merge] is the least upper bound of the grants it is given: each
    namespace gets exactly the highest role rank any of them gives it (no
    namespace appears from nowhere, none is lost), and the result depends
    neither on the order of the arguments nor on nil arguments. *)
Theorem Merge_least_upper_bound (gs hs : list (option Grant)) :
  Forall wf_opt gs -> hs ≡ₚ gs ->
  (forall ns, rank (Merge gs) ns = max_rank gs ns) /\
  (forall ns, is_Some (Merge gs !! ns) <-> exists m, Some m ∈ gs /\ is_Some (m !! ns)) /\
  Merge hs = Merge gs /\ Merge (None :: gs) = Merge gs.
Proof.
  intros Hwf Hp. split_and!; [apply rank_Merge|apply dom_Merge| |done].
  apply wf_rank_ext; [apply wf_Merge; by rewrite Hp|by apply wf_Merge|].
  intros ns. rewrite !rank_Merge. by apply max_rank_perm.
Qed.

Definition g_example2 : Grant := New [AddNamespace "a:b" RoleAdmin; AddNamespace "c" RoleRead].

Lemma Merge_least_upper_bound_witness :
  Merge [Some g_example; None; Some g_example2] = Merge [None; Some g_example2; Some g_example]
  /\ Merge [Some g_example; None; Some g_example2] !! "a:b" = Some RoleAdmin.
Proof.
  split; [|vm_compute; reflexivity].
  apply (Merge_least_upper_bound [None; Some g_example2; Some g_example]).
  - apply Forall_cons; split; [exact I|]. apply Forall_cons; split.
    { apply map_Forall_to_list. vm_compute. repeat constructor; discriminate. }
    apply Forall_cons; split; [|constructor].
    apply map_Forall_to_list. vm_compute. repeat constructor; discriminate.
  - change [None; Some g_example2; Some g_example]
      with ([None; Some g_example2] ++ [Some g_example]).
    rewrite Permutation_app_comm. done.
Defined.

(** ** Temporal's reading of a claim *)

Lemma lor_pow2_le k a b :
  0 <= k -> 0 <= a -> 0 <= b -> 2 ^ k <= Z.lor a b <-> 2 ^ k <= a \/ 2 ^ k <= b.
Proof.
  intros Hk Ha Hb. pose proof (Z.pow_pos_nonneg 2 k).
  destruct (Z.eq_dec a 0) as [->|Ha0]; [rewrite Z.lor_0_l; lia|].
  destruct (Z.eq_dec b 0) as [->|Hb0]; [rewrite Z.lor_0_r; lia|].
  assert (0 < Z.lor a b).
  { assert (0 <= Z.lor a b) by (by apply Z.lor_nonneg).
    assert (Z.lor a b <> 0) by (rewrite Z.lor_eq_0_iff; lia). lia. }
  rewrite !Z.log2_le_pow2 by lia. rewrite Z.log2_lor by lia. lia.
Qed.

Definition api_bit (b : Z) : Prop := exists k, 0 <= k /\ b = 2 ^ k.

Lemma temporal_mask_nonneg claim ns : 0 <= temporal_mask claim ns.
Proof.
  induction claim as [|e claim IH]; [done|]. unfold temporal_mask in *. cbn.
  destruct (CutLast e ":") as [[n r]|]; [|done]. destruct (_ =? _)%string; [|done].
  apply Z.lor_nonneg. split; [apply bits_nonneg|done].
Qed.

Lemma CutLast_entry ns r : Role_Valid r = true -> CutLast (entry (ns, r)) ":" = Some (ns, r).
Proof. intros Hr. apply CutLast_Some. split; [done|by apply Role_Valid_no_colon]. Qed.

Lemma mask_rank pairs ns b :
  Forall wf_pair pairs -> api_bit b ->
  b <= temporal_mask (entry <$> pairs) ns <-> b <= pairs_rank pairs ns.
Proof.
  intros Hwf (k & Hk & ->). induction Hwf as [|[n r] ps [_ Hr] Hps IH]; [done|].
  rewrite pairs_rank_cons. cbn [fst snd] in *.
  assert (Heq : temporal_mask (entry <$> (n, r) :: ps) ns
          = if (n =? ns)%string then Z.lor (bits r) (temporal_mask (entry <$> ps) ns)
            else temporal_mask (entry <$> ps) ns).
  { cbn. by rewrite CutLast_entry. }
  rewrite Heq. destruct (n =? ns)%string eqn:E; solve_bool; case_decide; try congruence; try done.
  rewrite lor_pow2_le, IH; [lia|done|apply bits_nonneg|apply temporal_mask_nonneg].
Qed.

(** Collapsing a claim to one entry per namespace does not change what it
    authorizes at Temporal: when a claim parses, then for every namespace and
    every role bit an API may require, the ORed bitmask of the original entries
    passes the check iff that of the canonical claim does. *)
Theorem claim_same_authority (claim : list string) (g : Grant) :
  ParseClaim claim = inr g ->
  forall ns b, api_bit b ->
    temporal_allows claim ns b = temporal_allows (ToClaim (Some g)) ns b.
Proof.
  intros (pairs & -> & Hwf & ->)%ParseClaim_spec ns b Hb.
  set (g := add_all ∅ pairs).
  assert (Hg : wf_grant g) by (by apply wf_add_all).
  assert (Heq : forall n, b <= temporal_mask (entry <$> pairs) n
                          <-> b <= temporal_mask (ToClaim (Some g)) n).
  { intros n. unfold ToClaim. rewrite !mask_rank; [|rewrite Namespaces_perm; by apply wf_pairs_of_grant|done..].
    rewrite Namespaces_perm, pairs_rank_map. unfold g. rewrite rank_add_all.
    unfold rank. rewrite lookup_empty. pose proof (pairs_rank_nonneg pairs n).
    by rewrite Z.max_r. }
  destruct Hb as (k & Hk & ->). unfold temporal_allows.
  apply eq_true_iff_eq. rewrite !Z.leb_le.
  rewrite !lor_pow2_le by (done || apply temporal_mask_nonneg). by rewrite !Heq.
Qed.

Lemma claim_same_authority_witness :
  let claim := ["orders:worker"; "orders:write"; "temporal-system:read"; "orders:read"] in
  exists g, ParseClaim claim = inr g /\
    temporal_allows claim "orders" 4 = temporal_allows (ToClaim (Some g)) "orders" 4 /\
    temporal_allows claim "orders" 4 = true /\ temporal_allows claim "other" 4 = false.
Proof.
  intros claim.
  assert (H : ParseClaim claim = inr (New [AddNamespace "orders" RoleWrite; WithSystemRole RoleRead]))
    by vm_dec.
  eexists. split; [exact H|]. split; [|split; vm_compute; reflexivity].
  apply (claim_same_authority claim _ H "orders" 4). exists 2. split; [lia|reflexivity].
Defined.

(** ** Operator-written permission lists *)

Lemma entries_inj ps qs :
  Forall wf_pair ps -> Forall wf_pair qs -> entry <$> ps = entry <$> qs -> ps = qs.
Proof.
  intros Hps. revert qs.
  induction Hps as [|[n r] ps [_ Hp] Hps IH]; intros [|[n' r'] qs] Hqs Heq; try done.
  injection Heq as H1 H2. apply Forall_cons in Hqs as [(_ & Hq) Hqs].
  assert (Some (n, r) = Some (n', r')) as [= -> ->].
  { rewrite <- (CutLast_entry n r), <- (CutLast_entry n' r') by done. by rewrite H1. }
  f_equal. by apply IH.
Qed.

Definition grantable_pair (p : string * Role) : Prop :=
  wf_pair p /\ p.1 <> Wildcard /\ p.2 <> RoleWorker.

Lemma grantable_loop_spec pairs :
  Forall wf_pair pairs ->
  grantable_loop (entry <$> pairs) = None <-> Forall grantable_pair pairs.
Proof.
  induction 1 as [|[n r] ps Hp Hps IH]; [done|]. cbn.
  rewrite CutLast_entry by apply Hp. unfold Grantable.
  destruct (n =? Wildcard)%string eqn:E1; solve_bool.
  { split; [done|]. intros [(_ & ? & _) _]%Forall_cons. done. }
  destruct (r =? RoleWorker)%string eqn:E2; solve_bool.
  { split; [done|]. intros [(_ & _ & ?) _]%Forall_cons. done. }
  rewrite IH, Forall_cons. unfold grantable_pair. naive_solver.
Qed.

(** [ParseConfig] accepts an operator's list exactly when every trimmed
    entry is [<namespace>:<role>] with a non-empty namespace other than the
    literal star and a canonical role other than worker (a worker entry is
    refused even beside a higher role), and the grant is the highest role per
    namespace of those entries. *)
Theorem ParseConfig_spec (entries : list string) (g : Grant) :
  ParseConfig entries = inr g <->
  exists pairs, (TrimSpace <$> entries) = entry <$> pairs
                /\ Forall grantable_pair pairs /\ g = add_all ∅ pairs.
Proof.
  unfold ParseConfig. destruct (ParseClaim (TrimSpace <$> entries)) as [e|g'] eqn:E.
  - split; [done|]. intros (ps & Heq & Hps & ->).
    assert (ParseClaim (TrimSpace <$> entries) = inr (add_all ∅ ps)); [|congruence].
    apply ParseClaim_spec. exists ps. split_and!; [done| |done].
    eapply Forall_impl; [done|]. by intros p [? _].
  - apply ParseClaim_spec in E as (ps & Heq & Hps & ->). rewrite Heq.
    destruct (grantable_loop _) as [e|] eqn:El.
    + split; [done|]. intros (qs & Heq' & Hqs & _).
      assert (ps = qs) as <-.
      { apply entries_inj; [done| |done]. eapply Forall_impl; [done|]. by intros p [? _]. }
      apply grantable_loop_spec in Hqs; [congruence|done].
    + apply grantable_loop_spec in El; [|done]. split.
      * intros [= <-]. by exists ps.
      * intros (qs & Heq' & Hqs & ->). do 2 f_equal.
        apply entries_inj; [done| |done]. eapply Forall_impl; [done|]. by intros p [? _].
Qed.
