(* ===== verification/Authz.v ===== *)
(** * authz: which permissions a signed-in person gets

    Models authz/authz.go: the rule grammar ([parseRule], [Parse]) and the
    resolution of an identity ([Explain], [Resolve], [SystemRole]). *)

From S2P Require Import Prelude GoStrings GoErrors Perms.

(** [selectorKind] is a Go string; these are its constants. *)
Definition selectEmail : string := "email".
Definition selectDomain : string := "domain".
Definition selectGroup : string := "group".

Record Rule := mkRule {
  r_Index : Z;
  r_Raw : string;
  r_Grant : option Grant;
  r_kind : string;
  r_value : string
}.

Record Policy := mkPolicy {
  p_rules : list Rule;
  p_dflt : option Grant
}.

Record Explanation := mkExplanation {
  e_Email : string;
  e_Matched : list Rule;
  e_Default : bool;
  e_Grant : option Grant
}.

Section Authz.
Context `{Unicode}.

Definition Selector (r : Rule) : string := r_kind r +:+ ":" +:+ r_value r.

Definition matches (r : Rule) (email domain : string) : bool :=
  if (r_kind r =? selectEmail)%string then (r_value r =? email)%string
  else if (r_kind r =? selectDomain)%string then (r_value r =? domain)%string
  else false.

Definition invalid (raw why : string) : error :=
  Errorf (raw +:+ ": " +:+ why) (Sentinel ErrInvalidRule).

(** The selector check of [parseRule]: the error text, if any. *)
Definition check_selector (kind value : string) : option string :=
  if (kind =? selectEmail)%string then
    match Cut value "@" with
    | None => Some "not an email address"
    | Some (local, domain) =>
        if ((local =? "") || (domain =? "") || ContainsByte domain "@")%string
        then Some "not an email address" else None
    end
  else if (kind =? selectDomain)%string then
    if ((value =? "") || ContainsByte value "@")%string
    then Some "not an email domain" else None
  else if (kind =? selectGroup)%string then
    Some "group: rules are not supported yet; use email: or domain:"
  else Some "unknown selector; use email: or domain:".

Definition parseRule (i : Z) (raw : string) : error + Rule :=
  match Cut (TrimSpace raw) "=" with
  | None => inl (invalid raw "want <selector>=<namespace>:<role>[,...]")
  | Some (selector, permissions) =>
      match Cut (TrimSpace selector) ":" with
      | None => inl (invalid raw "selector must be email:<address> or domain:<domain>")
      | Some (kind, value) =>
          let k := ToLower (TrimSpace kind) in
          let v := ToLower (TrimSpace value) in
          match check_selector k v with
          | Some why => inl (invalid raw why)
          | None =>
              if (TrimSpace permissions =? "")%string
              then inl (invalid raw "grants nothing; list at least one <namespace>:<role>")
              else match ParseConfig (Split permissions ",") with
                   | inl _ => inl (invalid raw "invalid permissions")
                   | inr g => inr (mkRule i raw (Some g) k v)
                   end
          end
      end
  end.

(** The loop of [Parse] over the configured rules; [i] is the index. *)
Fixpoint parse_rules (i : Z) (rules : list string) : error + list Rule :=
  match rules with
  | [] => inr []
  | raw :: rest =>
      match parseRule i raw with
      | inl e => inl e
      | inr r => match parse_rules (i + 1) rest with
                 | inl e => inl e
                 | inr rs => inr (r :: rs)
                 end
      end
  end.

Definition Parse (rules : list string) (defaultPermissions : string) : error + Policy :=
  match parse_rules 0 rules with
  | inl e => inl e
  | inr rs =>
      if (TrimSpace defaultPermissions =? "")%string then inr (mkPolicy rs (Some (New [])))
      else match ParseConfig (Split defaultPermissions ",") with
           | inl e => inl (Errorf "authz: OIDC_AUTHZ_DEFAULT_PERMISSIONS" e)
           | inr g => inr (mkPolicy rs (Some g))
           end
  end.

Definition Configured (p : Policy) : bool :=
  negb (Nat.eqb (length (p_rules p)) 0) || negb (Empty (p_dflt p)).

Definition Default (p : Policy) : Grant := Merge [p_dflt p].

Definition emailDomain (email : string) : string :=
  match CutLast email "@" with
  | None => ""
  | Some (_, d) => d
  end.

(** [Explain]: the loop collects the matching rules in order. *)
Definition Explain (p : Policy) (email0 : string) : Explanation :=
  let email := ToLower (TrimSpace email0) in
  let domain := emailDomain email in
  let matched := List.filter (fun r => matches r email domain) (p_rules p) in
  let dflt := Nat.eqb (length matched) 0 in
  let grants := (r_Grant <$> matched) ++ (if dflt then [p_dflt p] else []) in
  mkExplanation email matched dflt (Some (Merge grants)).

(** The error of [Resolve] is always nil for static rules. *)
Definition Resolve (p : Policy) (email : string) : error + option Grant :=
  inr (e_Grant (Explain p email)).

Definition SystemRole (g : option Grant) : Role :=
  match List.find (fun np => (np.1 =? SystemNamespace)%string) (Namespaces g) with
  | Some np => np.2
  | None => ""
  end.

(** ** Well-formed policies *)

(** A grant an operator may write: not empty, every pair grantable. *)
Definition good_grant (g : Grant) : Prop :=
  g <> ∅ /\ map_Forall (fun ns r => grantable_pair (ns, r)) g.

Definition good_selector (kind value : string) : Prop :=
  (kind = selectEmail /\ exists local domain, value = local +:+ String "@" domain /\
     local <> "" /\ domain <> "" /\
     ContainsByte local "@" = false /\ ContainsByte domain "@" = false) \/
  (kind = selectDomain /\ value <> "" /\ ContainsByte value "@" = false).

Definition good_rule (r : Rule) : Prop :=
  good_selector (r_kind r) (r_value r) /\ exists g, r_Grant r = Some g /\ good_grant g.

Lemma check_selector_spec kind value :
  check_selector kind value = None <-> good_selector kind value.
Proof.
  unfold check_selector, good_selector.
  destruct (kind =? selectEmail)%string eqn:E1; solve_bool.
  { subst kind. destruct (Cut value "@") as [[l d]|] eqn:Ec.
    - apply Cut_Some in Ec as [-> Hl]. split.
      + destruct (l =? "")%string eqn:?, (d =? "")%string eqn:?, (ContainsByte d "@") eqn:?;
          try done; solve_bool. intros _. left. split; [done|]. by exists l, d.
      + intros [(_ & l' & d' & Heq & ? & ? & Hl' & Hd')|[? _]]; [|done].
        assert (Some (l, d) = Some (l', d')) as [= -> ->].
        { rewrite <- (proj2 (Cut_Some (l +:+ String "@" d) "@" l d)) by done.
          apply Cut_Some. done. }
        apply String.eqb_neq in H0, H1. by rewrite H0, H1, Hd'.
    - split; [done|]. intros [(_ & l & d & -> & _)|[? _]]; [|done].
      apply Cut_None in Ec. rewrite ContainsByte_app in Ec. cbn in Ec.
      by rewrite orb_true_r in Ec. }
  destruct (kind =? selectDomain)%string eqn:E2; solve_bool.
  { subst kind. destruct (value =? "")%string eqn:?, (ContainsByte value "@") eqn:?;
      solve_bool; naive_solver. }
  split; [by destruct (kind =? selectGroup)%string|naive_solver].
Qed.

Lemma good_of_ParseConfig s g :
  ParseConfig (Split s ",") = inr g -> good_grant g.
Proof.
  intros (ps & Heq & Hps & ->)%ParseConfig_spec. split.
  - intros He. assert (ps <> []) as Hne.
    { destruct (Split s ",") as [|x xs] eqn:E; [by apply Split_nonempty in E|].
      by destruct ps. }
    destruct ps as [|[n r] ps]; [done|].
    assert (is_Some (add_all ∅ ((n, r) :: ps) !! n)) as [x Hx].
    { apply dom_add_all. right. exists r. set_solver. }
    by rewrite He, lookup_empty in Hx.
  - intros n r Hn. apply lookup_add_all_inv in Hn as [Hn|Hn]; [by rewrite lookup_empty in Hn|].
    by eapply Forall_forall in Hps.
Qed.

(** Every rule the parser accepts is usable: its selector is a single
    [local@domain] address or a bare domain, in canonical case, and it grants
    at least one permission that Temporal honours (no worker role, no star
    namespace). *)
Theorem parseRule_good (i : Z) (raw : string) (r : Rule) :
  parseRule i raw = inr r -> good_rule r /\ r_Index r = i /\ r_Raw r = raw.
Proof.
  unfold parseRule. destruct (Cut _ _) as [[sel perms]|]; [|done].
  destruct (Cut _ _) as [[k v]|]; [|done].
  destruct (check_selector _ _) eqn:Hs; [done|]. apply check_selector_spec in Hs.
  destruct (_ =? "")%string; [done|].
  destruct (ParseConfig _) as [e|g] eqn:Hp; [done|]. intros [= <-].
  split; [|done]. split; [done|]. exists g. split; [done|]. by eapply good_of_ParseConfig.
Qed.

Lemma parse_rules_good i raws rs : parse_rules i raws = inr rs -> Forall good_rule rs.
Proof.
  revert i rs. induction raws as [|raw raws IH]; intros i rs; cbn; [by intros [= <-]|].
  destruct (parseRule i raw) as [e|r] eqn:Hr; [done|].
  destruct (parse_rules (i + 1) raws) as [e|rs'] eqn:Hrs; [done|]. intros [= <-].
  constructor; [|by eapply IH]. by apply parseRule_good in Hr as [? _].
Qed.

Definition good_policy (p : Policy) : Prop :=
  Forall good_rule (p_rules p) /\
  exists g, p_dflt p = Some g /\ map_Forall (fun ns r => grantable_pair (ns, r)) g.

Lemma Parse_good raws d p : Parse raws d = inr p -> good_policy p.
Proof.
  unfold Parse. destruct (parse_rules 0 raws) as [e|rs] eqn:Hr; [done|].
  apply parse_rules_good in Hr. destruct (_ =? "")%string.
  - intros [= <-]. split; [done|]. exists ∅. split; [done|]. apply map_Forall_empty.
  - destruct (ParseConfig _) as [e|g] eqn:Hp; [done|]. intros [= <-]. split; [done|].
    exists g. split; [done|]. by eapply good_of_ParseConfig in Hp as [_ ?].
Qed.

(** The rules that apply to an identity. *)
Definition applies (email : string) (r : Rule) : Prop :=
  matches r (ToLower (TrimSpace email)) (emailDomain (ToLower (TrimSpace email))) = true.

Lemma Explain_matched p email r :
  In r (e_Matched (Explain p email)) <-> In r (p_rules p) /\ applies email r.
Proof. apply List.filter_In. Qed.

Lemma Empty_spec g : Empty (Some g) = true <-> g = ∅.
Proof.
  cbn. rewrite Nat.eqb_eq. apply map_size_empty_iff.
Qed.

Lemma Merge_empty gs : Merge gs = ∅ <-> forall m, Some m ∈ gs -> m = ∅.
Proof.
  split.
  - intros He m Hm. apply map_empty. intros ns. apply eq_None_not_Some. intros Hs.
    assert (is_Some (Merge gs !! ns)) as [x Hx] by (apply dom_Merge; eauto).
    by rewrite He, lookup_empty in Hx.
  - intros Hall. apply map_empty. intros ns. apply eq_None_not_Some.
    intros (m & Hm & [x Hx])%dom_Merge. apply Hall in Hm as ->. by rewrite lookup_empty in Hx.
Qed.

(** Deny by default, exactly: under any policy that parsed, a person is
    granted nothing iff no configured rule matches them and the default
    permissions are empty. *)
Theorem deny_by_default (raws : list string) (d : string) (p : Policy) (email : string) :
  Parse raws d = inr p ->
  Empty (e_Grant (Explain p email)) = true <->
  (forall r, In r (p_rules p) -> ~ applies email r) /\ Empty (p_dflt p) = true.
Proof.
  intros [Hrules (g & Hd & _)]%Parse_good. unfold Explain. cbn [e_Grant].
  set (em := ToLower (TrimSpace email)).
  set (matched := List.filter (fun r => matches r em (emailDomain em)) (p_rules p)).
  assert (Hm : forall r, In r matched <-> In r (p_rules p) /\ applies email r).
  { intros r. apply List.filter_In. }
  rewrite Empty_spec, Merge_empty, Hd.
  destruct matched as [|r0 rest] eqn:Em; cbn [length Nat.eqb app fmap list_fmap].
  - split.
    + intros Hall. split; [|apply Empty_spec, Hall; set_solver].
      intros r Hin Ha. destruct (proj2 (Hm r)) as []; done.
    + intros [_ He%Empty_spec] m Hin. apply list_elem_of_singleton in Hin as [= ->]. done.
  - split.
    + intros Hall. exfalso.
      destruct (proj1 (Hm r0)) as [Hin _]; [by left|].
      eapply List.Forall_forall in Hrules as (_ & g0 & Hg0 & Hne & _); [|done].
      apply Hne, Hall. rewrite app_nil_r, Hg0. by left.
    + intros [Hno _]. exfalso. destruct (proj1 (Hm r0)) as [Hin Ha]; [by left|].
      by eapply Hno.
Qed.

Lemma wf_opt_good_grant g : good_grant g -> wf_opt (Some g).
Proof. intros [_ Hg] n r Hn. by apply Hg in Hn as [? _]. Qed.

(** Resolution is the union of the matching rules, the higher role winning
    per namespace; the default permissions apply exactly when no rule matches. *)
Theorem Explain_union (p : Policy) (email ns : string) :
  let e := Explain p email in
  let g := default ∅ (e_Grant e) in
  (forall r, In r (e_Matched e) <-> In r (p_rules p) /\ applies email r) /\
  (e_Default e = true <-> forall r, In r (p_rules p) -> ~ applies email r) /\
  rank g ns = if e_Default e then max_rank [p_dflt p] ns
              else max_rank (r_Grant <$> e_Matched e) ns.
Proof.
  cbn zeta. split_and!.
  - apply Explain_matched.
  - pose proof (Explain_matched p email) as Hm. unfold Explain in *. cbn [e_Default e_Matched] in *.
    rewrite Nat.eqb_eq. split.
    + intros Hl r Hin Ha. apply length_zero_iff_nil in Hl. rewrite Hl in Hm.
      by destruct (proj2 (Hm r)).
    + intros Hno. apply length_zero_iff_nil.
      destruct (List.filter _ (p_rules p)) as [|r rest] eqn:E; [done|].
      exfalso. destruct (proj1 (Hm r)) as [Hin Ha]; [by left|]. by eapply Hno.
  - unfold Explain. cbn [e_Grant e_Default e_Matched default]. cbn [from_option id].
    rewrite rank_Merge.
    destruct (List.filter _ (p_rules p)) as [|r rest] eqn:E; cbn [length Nat.eqb]; [done|].
    by rewrite app_nil_r.
Qed.

(** Adding a rule to the configuration never takes a permission away from
    a person whom a rule already matches (it can only displace the default). *)
Theorem add_rule_monotone (p : Policy) (r : Rule) (email ns : string) :
  e_Default (Explain p email) = false ->
  let g := default ∅ (e_Grant (Explain p email)) in
  let g' := default ∅ (e_Grant (Explain (mkPolicy (p_rules p ++ [r]) (p_dflt p)) email)) in
  rank g ns <= rank g' ns.
Proof.
  intros Hd. cbn zeta. unfold Explain in *. cbn [e_Default e_Grant p_rules p_dflt] in *.
  cbn [default from_option id]. rewrite !rank_Merge, List.filter_app.
  set (f := List.filter _ (p_rules p)) in *. rewrite Hd.
  destruct (Nat.eqb (length (f ++ _)) 0) eqn:E.
  { apply Nat.eqb_eq in E. rewrite length_app in E.
    apply Nat.eqb_neq in Hd. lia. }
  rewrite !app_nil_r, fmap_app, max_rank_app. lia.
Qed.

(** [SystemRole] reports exactly the role a grant carries on Temporal's
    every-namespace [temporal-system], and the empty role when it has none. *)
Theorem SystemRole_spec (g : Grant) :
  SystemRole (Some g) = default "" (g !! SystemNamespace).
Proof.
  unfold SystemRole. destruct (List.find _ _) as [[n r]|] eqn:E.
  - apply List.find_some in E as [Hin Hn]. cbn in Hn. solve_bool. subst n.
    apply list_elem_of_In in Hin. rewrite Namespaces_perm in Hin.
    apply elem_of_map_to_list in Hin. by rewrite Hin.
  - destruct (g !! SystemNamespace) as [r|] eqn:Eg; [|done].
    apply elem_of_map_to_list in Eg. rewrite <- Namespaces_perm in Eg.
    apply list_elem_of_In in Eg. pose proof (List.find_none _ _ E _ Eg) as Hn. discriminate Hn.
Qed.

End Authz.

(** ** Witnesses *)

(** Unicode lower-casing that leaves non-ASCII runes alone. *)
Definition ascii_tables : Unicode := {| unicode_lower := ascii_lower |}.

Definition rules_example : list string :=
  ["email:Alice@Example.com = orders:write, temporal-system:read";
   "domain:example.com=orders:read,billing:admin"].

Lemma parseRule_good_witness :
  exists r, @parseRule ascii_tables 0 "email:Alice@Example.com = orders:write" = inr r
            /\ r_value r = "alice@example.com" /\ @good_rule r.
Proof.
  destruct (@parseRule ascii_tables 0 "email:Alice@Example.com = orders:write")
    as [e|r] eqn:E; [vm_compute in E; discriminate|].
  exists r. split; [reflexivity|]. split.
  - vm_compute in E. injection E as <-. reflexivity.
  - exact (proj1 (@parseRule_good ascii_tables 0 _ r E)).
Defined.

Lemma deny_by_default_witness :
  exists p, @Parse ascii_tables rules_example "" = inr p
    /\ (Empty (e_Grant (@Explain ascii_tables p "eve@evil.com")) = true)
    /\ (Empty (e_Grant (@Explain ascii_tables p "ALICE@example.com")) = false).
Proof.
  destruct (@Parse ascii_tables rules_example "") as [e|p] eqn:E; [vm_compute in E; discriminate|].
  exists p. split; [reflexivity|]. split.
  - apply (@deny_by_default ascii_tables rules_example "" p "eve@evil.com" E).
    vm_compute in E. injection E as <-. split; [|vm_compute; reflexivity].
    intros r [<-|[<-|[]]] Ha; vm_compute in Ha; discriminate.
  - vm_compute in E. injection E as <-. vm_compute. reflexivity.
Defined.

Lemma add_rule_monotone_witness :
  let r := mkRule 0 "" (Some (New [AddNamespace "a" RoleRead])) selectDomain "x.io" in
  let s := mkRule 1 "" (Some (New [AddNamespace "a" RoleWrite])) selectEmail "u@x.io" in
  rank (default ∅ (e_Grant (@Explain ascii_tables (mkPolicy [r] None) "u@x.io"))) "a"
  <= rank (default ∅ (e_Grant (@Explain ascii_tables (mkPolicy [r; s] None) "u@x.io"))) "a".
Proof.
  intros r s.
  exact (@add_rule_monotone ascii_tables (mkPolicy [r] None) s "u@x.io" "a" eq_refl).
Defined.
