(* ===== verification/GoEncoding.v ===== *)
(** * Go's encodings: hex and base64

    [encoding/hex] and [encoding/base64] (the URL alphabet without padding and
    the standard alphabet with padding) on byte strings. Decoding follows Go's
    non-strict decoder: CR and LF are skipped and the unused low bits of a
    final partial group are ignored. *)

From S2P Require Import Prelude GoStrings.

(** ** Six-bit groups *)

(** Most significant bit first. *)
Inductive sextet := Sx (a b c d e f : bool).

#[export] Instance sextet_eq_dec : EqDecision sextet.
Proof. solve_decision. Defined.

Definition b2n (b : bool) : nat := if b then 1%nat else 0%nat.

Definition sextet_val (s : sextet) : nat :=
  match s with
  | Sx a b c d e f =>
      (32 * b2n a + 16 * b2n b + 8 * b2n c + 4 * b2n d + 2 * b2n e + b2n f)%nat
  end.

Definition all_bools : list bool := [false; true].

Definition all_sextets : list sextet :=
  a ← all_bools; b ← all_bools; c ← all_bools; d ← all_bools; e ← all_bools; f ← all_bools;
  [Sx a b c d e f].

Definition url_alphabet : string :=
  "ABCDEFGHIJKLMNOPQRSTUVWXYZabcdefghijklmnopqrstuvwxyz0123456789-_".
Definition std_alphabet : string :=
  "ABCDEFGHIJKLMNOPQRSTUVWXYZabcdefghijklmnopqrstuvwxyz0123456789+/".

Definition enc6 (alphabet : string) (s : sextet) : ascii :=
  default (byte_of 0) (String.get (sextet_val s) alphabet).

Definition dec6 (alphabet : string) (c : ascii) : option sextet :=
  List.find (fun s => Ascii.eqb (enc6 alphabet s) c) all_sextets.

(** ** base64 *)

(** Three bytes are four sextets. *)
Definition split3 (x y z : ascii) : sextet * sextet * sextet * sextet :=
  match x, y, z with
  | Ascii x0 x1 x2 x3 x4 x5 x6 x7, Ascii y0 y1 y2 y3 y4 y5 y6 y7, Ascii z0 z1 z2 z3 z4 z5 z6 z7 =>
      (Sx x7 x6 x5 x4 x3 x2, Sx x1 x0 y7 y6 y5 y4, Sx y3 y2 y1 y0 z7 z6, Sx z5 z4 z3 z2 z1 z0)
  end.

Definition join3 (s t u v : sextet) : ascii * ascii * ascii :=
  match s, t, u, v with
  | Sx x7 x6 x5 x4 x3 x2, Sx x1 x0 y7 y6 y5 y4, Sx y3 y2 y1 y0 z7 z6, Sx z5 z4 z3 z2 z1 z0 =>
      (Ascii x0 x1 x2 x3 x4 x5 x6 x7, Ascii y0 y1 y2 y3 y4 y5 y6 y7, Ascii z0 z1 z2 z3 z4 z5 z6 z7)
  end.

Definition zero6 : sextet := Sx false false false false false false.
Definition nul : ascii := Ascii false false false false false false false false.

(** [base64.RawURLEncoding.EncodeToString] (and the unpadded body of any
    alphabet). *)
Fixpoint b64_encode (alphabet : string) (s : string) : string :=
  match s with
  | String x (String y (String z rest)) =>
      let '(a, b, c, d) := split3 x y z in
      String (enc6 alphabet a) (String (enc6 alphabet b)
        (String (enc6 alphabet c) (String (enc6 alphabet d) (b64_encode alphabet rest))))
  | String x (String y "") =>
      let '(a, b, c, _) := split3 x y nul in
      String (enc6 alphabet a) (String (enc6 alphabet b) (String (enc6 alphabet c) ""))
  | String x "" =>
      let '(a, b, _, _) := split3 x nul nul in
      String (enc6 alphabet a) (String (enc6 alphabet b) "")
  | "" => ""
  end.

Definition RawURL_Encode (s : string) : string := b64_encode url_alphabet s.

(** The decoder skips CR and LF. *)
Fixpoint strip_newlines (s : string) : string :=
  match s with
  | "" => ""
  | String c s' =>
      if ((code c =? 10) || (code c =? 13))%N then strip_newlines s'
      else String c (strip_newlines s')
  end.

Fixpoint b64_decode_raw (alphabet : string) (s : string) : option string :=
  match s with
  | String p (String q (String r (String t rest))) =>
      match dec6 alphabet p, dec6 alphabet q, dec6 alphabet r, dec6 alphabet t,
            b64_decode_raw alphabet rest with
      | Some a, Some b, Some c, Some d, Some tail =>
          let '(x, y, z) := join3 a b c d in Some (String x (String y (String z tail)))
      | _, _, _, _, _ => None
      end
  | String p (String q (String r "")) =>
      match dec6 alphabet p, dec6 alphabet q, dec6 alphabet r with
      | Some a, Some b, Some c =>
          let '(x, y, _) := join3 a b c zero6 in Some (String x (String y ""))
      | _, _, _ => None
      end
  | String p (String q "") =>
      match dec6 alphabet p, dec6 alphabet q with
      | Some a, Some b => let '(x, _, _) := join3 a b zero6 zero6 in Some (String x "")
      | _, _ => None
      end
  | String _ "" => None
  | "" => Some ""
  end.

(** [base64.RawStdEncoding]. *)
Definition RawStd_Encode (s : string) : string := b64_encode std_alphabet s.
Definition RawStd_Decode (s : string) : option string :=
  b64_decode_raw std_alphabet (strip_newlines s).

(** [base64.RawURLEncoding.DecodeString]. *)
Definition RawURL_Decode (s : string) : option string :=
  b64_decode_raw url_alphabet (strip_newlines s).

(** [base64.StdEncoding.DecodeString]: groups of four, the last one padded. *)
Fixpoint b64_decode_padded (alphabet : string) (s : string) : option string :=
  match s with
  | "" => Some ""
  | String p (String q (String r (String t rest))) =>
      match rest with
      | "" =>
          if Ascii.eqb t "=" then
            if Ascii.eqb r "=" then b64_decode_raw alphabet (String p (String q ""))
            else b64_decode_raw alphabet (String p (String q (String r "")))
          else b64_decode_raw alphabet s
      | _ =>
          match b64_decode_raw alphabet (String p (String q (String r (String t "")))),
                b64_decode_padded alphabet rest with
          | Some x, Some y => Some (x +:+ y)
          | _, _ => None
          end
      end
  | _ => None
  end.

Definition Std_Decode (s : string) : option string :=
  b64_decode_padded std_alphabet (strip_newlines s).

(** ** hex *)

Definition hex_digits : string := "0123456789abcdef".

Definition nibble (n : N) : ascii := default nul (String.get (N.to_nat n) hex_digits).

Fixpoint hex_Encode (s : string) : string :=
  match s with
  | "" => ""
  | String c s' =>
      String (nibble (code c / 16)) (String (nibble (code c mod 16)) (hex_Encode s'))
  end.

Definition from_hex (c : ascii) : option N :=
  let n := code c in
  if ((48 <=? n) && (n <=? 57))%N then Some (n - 48)%N
  else if ((97 <=? n) && (n <=? 102))%N then Some (n - 87)%N
  else if ((65 <=? n) && (n <=? 70))%N then Some (n - 55)%N
  else None.

(** [hex.DecodeString]: both cases; an odd length is an error. *)
Fixpoint hex_Decode (s : string) : option string :=
  match s with
  | "" => Some ""
  | String a (String b s') =>
      match from_hex a, from_hex b, hex_Decode s' with
      | Some x, Some y, Some t => Some (String (byte_of (16 * x + y)) t)
      | _, _, _ => None
      end
  | _ => None
  end.

(** ** Facts *)

#[global] Arguments enc6 : simpl never.
#[global] Arguments dec6 : simpl never.

Lemma all_sextets_complete s : In s all_sextets.
Proof. destruct s as [[] [] [] [] [] []]; vm_compute; tauto. Qed.

Lemma dec6_enc6_url s : dec6 url_alphabet (enc6 url_alphabet s) = Some s.
Proof. destruct s as [[] [] [] [] [] []]; vm_compute; reflexivity. Qed.

Lemma join3_split3 x y z :
  (let '(a, b, c, d) := split3 x y z in join3 a b c d) = (x, y, z).
Proof. by destruct x, y, z. Qed.

(** Three-bytes-at-a-time induction on strings. *)
Lemma string_ind3 (P : string -> Prop) :
  P "" -> (forall x, P (String x "")) -> (forall x y, P (String x (String y ""))) ->
  (forall x y z s, P s -> P (String x (String y (String z s)))) -> forall s, P s.
Proof.
  intros H0 H1 H2 H3. fix IH 1. intros [|x [|y [|z s]]]; [done|by apply H1|by apply H2|].
  apply H3, IH.
Qed.

Lemma dec6_enc6_std s : dec6 std_alphabet (enc6 std_alphabet s) = Some s.
Proof. destruct s as [[] [] [] [] [] []]; vm_compute; reflexivity. Qed.

Lemma b64_raw_roundtrip alphabet s :
  (forall x, dec6 alphabet (enc6 alphabet x) = Some x) ->
  b64_decode_raw alphabet (b64_encode alphabet s) = Some s.
Proof.
  intros Hd. induction s as [|x|x y|x y z s IH] using string_ind3; [done| | |].
  - destruct x. cbn. by rewrite !Hd.
  - destruct x, y. cbn. by rewrite !Hd.
  - destruct x, y, z. cbn. rewrite !Hd. by rewrite IH.
Qed.

(** Every character the URL encoder writes is in its alphabet, hence neither a
    line break nor the separator of signed values. *)
Definition url_char (c : ascii) : bool :=
  let n := code c in
  ((65 <=? n) && (n <=? 90) || (97 <=? n) && (n <=? 122) || (48 <=? n) && (n <=? 57)
   || (n =? 45) || (n =? 95))%N.

Fixpoint all_bytes (p : ascii -> bool) (s : string) : bool :=
  match s with
  | "" => true
  | String c s' => p c && all_bytes p s'
  end.

Lemma enc6_url_char s : url_char (enc6 url_alphabet s) = true.
Proof. destruct s as [[] [] [] [] [] []]; vm_compute; reflexivity. Qed.

Lemma RawURL_Encode_chars s : all_bytes url_char (RawURL_Encode s) = true.
Proof.
  unfold RawURL_Encode. induction s as [|x|x y|x y z s IH] using string_ind3; [done| | |];
    destruct x; try destruct y; try destruct z; cbn; by rewrite !enc6_url_char.
Qed.

Lemma url_char_not c d : url_char c = true -> url_char d = false -> Ascii.eqb c d = false.
Proof. intros Hc Hd. apply Ascii.eqb_neq. intros ->. congruence. Qed.

Lemma all_bytes_no_byte p s c :
  all_bytes p s = true -> p c = false -> ContainsByte s c = false.
Proof.
  intros Hs Hc. induction s as [|d s IH]; [done|]. cbn in *.
  apply andb_true_iff in Hs as [Hd Hs]. rewrite IH by done. rewrite orb_false_r.
  apply Ascii.eqb_neq. intros ->. congruence.
Qed.

Lemma strip_newlines_id s : all_bytes url_char s = true -> strip_newlines s = s.
Proof.
  induction s as [|c s IH]; [done|]. cbn. intros [Hc Hs]%andb_true_iff. rewrite IH by done.
  destruct ((code c =? 10) || (code c =? 13))%N eqn:E; [|done].
  apply orb_true_iff in E as [E|E]; apply N.eqb_eq in E; unfold url_char in Hc; by rewrite E in Hc.
Qed.

Lemma RawURL_roundtrip s : RawURL_Decode (RawURL_Encode s) = Some s.
Proof.
  unfold RawURL_Decode. rewrite strip_newlines_id by apply RawURL_Encode_chars.
  apply b64_raw_roundtrip, dec6_enc6_url.
Qed.

Lemma enc6_std_no_newline s :
  ((code (enc6 std_alphabet s) =? 10) || (code (enc6 std_alphabet s) =? 13))%N = false.
Proof. destruct s as [[] [] [] [] [] []]; vm_compute; reflexivity. Qed.

Lemma RawStd_roundtrip s : RawStd_Decode (RawStd_Encode s) = Some s.
Proof.
  unfold RawStd_Decode, RawStd_Encode.
  assert (strip_newlines (b64_encode std_alphabet s) = b64_encode std_alphabet s) as ->.
  { induction s as [|x|x y|x y z s IH] using string_ind3; [done| | |];
      destruct x; try destruct y; try destruct z; cbn; rewrite !enc6_std_no_newline; [done..|].
    by rewrite IH. }
  apply b64_raw_roundtrip, dec6_enc6_std.
Qed.

Lemma RawURL_Encode_inj s t : RawURL_Encode s = RawURL_Encode t -> s = t.
Proof.
  intros He. assert (Some s = Some t) as [= ->]; [|done].
  by rewrite <- (RawURL_roundtrip s), <- (RawURL_roundtrip t), He.
Qed.

Lemma RawURL_Encode_length s :
  String.length (RawURL_Encode s) =
  (4 * (String.length s / 3) + match String.length s mod 3 with 0 => 0 | 1 => 2 | _ => 3 end)%nat.
Proof.
  unfold RawURL_Encode. induction s as [|x|x y|x y z s IH] using string_ind3;
    [done|by destruct x|by destruct x, y|].
  destruct x, y, z. cbn [b64_encode split3 String.length]. rewrite IH.
  replace (S (S (S (String.length s)))) with (String.length s + 1 * 3)%nat by lia.
  rewrite Nat.div_add, Nat.Div0.mod_add by lia. lia.
Qed.

Lemma hex_byte_roundtrip c :
  from_hex (nibble (code c / 16)) = Some (code c / 16)%N /\
  from_hex (nibble (code c mod 16)) = Some (code c mod 16)%N /\
  byte_of (16 * (code c / 16) + code c mod 16) = c.
Proof. destruct c as [[] [] [] [] [] [] [] []]; vm_compute; done. Qed.

Lemma hex_roundtrip s : hex_Decode (hex_Encode s) = Some s.
Proof.
  induction s as [|c s IH]; [done|]. cbn [hex_Encode hex_Decode].
  destruct (hex_byte_roundtrip c) as (-> & -> & Hc). by rewrite IH, Hc.
Qed.

Lemma hex_Encode_inj s t : hex_Encode s = hex_Encode t -> s = t.
Proof.
  intros He. assert (Some s = Some t) as [= ->]; [|done].
  by rewrite <- (hex_roundtrip s), <- (hex_roundtrip t), He.
Qed.

Lemma hex_Encode_length s : String.length (hex_Encode s) = (2 * String.length s)%nat.
Proof. induction s as [|c s IH]; [done|]. cbn [hex_Encode String.length]. rewrite IH. lia. Qed.
