(* ===== verification/GoCrypto.v ===== *)
(** * Go's crypto/sha256, crypto/hmac and crypto/subtle

    SHA-256 (FIPS 180-4) and HMAC (RFC 2104) on byte strings, executable, so
    that the hashes the program stores and compares are the real ones. No
    cryptographic assumption is made anywhere: what the program gets from a
    hash is always stated as an equality of hashes. *)

From S2P Require Import Prelude GoStrings GoEncoding.

Module Sha256.

(** 32-bit words. *)
Definition mask32 (z : Z) : Z := Z.land z 4294967295.
Definition add32 (x y : Z) : Z := mask32 (x + y).
Definition rotr (x n : Z) : Z := Z.lor (Z.shiftr x n) (mask32 (Z.shiftl x (32 - n))).
Definition not32 (x : Z) : Z := Z.lxor x 4294967295.

Definition K : list Z := [
  1116352408; 1899447441; 3049323471; 3921009573; 961987163; 1508970993; 2453635748; 2870763221;
  3624381080; 310598401; 607225278; 1426881987; 1925078388; 2162078206; 2614888103; 3248222580;
  3835390401; 4022224774; 264347078; 604807628; 770255983; 1249150122; 1555081692; 1996064986;
  2554220882; 2821834349; 2952996808; 3210313671; 3336571891; 3584528711; 113926993; 338241895;
  666307205; 773529912; 1294757372; 1396182291; 1695183700; 1986661051; 2177026350; 2456956037;
  2730485921; 2820302411; 3259730800; 3345764771; 3516065817; 3600352804; 4094571909; 275423344;
  430227734; 506948616; 659060556; 883997877; 958139571; 1322822218; 1537002063; 1747873779;
  1955562222; 2024104815; 2227730452; 2361852424; 2428436474; 2756734187; 3204031479; 3329325298].

Record digest := mkDigest { dA : Z; dB : Z; dC : Z; dD : Z; dE : Z; dF : Z; dG : Z; dH : Z }.

Definition H0 : digest :=
  mkDigest 1779033703 3144134277 1013904242 2773480762 1359893119 2600822924 528734635 1541459225.

Definition bytes_of (s : string) : list Z :=
  List.map (fun c => Z.of_N (code c)) (String.list_ascii_of_string s).

Fixpoint be_words (l : list Z) : list Z :=
  match l with
  | a :: b :: c :: d :: l' => (((a * 256 + b) * 256 + c) * 256 + d) :: be_words l'
  | _ => []
  end.

(** The message schedule, most recent word first. *)
Fixpoint schedule (n : nat) (w : list Z) : list Z :=
  match n with
  | O => w
  | S n' =>
      let wt k := nth k w 0 in
      let s1 := Z.lxor (Z.lxor (rotr (wt 1%nat) 17) (rotr (wt 1%nat) 19)) (Z.shiftr (wt 1%nat) 10) in
      let s0 := Z.lxor (Z.lxor (rotr (wt 14%nat) 7) (rotr (wt 14%nat) 18)) (Z.shiftr (wt 14%nat) 3) in
      schedule n' (mask32 (wt 15%nat + s0 + wt 6%nat + s1) :: w)
  end.

Definition round (d : digest) (kw : Z * Z) : digest :=
  let '(k, w) := kw in
  let e := dE d in
  let a := dA d in
  let S1 := Z.lxor (Z.lxor (rotr e 6) (rotr e 11)) (rotr e 25) in
  let ch := Z.lxor (Z.land e (dF d)) (Z.land (not32 e) (dG d)) in
  let t1 := dH d + S1 + ch + k + w in
  let S0 := Z.lxor (Z.lxor (rotr a 2) (rotr a 13)) (rotr a 22) in
  let maj := Z.lxor (Z.lxor (Z.land a (dB d)) (Z.land a (dC d))) (Z.land (dB d) (dC d)) in
  mkDigest (mask32 (t1 + S0 + maj)) a (dB d) (dC d) (mask32 (dD d + t1)) e (dF d) (dG d).

Definition block (d : digest) (m : list Z) : digest :=
  let w := rev (schedule 48 (rev (be_words m))) in
  let r := fold_left round (combine K w) d in
  mkDigest (add32 (dA d) (dA r)) (add32 (dB d) (dB r)) (add32 (dC d) (dC r)) (add32 (dD d) (dD r))
           (add32 (dE d) (dE r)) (add32 (dF d) (dF r)) (add32 (dG d) (dG r)) (add32 (dH d) (dH r)).

Fixpoint blocks (fuel : nat) (d : digest) (m : list Z) : digest :=
  match fuel with
  | O => d
  | S fuel' =>
      match m with
      | [] => d
      | _ => blocks fuel' (block d (firstn 64 m)) (skipn 64 m)
      end
  end.

Definition be_bytes (n : nat) (z : Z) : list Z :=
  List.map (fun i => Z.land (Z.shiftr z (8 * Z.of_nat i)) 255) (rev (seq 0 n)).

Definition pad (m : list Z) : list Z :=
  let n := Z.of_nat (length m) in
  m ++ [128] ++ repeat 0 (Z.to_nat ((55 - n) mod 64)) ++ be_bytes 8 (8 * n).

Definition string_of (l : list Z) : string :=
  String.string_of_list_ascii (List.map (fun z => byte_of (Z.to_N z)) l).

Definition sum (d : digest) : list Z :=
  flat_map (be_bytes 4) [dA d; dB d; dC d; dD d; dE d; dF d; dG d; dH d].

End Sha256.

(** [sha256.Sum256]. *)
Definition sha256_Sum256 (s : string) : string :=
  let m := Sha256.pad (Sha256.bytes_of s) in
  Sha256.string_of (Sha256.sum (Sha256.blocks (length m) Sha256.H0 m)).

(** [hmac.New(sha256.New, key)], written with [msg], then [Sum(nil)]. *)
Definition hmac_sha256 (key msg : string) : string :=
  let key := if (64 <? Z.of_nat (String.length key)) then sha256_Sum256 key else key in
  let kb := Sha256.bytes_of key in
  let k64 := kb ++ repeat 0 (64 - length kb)%nat in
  let ipad := List.map (fun b => Z.lxor b 54) k64 in
  let opad := List.map (fun b => Z.lxor b 92) k64 in
  sha256_Sum256 (Sha256.string_of opad +:+ sha256_Sum256 (Sha256.string_of ipad +:+ msg)).

(** [subtle.ConstantTimeCompare(x, y) == 1] and [hmac.Equal(x, y)]: equality,
    whatever it costs. *)
Definition ConstantTimeCompare (x y : string) : bool := (x =? y)%string.

#[global] Arguments sha256_Sum256 : simpl never.
#[global] Arguments hmac_sha256 : simpl never.

(** ** Facts *)

(** The test vectors of FIPS 180-4 and RFC 4231 (case 2), and a message of
    more than one block. *)
Example sha256_abc :
  hex_Encode (sha256_Sum256 "abc") =
  "ba7816bf8f01cfea414140de5dae2223b00361a396177a9cb410ff61f20015ad".
Proof. vm_compute. reflexivity. Qed.

Example sha256_two_blocks :
  hex_Encode (sha256_Sum256 "abcdbcdecdefdefgefghfghighijhijkijkljklmklmnlmnomnopnopq") =
  "248d6a61d20638b8e5c026930c3e6039a33ce45964ff2167f6ecedd419db06c1".
Proof. vm_compute. reflexivity. Qed.

Example hmac_rfc4231_2 :
  hex_Encode (hmac_sha256 "Jefe" "what do ya want for nothing?") =
  "5bdcc146bf60754e6a042426089575c75a003f089d2739839dec58b964ec3843".
Proof. vm_compute. reflexivity. Qed.

Lemma length_string_of l : String.length (Sha256.string_of l) = length l.
Proof. unfold Sha256.string_of. induction l as [|x l IH]; [done|]. cbn. by rewrite IH. Qed.

(** A digest is 32 bytes, so its hex form is 64 characters and its unpadded
    base64url form 43 ([pkceChallengeLen]). *)
Lemma sha256_length s : String.length (sha256_Sum256 s) = 32%nat.
Proof. unfold sha256_Sum256. rewrite length_string_of. done. Qed.

Lemma hmac_length k m : String.length (hmac_sha256 k m) = 32%nat.
Proof. unfold hmac_sha256. apply sha256_length. Qed.

Lemma ConstantTimeCompare_true x y : ConstantTimeCompare x y = true <-> x = y.
Proof. apply String.eqb_eq. Qed.
