(* ===== verification/GoURL.v ===== *)
(** * Go's net/url: query strings and parsed URLs

    [url.QueryUnescape], [url.QueryEscape], [url.ParseQuery], [url.Values] with
    its [Get], [Set] and [Encode], and the fields and [String] of a parsed URL,
    on byte strings. Which strings [url.Parse] accepts and how it splits them
    depends on the Go release, so it is an argument ([URLParser]). *)

From S2P Require Import Prelude GoStrings GoEncoding.

(** [url.QueryUnescape]: ["+"] is a space, ["%XX"] a byte; a ["%"] not followed
    by two hex digits is an error. *)
Fixpoint QueryUnescape (s : string) : option string :=
  match s with
  | "" => Some ""
  | String c s' =>
      if Ascii.eqb c "%" then
        match s' with
        | String a (String b s'') =>
            match from_hex a, from_hex b, QueryUnescape s'' with
            | Some x, Some y, Some t => Some (String (byte_of (16 * x + y)) t)
            | _, _, _ => None
            end
        | _ => None
        end
      else
        match QueryUnescape s' with
        | Some t => Some (String (if Ascii.eqb c "+" then " "%char else c) t)
        | None => None
        end
  end.

(** Characters [url.QueryEscape] leaves alone: RFC 3986 unreserved. *)
Definition unreserved (c : ascii) : bool :=
  url_char c || Ascii.eqb c "." || Ascii.eqb c "~".

Definition upper_nibble (n : N) : ascii := default nul (String.get (N.to_nat n) "0123456789ABCDEF").

Fixpoint QueryEscape (s : string) : string :=
  match s with
  | "" => ""
  | String c s' =>
      if unreserved c then String c (QueryEscape s')
      else if Ascii.eqb c " " then String "+" (QueryEscape s')
      else String "%" (String (upper_nibble (code c / 16)) (String (upper_nibble (code c mod 16))
             (QueryEscape s')))
  end.

(** [url.Values]: the parameters in the order they were given. *)
Definition Values := list (string * string).

(** [v.Get(key)]: the first value, or [""]. *)
Fixpoint Get (v : Values) (key : string) : string :=
  match v with
  | [] => ""
  | (k, x) :: v' => if (k =? key)%string then x else Get v' key
  end.

(** The limit of [GODEBUG=urlmaxqueryparams]. *)
Definition maxQueryParams : Z := 10000.

(** One ["&"]-separated piece: skipped when empty; a [";"] or a bad escape is an
    error (parsing goes on, but the caller sees the error). *)
Definition parsePair (piece : string) : option (option (string * string)) :=
  if ContainsByte piece ";" then None
  else if (piece =? "")%string then Some None
  else
    let '(k, v) := match Cut piece "=" with Some kv => kv | None => (piece, "") end in
    match QueryUnescape k, QueryUnescape v with
    | Some k', Some v' => Some (Some (k', v'))
    | _, _ => None
    end.

Fixpoint parsePairs (pieces : list string) : option Values :=
  match pieces with
  | [] => Some []
  | p :: ps =>
      match parsePair p, parsePairs ps with
      | Some (Some kv), Some vs => Some (kv :: vs)
      | Some None, Some vs => Some vs
      | _, _ => None
      end
  end.

(** [url.ParseQuery]; [None] is an error, after which the callers here do not
    look at the values. *)
Definition ParseQuery (query : string) : option Values :=
  let pieces := Split query "&" in
  if maxQueryParams <? Z.of_nat (length pieces) then None else parsePairs pieces.

(** [u.Query()] drops the error of [url.ParseQuery] and keeps the pairs that did
    parse. *)
Definition Query (rawQuery : string) : Values :=
  let pieces := Split rawQuery "&" in
  if maxQueryParams <? Z.of_nat (length pieces) then []
  else omap (fun p => match parsePair p with Some (Some kv) => Some kv | _ => None end) pieces.

(** [v.Set(key, value)]: replaces every value of [key]. *)
Definition Set_ (v : Values) (key value : string) : Values :=
  List.filter (fun kv => negb (kv.1 =? key)%string) v ++ [(key, value)].

(** Sorting by key keeps the values of a key in order. *)
Fixpoint insert_sorted (kv : string * string) (v : Values) : Values :=
  match v with
  | [] => [kv]
  | kv' :: v' => if String.leb kv.1 kv'.1 then kv :: kv' :: v' else kv' :: insert_sorted kv v'
  end.

Definition sort_keys (v : Values) : Values := foldr insert_sorted [] v.

Definition escape_pair (kv : string * string) : string := QueryEscape kv.1 +:+ "=" +:+ QueryEscape kv.2.

Fixpoint join_amp (l : list string) : string :=
  match l with
  | [] => ""
  | [x] => x
  | x :: l' => x +:+ "&" +:+ join_amp l'
  end.

(** [v.Encode()]: sorted by key. *)
Definition Encode (v : Values) : string := join_amp (List.map escape_pair (sort_keys v)).

(** ** Parsed URLs *)

Record URL := mkURL {
  u_Scheme : string;
  u_Opaque : string;
  (** the escaped user info, when there is one. *)
  u_User : option string;
  u_Host : string;
  u_EscapedHost : string;
  u_Path : string;
  u_EscapedPath : string;
  u_OmitHost : bool;
  u_RawQuery : string;
  u_ForceQuery : bool;
  u_EscapedFragment : string
}.

(** [url.Parse]: [None] is an error. *)
Class URLParser := { url_Parse : string -> option URL }.

(** What [u.String()] writes before the query: scheme, authority and path. *)
Definition authority (u : URL) : string :=
  if (u_Scheme u =? "")%string && (u_Host u =? "")%string && bool_decide (u_User u = None) then ""
  else if u_OmitHost u && (u_Host u =? "")%string && bool_decide (u_User u = None) then ""
  else (if (u_Host u =? "")%string && (u_Path u =? "")%string && bool_decide (u_User u = None) then "" else "//")
       +:+ match u_User u with Some ui => ui +:+ "@" | None => "" end
       +:+ (if (u_Host u =? "")%string then "" else u_EscapedHost u).

Definition first_segment (path : string) : string := match Cut path "/" with Some (a, _) => a | None => path end.

Definition base_String (u : URL) : string :=
  let scheme := if (u_Scheme u =? "")%string then "" else u_Scheme u +:+ ":" in
  if negb (u_Opaque u =? "")%string then scheme +:+ u_Opaque u
  else
    let path := u_EscapedPath u in
    let head := scheme +:+ authority u
                  +:+ (if negb (path =? "")%string && negb (HasPrefix path "/") && negb (u_Host u =? "")%string
                       then "/" else "") in
    head +:+ (if (head =? "")%string && ContainsByte (first_segment path) ":" then "./" else "") +:+ path.

Definition fragment_String (u : URL) : string :=
  if (u_EscapedFragment u =? "")%string then "" else "#" +:+ u_EscapedFragment u.

(** [u.String()]. *)
Definition URL_String (u : URL) : string :=
  base_String u
  +:+ (if u_ForceQuery u || negb (u_RawQuery u =? "")%string then "?" +:+ u_RawQuery u else "")
  +:+ fragment_String u.

(** [u.RawQuery = q]. *)
Definition set_RawQuery (q : string) (u : URL) : URL :=
  mkURL (u_Scheme u) (u_Opaque u) (u_User u) (u_Host u) (u_EscapedHost u) (u_Path u) (u_EscapedPath u)
    (u_OmitHost u) q (u_ForceQuery u) (u_EscapedFragment u).

(** ** Facts *)

Lemma Get_nil k : Get [] k = "".
Proof. done. Qed.

Lemma QueryUnescape_Escape s : QueryUnescape (QueryEscape s) = Some s.
Proof.
  induction s as [|c s IH]; [done|]. cbn [QueryEscape].
  destruct (unreserved c) eqn:Hu.
  - cbn [QueryUnescape].
    assert (Ascii.eqb c "%" = false) as ->.
    { apply Ascii.eqb_neq. intros ->. by vm_compute in Hu. }
    assert (Ascii.eqb c "+" = false) as ->.
    { apply Ascii.eqb_neq. intros ->. by vm_compute in Hu. }
    by rewrite IH.
  - destruct (Ascii.eqb c " ") eqn:Hs.
    + apply Ascii.eqb_eq in Hs as ->. cbn. by rewrite IH.
    + cbn [QueryUnescape]. cbn. rewrite IH.
      by destruct c as [[] [] [] [] [] [] [] []].
Qed.

(** Escaped text has none of the separators. *)
Definition sep (c : ascii) : bool := Ascii.eqb c "&" || Ascii.eqb c ";" || Ascii.eqb c "=".

Lemma ContainsByte_escape s c : sep c = true -> ContainsByte (QueryEscape s) c = false.
Proof.
  intros Hc. induction s as [|d s IH]; [done|]. cbn [QueryEscape].
  assert (Hne : forall x, sep x = false -> Ascii.eqb x c = false).
  { intros x Hx. apply Ascii.eqb_neq. intros ->. congruence. }
  destruct (unreserved d) eqn:Hu.
  - cbn [ContainsByte]. rewrite IH, orb_false_r. apply Hne.
    destruct d as [[] [] [] [] [] [] [] []]; vm_compute in Hu |- *; congruence.
  - destruct (Ascii.eqb d " "); cbn [ContainsByte]; rewrite IH, ?orb_false_r, !Hne; try done;
      by destruct d as [[] [] [] [] [] [] [] []].
Qed.

Lemma parsePair_escape kv : parsePair (escape_pair kv) = Some (Some kv).
Proof.
  destruct kv as [k v]. unfold parsePair, escape_pair. cbn [fst snd].
  rewrite !ContainsByte_app, !ContainsByte_escape by done.
  change ("=" +:+ QueryEscape v) with (String "=" (QueryEscape v)).
  destruct (ContainsByte "=" ";") eqn:E; [done|]. cbn [orb].
  destruct (QueryEscape k +:+ String "=" (QueryEscape v)) eqn:Es; [by destruct (QueryEscape k)|].
  change ((String a s =? "")%string) with false. cbn iota. rewrite <- Es.
  assert (Cut (QueryEscape k +:+ String "=" (QueryEscape v)) "=" = Some (QueryEscape k, QueryEscape v)) as ->.
  { apply Cut_Some. split; [done|]. by apply ContainsByte_escape. }
  by rewrite !QueryUnescape_Escape.
Qed.

Lemma parsePairs_escape v : parsePairs (List.map escape_pair v) = Some v.
Proof. induction v as [|kv v IH]; [done|]. cbn. by rewrite parsePair_escape, IH. Qed.

Lemma Split_join l : l <> [] -> Forall (fun s => ContainsByte s "&" = false) l -> Split (join_amp l) "&" = l.
Proof.
  induction l as [|s l IH]; [done|]. intros _ [Hs Hl]%Forall_cons. destruct l as [|s' l].
  - by apply Split_none.
  - cbn [join_amp]. rewrite append_cons, append_nil_l, Split_cons by done. f_equal. by apply IH.
Qed.

Lemma insert_sorted_length kv v : length (insert_sorted kv v) = S (length v).
Proof. induction v as [|kv' v IH]; cbn; [done|]. destruct (String.leb _ _); cbn; by rewrite ?IH. Qed.

Lemma sort_keys_length v : length (sort_keys v) = length v.
Proof. induction v as [|kv v IH]; [done|]. unfold sort_keys in *. cbn [foldr length]. by rewrite insert_sorted_length, IH. Qed.

(** [url.ParseQuery] of an encoded, non-empty set of values returns them, sorted
    by key; below the parameter limit. *)
Lemma ParseQuery_Encode v :
  v <> [] -> Z.of_nat (length v) <= maxQueryParams -> ParseQuery (Encode v) = Some (sort_keys v).
Proof.
  intros Hv Hn. unfold ParseQuery, Encode. rewrite Split_join.
  - rewrite length_map, sort_keys_length, (proj2 (Z.ltb_ge _ _)) by done. apply parsePairs_escape.
  - intros [= Hm]. apply map_eq_nil in Hm. apply (f_equal length) in Hm. rewrite sort_keys_length in Hm.
    by destruct v.
  - apply Forall_map. apply Forall_true. intros [k x]. unfold compose, escape_pair. cbn [fst snd].
    rewrite !ContainsByte_app, !ContainsByte_escape by done. done.
Qed.

Lemma leb_refl s : String.leb s s = true.
Proof. destruct (String.leb_total s s); done. Qed.

Lemma Get_insert_sorted kv v k :
  Get (insert_sorted kv v) k = if (kv.1 =? k)%string then kv.2 else Get v k.
Proof.
  destruct kv as [k0 x0]. cbn [fst snd]. induction v as [|[k' x'] v IH]; cbn [insert_sorted]; [done|].
  cbn [fst]. destruct (String.leb k0 k') eqn:E; [done|]. cbn [Get]. rewrite IH.
  destruct (k' =? k)%string eqn:E1; [|done]. apply String.eqb_eq in E1 as ->.
  destruct (k0 =? k)%string eqn:E0; [|done]. apply String.eqb_eq in E0 as ->. by rewrite leb_refl in E.
Qed.

Lemma Get_sort_keys v k : Get (sort_keys v) k = Get v k.
Proof. induction v as [|[k0 x0] v IH]; [done|]. unfold sort_keys in *. cbn [foldr Get]. by rewrite Get_insert_sorted, IH. Qed.

Lemma Get_filter_ne v k k' :
  Get (List.filter (fun kv => negb (kv.1 =? k)%string) v) k' = if (k =? k')%string then "" else Get v k'.
Proof.
  induction v as [|[k0 x0] v IH]; cbn [List.filter fst]; [by destruct (k =? k')%string|].
  destruct (k0 =? k)%string eqn:E0; cbn [negb Get]; rewrite IH.
  - apply String.eqb_eq in E0 as ->. by destruct (k =? k')%string.
  - destruct (k0 =? k')%string eqn:E1; [|done]. apply String.eqb_eq in E1 as ->.
    by rewrite String.eqb_sym, E0.
Qed.

Lemma Get_app_absent v k x k' :
  Forall (fun kv => (kv.1 =? k)%string = false) v ->
  Get (v ++ [(k, x)]) k' = if (k =? k')%string then x else Get v k'.
Proof.
  induction v as [|[k0 x0] v IH]; intros Hv; [done|]. apply Forall_cons in Hv as [H0 Hv]. cbn in H0 |- *.
  rewrite (IH Hv). destruct (k0 =? k')%string eqn:E1; [|done]. apply String.eqb_eq in E1 as ->.
  by rewrite String.eqb_sym, H0.
Qed.

(** [Get] after [Set]. *)
Lemma Get_Set v k x k' : Get (Set_ v k x) k' = if (k =? k')%string then x else Get v k'.
Proof.
  unfold Set_. rewrite Get_app_absent.
  - rewrite Get_filter_ne. by destruct (k =? k')%string.
  - apply List.Forall_forall. intros kv [_ H]%List.filter_In. by apply negb_true_iff in H.
Qed.

Lemma length_Set v k x : (length (Set_ v k x) <= S (length v))%nat.
Proof. unfold Set_. rewrite length_app. cbn. pose proof (List.filter_length_le (fun kv : string * string => negb (kv.1 =? k)%string) v). lia. Qed.

Lemma Set_nonempty v k x : Set_ v k x <> [].
Proof. unfold Set_. by destruct (List.filter _ _). Qed.

Lemma URL_String_query u q :
  q <> "" -> URL_String (set_RawQuery q u) = base_String u +:+ "?" +:+ q +:+ fragment_String u.
Proof.
  intros Hq. unfold URL_String. cbn. rewrite (proj2 (String.eqb_neq _ _) Hq), orb_true_r. done.
Qed.

Example ParseQuery_form :
  ParseQuery "grant_type=refresh_token&refresh_token=a%2Bb+c&&x" =
  Some [("grant_type", "refresh_token"); ("refresh_token", "a+b c"); ("x", "")].
Proof. reflexivity. Qed.

Example ParseQuery_bad : ParseQuery "a=%zz&b=1" = None /\ ParseQuery "a=1;b=2" = None.
Proof. done. Qed.
