(* ===== verification/GoHttp.v ===== *)
(** * Go's net/http: cookies

    [http.Cookie] with its [String], and how a [Cookie] request header is read
    back ([Request.Cookie]): split at [";"], trimmed, cut at ["="], names that
    are not tokens and values with a forbidden byte skipped. *)

From stdpp Require Import pretty.
From S2P Require Import Prelude GoStrings GoEncoding.

Inductive SameSite := SameSiteDefaultMode | SameSiteLaxMode | SameSiteStrictMode | SameSiteNoneMode.

Record Cookie := mkCookie {
  ck_Name : string;
  ck_Value : string;
  ck_Path : string;
  ck_HttpOnly : bool;
  ck_Secure : bool;
  ck_SameSite : SameSite;
  ck_MaxAge : Z
}.

(** ** Bytes *)

(** A byte of an RFC 7230 token: a letter, a digit or one of
    [!#$%&'*+-.^_`|~]. *)
Definition token_byte (c : ascii) : bool :=
  let n := code c in
  ((48 <=? n) && (n <=? 57) || (65 <=? n) && (n <=? 90) || (97 <=? n) && (n <=? 122)
   || (n =? 33) || (35 <=? n) && (n <=? 39) || (n =? 42) || (n =? 43) || (n =? 45) || (n =? 46)
   || (94 <=? n) && (n <=? 96) || (n =? 124) || (n =? 126))%N.

Definition isToken (s : string) : bool := negb (s =? "")%string && all_bytes token_byte s.

(** [validCookieValueByte]: printable, but no quote, semicolon or backslash. *)
Definition validCookieValueByte (c : ascii) : bool :=
  let n := code c in
  ((32 <=? n) && (n <? 127) && negb (n =? 34) && negb (n =? 59) && negb (n =? 92))%N.

Definition validCookiePathByte (c : ascii) : bool :=
  let n := code c in ((32 <=? n) && (n <? 127) && negb (n =? 59))%N.

Fixpoint filter_bytes (p : ascii -> bool) (s : string) : string :=
  match s with
  | "" => ""
  | String c s' => if p c then String c (filter_bytes p s') else filter_bytes p s'
  end.

Definition quote : ascii := byte_of 34.
Definition quoted (s : string) : string := String quote (s +:+ String quote "").

(** ** Writing *)

Definition sanitizeCookieValue (v : string) : string :=
  let v := filter_bytes validCookieValueByte v in
  if (v =? "")%string then v
  else if ContainsByte v " " || ContainsByte v "," then quoted v else v.

(** [c.String()], the [Set-Cookie] header; [""] when the name is invalid. *)
Definition Cookie_String (c : Cookie) : string :=
  if negb (isToken (ck_Name c)) then ""
  else
    ck_Name c +:+ "=" +:+ sanitizeCookieValue (ck_Value c)
    +:+ (if (ck_Path c =? "")%string then "" else "; Path=" +:+ filter_bytes validCookiePathByte (ck_Path c))
    +:+ (if 0 <? ck_MaxAge c then "; Max-Age=" +:+ pretty (ck_MaxAge c)
         else if ck_MaxAge c <? 0 then "; Max-Age=0" else "")
    +:+ (if ck_HttpOnly c then "; HttpOnly" else "")
    +:+ (if ck_Secure c then "; Secure" else "")
    +:+ match ck_SameSite c with
        | SameSiteDefaultMode => ""
        | SameSiteNoneMode => "; SameSite=None"
        | SameSiteLaxMode => "; SameSite=Lax"
        | SameSiteStrictMode => "; SameSite=Strict"
        end.

(** ** Reading *)

(** [textproto.TrimString]: SPACE, TAB, CR and LF. *)
Definition header_space (c : ascii) : bool :=
  let n := code c in ((n =? 32) || (n =? 9) || (n =? 10) || (n =? 13))%N.

Fixpoint trim_left (s : string) : string :=
  match s with
  | "" => ""
  | String c s' => if header_space c then trim_left s' else s
  end.

Fixpoint trim_right (s : string) : string :=
  match s with
  | "" => ""
  | String c s' =>
      match trim_right s' with
      | "" => if header_space c then "" else String c ""
      | t => String c t
      end
  end.

Definition TrimString (s : string) : string := trim_right (trim_left s).

(** [parseCookieValue(raw, true)]: one pair of enclosing quotes is dropped. *)
Definition unquote (raw : string) : string :=
  match raw with
  | String c s =>
      if Ascii.eqb c quote && negb (s =? "")%string && HasSuffixByte s quote
      then String.substring 0 (String.length s - 1) s else raw
  | "" => ""
  end.

Definition parseCookieValue (raw : string) : option string :=
  let v := unquote raw in if all_bytes validCookieValueByte v then Some v else None.

(** One [";"]-separated part of the header: a name and a value, or nothing. *)
Definition parseCookiePart (part : string) : option (string * string) :=
  let part := TrimString part in
  if (part =? "")%string then None
  else
    let '(name, val) := match Cut part "=" with Some nv => nv | None => (part, "") end in
    let name := TrimString name in
    if negb (isToken name) then None
    else match parseCookieValue val with Some v => Some (name, v) | None => None end.

(** The limit of [GODEBUG=httpcookiemaxnum]. *)
Definition cookieMaxNum : Z := 3000.

Definition readCookies (header : string) : list (string * string) :=
  let parts := Split header ";" in
  if cookieMaxNum <? Z.of_nat (length parts) then []
  else omap parseCookiePart (Split (TrimString header) ";").

(** The value of the first cookie with that name: [r.Cookie(name)]. *)
Definition assoc_first (name : string) (l : list (string * string)) : option string :=
  snd <$> List.find (fun nv => (nv.1 =? name)%string) l.

Definition Request_Cookie (header name : string) : option string :=
  if (name =? "")%string then None else assoc_first name (readCookies header).

(** ** What a browser sends *)

(** The header for a list of cookies: [n1=v1; n2=v2; ...]. *)
Fixpoint cookie_header (l : list (string * string)) : string :=
  match l with
  | [] => ""
  | [(n, v)] => n +:+ "=" +:+ v
  | (n, v) :: l' => n +:+ "=" +:+ v +:+ "; " +:+ cookie_header l'
  end.

(** A value that needs no quoting. *)
Definition plain_value_byte (c : ascii) : bool :=
  validCookieValueByte c && negb (header_space c).

Definition plain_cookie (nv : string * string) : Prop :=
  isToken nv.1 = true /\ all_bytes plain_value_byte nv.2 = true.

(** ** Facts *)

Lemma all_bytes_app p a b : all_bytes p (a +:+ b) = all_bytes p a && all_bytes p b.
Proof. induction a as [|c a IH]; str_simpl; [done|]. by rewrite IH, andb_assoc. Qed.

Lemma all_bytes_impl (p q : ascii -> bool) s :
  (forall c, p c = true -> q c = true) -> all_bytes p s = true -> all_bytes q s = true.
Proof.
  intros Hpq. induction s as [|c s IH]; cbn; [done|]. intros [Hc Hs]%andb_true_iff.
  by rewrite Hpq, IH.
Qed.

Lemma filter_bytes_id p s : all_bytes p s = true -> filter_bytes p s = s.
Proof. induction s as [|c s IH]; cbn; [done|]. intros [-> Hs]%andb_true_iff. by rewrite IH. Qed.

Lemma trim_left_id s : all_bytes (fun c => negb (header_space c)) s = true -> trim_left s = s.
Proof. destruct s as [|c s]; cbn; [done|]. by destruct (header_space c). Qed.

Lemma trim_right_id s : all_bytes (fun c => negb (header_space c)) s = true -> trim_right s = s.
Proof.
  induction s as [|c s IH]; cbn; [done|]. intros [Hc Hs]%andb_true_iff. rewrite (IH Hs).
  destruct s; [|done]. by destruct (header_space c).
Qed.

Lemma TrimString_id s : all_bytes (fun c => negb (header_space c)) s = true -> TrimString s = s.
Proof. intros Hs. unfold TrimString. by rewrite (trim_left_id _ Hs), trim_right_id. Qed.

Lemma trim_right_app a b : b <> "" -> trim_right b = b -> trim_right (a +:+ b) = a +:+ b.
Proof.
  intros Hb E. induction a as [|c a IH]; [done|]. rewrite append_cons. cbn. rewrite IH.
  destruct (a +:+ b) eqn:E2; [|done]. by destruct a, b.
Qed.

Lemma token_byte_not_space c : token_byte c = true -> negb (header_space c) = true.
Proof. by destruct c as [[] [] [] [] [] [] [] []]. Qed.

Lemma plain_not_space c : plain_value_byte c = true -> negb (header_space c) = true.
Proof. by intros [_ ?]%andb_true_iff. Qed.

Lemma plain_valid c : plain_value_byte c = true -> validCookieValueByte c = true.
Proof. by intros [? _]%andb_true_iff. Qed.

(** One cookie as it is sent. *)
Definition pair_text (nv : string * string) : string := nv.1 +:+ String "=" nv.2.

Section Plain.
Context (nv : string * string) (Hp : plain_cookie nv).

Lemma pair_not_space : all_bytes (fun c => negb (header_space c)) (pair_text nv) = true.
Proof.
  destruct Hp as [[_ Hn]%andb_true_iff Hv]. unfold pair_text. rewrite all_bytes_app.
  rewrite (all_bytes_impl _ _ _ token_byte_not_space Hn). cbn.
  apply (all_bytes_impl _ _ _ plain_not_space Hv).
Qed.

Lemma pair_no_semicolon : ContainsByte (pair_text nv) ";" = false.
Proof.
  destruct Hp as [[_ Hn]%andb_true_iff Hv]. unfold pair_text. rewrite ContainsByte_app.
  rewrite (all_bytes_no_byte _ _ _ Hn) by done. cbn [ContainsByte orb].
  by rewrite (all_bytes_no_byte _ _ _ Hv).
Qed.

Lemma pair_nonempty : pair_text nv <> "".
Proof. unfold pair_text. by destruct (nv.1). Qed.

Lemma parseCookieValue_plain : parseCookieValue nv.2 = Some nv.2.
Proof.
  destruct Hp as [_ Hv]. unfold parseCookieValue.
  assert (unquote nv.2 = nv.2) as ->.
  { destruct (nv.2) as [|c s]; [done|]. cbn in Hv. apply andb_true_iff in Hv as [Hc _]. cbn [unquote].
    destruct (Ascii.eqb c quote) eqn:E; [|done]. apply Ascii.eqb_eq in E as ->. by vm_compute in Hc. }
  by rewrite (all_bytes_impl _ _ _ plain_valid Hv).
Qed.

Lemma parseCookiePart_plain sp : sp = "" \/ sp = " " -> parseCookiePart (sp +:+ pair_text nv) = Some nv.
Proof.
  intros Hsp. unfold parseCookiePart.
  assert (TrimString (sp +:+ pair_text nv) = pair_text nv) as ->.
  { destruct Hsp as [->| ->]; [by apply TrimString_id, pair_not_space|].
    unfold TrimString. change (trim_left (" " +:+ pair_text nv)) with (trim_left (pair_text nv)).
    rewrite trim_left_id by apply pair_not_space. apply trim_right_id, pair_not_space. }
  rewrite (proj2 (String.eqb_neq _ _) pair_nonempty). destruct Hp as [Ht Hv].
  assert (Cut (pair_text nv) "=" = Some (nv.1, nv.2)) as ->.
  { apply Cut_Some. split; [done|]. apply andb_true_iff in Ht as [_ Hn]. by rewrite (all_bytes_no_byte _ _ _ Hn). }
  rewrite (TrimString_id nv.1), Ht; cbn [negb].
  - rewrite parseCookieValue_plain. by destruct nv.
  - apply andb_true_iff in Ht as [_ Hn]. apply (all_bytes_impl _ _ _ token_byte_not_space Hn).
Qed.

End Plain.

Lemma cookie_header_cons nv l :
  l <> [] -> cookie_header (nv :: l) = pair_text nv +:+ String ";" (String " " (cookie_header l)).
Proof.
  intros Hl. destruct nv as [n v], l as [|nv' l]; [done|]. cbn [cookie_header]. unfold pair_text.
  by rewrite append_assoc.
Qed.

Lemma cookie_header_one nv : cookie_header [nv] = pair_text nv.
Proof. by destruct nv. Qed.

Lemma Split_header nv l :
  Forall plain_cookie (nv :: l) ->
  Split (cookie_header (nv :: l)) ";" = pair_text nv :: List.map (fun nv => " " +:+ pair_text nv) l.
Proof.
  revert nv. induction l as [|nv' l IH]; intros nv [H0 Hl]%Forall_cons.
  - rewrite cookie_header_one. apply Split_none, pair_no_semicolon, H0.
  - rewrite cookie_header_cons, Split_cons by (done || apply pair_no_semicolon, H0). f_equal.
    cbn [Split]. by rewrite (IH _ Hl).
Qed.

Lemma TrimString_header l : Forall plain_cookie l -> TrimString (cookie_header l) = cookie_header l.
Proof.
  intros Hl. destruct l as [|nv l]; [done|]. unfold TrimString.
  assert (trim_left (cookie_header (nv :: l)) = cookie_header (nv :: l)) as ->.
  { apply Forall_cons in Hl as [[[Hne Ht]%andb_true_iff _] _]. destruct nv as [[|c n] v]; [done|].
    cbn in Ht. apply andb_true_iff in Ht as [Hc%token_byte_not_space _].
    destruct l; [rewrite cookie_header_one|rewrite cookie_header_cons by done]; unfold pair_text; cbn [fst];
      rewrite !append_cons; cbn [trim_left]; by destruct (header_space c). }
  revert nv Hl. induction l as [|nv' l IH]; intros nv [H0 Hl]%Forall_cons.
  - rewrite cookie_header_one. apply trim_right_id, pair_not_space, H0.
  - rewrite cookie_header_cons by done.
    change (String ";" (String " " (cookie_header (nv' :: l)))) with ("; " +:+ cookie_header (nv' :: l)).
    rewrite <- append_assoc. apply trim_right_app; [|by apply IH].
    destruct l; [rewrite cookie_header_one|rewrite cookie_header_cons by done]; unfold pair_text; by destruct (nv'.1).
Qed.

(** A header of plain cookies reads back as those cookies. *)
Lemma readCookies_header l :
  Forall plain_cookie l -> Z.of_nat (length l) <= cookieMaxNum -> readCookies (cookie_header l) = l.
Proof.
  intros Hl Hn. unfold readCookies. rewrite (TrimString_header _ Hl). destruct l as [|nv l]; [done|].
  rewrite (Split_header _ _ Hl). cbn [length] in *. rewrite length_map, (proj2 (Z.ltb_ge _ _)) by lia.
  apply Forall_cons in Hl as [H0 Hl]. cbn [omap list_omap].
  rewrite <- (append_nil_l (pair_text nv)), (parseCookiePart_plain _ H0) by auto. f_equal.
  clear H0 Hn. induction Hl as [|nv' l H1 Hl IH]; [done|]. cbn [List.map omap list_omap].
  rewrite (parseCookiePart_plain _ H1) by auto. by f_equal.
Qed.

Lemma Request_Cookie_header l name :
  Forall plain_cookie l -> Z.of_nat (length l) <= cookieMaxNum -> name <> "" ->
  Request_Cookie (cookie_header l) name = assoc_first name l.
Proof.
  intros Hl Hn Hne. unfold Request_Cookie. by rewrite (proj2 (String.eqb_neq _ _) Hne), readCookies_header.
Qed.

Example Request_Cookie_ex :
  Request_Cookie "a=1; b=x.y;; bad name=2; c=" "b" = Some "x.y" /\ Request_Cookie "a=1" "b" = None.
Proof. done. Qed.
