(* ===== verification/GoNetip.v ===== *)
(** * net/netip and net, as the rate limiter uses them

    IP addresses, their text forms and CIDR prefixes, from the Go standard
    library: [netip.ParseAddr], [Addr.String], [Addr.Unmap], [ParseAddrPort],
    [ParsePrefix], [Prefix.Masked], [Prefix.Contains] and [net.SplitHostPort]. *)

From stdpp Require Import pretty.
From S2P Require Import Prelude GoStrings GoEncoding.

(** ** Addresses *)

(** A 32-bit address, or a 128-bit one with its (possibly empty) zone. *)
Inductive Addr :=
  | IP4 (a : Z)
  | IP6 (a : Z) (zone : string).

#[export] Instance Addr_eq_dec : EqDecision Addr.
Proof. solve_decision. Defined.

Definition Is4 (ip : Addr) : bool := match ip with IP4 _ => true | IP6 _ _ => false end.
Definition BitLen (ip : Addr) : Z := match ip with IP4 _ => 32 | IP6 _ _ => 128 end.
Definition Is4In6 (ip : Addr) : bool :=
  match ip with IP4 _ => false | IP6 a _ => Z.shiftr a 32 =? 0xffff end.
Definition Unmap (ip : Addr) : Addr :=
  match ip with
  | IP6 a _ => if Is4In6 ip then IP4 (Z.land a 0xffffffff) else ip
  | IP4 _ => ip
  end.

(** ** Parsing *)

Definition digit_of (c : ascii) : option Z :=
  if ((48 <=? code c) && (code c <=? 57))%N then Some (Z.of_N (code c) - 48) else None.

(** [parseIPv4Fields]: [pos] fields stored in [acc], the current octet [val] of
    [digLen] digits. *)
Fixpoint parseIPv4Fields (pos : nat) (digLen : nat) (val acc : Z) (s : string) : option Z :=
  match s with
  | "" => if (3 <=? pos)%nat && (1 <=? digLen)%nat then Some (acc * 256 + val) else None
  | String c s' =>
      match digit_of c with
      | Some d =>
          if (digLen =? 1)%nat && (val =? 0) then None
          else if 255 <? val * 10 + d then None
          else parseIPv4Fields pos (S digLen) (val * 10 + d) acc s'
      | None =>
          if Ascii.eqb c "." then
            if (digLen =? 0)%nat || (s' =? "")%string || (pos =? 3)%nat then None
            else parseIPv4Fields (S pos) 0 0 (acc * 256 + val) s'
          else None
      end
  end.

(** The hex digits at the start of a field: their number, their value, the rest;
    [None] when a field has more than four. *)
Fixpoint hex_field (off : nat) (acc : Z) (s : string) : option (nat * Z * string) :=
  match s with
  | "" => Some (off, acc, "")
  | String c s' =>
      match from_hex c with
      | None => Some (off, acc, s)
      | Some d => if (3 <? off)%nat then None else hex_field (S off) (acc * 16 + Z.of_N d) s'
      end
  end.

(** The fields so far (last first), and where the ellipsis is. *)
Fixpoint ipv6_fields (fuel : nat) (groups : list Z) (ellipsis : option nat) (s : string) :
    option (list Z * option nat * string) :=
  match fuel with
  | O => Some (groups, ellipsis, s)
  | S fuel =>
      let i := length groups in
      match hex_field 0 0 s with
      | None => None
      | Some (off, acc, rest) =>
          if (off =? 0)%nat then None
          else
            match rest with
            | String "." _ =>
                if negb (bool_decide (is_Some ellipsis)) && negb (i =? 6)%nat then None
                else if (8 <? i + 2)%nat then None
                else match parseIPv4Fields 0 0 0 0 s with
                     | None => None
                     | Some v => Some (Z.land v 0xffff :: Z.shiftr v 16 :: groups, ellipsis, "")
                     end
            | "" => Some (acc :: groups, ellipsis, "")
            | String ":" (String ":" rest') =>
                if bool_decide (is_Some ellipsis) then None
                else if (rest' =? "")%string then Some (acc :: groups, Some (S i), "")
                else ipv6_fields fuel (acc :: groups) (Some (S i)) rest'
            | String ":" rest' =>
                if (rest' =? "")%string then None else ipv6_fields fuel (acc :: groups) ellipsis rest'
            | _ => None
            end
      end
  end.

(** The 128 bits of eight 16-bit fields. *)
Definition join_groups (gs : list Z) : Z := foldl (fun a g => a * 65536 + g) 0 gs.

Definition expand (groups : list Z) (ellipsis : option nat) : option (list Z) :=
  if (length groups =? 8)%nat then (if bool_decide (is_Some ellipsis) then None else Some groups)
  else match ellipsis with
       | None => None
       | Some e => Some (take e groups ++ replicate (8 - length groups) 0 ++ drop e groups)
       end.

Definition parseIPv6 (s : string) : option Addr :=
  match match Cut s "%" with
        | Some (a, zone) => if (zone =? "")%string then None else Some (a, zone)
        | None => Some (s, "")
        end with
  | None => None
  | Some (s, zone) =>
      let '(start, s) :=
        match s with String ":" (String ":" s') => (Some 0%nat, s') | _ => (None, s) end in
      if bool_decide (is_Some start) && (s =? "")%string then Some (IP6 0 zone)
      else
        match ipv6_fields 8 [] start s with
        | Some (groups, ellipsis, "") =>
            match expand (rev groups) ellipsis with
            | Some gs => Some (IP6 (join_groups gs) zone)
            | None => None
            end
        | _ => None
        end
  end.

(** [ParseAddr]: the first of [.], [:] and [%] decides the family. *)
Fixpoint addr_family (s : string) : option bool :=
  match s with
  | "" => None
  | String c s' =>
      if Ascii.eqb c "." then Some true else if Ascii.eqb c ":" then Some false
      else if Ascii.eqb c "%" then None else addr_family s'
  end.

Definition ParseAddr (s : string) : option Addr :=
  match addr_family s with
  | Some true => IP4 <$> parseIPv4Fields 0 0 0 0 s
  | Some false => parseIPv6 s
  | None => None
  end.

(** ** Printing *)

Definition string4 (a : Z) : string :=
  pretty (Z.land (Z.shiftr a 24) 255) +:+ "." +:+ pretty (Z.land (Z.shiftr a 16) 255) +:+ "."
  +:+ pretty (Z.land (Z.shiftr a 8) 255) +:+ "." +:+ pretty (Z.land a 255).

Definition zone_suffix (zone : string) : string := if (zone =? "")%string then "" else "%" +:+ zone.

Definition group (a : Z) (i : nat) : Z := Z.land (Z.shiftr a (112 - 16 * Z.of_nat i)) 0xffff.

(** [strconv.AppendUint(_, x, 16)] without leading zeros. *)
Definition hex_group (x : Z) : string :=
  let h k := String (nibble (Z.to_N (Z.land (Z.shiftr x (4 * k)) 15))) "" in
  if 0x1000 <=? x then h 3 +:+ h 2 +:+ h 1 +:+ h 0
  else if 0x100 <=? x then h 2 +:+ h 1 +:+ h 0
  else if 0x10 <=? x then h 1 +:+ h 0 else h 0.

(** The length of the run of zero fields at [i]. *)
Fixpoint zero_run (fuel : nat) (a : Z) (i : nat) : nat :=
  match fuel with
  | O => 0
  | S f => if (i <? 8)%nat && (group a i =? 0) then S (zero_run f a (S i)) else 0
  end.

(** The first longest run of at least two zero fields: start and length. *)
Definition best_run (a : Z) : nat * nat :=
  foldl (fun best i => let l := zero_run 8 a i in if (2 <=? l)%nat && (best.2 <? l)%nat then (i, l) else best)
    (255%nat, 0%nat) (seq 0 8).

Fixpoint print6 (fuel : nat) (a : Z) (run : nat * nat) (i : nat) : string :=
  match fuel with
  | O => ""
  | S f =>
      if (8 <=? i)%nat then ""
      else if (i =? run.1)%nat then
        let j := (i + run.2)%nat in
        if (8 <=? j)%nat then "::" else "::" +:+ hex_group (group a j) +:+ print6 f a run (S j)
      else (if (0 <? i)%nat then ":" else "") +:+ hex_group (group a i) +:+ print6 f a run (S i)
  end.

Definition Addr_String (ip : Addr) : string :=
  match ip with
  | IP4 a => string4 a
  | IP6 a zone =>
      if Is4In6 ip then "::ffff:" +:+ string4 (Z.land a 0xffffffff) +:+ zone_suffix zone
      else print6 9 a (best_run a) 0 +:+ zone_suffix zone
  end.

(** ** Prefixes *)

Record Prefix := mkPrefix { p_ip : Addr; p_bits : Z }.

Definition without_zone (ip : Addr) : Addr := match ip with IP6 a _ => IP6 a "" | IP4 _ => ip end.

(** The address with the bits past the prefix cleared. *)
Definition mask_addr (ip : Addr) (bits : Z) : Addr :=
  let clear a n := Z.shiftl (Z.shiftr a (n - bits)) (n - bits) in
  match ip with IP4 a => IP4 (clear a 32) | IP6 a _ => IP6 (clear a 128) "" end.

Definition PrefixFrom (ip : Addr) (bits : Z) : Prefix := mkPrefix (without_zone ip) bits.
Definition Masked (p : Prefix) : Prefix := mkPrefix (mask_addr (p_ip p) (p_bits p)) (p_bits p).

Definition Contains (p : Prefix) (ip : Addr) : bool :=
  match p_ip p, ip with
  | IP4 a, IP4 b => Z.shiftr (Z.lxor a b) (32 - p_bits p) =? 0
  | IP6 a _, IP6 b "" => Z.shiftr (Z.lxor a b) (128 - p_bits p) =? 0
  | _, _ => false
  end.

Definition Prefix_String (p : Prefix) : string := Addr_String (p_ip p) +:+ "/" +:+ pretty (p_bits p).

(** ** Ports and CIDRs *)

(** Decimal digits only, as [strconv.ParseUint(s, 10, _)] and [Atoi] read them. *)
Fixpoint decimal (acc : Z) (s : string) : option Z :=
  match s with
  | "" => Some acc
  | String c s' => match digit_of c with Some d => decimal (acc * 10 + d) s' | None => None end
  end.

Definition parse_decimal (s : string) : option Z := if (s =? "")%string then None else decimal 0 s.

Definition last_byte (s : string) : option ascii := String.get (String.length s - 1) s.

(** [netip.ParseAddrPort(s)], its address. *)
Definition ParseAddrPort (s : string) : option Addr :=
  match CutLast s ":" with
  | None => None
  | Some (ip, port) =>
      match parse_decimal port with
      | None => None
      | Some n =>
          if 65535 <? n then None
          else match ip with
               | "" => None
               | String "[" rest =>
                   match last_byte rest with
                   | Some "]"%char =>
                       match ParseAddr (String.substring 0 (String.length rest - 1) rest) with
                       | Some (IP6 a z) => Some (IP6 a z)
                       | _ => None
                       end
                   | _ => None
                   end
               | _ => match ParseAddr ip with Some (IP4 a) => Some (IP4 a) | _ => None end
               end
      end
  end.

Definition ParsePrefix (s : string) : option Prefix :=
  match CutLast s "/" with
  | None => None
  | Some (a, bits) =>
      match ParseAddr a with
      | None => None
      | Some (IP6 _ (String _ _)) => None
      | Some ip =>
          if (1 <? Z.of_nat (String.length bits)) && match bits with String c _ => negb ((49 <=? code c) && (code c <=? 57))%N | "" => true end
          then None
          else match parse_decimal bits with
               | Some n => if n <=? BitLen ip then Some (mkPrefix ip n) else None
               | None => None
               end
      end
  end.

(** [net.SplitHostPort(hostport)], its host. *)
Definition SplitHostPort (hp : string) : option string :=
  match CutLast hp ":" with
  | None => None
  | Some (before, port) =>
      match hp with
      | String "[" rest =>
          match Cut rest "]" with
          | None => None
          | Some (host, after) =>
              (* the bracket must end just before the last colon *)
              if negb (before =? "[" +:+ host +:+ "]")%string then None
              else if ContainsByte rest "[" || ContainsByte after "]" then None
              else Some host
          end
      | _ =>
          if ContainsByte before ":" then None
          else if ContainsByte hp "[" || ContainsByte hp "]" then None
          else Some before
      end
  end.

(** ** Examples *)

Module NetipExample.

Definition shown (s : string) : option string := Addr_String <$> ParseAddr s.

Example parse_and_print :
  List.map shown ["203.0.113.7"; "::ffff:203.0.113.7"; "2001:db8:1:2:3:4:5:6"; "2001:DB8::"; "::1"; "fe80::1%eth0";
                  "1:0:0:2:0:0:0:3"; "::"; "1.2.3"; "01.2.3.4"; "1:2:3:4:5:6:7:8:9"; "1::2::3"; "::1:2:3:4:5:6:7:8";
                  "2001:db8::192.0.2.33"; "x"; ""]
  = [Some "203.0.113.7"; Some "::ffff:203.0.113.7"; Some "2001:db8:1:2:3:4:5:6"; Some "2001:db8::"; Some "::1";
     Some "fe80::1%eth0"; Some "1:0:0:2::3"; Some "::"; None; None; None; None; None; Some "2001:db8::c000:221";
     None; None].
Proof. vm_compute. reflexivity. Qed.

Example hosts :
  List.map SplitHostPort ["203.0.113.7:51234"; "[::1]:443"; "203.0.113.7"; "::1"; "[::1]"; "not-an-ip:80"; "a:b:c"; ""]
  = [Some "203.0.113.7"; Some "::1"; None; None; None; Some "not-an-ip"; None; None].
Proof. vm_compute. reflexivity. Qed.

Example prefixes :
  List.map (fun s => Prefix_String <$> (Masked <$> ParsePrefix s)) ["10.1.2.3/8"; "2001:db8::1/32"; "10.0.0.0/33"; "10.0.0.0/08"; "fe80::%a/64"]
  = [Some "10.0.0.0/8"; Some "2001:db8::/32"; None; None; None].
Proof. vm_compute. reflexivity. Qed.

End NetipExample.
