(* ===== verification/Ratelimit.v ===== *)
(** * The token-bucket limiter (ratelimit/ratelimit.go)

    One bucket per key, refilled continuously and capped at the burst, with the
    least recently used key dropped past [maxKeys]. [l_order] is the list of
    buckets, most recently used first; the Go map indexes its elements by key.
    The theorems bound its memory and what it ever grants. *)

From Stdlib Require Import Qabs Lqa.
From S2P Require Import Prelude GoFloat.

#[local] Open Scope Z_scope.

(** Whether the compiler fuses [x*y + z]; the Go specification allows both. *)
Class Codegen := { fuses_muladd : bool }.

Record bucket := mkBucket { b_key : string; b_tokens : Q; b_last : time }.

Record Limiter := mkLimiter {
  l_burst : Q;
  l_rate : Q;
  l_maxKeys : Z;
  l_order : list bucket
}.

Definition defaultLimit : Z := 10.
Definition defaultPer : duration := Minute.
Definition defaultMaxKeys : Z := 10000.

Definition WithLimit (n : Z) (per : duration) (l : Limiter) : Limiter :=
  if (0 <? n) && (0 <? per)
  then mkLimiter (float64_of n) (fdiv (float64_of n) (Seconds per)) (l_maxKeys l) (l_order l)
  else l.

Definition WithMaxKeys (n : Z) (l : Limiter) : Limiter :=
  if 0 <? n then mkLimiter (l_burst l) (l_rate l) n (l_order l) else l.

Definition New (opts : list (Limiter -> Limiter)) : Limiter :=
  foldl (fun l o => o l) (WithLimit defaultLimit defaultPer (mkLimiter 0 0 defaultMaxKeys [])) opts.

(** [l.buckets[key]]. *)
Definition lookup_bucket (key : string) (order : list bucket) : option bucket :=
  List.find (fun b => (b_key b =? key)%string) order.

Definition remove_bucket (key : string) (order : list bucket) : list bucket :=
  List.filter (fun b => negb (b_key b =? key)%string) order.

(** [for len(l.buckets) >= l.maxKeys]: drop the back of the list. [n] is its
    length, which every round lowers. *)
Fixpoint evict (n : nat) (maxKeys : Z) (order : list bucket) : list bucket :=
  match n with
  | O => order
  | S n => if maxKeys <=? Z.of_nat (length order) then evict n maxKeys (removelast order) else order
  end.

Definition set_order (order : list bucket) (l : Limiter) : Limiter :=
  mkLimiter (l_burst l) (l_rate l) (l_maxKeys l) order.

Section Operations.
Context `{Codegen}.
Implicit Types (l : Limiter).

(** The refill of a bucket that is present. *)
Definition refill l (now_ : time) (b : bucket) : bucket :=
  let elapsed := Seconds (time_Sub now_ (b_last b)) in
  mkBucket (b_key b)
    (if flt 0 elapsed then fmin (fmuladd fuses_muladd elapsed (l_rate l) (b_tokens b)) (l_burst l) else b_tokens b)
    now_.

(** [l.bucket(key)]: the bucket, and the others behind it. *)
Definition get_bucket l (key : string) (now_ : time) : bucket * list bucket :=
  match lookup_bucket key (l_order l) with
  | Some b => (refill l now_ b, remove_bucket key (l_order l))
  | None => (mkBucket key (l_burst l) now_, evict (length (l_order l)) (l_maxKeys l) (l_order l))
  end.

Definition Limiter_Allow l (key : string) (now_ : time) : Limiter * bool :=
  let (b, rest) := get_bucket l key now_ in
  if flt (b_tokens b) 1 then (set_order (b :: rest) l, false)
  else (set_order (mkBucket (b_key b) (fsub (b_tokens b) 1) (b_last b) :: rest) l, true).

Definition refund_bucket l (key : string) (b : bucket) : bucket :=
  if (b_key b =? key)%string then mkBucket (b_key b) (fmin (fadd (b_tokens b) 1) (l_burst l)) (b_last b) else b.

Definition Limiter_Refund l (key : string) : Limiter :=
  set_order (List.map (refund_bucket l key) (l_order l)) l.

Definition Limiter_Len l : Z := Z.of_nat (length (l_order l)).

End Operations.

(** The tests of the package, evaluated. *)
Module RatelimitExample.
#[local] Instance amd64 : Codegen := {| fuses_muladd := false |}.

Fixpoint allows (l : Limiter) (ops : list (string * time)) : Limiter * list bool :=
  match ops with
  | [] => (l, [])
  | (k, t) :: ops =>
      let (l1, b) := Limiter_Allow l k t in
      let (l2, bs) := allows l1 ops in (l2, b :: bs)
  end.

Example burst_then_refused :
  (allows (New [WithLimit 3 Minute]) [("a", 0); ("a", 0); ("a", 0); ("a", 0); ("b", 0)]).2
    = [true; true; true; false; true].
Proof. vm_compute. reflexivity. Qed.

Example refills_over_time :
  (allows (New [WithLimit 3 Minute])
     [("a", 0); ("a", 0); ("a", 0); ("a", 0); ("a", 20 * Second); ("a", 20 * Second); ("a", Hour); ("a", Hour);
      ("a", Hour); ("a", Hour)]).2
    = [true; true; true; false; true; false; true; true; true; false].
Proof. vm_compute. reflexivity. Qed.

Example least_recently_used_evicted :
  (allows (New [WithLimit 1 Hour; WithMaxKeys 2]) [("a", 0); ("b", 0); ("a", 0); ("c", 0); ("a", 0); ("b", 0)]).2
    = [true; true; false; true; false; true].
Proof. vm_compute. reflexivity. Qed.

End RatelimitExample.

(** ** What the limiter keeps *)

#[local] Open Scope Q_scope.

Definition bucket_ok (l : Limiter) (b : bucket) : Prop := 0 <= b_tokens b <= l_burst l.

Record limiter_ok (l : Limiter) : Prop := {
  ok_burst : 1 <= l_burst l;
  ok_burst_small : l_burst l * unit_roundoff <= 1 # 2;
  ok_rate : 0 <= l_rate l <= 2 * l_burst l;
  ok_maxKeys : (0 < l_maxKeys l)%Z;
  ok_keys : NoDup (List.map b_key (l_order l));
  ok_len : (Limiter_Len l <= l_maxKeys l)%Z;
  ok_buckets : Forall (bucket_ok l) (l_order l)
}.

(** What rounding can add to one operation on a bucket. *)
Definition slack (l : Limiter) : Q := 16 * l_burst l * unit_roundoff.

Lemma fmin_nonneg x y : 0 <= x -> 0 <= y -> 0 <= fmin x y.
Proof. intros Hx Hy. unfold fmin. by destruct (flt y x). Qed.

Lemma fmuladd_upper fused x y z :
  0 <= x * y -> 0 <= z ->
  0 <= fmuladd fused x y z <= (z + x * y * (1 + unit_roundoff) + underflow_unit) * (1 + unit_roundoff) + underflow_unit.
Proof.
  intros Hxy Hz. destruct units_small as [[Hu0 Hu] [Hv0 Hv]]. unfold fmuladd, fadd, fmul.
  set (u := unit_roundoff) in *. set (v := underflow_unit) in *.
  assert (0 <= x * y * u) by (apply Qmult_le_0_compat; lra). destruct fused.
  - split; [apply fl_nonneg; lra|]. eapply Qle_trans; [apply fl_upper; lra|]. fold u v.
    assert ((x * y + z) * (1 + u) <= (z + x * y * (1 + u) + v) * (1 + u)) by (apply Qmult_le_r; lra). lra.
  - pose proof (fl_nonneg (x * y) Hxy) as H0. pose proof (fl_upper (x * y) Hxy) as H1. fold u v in H1.
    split; [apply fl_nonneg; lra|]. eapply Qle_trans; [apply fl_upper; lra|]. fold u v.
    assert ((z + fl (x * y)) * (1 + u) <= (z + x * y * (1 + u) + v) * (1 + u)) by (apply Qmult_le_r; lra). lra.
Qed.

Section Facts.
Context `{Codegen}.
Implicit Types (l : Limiter) (b : bucket).

Lemma refill_ok l now_ b : limiter_ok l -> bucket_ok l b -> bucket_ok l (refill l now_ b).
Proof.
  intros Hl [H0 H1]. unfold refill, bucket_ok. cbn [b_tokens]. destruct (flt 0 _) eqn:E; [|done].
  apply flt_iff in E. destruct (ok_rate l Hl) as [Hr _]. pose proof (ok_burst l Hl).
  split; [|apply fmin_le_r]. apply fmin_nonneg; [|lra]. apply fmuladd_upper; [|done].
  apply Qmult_le_0_compat; lra.
Qed.

(** The arithmetic of a refill below the burst. *)
Lemma refill_arith B r t s e u v :
  1 <= B -> 0 <= r -> r <= 2 * B -> 0 <= t -> t <= B -> 0 <= s -> s * r <= B -> 0 <= e ->
  e <= s * (1 + 3 * u) + 3 * v -> 0 < u -> u <= 1 # 1000 -> 0 < v -> v <= u * (1 # 1000) ->
  (t + e * r * (1 + u) + v) * (1 + u) + v <= t + s * r + 16 * B * u.
Proof.
  intros HB Hr Hr2 Ht HtB Hs Hx He Hes Hu0 Hu Hv0 Hv.
  assert (e * r <= (s * (1 + 3 * u) + 3 * v) * r) as H1 by (by apply Qmult_le_compat_r).
  assert (v * r <= v * (2 * B)) as H2 by (apply Qmult_le_compat_nonneg; lra).
  assert (v * B <= u * (1 # 1000) * B) as H3 by (apply Qmult_le_compat_r; lra).
  assert (s * r * u <= B * u) as H4 by (apply Qmult_le_compat_r; lra).
  set (x := s * r) in *. set (bu := B * u) in *.
  assert (u <= bu) as H5.
  { unfold bu. rewrite <- (Qmult_1_l u) at 1. apply Qmult_le_compat_r; lra. }
  assert (e * r <= x + 3 * bu + (6 # 1000) * bu) as H6 by (unfold x, bu in *; lra).
  assert (0 <= x) as Hx0 by (apply Qmult_le_0_compat; lra).
  assert (x + 3 * bu + (6 # 1000) * bu <= 2 * B) as H7.
  { assert (bu <= B * (1 # 1000)) by (unfold bu; apply Qmult_le_compat_nonneg; lra). lra. }
  assert (e * r * u <= 2 * B * u) as H8 by (apply Qmult_le_compat_r; lra).
  assert (t * u <= B * u) as H9 by (apply Qmult_le_compat_r; lra).
  assert (e * r * u * u <= 2 * B * u * u) as H10 by (apply Qmult_le_compat_r; lra).
  assert (B * u * u <= B * u * (1 # 1000)) as H11 by (apply Qmult_le_compat_nonneg; [fold bu; lra|lra]).
  assert (v * u <= v * (1 # 1000)) as H12 by (apply Qmult_le_compat_nonneg; lra).
  unfold bu in *. lra.
Qed.

Lemma seconds_of_mono d d' : (d <= d')%Z -> seconds_of d <= seconds_of d'.
Proof.
  intros Hd. unfold seconds_of. apply Qmult_le_compat_r; [by rewrite <- Zle_Qle|]. vm_compute. discriminate.
Qed.

Lemma seconds_of_nonneg d : (0 <= d)%Z -> 0 <= seconds_of d.
Proof.
  intros Hd. apply Qle_shift_div_l; [reflexivity|]. rewrite Qmult_0_l. change 0 with (inject_Z 0).
  by rewrite <- Zle_Qle.
Qed.

Lemma refill_upper l now_ b :
  limiter_ok l -> bucket_ok l b -> (b_last b <= now_)%Z ->
  b_tokens (refill l now_ b) <= b_tokens b + seconds_of (now_ - b_last b) * l_rate l + slack l.
Proof.
  intros Hl [H0 H1] Ht. unfold refill. cbn [b_tokens]. destruct (ok_rate l Hl) as [Hr Hr2].
  pose proof (ok_burst l Hl) as HB. destruct units_small as [[Hu0 Hu] [Hv0 Hv]].
  set (s := seconds_of (now_ - b_last b)). assert (Hs : 0 <= s) by (apply seconds_of_nonneg; lia).
  assert (0 <= s * l_rate l) by (by apply Qmult_le_0_compat).
  assert (Hsl : 0 <= slack l) by (unfold slack; apply Qmult_le_0_compat; lra).
  destruct (flt 0 _) eqn:E; [|lra]. apply flt_iff in E.
  destruct (Qlt_le_dec (l_burst l) (s * l_rate l)) as [Hbig|Hsm].
  { pose proof (fmin_le_r (fmuladd fuses_muladd (Seconds (time_Sub now_ (b_last b))) (l_rate l) (b_tokens b))
      (l_burst l)). lra. }
  eapply Qle_trans; [apply fmin_le_l|].
  assert (Hd : (0 <= time_Sub now_ (b_last b) <= int64_max)%Z) by (unfold time_Sub, int64_min, int64_max; lia).
  destruct (Seconds_bounds _ Hd) as [He0 He].
  assert (Hds : seconds_of (time_Sub now_ (b_last b)) <= s).
  { apply seconds_of_mono. unfold time_Sub, int64_min, int64_max. lia. }
  eapply Qle_trans; [apply fmuladd_upper; [by apply Qmult_le_0_compat|done]|].
  apply refill_arith; try done. eapply Qle_trans; [exact He|].
  assert (seconds_of (time_Sub now_ (b_last b)) * (1 + 3 * unit_roundoff) <= s * (1 + 3 * unit_roundoff)) by
    (apply Qmult_le_compat_r; lra). lra.
Qed.

Lemma spend_ok l b :
  limiter_ok l -> bucket_ok l b -> 1 <= b_tokens b ->
  0 <= fsub (b_tokens b) 1 <= l_burst l /\ fsub (b_tokens b) 1 <= b_tokens b - 1 + slack l.
Proof.
  intros Hl [H0 H1] Hge. pose proof (ok_burst l Hl) as HB. destruct units_small as [[Hu0 Hu] [Hv0 Hv]]. unfold fsub.
  pose proof (fl_nonneg (b_tokens b - 1) ltac:(lra)). pose proof (fl_upper_le (b_tokens b - 1) (l_burst l) ltac:(lra)).
  assert (unit_roundoff <= l_burst l * unit_roundoff).
  { rewrite <- (Qmult_1_l unit_roundoff) at 1. apply Qmult_le_compat_r; lra. }
  pose proof (ok_burst_small l Hl). unfold slack. repeat split; lra.
Qed.

Lemma refund_ok l b :
  limiter_ok l -> bucket_ok l b ->
  0 <= fmin (fadd (b_tokens b) 1) (l_burst l) <= l_burst l /\
  fmin (fadd (b_tokens b) 1) (l_burst l) <= b_tokens b + 1 + slack l.
Proof.
  intros Hl [H0 H1]. pose proof (ok_burst l Hl) as HB. destruct units_small as [[Hu0 Hu] [Hv0 Hv]]. unfold fadd.
  pose proof (fl_nonneg (b_tokens b + 1) ltac:(lra)).
  pose proof (fl_upper_le (b_tokens b + 1) (2 * l_burst l) ltac:(lra)).
  pose proof (fmin_le_l (fl (b_tokens b + 1)) (l_burst l)). pose proof (fmin_le_r (fl (b_tokens b + 1)) (l_burst l)).
  assert (unit_roundoff <= l_burst l * unit_roundoff).
  { rewrite <- (Qmult_1_l unit_roundoff) at 1. apply Qmult_le_compat_r; lra. }
  split; [split; [apply fmin_nonneg; lra|done]|]. unfold slack. lra.
Qed.

(** *** The list of buckets *)

Lemma evict_prefix n mk order : evict n mk order `prefix_of` order.
Proof.
  revert order. induction n as [|n IH]; intros order; cbn [evict]; [done|]. destruct (_ <=? _)%Z; [|done].
  etrans; [apply IH|]. destruct order as [|b order] using rev_ind; [done|]. rewrite removelast_last. by exists [b].
Qed.

Lemma length_removelast {A} (order : list A) : length (removelast order) = pred (length order).
Proof.
  destruct order as [|b order] using rev_ind; [done|]. rewrite removelast_last, length_app. cbn. lia.
Qed.

Lemma evict_room n mk order :
  (0 < mk)%Z -> (length order <= n)%nat -> (Z.of_nat (length (evict n mk order)) < mk)%Z.
Proof.
  revert order. induction n as [|n IH]; intros order Hmk Hn; cbn [evict].
  - destruct order; cbn in *; lia.
  - destruct (mk <=? _)%Z eqn:E; [|lia]. apply IH; [done|]. rewrite length_removelast. lia.
Qed.

Lemma evict_none n mk order : (Z.of_nat (length order) < mk)%Z -> evict n mk order = order.
Proof. intros Hl. destruct n; [done|]. cbn [evict]. by rewrite (proj2 (Z.leb_gt _ _)). Qed.

Lemma lookup_bucket_Some key order b :
  lookup_bucket key order = Some b -> b_key b = key /\ In b order.
Proof. intros Hf. apply List.find_some in Hf as [Hin Hk%String.eqb_eq]. done. Qed.

Lemma lookup_bucket_None key order : lookup_bucket key order = None -> key ∉ List.map b_key order.
Proof.
  intros Hf Hin. apply list_elem_of_In, in_map_iff in Hin as (b & <- & Hb).
  pose proof (List.find_none _ _ Hf _ Hb) as Hk. cbn in Hk. by rewrite String.eqb_refl in Hk.
Qed.

Lemma remove_bucket_keys key order : NoDup (List.map b_key order) -> NoDup (List.map b_key (remove_bucket key order)).
Proof.
  induction order as [|b order IH]; cbn; [done|]. intros [Hn Hd]%NoDup_cons. destruct (_ =? _)%string; cbn; [by apply IH|].
  apply NoDup_cons. split; [|by apply IH]. intros Hin. apply Hn.
  apply list_elem_of_In, in_map_iff in Hin as (b' & Hb & Hin). apply filter_In in Hin as [Hin _].
  apply list_elem_of_In, in_map_iff. eauto.
Qed.

Lemma remove_bucket_absent key order : key ∉ List.map b_key (remove_bucket key order).
Proof.
  intros Hin. apply list_elem_of_In, in_map_iff in Hin as (b & Hb & Hin). apply filter_In in Hin as [_ Hk].
  by rewrite Hb, String.eqb_refl in Hk.
Qed.

Lemma remove_bucket_shrinks key order b :
  lookup_bucket key order = Some b -> (length (remove_bucket key order) < length order)%nat.
Proof.
  intros [Hk Hin]%lookup_bucket_Some. unfold remove_bucket.
  induction order as [|c order IH]; [done|]. cbn [List.filter]. destruct Hin as [->|Hin].
  - rewrite Hk, String.eqb_refl. cbn. pose proof (filter_length_le (fun b => negb (b_key b =? key)%string) order). lia.
  - specialize (IH Hin). destruct (negb _); cbn; lia.
Qed.

Lemma get_bucket_ok l key now_ :
  limiter_ok l ->
  let '(b, rest) := get_bucket l key now_ in
  b_key b = key /\ b_last b = now_ /\ bucket_ok l b /\ NoDup (List.map b_key (b :: rest)) /\
  (Z.of_nat (length (b :: rest)) <= l_maxKeys l)%Z /\ Forall (bucket_ok l) rest.
Proof.
  intros Hl. pose proof (ok_keys l Hl) as Hk. pose proof (ok_len l Hl) as Hn. unfold Limiter_Len in Hn.
  pose proof (ok_buckets l Hl) as Hb. unfold get_bucket.
  destruct (lookup_bucket key (l_order l)) as [b|] eqn:Hf.
  - apply remove_bucket_shrinks in Hf as Hs. apply lookup_bucket_Some in Hf as [Hbk Hin].
    assert (bucket_ok l b) as Hbo by (rewrite Forall_forall in Hb; apply Hb; by apply list_elem_of_In).
    split; [done|]. split; [done|]. split; [by apply refill_ok|]. split; [|split].
    + apply NoDup_cons. split; [cbn; rewrite Hbk; apply remove_bucket_absent|by apply remove_bucket_keys].
    + cbn [length]. lia.
    + rewrite Forall_forall in *. intros c Hc. apply Hb. apply list_elem_of_In in Hc.
      apply filter_In in Hc as [Hc _]. by apply list_elem_of_In.
  - apply lookup_bucket_None in Hf. pose proof (ok_maxKeys l Hl) as Hm. pose proof (ok_burst l Hl).
    pose proof (evict_room (length (l_order l)) _ (l_order l) Hm ltac:(lia)) as He.
    destruct (evict_prefix (length (l_order l)) (l_maxKeys l) (l_order l)) as [tl Ht].
    set (ev := evict _ _ _) in *. split; [done|]. split; [done|]. split; [unfold bucket_ok; cbn; lra|].
    rewrite Ht, map_app in Hk, Hf. split; [|split].
    + apply NoDup_cons. split; [cbn; intros Hin; apply Hf, elem_of_app; by left|]. by apply NoDup_app in Hk as [Hk _].
    + cbn [length]. lia.
    + rewrite Ht in Hb. by apply Forall_app in Hb as [Hb _].
Qed.

Lemma set_order_ok l order :
  limiter_ok l -> NoDup (List.map b_key order) -> (Z.of_nat (length order) <= l_maxKeys l)%Z ->
  Forall (bucket_ok l) order -> limiter_ok (set_order order l).
Proof. intros [] Hk Hn Hb. by constructor. Qed.

Lemma Allow_ok l key now_ : limiter_ok l -> limiter_ok (Limiter_Allow l key now_).1.
Proof.
  intros Hl. pose proof (get_bucket_ok l key now_ Hl) as Hg. unfold Limiter_Allow.
  destruct (get_bucket l key now_) as [b rest]. destruct Hg as (Hk & _ & Hb & Hnd & Hn & Hr).
  destruct (flt _ _) eqn:E; cbn [fst].
  - apply set_order_ok; [done..|]. by constructor.
  - apply flt_false in E. destruct (spend_ok l b Hl Hb E) as [Hs _]. apply set_order_ok; [done..|]. by constructor.
Qed.

Lemma refund_keys l key order : List.map b_key (List.map (refund_bucket l key) order) = List.map b_key order.
Proof.
  rewrite map_map. apply map_ext. intros b. unfold refund_bucket. by destruct (_ =? _)%string.
Qed.

Lemma Refund_ok l key : limiter_ok l -> limiter_ok (Limiter_Refund l key).
Proof.
  intros Hl. destruct (Hl) as [? ? ? ? Hk Hn Hb]. unfold Limiter_Refund. apply set_order_ok; [done|..].
  - by rewrite refund_keys.
  - by rewrite length_map.
  - apply Forall_map. eapply Forall_impl; [exact Hb|]. intros b Hbo. unfold compose, refund_bucket.
    destruct (_ =? _)%string; [|done]. by apply refund_ok.
Qed.

End Facts.

(** ** What the limiter grants *)

Inductive limiter_op := OpAllow (key : string) | OpRefund (key : string).

Definition op_key (o : limiter_op) : string := match o with OpAllow k | OpRefund k => k end.

Section Runs.
Context `{Codegen}.
Implicit Types (l : Limiter) (b : bucket).

(** A run: each operation with the time it is served at, in the order the mutex
    serialises them. The result is the limiter and, per key, what was granted
    less what was refunded. *)
Definition run_op (o : time * limiter_op) l : Limiter * (string -> Z) :=
  match o.2 with
  | OpAllow k =>
      let (l', ok) := Limiter_Allow l k o.1 in
      (l', fun k' => if (ok && (k =? k')%string)%bool then 1%Z else 0%Z)
  | OpRefund k => (Limiter_Refund l k, fun k' => if (k =? k')%string then (-1)%Z else 0%Z)
  end.

Fixpoint run_ops (ops : list (time * limiter_op)) l : Limiter * (string -> Z) :=
  match ops with
  | [] => (l, fun _ => 0%Z)
  | o :: ops =>
      let (l1, g1) := run_op o l in
      let (l2, g2) := run_ops ops l1 in
      (l2, fun k => (g1 k + g2 k)%Z)
  end.

(** The key's account: what its bucket still holds, plus what it was granted
    net of refunds ([g]), is covered by the burst and the refill since [t0]; or
    the key was not served since then. *)
Definition account l (key : string) (t0 : time) (g n : Z) : Prop :=
  match lookup_bucket key (l_order l) with
  | None => (g <= 0)%Z
  | Some b =>
      ((b_last b < t0)%Z /\ (g <= 0)%Z) \/
      b_tokens b + inject_Z g <=
        l_burst l + seconds_of (b_last b - t0) * l_rate l + inject_Z (2 * n) * slack l
  end.

Lemma slack_nonneg l : limiter_ok l -> 0 <= slack l.
Proof.
  intros Hl. pose proof (ok_burst l Hl). destruct units_small as [[Hu0 _] _].
  unfold slack. apply Qmult_le_0_compat; lra.
Qed.

Lemma inject_nonneg n : (0 <= n)%Z -> 0 <= inject_Z n.
Proof. intros Hn. change 0 with (inject_Z 0). by rewrite <- Zle_Qle. Qed.

Lemma inject_nonpos n : (n <= 0)%Z -> inject_Z n <= 0.
Proof. intros Hn. change 0 with (inject_Z 0). by rewrite <- Zle_Qle. Qed.

Lemma seconds_of_plus a c : seconds_of (a + c) == seconds_of a + seconds_of c.
Proof. unfold seconds_of. rewrite inject_Z_plus. field. discriminate. Qed.

Lemma lookup_cons b rest key :
  lookup_bucket key (b :: rest) = if (b_key b =? key)%string then Some b else lookup_bucket key rest.
Proof. done. Qed.

Lemma lookup_remove_ne key key' order : key <> key' ->
  lookup_bucket key' (remove_bucket key order) = lookup_bucket key' order.
Proof.
  intros Hne. induction order as [|b order IH]; [done|]. cbn [remove_bucket List.filter].
  fold (remove_bucket key order). destruct (b_key b =? key)%string eqn:E; cbn [negb]; rewrite ?lookup_cons; [|by rewrite IH].
  apply String.eqb_eq in E as ->. rewrite (proj2 (String.eqb_neq _ _) Hne). exact IH.
Qed.

(** With room for the key there is no eviction: other keys keep their bucket. *)
Lemma get_bucket_others l key key' now_ :
  key <> key' -> (is_Some (lookup_bucket key (l_order l)) \/ Limiter_Len l < l_maxKeys l)%Z ->
  lookup_bucket key' (get_bucket l key now_).2 = lookup_bucket key' (l_order l).
Proof.
  intros Hne Hroom. unfold get_bucket. destruct (lookup_bucket key (l_order l)) as [b|].
  - by apply lookup_remove_ne.
  - destruct Hroom as [[b [=]]|Hroom]. cbn [snd]. by rewrite evict_none.
Qed.

(** The bucket an access works on satisfies the account at its time. *)
Lemma access_account l key now_ t0 g n :
  limiter_ok l -> (t0 <= now_)%Z -> (0 <= n)%Z ->
  (forall b, lookup_bucket key (l_order l) = Some b -> (b_last b <= now_)%Z) ->
  account l key t0 g n ->
  b_tokens (get_bucket l key now_).1 + inject_Z g <=
    l_burst l + seconds_of (now_ - t0) * l_rate l + inject_Z (2 * n) * slack l + slack l.
Proof.
  intros Hl Ht Hn Hlast. unfold account, get_bucket. pose proof (slack_nonneg l Hl) as Hs.
  destruct (ok_rate l Hl) as [Hr _].
  assert (0 <= seconds_of (now_ - t0) * l_rate l) by (apply Qmult_le_0_compat; [apply seconds_of_nonneg; lia|lra]).
  assert (0 <= inject_Z (2 * n) * slack l) by (apply Qmult_le_0_compat; [apply inject_nonneg; lia|lra]).
  destruct (lookup_bucket key (l_order l)) as [b|] eqn:Hf; cbn [fst].
  - apply lookup_bucket_Some in Hf as Hin. destruct Hin as [_ Hin].
    assert (Hb : bucket_ok l b).
    { pose proof (ok_buckets l Hl) as Hb. rewrite Forall_forall in Hb. by apply Hb, list_elem_of_In. }
    intros [[_ Hg%inject_nonpos]|Hacc].
    + destruct (refill_ok l now_ b Hl Hb) as [_ Hmax]. lra.
    + pose proof (refill_upper l now_ b Hl Hb (Hlast b eq_refl)) as Hup.
      assert (seconds_of (now_ - t0) * l_rate l ==
        seconds_of (b_last b - t0) * l_rate l + seconds_of (now_ - b_last b) * l_rate l) as ->.
      { rewrite <- Qmult_plus_distr_l, <- seconds_of_plus. by replace (b_last b - t0 + (now_ - b_last b))%Z with (now_ - t0)%Z by lia. }
      lra.
  - intros Hg%inject_nonpos. cbn [b_tokens]. lra.
Qed.

Lemma account_mono l key t0 g n n' : limiter_ok l -> (n <= n')%Z -> account l key t0 g n -> account l key t0 g n'.
Proof.
  intros Hl Hn. unfold account. destruct (lookup_bucket _ _) as [b|]; [|done]. intros [Ha|Ha]; [by left|right].
  pose proof (slack_nonneg l Hl). assert (inject_Z (2 * n) * slack l <= inject_Z (2 * n') * slack l).
  { apply Qmult_le_compat_r; [|done]. rewrite <- Zle_Qle. lia. } lra.
Qed.

Lemma inject_two_more n s : inject_Z (2 * (n + 1)) * s == inject_Z (2 * n) * s + 2 * s.
Proof. rewrite !inject_Z_mult, inject_Z_plus. change (inject_Z 1) with 1. change (inject_Z 2) with 2. ring. Qed.

Lemma lookup_refund l key key' order :
  lookup_bucket key' (List.map (refund_bucket l key) order) = refund_bucket l key <$> lookup_bucket key' order.
Proof.
  induction order as [|b order IH]; [done|]. cbn [List.map]. rewrite !lookup_cons.
  assert (b_key (refund_bucket l key b) = b_key b) as -> by (unfold refund_bucket; by destruct (_ =? _)%string).
  by destruct (_ =? _)%string.
Qed.

(** What holds between the operations of a run over the keys [K]. *)
Record run_ok (K : gset string) (t0 tcur : time) (l : Limiter) : Prop := {
  ro_ok : limiter_ok l;
  ro_keys : forall b, In b (l_order l) -> b_key b ∈ K /\ (b_last b <= tcur)%Z;
  ro_room : (Z.of_nat (size K) <= l_maxKeys l)%Z
}.

Lemma run_room K t0 tcur l key :
  run_ok K t0 tcur l -> key ∈ K -> (is_Some (lookup_bucket key (l_order l)) \/ Limiter_Len l < l_maxKeys l)%Z.
Proof.
  intros Hr Hk. destruct (lookup_bucket key (l_order l)) as [b|] eqn:Hf; [by left; eexists|right].
  apply lookup_bucket_None in Hf. pose proof (ok_keys l (ro_ok _ _ _ _ Hr)) as Hnd.
  assert (Hle : (length (key :: List.map b_key (l_order l)) <= size K)%nat).
  { rewrite <- (size_list_to_set (C := gset string) (key :: List.map b_key (l_order l))) by (by apply NoDup_cons).
    apply subseteq_size. intros k. rewrite elem_of_list_to_set. intros [->|Hin]%elem_of_cons; [done|].
    apply list_elem_of_In, in_map_iff in Hin as (b & <- & Hb). by apply (ro_keys _ _ _ _ Hr). }
  cbn [length] in Hle. rewrite length_map in Hle. pose proof (ro_room _ _ _ _ Hr). unfold Limiter_Len. lia.
Qed.

Lemma get_bucket_rest l key now_ b : In b (get_bucket l key now_).2 -> In b (l_order l).
Proof.
  unfold get_bucket. destruct (lookup_bucket _ _); cbn [snd].
  - intros [Hin _]%filter_In. done.
  - destruct (evict_prefix (length (l_order l)) (l_maxKeys l) (l_order l)) as [tl Ht]. intros Hin.
    rewrite Ht. apply in_app_iff. by left.
Qed.

Lemma run_op_ok K t0 tcur l o :
  run_ok K t0 tcur l -> (tcur <= o.1)%Z -> op_key o.2 ∈ K -> run_ok K t0 o.1 (run_op o l).1.
Proof.
  intros [Hl Hb Hm] Ht Hk. destruct o as [t [k|k]]; cbn [fst snd op_key] in *; unfold run_op; cbn [fst snd].
  - pose proof (Allow_ok l k t Hl) as Hok. pose proof (get_bucket_ok l k t Hl) as Hg. revert Hok.
    pose proof (get_bucket_rest l k t) as Hrest. unfold Limiter_Allow.
    destruct (get_bucket l k t) as [b rest]. destruct Hg as (Hbk & Hbl & _). cbn [snd] in Hrest.
    destruct (flt _ _); cbn [fst]; intros Hok; (constructor; [done| |done]); cbn [set_order l_order];
      intros b' [<-|Hin]; try (cbn; split; [by rewrite Hbk|lia]);
      destruct (Hb b' (Hrest b' Hin)); split; [done|lia|done|lia].
  - constructor; [by apply Refund_ok| |done]. cbn. intros b' Hin. apply in_map_iff in Hin as (b & <- & Hin).
    destruct (Hb b Hin). unfold refund_bucket. destruct (_ =? _)%string; cbn; split; [done|lia|done|lia].
Qed.

Lemma run_op_params o l : l_burst (run_op o l).1 = l_burst l /\ l_rate (run_op o l).1 = l_rate l.
Proof.
  destruct o as [t [k|k]]; unfold run_op, Limiter_Allow; cbn [fst snd]; [|done].
  destruct (get_bucket l k t) as [b rest]. by destruct (flt _ _).
Qed.

Lemma run_op_account K t0 tcur l o key g n :
  run_ok K t0 tcur l -> (t0 <= o.1)%Z -> (tcur <= o.1)%Z -> (0 <= n)%Z -> op_key o.2 ∈ K ->
  account l key t0 g n -> account (run_op o l).1 key t0 (g + (run_op o l).2 key) (n + 1).
Proof.
  intros Hr Ht0 Ht Hn Hk Ha. pose proof (ro_ok _ _ _ _ Hr) as Hl. pose proof (slack_nonneg l Hl) as Hs.
  destruct o as [t [k|k]]; cbn [fst snd op_key] in *; unfold run_op; cbn [fst snd].
  - pose proof (get_bucket_ok l k t Hl) as Hg. pose proof (run_room _ _ _ _ _ Hr Hk) as Hroom.
    pose proof (fun Hne => get_bucket_others l k key t Hne Hroom) as Hoth.
    assert (Hacc : k = key -> b_tokens (get_bucket l k t).1 + inject_Z g <=
      l_burst l + seconds_of (t - t0) * l_rate l + inject_Z (2 * n) * slack l + slack l).
    { intros ->. apply access_account; [done..| |done]. intros b [_ Hin]%lookup_bucket_Some.
      apply (ro_keys _ _ _ _ Hr) in Hin as [_ Hin]. lia. }
    unfold Limiter_Allow. destruct (get_bucket l k t) as [b rest]. destruct Hg as (Hbk & Hbl & Hbo & _).
    cbn [fst snd] in *. unfold account. destruct (flt _ _) eqn:E; cbn [fst snd set_order l_order]; rewrite lookup_cons;
      cbn [b_key b_tokens b_last andb]; rewrite Hbk; destruct (k =? key)%string eqn:Ek.
    + right. rewrite Z.add_0_r, Hbl. apply String.eqb_eq in Ek. specialize (Hacc Ek).
      unfold slack at 1; cbn [l_burst l_rate set_order b_tokens b_last]; fold (slack l). rewrite inject_two_more. lra.
    + apply String.eqb_neq in Ek. rewrite Hoth, Z.add_0_r by done. by apply (account_mono l key t0 g n (n + 1)); [|lia|].
    + right. apply flt_false in E. destruct (spend_ok l b Hl Hbo E) as [_ Hsp]. rewrite Hbl.
      apply String.eqb_eq in Ek. specialize (Hacc Ek). rewrite inject_Z_plus. change (inject_Z 1) with 1.
      unfold slack at 1; cbn [l_burst l_rate set_order b_tokens b_last]; fold (slack l). rewrite inject_two_more. lra.
    + apply String.eqb_neq in Ek. rewrite Hoth, Z.add_0_r by done. by apply (account_mono l key t0 g n (n + 1)); [|lia|].
  - unfold account in *. cbn [Limiter_Refund set_order l_order]. rewrite lookup_refund.
    destruct (lookup_bucket key (l_order l)) as [b|] eqn:Hf; cbn [fmap option_fmap option_map].
    2:{ destruct (_ =? _)%string; lia. }
    apply lookup_bucket_Some in Hf as [Hbk Hin].
    assert (Hb : bucket_ok l b).
    { pose proof (ok_buckets l Hl) as Hb. rewrite Forall_forall in Hb. by apply Hb, list_elem_of_In. }
    unfold refund_bucket. rewrite Hbk, String.eqb_sym. destruct (k =? key)%string eqn:Ek.
    + destruct Ha as [[H1 H2]|Ha]; [left; cbn; split; [done|lia]|right]. cbn [b_tokens b_last].
      destruct (refund_ok l b Hl Hb) as [_ Hrf]. rewrite inject_Z_plus. change (inject_Z (-1)) with (-1).
      unfold slack at 1; cbn [l_burst l_rate Limiter_Refund set_order]; fold (slack l). rewrite inject_two_more. lra.
    + rewrite Z.add_0_r. destruct Ha as [[H1 H2]|Ha]; [by left|right].
      unfold slack at 1; cbn [l_burst l_rate Limiter_Refund set_order]; fold (slack l). rewrite inject_two_more. lra.
Qed.

(** The times of a run, in order from [t] on. *)
Fixpoint in_order (t : time) (ops : list (time * limiter_op)) : Prop :=
  match ops with [] => True | o :: ops => (t <= o.1)%Z /\ in_order o.1 ops end.

Definition end_time (t : time) (ops : list (time * limiter_op)) : time := default t (last ops.*1).

Lemma end_time_cons t o ops : end_time t (o :: ops) = end_time o.1 ops.
Proof. unfold end_time. cbn [fmap list_fmap]. rewrite last_cons. by destruct (last _). Qed.

Lemma in_order_end t ops : in_order t ops -> (t <= end_time t ops)%Z.
Proof.
  revert t. induction ops as [|o ops IH]; intros t; [cbn; lia|]. intros [H1 H2]. rewrite end_time_cons.
  specialize (IH _ H2). lia.
Qed.

Lemma run_account K t0 ops tcur l key g n :
  run_ok K t0 tcur l -> (t0 <= tcur)%Z -> (0 <= n)%Z -> in_order tcur ops ->
  Forall (fun o => op_key o.2 ∈ K) ops -> account l key t0 g n ->
  let r := run_ops ops l in
  run_ok K t0 (end_time tcur ops) r.1 /\ l_burst r.1 = l_burst l /\ l_rate r.1 = l_rate l /\
  account r.1 key t0 (g + r.2 key) (n + Z.of_nat (length ops)).
Proof.
  revert tcur l g n. induction ops as [|o ops IH]; intros tcur l g n Hr Ht Hn Ho HK Ha.
  { cbn. by rewrite !Z.add_0_r. }
  destruct Ho as [Ho Hos]. apply Forall_cons in HK as [Hk HK]. cbn zeta.
  pose proof (run_op_ok K t0 tcur l o Hr Ho Hk) as Hr'.
  pose proof (run_op_account K t0 tcur l o key g n Hr ltac:(lia) Ho Hn Hk Ha) as Ha'.
  destruct (run_op_params o l) as [Hbu Hra]. rewrite end_time_cons. cbn [run_ops].
  destruct (run_op o l) as [l1 g1]. cbn [fst snd] in *.
  destruct (IH o.1 l1 (g + g1 key) (n + 1) Hr' ltac:(lia) ltac:(lia) Hos HK Ha')%Z as (H1 & H2 & H3 & H4).
  destruct (run_ops ops l1) as [l2 g2]. cbn [fst snd length] in *.
  split; [done|]. split; [congruence|]. split; [congruence|].
  replace (g + (g1 key + g2 key))%Z with (g + g1 key + g2 key)%Z by lia.
  replace (n + Z.of_nat (S (length ops)))%Z with (n + 1 + Z.of_nat (length ops))%Z by lia. done.
Qed.

Lemma run_budget (K : gset string) l ops key t0 :
  limiter_ok l -> (forall b, In b (l_order l) -> b_key b ∈ K /\ (b_last b <= t0)%Z) ->
  (Z.of_nat (size K) <= l_maxKeys l)%Z -> in_order t0 ops -> Forall (fun o => op_key o.2 ∈ K) ops ->
  let r := run_ops ops l in
  limiter_ok r.1 /\ (Limiter_Len r.1 <= l_maxKeys r.1)%Z /\
  inject_Z (r.2 key) <=
    l_burst l + seconds_of (end_time t0 ops - t0) * l_rate l + inject_Z (2 * Z.of_nat (length ops)) * slack l.
Proof.
  intros Hl Hb HK Ho Hk. assert (account l key t0 0 0) as Ha.
  { unfold account. destruct (lookup_bucket key (l_order l)) as [b|] eqn:Hf; [|lia].
    apply lookup_bucket_Some in Hf as [_ Hin]. destruct (Hb b Hin) as [_ Hlast].
    destruct (Z.eq_dec (b_last b) t0) as [E|]; [right|left; lia].
    pose proof (ok_buckets l Hl) as Hbo. rewrite Forall_forall in Hbo.
    destruct (Hbo b ltac:(by apply list_elem_of_In)) as [_ Hbu]. rewrite E, Z.sub_diag.
    assert (seconds_of 0 == 0) as -> by reflexivity. change (inject_Z 0) with 0. change (inject_Z (2 * 0)) with 0. lra. }
  destruct (run_account K t0 ops t0 l key 0 0 ltac:(by constructor) ltac:(lia) ltac:(lia) Ho Hk Ha) as (Hr & Hbu & Hra & Hac).
  cbn zeta. destruct (run_ops ops l) as [l2 g2]. cbn [fst snd] in *. destruct Hr as [Hok Hlast _].
  split; [done|]. split; [apply (ok_len _ Hok)|]. unfold account in Hac.
  destruct (ok_rate l Hl) as [Hr0 _]. pose proof (slack_nonneg l Hl). pose proof (ok_burst l Hl). pose proof (in_order_end _ _ Ho).
  assert (0 <= seconds_of (end_time t0 ops - t0) * l_rate l) by (apply Qmult_le_0_compat; [apply seconds_of_nonneg; lia|lra]).
  assert (0 <= inject_Z (2 * Z.of_nat (length ops)) * slack l) by (apply Qmult_le_0_compat; [apply inject_nonneg; lia|lra]).
  destruct (lookup_bucket key (l_order l2)) as [b|] eqn:Hf.
  2:{ assert (g2 key <= 0)%Z as Hg%inject_nonpos by lia. lra. }
  destruct Hac as [[_ Hg]|Hac]; [assert (g2 key <= 0)%Z as Hg'%inject_nonpos by lia; lra|].
  apply lookup_bucket_Some in Hf as [_ Hin]. pose proof (ok_buckets l2 Hok) as Hbo. rewrite Forall_forall in Hbo.
  destruct (Hbo b ltac:(by apply list_elem_of_In)) as [Hb0 _]. destruct (Hlast b Hin) as [_ Hle].
  unfold slack in Hac. rewrite Hbu, Hra in Hac. fold (slack l) in Hac. rewrite !Z.add_0_l in Hac.
  assert (seconds_of (b_last b - t0) * l_rate l <= seconds_of (end_time t0 ops - t0) * l_rate l).
  { apply Qmult_le_compat_r; [apply seconds_of_mono; lia|done]. }
  lra.
Qed.

(** A key never gets more than its budget: over any run of the limiter from a
    consistent state, at times that do not run backwards and over no more keys
    than it tracks, the attempts granted to a key, less those refunded, are at
    most the burst plus the refill rate times the length of the run, up to the
    rounding of the float64 arithmetic (at most 32 units of roundoff of the
    burst per operation); memory stays within [maxKeys] buckets, each holding
    between zero and a burst of tokens. *)
Theorem limiter_bounded (K : gset string) l ops key t0 :
  limiter_ok l -> (forall b, In b (l_order l) -> b_key b ∈ K /\ (b_last b <= t0)%Z) ->
  (Z.of_nat (size K) <= l_maxKeys l)%Z -> in_order t0 ops -> Forall (fun o => op_key o.2 ∈ K) ops ->
  let r := run_ops ops l in
  limiter_ok r.1 /\ (Limiter_Len r.1 <= l_maxKeys r.1)%Z /\
  inject_Z (r.2 key) <=
    l_burst l + seconds_of (end_time t0 ops - t0) * l_rate l + inject_Z (2 * Z.of_nat (length ops)) * slack l.
Proof. apply run_budget. Qed.

End Runs.

(** ** Construction *)

Lemma Seconds_near_one per : (Second <= per <= int64_max)%Z -> 9 # 10 <= Seconds per.
Proof.
  intros Hp. assert (HS : Second = 1000000000%Z) by reflexivity. unfold Seconds, fadd, fdiv.
  assert (Hq : (1 <= Z.quot per Second < 2 ^ 53)%Z).
  { rewrite Z.quot_div_nonneg by lia. split; [apply Z.div_le_lower_bound; lia|].
    apply Z.div_lt_upper_bound; unfold int64_max in *; lia. }
  assert (Hr : (0 <= Z.rem per Second < Second)%Z) by (apply Z.rem_bound_pos; lia).
  pose proof (float64_of_int (Z.quot per Second) ltac:(lia)) as Eq.
  assert (H1 : 1 <= inject_Z (Z.quot per Second)) by (change 1 with (inject_Z 1); rewrite <- Zle_Qle; lia).
  set (y := float64_of (Z.rem per Second) / float64_of Second).
  assert (Hy : 0 <= y).
  { assert (y == inject_Z (Z.rem per Second) / inject_Z Second) as ->.
    { unfold y. by rewrite (float64_of_int (Z.rem per Second)), (float64_of_int Second) by lia. }
    apply seconds_of_nonneg. lia. }
  pose proof (fl_nonneg y Hy) as Hf. set (z := float64_of (Z.quot per Second) + fl y).
  assert (Hz : 1 <= z) by (unfold z; lra). pose proof (fl_err z) as He. rewrite (Qabs_pos z) in He by lra.
  apply Qabs_Qle_condition in He as [He _]. destruct units_small as [[Hu0 Hu] [Hv0 Hv]].
  assert (z * unit_roundoff <= z * (1 # 1000)) by (apply Qmult_le_compat_nonneg; lra). lra.
Qed.

(** A limiter configured with a limit of [n] per window of at least a second
    starts in a consistent state. *)
Lemma New_ok n per :
  (1 <= n < 2 ^ 52)%Z -> (Second <= per <= int64_max)%Z -> limiter_ok (New [WithLimit n per]).
Proof.
  intros Hn Hp. assert (HS : Second = 1000000000%Z) by reflexivity. unfold New. cbn [foldl].
  set (l0 := WithLimit defaultLimit _ _). unfold WithLimit.
  rewrite (proj2 (Z.ltb_lt 0 n)), (proj2 (Z.ltb_lt 0 per)) by lia. cbn [andb].
  pose proof (float64_of_int n ltac:(lia)) as En.
  assert (Hn1 : 1 <= inject_Z n) by (change 1 with (inject_Z 1); rewrite <- Zle_Qle; lia).
  assert (Hn2 : inject_Z n <= inject_Z (2 ^ 52)) by (rewrite <- Zle_Qle; lia).
  pose proof (Seconds_near_one per Hp) as Hs. destruct units_small as [[Hu0 Hu] [Hv0 Hv]].
  set (q := float64_of n / Seconds per).
  assert (Hq0 : 0 <= q) by (apply Qle_shift_div_l; lra).
  constructor; cbn [l_burst l_rate l_maxKeys l_order].
  - lra.
  - assert (float64_of n * unit_roundoff <= inject_Z (2 ^ 52) * unit_roundoff) by (apply Qmult_le_compat_r; lra).
    assert (inject_Z (2 ^ 52) * unit_roundoff == 1 # 2) by reflexivity. lra.
  - unfold fdiv. fold q. split; [by apply fl_nonneg|].
    assert (q <= float64_of n * (10 # 9)) as Hq.
    { apply Qle_shift_div_r; [lra|].
      assert (float64_of n * (10 # 9) * (9 # 10) <= float64_of n * (10 # 9) * Seconds per) by
        (apply Qmult_le_compat_nonneg; lra). lra. }
    pose proof (fl_upper q Hq0) as Hup.
    assert (q * unit_roundoff <= q * (1 # 1000)) by (apply Qmult_le_compat_nonneg; lra). lra.
  - done.
  - apply NoDup_nil_2.
  - done.
  - constructor.
Qed.

(** The witness: three attempts a minute, spent, refused, and refilled. *)
Module RatelimitWitness.
Import RatelimitExample.
#[local] Existing Instance amd64.

Definition l3 : Limiter := New [WithLimit 3 Minute].
Definition ops3 : list (time * limiter_op) :=
  [(0%Z, OpAllow "a"); (0%Z, OpAllow "a"); (0%Z, OpAllow "a"); (0%Z, OpAllow "a"); (1%Z, OpRefund "a");
   (20 * Second, OpAllow "a")%Z].

Lemma limiter_bounded_witness :
  limiter_ok (run_ops ops3 l3).1 /\ (Limiter_Len (run_ops ops3 l3).1 <= l_maxKeys (run_ops ops3 l3).1)%Z /\
  inject_Z ((run_ops ops3 l3).2 "a") <=
    l_burst l3 + seconds_of (end_time 0 ops3 - 0) * l_rate l3 + inject_Z (2 * Z.of_nat (length ops3)) * slack l3.
Proof.
  apply (limiter_bounded {["a"]} l3 ops3 "a" 0).
  - apply New_ok; vm_compute; split; (discriminate || reflexivity).
  - intros b [].
  - vm_compute. discriminate.
  - vm_compute. repeat split; discriminate.
  - repeat constructor; vm_compute; reflexivity.
Defined.

End RatelimitWitness.
