(* ===== verification/Oidc.v ===== *)
(** * The OIDC provider's data and the store interfaces

    The rows of package oidc (authrequest.go, authcode.go, token.go,
    devicecode.go, browsersession.go), the subject of a token, the connector
    ids, the request-parameter caps, the email-domain gate, and the
    consumer-side store interfaces of the handlers as type classes over a store
    type. A store operation returns what the Go method returns: a row beside an
    error. *)

From stdpp Require Import pretty.
From S2P Require Import Prelude GoStrings GoErrors GoEncoding GoCrypto GoURL.

(** ** Rows *)

Record AuthRequest := mkAuthRequest {
  ar_InternalState : string;
  ar_ConnectorID : string;
  ar_ClientID : string;
  ar_RedirectURI : string;
  ar_Scope : string;
  ar_ClientState : string;
  ar_CodeChallenge : string;
  ar_CodeChallengeMethod : string;
  ar_Nonce : string;
  ar_CreatedAt : time;
  ar_ExpiresAt : time
}.

Record Identity := mkIdentity { id_ConnectorID : string; id_Subject : string; id_Email : string }.

Record AuthCode := mkAuthCode {
  ac_Code : string;
  ac_ClientID : string;
  ac_RedirectURI : string;
  ac_ConnectorID : string;
  ac_Subject : string;
  ac_Email : string;
  ac_Scope : string;
  ac_CodeChallenge : string;
  ac_CodeChallengeMethod : string;
  ac_Nonce : string;
  ac_FamilyID : string;
  ac_CreatedAt : time;
  ac_ExpiresAt : time
}.

Record Refresh := mkRefresh {
  rt_Token : string;
  rt_JTI : string;
  rt_ClientID : string;
  rt_ConnectorID : string;
  rt_Subject : string;
  rt_Email : string;
  rt_FamilyID : string;
  rt_AuthTime : time;
  rt_CreatedAt : time;
  rt_ExpiresAt : time
}.

Record DeviceCode := mkDeviceCode {
  dc_Code : string;
  dc_UserCode : string;
  dc_ClientID : string;
  dc_Scope : string;
  dc_ConnectorID : string;
  dc_Subject : string;
  dc_Email : string;
  dc_ApprovedAt : option time;
  dc_DeniedAt : option time;
  dc_LastPolledAt : option time;
  dc_IntervalSeconds : Z;
  dc_CreatedAt : time;
  dc_ExpiresAt : time
}.

Record BrowserSession := mkBrowserSession {
  bs_SID : string;
  bs_ConnectorID : string;
  bs_Subject : string;
  bs_Email : string;
  bs_CreatedAt : time;
  bs_ExpiresAt : time
}.

#[export] Instance AuthRequest_eq_dec : EqDecision AuthRequest.
Proof. solve_decision. Defined.
#[export] Instance Identity_eq_dec : EqDecision Identity.
Proof. solve_decision. Defined.
#[export] Instance AuthCode_eq_dec : EqDecision AuthCode.
Proof. solve_decision. Defined.
#[export] Instance Refresh_eq_dec : EqDecision Refresh.
Proof. solve_decision. Defined.
#[export] Instance DeviceCode_eq_dec : EqDecision DeviceCode.
Proof. solve_decision. Defined.
#[export] Instance BrowserSession_eq_dec : EqDecision BrowserSession.
Proof. solve_decision. Defined.

(** The zero values a store returns beside an error. *)
Definition zeroAuthCode : AuthCode := mkAuthCode "" "" "" "" "" "" "" "" "" "" "" 0 0.
Definition zeroRefresh : Refresh := mkRefresh "" "" "" "" "" "" "" 0 0 0.
Definition zeroAuthRequest : AuthRequest := mkAuthRequest "" "" "" "" "" "" "" "" "" 0 0.
Definition zeroDeviceCode : DeviceCode :=
  mkDeviceCode "" "" "" "" "" "" "" None None None 0 0 0.
Definition zeroBrowserSession : BrowserSession := mkBrowserSession "" "" "" "" 0 0.

(** ** Connector ids and token subjects *)

Definition lower_alpha (c : ascii) : bool := ((97 <=? code c) && (code c <=? 122))%N.
Definition digit (c : ascii) : bool := ((48 <=? code c) && (code c <=? 57))%N.

(** [connectorIDPattern]: [^[a-z][a-z0-9]{0,31}$]. Without the [m] flag Go's
    ["$"] matches only at the end of the text. *)
Definition connectorIDPattern (id : string) : bool :=
  match id with
  | "" => false
  | String c s =>
      lower_alpha c && all_bytes (fun d => lower_alpha d || digit d) s
      && (String.length s <=? 31)%nat
  end.

Definition reservedConnectorIDs : list string := ["key"; "tempogate"; "system"; "local"].

Definition ValidateConnectorID (id : string) : option error :=
  if negb (connectorIDPattern id) then Some (Opaque "oidc: connector id must match the pattern")
  else if bool_decide (id ∈ reservedConnectorIDs) then Some (Opaque "oidc: connector id is reserved")
  else None.

Definition TokenSubject (connectorID subject : string) : string :=
  connectorID +:+ ":" +:+ subject.

Definition ParseTokenSubject (sub : string) : error + (string * string) :=
  match Cut sub ":" with
  | Some (connectorID, subject) =>
      if (subject =? "")%string || bool_decide (ValidateConnectorID connectorID <> None)
      then inl (Opaque "oidc: subject is not of the form <connector>:<sub>")
      else inr (connectorID, subject)
  | None => inl (Opaque "oidc: subject is not of the form <connector>:<sub>")
  end.

(** ** Errors of the handlers *)

Definition StatusBadRequest : Z := 400.
Definition StatusUnauthorized : Z := 401.
Definition StatusTooManyRequests : Z := 429.

Definition oauthErr (status : Z) (oauth_code desc : string) : error := OAuthError status oauth_code desc.

(** ** Request-parameter caps (params.go) *)

Definition maxClientIDLen : Z := 256.
Definition maxRedirectURILen : Z := 2048.
Definition maxScopeLen : Z := 1024.
Definition maxStateLen : Z := 512.
Definition maxNonceLen : Z := 512.
Definition maxCredentialLen : Z := 1024.
Definition pkceChallengeLen : Z := 43.

Definition len (s : string) : Z := Z.of_nat (String.length s).

Record paramCap := mkCap { cap_name : string; cap_value : string; cap_max : Z }.

Fixpoint checkParamLengths (caps : list paramCap) : option error :=
  match caps with
  | [] => None
  | c :: cs =>
      if cap_max c <? len (cap_value c)
      then Some (oauthErr StatusBadRequest "invalid_request" (cap_name c +:+ " exceeds " +:+ pretty (cap_max c) +:+ " bytes"))
      else checkParamLengths cs
  end.

Definition validCodeChallenge (v : string) : bool :=
  (len v =? pkceChallengeLen) && all_bytes url_char v.

(** ** The email-domain gate (callback.go) *)

Section Domains.
Context `{Unicode}.

Definition ParseDomains (raw : string) : gset string :=
  foldr (fun d set =>
           let d := ToLower (TrimSpace d) in
           if (d =? "")%string then set else {[d]} ∪ set) ∅ (Split raw ",").

Definition emailDomainAllowed (allowed : gset string) (email : string) : bool :=
  match CutLast email "@" with
  | None => false
  | Some (_, domain) =>
      if (domain =? "")%string then false else bool_decide (ToLower domain ∈ allowed)
  end.

End Domains.

(** ** The stored form of a secret (state/internal/secret) *)

Definition Hash (v : string) : string := hex_Encode (sha256_Sum256 v).

#[global] Arguments Hash : simpl never.

(** ** Store interfaces *)

(** What every operation of a store is: a state transition with a result. *)
Abbreviation storeOp S A := (S -> S * A).

Class AuthRequestStore (S : Type) := {
  SaveAuthRequest : AuthRequest -> storeOp S (option error)
}.

Class CallbackStore (S : Type) := {
  ConsumeAuthRequest : string -> storeOp S (AuthRequest * option error);
  SaveAuthCode : AuthCode -> storeOp S (option error)
}.

Class TokenStore (S : Type) := {
  ConsumeAuthCode : string -> string -> time -> storeOp S (AuthCode * option error);
  SaveRefresh : Refresh -> storeOp S (option error);
  ConsumeRefresh : string -> string -> time -> storeOp S (Refresh * option error);
  RevokeRefreshFamily : string -> time -> storeOp S (Z * option error)
}.

Class DeviceCodeStore (S : Type) := {
  SaveDeviceCode : DeviceCode -> storeOp S (option error);
  LookupDeviceCodeByDeviceCode : string -> storeOp S (DeviceCode * option error);
  LookupDeviceCodeByUserCode : string -> storeOp S (DeviceCode * option error);
  PollDeviceCode : string -> time -> storeOp S (bool * option error);
  ApproveDeviceCode : string -> Identity -> time -> storeOp S (option error);
  DenyDeviceCode : string -> time -> storeOp S (option error);
  ConsumeDeviceCode : string -> storeOp S (DeviceCode * option error)
}.

Class BrowserSessionStore (S : Type) := {
  SaveBrowserSession : BrowserSession -> storeOp S (option error);
  LookupBrowserSession : string -> storeOp S (BrowserSession * option error);
  DeleteBrowserSession : string -> storeOp S (option error)
}.

(** ** Facts *)

Lemma Hash_length v : len (Hash v) = 64.
Proof.
  unfold Hash, len. rewrite hex_Encode_length, sha256_length. done.
Qed.

Lemma connectorIDPattern_no_colon id : connectorIDPattern id = true -> ContainsByte id ":" = false.
Proof.
  destruct id as [|c s]; [done|]. cbn. intros [[Hc Hs]%andb_true_iff _]%andb_true_iff.
  rewrite (all_bytes_no_byte _ _ _ Hs) by reflexivity. rewrite orb_false_r.
  apply Ascii.eqb_neq. intros ->. by vm_compute in Hc.
Qed.

Lemma ValidateConnectorID_None id :
  ValidateConnectorID id = None <-> connectorIDPattern id = true /\ id ∉ reservedConnectorIDs.
Proof.
  unfold ValidateConnectorID. destruct (connectorIDPattern id); cbn; [|by naive_solver].
  case_bool_decide; naive_solver.
Qed.

(** ** The subject of a token *)

(** A token's sub determines who it names: for a valid connector id and a
    non-empty upstream subject, parsing the minted sub returns exactly the pair
    it was made of, whatever bytes (colons included) the subject has; and
    parsing accepts nothing else. *)
Theorem TokenSubject_roundtrip (c s : string) :
  ValidateConnectorID c = None -> s <> "" ->
  ParseTokenSubject (TokenSubject c s) = inr (c, s) /\
  forall sub, ParseTokenSubject sub = inr (c, s) -> sub = TokenSubject c s.
Proof.
  intros Hc Hs. assert (Hp : connectorIDPattern c = true) by (by apply ValidateConnectorID_None).
  split.
  - unfold ParseTokenSubject, TokenSubject.
    assert (Cut (c +:+ ":" +:+ s) ":" = Some (c, s)) as ->.
    { apply Cut_Some. split; [|by apply connectorIDPattern_no_colon]. by rewrite append_cons. }
    by rewrite Hc, (proj2 (String.eqb_neq _ _) Hs), bool_decide_false by naive_solver.
  - intros sub. unfold ParseTokenSubject. destruct (Cut sub ":") as [[a b]|] eqn:E; [|done].
    destruct (_ || _); [done|]. intros [= -> ->]. by apply Cut_Some in E as [-> _].
Qed.

Lemma TokenSubject_roundtrip_witness :
  ParseTokenSubject (TokenSubject "google" "1:2") = inr ("google", "1:2") /\
  forall sub, ParseTokenSubject sub = inr ("google", "1:2") -> sub = TokenSubject "google" "1:2".
Proof. apply (TokenSubject_roundtrip "google" "1:2"); [reflexivity|discriminate]. Defined.
