(* ===== verification/EndpointLimits.v ===== *)
(** * Per-client rate limits on the public endpoints (oidc/ratelimit.go)

    The middleware that throttles /authorize, /device_authorization, the device
    entry form and /token per client address, what it takes the client address
    to be behind trusted proxies, and [ratelimit.ClientKey]. *)

From stdpp Require Import pretty.
From Stdlib Require Import Qround.
From S2P Require Import Prelude GoStrings GoErrors GoFloat GoNetip Ratelimit Oidc.

#[local] Open Scope Z_scope.

(** ** Client keys *)

(** [ratelimit.ClientKey(remoteAddr)]. *)
Definition ClientKey (remoteAddr : string) : string :=
  let host := default remoteAddr (SplitHostPort remoteAddr) in
  match ParseAddr host with
  | None => host
  | Some addr =>
      let addr := Unmap addr in
      if Is4 addr then Addr_String addr else Prefix_String (Masked (PrefixFrom addr 64))
  end.

(** ** Configuration *)

Record RateLimits := mkRateLimits {
  lim_Authorize : Z;
  lim_DeviceAuthorization : Z;
  lim_DeviceVerification : Z;
  lim_Token : Z
}.

(** [l.Validate()]: Go visits the map in any order, so which negative limit the
    error names is not fixed; here the first in this order. *)
Definition RateLimits_Validate (l : RateLimits) : option error :=
  match List.find (fun nl : string * Z => nl.2 <? 0)
          [("authorize", lim_Authorize l); ("device_authorization", lim_DeviceAuthorization l);
           ("device_verification", lim_DeviceVerification l); ("token", lim_Token l)] with
  | Some (name, n) => Some (Opaque ("oidc: rate limit for " +:+ name +:+ " must not be negative, got " +:+ pretty n))
  | None => None
  end.

Record endpointLimit := mkEndpointLimit {
  el_limiter : Limiter;
  el_retryAfter : string;
  el_html : bool;
  el_label : string
}.

Record RateLimiter := mkRateLimiter {
  rl_trustedProxies : list Prefix;
  rl_endpoints : gmap string endpointLimit
}.

(** [strconv.Itoa(max(1, int(math.Ceil(60/float64(n)))))]. *)
Definition retry_after (n : Z) : string := pretty (Z.max 1 (Qceiling (fdiv 60 (float64_of n)))).

Definition add_endpoint (e : string * (Z * bool * string)) (m : gmap string endpointLimit) : gmap string endpointLimit :=
  let '(id, (perMinute, html, label)) := e in
  if perMinute <=? 0 then m
  else <[id := mkEndpointLimit (New [WithLimit perMinute Minute]) (retry_after perMinute) html label]> m.

Definition NewRateLimiter (limits : RateLimits) (trustedProxies : list Prefix) : RateLimiter :=
  mkRateLimiter trustedProxies
    (foldr add_endpoint ∅
       [("authorize", (lim_Authorize limits, false, "authorize"));
        ("device-authorization", (lim_DeviceAuthorization limits, false, "device_authorization"));
        ("device-ui-submit", (lim_DeviceVerification limits, true, "device_verification"));
        ("token", (lim_Token limits, false, "token"))]).

(** One entry of HTTP_TRUSTED_PROXIES. *)
Definition parse_proxy (s : string) : error + Prefix :=
  if ContainsByte s "/" then
    match ParsePrefix s with
    | None => inl (Opaque ("oidc: trusted proxy " +:+ s))
    | Some p => inr (Masked p)
    end
  else
    match ParseAddr s with
    | None => inl (Opaque ("oidc: trusted proxy " +:+ s +:+ " is not an address or CIDR"))
    | Some addr => let addr := Unmap addr in inr (PrefixFrom addr (BitLen addr))
    end.

Fixpoint parse_proxies (raws : list string) : error + list Prefix :=
  match raws with
  | [] => inr []
  | raw :: raws =>
      let s := TrimSpace raw in
      if (s =? "")%string then parse_proxies raws
      else match parse_proxy s with
           | inl e => inl e
           | inr p => match parse_proxies raws with inl e => inl e | inr ps => inr (p :: ps) end
           end
  end.

Definition ParseTrustedProxies (v : string) : error + list Prefix := parse_proxies (Split v ",").

(** ** The client of a request *)

Definition trusted (r : RateLimiter) (host : string) : bool :=
  match ParseAddr host with
  | None => false
  | Some addr => existsb (fun p => Contains p (Unmap addr)) (rl_trustedProxies r)
  end.

Definition parseForwardedAddr (s : string) : option Addr :=
  let s := TrimSpace s in
  match ParseAddr s with
  | Some addr => Some (Unmap addr)
  | None => Unmap <$> ParseAddrPort s
  end.

(** [forwardedFor(ctx)]: every X-Forwarded-For header, joined. *)
Definition forwardedFor (headers : list (string * string)) : string :=
  String.concat "," (List.map snd (List.filter (fun h => EqualFold h.1 "X-Forwarded-For") headers)).

(** The loop over the hops, from the right. *)
Fixpoint walk_hops (r : RateLimiter) (client : string) (hops : list string) : string :=
  match hops with
  | [] => client
  | hop :: hops =>
      match parseForwardedAddr hop with
      | None => client
      | Some addr =>
          let client := Addr_String addr in
          if negb (trusted r client) then client else walk_hops r client hops
      end
  end.

Definition clientKey (r : RateLimiter) (remoteAddr forwardedFor : string) : string :=
  let peer := default remoteAddr (SplitHostPort remoteAddr) in
  if negb (trusted r peer) || (forwardedFor =? "")%string then ClientKey peer
  else ClientKey (walk_hops r peer (rev (Split forwardedFor ","))).

(** ** The middleware *)

Inductive limited_body := LimitedText (s : string) | LimitedJSON (e : error).

Record limited := mkLimited {
  li_Status : Z;
  li_RetryAfter : string;
  li_CacheControl : string;
  li_ContentType : string;
  li_Body : limited_body
}.

Definition limited_response (e : endpointLimit) : limited :=
  if el_html e
  then mkLimited StatusTooManyRequests (el_retryAfter e) "no-store" "text/plain; charset=utf-8"
         (LimitedText ("Too many attempts from your network. Wait a minute and try again." +:+ String "010" ""))
  else mkLimited StatusTooManyRequests (el_retryAfter e) "no-store" "application/json"
         (LimitedJSON (oauthErr StatusTooManyRequests "temporarily_unavailable"
            ("too many requests from this address; retry after " +:+ el_retryAfter e +:+ " seconds"))).

Record request := mkRequest {
  rq_operation : option string;
  rq_RemoteAddr : string;
  rq_headers : list (string * string)
}.

Section Middleware.
Context `{Codegen}.

(** [None]: the request goes on to [next]. The event is the telemetry of a
    refusal. *)
Definition Middleware (r : RateLimiter) (rq : request) (now_ : time) : RateLimiter * option (limited * event) :=
  match rq_operation rq with
  | None => (r, None)
  | Some op =>
      match rl_endpoints r !! op with
      | None => (r, None)
      | Some e =>
          let (l, ok) := Limiter_Allow (el_limiter e)
                           (clientKey r (rq_RemoteAddr rq) (forwardedFor (rq_headers rq))) now_ in
          let r' := mkRateLimiter (rl_trustedProxies r)
                      (<[op := mkEndpointLimit l (el_retryAfter e) (el_html e) (el_label e)]> (rl_endpoints r)) in
          (r', if (ok : bool) then None
               else Some (limited_response e, Counted "tempogate.rate_limited" [el_label e]))
      end
  end.

End Middleware.

(** ** A client cannot choose its key *)

Lemma Split_cons_sep a b c : Split (a +:+ String c b) c = Split a c ++ Split b c.
Proof.
  induction a as [|d a IH].
  - rewrite append_nil_l. cbn [Split app]. rewrite Ascii.eqb_refl. pose proof (Split_nonempty b c). by destruct (Split b c).
  - rewrite append_cons. cbn [Split]. rewrite IH. pose proof (Split_nonempty a c).
    destruct (Split a c) as [|x xs]; [done|]. cbn [app]. by destruct (Ascii.eqb d c).
Qed.

(** The walk ends at this hop: it is not an address, or not a trusted proxy's. *)
Definition stops (r : RateLimiter) (hop : string) : bool :=
  match parseForwardedAddr hop with None => true | Some addr => negb (trusted r (Addr_String addr)) end.

Lemma walk_hops_stops r client hops more :
  existsb (stops r) hops = true -> walk_hops r client (hops ++ more) = walk_hops r client hops.
Proof.
  revert client. induction hops as [|hop hops IH]; intros client; [done|]. cbn [existsb walk_hops app].
  unfold stops at 1. destruct (parseForwardedAddr hop) as [addr|]; [|done].
  destruct (trusted r (Addr_String addr)); cbn [negb orb]; [by apply IH|done].
Qed.

Lemma existsb_rev {A} (p : A -> bool) (l : list A) : existsb p (rev l) = existsb p l.
Proof.
  apply eq_true_iff_eq. rewrite !existsb_exists.
  split; intros (x & Hx & Hp); exists x; (split; [|done]); [by apply in_rev|by apply in_rev in Hx].
Qed.

(** A client cannot choose the budget it is charged to: a peer that is not a
    trusted proxy is keyed by its own address whatever headers it sends; behind
    trusted proxies, once the X-Forwarded-For list they wrote contains an entry
    that is not a trusted proxy, anything the client put to the left of it
    changes nothing. *)
Theorem client_key_unforgeable (r : RateLimiter) (remoteAddr peer : string) :
  peer = default remoteAddr (SplitHostPort remoteAddr) ->
  (trusted r peer = false -> forall ff, clientKey r remoteAddr ff = ClientKey peer) /\
  (forall vouched forged, existsb (stops r) (Split vouched ",") = true ->
     clientKey r remoteAddr (forged +:+ "," +:+ vouched) = clientKey r remoteAddr vouched).
Proof.
  intros ->. split.
  - intros Ht ff. unfold clientKey. by rewrite Ht.
  - intros vouched forged Hs. unfold clientKey. destruct (trusted r _) eqn:Ht; [|done]. cbn [negb orb].
    change (forged +:+ "," +:+ vouched) with (forged +:+ String "," vouched).
    assert ((forged +:+ String "," vouched =? "")%string = false) as -> by (by destruct forged).
    rewrite Split_cons_sep, rev_app_distr, walk_hops_stops by (by rewrite existsb_rev).
    destruct (vouched =? "")%string eqn:Hv; [|done]. by apply String.eqb_eq in Hv as ->.
Qed.

(** ** The budget of a client *)

Section Budget.
Context `{Codegen}.
Implicit Types (r : RateLimiter).

Definition served_key r (rq : request) : string := clientKey r (rq_RemoteAddr rq) (forwardedFor (rq_headers rq)).

(** A run of the middleware: the requests of one operation and key let through. *)
Fixpoint serve (reqs : list (time * request)) r (op key : string) : RateLimiter * Z :=
  match reqs with
  | [] => (r, 0)
  | (t, rq) :: reqs =>
      let (r1, refused) := Middleware r rq t in
      let (r2, n) := serve reqs r1 op key in
      (r2, (if bool_decide (rq_operation rq = Some op) && (served_key r rq =? key)%string
               && bool_decide (refused = None) then 1 else 0) + n)
  end.

(** What the requests of an operation ask of its limiter. *)
Definition op_requests (op : string) (reqs : list (time * request)) : list (time * request) :=
  List.filter (fun x => bool_decide (rq_operation x.2 = Some op)) reqs.

Definition limiter_ops r (op : string) (reqs : list (time * request)) : list (time * limiter_op) :=
  List.map (fun x => (x.1, OpAllow (served_key r x.2))) (op_requests op reqs).

Lemma served_key_proxies r r' rq : rl_trustedProxies r = rl_trustedProxies r' -> served_key r rq = served_key r' rq.
Proof.
  intros E. unfold served_key, clientKey.
  assert (Ht : forall h, trusted r h = trusted r' h) by (intros h; unfold trusted; by rewrite E).
  assert (Hw : forall c hops, walk_hops r c hops = walk_hops r' c hops).
  { intros c hops. revert c. induction hops as [|h hops IH]; intros c; [done|]. cbn [walk_hops].
    destruct (parseForwardedAddr h); [|done]. rewrite Ht. by rewrite IH. }
  by rewrite Ht, Hw.
Qed.

Lemma limiter_ops_proxies r r' op reqs :
  rl_trustedProxies r = rl_trustedProxies r' -> limiter_ops r op reqs = limiter_ops r' op reqs.
Proof. intros E. apply map_ext. intros x. by rewrite (served_key_proxies r r' _ E). Qed.

(** The middleware is its endpoint's limiter: a run serves each operation as a run
    of that operation's own limiter. *)
Lemma serve_limiter reqs r op key e :
  rl_endpoints r !! op = Some e ->
  exists e', rl_endpoints (serve reqs r op key).1 !! op = Some e' /\
    el_limiter e' = (run_ops (limiter_ops r op reqs) (el_limiter e)).1 /\
    (serve reqs r op key).2 = (run_ops (limiter_ops r op reqs) (el_limiter e)).2 key.
Proof.
  revert r e. induction reqs as [|[t rq] reqs IH]; intros r e He; [by exists e|].
  cbn [serve]. unfold Middleware. unfold limiter_ops, op_requests. cbn [List.filter snd].
  destruct (rq_operation rq) as [o|] eqn:Ho.
  2:{ destruct (IH r e He) as (e' & H1 & H2 & H3). destruct (serve reqs r op key) as [r2 n].
      rewrite (bool_decide_eq_false_2 (None = Some op)) by done. exists e'. cbn [fst snd andb] in *.
      by rewrite Z.add_0_l. }
  destruct (decide (o = op)) as [->|Hne].
  - rewrite He, (bool_decide_eq_true_2 (Some op = Some op)) by done. cbn [List.map run_ops run_op fst snd andb]. fold (served_key r rq).
    destruct (Limiter_Allow (el_limiter e) (served_key r rq) t) as [l ok].
    set (r1 := mkRateLimiter _ _). set (e1 := mkEndpointLimit l (el_retryAfter e) (el_html e) (el_label e)).
    destruct (IH r1 e1) as (e' & H1 & H2 & H3); [apply lookup_insert_eq|].
    rewrite (limiter_ops_proxies r1 r op reqs eq_refl) in H2, H3. unfold limiter_ops, op_requests in H2, H3.
    destruct (serve reqs r1 op key) as [r2 n]. cbn [fst snd el_limiter e1] in *.
    destruct (run_ops _ l) as [l2 g2]. cbn [fst snd] in *. exists e'. split; [done|]. split; [done|]. rewrite H3.
    destruct ok; [rewrite bool_decide_eq_true_2 by done|rewrite bool_decide_eq_false_2 by done];
      by rewrite ?andb_true_r, ?andb_false_r.
  - rewrite (bool_decide_eq_false_2 (Some o = Some op)) by congruence. cbn [andb].
    destruct (rl_endpoints r !! o) as [eo|] eqn:Heo.
    + destruct (Limiter_Allow _ _ t) as [l ok]. set (r1 := mkRateLimiter _ _).
      destruct (IH r1 e) as (e' & H1 & H2 & H3); [unfold r1; cbn [rl_endpoints]; by rewrite lookup_insert_ne|].
      rewrite (limiter_ops_proxies r1 r op reqs eq_refl) in H2, H3. unfold limiter_ops, op_requests in H2, H3.
      destruct (serve reqs r1 op key) as [r2 n]. cbn [fst snd] in *. exists e'. by rewrite Z.add_0_l.
    + destruct (IH r e He) as (e' & H1 & H2 & H3). destruct (serve reqs r op key) as [r2 n]. exists e'.
      cbn [fst snd] in *. by rewrite Z.add_0_l.
Qed.

#[local] Open Scope Q_scope.

(** An address gets no more than its budget at an endpoint: over any traffic
    to the server, at times that do not run backwards and from no more clients
    than a limiter tracks, the requests of one client key that reach the
    handler of a limited operation are at most the limit plus its refill over
    the time of the run, up to float64 rounding; every other request to it is
    answered 429 without running the handler. *)
Theorem endpoint_budget r op e reqs key t0 (K : gset string) :
  rl_endpoints r !! op = Some e -> limiter_ok (el_limiter e) ->
  (forall b, In b (l_order (el_limiter e)) -> b_key b ∈ K /\ (b_last b <= t0)%Z) ->
  (Z.of_nat (size K) <= l_maxKeys (el_limiter e))%Z ->
  in_order t0 (limiter_ops r op reqs) -> Forall (fun x => served_key r x.2 ∈ K) reqs ->
  inject_Z (serve reqs r op key).2 <=
    l_burst (el_limiter e) + seconds_of (end_time t0 (limiter_ops r op reqs) - t0) * l_rate (el_limiter e)
    + inject_Z (2 * Z.of_nat (length (op_requests op reqs))) * slack (el_limiter e).
Proof.
  intros He Hl Hb HK Ho HR. destruct (serve_limiter reqs r op key e He) as (_ & _ & _ & ->).
  assert (length (op_requests op reqs) = length (limiter_ops r op reqs)) as -> by (unfold limiter_ops; by rewrite length_map).
  apply (run_budget K (el_limiter e) (limiter_ops r op reqs) key t0); [done..|].
  apply Forall_map, Forall_forall. intros x Hx. rewrite Forall_forall in HR. apply HR.
  apply list_elem_of_In in Hx. apply filter_In in Hx as [Hx _]. by apply list_elem_of_In.
Qed.

End Budget.

(** ** Examples *)

Module EndpointLimitsExample.
#[local] Existing Instance RatelimitExample.amd64.

(** The package's own table of client keys. *)
Example client_keys :
  List.map ClientKey ["203.0.113.7:51234"; "203.0.113.7"; "[::ffff:203.0.113.7]:443"; "[2001:db8:1:2:3:4:5:6]:443";
                      "[2001:db8:1:2:ffff:ffff:ffff:1]:1"; "not-an-ip:80"; ""]
  = ["203.0.113.7"; "203.0.113.7"; "203.0.113.7"; "2001:db8:1:2::/64"; "2001:db8:1:2::/64"; "not-an-ip"; ""].
Proof. vm_compute. reflexivity. Qed.

Definition proxies : list Prefix := match ParseTrustedProxies "10.0.0.0/8, 192.0.2.1" with inr ps => ps | inl _ => [] end.
Definition limiter : RateLimiter := NewRateLimiter (mkRateLimits 0 0 0 2) proxies.

Example retry_afters : List.map retry_after [1; 2; 7; 60; 600] = ["60"; "30"; "9"; "1"; "1"].
Proof. vm_compute. reflexivity. Qed.

Lemma client_key_unforgeable_witness :
  clientKey limiter "10.1.1.1:80" ("198.51.100.9" +:+ "," +:+ "203.0.113.7, 192.0.2.1")
    = clientKey limiter "10.1.1.1:80" "203.0.113.7, 192.0.2.1" /\
  clientKey limiter "203.0.113.7:80" "198.51.100.9" = "203.0.113.7".
Proof.
  split.
  - apply (client_key_unforgeable limiter "10.1.1.1:80" "10.1.1.1"); vm_compute; reflexivity.
  - apply (client_key_unforgeable limiter "203.0.113.7:80" "203.0.113.7"); vm_compute; reflexivity.
Defined.

Definition token_request : request := mkRequest (Some "token") "203.0.113.7:51234" [("x-forwarded-for", "198.51.100.9")].
Definition traffic : list (time * request) := [(0, token_request); (0, token_request); (1, token_request)].
Definition token_limit : endpointLimit := mkEndpointLimit (New [WithLimit 2 Minute]) "30" false "token".

Lemma endpoint_budget_witness :
  (serve traffic limiter "token" "203.0.113.7").2 = 2 /\
  (inject_Z (serve traffic limiter "token" "203.0.113.7").2 <=
    l_burst (el_limiter token_limit) + seconds_of (end_time 0 (limiter_ops limiter "token" traffic) - 0)
      * l_rate (el_limiter token_limit)
    + inject_Z (2 * Z.of_nat (length (op_requests "token" traffic))) * slack (el_limiter token_limit))%Q.
Proof.
  split; [vm_compute; reflexivity|].
  apply (endpoint_budget limiter "token" token_limit traffic "203.0.113.7" 0 {["203.0.113.7"]}).
  - vm_compute. reflexivity.
  - apply New_ok; vm_compute; split; (discriminate || reflexivity).
  - intros b [].
  - vm_compute. discriminate.
  - vm_compute. repeat split; discriminate.
  - repeat constructor; vm_compute; reflexivity.
Defined.

End EndpointLimitsExample.
