(* ===== verification/Denylist.v ===== *)
(** * The denylist cache (keys/denylist.go, keys/denylist_cache.go)

    The read-through cache between the verifier and the store's denylist: answers
    memoized for a TTL, hydrated on revocation, swept once per TTL and capped.
    The theorems bound its memory, and bound how long after a revocation it can
    still answer "active", under every interleaving of lookups, revocations and
    hydrations. *)

From S2P Require Import Prelude GoStrings GoErrors Oidc.

(** [DenylistChecker], the interface of the backing store. *)
Class DenylistChecker (S : Type) := { IsRevoked : string -> M S bool }.

(** Run a computation on a part of the state. *)
Definition zoom {T S A} (get : T -> S) (put : S -> T -> T) (m : M S A) : M T A := fun w =>
  let (w', r) := m (mkWorld (get (w_store w)) (w_tick w) (w_draw w) (w_trace w) (w_memo w)) in
  (mkWorld (put (w_store w') (w_store w)) (w_tick w') (w_draw w') (w_trace w') (w_memo w'), r).

(** Go ranges over a map in an unspecified order. *)
Class MapOrder := {
  range {A} : gmap string A -> list (string * A);
  range_perm {A} (m : gmap string A) : range m ≡ₚ map_to_list m
}.

#[export] Instance list_order : MapOrder := {| range A m := map_to_list m; range_perm A m := reflexivity _ |}.

Record cacheEntry := mkEntry { ce_revoked : bool; ce_expires : time }.

Record DenylistCache := mkDenylistCache {
  dl_checker : bool;
  dl_ttl : duration;
  dl_maxEntries : Z;
  dl_entries : gmap string cacheEntry;
  dl_nextSweep : time
}.

Definition DefaultDenylistTTL : duration := 30 * Second.
Definition DefaultDenylistMaxEntries : Z := 100000.

(** [NewDenylistCache(opts...)]: the options as an optional checker, TTL and cap;
    the zero time is before any reading of the clock. *)
Definition zero_time : time := - 62135596800 * Second.

Definition NewDenylistCache (checker : bool) (ttl : option duration) (maxEntries : Z) : DenylistCache :=
  mkDenylistCache checker (default DefaultDenylistTTL ttl)
    (if 0 <? maxEntries then maxEntries else DefaultDenylistMaxEntries) ∅ zero_time.

Definition set_entries (m : gmap string cacheEntry) (c : DenylistCache) : DenylistCache :=
  mkDenylistCache (dl_checker c) (dl_ttl c) (dl_maxEntries c) m (dl_nextSweep c).

(** A fresh entry: [ok && now.Before(e.expires)]. *)
Definition cached (c : DenylistCache) (jti : string) (now_ : time) : option bool :=
  match dl_entries c !! jti with
  | Some e => if time_Before now_ (ce_expires e) then Some (ce_revoked e) else None
  | None => None
  end.

Section Cache.
Context `{MapOrder}.
Implicit Types (c : DenylistCache).

(** The loop of [evictOne] over the entries, with the victim so far. *)
Fixpoint evict_loop (victim : string) (l : list (string * cacheEntry)) (m : gmap string cacheEntry) :
    gmap string cacheEntry :=
  match l with
  | [] => delete victim m
  | (k, e) :: l =>
      if negb (ce_revoked e) then delete k m
      else evict_loop (if (victim =? "")%string then k else victim) l m
  end.

Definition evictOne (m : gmap string cacheEntry) : gmap string cacheEntry := evict_loop "" (range m) m.

Definition sweep (now_ : time) (m : gmap string cacheEntry) : gmap string cacheEntry :=
  filter (fun ke => time_Before now_ (ce_expires ke.2) = true) m.

(** [c.store(jti, revoked)]. *)
Definition cache_store c (jti : string) (revoked : bool) (now_ : time) : DenylistCache :=
  let '(entries, nextSweep) :=
    if negb (time_Before now_ (dl_nextSweep c))
    then (sweep now_ (dl_entries c), time_Add now_ (dl_ttl c))
    else (dl_entries c, dl_nextSweep c) in
  let entries :=
    if bool_decide (entries !! jti = None) && (dl_maxEntries c <=? Z.of_nat (size entries))
    then evictOne entries else entries in
  mkDenylistCache (dl_checker c) (dl_ttl c) (dl_maxEntries c)
    (<[jti := mkEntry revoked (time_Add now_ (dl_ttl c))]> entries) nextSweep.

(** [c.Hydrate(jti)]. *)
Definition Hydrate c (jti : string) (now_ : time) : DenylistCache :=
  if (jti =? "")%string then c else cache_store c jti true now_.

(** [c.IsRevoked(ctx, jti)]: the clock is read only when there is an entry, and
    once more when an answer is stored. The cache is itself a checker. *)
Record Cached (S : Type) := mkCached { ca_store : S; ca_cache : DenylistCache }.
#[global] Arguments mkCached {S}.
#[global] Arguments ca_store {S}.
#[global] Arguments ca_cache {S}.

Definition on_cache {S A} (f : DenylistCache -> DenylistCache * A) : M (Cached S) A :=
  on_store (fun p => let (c', r) := f (ca_cache p) in (mkCached (ca_store p) c', r)).

Definition cached_IsRevoked {S} `{Env} `{DenylistChecker S} (jti : string) : M (Cached S) bool :=
  e ← on_cache (fun c => (c, dl_entries c !! jti));
  hit ← match e with
        | Some e => t ← now; mret (if time_Before t (ce_expires e) then Some (ce_revoked e) else None)
        | None => mret None
        end;
  match hit with
  | Some revoked => mret revoked
  | None =>
      has ← on_cache (fun c => (c, dl_checker c));
      if negb has then mret false
      else
        revoked ← zoom ca_store (fun s p => mkCached s (ca_cache p)) (IsRevoked jti);
        t ← now;
        on_cache (fun c => (cache_store c jti revoked t, tt)) ≫= fun _ =>
        mret revoked
  end.

#[export] Instance cached_checker {S} `{Env} `{DenylistChecker S} : DenylistChecker (Cached S) :=
  {| IsRevoked := cached_IsRevoked |}.

(** ** Memory *)

Lemma evict_loop_size m l victim :
  (forall k e, (k, e) ∈ l -> m !! k = Some e) -> (victim = "" /\ l <> [] \/ is_Some (m !! victim)) ->
  "" ∉ l.*1 ->
  (size (evict_loop victim l m) < size m)%nat.
Proof.
  assert (Hd : forall k, is_Some (m !! k) -> (size (delete k m) < size m)%nat).
  { intros k [e He]. rewrite map_size_delete_Some by eauto.
    assert (size m <> 0%nat) by (intros ->%map_size_empty_inv; by rewrite lookup_empty in He). lia. }
  revert victim. induction l as [|[k e] l IH]; intros victim Hl Hv He; cbn [evict_loop].
  - apply Hd. destruct Hv as [[_ Hv]|Hv]; [done|done].
  - assert (m !! k = Some e) as Hk by (apply Hl; left). destruct (negb _); [apply Hd; eauto|].
    apply not_elem_of_cons in He as [Hne He]. apply IH; [|right|done].
    + intros k' e' Hin. apply Hl. by right.
    + destruct (victim =? "")%string eqn:E; [eauto|]. apply String.eqb_neq in E. destruct Hv as [[Hv _]|Hv]; [done|done].
Qed.

Definition cache_ok c : Prop :=
  0 < dl_maxEntries c /\ dl_entries c !! "" = None /\ Z.of_nat (size (dl_entries c)) <= dl_maxEntries c.

Lemma evictOne_size m :
  m <> ∅ -> m !! "" = None -> (size (evictOne m) < size m)%nat.
Proof.
  intros Hm He. unfold evictOne. apply evict_loop_size.
  - intros k e Hin. rewrite range_perm in Hin. by apply elem_of_map_to_list.
  - left. split; [done|]. intros Hr. apply Hm, map_to_list_empty_iff. apply Permutation_nil. by rewrite <- range_perm, Hr.
  - rewrite range_perm. intros ([k e] & Hk & Hin)%list_elem_of_fmap. cbn in Hk. subst k.
    apply elem_of_map_to_list in Hin. congruence.
Qed.

Lemma evict_loop_subseteq victim l m : evict_loop victim l m ⊆ m.
Proof.
  revert victim. induction l as [|[k e] l IH]; intros victim; cbn [evict_loop]; [apply delete_subseteq|].
  destruct (negb _); [apply delete_subseteq|apply IH].
Qed.

Lemma evictOne_subseteq m : evictOne m ⊆ m.
Proof. apply evict_loop_subseteq. Qed.

End Cache.

Section CacheFacts.
Context `{MapOrder}.
Implicit Types (c : DenylistCache).

Lemma sweep_size t (m : gmap string cacheEntry) : (size (sweep t m) <= size m)%nat.
Proof. apply map_subseteq_size, map_filter_subseteq. Qed.

Lemma sweep_lookup t (m : gmap string cacheEntry) k e : sweep t m !! k = Some e -> m !! k = Some e.
Proof. by intros [Hk _]%map_lookup_filter_Some. Qed.

Lemma cache_store_ok c jti b t : cache_ok c -> jti <> "" -> cache_ok (cache_store c jti b t).
Proof.
  intros (Hmax & He & Hs) Hj. unfold cache_store.
  assert (Hsw : forall m ns, m !! "" = None -> Z.of_nat (size m) <= dl_maxEntries c ->
    cache_ok (mkDenylistCache (dl_checker c) (dl_ttl c) (dl_maxEntries c)
      (<[jti := mkEntry b (time_Add t (dl_ttl c))]>
         (if bool_decide (m !! jti = None) && (dl_maxEntries c <=? Z.of_nat (size m)) then evictOne m else m)) ns)).
  { intros m ns Hm Hsm. split; [done|]. cbn [dl_entries dl_maxEntries].
    destruct (bool_decide (m !! jti = None)) eqn:Hn; cbn [andb].
    - apply bool_decide_eq_true in Hn. destruct (dl_maxEntries c <=? _) eqn:Hfull.
      + assert (evictOne m !! jti = None) as Hj2 by (eapply lookup_weaken_None; [done|apply evictOne_subseteq]).
        assert (evictOne m !! "" = None) as Hm2 by (eapply lookup_weaken_None; [done|apply evictOne_subseteq]).
        rewrite lookup_insert_ne by done. split; [done|]. rewrite map_size_insert_None by done.
        assert (size (evictOne m) < size m)%nat; [|lia]. apply evictOne_size; [|done].
        intros ->. rewrite map_size_empty in Hfull. apply Z.leb_le in Hfull. lia.
      + rewrite lookup_insert_ne by done. split; [done|]. rewrite map_size_insert_None by done. lia.
    - apply bool_decide_eq_false in Hn. rewrite lookup_insert_ne by done. split; [done|].
      destruct (m !! jti) eqn:E; [|done]. by erewrite map_size_insert_Some by done. }
  destruct (negb _); apply Hsw; [|pose proof (sweep_size t (dl_entries c)); lia|done|done].
  destruct (sweep t (dl_entries c) !! "") eqn:E; [|done]. apply sweep_lookup in E. congruence.
Qed.

(** What an insertion leaves of the others. *)
Lemma cache_store_lookup c jti b t k e :
  dl_entries (cache_store c jti b t) !! k = Some e ->
  (k = jti /\ e = mkEntry b (time_Add t (dl_ttl c))) \/ (k <> jti /\ dl_entries c !! k = Some e).
Proof.
  unfold cache_store. destruct (negb _); cbn [dl_entries];
    (intros [[<- <-]|[Hne Hk]]%lookup_insert_Some; [by left|right; split; [done|]]);
    destruct (_ && _); try (eapply lookup_weaken in Hk; [|apply evictOne_subseteq]); try done;
    by apply sweep_lookup in Hk.
Qed.

Lemma cache_store_self c jti b t :
  dl_entries (cache_store c jti b t) !! jti = Some (mkEntry b (time_Add t (dl_ttl c))).
Proof. unfold cache_store. destruct (negb _); apply lookup_insert_eq. Qed.

Lemma cache_store_params c jti b t :
  dl_ttl (cache_store c jti b t) = dl_ttl c /\ dl_checker (cache_store c jti b t) = dl_checker c.
Proof. unfold cache_store. by destruct (negb _). Qed.

End CacheFacts.

(** ** What a denylist promises

    An answer "active" means that the row is not there, as long as nobody else
    removes rows ([steady]). *)
Class DenylistStore (S : Type) `{DenylistChecker S} := {
  denied : S -> gmap string time;
  steady : S -> Prop;
  denied_active w w' jti :
    steady (w_store w) -> IsRevoked jti w = (w', inr false) -> denied (w_store w) !! jti = None
}.

(** A table read by nobody else: the answer is whether the row is there. *)
Class DenylistTable (S : Type) `{DenylistStore S} := {
  denied_sound w w' jti b :
    IsRevoked jti w = (w', inr b) ->
    b = bool_decide (is_Some (denied (w_store w) !! jti)) /\ w_store w' = w_store w /\ (w_tick w <= w_tick w')%nat
}.

(** Revoked, and not contradicted by the cache. *)
Definition revoked_in {S : Type} `{DenylistStore S} (jti : string) (p : Cached S) : Prop :=
  is_Some (denied (ca_store p) !! jti) /\
  forall e, dl_entries (ca_cache p) !! jti = Some e -> ce_revoked e = true.

(** The next lookup answers "revoked", or fails. *)
Lemma revoked_in_answer `{MapOrder} `{Env} {S : Type} `{DenylistStore S} jti (w w' : World (Cached S)) :
  dl_checker (ca_cache (w_store w)) = true -> steady (ca_store (w_store w)) ->
  revoked_in jti (w_store w) -> cached_IsRevoked jti w <> (w', inr false).
Proof.
  intros Hck Hsteady [[T HT] He] Hr. destruct w as [[st c] tk dr tr mm]. cbn in Hck, Hsteady, HT, He.
  unfold cached_IsRevoked in Hr. apply bind_inr in Hr as (w1 & e & K1 & Hr). run_in K1.
  apply bind_inr in Hr as (w2 & hit & K2 & Hr).
  assert (w_store w2 = mkCached st c /\ forall b, hit = Some b -> b = true) as [Hst Hhit].
  { destruct (dl_entries c !! jti) as [e|] eqn:E; run_in K2; [|done]. split; [done|].
    destruct (time_Before _ _); [|done]. intros b [= <-]. eauto. }
  destruct hit as [b|]; [run_in Hr; by specialize (Hhit false eq_refl)|].
  apply bind_inr in Hr as (w3 & has & K3 & Hr). unfold on_cache, on_store in K3. rewrite Hst in K3. run_in K3.
  rewrite Hck in Hr. cbn [negb] in Hr. apply bind_inr in Hr as (w4 & b & K4 & Hr). unfold zoom in K4. cbn in K4.
  destruct (IsRevoked jti _) as [w5 r5] eqn:K5. injection K4 as <- ->.
  apply bind_inr in Hr as (w6 & t & K6 & Hr). run_in K6. run_in Hr.
  apply denied_active in K5; cbn in *; [congruence|done].
Qed.

(** ** Interleavings

    The process serves lookups, revocations and hydrations concurrently: a
    lookup that misses reads the store and stores the answer in two steps, with
    anything in between. *)

(** A lookup between its read of the store and its insertion: the jti, what it
    read, and when. *)
Record flight := mkFlight { fl_jti : string; fl_revoked : bool; fl_read : time }.

Record Shared := mkShared {
  sh_cache : DenylistCache;
  (** the denylist table, with the time each row was committed. *)
  sh_denied : gmap string time;
  sh_now : time;
  sh_flights : gmap nat flight
}.

Section Interleaving.
Context `{MapOrder}.
(** the longest a lookup takes from its read of the store to its answer. *)
Context (delta : duration).

(** A step, labelled with the answer it gives, if any. *)
Inductive dstep : Shared -> option (string * bool) -> Shared -> Prop :=
  | d_tick t c d n f : n <= t -> dstep (mkShared c d n f) None (mkShared c d t f)
  | d_revoke jti c d n f : d !! jti = None -> dstep (mkShared c d n f) None (mkShared c (<[jti := n]> d) n f)
  | d_hydrate jti ts c d n f : ts <= n -> dstep (mkShared c d n f) None (mkShared (Hydrate c jti ts) d n f)
  | d_hit jti b c d n f : cached c jti n = Some b -> dstep (mkShared c d n f) (Some (jti, b)) (mkShared c d n f)
  | d_read i jti c d n f :
      f !! i = None -> jti <> "" -> cached c jti n = None -> dl_checker c = true ->
      dstep (mkShared c d n f) None
        (mkShared c d n (<[i := mkFlight jti (bool_decide (is_Some (d !! jti))) n]> f))
  | d_store i jti b tr ts c d n f :
      f !! i = Some (mkFlight jti b tr) -> tr <= ts -> ts <= n -> n - tr <= delta ->
      dstep (mkShared c d n f) (Some (jti, b)) (mkShared (cache_store c jti b ts) d n (delete i f)).

Inductive dsteps : Shared -> list (option (string * bool)) -> Shared -> Prop :=
  | ds_nil s : dsteps s [] s
  | ds_cons s l s' ls s'' : dstep s l s' -> dsteps s' ls s'' -> dsteps s (l :: ls) s''.

(** At start: an empty cache, nothing in flight, and a table written in the past. *)
Definition fresh_shared (s : Shared) : Prop :=
  dl_entries (sh_cache s) = ∅ /\ sh_flights s = ∅ /\ forall jti T, sh_denied s !! jti = Some T -> T <= sh_now s.

(** What every reachable state keeps. *)
Record stale_ok (s : Shared) : Prop := {
  so_entries : forall jti e, dl_entries (sh_cache s) !! jti = Some e ->
    ce_expires e <= sh_now s + dl_ttl (sh_cache s) /\
    (ce_revoked e = false -> forall T, sh_denied s !! jti = Some T ->
       ce_expires e <= T + delta + dl_ttl (sh_cache s));
  so_flights : forall i f, sh_flights s !! i = Some f ->
    fl_read f <= sh_now s /\ (fl_revoked f = false -> forall T, sh_denied s !! fl_jti f = Some T -> fl_read f <= T);
  so_denied : forall jti T, sh_denied s !! jti = Some T -> T <= sh_now s
}.

Context (Hdelta : 0 <= delta).

Lemma dstep_stale_ok s l s' : stale_ok s -> dstep s l s' -> stale_ok s'.
Proof.
  intros [He Hf Hd] Hs. destruct Hs as [t c d n f Ht|jti c d n f Hj|jti ts c d n f Hts|jti b c d n f Hc|i jti c d n f Hi Hne Hc Hk|
    i jti b tr ts c d n f Hi Hts Htn Hdl]; cbn [sh_cache sh_denied sh_now sh_flights] in *.
  - constructor; cbn [sh_cache sh_denied sh_now sh_flights].
    + intros k e Hk. destruct (He k e Hk) as [H1 H2]. split; [lia|done].
    + intros i x Hi. destruct (Hf i x Hi) as [H1 H2]. split; [lia|done].
    + intros k T Hk. specialize (Hd k T Hk). lia.
  - constructor; cbn [sh_cache sh_denied sh_now sh_flights].
    + intros k e Hk. destruct (He k e Hk) as [H1 H2]. split; [done|]. intros Hr T [[<- <-]|[_ HT]]%lookup_insert_Some; [lia|eauto].
    + intros i x Hi. destruct (Hf i x Hi) as [H1 H2]. split; [done|].
      intros Hr T [[_ <-]|[_ HT]]%lookup_insert_Some; [done|eauto].
    + intros k T [[<- <-]|[_ HT]]%lookup_insert_Some; [lia|eauto].
  - constructor; cbn [sh_cache sh_denied sh_now sh_flights]; [|done|done]. unfold Hydrate.
    destruct (jti =? "")%string; [done|]. intros k e Hk. destruct (cache_store_params c jti true ts) as [-> _].
    apply cache_store_lookup in Hk as [[-> ->]|[_ Hk]]; [|by apply He]. cbn. unfold time_Add. split; [lia|done].
  - by constructor.
  - constructor; cbn [sh_cache sh_denied sh_now sh_flights]; [done| |done].
    intros k x [[<- <-]|[_ Hx]]%lookup_insert_Some; [|eauto]. cbn. split; [lia|].
    intros Hb%bool_decide_eq_false T HT. destruct Hb. eauto.
  - destruct (Hf i _ Hi) as [H1 H2]. cbn in H1, H2.
    constructor; cbn [sh_cache sh_denied sh_now sh_flights]; [| |done].
    + intros k e Hk. destruct (cache_store_params c jti b ts) as [-> _].
      apply cache_store_lookup in Hk as [[-> ->]|[_ Hk]]; [|by apply He]. cbn. unfold time_Add. split; [lia|].
      intros -> T HT. specialize (H2 eq_refl T HT). lia.
    + intros k x [_ Hx]%lookup_delete_Some. eauto.
Qed.

Lemma dsteps_stale_ok s ls s' : stale_ok s -> dsteps s ls s' -> stale_ok s'.
Proof. intros Hs Hd. induction Hd; [done|]. eauto using dstep_stale_ok. Qed.

Lemma fresh_stale_ok s : fresh_shared s -> stale_ok s.
Proof.
  intros (He & Hf & Hd). constructor; [| |done].
  - intros jti e Hk. by rewrite He in Hk.
  - intros i f Hk. by rewrite Hf in Hk.
Qed.

(** The cap holds, as the verifier looks up no empty jti. *)
Definition capped (s : Shared) : Prop :=
  cache_ok (sh_cache s) /\ forall i f, sh_flights s !! i = Some f -> fl_jti f <> "".

Lemma dstep_capped s l s' : capped s -> dstep s l s' -> capped s'.
Proof.
  intros [Hc Hf] Hs. destruct Hs as [t c d n f Ht|jti c d n f Hj|jti ts c d n f Hts|jti b c d n f Hh|i jti c d n f Hi Hne Hh Hk|
    i jti b tr ts c d n f Hi Hts Htn Hdl]; cbn [sh_cache sh_flights] in *; try done.
  - split; [|done]. cbn. unfold Hydrate. destruct (jti =? "")%string eqn:E; [done|].
    apply String.eqb_neq in E. by apply cache_store_ok.
  - split; [done|]. cbn. intros k x [[_ <-]|[_ Hx]]%lookup_insert_Some; [done|eauto].
  - pose proof (Hf i _ Hi) as Hj. cbn in Hj. split; [by apply cache_store_ok|]. cbn.
    intros k x [_ Hx]%lookup_delete_Some. eauto.
Qed.

Lemma dsteps_capped s ls s' : capped s -> dsteps s ls s' -> capped s'.
Proof. intros Hs Hd. induction Hd; [done|]. eauto using dstep_capped. Qed.

(** C22. A revoked token stops working, and the cache stays small. From an empty
    cache with a positive cap, whatever lookups, revocations and hydrations
    interleave: the entries never exceed the cap; and with a positive TTL an
    answer "active" for a token revoked at [T] is given only before [T] plus the
    TTL plus [delta], the longest a lookup takes between reading the store and
    answering. *)
Theorem denylist_staleness_bounded s0 ls s :
  fresh_shared s0 -> 0 < dl_maxEntries (sh_cache s0) -> dsteps s0 ls s ->
  Z.of_nat (size (dl_entries (sh_cache s))) <= dl_maxEntries (sh_cache s) /\
  (forall jti s' T, 0 < dl_ttl (sh_cache s) -> dstep s (Some (jti, false)) s' -> sh_denied s !! jti = Some T ->
     sh_now s < T + delta + dl_ttl (sh_cache s)).
Proof.
  intros H0 Hmax Hs. split.
  { apply (dsteps_capped s0 ls s); [|done]. destruct H0 as (He & Hf & _). split.
    - split; [done|]. rewrite He, map_size_empty. split; [done|lia].
    - intros i f Hi. by rewrite Hf in Hi. }
  intros jti s' T Httl Hd HT.
  apply fresh_stale_ok in H0. pose proof (dsteps_stale_ok _ _ _ H0 Hs) as [He Hf _].
  inversion Hd; subst; cbn [sh_cache sh_denied sh_now sh_flights] in *.
  - match goal with Hc : cached _ _ _ = Some false |- _ => unfold cached in Hc; rename Hc into Hcached end.
    destruct (dl_entries c !! jti) as [e|] eqn:E; [|done]. destruct (time_Before n (ce_expires e)) eqn:Hb; [|done].
    injection Hcached as Hr. apply time_Before_spec in Hb. destruct (He jti e E) as [_ H2]. specialize (H2 Hr T HT). lia.
  - match goal with Hi : f !! _ = Some _ |- _ => destruct (Hf _ _ Hi) as [_ H2] end. cbn in H2. specialize (H2 eq_refl T HT). lia.
Qed.

(** A revocation that has settled: in the table, with no contrary answer cached
    or on its way into the cache. *)
Definition settled (jti : string) (s : Shared) : Prop :=
  is_Some (sh_denied s !! jti) /\
  (forall e, dl_entries (sh_cache s) !! jti = Some e -> ce_revoked e = true) /\
  (forall i f, sh_flights s !! i = Some f -> fl_jti f = jti -> fl_revoked f = true).

Lemma dstep_settled jti s l s' : settled jti s -> dstep s l s' -> settled jti s' /\ l <> Some (jti, false).
Proof.
  intros (Hd & He & Hf) Hs.
  destruct Hs as [t c d n f Ht|j c d n f Hj|j ts c d n f Hts|j b c d n f Hh|i j c d n f Hi Hne Hh Hk|
    i j b tr ts c d n f Hi Hts Htn Hdl]; unfold settled; cbn [sh_cache sh_denied sh_now sh_flights] in *.
  - done.
  - split; [|done]. split; [|done]. destruct (decide (j = jti)) as [->|]; [rewrite lookup_insert_eq; eauto|by rewrite lookup_insert_ne].
  - split; [|done]. split; [done|]. split; [|done]. unfold Hydrate. destruct (j =? "")%string; [done|].
    intros e [[-> ->]|[_ Hk]]%cache_store_lookup; [done|eauto].
  - split; [done|]. intros [= -> ->]. unfold cached in Hh. destruct (dl_entries c !! jti) as [e|] eqn:E; [|done].
    destruct (time_Before _ _); [|done]. injection Hh as Hr. specialize (He e eq_refl). congruence.
  - split; [|done]. split; [done|]. split; [done|]. intros k x [[_ <-]|[_ Hx]]%lookup_insert_Some; [|eauto].
    cbn. intros ->. by apply bool_decide_eq_true.
  - pose proof (Hf i _ Hi) as Hb. cbn in Hb. split.
    + split; [done|]. split; [|intros k x [_ Hx]%lookup_delete_Some; eauto].
      intros e [[-> ->]|[_ Hk]]%cache_store_lookup; [by apply Hb|eauto].
    + intros [= -> ->]. by specialize (Hb eq_refl).
Qed.

Lemma dsteps_settled jti s ls s' :
  settled jti s -> dsteps s ls s' -> settled jti s' /\ Forall (fun l => l <> Some (jti, false)) ls.
Proof.
  intros Hset Hs. induction Hs as [|s1 l s2 ls s3 Hstep Hs IH]; [done|].
  destruct (dstep_settled _ _ _ _ Hset Hstep) as [Hset2 Hl]. destruct (IH Hset2). split; [done|by constructor].
Qed.

Lemma dsteps_checker s ls s' : dsteps s ls s' -> dl_checker (sh_cache s') = dl_checker (sh_cache s).
Proof.
  induction 1 as [|s1 l s2 ls s3 Hs _ IH]; [done|]. rewrite IH. destruct Hs; cbn [sh_cache]; try done.
  - unfold Hydrate. destruct (_ =? _)%string; [done|]. apply cache_store_params.
  - apply cache_store_params.
Qed.

(** Revoking through the admin API is immediate in this process: once the row
    is in the table, with no lookup of that token still holding an answer it
    read before, hydrating the cache makes every later answer for it "revoked",
    in every continuation. *)
Theorem hydrate_immediate jti s ls s' :
  jti <> "" -> is_Some (sh_denied s !! jti) ->
  (forall i f, sh_flights s !! i = Some f -> fl_jti f = jti -> fl_revoked f = true) ->
  dsteps (mkShared (Hydrate (sh_cache s) jti (sh_now s)) (sh_denied s) (sh_now s) (sh_flights s)) ls s' ->
  Forall (fun l => l <> Some (jti, false)) ls.
Proof.
  intros Hj Hd Hf Hs. assert (settled jti (mkShared (Hydrate (sh_cache s) jti (sh_now s)) (sh_denied s) (sh_now s) (sh_flights s))) as Hset.
  { split; [done|]. split; [|done]. cbn. unfold Hydrate. rewrite (proj2 (String.eqb_neq _ _) Hj).
    intros e He. rewrite cache_store_self in He. by injection He as <-. }
  exact (proj2 (dsteps_settled _ _ _ _ Hset Hs)).
Qed.

(** ** A lookup is a run of these steps *)

Context `{Env} {S : Type} `{DenylistTable S}.

(** The process as the lookup sees it: no other lookup under way. *)
Definition view (w : World (Cached S)) : Shared :=
  mkShared (ca_cache (w_store w)) (denied (ca_store (w_store w))) (clock (w_tick w)) ∅.

Lemma cached_IsRevoked_steps jti (w w' : World (Cached S)) b :
  monotone_clock -> jti <> "" -> dl_checker (ca_cache (w_store w)) = true ->
  clock (w_tick w') - clock (w_tick w) <= delta ->
  cached_IsRevoked jti w = (w', inr b) ->
  exists ls, dsteps (view w) ls (view w') /\ omap id ls = [(jti, b)] /\
    ca_store (w_store w') = ca_store (w_store w).
Proof.
  intros Hmono Hj Hck Hlong Hr. destruct w as [[st c] tk dr tr mm]. cbn [w_store w_tick ca_cache ca_store] in *.
  unfold cached_IsRevoked in Hr. apply bind_inr in Hr as (w1 & e & K1 & Hr). run_in K1.
  apply bind_inr in Hr as (w2 & hit & K2 & Hr).
  assert (hit = cached c jti (clock tk) /\ w_store w2 = mkCached st c /\ (tk <= w_tick w2)%nat) as (-> & Hst & Htk).
  { unfold cached. destruct (dl_entries c !! jti); run_in K2; split_and?; try done; cbn; lia. }
  destruct (cached c jti (clock tk)) as [b'|] eqn:Hc.
  - run_in Hr. unfold view. rewrite Hst. exists [Some (jti, b); None]. split; [|done]. eapply ds_cons; [by apply d_hit|].
    eapply ds_cons; [|apply ds_nil]. apply d_tick. by apply Hmono.
  - apply bind_inr in Hr as (w3 & has & K3 & Hr). unfold on_cache, on_store in K3. rewrite Hst in K3. run_in K3.
    rewrite Hck in Hr. cbn [negb] in Hr. apply bind_inr in Hr as (w4 & b' & K4 & Hr). unfold zoom in K4. cbn in K4.
    destruct (IsRevoked jti _) as [w5 r5] eqn:K5. injection K4 as <- ->.
    apply denied_sound in K5 as (Hb & Hst5 & Htk5). cbn in Hb, Hst5, Htk5.
    apply bind_inr in Hr as (w6 & t & K6 & Hr). run_in K6. run_in Hr. unfold view. cbn [w_store w_tick ca_cache ca_store] in *.
    pose proof (Hmono tk (w_tick w5) ltac:(lia)). pose proof (Hmono (w_tick w5) (Datatypes.S (w_tick w5)) ltac:(lia)).
    set (b := bool_decide _). exists [None; None; Some (jti, b)]. split; [|done].
    eapply ds_cons; [by apply (d_read 0%nat jti)|]. eapply ds_cons; [apply (d_tick (clock (Datatypes.S (w_tick w5)))); lia|].
    eapply ds_cons; [|apply ds_nil].
    eapply (eq_rect _ (dstep _ _)); [eapply (d_store 0%nat jti b (clock tk) (clock (w_tick w5)));
      [apply lookup_insert_eq|lia|lia|lia]|]. by rewrite delete_insert_id.
Qed.

(** The cached lookup refines those steps: a lookup that returns an answer
    is a run of the step relation that ends with exactly that answer and leaves
    the store as it was, as long as the lookup takes no longer than the bound. *)
Theorem cached_IsRevoked_refines jti (w w' : World (Cached S)) b :
  monotone_clock -> jti <> "" -> dl_checker (ca_cache (w_store w)) = true ->
  clock (w_tick w') - clock (w_tick w) <= delta ->
  cached_IsRevoked jti w = (w', inr b) ->
  exists ls, dsteps (view w) ls (view w') /\ omap id ls = [(jti, b)] /\
    ca_store (w_store w') = ca_store (w_store w).
Proof. apply cached_IsRevoked_steps. Qed.

End Interleaving.

(** ** Runs *)

Module DenylistExample.

Definition cache0 : DenylistCache := NewDenylistCache true None 0.
Definition s0 : Shared := mkShared cache0 ∅ 0 ∅.
Definition sec (n : Z) : time := n * Second.

(** A lookup caches "active"; the token is revoked elsewhere; the cached answer
    is given once more. *)
Definition cache1 : DenylistCache := cache_store cache0 "j" false 0.
Definition s1 : Shared := mkShared cache1 {["j" := sec 10]} (sec 29) ∅.

Lemma run1 : dsteps 0 s0 [None; Some ("j", false); None; None; None] s1.
Proof.
  eapply ds_cons. { apply (d_read 0 0%nat "j"); [reflexivity|discriminate|vm_compute; reflexivity|reflexivity]. }
  eapply ds_cons. { eapply (d_store 0 0%nat "j" false 0 0); [vm_compute; reflexivity|lia|lia|lia]. }
  eapply ds_cons. { apply (d_tick 0 (sec 10)). vm_compute. discriminate. }
  eapply ds_cons. { apply (d_revoke 0 "j"). reflexivity. }
  eapply ds_cons. { apply (d_tick 0 (sec 29)). vm_compute. discriminate. }
  apply ds_nil.
Qed.

Lemma denylist_staleness_bounded_witness :
  Z.of_nat (size (dl_entries (sh_cache s1))) <= dl_maxEntries (sh_cache s1) /\
  sh_now s1 < sec 10 + 0 + dl_ttl (sh_cache s1).
Proof.
  destruct (denylist_staleness_bounded 0 ltac:(lia) s0 [None; Some ("j", false); None; None; None] s1) as [Hcap Hstale].
  - split; [reflexivity|]. split; [reflexivity|]. intros k e He. cbn in He. rewrite lookup_empty in He. discriminate He.
  - reflexivity.
  - apply run1.
  - split; [exact Hcap|]. apply (Hstale "j" s1 (sec 10)).
    + reflexivity.
    + apply (d_hit 0 "j" false). vm_compute. reflexivity.
    + vm_compute. reflexivity.
Defined.

(** The same revocation, hydrated: from then on the answer is "revoked". *)
Definition s2 : Shared := mkShared (Hydrate cache1 "j" (sec 29)) {["j" := sec 10]} (sec 29) ∅.

Lemma hydrate_immediate_witness : Forall (fun l => l <> Some ("j", false)) [Some ("j", true)].
Proof.
  apply (hydrate_immediate 0 "j" s1 [Some ("j", true)] s2).
  - discriminate.
  - eexists. vm_compute. reflexivity.
  - intros i f Hf. cbn in Hf. rewrite lookup_empty in Hf. discriminate Hf.
  - eapply ds_cons; [|apply ds_nil]. apply (d_hit 0 "j" true). vm_compute. reflexivity.
Defined.

(** Without that condition it is not: a lookup that read the table before the
    revocation stores its answer over the hydrated one, and the cache answers
    "active" again. *)
Definition raced : DenylistCache := cache_store (Hydrate cache0 "j" 0) "j" false 0.

Example hydrate_overwritten :
  dsteps 0 s0 [None; None; None; Some ("j", false); Some ("j", false)] (mkShared raced {["j" := 0]} 0 ∅).
Proof.
  eapply ds_cons. { apply (d_read 0 0%nat "j"); [reflexivity|discriminate|vm_compute; reflexivity|reflexivity]. }
  eapply ds_cons. { apply (d_revoke 0 "j"). reflexivity. }
  eapply ds_cons. { apply (d_hydrate 0 "j" 0). lia. }
  eapply ds_cons. { eapply (d_store 0 0%nat "j" false 0 0); [vm_compute; reflexivity|lia|lia|lia]. }
  eapply ds_cons. { apply (d_hit 0 "j" false). vm_compute. reflexivity. }
  apply ds_nil.
Qed.

(** A table in memory and a clock that ticks once a second. *)
#[local] Instance mem_checker : DenylistChecker (gmap string time) :=
  {| IsRevoked jti := on_store (fun d => (d, bool_decide (is_Some (d !! jti)))) |}.

#[local] Instance mem_store : DenylistStore (gmap string time).
Proof.
  refine {| denied d := d; steady _ := True |}. intros w w' jti _ [= _ Hb]. cbn.
  apply bool_decide_eq_false in Hb. by apply eq_None_not_Some.
Defined.
#[local] Instance mem_table : DenylistTable (gmap string time).
Proof. constructor. intros w w' jti b [= <- <-]. done. Qed.

#[local] Instance second_env : Env := {| clock i := sec (Z.of_nat i); entropy i n := None |}.

Definition lookup_world : World (Cached (gmap string time)) :=
  mkWorld (mkCached {["j" := sec 0]} cache1) 31 0 [] None.

(** The cached "active" is past its TTL: the lookup goes to the table. *)
Lemma cached_IsRevoked_refines_witness :
  exists ls, dsteps (sec 2) (view lookup_world) ls (view (cached_IsRevoked "j" lookup_world).1) /\
    omap id ls = [("j", true)] /\
    ca_store (w_store (cached_IsRevoked "j" lookup_world).1) = ca_store (w_store lookup_world).
Proof.
  apply (cached_IsRevoked_refines (sec 2) "j" lookup_world (cached_IsRevoked "j" lookup_world).1 true).
  - intros i j Hij. cbn. unfold sec, Second, Microsecond. lia.
  - discriminate.
  - reflexivity.
  - vm_compute. discriminate.
  - vm_compute. reflexivity.
Defined.

End DenylistExample.
