(* ===== verification/Keys.v ===== *)
(** * Signing keypairs (package keys)

    The keypair aggregate of keys/keys.go, publish.go, retire.go, init.go and
    encryption.go: which keypair signs, which ones are published, how keypairs
    are generated, retired, reloaded and encrypted at rest. The store is the
    [KeyStore] interface; the in-memory cache is part of the state. RSA key
    generation (with the JWK thumbprint of a third-party package) and AES-GCM
    are arguments. *)

From S2P Require Import Prelude GoStrings GoErrors GoEncoding.

Record Keypair := mkKeypair {
  Kid : string;
  Alg : string;
  PrivatePEM : string;
  PublicPEM : string;
  CreatedAt : time;
  RetiredAt : option time
}.

#[export] Instance Keypair_eq_dec : EqDecision Keypair.
Proof. solve_decision. Defined.

Definition zeroKeypair : Keypair := mkKeypair "" "" "" "" 0 None.

Definition AlgRS256 : string := "RS256".
Definition DefaultPublishDelay : duration := 5 * Minute.
Definition DefaultRetirementGrace : duration := 4 * Hour.

Definition Retired (kp : Keypair) : bool := bool_decide (is_Some (RetiredAt kp)).

(** ** Which keypair signs *)

(** The loop runs from the newest keypair down; [oldest] is the last
    non-retired keypair it passed over. *)
Fixpoint signing_loop (newest_first : list Keypair) (now : time) (publishDelay : duration)
    (oldest : option Keypair) : option Keypair :=
  match newest_first with
  | [] => oldest
  | kp :: rest =>
      if Retired kp then signing_loop rest now publishDelay oldest
      else if negb (time_Before now (time_Add (CreatedAt kp) publishDelay)) then Some kp
      else signing_loop rest now publishDelay (Some kp)
  end.

Definition Signing (kps : list Keypair) (now : time) (publishDelay : duration) : option Keypair :=
  signing_loop (rev kps) now publishDelay None.

(** Inside its publish delay no longer. *)
Definition mature (now : time) (publishDelay : duration) (kp : Keypair) : Prop :=
  CreatedAt kp + publishDelay <= now.

(** [sortByCreatedAt]: a stable sort by creation time, then kid. *)
Definition kp_less (x y : Keypair) : bool :=
  if CreatedAt x =? CreatedAt y then bool_decide (String.ltb (Kid x) (Kid y) = true)
  else time_Before (CreatedAt x) (CreatedAt y).

Fixpoint insert_kp (kp : Keypair) (l : list Keypair) : list Keypair :=
  match l with
  | [] => [kp]
  | x :: l' => if kp_less kp x then kp :: x :: l' else x :: insert_kp kp l'
  end.

Definition sortByCreatedAt (kps : list Keypair) : list Keypair :=
  fold_left (fun acc kp => insert_kp kp acc) kps [].

(** [pickLatest(kps)] for a non-empty list. *)
Fixpoint pickLatest (latest : Keypair) (rest : list Keypair) : Keypair :=
  match rest with
  | [] => latest
  | kp :: rest' => pickLatest (if time_After (CreatedAt kp) (CreatedAt latest) then kp else latest) rest'
  end.

(** ** The aggregate *)

Record KeysCfg := mkKeysCfg {
  k_alg : string;
  k_grace : duration;
  k_kek : option string;
  k_publishDelay : duration
}.

(** [New()] without options. *)
Definition defaultKeysCfg : KeysCfg :=
  mkKeysCfg AlgRS256 DefaultRetirementGrace None DefaultPublishDelay.

(** The store the aggregate fronts, and its cache. *)
Record KeyState (S : Type) := mkKeyState {
  ks_store : S;
  ks_keypairs : list Keypair;
  ks_unencrypted : list string
}.
Arguments mkKeyState {S}.
Arguments ks_store {S}.
Arguments ks_keypairs {S}.
Arguments ks_unencrypted {S}.

Class KeyStore (S : Type) := {
  SaveKeypair : Keypair -> S -> S * option error;
  LoadKeypairs : S -> S * (list Keypair * option error);
  RetireKeypair : string -> time -> S -> S * (Keypair * option error)
}.

(** AES-256-GCM under a 32-byte key. *)
Class AEAD := {
  aead_Seal : string -> string -> string -> string -> string;
  aead_Open : string -> string -> string -> string -> option string
}.

(** [rsa.GenerateKey] with PEM marshalling and the RFC 7638 thumbprint: the
    kid, the private and the public PEM of draw [i], or a failure. *)
Class RSAKeyGen := { rsa_generate : nat -> option (string * string * string) }.

(** *** Encryption at rest (encryption.go) *)

Section Encryption.
Context `{AEAD} `{Env} {S : Type}.
Implicit Types (kp : Keypair) (cfg : KeysCfg).

Definition encryptedPEMPrefix : string := "tempogate-kek:v1:".
Definition kekBytes : nat := 32.
Definition nonceSize : nat := 12.

Definition isEncrypted (privatePEM : string) : bool := HasPrefix privatePEM encryptedPEMPrefix.

Definition kidAAD (kid : string) : string := "tempogate keypair " +:+ kid.

(** [k.cipher()]: the key when one is configured, an error when it has the
    wrong size. *)
Definition cipher cfg : error + option string :=
  match k_kek cfg with
  | None => inr None
  | Some kek =>
      if negb (String.length kek =? kekBytes)%nat
      then inl (Opaque "keys: encryption key must be 32 bytes") else inr (Some kek)
  end.

Definition sealPEM (aead kid privatePEM : string) : M S string :=
  n ← rand_Read nonceSize;
  match n with
  | None => throw (Errorf "keys: nonce" (Opaque "rand"))
  | Some nonce =>
      let ct := nonce +:+ aead_Seal aead nonce privatePEM (kidAAD kid) in
      mret (encryptedPEMPrefix +:+ RawStd_Encode ct)
  end.

Definition openPEM (aead : string) kp : error + string :=
  match RawStd_Decode (drop_bytes (String.length encryptedPEMPrefix) (PrivatePEM kp)) with
  | None => inl (Errorf "keypair is malformed" (Sentinel ErrDecryptKeypair))
  | Some raw =>
      if (String.length raw <? nonceSize)%nat
      then inl (Errorf "keypair is malformed" (Sentinel ErrDecryptKeypair))
      else
        let nonce := String.substring 0 nonceSize raw in
        let ct := drop_bytes nonceSize raw in
        match aead_Open aead nonce ct (kidAAD (Kid kp)) with
        | None => inl (Errorf "keypair" (Sentinel ErrDecryptKeypair))
        | Some pem => inr pem
        end
  end.

Definition set_PrivatePEM kp (pem : string) : Keypair :=
  mkKeypair (Kid kp) (Alg kp) pem (PublicPEM kp) (CreatedAt kp) (RetiredAt kp).

Fixpoint openStored_loop (aead : option string) (stored : list Keypair)
    (out : list Keypair) (unencrypted : list string) : error + (list Keypair * list string) :=
  match stored with
  | [] => inr (out, unencrypted)
  | kp :: stored' =>
      if negb (isEncrypted (PrivatePEM kp)) then
        let unencrypted := match aead with Some _ => unencrypted ++ [Kid kp] | None => unencrypted end in
        openStored_loop aead stored' (out ++ [kp]) unencrypted
      else match aead with
           | None => inl (Errorf "keypair is encrypted" (Sentinel ErrNoEncryptionKey))
           | Some a =>
               match openPEM a kp with
               | inl e => inl e
               | inr pem => openStored_loop aead stored' (out ++ [set_PrivatePEM kp pem]) unencrypted
               end
           end
  end.

Definition openStored cfg (stored : list Keypair) : error + (list Keypair * list string) :=
  match cipher cfg with
  | inl e => inl e
  | inr aead => openStored_loop aead stored [] []
  end.

Definition sealForStore cfg kp : M S Keypair :=
  match cipher cfg with
  | inl e => throw e
  | inr None => mret kp
  | inr (Some aead) =>
      sealed ← sealPEM aead (Kid kp) (PrivatePEM kp);
      mret (set_PrivatePEM kp sealed)
  end.

End Encryption.

(** *** Operations *)

Section Aggregate.
Context `{AEAD} `{RSAKeyGen} `{Env} {S : Type} `{KeyStore S}.
Implicit Types (kp : Keypair) (cfg : KeysCfg).

Definition on_keystore {A} (f : S -> S * A) : M (KeyState S) A :=
  on_store (fun ks => let (s', r) := f (ks_store ks) in
                      (mkKeyState s' (ks_keypairs ks) (ks_unencrypted ks), r)).

(** [k.All()]. *)
Definition All : M (KeyState S) (list Keypair) := on_store (fun ks => (ks, ks_keypairs ks)).

(** [k.swap(kps, unencrypted)]. *)
Definition swap (kps : list Keypair) (unencrypted : list string) : M (KeyState S) unit :=
  on_store (fun ks => (mkKeyState (ks_store ks) (sortByCreatedAt kps) unencrypted, tt)).

(** [k.Signing(kps)]. *)
Definition Keys_Signing cfg (kps : list Keypair) : M (KeyState S) (option Keypair) :=
  t ← now; mret (Signing kps t (k_publishDelay cfg)).

(** [k.Latest()]. *)
Definition Latest cfg : M (KeyState S) Keypair :=
  kps ← All;
  o ← Keys_Signing cfg kps;
  match o with None => throw (Sentinel ErrNoKeypair) | Some kp => mret kp end.

(** [k.Published()]: the clock is read before the cache. *)
Definition in_grace (t : time) (grace : duration) kp : bool :=
  match RetiredAt kp with None => true | Some r => time_Before t (time_Add r grace) end.

Definition Published cfg : M (KeyState S) (list Keypair) :=
  t ← now;
  kps ← All;
  mret (List.filter (in_grace t (k_grace cfg)) kps).

Definition GenerateKeypair cfg : M (KeyState S) Keypair :=
  if negb (k_alg cfg =? AlgRS256)%string then throw (Sentinel ErrUnsupportedAlgorithm)
  else fun w =>
    match rsa_generate (w_draw w) with
    | None => (w, inl (Errorf "keys: rsa generate" (Opaque "rand")))
    | Some (kid, priv, pub) =>
        let w' := mkWorld (w_store w) (w_tick w) (Datatypes.S (w_draw w)) (w_trace w) (w_memo w) in
        (t ← now; mret (mkKeypair kid (k_alg cfg) priv pub t None)) w'
    end.

(** [k.save(ctx, kp)]. *)
Definition save cfg kp : M (KeyState S) unit :=
  toStore ← sealForStore cfg kp;
  e ← on_keystore (SaveKeypair toStore);
  match e with None => mret tt | Some e => throw (Errorf "keys: save keypair" e) end.

Definition lift_sum {A} (r : error + A) : M (KeyState S) A :=
  match r with inl e => throw e | inr x => mret x end.

Definition Generate cfg (force : bool) : M (KeyState S) Keypair :=
  r ← on_keystore LoadKeypairs;
  stored ← or_throw (Errorf "keys: load keypairs") r;
  match stored with
  | kp :: rest =>
      if negb force
      then throw (Errorf ("kid=" +:+ Kid (pickLatest kp rest)) (Sentinel ErrKeypairExists))
      else mret tt
  | [] => mret tt
  end ≫= fun _ =>
  o ← lift_sum (openStored cfg stored);
  kp ← GenerateKeypair cfg;
  save cfg kp ≫= fun _ =>
  swap (o.1 ++ [kp]) o.2 ≫= fun _ =>
  mret kp.

Definition Reload cfg : M (KeyState S) unit :=
  r ← on_keystore LoadKeypairs;
  stored ← or_throw (Errorf "keys: load keypairs") r;
  o ← lift_sum (openStored cfg stored);
  swap o.1 o.2.

Definition Keypairs cfg : M (KeyState S) (list Keypair) := Reload cfg ≫= fun _ => All.

(** [k.init(ctx)], the boot flow. *)
Definition Init cfg : M (KeyState S) unit :=
  r ← on_keystore LoadKeypairs;
  stored ← or_throw (Errorf "keys: load keypairs") r;
  o ← lift_sum (openStored cfg stored);
  let existing := sortByCreatedAt o.1 in
  sgn ← Keys_Signing cfg existing;
  match sgn with
  | Some _ => swap existing o.2
  | None =>
      kp ← GenerateKeypair cfg;
      save cfg kp ≫= fun _ =>
      swap (existing ++ [kp]) o.2
  end.

Record KeypairStatus := mkStatus {
  st_Keypair : Keypair;
  st_Signing : bool;
  st_ActivatesAt : option time
}.

Definition status_of (now_ : time) (delay : duration) (signing : option Keypair) kp : KeypairStatus :=
  let sgn := negb (Retired kp)
             && (Kid kp =? Kid (default zeroKeypair signing))%string in
  let at_ := time_Add (CreatedAt kp) delay in
  mkStatus kp sgn
    (if negb (Retired kp) && negb sgn && time_Before now_ at_ then Some at_ else None).

Definition Statuses cfg : M (KeyState S) (list KeypairStatus) :=
  kps ← Keypairs cfg;
  t ← now;
  mret (List.map (status_of t (k_publishDelay cfg) (Signing kps t (k_publishDelay cfg))) kps).

Definition checkReplacementPublished cfg (kid : string) : M (KeyState S) unit :=
  Reload cfg ≫= fun _ =>
  kps ← All;
  signing ← Keys_Signing cfg kps;
  match signing with
  | None => mret tt
  | Some sgn =>
      if negb (Kid sgn =? kid)%string then mret tt
      else
        let rest := List.filter (fun kp => negb (Kid kp =? kid)%string) kps in
        next ← Keys_Signing cfg rest;
        match next with
        | None => mret tt
        | Some n =>
            let at_ := time_Add (CreatedAt n) (k_publishDelay cfg) in
            t ← now;
            if time_Before t at_ then throw (ReplacementPending (Kid n) at_) else mret tt
        end
  end.

Definition Retire cfg (kid : string) (force : bool) : M (KeyState S) Keypair :=
  (if force then mret tt else checkReplacementPublished cfg kid) ≫= fun _ =>
  t ← now;
  r ← on_keystore (RetireKeypair kid t);
  kp ← or_throw (fun e => e) r;
  Reload cfg ≫= fun _ =>
  kps ← All;
  match List.find (fun c => (Kid c =? Kid kp)%string) kps with
  | Some c => mret c
  | None => throw (Errorf ("kid=" +:+ Kid kp) (Sentinel ErrKeypairNotFound))
  end.

(** [PrivateKeyRewriter], what [EncryptStored] needs beyond [KeyStore]. *)
Context (UpdateKeypairPrivatePEM : string -> string -> S -> S * option error).

Fixpoint encrypt_loop (aead : string) (stored : list Keypair) (n : Z) : M (KeyState S) Z :=
  match stored with
  | [] => mret n
  | kp :: stored' =>
      if isEncrypted (PrivatePEM kp) then
        match openPEM aead kp with
        | inl e => throw e
        | inr _ => encrypt_loop aead stored' n
        end
      else
        sealed ← sealPEM aead (Kid kp) (PrivatePEM kp);
        e ← on_keystore (UpdateKeypairPrivatePEM (Kid kp) sealed);
        match e with
        | Some e => throw (Errorf "keys: rewrite keypair" e)
        | None => encrypt_loop aead stored' (n + 1)
        end
  end.

Definition EncryptStored cfg : M (KeyState S) Z :=
  aead ← lift_sum (cipher cfg);
  match aead with
  | None => throw (Sentinel ErrNoEncryptionKey)
  | Some aead =>
      r ← on_keystore LoadKeypairs;
      stored ← or_throw (Errorf "keys: load keypairs") r;
      encrypt_loop aead stored 0
  end.

End Aggregate.

(** ** Facts *)

Definition older (x y : Keypair) : Prop := CreatedAt x <= CreatedAt y.

#[export] Instance older_trans : Transitive older.
Proof. unfold older. intros x y z. lia. Qed.

Lemma insert_kp_Permutation kp l : insert_kp kp l ≡ₚ kp :: l.
Proof.
  induction l as [|x l IH]; [done|]. cbn. destruct (kp_less kp x); [done|]. rewrite IH. constructor.
Qed.

Lemma sortByCreatedAt_Permutation kps : sortByCreatedAt kps ≡ₚ kps.
Proof.
  unfold sortByCreatedAt. transitivity (rev kps ++ []); [|by rewrite app_nil_r, <- Permutation_rev].
  generalize (@nil Keypair) as acc. induction kps as [|kp kps IH]; intros acc; [done|].
  cbn. rewrite IH, insert_kp_Permutation, <- app_assoc. done.
Qed.

Lemma insert_kp_sorted kp l : StronglySorted older l -> StronglySorted older (insert_kp kp l).
Proof.
  induction 1 as [|x l Hl IH Hx]; cbn; [by repeat constructor|].
  unfold kp_less. destruct (CreatedAt kp =? CreatedAt x) eqn:E; [case_bool_decide|];
    try destruct (time_Before (CreatedAt kp) (CreatedAt x)) eqn:E'.
  all: try (constructor; [by constructor|]; constructor; [unfold older, time_Before in *; lia|];
            eapply Forall_impl; [done|]; intros y; unfold older, time_Before in *; lia).
  all: constructor; [done|]; rewrite insert_kp_Permutation; constructor; [|done];
    unfold older, time_Before in *; lia.
Qed.

Lemma sortByCreatedAt_sorted kps : StronglySorted older (sortByCreatedAt kps).
Proof.
  unfold sortByCreatedAt.
  assert (StronglySorted older []) as Hnil by constructor. revert Hnil.
  generalize (@nil Keypair) as acc. induction kps as [|kp kps IH]; intros acc Hacc; [done|].
  cbn. apply IH, insert_kp_sorted, Hacc.
Qed.

(** What the loop returns, on any list. *)
Lemma signing_loop_cases l t d o :
  (exists l1 kp l2, l = l1 ++ kp :: l2 /\ Retired kp = false /\ mature t d kp /\
     Forall (fun k => Retired k = true \/ ~ mature t d k) l1 /\ signing_loop l t d o = Some kp) \/
  (Forall (fun k => Retired k = true \/ ~ mature t d k) l /\
   ((Forall (fun k => Retired k = true) l /\ signing_loop l t d o = o) \/
    exists l1 kp l2, l = l1 ++ kp :: l2 /\ Retired kp = false /\
      Forall (fun k => Retired k = true) l2 /\ signing_loop l t d o = Some kp)).
Proof.
  revert o. induction l as [|k l IH]; intros o; [right; split; [constructor|left; done]|].
  cbn. destruct (Retired k) eqn:Hk; [|destruct (negb _) eqn:Hm].
  - destruct (IH o) as [(l1 & kp & l2 & -> & ? & ? & ? & ?)|[Ha [[Hb Hc]|(l1 & kp & l2 & -> & ? & ? & ?)]]].
    + left. exists (k :: l1), kp, l2. repeat split; auto.
    + right. split; [auto|]. left. auto.
    + right. split; [auto|]. right. exists (k :: l1), kp, l2. auto.
  - left. exists [], k, l. unfold mature, time_Before, time_Add in *.
    apply negb_true_iff in Hm. repeat split; auto; lia.
  - assert (~ mature t d k).
    { unfold mature, time_Before, time_Add in *. apply negb_false_iff in Hm. lia. }
    destruct (IH (Some k)) as [(l1 & kp & l2 & -> & ? & ? & ? & ?)|[Ha [[Hb Hc]|(l1 & kp & l2 & -> & ? & ? & ?)]]].
    + left. exists (k :: l1), kp, l2. repeat split; auto.
    + right. split; [auto|]. right. exists [], k, l. auto.
    + right. split; [auto|]. right. exists (k :: l1), kp, l2. auto.
Qed.

Lemma Signing_In kps t d kp : Signing kps t d = Some kp -> In kp kps.
Proof.
  unfold Signing. intros H. rewrite in_rev.
  destruct (signing_loop_cases (rev kps) t d None)
    as [(l1 & x & l2 & El & _ & _ & _ & E)|[_ [[_ E]|(l1 & x & l2 & El & _ & _ & E)]]];
    rewrite E in H; [|done|]; injection H as <-; rewrite El; apply in_elt.
Qed.

Lemma StronglySorted_app_mid {A} (R : A -> A -> Prop) l1 x l2 :
  StronglySorted R (l1 ++ x :: l2) -> Forall (fun y => R y x) l1 /\ Forall (R x) l2.
Proof.
  induction l1 as [|y l1 IH]; cbn; intros Hs; inversion_clear Hs as [|? ? Hs' Hf].
  - done.
  - destruct (IH Hs'). split; [|done]. constructor; [|done].
    rewrite List.Forall_forall in Hf. apply Hf, in_elt.
Qed.

(** A list read from its end, at one element. *)
Lemma rev_split {A} (kps l1 l2 : list A) x :
  rev kps = l1 ++ x :: l2 -> kps = rev l2 ++ x :: rev l1.
Proof.
  intros H. rewrite <- (rev_involutive kps), H, rev_app_distr. cbn. by rewrite <- app_assoc.
Qed.

Lemma Signing_cases kps t d :
  StronglySorted older kps ->
  match Signing kps t d with
  | None => Forall (fun k => Retired k = true) kps
  | Some kp =>
      In kp kps /\ Retired kp = false /\
      ((mature t d kp /\ forall k, In k kps -> Retired k = false -> mature t d k -> older k kp) \/
       ((forall k, In k kps -> Retired k = false -> ~ mature t d k) /\
        forall k, In k kps -> Retired k = false -> older kp k))
  end.
Proof.
  intros Hs. unfold Signing.
  destruct (signing_loop_cases (rev kps) t d None)
    as [(l1 & kp & l2 & E & Hr & Hm & Hl & ->)|[Ha [[Hb ->]|(l1 & kp & l2 & E & Hr & Hl & ->)]]].
  - apply rev_split in E as ->. split; [apply in_elt|]. split; [done|]. left. split; [done|].
    intros k [Hk|[->|Hk]]%in_app_iff Hrk Hmk; [|unfold older; lia|].
    + apply StronglySorted_app_mid in Hs as [Hs _]. rewrite List.Forall_forall in Hs. auto.
    + rewrite <- in_rev in Hk. rewrite List.Forall_forall in Hl. by destruct (Hl _ Hk) as [?|?]; [congruence|].
  - rewrite List.Forall_forall in *. intros k Hk. apply Hb. by rewrite <- in_rev.
  - pose proof E as E'. apply rev_split in E as ->. split; [apply in_elt|]. split; [done|]. right. split.
    + intros k Hk Hrk Hmk. rewrite List.Forall_forall in Ha. rewrite in_rev in Hk.
      by destruct (Ha _ Hk) as [?|?]; [congruence|].
    + intros k [Hk|[->|Hk]]%in_app_iff Hrk; [|unfold older; lia|].
      * rewrite <- in_rev in Hk. rewrite List.Forall_forall in Hl. rewrite (Hl _ Hk) in Hrk. done.
      * apply StronglySorted_app_mid in Hs as [_ Hs]. rewrite List.Forall_forall in Hs. auto.
Qed.

Lemma signing_kp_Some kps t d :
  StronglySorted older kps -> (exists k, In k kps /\ Retired k = false) -> Signing kps t d <> None.
Proof.
  intros Hs (k & Hk & Hr) E. pose proof (Signing_cases kps t d Hs) as Hc. rewrite E in Hc.
  rewrite List.Forall_forall in Hc. rewrite (Hc _ Hk) in Hr. done.
Qed.

(** Removing keypairs keeps the order. *)
Lemma sorted_filter (p : Keypair -> bool) kps :
  StronglySorted older kps -> StronglySorted older (List.filter p kps).
Proof.
  induction 1 as [|x l Hl IH Hx]; [constructor|]. cbn. destruct (p x); [|done].
  constructor; [done|]. by apply Forall_filter_l.
Qed.

(** Once a non-retired keypair is past its publish delay, whatever signs is. *)
Lemma Signing_mature kps t d n k :
  StronglySorted older kps -> Signing kps t d = Some n ->
  In k kps -> Retired k = false -> mature t d k -> mature t d n.
Proof.
  intros Hs E Hk Hr Hm. pose proof (Signing_cases kps t d Hs) as Hc. rewrite E in Hc.
  destruct Hc as (_ & _ & [[? _]|[Hn _]]); [done|]. by destruct (Hn _ Hk Hr).
Qed.

Section AggregateFacts.
Context `{AEAD} `{RSAKeyGen} `{Env} {S : Type} `{KeyStore S}.
Implicit Types (cfg : KeysCfg) (w : World (KeyState S)).

Definition cache_sorted w : Prop := StronglySorted older (ks_keypairs (w_store w)).

(** A successful reload leaves a sorted cache and no clock reading. *)
Lemma Reload_inr cfg w w' :
  Reload cfg w = (w', inr tt) -> cache_sorted w' /\ w_tick w' = w_tick w.
Proof.
  unfold Reload, on_keystore, on_store, mbind, M_bind, cache_sorted.
  destruct (LoadKeypairs (ks_store (w_store w))) as [s1 [kps [e|]]]; cbn; [done|].
  destruct (openStored cfg kps) as [e|q]; cbn; [done|]. intros [= <-]. cbn.
  split; [apply sortByCreatedAt_sorted|done].
Qed.

(** The signing rule. Whatever keypairs are loaded, the one that signs is
    not retired; if some non-retired keypair is past its publish delay it is
    the newest such keypair, otherwise the oldest non-retired one; and there is
    no signer only if every keypair is retired. *)
Theorem Signing_rule (kps : list Keypair) (t : time) (delay : duration) :
  match Signing (sortByCreatedAt kps) t delay with
  | None => Forall (fun k => Retired k = true) kps
  | Some kp =>
      In kp kps /\ Retired kp = false /\
      ((mature t delay kp /\
        forall k, In k kps -> Retired k = false -> mature t delay k -> CreatedAt k <= CreatedAt kp) \/
       ((forall k, In k kps -> Retired k = false -> ~ mature t delay k) /\
        forall k, In k kps -> Retired k = false -> CreatedAt kp <= CreatedAt k))
  end.
Proof.
  pose proof (Signing_cases _ t delay (sortByCreatedAt_sorted kps)) as Hc.
  pose proof (sortByCreatedAt_Permutation kps) as Hp.
  assert (forall k, In k (sortByCreatedAt kps) <-> In k kps) as Hin.
  { intros k. split; apply Permutation_in; [done|by symmetry]. }
  destruct (Signing _ t delay) as [kp|].
  - setoid_rewrite Hin in Hc. exact Hc.
  - rewrite List.Forall_forall in *. intros k Hk. by apply Hc, Hin.
Qed.

(** Booting never leaves the server without a signing key: after a
    successful [Init], whatever the store held before (nothing, or only retired
    keypairs), some keypair of the cache signs at every later instant. *)
Theorem Init_has_signer cfg (w w' : World (KeyState S)) (t : time) :
  Init cfg w = (w', inr tt) ->
  exists kp, Signing (ks_keypairs (w_store w')) t (k_publishDelay cfg) = Some kp /\ Retired kp = false.
Proof.
  intros Hi.
  assert (cache_sorted w' /\ exists k, In k (ks_keypairs (w_store w')) /\ Retired k = false) as [Hs Hex].
  { unfold Init in Hi.
    apply bind_inr in Hi as (w1 & r & _ & Hi). apply bind_inr in Hi as (w2 & st & _ & Hi).
    apply bind_inr in Hi as (w3 & o & _ & Hi). apply bind_inr in Hi as (w4 & sgn & Hsgn & Hi).
    unfold Keys_Signing in Hsgn. apply bind_inr in Hsgn as (w5 & t5 & _ & [= <- Hsgn]).
    unfold cache_sorted. destruct sgn as [kp|].
    - cbn in Hi. injection Hi as <-. cbn. split; [apply sortByCreatedAt_sorted|].
      pose proof (Signing_cases _ t5 (k_publishDelay cfg) (sortByCreatedAt_sorted o.1)) as Hc.
      rewrite Hsgn in Hc. destruct Hc as (Hin & Hr & _). exists kp. split; [|done].
      eapply Permutation_in; [symmetry; apply sortByCreatedAt_Permutation|done].
    - apply bind_inr in Hi as (w6 & kp & Hk & Hi). apply bind_inr in Hi as (w7 & [] & _ & Hi).
      cbn in Hi. injection Hi as <-. cbn. split; [apply sortByCreatedAt_sorted|].
      exists kp. split.
      + eapply Permutation_in; [symmetry; apply sortByCreatedAt_Permutation|].
        apply in_app_iff. right. by left.
      + unfold GenerateKeypair in Hk. destruct (negb _); [done|].
        destruct (rsa_generate _) as [[[kid priv] pub]|]; [|done]. cbn in Hk. by injection Hk as <- <-. }
  destruct (Signing (ks_keypairs (w_store w')) t (k_publishDelay cfg)) as [kp|] eqn:E.
  - exists kp. split; [done|]. pose proof (Signing_cases _ t (k_publishDelay cfg) Hs) as Hc.
    rewrite E in Hc. apply Hc.
  - by destruct (signing_kp_Some _ t (k_publishDelay cfg) Hs Hex).
Qed.

(** An unforced retirement never hands signing to a key relying parties may
    not have fetched: when [checkReplacementPublished] lets the current signer
    go, whichever remaining keypair signs from then on is past its publish
    delay (or nothing remains, which the store then refuses). *)
Theorem checkReplacementPublished_safe cfg (kid : string) (w w' : World (KeyState S)) :
  monotone_clock ->
  checkReplacementPublished cfg kid w = (w', inr tt) ->
  (exists sgn, Signing (ks_keypairs (w_store w')) (clock (w_tick w)) (k_publishDelay cfg) = Some sgn /\
               Kid sgn = kid) ->
  forall t n, clock (w_tick w') <= t ->
    Signing (List.filter (fun kp => negb (Kid kp =? kid)%string) (ks_keypairs (w_store w'))) t
      (k_publishDelay cfg) = Some n ->
    mature t (k_publishDelay cfg) n.
Proof.
  intros Hmono Hc (sgn & Hsgn & Hkid) t n Ht Hn. unfold checkReplacementPublished in Hc.
  apply bind_inr in Hc as (w1 & [] & Hr & Hc). apply Reload_inr in Hr as [Hs1 Htk].
  apply bind_inr in Hc as (w2 & kps & Ha & Hc). cbn in Ha. injection Ha as <- <-.
  apply bind_inr in Hc as (w3 & sg & Hsg & Hc). cbn in Hsg. injection Hsg as <- Hsg.
  rewrite Htk in Hsg.
  set (kps := ks_keypairs (w_store w1)) in *.
  assert (ks_keypairs (w_store w') = kps) as Hkps.
  { destruct sg as [sg|]; [|by run_in Hc].
    destruct (negb _); [by run_in Hc|].
    apply bind_inr in Hc as (w4 & nx & Hnx & Hc). cbn in Hnx. injection Hnx as <- Hnx.
    destruct nx; [|run_in Hc; reflexivity].
    apply bind_inr in Hc as (w5 & t5 & Ht5 & Hc). run_in Ht5.
    destruct (time_Before _ _); run_in Hc; reflexivity. }
  rewrite Hkps in Hsgn, Hn. rewrite Hsg in Hsgn. subst sg. rewrite Hsgn in Hc.
  cbv beta iota in Hc. rewrite Hkid, String.eqb_refl in Hc. cbn [negb] in Hc.
  apply bind_inr in Hc as (w4 & nx & Hnx & Hc). cbn in Hnx. injection Hnx as <- Hnx.
  set (rest := List.filter _ kps) in *.
  assert (StronglySorted older rest) as Hsr by by apply sorted_filter.
  pose proof (Signing_cases rest t (k_publishDelay cfg) Hsr) as Hct. rewrite Hn in Hct.
  destruct Hct as (Hin & Hret & _).
  destruct nx as [nx|].
  - apply bind_inr in Hc as (w5 & t5 & Ht5 & Hc). cbn in Ht5. injection Ht5 as <- <-.
    destruct (time_Before _ _) eqn:Hb; run_in Hc. cbn in Ht.
    pose proof (Signing_cases rest (clock (Datatypes.S (w_tick w1))) (k_publishDelay cfg) Hsr) as Hcx.
    rewrite Hnx in Hcx.
    destruct Hcx as (Hin' & Hret' & _).
    eapply (Signing_mature rest t _ n nx); eauto.
    unfold mature, time_Before, time_Add in *.
    match type of Hb with (clock ?i <? _) = _ => pose proof (Hmono i (Datatypes.S i) ltac:(lia)) end. lia.
  - exfalso. by eapply (signing_kp_Some rest); [done|exists n; eauto|].
Qed.

End AggregateFacts.

(** ** Encryption at rest *)

(** What AES-GCM promises: opening what was sealed, with the same key, nonce
    and associated data, gives the plaintext back. *)
Definition aead_correct `{AEAD} : Prop :=
  forall key nonce pt aad, aead_Open key nonce (aead_Seal key nonce pt aad) aad = Some pt.

Lemma substring_append_prefix a b : String.substring 0 (String.length a) (a +:+ b) = a.
Proof. induction a as [|c a IH]; [by destruct b|]. rewrite append_cons. cbn. by rewrite IH. Qed.

Lemma drop_bytes_append a b : drop_bytes (String.length a) (a +:+ b) = b.
Proof. induction a as [|c a IH]; [by rewrite append_nil_l|]. rewrite append_cons. cbn. done. Qed.

Section EncryptionFacts.
Context `{AEAD} `{Env} {S : Type}.

Lemma openPEM_sealPEM kek kp pem (w w' : World S) :
  aead_correct -> entropy_sized ->
  sealPEM kek (Kid kp) (PrivatePEM kp) w = (w', inr pem) ->
  isEncrypted pem = true /\ openPEM kek (set_PrivatePEM kp pem) = inr (PrivatePEM kp).
Proof.
  intros Ha He Hs. unfold sealPEM in Hs.
  apply bind_inr in Hs as (w1 & [nonce|] & Hn & Hs); [|done]. cbn in Hn. injection Hn as <- Hn.
  run_in Hs. apply He in Hn. split; [apply HasPrefix_append|].
  unfold openPEM. cbn [PrivatePEM set_PrivatePEM]. rewrite drop_bytes_append, RawStd_roundtrip.
  rewrite length_append, Hn.
  destruct ((_ <? _)%nat) eqn:E; [apply Nat.ltb_lt in E; unfold nonceSize in *; lia|].
  rewrite <- Hn, substring_append_prefix, drop_bytes_append. cbn [Kid set_PrivatePEM]. by rewrite Ha.
Qed.

(** Encryption at rest loses nothing: whatever [sealForStore] persists for
    a freshly generated keypair, opening the stored row under the same
    configuration (with or without a key-encryption key) gives that keypair
    back, and never reports it as stored in clear when it was sealed. *)
Theorem sealForStore_openStored (cfg : KeysCfg) kp kp' (w w' : World S) :
  aead_correct -> entropy_sized ->
  isEncrypted (PrivatePEM kp) = false ->
  sealForStore cfg kp w = (w', inr kp') ->
  openStored cfg [kp'] = inr ([kp], []) /\
  (k_kek cfg <> None -> isEncrypted (PrivatePEM kp') = true).
Proof.
  intros Ha He Hp Hs. unfold sealForStore, openStored in *.
  destruct (cipher cfg) as [e|[kek|]] eqn:Hc; [done| |].
  - apply bind_inr in Hs as (w1 & pem & Hs & Hr). run_in Hr.
    destruct (openPEM_sealPEM _ _ _ _ _ Ha He Hs) as [Hi Ho].
    split; [|by intros _]. cbn [openStored_loop]. cbn [PrivatePEM set_PrivatePEM].
    rewrite Hi. cbn [negb]. rewrite Ho. by destruct kp.
  - run_in Hs. cbn. rewrite Hp. cbn. split; [done|]. unfold cipher in Hc.
    intros Hk. destruct (k_kek cfg); [|done]. by destruct (negb _).
Qed.

End EncryptionFacts.

(** ** The theorems at concrete inputs *)

Module KeysExample.

(** A keypair store in memory. *)
#[local] Instance mem_store : KeyStore (list Keypair) := {
  SaveKeypair kp s := (s ++ [kp], None);
  LoadKeypairs s := (s, (s, None));
  RetireKeypair kid t s := (s, (zeroKeypair, Some (Sentinel ErrKeypairNotFound)))
}.
#[local] Instance xor_free_aead : AEAD := {
  aead_Seal _ _ pt aad := aad +:+ pt;
  aead_Open _ _ ct aad := if HasPrefix ct aad then Some (drop_bytes (String.length aad) ct) else None
}.
#[local] Instance one_key : RSAKeyGen := { rsa_generate _ := Some ("k1", "-----BEGIN 1", "pub1") }.
#[local] Instance fixed_env : Env := {
  clock i := Z.of_nat i;
  entropy i n := Some (String.concat "" (repeat "x" n))
}.

Lemma fixed_env_monotone : monotone_clock.
Proof. intros i j Hij. cbn. lia. Qed.

Lemma fixed_env_sized : entropy_sized.
Proof.
  intros i n b [= <-]. destruct n as [|n]; [done|]. induction n as [|n IH]; [done|].
  change (String.length (String.concat "" (repeat "x" (S (S n)))))
    with (S (String.length (String.concat "" (repeat "x" (S n))))). by rewrite IH.
Qed.

Definition boot : World (KeyState (list Keypair)) := mkWorld (mkKeyState [] [] []) 0 0 [] None.
Definition booted := (Init defaultKeysCfg boot).1.

Lemma Init_has_signer_witness :
  exists kp, Signing (ks_keypairs (w_store booted)) 7 (k_publishDelay defaultKeysCfg) = Some kp /\
             Retired kp = false.
Proof. apply (Init_has_signer defaultKeysCfg boot booted 7). reflexivity. Defined.

Definition old_key : Keypair := mkKeypair "old" AlgRS256 "p" "q" (- Hour) None.
Definition new_key : Keypair := mkKeypair "new" AlgRS256 "p" "q" (- (10 * Minute)) None.
Definition two_keys : World (KeyState (list Keypair)) :=
  mkWorld (mkKeyState [new_key; old_key] [] []) 0 0 [] None.

Lemma checkReplacementPublished_safe_witness :
  Signing (List.filter (fun kp => negb (Kid kp =? "new")%string)
             (ks_keypairs (w_store (checkReplacementPublished defaultKeysCfg "new" two_keys).1)))
    (10 * Hour) (k_publishDelay defaultKeysCfg) = Some old_key /\
  mature (10 * Hour) (k_publishDelay defaultKeysCfg) old_key.
Proof.
  split; [vm_compute; reflexivity|].
  refine (checkReplacementPublished_safe defaultKeysCfg "new" two_keys
            (checkReplacementPublished defaultKeysCfg "new" two_keys).1 fixed_env_monotone _ _ (10 * Hour) old_key _ _).
  - vm_compute. reflexivity.
  - exists new_key. split; vm_compute; reflexivity.
  - vm_compute. discriminate.
  - vm_compute. reflexivity.
Defined.

Definition kek_cfg : KeysCfg := mkKeysCfg AlgRS256 0 (Some "0123456789abcdef0123456789abcdef") 0.

Lemma sealForStore_openStored_witness :
  exists kp', (sealForStore kek_cfg old_key boot).2 = inr kp' /\
    openStored kek_cfg [kp'] = inr ([old_key], []) /\
    (k_kek kek_cfg <> None -> isEncrypted (PrivatePEM kp') = true).
Proof.
  eexists. split; [reflexivity|].
  eapply (sealForStore_openStored kek_cfg old_key _ boot).
  - intros key nonce pt aad. cbv [aead_Open aead_Seal xor_free_aead].
    by rewrite HasPrefix_append, drop_bytes_append.
  - exact fixed_env_sized.
  - reflexivity.
  - vm_compute. reflexivity.
Defined.

End KeysExample.
