(* ===== verification/Signer.v ===== *)
(** * Minting tokens (keys/signer.go)

    The claims of access tokens and ID tokens, and how [Signer] builds and signs
    them with the keypair the signing rule picks, through the one-entry memo of
    the parsed private key. JWT serialization, RSA signing and key parsing are
    third-party code ([JWX]), as is the UUIDv7 generator. *)

From S2P Require Import Prelude GoStrings GoErrors Keys.

(** The claims tempogate writes; an absent claim is [None]. *)
Record Claims := mkClaims {
  cl_sub : string;
  cl_iss : option string;
  cl_aud : list string;
  cl_iat : time;
  cl_nbf : time;
  cl_exp : option time;
  cl_jti : string;
  cl_permissions : option (list string);
  cl_email : option string;
  cl_email_verified : option bool;
  cl_nonce : option string;
  cl_auth_time : option Z;
  cl_client_id : option string;
  cl_idp : option string
}.

#[export] Instance Claims_eq_dec : EqDecision Claims.
Proof. solve_decision. Defined.

(** The JWS protected header: kid and typ. *)
Record Header := mkHeader { h_kid : string; h_typ : string }.

Definition AccessTokenType : string := "at+jwt".
Definition idTokenType : string := "JWT".

Class JWX := {
  (** [jwk.ParseKey] and [jwk.Export] of a private PEM. *)
  jwk_ParsePrivate : string -> option string;
  (** [b.Build()] succeeds. *)
  jwt_Build : Claims -> bool;
  (** [jwt.Sign] with RS256 and the protected headers. *)
  jwt_Sign : Header -> Claims -> string -> option string
}.

(** [uuid.NewV7()] of draw [i]. *)
Class UUIDGen := { uuid_NewV7 : nat -> option string }.

(** [Signer]: the keypair aggregate as its configuration and the keypairs
    cached when the request runs, the issuer and the Temporal audience. *)
Record Signer := mkSigner {
  sg_keys : option (KeysCfg * list Keypair);
  sg_issuer : string;
  sg_audience : string
}.

Record MintRequest := mkMintRequest {
  mr_Subject : string;
  mr_Permissions : list string;
  mr_TTL : duration;
  mr_Email : string;
  mr_IDP : string;
  mr_ClientID : string
}.

Record IDTokenRequest := mkIDTokenRequest {
  ir_Subject : string;
  ir_Email : string;
  ir_IDP : string;
  ir_Audience : string;
  ir_Nonce : string;
  ir_AuthTime : time;
  ir_TTL : duration
}.

(** A claim set only when its value is non-empty. *)
Definition nonempty (s : string) : option string := if (s =? "")%string then None else Some s.

(** Unix seconds: the zero time of Go is year 1, far below any stored time. *)
Definition zeroTime : time := - 62135596800 * Second.
Definition Unix (t : time) : Z := t / Second.

Section Sign.
Context `{JWX} `{UUIDGen} `{Env} {S : Type}.
Implicit Types (s : Signer).

(** [s.builder(subject, ttl)]: the shared claims, and the jti. *)
Definition builder s (subject : string) (ttl : duration) : M S Claims :=
  match sg_keys s with
  | None => throw (Sentinel ErrNoSigningKeys)
  | Some _ => fun w =>
      match uuid_NewV7 (w_draw w) with
      | None => (w, inl (Errorf "keys: generate jti" (Opaque "uuid")))
      | Some jti =>
          let w1 := mkWorld (w_store w) (w_tick w) (Datatypes.S (w_draw w)) (w_trace w) (w_memo w) in
          (t ← now;
           mret (mkClaims subject (nonempty (sg_issuer s)) [] t t
                   (if 0 <? ttl then Some (time_Add t ttl) else None) jti
                   None None None None None None None)) w1
      end
  end.

(** [s.signingKey(kp)]: from the memo when it holds [kp]'s kid. *)
Definition signingKey (kp : Keypair) : M S string :=
  m ← get_memo;
  let parse :=
    match jwk_ParsePrivate (PrivatePEM kp) with
    | None => throw (Errorf "keys: parse private key" (Opaque "jwk"))
    | Some raw => put_memo (Kid kp, raw) ≫= fun _ => mret raw
    end in
  match m with
  | Some (kid, raw) => if (kid =? Kid kp)%string then mret raw else parse
  | None => parse
  end.

Definition latest (cfg : KeysCfg) (kps : list Keypair) : M S Keypair :=
  t ← now;
  match Signing kps t (k_publishDelay cfg) with
  | None => throw (Sentinel ErrNoKeypair)
  | Some kp => mret kp
  end.

(** [s.sign(b, typ)]. *)
Definition sign s (b : Claims) (typ : string) : M S string :=
  match sg_keys s with
  | None => throw (Sentinel ErrNoSigningKeys)
  | Some (cfg, kps) =>
      kp ← latest cfg kps;
      privKey ← signingKey kp;
      if negb (jwt_Build b) then throw (Errorf "keys: build token" (Opaque "jwt"))
      else match jwt_Sign (mkHeader (Kid kp) typ) b privKey with
           | None => throw (Errorf "keys: sign token" (Opaque "jwt"))
           | Some signed => mret signed
           end
  end.

(** The claims of an access token and of an ID token over the shared ones. *)
Definition access_claims s (req : MintRequest) (b : Claims) : Claims :=
  mkClaims (cl_sub b) (cl_iss b) (if (sg_audience s =? "")%string then [] else [sg_audience s])
    (cl_iat b) (cl_nbf b) (cl_exp b) (cl_jti b)
    (Some (mr_Permissions req)) (nonempty (mr_Email req)) None None None
    (nonempty (mr_ClientID req)) (nonempty (mr_IDP req)).

Definition id_claims (req : IDTokenRequest) (b : Claims) : Claims :=
  mkClaims (cl_sub b) (cl_iss b) [ir_Audience req] (cl_iat b) (cl_nbf b) (cl_exp b) (cl_jti b)
    None (nonempty (ir_Email req)) (if (ir_Email req =? "")%string then None else Some true)
    (nonempty (ir_Nonce req))
    (if ir_AuthTime req =? zeroTime then None else Some (Unix (ir_AuthTime req)))
    None (nonempty (ir_IDP req)).

(** [s.Mint(ctx, req)]: the compact serialization and the jti. *)
Definition Mint s (req : MintRequest) : M S (string * string) :=
  b ← builder s (mr_Subject req) (mr_TTL req);
  signed ← sign s (access_claims s req b) AccessTokenType;
  mret (signed, cl_jti b).

(** [s.MintIDToken(ctx, req)]. *)
Definition MintIDToken s (req : IDTokenRequest) : M S string :=
  if (ir_Audience req =? "")%string
  then throw (Opaque "keys: an ID token needs the client as its audience")
  else
    b ← builder s (ir_Subject req) (ir_TTL req);
    sign s (id_claims req b) idTokenType.

End Sign.

(** ** Facts *)

Section SignFacts.
Context `{JWX} `{UUIDGen} `{Env} {S : Type}.
Implicit Types (s : Signer) (w : World S).

(** The memo is coherent with a set of keypairs when what it holds for a kid is
    what parsing that keypair gives: a kid names immutable key material. *)
Definition memo_coherent (kps : list Keypair) w : Prop :=
  forall kid raw, w_memo w = Some (kid, raw) ->
    forall kp, In kp kps -> Kid kp = kid -> jwk_ParsePrivate (PrivatePEM kp) = Some raw.

(** Minting touches neither the store nor the observable trace. *)
Definition keeps_store {A} (m : M S A) : Prop :=
  forall w w' r, m w = (w', r) -> w_store w' = w_store w /\ w_trace w' = w_trace w.

Lemma keeps_bind {A B} (m : M S A) (f : A -> M S B) :
  keeps_store m -> (forall x, keeps_store (f x)) -> keeps_store (m ≫= f).
Proof.
  intros Hm Hf w w' r [(e & Hm1 & ->)|(w1 & x & Hm1 & Hf1)]%bind_cases; [by eapply Hm|].
  apply Hm in Hm1 as [? ?]. apply Hf in Hf1 as [? ?]. split; congruence.
Qed.

Lemma keeps_ret {A} (x : A) : keeps_store (mret x).
Proof. intros w w' r [= <- <-]. done. Qed.

Lemma keeps_throw {A} e : keeps_store (@throw S A e).
Proof. intros w w' r [= <- <-]. done. Qed.

Lemma keeps_now : keeps_store now.
Proof. intros w w' r [= <- <-]. done. Qed.

Lemma keeps_rand n : keeps_store (rand_Read n).
Proof. intros w w' r [= <- <-]. done. Qed.

Lemma keeps_builder s sub ttl : keeps_store (builder s sub ttl).
Proof.
  intros w w' r. unfold builder. destruct (sg_keys s); [|by intros [= <- <-]].
  destruct (uuid_NewV7 (w_draw w)); intros [= <- <-]; done.
Qed.

Lemma keeps_sign s b typ : keeps_store (sign s b typ).
Proof.
  unfold sign. destruct (sg_keys s) as [[cfg kps]|]; [|apply keeps_throw].
  apply keeps_bind.
  { apply keeps_bind; [apply keeps_now|]. intros t.
    destruct (Signing _ _ _); [apply keeps_ret|apply keeps_throw]. }
  intros kp. apply keeps_bind.
  { intros w w' r Hr. unfold signingKey in Hr.
    apply bind_cases in Hr as [(e & [= <-] & ->)|(w1 & m & [= <- <-] & Hr)].
    destruct (w_memo w) as [[kid raw]|]; [destruct (kid =? Kid kp)%string|].
    - by run_in Hr.
    - destruct (jwk_ParsePrivate _); run_in Hr; done.
    - destruct (jwk_ParsePrivate _); run_in Hr; done. }
  intros k. destruct (negb _); [apply keeps_throw|].
  destruct (jwt_Sign _ _ _); [apply keeps_ret|apply keeps_throw].
Qed.

Lemma keeps_Mint s req : keeps_store (Mint s req).
Proof.
  apply keeps_bind; [apply keeps_builder|]. intros b.
  apply keeps_bind; [apply keeps_sign|]. intros x. apply keeps_ret.
Qed.

Lemma keeps_MintIDToken s req : keeps_store (MintIDToken s req).
Proof.
  unfold MintIDToken. destruct (_ =? _)%string; [apply keeps_throw|].
  apply keeps_bind; [apply keeps_builder|]. intros b. apply keeps_sign.
Qed.

Lemma builder_inr s sub ttl w w' b :
  builder s sub ttl w = (w', inr b) ->
  exists jti t, uuid_NewV7 (w_draw w) = Some jti /\ t = clock (w_tick w) /\
    w_tick w' = Datatypes.S (w_tick w) /\ w_memo w' = w_memo w /\
    b = mkClaims sub (nonempty (sg_issuer s)) [] t t
          (if 0 <? ttl then Some (t + ttl) else None) jti None None None None None None None.
Proof.
  unfold builder. destruct (sg_keys s); [|done].
  destruct (uuid_NewV7 (w_draw w)) as [jti|]; [|done]. intros Hb. cbn in Hb. injection Hb as <- <-.
  eauto 10.
Qed.

Lemma sign_inr s b typ w w' tok cfg kps :
  sg_keys s = Some (cfg, kps) -> memo_coherent kps w ->
  sign s b typ w = (w', inr tok) ->
  exists kp raw, Signing kps (clock (w_tick w)) (k_publishDelay cfg) = Some kp /\
    jwk_ParsePrivate (PrivatePEM kp) = Some raw /\
    jwt_Sign (mkHeader (Kid kp) typ) b raw = Some tok.
Proof.
  intros Hk Hc Hs. unfold sign in Hs. rewrite Hk in Hs.
  apply bind_inr in Hs as (w1 & kp & Hl & Hs). unfold latest in Hl.
  apply bind_inr in Hl as (w2 & t & [= <- <-] & Hl).
  destruct (Signing kps _ _) as [kp'|] eqn:Hsg; run_in Hl.
  apply bind_inr in Hs as (w3 & raw & Hr & Hs).
  destruct (negb _); [done|]. destruct (jwt_Sign _ b raw) eqn:Hj; run_in Hs.
  exists kp, raw. split; [done|]. split; [|done].
  pose proof (Signing_In _ _ _ _ Hsg) as Hin.
  unfold signingKey in Hr. apply bind_inr in Hr as (w4 & m & Hm & Hr). run_in Hm. cbn in Hr.
  destruct (w_memo w) as [[kid raw']|] eqn:Hm; [destruct (kid =? Kid kp)%string eqn:Hkid|].
  - run_in Hr. apply String.eqb_eq in Hkid as ->. by eapply Hc.
  - destruct (jwk_ParsePrivate _); run_in Hr; done.
  - destruct (jwk_ParsePrivate _); run_in Hr; done.
Qed.

(** Signing keeps the memo coherent, as long as a kid names one key. *)
Lemma memo_coherent_sign s b typ w w' r cfg kps :
  sg_keys s = Some (cfg, kps) ->
  (forall k1 k2, In k1 kps -> In k2 kps -> Kid k1 = Kid k2 -> PrivatePEM k1 = PrivatePEM k2) ->
  memo_coherent kps w -> sign s b typ w = (w', r) -> memo_coherent kps w'.
Proof.
  intros Hk Hu Hc Hs. unfold sign in Hs. rewrite Hk in Hs.
  apply bind_cases in Hs as [(e & Hl & _)|(w1 & kp & Hl & Hs)];
    unfold latest in Hl; run_in Hl.
  { destruct (Signing kps _ _) in Hl; run_in Hl; exact Hc. }
  destruct (Signing kps _ _) as [kp'|] eqn:Hsg in Hl; run_in Hl. apply Signing_In in Hsg.
  assert (forall w2 q, signingKey kp (mkWorld (w_store w) (Datatypes.S (w_tick w)) (w_draw w)
    (w_trace w) (w_memo w)) = (w2, q) -> memo_coherent kps w2) as Hkey.
  { intros w2 q Hq. unfold signingKey in Hq. run_in Hq.
    destruct (w_memo w) as [[kid raw]|] eqn:Hm; [destruct (kid =? Kid kp)%string|]; run_in Hq;
      [intros kid' raw' E; cbn in E; eapply Hc; congruence| |].
    all: destruct (jwk_ParsePrivate (PrivatePEM kp)) eqn:Hp; run_in Hq; intros kid' raw' E; cbn in E;
      simplify_eq; try (eapply Hc; congruence).
    all: intros k Hin Hkid; rewrite (Hu k kp); auto. }
  apply bind_cases in Hs as [(e & Hq & _)|(w3 & raw & Hq & Hs)]; [by eapply Hkey|].
  apply Hkey in Hq. destruct (negb _); [by run_in Hs|]. destruct (jwt_Sign _ _ _); by run_in Hs.
Qed.

Lemma Mint_inr s (req : MintRequest) w w' tok jti cfg kps :
  sg_keys s = Some (cfg, kps) -> memo_coherent kps w ->
  Mint s req w = (w', inr (tok, jti)) ->
  exists kp raw t0 t1, t0 = clock (w_tick w) /\ t1 = clock (Datatypes.S (w_tick w)) /\
    Signing kps t1 (k_publishDelay cfg) = Some kp /\
    jwk_ParsePrivate (PrivatePEM kp) = Some raw /\
    jwt_Sign (mkHeader (Kid kp) AccessTokenType)
      (mkClaims (mr_Subject req) (nonempty (sg_issuer s))
         (if (sg_audience s =? "")%string then [] else [sg_audience s]) t0 t0
         (if 0 <? mr_TTL req then Some (t0 + mr_TTL req) else None) jti
         (Some (mr_Permissions req)) (nonempty (mr_Email req)) None None None
         (nonempty (mr_ClientID req)) (nonempty (mr_IDP req))) raw = Some tok.
Proof.
  intros Hk Hc Hm. unfold Mint in Hm.
  apply bind_inr in Hm as (w1 & b & Hb & Hm). apply bind_inr in Hm as (w2 & signed & Hs & Hm).
  run_in Hm. apply builder_inr in Hb as (jti & t & _ & -> & Htk & Hmm & ->).
  eapply sign_inr in Hs as (kp & raw & Hsg & Hp & Hj); [|done|by unfold memo_coherent; rewrite Hmm].
  rewrite Htk in Hsg. cbn in Hj |- *. eauto 10.
Qed.

(** What an access token is: a successful [Mint] returns the serialization
    of exactly the requested subject, permissions, email, connector and client,
    for the Temporal audience and this issuer, valid from now until now plus a
    positive TTL, typed at+jwt and signed with the key (and under the kid) the
    signing rule picks, whether or not that key came from the memo. *)
Theorem Mint_token s (req : MintRequest) w w' tok jti cfg kps :
  sg_keys s = Some (cfg, kps) -> memo_coherent kps w ->
  Mint s req w = (w', inr (tok, jti)) ->
  exists kp raw t0 t1, t0 = clock (w_tick w) /\ t1 = clock (Datatypes.S (w_tick w)) /\
    Signing kps t1 (k_publishDelay cfg) = Some kp /\
    jwk_ParsePrivate (PrivatePEM kp) = Some raw /\
    jwt_Sign (mkHeader (Kid kp) AccessTokenType)
      (mkClaims (mr_Subject req) (nonempty (sg_issuer s))
         (if (sg_audience s =? "")%string then [] else [sg_audience s]) t0 t0
         (if 0 <? mr_TTL req then Some (t0 + mr_TTL req) else None) jti
         (Some (mr_Permissions req)) (nonempty (mr_Email req)) None None None
         (nonempty (mr_ClientID req)) (nonempty (mr_IDP req))) raw = Some tok.
Proof. apply Mint_inr. Qed.

(** What an ID token is: a successful [MintIDToken] is for exactly one
    audience, the non-empty requesting client, typed JWT, and carries no
    permissions whatever the request, so it never authorizes at Temporal; the
    nonce is echoed if and only if one was sent. *)
Theorem MintIDToken_token s (req : IDTokenRequest) w w' tok cfg kps :
  sg_keys s = Some (cfg, kps) -> memo_coherent kps w ->
  MintIDToken s req w = (w', inr tok) ->
  ir_Audience req <> "" /\
  exists kp raw c, Signing kps (clock (Datatypes.S (w_tick w))) (k_publishDelay cfg) = Some kp /\
    jwk_ParsePrivate (PrivatePEM kp) = Some raw /\
    jwt_Sign (mkHeader (Kid kp) idTokenType) c raw = Some tok /\
    cl_aud c = [ir_Audience req] /\ cl_permissions c = None /\ cl_sub c = ir_Subject req /\
    cl_nonce c = nonempty (ir_Nonce req) /\ cl_client_id c = None /\
    cl_exp c = (if 0 <? ir_TTL req then Some (clock (w_tick w) + ir_TTL req) else None).
Proof.
  intros Hk Hc Hm. unfold MintIDToken in Hm.
  destruct (ir_Audience req =? "")%string eqn:Ha; [done|]. apply String.eqb_neq in Ha. split; [done|].
  apply bind_inr in Hm as (w1 & b & Hb & Hs).
  apply builder_inr in Hb as (jti & t & _ & -> & Htk & Hmm & ->).
  eapply sign_inr in Hs as (kp & raw & Hsg & Hp & Hj); [|done|by unfold memo_coherent; rewrite Hmm].
  rewrite Htk in Hsg. eexists kp, raw, _. repeat split; [done|done|exact Hj|..]; done.
Qed.

End SignFacts.

(** ** The theorems at concrete inputs *)

Module SignerExample.

#[export] Instance plain_jwx : JWX := {
  jwk_ParsePrivate pem := Some ("key:" +:+ pem);
  jwt_Build _ := true;
  jwt_Sign h c k := Some (h_kid h +:+ "." +:+ h_typ h +:+ "." +:+ cl_sub c +:+ "." +:+ cl_jti c +:+ "." +:+ k)
}.
#[export] Instance uuid_const : UUIDGen := { uuid_NewV7 _ := Some "0198" }.

Definition kp1 : Keypair := mkKeypair "k1" AlgRS256 "pem1" "pub1" 0 None.
Definition signer1 : Signer := mkSigner (Some (defaultKeysCfg, [kp1])) "https://id" "temporal".
Definition req1 : MintRequest := mkMintRequest "google:1" ["default:read"] Hour "a@x.io" "google" "cli".
Definition idreq1 : IDTokenRequest := mkIDTokenRequest "google:1" "a@x.io" "google" "cli" "n" 5 Minute.
Definition memo1 : World unit := mkWorld tt 0 0 [] (Some ("k1", "key:pem1")).

Lemma memo1_coherent : memo_coherent [kp1] memo1.
Proof. intros kid raw [= <- <-] kp [<-|[]] _. reflexivity. Qed.

Import KeysExample.
#[local] Existing Instance fixed_env.

Lemma Mint_token_witness :
  exists kp raw t0 t1, t0 = clock 0 /\ t1 = clock 1 /\
    Signing [kp1] t1 (k_publishDelay defaultKeysCfg) = Some kp /\
    jwk_ParsePrivate (PrivatePEM kp) = Some raw /\
    jwt_Sign (mkHeader (Kid kp) AccessTokenType)
      (mkClaims "google:1" (nonempty "https://id") ["temporal"] t0 t0 (Some (t0 + Hour)) "0198"
         (Some ["default:read"]) (nonempty "a@x.io") None None None
         (nonempty "cli") (nonempty "google")) raw = Some "k1.at+jwt.google:1.0198.key:pem1".
Proof.
  refine (Mint_token signer1 req1 memo1 _ _ _ defaultKeysCfg [kp1] _ memo1_coherent _); reflexivity.
Defined.

Lemma MintIDToken_token_witness :
  ir_Audience idreq1 <> "" /\
  exists kp raw c, Signing [kp1] (clock 1) (k_publishDelay defaultKeysCfg) = Some kp /\
    jwk_ParsePrivate (PrivatePEM kp) = Some raw /\
    jwt_Sign (mkHeader (Kid kp) idTokenType) c raw = Some "k1.JWT.google:1.0198.key:pem1" /\
    cl_aud c = ["cli"] /\ cl_permissions c = None /\ cl_sub c = "google:1" /\
    cl_nonce c = Some "n" /\ cl_client_id c = None /\ cl_exp c = Some (clock 0 + Minute).
Proof.
  refine (MintIDToken_token signer1 idreq1 memo1 _ _ defaultKeysCfg [kp1] _ memo1_coherent _); reflexivity.
Defined.

End SignerExample.
