(* ===== verification/Verifier.v ===== *)
(** * Verifying access tokens (keys/verifier.go, keys/jwks.go)

    What tempogate accepts as its own access token: the published key set with
    its memo, signature and claims through the JWT library, the token type, the
    denylist; and the public key set it publishes for relying parties. The JOSE
    library and X.509 parsing are parameters, with their documented behaviour as
    the laws of a class. *)

From S2P Require Import Prelude GoStrings GoErrors GoEncoding Oidc Denylist Keys Signer.

(** A [jwk.Key] as the library keeps it: kid, algorithm and key material. *)
Record jwkKey := mkJwkKey { jk_kid : string; jk_alg : string; jk_pub : string }.

#[export] Instance jwkKey_eq_dec : EqDecision jwkKey.
Proof. solve_decision. Defined.

(** The JOSE library; a [jwk.Set] is its keys in order. *)
Class JOSE := {
  (** [jwk.ParseKey(pem, jwk.WithX509(true))]. *)
  jwk_ParsePublic : string -> option jwkKey;
  (** [key.Set(jwk.KeyIDKey, kid)] and [key.Set(jwk.AlgorithmKey, alg)]. *)
  jwk_SetKeyID : string -> jwkKey -> option jwkKey;
  jwk_SetAlgorithm : string -> jwkKey -> option jwkKey;
  set_AddKey : jwkKey -> list jwkKey -> option (list jwkKey);
  set_LookupKeyID : string -> list jwkKey -> option jwkKey;
  (** [jwt.Parse] with the key set, the clock's reading, and the issuer and the
      audience to require, if any. *)
  jwt_Parse : list jwkKey -> time -> option string -> option string -> string -> option Claims;
  (** [jws.Parse]: the protected header of the first signature. *)
  jws_Parse : string -> option Header
}.

(** ** The verifier *)

Record verifyKeySet := mkVerifyKeySet { vk_kids : list string; vk_set : list jwkKey }.

Record Verifier := mkVerifier {
  vf_keys : option (KeysCfg * list Keypair);
  vf_issuer : string;
  vf_audience : string;
  (** a [DenylistChecker] is configured. *)
  vf_denylist : bool
}.

(** The store behind the denylist checker, and the memo of the key set. *)
Record VState (S : Type) := mkVState { vs_store : S; vs_parsed : option verifyKeySet }.
Arguments mkVState {S}.
Arguments vs_store {S}.
Arguments vs_parsed {S}.

Definition published (cfg : KeysCfg) (kps : list Keypair) (t : time) : list Keypair :=
  List.filter (in_grace t (k_grace cfg)) kps.

Fixpoint sameKids (kids : list string) (kps : list Keypair) : bool :=
  match kids, kps with
  | [], [] => true
  | kid :: kids, kp :: kps => (kid =? Kid kp)%string && sameKids kids kps
  | _, _ => false
  end.

Section Verify.
Context `{JOSE} `{Env} {S : Type} `{DenylistChecker S}.
Implicit Types (v : Verifier) (kp : Keypair) (prev : option verifyKeySet).

(** [v.publicKey(prev, kp)]. *)
Definition publicKey prev kp : error + jwkKey :=
  let parse :=
    match jwk_ParsePublic (PublicPEM kp) with
    | None => inl (Errorf "keys: parse public key" (Opaque "jwk"))
    | Some pub =>
        match jwk_SetKeyID (Kid kp) pub with
        | None => inl (Errorf "keys: set kid" (Opaque "jwk"))
        | Some pub =>
            match jwk_SetAlgorithm AlgRS256 pub with
            | None => inl (Errorf "keys: set alg" (Opaque "jwk"))
            | Some pub => inr pub
            end
        end
    end in
  match prev with
  | Some p => match set_LookupKeyID (Kid kp) (vk_set p) with Some pub => inr pub | None => parse end
  | None => parse
  end.

(** The loop that rebuilds the set. *)
Fixpoint build_set prev (kps : list Keypair) (set : list jwkKey) (kids : list string) :
    error + verifyKeySet :=
  match kps with
  | [] => inr (mkVerifyKeySet kids set)
  | kp :: kps =>
      match publicKey prev kp with
      | inl e => inl e
      | inr pub =>
          match set_AddKey pub set with
          | None => inl (Errorf "keys: add key to set" (Opaque "jwk"))
          | Some set => build_set prev kps set (kids ++ [Kid kp])
          end
      end
  end.

Definition get_parsed : M (VState S) (option verifyKeySet) := on_store (fun s => (s, vs_parsed s)).
Definition put_parsed (p : verifyKeySet) : M (VState S) unit :=
  on_store (fun s => (mkVState (vs_store s) (Some p), tt)).

Definition nonempty_set (set : list jwkKey) : M (VState S) (list jwkKey) :=
  match set with [] => throw (Sentinel ErrNoVerificationKeys) | _ => mret set end.

(** [v.keySet()], with [v.keys.Published()]. *)
Definition keySet (cfg : KeysCfg) (loaded : list Keypair) : M (VState S) (list jwkKey) :=
  t ← now;
  let kps := published cfg loaded t in
  prev ← get_parsed;
  let rebuild :=
    match build_set prev kps [] [] with
    | inl e => throw e
    | inr p => put_parsed p ≫= fun _ => nonempty_set (vk_set p)
    end in
  match prev with
  | Some p => if sameKids (vk_kids p) kps then nonempty_set (vk_set p) else rebuild
  | None => rebuild
  end.

(** The denylist check at the end of [Verify]. *)
Definition check_denylist v (tok : Claims) : M (VState S) Claims :=
  if vf_denylist v && negb (cl_jti tok =? "")%string then
    r ← attempt (zoom vs_store (fun s p => mkVState s (vs_parsed p)) (IsRevoked (cl_jti tok)));
    match r with
    | inl e => throw (Errorf "keys: check denylist" e)
    | inr true => throw (Sentinel ErrTokenRevoked)
    | inr false => mret tok
    end
  else mret tok.

(** [v.Verify(ctx, raw)]. *)
Definition Verify v (raw : string) : M (VState S) Claims :=
  match vf_keys v with
  | None => throw (Sentinel ErrNoVerificationKeys)
  | Some (cfg, kps) =>
      set ← keySet cfg kps;
      t ← now;
      match jwt_Parse set t (nonempty (vf_issuer v)) (nonempty (vf_audience v)) raw with
      | None => throw (Errorf "keys: verify token" (Opaque "jwt"))
      | Some tok =>
          match jws_Parse raw with
          | None => throw (Errorf "keys: parse token header" (Opaque "jws"))
          | Some h =>
              if negb (h_typ h =? AccessTokenType)%string then throw (Sentinel ErrNotAccessToken)
              else check_denylist v tok
          end
      end
  end.

End Verify.

(** ** The published key set *)

Record JWK := mkJWK { J_Kid : string; J_Alg : string; J_N : string; J_E : string }.

(** What [pem.Decode] and [x509.ParsePKIXPublicKey] make of a public PEM. *)
Inductive publicPEM :=
  | NoPEM
  | BadKey
  | NotRSA
  | RSAPublic (modulus exponent : Z).

Class X509 := { x509_public : string -> publicPEM }.

(** [big.Int.Bytes()]: the absolute value, big-endian, without leading zeros. *)
Fixpoint big_bytes (fuel : nat) (n : Z) (acc : string) : string :=
  match fuel with
  | O => acc
  | S fuel => if n =? 0 then acc
              else big_bytes fuel (n / 256) (String (Ascii.ascii_of_nat (Z.to_nat (n mod 256))) acc)
  end.

Definition big_Bytes (n : Z) : string := big_bytes (Z.to_nat (Z.log2 (Z.abs n) + 1)) (Z.abs n) "".

Section JWKS.
Context `{X509}.

Definition publicJWK (kp : Keypair) : error + JWK :=
  match x509_public (PublicPEM kp) with
  | NoPEM => inl (Opaque "keys: decode public PEM")
  | BadKey => inl (Errorf "keys: parse public key" (Opaque "x509"))
  | NotRSA => inl (Errorf "kid" (Sentinel ErrNotRSAPublicKey))
  | RSAPublic n e =>
      inr (mkJWK (Kid kp) (Alg kp) (RawURL_Encode (big_Bytes n)) (RawURL_Encode (big_Bytes e)))
  end.

Fixpoint public_loop (kps : list Keypair) (out : list JWK) : error + list JWK :=
  match kps with
  | [] => inr out
  | kp :: kps => match publicJWK kp with inl e => inl e | inr j => public_loop kps (out ++ [j]) end
  end.

(** [k.PublicJWKS()]. *)
Definition PublicJWKS `{Env} {S} (cfg : KeysCfg) : M (KeyState S) (list JWK) :=
  kps ← Published cfg;
  match public_loop kps [] with inl e => throw e | inr out => mret out end.

End JWKS.

(** ** What the library promises *)

(** Numeric dates on the wire are whole seconds, and the library compares whole
    seconds. *)
Definition trunc (t : time) : time := t / Second * Second.

Definition wire (c : Claims) : Claims :=
  mkClaims (cl_sub c) (cl_iss c) (cl_aud c) (trunc (cl_iat c)) (trunc (cl_nbf c)) (option_map trunc (cl_exp c))
    (cl_jti c) (cl_permissions c) (cl_email c) (cl_email_verified c) (cl_nonce c) (cl_auth_time c)
    (cl_client_id c) (cl_idp c).

(** What [jwt.Parse] validates: the temporal claims, and the required issuer and
    audience. *)
Record claims_valid (t : time) (iss aud : option string) (c : Claims) : Prop := {
  cv_exp : forall e, cl_exp c = Some e -> trunc t < trunc e;
  cv_nbf : trunc (cl_nbf c) <= trunc t;
  cv_iat : trunc (cl_iat c) <= trunc t;
  cv_iss : forall i, iss = Some i -> cl_iss c = Some i;
  cv_aud : forall a, aud = Some a -> In a (cl_aud c)
}.

(** [signed raw h c pub]: [raw] is the compact serialization of [c] under the
    protected header [h], with a signature that verifies under [pub];
    [key_pair priv pub]: the halves of one RSA key. *)
Class JOSELaws `{JWX} `{JOSE} := {
  signed : string -> Header -> Claims -> string -> Prop;
  key_pair : string -> string -> Prop;
  SetKeyID_law kid k : exists k', jwk_SetKeyID kid k = Some k' /\ jk_kid k' = kid /\ jk_pub k' = jk_pub k;
  SetAlgorithm_law alg k :
    exists k', jwk_SetAlgorithm alg k = Some k' /\ jk_kid k' = jk_kid k /\ jk_pub k' = jk_pub k;
  AddKey_law k set set' : set_AddKey k set = Some set' -> set' = set ++ [k];
  AddKey_fresh k set : ~ In k set -> set_AddKey k set <> None;
  Lookup_law kid set k : set_LookupKeyID kid set = Some k -> In k set /\ jk_kid k = kid;
  Parse_sound set t iss aud raw c :
    jwt_Parse set t iss aud raw = Some c ->
    (exists k h, In k set /\ h_kid h = jk_kid k /\ signed raw h c (jk_pub k)) /\ claims_valid t iss aud c;
  Parse_complete set t iss aud raw c k h :
    NoDup (map jk_kid set) -> In k set -> h_kid h = jk_kid k -> signed raw h c (jk_pub k) ->
    claims_valid t iss aud c -> jwt_Parse set t iss aud raw = Some c;
  jws_law raw h c pub : signed raw h c pub -> jws_Parse raw = Some h;
  Sign_law h c priv pub raw :
    jwt_Sign h c priv = Some raw -> key_pair priv pub -> signed raw h (wire c) pub;
  Sign_compact h c priv raw : jwt_Sign h c priv = Some raw -> raw <> "" /\ TrimSpace raw = raw
}.

(** ** The key set *)

Section KeySetFacts.
Context `{JOSELaws} `{Env} {S : Type} `{DenylistChecker S}.
(** the public PEM a kid names, for good: key material is immutable per kid. *)
Context (pem_of : string -> string).
Implicit Types (w : World (VState S)) (kps : list Keypair).

Definition immutable kps : Prop := forall kp, In kp kps -> PublicPEM kp = pem_of (Kid kp).

(** A parsed key stands for its kid's PEM. *)
Definition key_ok (kid : string) (k : jwkKey) : Prop :=
  jk_kid k = kid /\ exists k0, jwk_ParsePublic (pem_of kid) = Some k0 /\ jk_pub k = jk_pub k0.

Definition parsed_ok (p : verifyKeySet) : Prop := List.Forall2 key_ok (vk_kids p) (vk_set p).

Definition coherent w : Prop := forall p, vs_parsed (w_store w) = Some p -> parsed_ok p.

Lemma publicKey_ok prev kp k :
  (forall p, prev = Some p -> parsed_ok p) -> PublicPEM kp = pem_of (Kid kp) ->
  publicKey prev kp = inr k -> key_ok (Kid kp) k.
Proof.
  intros Hp Hpem Hk.
  assert (Hparse : forall r, match jwk_ParsePublic (PublicPEM kp) with
    | None => inl (Errorf "keys: parse public key" (Opaque "jwk"))
    | Some pub => match jwk_SetKeyID (Kid kp) pub with
      | None => inl (Errorf "keys: set kid" (Opaque "jwk"))
      | Some pub => match jwk_SetAlgorithm AlgRS256 pub with
        | None => inl (Errorf "keys: set alg" (Opaque "jwk")) | Some pub => inr pub end end end = inr r ->
    key_ok (Kid kp) r).
  { intros r. rewrite Hpem. destruct (jwk_ParsePublic _) as [k0|] eqn:E; [|done].
    destruct (SetKeyID_law (Kid kp) k0) as (k1 & -> & K1 & K2).
    destruct (SetAlgorithm_law AlgRS256 k1) as (k2 & -> & K3 & K4). intros [= <-].
    split; [congruence|]. exists k0. split; [done|congruence]. }
  unfold publicKey in Hk. destruct prev as [p|]; [|by apply Hparse].
  destruct (set_LookupKeyID _ _) as [k1|] eqn:E; [|by apply Hparse]. injection Hk as <-.
  apply Lookup_law in E as [Hin Hkid]. specialize (Hp p eq_refl). unfold parsed_ok in Hp.
  clear -Hp Hin Hkid. induction Hp as [|kid x kids xs Hx Hxs IH]; [done|]. destruct Hin as [->|Hin]; [|by apply IH].
  destruct Hx as [Hx1 Hx2]. split; [done|]. by rewrite <- Hkid, Hx1.
Qed.

Lemma publicKey_total prev kp :
  is_Some (jwk_ParsePublic (PublicPEM kp)) -> exists k, publicKey prev kp = inr k.
Proof.
  intros [k0 E]. unfold publicKey. rewrite E.
  destruct (SetKeyID_law (Kid kp) k0) as (k1 & -> & _ & _).
  destruct (SetAlgorithm_law AlgRS256 k1) as (k2 & -> & _ & _).
  destruct prev as [p|]; [|eauto]. destruct (set_LookupKeyID _ _); eauto.
Qed.

Lemma build_set_ok prev kps set kids p :
  (forall p, prev = Some p -> parsed_ok p) -> immutable kps ->
  parsed_ok (mkVerifyKeySet kids set) -> build_set prev kps set kids = inr p ->
  parsed_ok p /\ vk_kids p = kids ++ map Kid kps.
Proof.
  intros Hp. revert set kids. induction kps as [|kp kps IH]; intros set kids Him Hok Hb; cbn in Hb |- *.
  { injection Hb as <-. by rewrite app_nil_r. }
  destruct (publicKey prev kp) as [e|k] eqn:Hk; [done|].
  destruct (set_AddKey k set) as [set'|] eqn:Ha; [|done]. apply AddKey_law in Ha as ->.
  apply IH in Hb as [Hb1 Hb2].
  - split; [done|]. by rewrite Hb2, <- app_assoc.
  - intros x Hx. apply Him. by right.
  - apply List.Forall2_app; [done|]. constructor; [|constructor].
    eapply publicKey_ok; [done| |done]. apply Him. by left.
Qed.

Lemma build_set_total prev kps set kids :
  (forall p, prev = Some p -> parsed_ok p) -> immutable kps -> parsed_ok (mkVerifyKeySet kids set) ->
  (forall kp, In kp kps -> is_Some (jwk_ParsePublic (PublicPEM kp))) ->
  NoDup (kids ++ map Kid kps) -> exists p, build_set prev kps set kids = inr p.
Proof.
  intros Hp. revert set kids. induction kps as [|kp kps IH]; intros set kids Him Hok Hpem Hnd; cbn; [eauto|].
  destruct (publicKey_total prev kp) as [k Hk]; [apply Hpem; by left|]. rewrite Hk.
  apply publicKey_ok in Hk; [|done|apply Him; by left].
  destruct (set_AddKey k set) as [set'|] eqn:Ha.
  - apply AddKey_law in Ha as ->. apply IH.
    + intros x Hx. apply Him. by right.
    + apply List.Forall2_app; [done|]. by constructor; [|constructor].
    + intros x Hx. apply Hpem. by right.
    + by rewrite <- app_assoc.
  - exfalso. revert Ha. apply AddKey_fresh. intros Hin. unfold parsed_ok in Hok. cbn in Hok.
    assert (In (Kid kp) kids) as Hkin.
    { destruct Hk as [<- _]. clear -Hok Hin. induction Hok as [|kid x kids xs [Hx _] Hxs IH]; [done|].
      destruct Hin as [->|Hin]; [by left|right; auto]. }
    cbn in Hnd. apply NoDup_app in Hnd as (_ & Hd & _). apply (Hd (Kid kp)); [by apply list_elem_of_In|by left].
Qed.

Lemma sameKids_spec kids kps : sameKids kids kps = true <-> kids = map Kid kps.
Proof.
  revert kps. induction kids as [|kid kids IH]; intros [|kp kps]; cbn; try done.
  rewrite andb_true_iff, String.eqb_eq, IH. split; [by intros [-> ->]|by intros [= -> ->]].
Qed.

Lemma immutable_published cfg kps t : immutable kps -> immutable (published cfg kps t).
Proof. intros Him kp [Hin _]%filter_In. by apply Him. Qed.

(** Whatever [keySet] does, it leaves a memo that stands for some kids. *)
Lemma keySet_cases cfg kps w w' r :
  immutable kps -> coherent w -> keySet cfg kps w = (w', r) ->
  coherent w' /\ vs_store (w_store w') = vs_store (w_store w) /\ w_tick w' = Datatypes.S (w_tick w) /\
  forall set, r = inr set -> set <> [] /\
    parsed_ok (mkVerifyKeySet (map Kid (published cfg kps (clock (w_tick w)))) set).
Proof.
  intros Him Hc Hk. destruct w as [[st prev] tk dr tr mm]. unfold keySet in Hk. run_in Hk.
  apply (immutable_published cfg kps (clock tk)) in Him. set (pub := published cfg kps (clock tk)) in *.
  assert (forall p, prev = Some p -> parsed_ok p) as Hp by (intros p E; by apply Hc).
  assert (Hre : forall w', match build_set prev pub [] [] with
    | inl e => fun w => (w, inl e)
    | inr p => fun w => match put_parsed p w with (w', inl e) => (w', inl e) | (w', inr _) => nonempty_set (vk_set p) w' end
    end (mkWorld (mkVState st prev) (Datatypes.S tk) dr tr mm) = (w', r) ->
    coherent w' /\ vs_store (w_store w') = st /\ w_tick w' = Datatypes.S tk /\
    forall set, r = inr set -> set <> [] /\ parsed_ok (mkVerifyKeySet (map Kid pub) set)).
  { clear Hk w'. intros w' Hr. destruct (build_set prev pub [] []) as [e|p] eqn:Hb; [by run_in Hr|].
    apply build_set_ok in Hb as [Hok Hkids]; [|done|done|constructor].
    unfold nonempty_set in Hr. destruct p as [kids set]. cbn in Hkids. subst kids.
    destruct set as [|k set]; run_in Hr; (split; [by intros p [= <-]|]); (split; [done|]); (split; [done|]); [done|].
    by intros set' [= <-]. }
  destruct prev as [p|]; [|by apply Hre]. destruct (sameKids (vk_kids p) pub) eqn:Hs; [|by apply Hre].
  clear Hre. apply sameKids_spec in Hs. specialize (Hp p eq_refl). destruct p as [kids set]. cbn in Hs. subst kids.
  unfold nonempty_set in Hk. destruct set as [|k set]; run_in Hk;
    (split; [by intros p [= <-]|]); (split; [done|]); (split; [done|]); [done|].
  by intros set' [= <-].
Qed.

Lemma published_NoDup cfg kps t : NoDup (map Kid kps) -> NoDup (map Kid (published cfg kps t)).
Proof.
  unfold published. induction kps as [|kp kps IH]; [constructor|]. cbn. intros [Hk Hnd]%NoDup_cons.
  destruct (in_grace _ _ _); [|auto]. cbn. constructor; [|auto].
  intros Hin. apply Hk. apply list_elem_of_In, in_map_iff in Hin as (x & Hx & [Hin _]%filter_In).
  apply list_elem_of_In, in_map_iff. eauto.
Qed.

(** The keys load: some key is published, each one's PEM parses and kids differ. *)
Lemma keySet_total cfg kps w w' r :
  immutable kps -> coherent w -> NoDup (map Kid kps) -> published cfg kps (clock (w_tick w)) <> [] ->
  (forall kp, In kp kps -> is_Some (jwk_ParsePublic (PublicPEM kp))) ->
  keySet cfg kps w = (w', r) -> exists set, r = inr set.
Proof.
  intros Him Hc Hnd Hne Hpem Hk. destruct w as [[st prev] tk dr tr mm]. unfold keySet in Hk. run_in Hk.
  apply (immutable_published cfg kps (clock tk)) in Him. cbn in Hne. set (pub := published cfg kps (clock tk)) in *.
  assert (forall p, prev = Some p -> parsed_ok p) as Hp by (intros p E; by apply Hc).
  assert (NoDup (map Kid pub)) as Hnd2 by by apply published_NoDup.
  assert (Hset : forall p, parsed_ok p -> vk_kids p = map Kid pub -> vk_set p <> []).
  { intros [kids set] Hok Hkids E. cbn in Hkids, E. subst. inversion Hok. by destruct pub. }
  assert (Hok : forall p w1, vk_set p <> [] -> nonempty_set (vk_set p) w1 = (w', r) -> exists set, r = inr set).
  { intros p w1 Hn Hr. unfold nonempty_set in Hr. destruct (vk_set p); [done|]. run_in Hr. eauto. }
  destruct (build_set_total prev pub [] []) as [p Hb]; [done|done|constructor|..|done|].
  { intros kp [Hin _]%filter_In. by apply Hpem. }
  rewrite Hb in Hk. apply build_set_ok in Hb as [Hbok Hbk]; [|done|done|constructor].
  destruct prev as [q|]; [destruct (sameKids (vk_kids q) pub) eqn:Hs|].
  - apply sameKids_spec in Hs. eapply (Hok q); [by apply Hset; [apply Hp|]|done].
  - eapply (Hok p); [by apply Hset|done].
  - eapply (Hok p); [by apply Hset|done].
Qed.

End KeySetFacts.

(** ** What is accepted *)

Section VerifyFacts.
Context `{JOSELaws} `{UUIDGen} `{Env} {S : Type} `{DenylistChecker S} (pem_of : string -> string).
Implicit Types (v : Verifier) (w : World (VState S)).

(** An accepted signature: by the key of a keypair still published when the
    request began. *)
Definition signed_by_published (cfg : KeysCfg) (kps : list Keypair) (t : time) (raw : string) (h : Header)
    (tok : Claims) : Prop :=
  exists kp k0, In kp kps /\ in_grace t (k_grace cfg) kp = true /\ h_kid h = Kid kp /\
    jwk_ParsePublic (PublicPEM kp) = Some k0 /\ signed raw h tok (jk_pub k0).

Lemma Forall2_In_r {A B} (R : A -> B -> Prop) xs ys y :
  List.Forall2 R xs ys -> In y ys -> exists x, In x xs /\ R x y.
Proof.
  induction 1 as [|x y' xs ys Hr Hrs IH]; [done|]. intros [->|Hin]; [exists x; split; [by left|done]|].
  destruct (IH Hin) as (x' & ? & ?). exists x'. split; [by right|done].
Qed.

Lemma Forall2_In_l {A B} (R : A -> B -> Prop) xs ys x :
  List.Forall2 R xs ys -> In x xs -> exists y, In y ys /\ R x y.
Proof.
  induction 1 as [|x' y xs ys Hr Hrs IH]; [done|]. intros [->|Hin]; [exists y; split; [by left|done]|].
  destruct (IH Hin) as (y' & ? & ?). exists y'. split; [by right|done].
Qed.

Lemma check_denylist_inr v tok w w' tok' :
  check_denylist v tok w = (w', inr tok') ->
  tok' = tok /\ vs_parsed (w_store w') = vs_parsed (w_store w) /\
  (vf_denylist v = true -> cl_jti tok <> "" ->
   exists (w1 w2 : World S), w_store w1 = vs_store (w_store w) /\ w_tick w1 = w_tick w /\
     w_store w2 = vs_store (w_store w') /\ IsRevoked (cl_jti tok) w1 = (w2, inr false)).
Proof.
  unfold check_denylist. destruct (vf_denylist v) eqn:Hd; cbn [andb]; [|by intros [= <- <-]].
  destruct (cl_jti tok =? "")%string eqn:Hj; cbn [negb].
  { apply String.eqb_eq in Hj. intros [= <- <-]. by split_and?. }
  intros (w1 & x & Hr & Hm)%bind_inr. unfold attempt, zoom in Hr.
  destruct (IsRevoked (cl_jti tok) _) as [w2 r2] eqn:Hi. injection Hr as <- <-.
  destruct r2 as [e|[|]]; run_in Hm. split; [done|]. split; [done|]. intros _ _.
  exists (mkWorld (vs_store (w_store w)) (w_tick w) (w_draw w) (w_trace w) (w_memo w)), w2. done.
Qed.

Lemma Verify_inr v cfg kps raw w w' tok :
  vf_keys v = Some (cfg, kps) -> immutable pem_of kps -> coherent pem_of w ->
  Verify v raw w = (w', inr tok) ->
  coherent pem_of w' /\
  (exists h, h_typ h = AccessTokenType /\ signed_by_published cfg kps (clock (w_tick w)) raw h tok) /\
  claims_valid (clock (Datatypes.S (w_tick w))) (nonempty (vf_issuer v)) (nonempty (vf_audience v)) tok /\
  (vf_denylist v = true -> cl_jti tok <> "" ->
   exists (w1 w2 : World S), w_store w1 = vs_store (w_store w) /\ (w_tick w <= w_tick w1)%nat /\
     w_store w2 = vs_store (w_store w') /\ IsRevoked (cl_jti tok) w1 = (w2, inr false)).
Proof.
  intros Hkeys Him Hc Hv. unfold Verify in Hv. rewrite Hkeys in Hv.
  apply bind_inr in Hv as (w1 & set & Hset & Hv).
  destruct (keySet_cases pem_of _ _ _ _ _ Him Hc Hset) as (Hc1 & Hst1 & Htk1 & Hs). destruct (Hs set eq_refl) as [_ Hok].
  apply bind_inr in Hv as (w2 & t & Ht & Hv). cbn in Ht. injection Ht as <- <-. rewrite Htk1 in Hv.
  destruct (jwt_Parse _ _ _ _ _) as [tok'|] eqn:Hp; [|done].
  destruct (jws_Parse raw) as [h|] eqn:Hh; [|done].
  destruct (h_typ h =? AccessTokenType)%string eqn:Hty; [|done]. cbn [negb] in Hv.
  apply String.eqb_eq in Hty. apply check_denylist_inr in Hv as (-> & Hpar & Hden). cbn [w_store w_tick] in *.
  apply Parse_sound in Hp as [(k & h' & Hin & Hkid & Hsig) Hval].
  pose proof (jws_law _ _ _ _ Hsig) as Hh'. rewrite Hh in Hh'. injection Hh' as <-.
  destruct (Forall2_In_r _ _ _ k Hok Hin) as (kid & Hkin & Hk1 & k0 & Hk2 & Hk3). cbn in Hkin.
  apply in_map_iff in Hkin as (kp & <- & [Hkp Hg]%filter_In).
  split. { intros p. rewrite Hpar. apply Hc1. }
  split. { exists h. split; [done|]. exists kp, k0. rewrite (Him kp Hkp). rewrite <- Hk3. split_and?; try done. congruence. }
  split; [done|]. intros Hd Hj. destruct (Hden Hd Hj) as (w3 & w4 & E1 & E2 & E3 & E4).
  exists w3, w4. rewrite E1, Hst1, E2. split_and?; try done. lia.
Qed.

(** C12. What [Verify] accepts: only a token typed at+jwt, signed with the key of a
    keypair that is not retired, or was retired less than the grace ago, as of
    this request, even when the key set comes from the memo; for this issuer and
    audience, within its validity, and, where a denylist is configured and the
    token has a jti, as every minted one does, whose jti the denylist answered
    "active" for during this very call. *)
Theorem Verify_sound v cfg kps raw w w' tok :
  vf_keys v = Some (cfg, kps) -> immutable pem_of kps -> coherent pem_of w ->
  Verify v raw w = (w', inr tok) ->
  coherent pem_of w' /\
  (exists h, h_typ h = AccessTokenType /\ signed_by_published cfg kps (clock (w_tick w)) raw h tok) /\
  claims_valid (clock (Datatypes.S (w_tick w))) (nonempty (vf_issuer v)) (nonempty (vf_audience v)) tok /\
  (vf_denylist v = true -> cl_jti tok <> "" ->
   exists (w1 w2 : World S), w_store w1 = vs_store (w_store w) /\ (w_tick w <= w_tick w1)%nat /\
     w_store w2 = vs_store (w_store w') /\ IsRevoked (cl_jti tok) w1 = (w2, inr false)).
Proof. apply Verify_inr. Qed.

(** The memo stays coherent, whatever the outcome. *)
Lemma Verify_coherent v cfg kps raw w w' r :
  vf_keys v = Some (cfg, kps) -> immutable pem_of kps -> coherent pem_of w ->
  Verify v raw w = (w', r) -> coherent pem_of w'.
Proof.
  intros Hkeys Him Hc Hv. unfold Verify in Hv. rewrite Hkeys in Hv.
  apply bind_cases in Hv as [(e & Hset & _)|(w1 & set & Hset & Hv)];
    destruct (keySet_cases pem_of _ _ _ _ _ Him Hc Hset) as (Hc1 & _); [done|].
  apply bind_cases in Hv as [(e & [=] & _)|(w2 & t & Ht & Hv)]. cbn in Ht. injection Ht as <- <-.
  assert (vs_parsed (w_store w') = vs_parsed (w_store w1)) as Hp; [|by unfold coherent; rewrite Hp].
  destruct (jwt_Parse _ _ _ _ _) as [tok|]; [|by run_in Hv]. destruct (jws_Parse raw) as [h|]; [|by run_in Hv].
  destruct (negb _); [by run_in Hv|]. unfold check_denylist in Hv. destruct (_ && _); [|by run_in Hv].
  apply bind_cases in Hv as [(e & Hz & _)|(w3 & x & Hz & Hv)]; unfold attempt, zoom in Hz;
    destruct (IsRevoked _ _) as [w4 r4]; [done|]. injection Hz as <- <-. destruct r4 as [e|[|]]; by run_in Hv.
Qed.

(** ** Minted tokens *)

Lemma trunc_mono t u : t <= u -> trunc t <= trunc u.
Proof. intros Htu. unfold trunc. apply Z.mul_le_mono_nonneg_r; [done|]. by apply Z.div_le_mono. Qed.

Lemma trunc_trunc t : trunc (trunc t) = trunc t.
Proof. unfold trunc. by rewrite Z.div_mul by done. Qed.

Lemma check_denylist_active v tok w :
  (vf_denylist v = true -> cl_jti tok <> "" ->
   forall w1 : World S, w_store w1 = vs_store (w_store w) -> (IsRevoked (cl_jti tok) w1).2 = inr false) ->
  (check_denylist v tok w).2 = inr tok.
Proof.
  intros Hd. unfold check_denylist. destruct (vf_denylist v) eqn:Hv; cbn [andb]; [|done].
  destruct (cl_jti tok =? "")%string eqn:Hj; cbn [negb]; [done|]. apply String.eqb_neq in Hj.
  unfold mbind, M_bind, attempt, zoom.
  specialize (Hd eq_refl Hj (mkWorld (vs_store (w_store w)) (w_tick w) (w_draw w) (w_trace w) (w_memo w)) eq_refl).
  destruct (IsRevoked _ _) as [w2 r2]. cbn in Hd. by rewrite Hd.
Qed.

(** A token signed by a published key and valid is accepted. *)
Lemma Verify_complete v cfg kps raw w h tok :
  vf_keys v = Some (cfg, kps) -> immutable pem_of kps -> coherent pem_of w ->
  NoDup (map Kid kps) -> (forall kp, In kp kps -> is_Some (jwk_ParsePublic (PublicPEM kp))) ->
  h_typ h = AccessTokenType -> signed_by_published cfg kps (clock (w_tick w)) raw h tok ->
  claims_valid (clock (Datatypes.S (w_tick w))) (nonempty (vf_issuer v)) (nonempty (vf_audience v)) tok ->
  (vf_denylist v = true -> cl_jti tok <> "" ->
   forall w1 : World S, w_store w1 = vs_store (w_store w) -> (IsRevoked (cl_jti tok) w1).2 = inr false) ->
  (Verify v raw w).2 = inr tok.
Proof.
  intros Hkeys Him Hc Hnd Hpem Hty (kp & k0 & Hin & Hg & Hkid & Hk0 & Hsig) Hval Hden.
  unfold Verify. rewrite Hkeys. unfold mbind at 1, M_bind at 1.
  destruct (keySet cfg kps w) as [w1 r] eqn:Hset.
  assert (In kp (published cfg kps (clock (w_tick w)))) as Hpub by by apply filter_In.
  destruct (keySet_total pem_of cfg kps w w1 r) as [set ->]; try done.
  { intros E. by rewrite E in Hpub. }
  destruct (keySet_cases pem_of _ _ _ _ _ Him Hc Hset) as (Hc1 & Hst1 & Htk1 & Hs). destruct (Hs set eq_refl) as [_ Hok].
  destruct (Forall2_In_l _ _ _ (Kid kp) Hok) as (k & Hkin & Hk1 & k1 & Hk2 & Hk3); [by apply in_map|].
  assert (map jk_kid set = map Kid (published cfg kps (clock (w_tick w)))) as Hkids.
  { clear -Hok. unfold parsed_ok in Hok. cbn in Hok. induction Hok as [|x k xs ks [Hx _] Hr IH]; [done|].
    cbn. by rewrite Hx, IH. }
  unfold mbind, M_bind, now. cbn [w_tick w_store]. rewrite Htk1.
  rewrite (Parse_complete set _ _ _ raw tok k h); [|..|done].
  - rewrite (jws_law _ _ _ _ Hsig), Hty. cbn [negb String.eqb]. rewrite String.eqb_refl. cbn [negb].
    apply check_denylist_active. cbn [w_store]. by rewrite Hst1.
  - rewrite Hkids. by apply published_NoDup.
  - done.
  - by rewrite Hk1.
  - rewrite <- (Him kp Hin), Hk0 in Hk2. injection Hk2 as ->. by rewrite Hk3.
Qed.

(** The verifier is configured with loadable keys. *)
Record serves v (cfg : KeysCfg) (kps : list Keypair) w : Prop := {
  sv_keys : vf_keys v = Some (cfg, kps);
  sv_immutable : immutable pem_of kps;
  sv_coherent : coherent pem_of w;
  sv_kids : NoDup (map Kid kps);
  sv_parse : forall kp, In kp kps -> is_Some (jwk_ParsePublic (PublicPEM kp))
}.

(** The verifier still publishes the other half of a signing key, under the same
    kid, whether or not it has been retired since. *)
Definition still_published (cfg : KeysCfg) (kps : list Keypair) (t : time) (signer : Keypair) : Prop :=
  forall priv, jwk_ParsePrivate (PrivatePEM signer) = Some priv ->
  exists kp k0, In kp kps /\ Kid kp = Kid signer /\ in_grace t (k_grace cfg) kp = true /\
    jwk_ParsePublic (PublicPEM kp) = Some k0 /\ key_pair priv (jk_pub k0).

Lemma minted_verifies {T} sg req (w0 w0' : World T) tok jti cfg0 kps0 v cfg kps w :
  sg_keys sg = Some (cfg0, kps0) -> memo_coherent kps0 w0 -> Mint sg req w0 = (w0', inr (tok, jti)) ->
  serves v cfg kps w -> vf_issuer v = sg_issuer sg -> vf_audience v = sg_audience sg ->
  (forall kp, Signing kps0 (clock (Datatypes.S (w_tick w0))) (k_publishDelay cfg0) = Some kp ->
     still_published cfg kps (clock (w_tick w)) kp) ->
  clock (w_tick w0) <= clock (Datatypes.S (w_tick w)) ->
  (0 < mr_TTL req -> trunc (clock (Datatypes.S (w_tick w))) < trunc (clock (w_tick w0) + mr_TTL req)) ->
  (vf_denylist v = true -> jti <> "" ->
   forall w1 : World S, w_store w1 = vs_store (w_store w) -> (IsRevoked jti w1).2 = inr false) ->
  exists c, (Verify v tok w).2 = inr c /\ cl_sub c = mr_Subject req /\ cl_jti c = jti /\
    cl_permissions c = Some (mr_Permissions req) /\ cl_email c = nonempty (mr_Email req) /\
    cl_idp c = nonempty (mr_IDP req) /\ cl_client_id c = nonempty (mr_ClientID req).
Proof.
  intros Hsk Hmemo Hmint [Hk Him Hc Hnd Hp] Hiss Haud Hpub Hclk Hexp Hden.
  eapply Mint_inr in Hmint as (kp & priv & t0 & t1 & -> & -> & Hsg & Hpr & Hsig); [|done|done].
  destruct (Hpub kp Hsg priv Hpr) as (kp2 & k0 & Hin & Hkid & Hg & Hk0 & Hpair).
  pose proof (Sign_law _ _ _ _ _ Hsig Hpair) as Hs.
  eexists. split; [eapply (Verify_complete v cfg kps tok w _ _ Hk Him Hc Hnd Hp)|].
  - exact (eq_refl : h_typ (mkHeader (Kid kp) AccessTokenType) = _).
  - exists kp2, k0. eauto 10.
  - constructor; cbn.
    + intros e. destruct (0 <? mr_TTL req) eqn:E; [|done]. intros [= <-]. rewrite trunc_trunc. apply Hexp. lia.
    + rewrite trunc_trunc. by apply trunc_mono.
    + rewrite trunc_trunc. by apply trunc_mono.
    + rewrite Hiss. by intros i ->.
    + rewrite Haud. unfold nonempty. destruct (sg_audience sg =? "")%string; [done|]. intros a [= <-]. by left.
  - cbn. exact Hden.
  - done.
Qed.

(** Minting and verifying agree: an access token [Mint] returns is accepted by
    a verifier of the same issuer and audience, with its subject, permissions,
    email, connector and client as requested, until it expires (to the second),
    as long as its signing key is published, that is, through a retirement of
    that key until the grace elapses, and its jti is not denylisted. *)
Theorem minted_token_verifies {T} sg req (w0 w0' : World T) tok jti cfg0 kps0 v cfg kps w :
  sg_keys sg = Some (cfg0, kps0) -> memo_coherent kps0 w0 -> Mint sg req w0 = (w0', inr (tok, jti)) ->
  serves v cfg kps w -> vf_issuer v = sg_issuer sg -> vf_audience v = sg_audience sg ->
  (forall kp, Signing kps0 (clock (Datatypes.S (w_tick w0))) (k_publishDelay cfg0) = Some kp ->
     still_published cfg kps (clock (w_tick w)) kp) ->
  clock (w_tick w0) <= clock (Datatypes.S (w_tick w)) ->
  (0 < mr_TTL req -> trunc (clock (Datatypes.S (w_tick w))) < trunc (clock (w_tick w0) + mr_TTL req)) ->
  (vf_denylist v = true -> jti <> "" ->
   forall w1 : World S, w_store w1 = vs_store (w_store w) -> (IsRevoked jti w1).2 = inr false) ->
  exists c, (Verify v tok w).2 = inr c /\ cl_sub c = mr_Subject req /\ cl_jti c = jti /\
    cl_permissions c = Some (mr_Permissions req) /\ cl_email c = nonempty (mr_Email req) /\
    cl_idp c = nonempty (mr_IDP req) /\ cl_client_id c = nonempty (mr_ClientID req).
Proof. apply minted_verifies. Qed.

(** An ID token is never a credential: whatever verifier, key set and time, a
    token [MintIDToken] returns is refused. *)
Theorem id_token_refused {T} sg req (w0 w0' : World T) tok cfg0 kps0 v w :
  sg_keys sg = Some (cfg0, kps0) -> memo_coherent kps0 w0 -> MintIDToken sg req w0 = (w0', inr tok) ->
  (forall kp priv, In kp kps0 -> jwk_ParsePrivate (PrivatePEM kp) = Some priv -> exists pub, key_pair priv pub) ->
  exists e, (Verify v tok w).2 = inl e.
Proof.
  intros Hsk Hmemo Hmint Hpair. unfold MintIDToken in Hmint. destruct (ir_Audience req =? "")%string; [done|].
  apply bind_inr in Hmint as (w1 & b & Hb & Hs). apply builder_inr in Hb as (jti & t & _ & _ & _ & Hmm & _).
  eapply sign_inr in Hs as (kp & priv & Hsg & Hpr & Hj); [|done|by unfold memo_coherent; rewrite Hmm].
  destruct (Hpair kp priv (Signing_In _ _ _ _ Hsg) Hpr) as [pub Hkp].
  pose proof (jws_law _ _ _ _ (Sign_law _ _ _ _ _ Hj Hkp)) as Hh.
  unfold Verify. destruct (vf_keys v) as [[cfg kps]|]; [|cbn; eauto].
  unfold mbind, M_bind. destruct (keySet cfg kps w) as [w2 [e|set]]; [cbn; eauto|]. cbn [now].
  destruct (jwt_Parse _ _ _ _ _); [|cbn; eauto]. rewrite Hh. cbn. eauto.
Qed.

End VerifyFacts.

(** ** Revocation through the cache *)

Section Revoked.
Context `{JOSELaws} `{Env} `{MapOrder} {T : Type} `{DenylistStore T} (pem_of : string -> string).

Lemma revoked_refused v cfg kps raw (w w' : World (VState (Cached T))) tok jti :
  vf_keys v = Some (cfg, kps) -> immutable pem_of kps -> coherent pem_of w ->
  vf_denylist v = true -> jti <> "" -> dl_checker (ca_cache (vs_store (w_store w))) = true ->
  steady (ca_store (vs_store (w_store w))) -> revoked_in jti (vs_store (w_store w)) ->
  Verify v raw w = (w', inr tok) -> cl_jti tok <> jti.
Proof.
  intros Hk Him Hc Hd Hj Hck Hst Hrev Hv E. subst jti.
  destruct (Verify_inr pem_of _ _ _ _ _ _ _ Hk Him Hc Hv) as (_ & _ & _ & Hden).
  destruct (Hden Hd Hj) as (w1 & w2 & Hs & _ & _ & Hr). rewrite <- Hs in Hck, Hst, Hrev.
  by eapply revoked_in_answer in Hr.
Qed.

(** A revoked token is refused: behind the denylist cache, once the jti is in
    the table and the cache holds no contrary answer (at once after [Hydrate],
    and after the TTL otherwise), [Verify] accepts no token with that jti, in
    whatever state the key set memo is. *)
Theorem revoked_token_refused v cfg kps raw (w w' : World (VState (Cached T))) tok jti :
  vf_keys v = Some (cfg, kps) -> immutable pem_of kps -> coherent pem_of w ->
  vf_denylist v = true -> jti <> "" -> dl_checker (ca_cache (vs_store (w_store w))) = true ->
  steady (ca_store (vs_store (w_store w))) -> revoked_in jti (vs_store (w_store w)) ->
  Verify v raw w = (w', inr tok) -> cl_jti tok <> jti.
Proof. apply revoked_refused. Qed.

End Revoked.

(** ** The published key set *)

(** A big-endian byte string as a number. *)
Fixpoint big_endian (acc : Z) (s : string) : Z :=
  match s with
  | EmptyString => acc
  | String c s => big_endian (acc * 256 + Z.of_nat (Ascii.nat_of_ascii c)) s
  end.

Lemma big_bytes_app fuel n acc : big_bytes fuel n acc = big_bytes fuel n "" +:+ acc.
Proof.
  revert n acc. induction fuel as [|fuel IH]; intros n acc; cbn; [done|]. destruct (n =? 0); [done|].
  rewrite IH, (IH _ (String _ "")). by rewrite append_assoc, append_cons, append_nil_l.
Qed.

Lemma big_endian_app a s t : big_endian a (s +:+ t) = big_endian (big_endian a s) t.
Proof. revert a. induction s as [|c s IH]; intros a; [done|]. rewrite append_cons. cbn. by rewrite IH. Qed.

Lemma big_bytes_value fuel n :
  0 <= n < 256 ^ Z.of_nat fuel -> big_endian 0 (big_bytes fuel n "") = n.
Proof.
  revert n. induction fuel as [|fuel IH]; intros n Hn; cbn [big_bytes].
  { cbn in Hn |- *. lia. }
  destruct (n =? 0) eqn:E; [apply Z.eqb_eq in E; by subst|].
  rewrite Nat2Z.inj_succ, Z.pow_succ_r in Hn by lia.
  rewrite big_bytes_app, big_endian_app, IH by (split; [apply Z.div_pos; lia|apply Z.div_lt_upper_bound; lia]).
  cbn. pose proof (Z.mod_pos_bound n 256 ltac:(lia)).
  rewrite Ascii.nat_ascii_embedding, Z2Nat.id by lia.
  rewrite Z.mul_comm. symmetry. apply Z_div_mod_eq_full.
Qed.

Lemma big_Bytes_fits n : 0 <= Z.abs n < 256 ^ Z.of_nat (Z.to_nat (Z.log2 (Z.abs n) + 1)).
Proof.
  split; [lia|]. destruct (decide (n = 0)) as [->|Hn]; [done|].
  pose proof (Z.log2_spec (Z.abs n) ltac:(lia)) as [_ Hl]. pose proof (Z.log2_nonneg (Z.abs n)).
  rewrite Z2Nat.id by lia. eapply Z.lt_le_trans; [exact Hl|].
  change 256 with (2 ^ 8). rewrite <- Z.pow_mul_r by lia. apply Z.pow_le_mono_r; lia.
Qed.

Lemma big_Bytes_value n : big_endian 0 (big_Bytes n) = Z.abs n.
Proof. apply big_bytes_value, big_Bytes_fits. Qed.

(** No leading zero octet, as RFC 7518 asks. *)
Lemma big_bytes_lead fuel n c s :
  0 <= n < 256 ^ Z.of_nat fuel -> big_bytes fuel n "" = String c s -> Ascii.nat_of_ascii c <> 0%nat.
Proof.
  revert n c s. induction fuel as [|fuel IH]; intros n c s Hn; cbn [big_bytes]; [done|].
  destruct (n =? 0) eqn:E; [done|]. apply Z.eqb_neq in E.
  rewrite Nat2Z.inj_succ, Z.pow_succ_r in Hn by lia. rewrite big_bytes_app.
  assert (0 <= n / 256 < 256 ^ Z.of_nat fuel) as Hd
    by (split; [apply Z.div_pos; lia|apply Z.div_lt_upper_bound; lia]).
  pose proof (big_bytes_value fuel (n / 256) Hd) as Hv.
  destruct (big_bytes fuel (n / 256) "") as [|c' s'] eqn:Hb.
  - rewrite append_nil_l. intros [= <- <-]. cbn in Hv. pose proof (Z.mod_pos_bound n 256 ltac:(lia)).
    pose proof (Z_div_mod_eq_full n 256). rewrite Ascii.nat_ascii_embedding by lia. lia.
  - rewrite append_cons. intros [= <- _]. by eapply IH.
Qed.

Lemma big_Bytes_lead n c s : big_Bytes n = String c s -> Ascii.nat_of_ascii c <> 0%nat.
Proof. apply big_bytes_lead, big_Bytes_fits. Qed.

Section JWKSFacts.
Context `{X509} `{JOSELaws} `{Env} {S T : Type} `{DenylistChecker S} (pem_of : string -> string).

(** The JWK of a keypair: its kid, and its modulus and exponent in the
    Base64urlUInt encoding of RFC 7518 (minimal, big-endian). *)
Definition projects (kp : Keypair) (j : JWK) : Prop :=
  J_Kid j = Kid kp /\ J_Alg j = Alg kp /\
  exists n e bn be, x509_public (PublicPEM kp) = RSAPublic n e /\
    RawURL_Decode (J_N j) = Some bn /\ big_endian 0 bn = Z.abs n /\
    RawURL_Decode (J_E j) = Some be /\ big_endian 0 be = Z.abs e /\
    forall c s, bn = String c s \/ be = String c s -> Ascii.nat_of_ascii c <> 0%nat.

Lemma publicJWK_projects kp j : publicJWK kp = inr j -> projects kp j.
Proof.
  unfold publicJWK. destruct (x509_public (PublicPEM kp)) as [| | |n e] eqn:E; [done..|]. intros [= <-].
  split; [done|]. split; [done|]. exists n, e, (big_Bytes n), (big_Bytes e). cbn [J_N J_E].
  rewrite !RawURL_roundtrip, !big_Bytes_value. split_and?; try done.
  intros c s [Hc|Hc]; by eapply big_Bytes_lead.
Qed.

Lemma public_loop_projects kps out js done_ :
  public_loop kps out = inr js -> List.Forall2 projects done_ out -> List.Forall2 projects (done_ ++ kps) js.
Proof.
  revert out done_. induction kps as [|kp kps IH]; intros out done_ Hl Ho; cbn in Hl.
  { injection Hl as <-. by rewrite app_nil_r. }
  destruct (publicJWK kp) as [e|j] eqn:Hj; [done|].
  change (kp :: kps) with ([kp] ++ kps). rewrite app_assoc. eapply IH; [done|].
  apply List.Forall2_app; [done|]. constructor; [by apply publicJWK_projects|constructor].
Qed.

(** The published key set: [PublicJWKS] lists exactly the keypairs that are
    not retired past their grace, each with its kid, modulus and exponent, so a
    relying party decodes the very key; and these are the kids [Verify] takes
    its keys from at that instant, so tempogate and its relying parties stop
    accepting a retired key together. *)
Theorem PublicJWKS_faithful (cfg : KeysCfg) (w w' : World (KeyState T)) js :
  PublicJWKS cfg w = (w', inr js) ->
  List.Forall2 projects (published cfg (ks_keypairs (w_store w)) (clock (w_tick w))) js /\
  forall (wv wv' : World (VState S)) set,
    immutable pem_of (ks_keypairs (w_store w)) -> coherent pem_of wv ->
    clock (w_tick wv) = clock (w_tick w) ->
    keySet cfg (ks_keypairs (w_store w)) wv = (wv', inr set) -> map jk_kid set = map J_Kid js.
Proof.
  intros Hp. assert (List.Forall2 projects (published cfg (ks_keypairs (w_store w)) (clock (w_tick w))) js) as Hall.
  { unfold PublicJWKS, Published, All in Hp. run_in Hp. fold (published cfg (ks_keypairs (w_store w)) (clock (w_tick w))) in Hp.
    destruct (public_loop _ []) as [e|out] eqn:Hl; run_in Hp.
    apply (public_loop_projects _ _ _ [] Hl). constructor. }
  split; [done|]. intros wv wv' set Him Hc Ht Hk.
  destruct (keySet_cases pem_of _ _ _ _ _ Him Hc Hk) as (_ & _ & _ & Hs). destruct (Hs set eq_refl) as [_ Hok].
  rewrite Ht in Hok. unfold parsed_ok in Hok. cbn [vk_kids vk_set] in Hok. clear -Hall Hok. revert set Hok.
  induction Hall as [|kp j kps js [Hj _] Hall IH]; intros set Hok; inversion Hok as [|x k xs ks [Hk _] Hr]; [done|].
  subst. cbn. rewrite (IH ks Hr). congruence.
Qed.

End JWKSFacts.
