(* ===== verification/Binding.v ===== *)
(** * Keyed values of the browser leg (oidc/mac.go, oidc/upstreambinding.go)

    Everything tempogate derives under OIDC_SESSION_SIGNING_KEY: the labelled
    MACs of the session cookie and the device bounce state, and the per-login
    PKCE verifier, nonce, request id and browser-binding cookie of the upstream
    leg. *)

From S2P Require Import Prelude GoStrings GoErrors GoEncoding GoCrypto GoURL GoHttp Oidc.

Definition NUL : string := String nul "".

(** ** mac.go *)

Definition macLabelSessionCookie : string := "tempogate/session-cookie".
Definition macLabelDeviceBounceState : string := "tempogate/device/bounce-state".

Definition labeledMAC (key label msg : string) : string := hmac_sha256 key (label +:+ NUL +:+ msg).

(** ** upstreambinding.go *)

Definition sessionSigningKeyBytes : Z := 32.
Definition upstreamCookieBase : string := "tempogate_upstream_".
Definition hostCookiePrefix : string := "__Host-".
Definition upstreamCookieIDHexLen : nat := 16.

Definition labelUpstreamVerifier : string := "tempogate/upstream/pkce-verifier" +:+ NUL.
Definition labelUpstreamNonce : string := "tempogate/upstream/nonce" +:+ NUL.
Definition labelUpstreamRequestID : string := "tempogate/upstream/request-id" +:+ NUL.
Definition labelUpstreamBinding : string := "tempogate/upstream/browser-binding" +:+ NUL.

Definition CallbackPathPrefix : string := "/callback/".
Definition CallbackPath (connectorID : string) : string := CallbackPathPrefix +:+ connectorID.

Definition authRequestTTL : duration := 5 * Minute.

Record UpstreamBinding := mkBinding {
  ub_key : string;
  ub_secure : bool;
  ub_issuerPath : string;
  ub_namePrefix : string
}.

Definition NewUpstreamBinding `{URLParser} (issuer key : string) : error + UpstreamBinding :=
  if negb (len key =? sessionSigningKeyBytes)
  then inl (Opaque "oidc: upstream binding key must be 32 bytes")
  else
    match url_Parse (TrimSpace issuer) with
    | Some u =>
        if EqualFold (u_Scheme u) "http"
        then inr (mkBinding key false (TrimRightByte (u_Path u) "/") upstreamCookieBase)
        else inr (mkBinding key true "" (hostCookiePrefix +:+ upstreamCookieBase))
    | None => inr (mkBinding key true "" (hostCookiePrefix +:+ upstreamCookieBase))
    end.

(** [b.mac(label, connectorID, internalState)]. *)
Definition mac (b : UpstreamBinding) (label connectorID internalState : string) : string :=
  hmac_sha256 (ub_key b) (label +:+ connectorID +:+ NUL +:+ internalState).

Definition derive (b : UpstreamBinding) (label connectorID internalState : string) : string :=
  RawURL_Encode (mac b label connectorID internalState).

Definition codeVerifier (b : UpstreamBinding) (connectorID internalState : string) : string :=
  derive b labelUpstreamVerifier connectorID internalState.

Definition codeChallenge (b : UpstreamBinding) (connectorID internalState : string) : string :=
  RawURL_Encode (sha256_Sum256 (codeVerifier b connectorID internalState)).

Definition nonce (b : UpstreamBinding) (connectorID internalState : string) : string :=
  derive b labelUpstreamNonce connectorID internalState.

Definition requestID (b : UpstreamBinding) (connectorID internalState : string) : string :=
  "_" +:+ hex_Encode (mac b labelUpstreamRequestID connectorID internalState).

Definition cookieName (b : UpstreamBinding) (internalState : string) : string :=
  ub_namePrefix b +:+ String.substring 0 upstreamCookieIDHexLen (hex_Encode (sha256_Sum256 internalState)).

Definition cookie (b : UpstreamBinding) (connectorID internalState value : string) (maxAge : Z) : Cookie :=
  mkCookie (cookieName b internalState) value
    (if ub_secure b then "/" else ub_issuerPath b +:+ CallbackPath connectorID)
    true (ub_secure b) SameSiteLaxMode maxAge.

(** [b.Cookie(connectorID, internalState)], set by /authorize. *)
Definition Binding_Cookie (b : UpstreamBinding) (connectorID internalState : string) : Cookie :=
  cookie b connectorID internalState (derive b labelUpstreamBinding connectorID internalState)
    (Z.quot authRequestTTL Second).

Definition clearCookie (b : UpstreamBinding) (connectorID internalState : string) : Cookie :=
  cookie b connectorID internalState "" (-1).

Definition boundToBrowser (b : UpstreamBinding) (cookieHeader connectorID internalState : string) : bool :=
  match Request_Cookie cookieHeader (cookieName b internalState) with
  | None => false
  | Some v => ConstantTimeCompare v (derive b labelUpstreamBinding connectorID internalState)
  end.

(** ** One key, six purposes *)

(** What a MAC under the signing key vouches for. *)
Inductive purpose :=
  | SessionSID (sid : string)
  | BounceState (payload : string)
  | UpstreamVerifier (connectorID internalState : string)
  | UpstreamNonce (connectorID internalState : string)
  | UpstreamRequestID (connectorID internalState : string)
  | UpstreamBrowser (connectorID internalState : string).

(** The message that is authenticated for it. *)
Definition mac_input (p : purpose) : string :=
  match p with
  | SessionSID sid => macLabelSessionCookie +:+ NUL +:+ sid
  | BounceState payload => macLabelDeviceBounceState +:+ NUL +:+ payload
  | UpstreamVerifier c s => labelUpstreamVerifier +:+ c +:+ NUL +:+ s
  | UpstreamNonce c s => labelUpstreamNonce +:+ c +:+ NUL +:+ s
  | UpstreamRequestID c s => labelUpstreamRequestID +:+ c +:+ NUL +:+ s
  | UpstreamBrowser c s => labelUpstreamBinding +:+ c +:+ NUL +:+ s
  end.

(** The MAC the code computes for it. *)
Definition purpose_mac (b : UpstreamBinding) (p : purpose) : string :=
  match p with
  | SessionSID sid => labeledMAC (ub_key b) macLabelSessionCookie sid
  | BounceState payload => labeledMAC (ub_key b) macLabelDeviceBounceState payload
  | UpstreamVerifier c s => mac b labelUpstreamVerifier c s
  | UpstreamNonce c s => mac b labelUpstreamNonce c s
  | UpstreamRequestID c s => mac b labelUpstreamRequestID c s
  | UpstreamBrowser c s => mac b labelUpstreamBinding c s
  end.

Definition purpose_connector (p : purpose) : option string :=
  match p with
  | SessionSID _ | BounceState _ => None
  | UpstreamVerifier c _ | UpstreamNonce c _ | UpstreamRequestID c _ | UpstreamBrowser c _ => Some c
  end.

Definition wf_purpose (p : purpose) : Prop :=
  match purpose_connector p with Some c => ValidateConnectorID c = None | None => True end.

(** ** Facts *)

(** A value [base64(raw).base64(MAC)] that authenticates [raw] under a label. *)
Definition authentic (key label value raw : string) : Prop :=
  exists a b, value = a +:+ "." +:+ b /\ ContainsByte a "." = false /\ a <> "" /\ b <> "" /\
    RawURL_Decode a = Some raw /\ RawURL_Decode b = Some (labeledMAC key label raw).

Lemma RawURL_Encode_nonempty s : s <> "" -> RawURL_Encode s <> "".
Proof. intros Hs E. apply Hs, RawURL_Encode_inj. by rewrite E. Qed.

Lemma authentic_sign key label raw :
  raw <> "" -> authentic key label (RawURL_Encode raw +:+ "." +:+ RawURL_Encode (labeledMAC key label raw)) raw.
Proof.
  intros Hs. eexists _, _. split; [done|]. split.
  { by apply (all_bytes_no_byte url_char); [apply RawURL_Encode_chars|]. }
  split; [by apply RawURL_Encode_nonempty|]. split; [|by rewrite !RawURL_roundtrip].
  apply RawURL_Encode_nonempty. intros E. apply (f_equal String.length) in E.
  unfold labeledMAC in E. by rewrite hmac_length in E.
Qed.

Lemma connector_no_nul c : ValidateConnectorID c = None -> ContainsByte c nul = false.
Proof.
  intros [Hp _]%ValidateConnectorID_None. destruct c as [|a s]; [done|]. cbn [connectorIDPattern] in Hp.
  apply andb_true_iff in Hp as [[Ha Hs]%andb_true_iff _]. cbn [ContainsByte].
  rewrite (all_bytes_no_byte _ _ _ Hs) by reflexivity. rewrite orb_false_r.
  apply Ascii.eqb_neq. intros ->. by vm_compute in Ha.
Qed.

(** A NUL-free prefix is determined by the text. *)
Lemma nul_prefix_inj a b s t :
  ContainsByte a nul = false -> ContainsByte b nul = false -> a +:+ NUL +:+ s = b +:+ NUL +:+ t -> a = b /\ s = t.
Proof.
  intros Ha Hb E.
  assert (Cut (a +:+ String nul s) nul = Some (a, s)) by (by apply Cut_Some).
  assert (Cut (b +:+ String nul t) nul = Some (b, t)) by (by apply Cut_Some).
  unfold NUL in E. rewrite !append_cons, !append_nil_l in E. rewrite E in *. by simplify_eq.
Qed.

(** The MACs under the one signing key never stand in for each other: each
    is HMAC-SHA256 of a message that determines its purpose, its connector and
    its state (or sid, or payload), whatever bytes those contain, for every
    connector id the server admits. So a value minted for one purpose, for one
    login or for one connector authenticates no other. *)
Theorem mac_domain_separation (b : UpstreamBinding) (p q : purpose) :
  wf_purpose p -> wf_purpose q ->
  purpose_mac b p = hmac_sha256 (ub_key b) (mac_input p) /\
  (mac_input p = mac_input q -> p = q).
Proof.
  intros Hp Hq. split; [by destruct p|].
  assert (Hl : forall x y s t, x +:+ NUL +:+ s = y +:+ NUL +:+ t ->
                 ContainsByte x nul = false -> ContainsByte y nul = false -> x = y /\ s = t).
  { intros x y s t E Hx Hy. by apply nul_prefix_inj. }
  destruct p as [x|x|c s|c s|c s|c s], q as [y|y|d t|d t|d t|d t]; cbn [mac_input];
    unfold labelUpstreamVerifier, labelUpstreamNonce, labelUpstreamRequestID, labelUpstreamBinding;
    rewrite ?append_assoc; intros E; apply Hl in E as [E1 E2]; try done; subst; try done;
    (apply Hl in E2 as [-> ->]; [done|by apply connector_no_nul..]).
Qed.

Lemma mac_domain_separation_witness :
  let b := mkBinding "key" true "" "__Host-tempogate_upstream_" in
  purpose_mac b (UpstreamNonce "google" "s") = hmac_sha256 "key" (mac_input (UpstreamNonce "google" "s")) /\
  (mac_input (UpstreamNonce "google" "s") = mac_input (UpstreamVerifier "google" "s") ->
   UpstreamNonce "google" "s" = UpstreamVerifier "google" "s").
Proof.
  apply (mac_domain_separation (mkBinding "key" true "" "__Host-tempogate_upstream_")); reflexivity.
Defined.

(** ** The binding cookie comes back *)

Lemma substring_all_bytes p n m s : all_bytes p s = true -> all_bytes p (String.substring n m s) = true.
Proof.
  revert n m. induction s as [|c s IH]; intros n m; [by destruct n, m|]. cbn.
  intros [Hc Hs]%andb_true_iff. destruct n; [destruct m|]; cbn; rewrite ?Hc, ?(IH _ _ Hs); auto.
Qed.

Lemma hex_token s : all_bytes token_byte (hex_Encode s) = true.
Proof.
  induction s as [|c s IH]; [done|]. cbn [hex_Encode all_bytes]. rewrite IH.
  by destruct c as [[] [] [] [] [] [] [] []].
Qed.

Lemma url_char_plain c : url_char c = true -> plain_value_byte c = true.
Proof. by destruct c as [[] [] [] [] [] [] [] []]. Qed.

Lemma derive_plain b l c st : all_bytes plain_value_byte (derive b l c st) = true.
Proof. apply (all_bytes_impl _ _ _ url_char_plain), RawURL_Encode_chars. Qed.

Lemma sanitize_plain v : all_bytes plain_value_byte v = true -> ContainsByte v "," = false -> sanitizeCookieValue v = v.
Proof.
  intros Hv Hc. unfold sanitizeCookieValue. rewrite (filter_bytes_id _ _ (all_bytes_impl _ _ _ plain_valid Hv)).
  rewrite Hc, (all_bytes_no_byte _ _ _ Hv) by done. by destruct (v =? "")%string.
Qed.

Lemma derive_sanitized b l c st : sanitizeCookieValue (derive b l c st) = derive b l c st.
Proof.
  apply sanitize_plain; [apply derive_plain|].
  by apply (all_bytes_no_byte url_char); [apply RawURL_Encode_chars|].
Qed.

Section BindingFacts.
Context `{URLParser}.

Lemma cookieName_token issuer key b st :
  NewUpstreamBinding issuer key = inr b -> isToken (cookieName b st) = true.
Proof.
  intros Hb. assert (isToken (ub_namePrefix b) = true) as [Hne Ht]%andb_true_iff.
  { unfold NewUpstreamBinding in Hb. destruct (negb _); [done|].
    destruct (url_Parse _) as [u|]; [destruct (EqualFold _ _)|]; by simplify_eq. }
  unfold isToken, cookieName. rewrite all_bytes_app, Ht. cbn [andb].
  rewrite substring_all_bytes by apply hex_token. rewrite andb_true_r. by destruct (ub_namePrefix b).
Qed.

Lemma assoc_first_app name pre v post :
  name ∉ pre.*1 -> assoc_first name (pre ++ (name, v) :: post) = Some v.
Proof.
  unfold assoc_first. induction pre as [|[n x] pre IH]; cbn [fmap list_fmap fst app List.find].
  - by rewrite String.eqb_refl.
  - intros [Hn Hp]%not_elem_of_cons. rewrite (proj2 (String.eqb_neq _ _)) by done. by apply IH.
Qed.

(** The browser that called /authorize passes the binding check: the
    Set-Cookie header of /authorize carries the binding's name and value
    unaltered, and a request that sends that cookie back, among any other
    well-formed cookies of other names, is recognised for that connector and
    state. *)
Theorem binding_cookie_roundtrip (issuer key connectorID st : string) (b : UpstreamBinding)
    (pre post : list (string * string)) :
  NewUpstreamBinding issuer key = inr b ->
  Forall plain_cookie pre -> Forall plain_cookie post ->
  Z.of_nat (length pre + length post) < cookieMaxNum ->
  cookieName b st ∉ pre.*1 ->
  let ck := Binding_Cookie b connectorID st in
  HasPrefix (Cookie_String ck) (ck_Name ck +:+ "=" +:+ ck_Value ck) = true /\
  boundToBrowser b (cookie_header (pre ++ (ck_Name ck, ck_Value ck) :: post)) connectorID st = true.
Proof.
  intros Hb Hpre Hpost Hn Hfresh ck. pose proof (cookieName_token _ _ _ st Hb) as Ht.
  assert (Hck : plain_cookie (ck_Name ck, ck_Value ck)) by (split; [done|apply derive_plain]).
  split.
  - unfold Cookie_String. cbn [ck_Name ck Binding_Cookie cookie ck_Value]. rewrite Ht, derive_sanitized. cbn [negb].
    match goal with |- HasPrefix (?a +:+ ?e +:+ ?v +:+ ?t) _ = true => generalize t; intros tl end.
    rewrite <- (append_assoc _ _ tl), <- (append_assoc _ _ tl). apply HasPrefix_append.
  - unfold boundToBrowser. rewrite Request_Cookie_header.
    + cbn [ck ck_Name Binding_Cookie cookie ck_Value]. rewrite assoc_first_app by done. by apply ConstantTimeCompare_true.
    + by apply Forall_app; split; [|constructor].
    + rewrite length_app. cbn [length]. unfold cookieMaxNum in *. lia.
    + intros E. by rewrite E in Ht.
Qed.

End BindingFacts.

Module BindingExample.

#[export] Instance example_parser : URLParser := { url_Parse _ := None }.

Definition example_key : string := "0123456789abcdef0123456789abcdef".

Definition example_binding : UpstreamBinding :=
  mkBinding example_key true "" "__Host-tempogate_upstream_".

Lemma binding_cookie_roundtrip_witness :
  let ck := Binding_Cookie example_binding "google" "st" in
  HasPrefix (Cookie_String ck) (ck_Name ck +:+ "=" +:+ ck_Value ck) = true /\
  boundToBrowser example_binding (cookie_header ([("a", "1")] ++ (ck_Name ck, ck_Value ck) :: [("b", "2")])) "google" "st"
    = true.
Proof.
  apply (binding_cookie_roundtrip "https://auth.example" example_key "google" "st" example_binding).
  - vm_compute. reflexivity.
  - repeat constructor.
  - repeat constructor.
  - vm_compute. reflexivity.
  - vm_compute. intros [? |Hn]%elem_of_cons; [done|by inversion Hn].
Defined.

End BindingExample.
