(* ===== verification/Client.v ===== *)
(** * The client registry (oidc/client.go)

    Downstream OAuth2 clients: parsing OIDC_CLIENTS and OIDC_CLIENT_SECRETS, the
    redirect-URI rules, exact matching with the loopback exception of RFC 8252,
    and secret verification. [url.Parse] is the argument [url_Parse]; the host
    accessors are computed as in net/url. *)

From S2P Require Import Prelude GoStrings GoErrors GoEncoding GoCrypto GoURL Oidc.

Inductive GrantType := GrantTypeAuthorizationCode | GrantTypeRefreshToken | GrantTypeDeviceCode.

#[export] Instance GrantType_eq_dec : EqDecision GrantType.
Proof. solve_decision. Defined.

Record Client := mkClient {
  RedirectURIs : list string;
  GrantTypes : list GrantType;
  Secret : string
}.

#[export] Instance Client_eq_dec : EqDecision Client.
Proof. solve_decision. Defined.

Definition zeroClient : Client := mkClient [] [] "".

Definition Allows (c : Client) (g : GrantType) : bool := bool_decide (g ∈ GrantTypes c).

Definition ClientRegistry := gmap string Client.

(** ** The host of a URL *)

Definition validOptionalPort (port : string) : bool :=
  match port with
  | "" => true
  | String c s => Ascii.eqb c ":" && all_bytes digit s
  end.

(** [splitHostPort]. *)
Definition strip_brackets (host : string) : string :=
  match host with
  | String c s =>
      if Ascii.eqb c "[" && HasSuffixByte host "]" then String.substring 0 (String.length s - 1) s
      else host
  | "" => ""
  end.

Definition splitHostPort (hostPort : string) : string * string :=
  match CutLast hostPort ":" with
  | Some (host, port) =>
      if validOptionalPort (String ":" port) then (strip_brackets host, port)
      else (strip_brackets hostPort, "")
  | None => (strip_brackets hostPort, "")
  end.

Definition Hostname (u : URL) : string := (splitHostPort (u_Host u)).1.
Definition Port (u : URL) : string := (splitHostPort (u_Host u)).2.
Definition IsAbs (u : URL) : bool := negb (u_Scheme u =? "")%string.

(** ** Redirect URIs *)

Definition isLoopback (u : URL) : bool :=
  if negb (u_Scheme u =? "http")%string then false
  else
    let h := Hostname u in
    (h =? "127.0.0.1")%string || ((h =? "::1")%string && HasPrefix (u_Host u) "[::1]").

Section Redirects.
Context `{URLParser}.

Definition parseRedirectURI (raw : string) : error + URL :=
  match url_Parse raw with
  | None => inl (Opaque "does not parse as a URI")
  | Some u =>
      if negb (IsAbs u) || negb (u_Opaque u =? "")%string then inl (Opaque "is not an absolute URI")
      else if (u_Host u =? "")%string then inl (Opaque "has no host")
      else if HasSuffixByte (u_Host u) ":"
      then inl (Opaque "ends its host with ':'; register the full callback URI, not a prefix")
      else if bool_decide (u_User u <> None) then inl (Opaque "must not contain userinfo")
      else if ContainsByte raw "#" then inl (Opaque "must not contain a fragment")
      else inr u
  end.

Definition checkRegisteredRedirectURI (raw : string) (allowInsecure : bool) : option error :=
  match parseRedirectURI raw with
  | inl e => Some e
  | inr u =>
      if (u_Path u =? "")%string
      then Some (Opaque "has no path; register the full callback URI, not a prefix")
      else if isLoopback u then
        if negb (Port u =? "")%string then Some (Opaque "is a loopback URI with a port")
        else if negb (u_RawQuery u =? "")%string || u_ForceQuery u
        then Some (Opaque "is a loopback URI with a query")
        else None
      else if (u_Scheme u =? "https")%string then None
      else if (u_Scheme u =? "http")%string && allowInsecure then None
      else if (u_Scheme u =? "http")%string then Some (Opaque "must use https")
      else Some (Opaque "has unsupported scheme")
  end.

Definition matchRedirectURI (c : Client) (raw : string) : bool :=
  if (raw =? "")%string then false
  else if bool_decide (raw ∈ RedirectURIs c) then true
  else
    match parseRedirectURI raw with
    | inl _ => false
    | inr req =>
        if negb (isLoopback req) || HasSuffixByte (u_Host req) ":" then false
        else if negb (URL_String req =? raw)%string || negb (u_RawQuery req =? "")%string || u_ForceQuery req
        then false
        else existsb (fun reg =>
               match url_Parse reg with
               | None => false
               | Some u =>
                   isLoopback u &&
                   ((u_Scheme req =? u_Scheme u)%string && (Hostname req =? Hostname u)%string
                    && (u_EscapedPath req =? u_EscapedPath u)%string)
               end) (RedirectURIs c)
    end.

(** ** Parsing the registry *)

Definition invalid_registration (why : string) : error :=
  Errorf why (Sentinel ErrInvalidClientRegistration).

(** One entry of OIDC_CLIENTS. *)
Definition parseClientEntry (allowInsecure : bool) (reg : ClientRegistry) (entry : string) :
    error + ClientRegistry :=
  let entry := TrimSpace entry in
  if (entry =? "")%string then inr reg
  else
    match Cut entry ":" with
    | None => inl (invalid_registration "malformed entry")
    | Some (id, uri) =>
        if (id =? "")%string then inl (invalid_registration "malformed entry")
        else
          let c := default zeroClient (reg !! id) in
          let seen := bool_decide (is_Some (reg !! id)) in
          let deviceOnly := seen && bool_decide (RedirectURIs c = []) in
          if (uri =? "")%string && seen
          then inl (invalid_registration "a device-only entry cannot be combined with other entries")
          else if (uri =? "")%string
          then inr (<[id := mkClient [] [GrantTypeDeviceCode; GrantTypeRefreshToken] ""]> reg)
          else if deviceOnly
          then inl (invalid_registration "a device-only entry cannot be combined with redirect URI entries")
          else if bool_decide (uri ∈ RedirectURIs c)
          then inl (invalid_registration "duplicate redirect URI")
          else match checkRegisteredRedirectURI uri allowInsecure with
               | Some _ => inl (invalid_registration "redirect URI")
               | None =>
                   inr (<[id := mkClient (RedirectURIs c ++ [uri])
                                  [GrantTypeAuthorizationCode; GrantTypeRefreshToken] (Secret c)]> reg)
               end
    end.

Fixpoint parseClientEntries (allowInsecure : bool) (reg : ClientRegistry) (entries : list string) :
    error + ClientRegistry :=
  match entries with
  | [] => inr reg
  | e :: es =>
      match parseClientEntry allowInsecure reg e with
      | inl err => inl err
      | inr reg' => parseClientEntries allowInsecure reg' es
      end
  end.

Definition ParseClientRegistry (raw : string) (allowInsecure : bool) : error + ClientRegistry :=
  parseClientEntries allowInsecure ∅ (Split raw ",").

(** [r.Validate(clientID, redirectURI)]. *)
Definition Validate (r : ClientRegistry) (clientID redirectURI : string) : option error :=
  match r !! clientID with
  | None => Some (Errorf clientID (Sentinel ErrUnknownClient))
  | Some c =>
      if negb (Allows c GrantTypeAuthorizationCode)
      then Some (Errorf clientID (Sentinel ErrUnauthorizedClient))
      else if negb (matchRedirectURI c redirectURI)
      then Some (Errorf redirectURI (Sentinel ErrRedirectURINotAllowed))
      else None
  end.

End Redirects.

(** [r.WithSecrets(raw)] updates the registry in place: an error leaves the
    entries before it applied. *)
Fixpoint withSecretEntries (r : ClientRegistry) (seen : gset string) (entries : list string) :
    ClientRegistry * option error :=
  match entries with
  | [] => (r, None)
  | entry :: es =>
      let entry := TrimSpace entry in
      if (entry =? "")%string then withSecretEntries r seen es
      else
        match Cut entry ":" with
        | None => (r, Some (Opaque "oidc: malformed client secret entry (want id:secret)"))
        | Some (id, secret) =>
            if (id =? "")%string || (secret =? "")%string
            then (r, Some (Opaque "oidc: malformed client secret entry (want id:secret)"))
            else if bool_decide (id ∈ seen) then (r, Some (Opaque "oidc: duplicate client secret"))
            else match r !! id with
                 | None => (r, Some (Errorf id (Sentinel ErrUnknownClientSecret)))
                 | Some c =>
                     withSecretEntries (<[id := mkClient (RedirectURIs c) (GrantTypes c) secret]> r)
                       ({[id]} ∪ seen) es
                 end
        end
  end.

Definition WithSecrets (r : ClientRegistry) (raw : string) : ClientRegistry * option error :=
  withSecretEntries r ∅ (Split raw ",").

Definition Lookup (r : ClientRegistry) (clientID : string) : option Client := r !! clientID.

Definition IsConfidential (r : ClientRegistry) (clientID : string) : bool :=
  match r !! clientID with None => false | Some c => negb (Secret c =? "")%string end.

Definition Authenticate (r : ClientRegistry) (clientID presented : string) : bool :=
  match r !! clientID with
  | None => false
  | Some c =>
      if (Secret c =? "")%string || (presented =? "")%string then false
      else ConstantTimeCompare (sha256_Sum256 (Secret c)) (sha256_Sum256 presented)
  end.

(** ** The registry as /token needs it *)

Record TokenClients := mkTokenClients {
  tc_Lookup : string -> option Client;
  tc_Authenticate : string -> string -> bool
}.

Definition registry_clients (r : ClientRegistry) : TokenClients :=
  mkTokenClients (Lookup r) (Authenticate r).

(** What /token relies on: authentication only succeeds for a registered
    confidential client, with a secret of the same digest. *)
Class ClientsSpec (tc : TokenClients) := {
  authenticate_spec id secret : tc_Authenticate tc id secret = true ->
    exists c, tc_Lookup tc id = Some c /\ Secret c <> "" /\ secret <> "" /\
              sha256_Sum256 secret = sha256_Sum256 (Secret c)
}.

#[export] Instance registry_clients_spec r : ClientsSpec (registry_clients r).
Proof.
  constructor. intros id secret. unfold registry_clients, Authenticate. cbn. unfold Lookup.
  destruct (r !! id) as [c|]; [|done].
  destruct (Secret c =? "")%string eqn:E1; [done|]. destruct (secret =? "")%string eqn:E2; [done|].
  cbn. intros Hc%ConstantTimeCompare_true. apply String.eqb_neq in E1, E2. eauto.
Qed.

(** ** Facts *)

Section ClientFacts.
Context `{URLParser}.

(** The shape every parsed registration has. *)
Definition wf_client (allowInsecure : bool) (c : Client) : Prop :=
  Secret c = "" /\ NoDup (RedirectURIs c) /\
  Forall (fun uri => checkRegisteredRedirectURI uri allowInsecure = None) (RedirectURIs c) /\
  ((RedirectURIs c = [] /\ GrantTypes c = [GrantTypeDeviceCode; GrantTypeRefreshToken]) \/
   (RedirectURIs c <> [] /\ GrantTypes c = [GrantTypeAuthorizationCode; GrantTypeRefreshToken])).

Definition wf_registry (allowInsecure : bool) (r : ClientRegistry) : Prop :=
  map_Forall (fun id c => id <> "" /\ ContainsByte id ":" = false /\ wf_client allowInsecure c) r.

Lemma parseClientEntry_wf ai reg e reg' :
  wf_registry ai reg -> parseClientEntry ai reg e = inr reg' -> wf_registry ai reg'.
Proof.
  intros Hwf. unfold parseClientEntry. set (entry := TrimSpace e).
  destruct (entry =? "")%string; [by intros [= <-]|].
  destruct (Cut entry ":") as [[id uri]|] eqn:Hcut; [|done].
  destruct (id =? "")%string eqn:Hid; [done|]. apply String.eqb_neq in Hid.
  apply Cut_Some in Hcut as [_ Hcolon].
  set (c := default zeroClient (reg !! id)).
  destruct (uri =? "")%string eqn:Huri; cbn [andb].
  { case_bool_decide; [done|]. intros [= <-]. apply map_Forall_insert_2; [|done].
    split; [done|]. split; [done|]. repeat split; [constructor|constructor|]. by left. }
  destruct (bool_decide _ && bool_decide _); [done|].
  case_bool_decide as Hdup; [done|].
  destruct (checkRegisteredRedirectURI uri ai) eqn:Hchk; [done|]. intros [= <-].
  assert (Secret c = "" /\ NoDup (RedirectURIs c) /\
          Forall (fun u => checkRegisteredRedirectURI u ai = None) (RedirectURIs c)) as (Hs & Hnd & Hall).
  { unfold c. destruct (reg !! id) as [c0|] eqn:E; cbn.
    - destruct (Hwf _ _ E) as (_ & _ & ? & ? & ? & _). done.
    - repeat split; constructor. }
  apply map_Forall_insert_2; [|done]. split; [done|]. split; [done|].
  split; [done|]. cbn. split.
  { apply NoDup_app. repeat split; [done| |apply NoDup_singleton].
    intros x Hx ->%list_elem_of_singleton. by apply Hdup. }
  split; [by apply Forall_app; split; [|constructor]|]. right. split; [by destruct (RedirectURIs c)|done].
Qed.

Lemma parseClientEntries_wf ai es reg reg' :
  wf_registry ai reg -> parseClientEntries ai reg es = inr reg' -> wf_registry ai reg'.
Proof.
  revert reg. induction es as [|e es IH]; intros reg Hwf; [by intros [= <-]|]. cbn.
  destruct (parseClientEntry ai reg e) as [err|reg1] eqn:E; [done|].
  apply IH. by eapply parseClientEntry_wf.
Qed.

(** C40. A configuration that parses registers only well-formed clients: every
    id is non-empty and free of colons, every client is public, its redirect
    URIs are distinct and each passes the registration check, and it is either
    device-only or an authorization-code client, never both. *)
Theorem ParseClientRegistry_wf (raw : string) (allowInsecure : bool) (reg : ClientRegistry) :
  ParseClientRegistry raw allowInsecure = inr reg -> wf_registry allowInsecure reg.
Proof. apply parseClientEntries_wf. apply map_Forall_empty. Qed.

(** Redirect URIs match exactly, but for the port of a loopback URI: a
    validated request either names a registered URI byte for byte, or is an
    http loopback URI (127.0.0.1 or [::1]) without user info, query or
    fragment, which re-serializes to itself and agrees with a registered
    loopback URI on scheme, host and path. *)
Theorem Validate_redirect (r : ClientRegistry) (clientID uri : string) :
  Validate r clientID uri = None ->
  exists c, r !! clientID = Some c /\ GrantTypeAuthorizationCode ∈ GrantTypes c /\
    (uri ∈ RedirectURIs c \/
     exists req reg u,
       url_Parse uri = Some req /\ u_Scheme req = "http" /\
       (Hostname req = "127.0.0.1" \/ Hostname req = "::1") /\
       u_User req = None /\ u_RawQuery req = "" /\ u_ForceQuery req = false /\
       ContainsByte uri "#" = false /\ URL_String req = uri /\
       reg ∈ RedirectURIs c /\ url_Parse reg = Some u /\
       u_Scheme u = "http" /\ Hostname u = Hostname req /\ u_EscapedPath u = u_EscapedPath req).
Proof.
  unfold Validate. destruct (r !! clientID) as [c|] eqn:Hc; [|done].
  destruct (Allows c _) eqn:Ha; cbn [negb]; [|done]. unfold Allows in Ha. apply bool_decide_eq_true in Ha.
  destruct (matchRedirectURI c uri) eqn:Hm; cbn [negb]; [|done]. intros _.
  exists c. split; [done|]. split; [done|]. unfold matchRedirectURI in Hm.
  destruct (uri =? "")%string; [done|]. case_bool_decide; [by left|]. right.
  unfold parseRedirectURI in Hm. destruct (url_Parse uri) as [req|] eqn:Hp; [|done].
  destruct (negb (IsAbs req) || _); [done|]. destruct (u_Host req =? "")%string; [done|].
  destruct (HasSuffixByte (u_Host req) ":") eqn:Hsuf; [done|].
  case_bool_decide as Hu; [done|]. destruct (ContainsByte uri "#") eqn:Hfrag; [done|].
  destruct (isLoopback req) eqn:Hl; cbn [negb orb] in Hm; [|done].
  rewrite Hsuf in Hm. destruct (URL_String req =? uri)%string eqn:Hstr; cbn [negb orb] in Hm; [|done].
  destruct (u_RawQuery req =? "")%string eqn:Hq; cbn [negb orb] in Hm; [|done].
  destruct (u_ForceQuery req) eqn:Hfq; [done|].
  apply existsb_exists in Hm as (reg & Hreg & Hm). destruct (url_Parse reg) as [u|] eqn:Hpr; [|done].
  apply andb_true_iff in Hm as [Hlu Hm].
  apply andb_true_iff in Hm as [[Hsch Hh]%andb_true_iff Hpath]. solve_bool.
  unfold isLoopback in Hl. destruct (u_Scheme req =? "http")%string eqn:Hs; cbn in Hl; [|done].
  apply String.eqb_eq in Hs.
  exists req, reg, u. repeat split; try done; [|by apply list_elem_of_In|congruence].
  apply orb_true_iff in Hl as [Hl|[Hl _]%andb_true_iff]; apply String.eqb_eq in Hl; auto.
Qed.

End ClientFacts.

(** ** The theorems at concrete inputs *)

Module ClientExample.

Definition loopback_url (port path : string) : URL :=
  mkURL "http" "" None ("127.0.0.1" +:+ port) ("127.0.0.1" +:+ port) path path false "" false "".

(** A parser that knows the URIs of the examples. *)
#[export] Instance example_parser : URLParser := {
  url_Parse raw :=
    if (raw =? "http://127.0.0.1/callback")%string then Some (loopback_url "" "/callback")
    else if (raw =? "http://127.0.0.1:4711/callback")%string then Some (loopback_url ":4711" "/callback")
    else if (raw =? "https://ui.example/cb")%string
    then Some (mkURL "https" "" None "ui.example" "ui.example" "/cb" "/cb" false "" false "")
    else None
}.

Definition example_registry : ClientRegistry :=
  match ParseClientRegistry "cli:http://127.0.0.1/callback, ui:https://ui.example/cb,dev:" false with
  | inr r => r
  | inl _ => ∅
  end.

Lemma ParseClientRegistry_wf_witness : wf_registry false example_registry.
Proof.
  apply (ParseClientRegistry_wf "cli:http://127.0.0.1/callback, ui:https://ui.example/cb,dev:").
  vm_compute. reflexivity.
Defined.

Lemma Validate_redirect_witness :
  exists c, example_registry !! "cli" = Some c /\ GrantTypeAuthorizationCode ∈ GrantTypes c /\
    ("http://127.0.0.1:4711/callback" ∈ RedirectURIs c \/
     exists req reg u,
       url_Parse "http://127.0.0.1:4711/callback" = Some req /\ u_Scheme req = "http" /\
       (Hostname req = "127.0.0.1" \/ Hostname req = "::1") /\
       u_User req = None /\ u_RawQuery req = "" /\ u_ForceQuery req = false /\
       ContainsByte "http://127.0.0.1:4711/callback" "#" = false /\
       URL_String req = "http://127.0.0.1:4711/callback" /\
       reg ∈ RedirectURIs c /\ url_Parse reg = Some u /\
       u_Scheme u = "http" /\ Hostname u = Hostname req /\ u_EscapedPath u = u_EscapedPath req).
Proof. apply (Validate_redirect example_registry "cli"). vm_compute. reflexivity. Defined.

End ClientExample.
