(* ===== verification/Cli.v ===== *)
(** * The command line client: transport and token file (cli/transport.go,
      cli/tokenfile.go, cli/loopback.go: postTokenForm)

    The machine the client runs on is a state ([Sys]): a clock that every
    operation moves, the files, the lock file's holder and the requests sent.
    What the operating system, the network and the user's interrupt do is a
    parameter, by the number of the operation; a process may also die between
    any two of them. The theorems are in CliFacts.v. *)

From S2P Require Import Prelude GoStrings GoErrors GoURL GoNetip Client.

(** ** The machine *)

Record CliToken := mkCliToken { ct_AccessToken : string; ct_RefreshToken : string; ct_ExpiresAt : time; ct_ClientID : string }.

Record tokenResponse := mkTokenResponse { tr_AccessToken : string; tr_RefreshToken : string; tr_TokenType : string; tr_ExpiresIn : Z }.
Record oauthErrorBody := mkOauthErrorBody { oe_Err : string; oe_Desc : string }.
Record deviceAuthResponse := mkDeviceAuthResponse {
  da_DeviceCode : string; da_UserCode : string; da_VerificationURI : string; da_VerificationURIComplete : string;
  da_ExpiresIn : Z; da_Interval : Z
}.

(** What a server answers to one request: nothing, a redirect to an address the
    HTTP library has resolved, or a response whose body may not be readable. *)
Inductive answer :=
  | NetError (e : error)
  | Redirected (status : Z) (target : URL)
  | Responded (status : Z) (body : error + string).

(** The environment of operation [n]. A failing write leaves [torn n data] in
    the file; [roundtrip n method url body] is the network's answer. *)
Class Host := {
  elapse : nat -> duration;
  elapse_nonneg n : 0 <= elapse n;
  dies : nat -> bool;
  ctx_Err : nat -> option error;
  os_fails : nat -> option error;
  temp_name : nat -> string -> string;
  torn : nat -> string -> string;
  draw : nat -> nat -> option string;
  roundtrip : nat -> string -> URL -> string -> answer
}.

(** [encoding/json] on the bodies and on the token file, which it reads back. *)
Class CliJSON := {
  unmarshal_token : string -> error + tokenResponse;
  unmarshal_oauth_error : string -> option oauthErrorBody;
  unmarshal_device : string -> error + deviceAuthResponse;
  unmarshal_claims : string -> option (string * option (string + list string));
  marshal_file : CliToken -> error + string;
  unmarshal_file : string -> error + CliToken;
  file_roundtrip t data : marshal_file t = inr data -> unmarshal_file data = inr t
}.

(** [strings.EqualFold]: equality of the simple case foldings, which beyond
    ASCII are Unicode's. *)
Class CaseFold := { unicode_fold : string -> string }.
Definition fold_case `{CaseFold} (s : string) : string := if is_ascii s then ascii_lower s else unicode_fold s.
Definition strings_EqualFold `{CaseFold} (s t : string) : bool := (fold_case s =? fold_case t)%string.

(** Where a line is printed. *)
Inductive stream := Stdout | Stderr.

Record sent := mkSent { s_method : string; s_url : URL; s_body : string }.

Record Sys := mkSys {
  y_clock : time;
  y_op : nat;
  (** files by path: permission bits and content. *)
  y_files : gmap string (Z * string);
  y_dirs : gmap string Z;
  (** the process that holds the lock file. *)
  y_lock : option nat;
  y_sent : list sent;
  y_slept : list duration;
  y_out : list (stream * string)
}.

Definition set_clock (t : time) (s : Sys) : Sys := mkSys t (y_op s) (y_files s) (y_dirs s) (y_lock s) (y_sent s) (y_slept s) (y_out s).
Definition set_files m (s : Sys) : Sys := mkSys (y_clock s) (y_op s) m (y_dirs s) (y_lock s) (y_sent s) (y_slept s) (y_out s).
Definition set_dirs m (s : Sys) : Sys := mkSys (y_clock s) (y_op s) (y_files s) m (y_lock s) (y_sent s) (y_slept s) (y_out s).
Definition set_lock l (s : Sys) : Sys := mkSys (y_clock s) (y_op s) (y_files s) (y_dirs s) l (y_sent s) (y_slept s) (y_out s).
Definition add_sent r (s : Sys) : Sys := mkSys (y_clock s) (y_op s) (y_files s) (y_dirs s) (y_lock s) (y_sent s ++ [r]) (y_slept s) (y_out s).
Definition add_slept d (s : Sys) : Sys := mkSys (y_clock s) (y_op s) (y_files s) (y_dirs s) (y_lock s) (y_sent s) (y_slept s ++ [d]) (y_out s).
Definition add_out x (s : Sys) : Sys := mkSys (y_clock s) (y_op s) (y_files s) (y_dirs s) (y_lock s) (y_sent s) (y_slept s) (y_out s ++ [x]).

(** ** Programs *)

Inductive res (A : Type) := Ret (x : A) | Err (e : error) | Died.
Arguments Ret {A}.
Arguments Err {A}.
Arguments Died {A}.

Definition C (A : Type) : Type := Sys -> Sys * res A.

#[export] Instance C_ret : MRet C := fun A x s => (s, Ret x).
#[export] Instance C_bind : MBind C := fun A B f m s =>
  match m s with
  | (s, Ret x) => f x s
  | (s, Err e) => (s, Err e)
  | (s, Died) => (s, Died)
  end.

Definition fail {A} (e : error) : C A := fun s => (s, Err e).
Definition of_result {A} (wrap : error -> error) (r : error + A) : C A := match r with inr x => mret x | inl e => fail (wrap e) end.

(** The error of [m] as a value; a death is not caught. *)
Definition caught {A} (m : C A) : C (error + A) := fun s =>
  match m s with
  | (s, Ret x) => (s, Ret (inr x))
  | (s, Err e) => (s, Ret (inl e))
  | (s, Died) => (s, Died)
  end.

(** [if err != nil { return fmt.Errorf(msg+": %w", err) }]. *)
Definition wrapping {A} (msg : string) (m : C A) : C A := fun s =>
  match m s with
  | (s, Err e) => (s, Err (Errorf msg e))
  | r => r
  end.

Section Ops.
Context `{Host}.

(** One operation: time passes, and the process may be gone. *)
Definition ticked (s : Sys) : Sys :=
  mkSys (y_clock s + elapse (y_op s)) (S (y_op s)) (y_files s) (y_dirs s) (y_lock s) (y_sent s) (y_slept s) (y_out s).

Definition op {A} (f : nat -> Sys -> Sys * res A) : C A := fun s =>
  if dies (y_op s) then (ticked s, Died) else f (y_op s) (ticked s).

Definition time_Now : C time := op (fun _ s => (s, Ret (y_clock s))).
Definition ctx_err : C (option error) := op (fun n s => (s, Ret (ctx_Err n))).
Definition rand_bytes (n : nat) : C string := op (fun i s => (s, match draw i n with Some b => Ret b | None => Err (Opaque "rand") end)).
Definition Fprint (w : stream) (x : string) : C unit := op (fun _ s => (add_out (w, x) s, Ret tt)).

(** [defaultSleep(ctx, d)]. *)
Definition defaultSleep (d : duration) : C unit := op (fun n s =>
  match ctx_Err n with
  | Some e => (s, Err e)
  | None => if d <=? 0 then (s, Ret tt) else (add_slept d (set_clock (y_clock s + d) s), Ret tt)
  end).

(** A file operation that the system may refuse. *)
Definition os_op {A} (f : nat -> Sys -> Sys * res A) : C A := op (fun n s =>
  match os_fails n with Some e => (s, Err e) | None => f n s end).

Definition send (method : string) (u : URL) (body : string) : C answer :=
  op (fun n s => (add_sent (mkSent method u body) s, Ret (roundtrip n method u body))).

End Ops.

(** ** The issuer rule (transport.go) *)

(** [net.ParseIP(host)] and [ip.IsLoopback()]: no zones; 127.0.0.0/8, also
    mapped into IPv6, or ::1. *)
Definition ParseIP (s : string) : option Addr :=
  match ParseAddr s with
  | Some (IP6 a z) => if (z =? "")%string then Some (IP6 a z) else None
  | r => r
  end.

Definition IsLoopback (ip : Addr) : bool :=
  match Unmap ip with
  | IP4 a => Z.shiftr a 24 =? 127
  | IP6 a _ => a =? 1
  end.

Definition maxRedirects : nat := 10.

Section Transport.
Context `{Unicode} `{CaseFold} `{URLParser}.

Definition isLoopbackHost (host : string) : bool :=
  if EqualFold host "localhost" then true
  else match ParseIP host with Some ip => IsLoopback ip | None => false end.

Definition checkIssuer (issuer : string) (insecure : bool) : option error :=
  match url_Parse issuer with
  | None => Some (Errorf "cli: invalid issuer" (Opaque "url"))
  | Some u =>
      if (u_Host u =? "")%string then Some (Opaque "cli: invalid issuer: want an absolute https:// URL")
      else
        let scheme := ToLower (u_Scheme u) in
        if (scheme =? "https")%string then None
        else if (scheme =? "http")%string then
          if insecure || isLoopbackHost (Hostname u) then None else Some (Errorf issuer (Sentinel ErrInsecureIssuer))
        else Some (Opaque "cli: invalid issuer: scheme must be https")
  end.

(** [guardRedirects(client, insecure).CheckRedirect(req, via)] for a client
    without a check of its own; [via] requests were sent, the first to [from]. *)
Definition CheckRedirect (insecure : bool) (from target : URL) (via : nat) : option error :=
  if negb (strings_EqualFold (Hostname target) (Hostname from)) then Some (Errorf "changes host" (Sentinel ErrUnsafeRedirect))
  else match checkIssuer (URL_String target) insecure with
       | Some _ => Some (Errorf "redirect target" (Sentinel ErrUnsafeRedirect))
       | None => if (maxRedirects <=? via)%nat then Some (Opaque "cli: stopped after 10 redirects") else None
       end.

Context `{Host}.

(** [client.Do(req)]: the library follows a redirect the check admits; a 307 or
    308 repeats the request, any other asks again with GET and no body. *)
Fixpoint follow (fuel : nat) (insecure : bool) (from : URL) (via : nat) (method : string) (u : URL) (body : string) :
    C (Z * (error + string)) :=
  match fuel with
  | O => fail (Opaque "fuel")
  | S fuel =>
      a ← send method u body;
      match a with
      | NetError e => fail e
      | Responded st b => mret (st, b)
      | Redirected st target =>
          match CheckRedirect insecure from target (S via) with
          | Some e => fail e
          | None =>
              if (st =? 307) || (st =? 308) then follow fuel insecure from (S via) method target body
              else follow fuel insecure from (S via) "GET" target ""
          end
      end
  end.

Definition client_Do (insecure : bool) (u : URL) (body : string) : C (Z * (error + string)) :=
  follow (S maxRedirects) insecure u 0 "POST" u body.

(** [http.NewRequestWithContext(ctx, POST, url, form)] and [client.Do]. *)
Definition post (insecure : bool) (rawURL build request : string) (form : Values) : C (Z * (error + string)) :=
  match url_Parse rawURL with
  | None => fail (Errorf build (Opaque "url"))
  | Some u => wrapping request (client_Do insecure u (Encode form))
  end.

Definition TokenPath : string := "/token".

Context `{CliJSON}.

(** [postTokenForm(ctx, client, issuer, form)]. *)
Definition postTokenForm (insecure : bool) (issuer : string) (form : Values) : C tokenResponse :=
  r ← post insecure (issuer +:+ TokenPath) "cli: build token request" "cli: token request" form;
  let '(status, body) := r in
  match body with
  | inl e => fail (Errorf "cli: read token response" e)
  | inr body =>
      if negb (status =? 200) then
        match unmarshal_oauth_error body with
        | Some oe =>
            if negb (oe_Err oe =? "")%string
            then fail (Opaque ("cli: token exchange rejected (" +:+ oe_Err oe +:+ "): " +:+ oe_Desc oe))
            else fail (Opaque "cli: token exchange failed")
        | None => fail (Opaque "cli: token exchange failed")
        end
      else
        match unmarshal_token body with
        | inl e => fail (Errorf "cli: decode token response" e)
        | inr tr => if (tr_AccessToken tr =? "")%string then fail (Opaque "cli: token response contained no access_token") else mret tr
        end
  end.

(** [f.now().Add(time.Duration(tr.ExpiresIn) * time.Second)], the product wrapping. *)
Definition expiry (now_ : time) (expiresIn : Z) : time := time_Add now_ (wrap64 (expiresIn * Second)).

(** ** The token file (tokenfile.go) *)

Definition tokenDirPerm : Z := 448.
Definition tokenFilePerm : Z := 384.
Definition tokenFileName : string := "token.json".
Definition tokenDirName : string := ".tempogate".

(** [filepath.Clean(path)] and [filepath.Dir(path)] on Unix: the elements
    without empty ones and dots, each ".." taking its parent along. *)
Definition clean_step (rooted : bool) (out : list string) (elem : string) : list string :=
  if (elem =? "")%string || (elem =? ".")%string then out
  else if (elem =? "..")%string then
    match out with
    | last :: out' => if (last =? "..")%string then elem :: out else out'
    | [] => if rooted then [] else [elem]
    end
  else elem :: out.

Definition filepath_Clean (path : string) : string :=
  let rooted := HasPrefix path "/" in
  let elems := rev (foldl (clean_step rooted) [] (Split path "/")) in
  let s := (if rooted then "/" else "") +:+ String.concat "/" elems in
  if (s =? "")%string then "." else s.

Definition filepath_Dir (path : string) : string :=
  match CutLast path "/" with
  | Some (dir, _) => filepath_Clean (dir +:+ "/")
  | None => "."
  end.

(** [filepath.Join(elem...)]. *)
Definition filepath_Join (elems : list string) : string :=
  match List.filter (fun e => negb (e =? "")%string) elems with
  | [] => ""
  | es => filepath_Clean (String.concat "/" es)
  end.

(** [os.MkdirAll(dir, perm)]: parents that are missing are made alike. *)
Definition MkdirAll (dir : string) (perm : Z) : C unit := os_op (fun _ s =>
  (match y_dirs s !! dir with Some _ => s | None => set_dirs (<[dir := perm]> (y_dirs s)) s end, Ret tt)).

Definition CreateTemp (dir pattern : string) : C string := os_op (fun n s =>
  let name := temp_name n (dir +:+ "/" +:+ pattern) in (set_files (<[name := (tokenFilePerm, "")]> (y_files s)) s, Ret name)).

Definition Chmod (name : string) (perm : Z) : C unit := os_op (fun _ s =>
  (set_files (alter (fun f => (perm, f.2)) name (y_files s)) s, Ret tt)).

(** A write that fails may have written part of the data. *)
Definition Write (name data : string) : C unit := op (fun n s =>
  match os_fails n with
  | Some e => (set_files (alter (fun f => (f.1, torn n data)) name (y_files s)) s, Err e)
  | None => (set_files (alter (fun f => (f.1, data)) name (y_files s)) s, Ret tt)
  end).

Definition Close : C unit := os_op (fun _ s => (s, Ret tt)).

Definition Rename (from to : string) : C unit := os_op (fun _ s =>
  (match y_files s !! from with
   | Some f => set_files (<[to := f]> (delete from (y_files s))) s
   | None => s
   end, Ret tt)).

Definition Remove (name : string) : C unit := os_op (fun _ s => (set_files (delete name (y_files s)) s, Ret tt)).

Definition Save (path : string) (tok : CliToken) : C unit :=
  let dir := filepath_Dir path in
  wrapping "cli: create token dir" (MkdirAll dir tokenDirPerm) ≫= fun _ =>
  data ← of_result (Errorf "cli: encode token") (marshal_file tok);
  tmpName ← wrapping "cli: create temp token file" (CreateTemp dir (tokenFileName +:+ ".*"));
  r ← caught (
    wrapping "cli: chmod temp token file" (Chmod tmpName tokenFilePerm) ≫= fun _ =>
    wrapping "cli: write temp token file" (Write tmpName data) ≫= fun _ =>
    wrapping "cli: close temp token file" Close ≫= fun _ =>
    wrapping "cli: replace token file" (Rename tmpName path));
  caught (Remove tmpName) ≫= fun _ =>
  of_result id r.

(** [os.ReadFile(path)]: no file is [os.ErrNotExist]. *)
Definition Load (path : string) : C CliToken :=
  data ← wrapping "cli: read token file" (os_op (fun _ s => (s, Ret (y_files s !! path))));
  match data with
  | None => fail (Sentinel ErrNoToken)
  | Some (_, data) => of_result (Errorf ("cli: decode token file " +:+ path)) (unmarshal_file data)
  end.

End Transport.
