(* ===== verification/CliFacts.v ===== *)
(** * The command line client: theorems on its transport and its token file

    Requests, redirects included, stay on the issuer's host and on a transport
    the issuer rule admits; saving a token is atomic and private, and loading
    reads back what was saved. *)

From S2P Require Import Prelude GoStrings GoErrors GoURL GoNetip Client Cli.

(** ** What programs keep *)

Section Keeps.
Context (R : Sys -> Sys -> Prop) `{!PreOrder R}.

Definition ckeeps {A} (m : C A) : Prop := forall s s' r, m s = (s', r) -> R s s'.

Lemma ckeeps_ret {A} (x : A) : ckeeps (mret x).
Proof. by intros s s' r [= <- <-]. Qed.

Lemma ckeeps_fail {A} e : ckeeps (fail (A := A) e).
Proof. by intros s s' r [= <- <-]. Qed.

Lemma ckeeps_bind {A B} (m : C A) (f : A -> C B) : ckeeps m -> (forall x, ckeeps (f x)) -> ckeeps (m ≫= f).
Proof.
  intros Hm Hf s s' r. unfold mbind, C_bind. destruct (m s) as [s1 r1] eqn:E. pose proof (Hm _ _ _ E).
  destruct r1; [|by intros [= <- <-]..]. intros Hr. etrans; [done|]. by eapply Hf.
Qed.

Lemma ckeeps_ret_bind {A B} (x : A) (f : A -> C B) : ckeeps (f x) -> ckeeps (mret x ≫= f).
Proof. done. Qed.

Lemma ckeeps_wrapping {A} msg (m : C A) : ckeeps m -> ckeeps (wrapping msg m).
Proof. intros Hm s s' r. unfold wrapping. destruct (m s) as [s1 r1] eqn:E. apply Hm in E. destruct r1; by intros [= <- <-]. Qed.

Lemma ckeeps_caught {A} (m : C A) : ckeeps m -> ckeeps (caught m).
Proof. intros Hm s s' r. unfold caught. destruct (m s) as [s1 r1] eqn:E. apply Hm in E. destruct r1; by intros [= <- <-]. Qed.

Lemma ckeeps_of_result {A} w (r : error + A) : ckeeps (of_result w r).
Proof. destruct r; [apply ckeeps_fail|apply ckeeps_ret]. Qed.

End Keeps.

Create HintDb cli.
#[export] Hint Resolve ckeeps_ret ckeeps_fail ckeeps_bind ckeeps_wrapping ckeeps_caught ckeeps_of_result : cli.

(** Runs a program of the client's monad through its binds in a hypothesis. *)
Lemma cbind_inv {A B} (m : C A) (f : A -> C B) s s' r :
  (m ≫= f) s = (s', r) ->
  (exists s1 x, m s = (s1, Ret x) /\ f x s1 = (s', r)) \/ (exists e, m s = (s', Err e) /\ r = Err e) \/ (m s = (s', Died) /\ r = Died).
Proof.
  unfold mbind, C_bind. destruct (m s) as [s1 [x|e|]] eqn:E; intros Hr.
  - left. eauto.
  - right. left. simplify_eq. eauto.
  - right. right. by simplify_eq.
Qed.

Lemma cbind_Ret {A B} (m : C A) (f : A -> C B) s s' y :
  (m ≫= f) s = (s', Ret y) -> exists s1 x, m s = (s1, Ret x) /\ f x s1 = (s', Ret y).
Proof. intros [?|[(e & _ & [=])|[_ [=]]]]%cbind_inv. done. Qed.

Lemma wrapping_Ret {A} msg (m : C A) s s' x : wrapping msg m s = (s', Ret x) -> m s = (s', Ret x).
Proof. unfold wrapping. destruct (m s) as [s1 [y|e|]]; by intros [= <- <-]. Qed.

(** ** The issuer rule *)

Section Transport.
Context `{Unicode} `{CaseFold} `{URLParser} `{Host} `{CliJSON}.

(** A transport the client may use to [host]: https, or http to this machine,
    or anything with --insecure. *)
Definition safe_transport (insecure : bool) (u : URL) : Prop :=
  ToLower (u_Scheme u) = "https" \/
  (ToLower (u_Scheme u) = "http" /\ (insecure = true \/ isLoopbackHost (Hostname u) = true)).

Lemma checkIssuer_safe issuer insecure :
  checkIssuer issuer insecure = None <-> exists u, url_Parse issuer = Some u /\ u_Host u <> "" /\ safe_transport insecure u.
Proof.
  unfold checkIssuer, safe_transport. destruct (url_Parse issuer) as [u|]; [|naive_solver].
  destruct (String.eqb_spec (u_Host u) ""); [naive_solver|].
  destruct (String.eqb_spec (ToLower (u_Scheme u)) "https") as [Hs|Hs].
  { split; [|done]. intros _. exists u. auto. }
  destruct (String.eqb_spec (ToLower (u_Scheme u)) "http") as [Hs'|Hs'].
  - destruct (insecure || isLoopbackHost (Hostname u)) eqn:E.
    + apply orb_true_iff in E. split; [|done]. intros _. exists u. auto.
    + apply orb_false_iff in E as [-> E]. split; [done|]. intros (u' & [= <-] & _ & [?|[_ [?|?]]]); congruence.
  - split; [done|]. intros (u' & [= <-] & _ & [?|[? _]]); congruence.
Qed.

(** Where a request of this client may go, given the address it was meant for. *)
Definition admitted_target (insecure : bool) (from u : URL) : Prop :=
  u = from \/ (fold_case (Hostname u) = fold_case (Hostname from) /\
               exists u', url_Parse (URL_String u) = Some u' /\ u_Host u' <> "" /\ safe_transport insecure u').

Definition sends_to (ok : URL -> Prop) (s s' : Sys) : Prop :=
  exists l, y_sent s' = y_sent s ++ l /\ forall r, r ∈ l -> ok (s_url r).

#[local] Instance sends_to_po ok : PreOrder (sends_to ok).
Proof.
  split.
  - intros s. exists []. rewrite app_nil_r. split; [done|]. by intros r ?%elem_of_nil.
  - intros s1 s2 s3 (l1 & E1 & H1') (l2 & E2 & H2'). exists (l1 ++ l2). rewrite E2, E1, app_assoc. split; [done|].
    intros r [?|?]%elem_of_app; auto.
Qed.

Lemma sends_op {A} ok (f : nat -> Sys -> Sys * res A) :
  (forall n, ckeeps (sends_to ok) (f n)) -> ckeeps (sends_to ok) (op f).
Proof.
  intros Hf s s' r. unfold op. destruct (dies _); [intros [= <- <-]; exists []; cbn; rewrite app_nil_r; split; [done|by intros ? ?%elem_of_nil]|].
  intros Hr. apply Hf in Hr. exact Hr.
Qed.

Lemma sends_send ok method u body : ok u -> ckeeps (sends_to ok) (send method u body).
Proof.
  intros Hu. apply sends_op. intros n s s' r [= <- <-]. exists [mkSent method u body]. split; [done|].
  by intros r ->%list_elem_of_singleton.
Qed.

Lemma follow_sends fuel insecure from via method u body :
  admitted_target insecure from u -> ckeeps (sends_to (admitted_target insecure from)) (follow fuel insecure from via method u body).
Proof.
  revert via method u body. induction fuel as [|fuel IH]; intros via method u body Hu; cbn [follow]; [auto with cli typeclass_instances|].
  apply ckeeps_bind; [apply _|by apply sends_send|]. intros [e|st target|st b]; [apply ckeeps_fail, _| |apply ckeeps_ret, _].
  destruct (CheckRedirect insecure from target (S via)) eqn:Hc; [apply ckeeps_fail, _|].
  assert (admitted_target insecure from target).
  { right. unfold CheckRedirect, strings_EqualFold in Hc. destruct (String.eqb_spec (fold_case (Hostname target)) (fold_case (Hostname from))); [|done].
    split; [done|]. cbn [negb] in Hc. destruct (checkIssuer (URL_String target) insecure) eqn:Hi; [done|]. by apply checkIssuer_safe. }
  destruct (_ || _); by apply IH.
Qed.

(** Eleven rounds are enough: the check refuses a tenth redirect. *)
Lemma follow_enough fuel k insecure from via method u body s :
  (maxRedirects < fuel + via)%nat ->
  follow (fuel + k) insecure from via method u body s = follow fuel insecure from via method u body s \/ (maxRedirects < via)%nat.
Proof.
  revert via method u body s. induction fuel as [|fuel IH]; intros via method u body s Hf; [right; lia|]. left.
  cbn [follow Nat.add]. unfold mbind, C_bind. destruct (send method u body s) as [s1 [[e|st target|st b]|e|]]; try done.
  destruct (CheckRedirect insecure from target (S via)) eqn:Hc; [done|].
  assert (S via < maxRedirects)%nat as Hv.
  { unfold CheckRedirect in Hc. destruct (negb _); [done|]. destruct (checkIssuer _ _); [done|].
    destruct (maxRedirects <=? S via)%nat eqn:E; [done|]. by apply Nat.leb_gt in E. }
  destruct (_ || _); (destruct (IH (S via) method target body s1) as [->|]; [lia| |lia]) ||
    (destruct (IH (S via) "GET" target "" s1) as [->|]; [lia| |lia]); done.
Qed.

(** The address of an endpoint keeps the issuer's scheme and host: what follows
    the authority of a URL does not change it. *)
Class EndpointURLs := {
  endpoint_host issuer path u u' :
    url_Parse issuer = Some u -> u_Host u <> "" -> url_Parse (TrimRightByte issuer "/" +:+ String "/" path) = Some u' ->
    u_Scheme u' = u_Scheme u /\ u_Host u' = u_Host u
}.

Lemma safe_transport_ext insecure u u' :
  u_Scheme u' = u_Scheme u -> u_Host u' = u_Host u -> safe_transport insecure u -> safe_transport insecure u'.
Proof. unfold safe_transport, Hostname. intros -> ->. done. Qed.

(** Where the client's requests end up, relative to the issuer it was given. *)
Definition confined (insecure : bool) (issuer : URL) (u : URL) : Prop :=
  fold_case (Hostname u) = fold_case (Hostname issuer) /\
  (safe_transport insecure u \/ exists u', url_Parse (URL_String u) = Some u' /\ u_Host u' <> "" /\ safe_transport insecure u').

Context `{EndpointURLs}.

(** Where the requests of a client given [issuer] may go. *)
Definition issuer_bound (insecure : bool) (issuer : string) (u : URL) : Prop :=
  exists iu, url_Parse issuer = Some iu /\ safe_transport insecure iu /\ confined insecure iu u.

Lemma endpoint_sends insecure issuer path u body :
  checkIssuer issuer insecure = None -> url_Parse (TrimRightByte issuer "/" +:+ String "/" path) = Some u ->
  ckeeps (sends_to (issuer_bound insecure issuer)) (client_Do insecure u body).
Proof.
  intros (iu & Hp & Hh & Hs)%checkIssuer_safe Hu. destruct (endpoint_host _ _ _ _ Hp Hh Hu) as [Es Eh].
  intros s s' r Hr. destruct (follow_sends _ _ _ _ _ _ _ ltac:(by left) _ _ _ Hr) as (l & El & Hl). exists l. split; [done|].
  intros x Hx. exists iu. split_and!; [done|done|].
  apply Hl in Hx as [->|(Hf & Hx)]; unfold confined, Hostname in *; rewrite ?Eh in *; [|by split; [|right]].
  split; [done|]. left. by apply (safe_transport_ext _ iu).
Qed.

Lemma post_sends insecure issuer path b q form :
  checkIssuer issuer insecure = None ->
  ckeeps (sends_to (issuer_bound insecure issuer)) (post insecure (TrimRightByte issuer "/" +:+ String "/" path) b q form).
Proof.
  intros Hc. unfold post. destruct (url_Parse (TrimRightByte _ _ +:+ _)) as [u|] eqn:Hu; [|apply ckeeps_fail, _].
  apply ckeeps_wrapping. by eapply endpoint_sends.
Qed.

Lemma postTokenForm_sends insecure issuer form :
  checkIssuer issuer insecure = None ->
  ckeeps (sends_to (issuer_bound insecure issuer)) (postTokenForm insecure (TrimRightByte issuer "/") form).
Proof.
  intros Hc. unfold postTokenForm. apply ckeeps_bind; [apply _|by apply (post_sends _ _ "token")|].
  intros [st [e|body]]; [apply ckeeps_fail, _|]. repeat case_match; auto with cli typeclass_instances.
Qed.

(** An operation that is not a request sends nothing. *)
Lemma sends_quiet_op {A} ok (f : nat -> Sys -> Sys * res A) :
  (forall n s s' r, f n s = (s', r) -> y_sent s' = y_sent s) -> ckeeps (sends_to ok) (op f).
Proof.
  intros Hf. apply sends_op. intros n s s' r Hr%Hf. exists []. rewrite app_nil_r. split; [done|]. by intros x ?%elem_of_nil.
Qed.

Lemma sends_os_op {A} ok (f : nat -> Sys -> Sys * res A) :
  (forall n s s' r, f n s = (s', r) -> y_sent s' = y_sent s) -> ckeeps (sends_to ok) (os_op f).
Proof.
  intros Hf. apply sends_quiet_op. intros n s s' r. destruct (os_fails n); [by intros [= <- <-]|]. apply Hf.
Qed.

Lemma TrimRightByte_idem s c : TrimRightByte (TrimRightByte s c) c = TrimRightByte s c.
Proof.
  induction s as [|d s IH]; [done|]. cbn. destruct (TrimRightByte s c) as [|e t] eqn:E.
  - destruct (Ascii.eqb d c) eqn:Ed; [done|]. cbn. by rewrite Ed.
  - cbn in *. by rewrite IH.
Qed.

(** ** The token file *)

Definition path_kept (path : string) (s s' : Sys) : Prop := y_files s' !! path = y_files s !! path.

#[local] Instance path_kept_po path : PreOrder (path_kept path).
Proof. split; [done|]. unfold path_kept. intros s1 s2 s3 E1 E2. congruence. Qed.

(** One operation, by what the process and the system do at it. *)
Lemma op_cases {A} (f : nat -> Sys -> Sys * res A) s s' r :
  op f s = (s', r) ->
  exists s1, y_files s1 = y_files s /\ y_lock s1 = y_lock s /\ y_op s1 = S (y_op s) /\ y_sent s1 = y_sent s /\
    y_clock s <= y_clock s1 /\ y_slept s1 = y_slept s /\ ((r = Died /\ s' = s1) \/ f (y_op s) s1 = (s', r)).
Proof.
  intros Hr. exists (ticked s). split_and!; [done..| |done|].
  - cbn. pose proof (elapse_nonneg (y_op s)). lia.
  - unfold op in Hr. destruct (dies (y_op s)); [left; by injection Hr|by right].
Qed.

Lemma os_op_cases {A} (f : nat -> Sys -> Sys * res A) s s' r :
  os_op f s = (s', r) ->
  exists s1, y_files s1 = y_files s /\ y_lock s1 = y_lock s /\ y_op s1 = S (y_op s) /\ y_sent s1 = y_sent s /\
    ((s' = s1 /\ (r = Died \/ exists e, r = Err e)) \/ f (y_op s) s1 = (s', r)).
Proof.
  intros (s1 & Hf & Hl & Ho & Hs & _ & _ & [[-> ->]|Hr])%op_cases; exists s1; split_and!; try done; [by left; auto|].
  destruct (os_fails _); [|by right]. left. simplify_eq. eauto.
Qed.

Lemma path_os_op {A} path (f : nat -> Sys -> Sys * res A) :
  (forall n, ckeeps (path_kept path) (f n)) -> ckeeps (path_kept path) (os_op f).
Proof.
  intros Hf s s' r (s1 & Ef & _ & _ & _ & [[-> _]|Hr])%os_op_cases; unfold path_kept; [by rewrite Ef|].
  apply Hf in Hr. unfold path_kept in Hr. by rewrite Hr, Ef.
Qed.

Section SaveFacts.
Context (path : string) (tok : CliToken) (Htemp : forall n p, temp_name n p <> path).

Lemma MkdirAll_kept dir perm : ckeeps (path_kept path) (MkdirAll dir perm).
Proof. apply path_os_op. intros n s s' r [= <- <-]. unfold path_kept. by destruct (y_dirs s !! dir). Qed.

Lemma CreateTemp_run dir pat s s' r :
  CreateTemp dir pat s = (s', r) ->
  path_kept path s s' /\ (forall name, r = Ret name -> name <> path /\ y_files s' !! name = Some (tokenFilePerm, "")).
Proof.
  intros (s1 & Ef & _ & _ & _ & [[-> Hr]|Hr])%os_op_cases; unfold path_kept.
  - split; [by rewrite Ef|]. intros name ->. destruct Hr as [?|[? ?]]; done.
  - injection Hr as <- <-. cbn. split; [by rewrite lookup_insert_ne, Ef|]. intros name [= <-]. by rewrite lookup_insert_eq.
Qed.

Lemma Remove_kept name : name <> path -> ckeeps (path_kept path) (Remove name).
Proof. intros Hn. apply path_os_op. intros n s s' r [= <- <-]. unfold path_kept. cbn. by rewrite lookup_delete_ne. Qed.

Lemma Chmod_run name s s' r :
  name <> path -> y_files s !! name = Some (tokenFilePerm, "") -> Chmod name tokenFilePerm s = (s', r) ->
  path_kept path s s' /\ y_files s' !! name = Some (tokenFilePerm, "").
Proof.
  intros Hn Hf (s1 & Ef & _ & _ & _ & [[-> Hr]|Hr])%os_op_cases; unfold path_kept; [by rewrite Ef|].
  injection Hr as <- <-. cbn. by rewrite lookup_alter_ne, lookup_alter_eq, Ef, Hf.
Qed.

Lemma Write_run name data s s' r :
  name <> path -> y_files s !! name = Some (tokenFilePerm, "") -> Write name data s = (s', r) ->
  path_kept path s s' /\ (r = Ret tt -> y_files s' !! name = Some (tokenFilePerm, data)).
Proof.
  intros Hn Hf (s1 & Ef & _ & _ & _ & _ & _ & [[-> ->]|Hr])%op_cases; unfold path_kept; [by rewrite Ef|].
  destruct (os_fails _); injection Hr as <- <-; cbn; rewrite lookup_alter_ne, ?lookup_alter_eq, Ef by done; [done|]. by rewrite Hf.
Qed.

Lemma Close_run s s' r : Close s = (s', r) -> y_files s' = y_files s.
Proof. intros (s1 & Ef & _ & _ & _ & [[-> Hr]|Hr])%os_op_cases; [done|]. by injection Hr as <- <-. Qed.

Lemma Rename_run name data s s' r :
  name <> path -> y_files s !! name = Some (tokenFilePerm, data) -> Rename name path s = (s', r) ->
  match r with Ret _ => y_files s' !! path = Some (tokenFilePerm, data) | _ => path_kept path s s' end.
Proof.
  intros Hn Hf (s1 & Ef & _ & _ & _ & [[-> Hr]|Hr])%os_op_cases; unfold path_kept.
  - destruct Hr as [->|[e ->]]; by rewrite Ef.
  - injection Hr as <- <-. rewrite Ef, Hf. cbn. by rewrite lookup_insert_eq.
Qed.

Lemma wrapping_inv {A} msg (m : C A) s s' r :
  wrapping msg m s = (s', r) -> exists r', m s = (s', r') /\ match r' with Ret x => r = Ret x | Err e => r = Err (Errorf msg e) | Died => r = Died end.
Proof. unfold wrapping. destruct (m s) as [s1 [x|e|]]; intros [= <- <-]; eexists; (split; [reflexivity|done]). Qed.

Lemma caught_inv {A} (m : C A) s s' r :
  caught m s = (s', r) -> exists r', m s = (s', r') /\ match r' with Ret x => r = Ret (inr x) | Err e => r = Ret (inl e) | Died => r = Died end.
Proof. unfold caught. destruct (m s) as [s1 [x|e|]]; intros [= <- <-]; eexists; (split; [reflexivity|done]). Qed.

(** The body of [Save] after the temporary file exists. *)
Lemma replace_run name data s s' r :
  name <> path -> y_files s !! name = Some (tokenFilePerm, "") ->
  (wrapping "cli: chmod temp token file" (Chmod name tokenFilePerm) ≫= fun _ =>
   wrapping "cli: write temp token file" (Write name data) ≫= fun _ =>
   wrapping "cli: close temp token file" Close ≫= fun _ =>
   wrapping "cli: replace token file" (Rename name path)) s = (s', r) ->
  match r with Ret _ => y_files s' !! path = Some (tokenFilePerm, data) | _ => path_kept path s s' end.
Proof.
  intros Hn Hf Hr. apply cbind_inv in Hr as [(s1 & [] & K & Hr)|Hr].
  2: { destruct Hr as [(e & K & ->)|[K ->]]; apply wrapping_inv in K as (r' & K & _); by apply Chmod_run in K as [? _]. }
  apply wrapping_inv in K as (r1 & K & _). destruct (Chmod_run _ _ _ _ Hn Hf K) as [Hp1 Hf1].
  apply cbind_inv in Hr as [(s2 & [] & K2 & Hr)|Hr].
  2: { destruct Hr as [(e & K2 & ->)|[K2 ->]]; apply wrapping_inv in K2 as (r' & K2 & _); apply Write_run in K2 as [? _]; try done; by etrans. }
  apply wrapping_Ret in K2. destruct (Write_run _ _ _ _ _ Hn Hf1 K2) as [Hp2 Hf2]. specialize (Hf2 eq_refl).
  apply cbind_inv in Hr as [(s3 & [] & K3 & Hr)|Hr].
  2: { destruct Hr as [(e & K3 & ->)|[K3 ->]]; apply wrapping_inv in K3 as (r' & K3 & _); apply Close_run in K3; unfold path_kept in *; congruence. }
  apply wrapping_inv in K3 as (r3 & K3 & _). apply Close_run in K3.
  apply wrapping_inv in Hr as (r4 & K4 & Hr4). rewrite <- K3 in Hf2. pose proof (Rename_run _ _ _ _ _ Hn Hf2 K4) as Hren.
  destruct r4; subst r; [done|unfold path_kept in *; congruence..].
Qed.

Lemma Save_run s s' r :
  Save path tok s = (s', r) ->
  (path_kept path s s' /\ r <> Ret tt) \/
  (exists data, marshal_file tok = inr data /\ y_files s' !! path = Some (tokenFilePerm, data) /\ (r = Ret tt \/ r = Died)).
Proof.
  unfold Save. intros Hr. apply cbind_inv in Hr as [(s1 & [] & K & Hr)|Hr].
  2: { left. destruct Hr as [(e & K & ->)|[K ->]]; (split; [|done]); by eapply (ckeeps_wrapping _ _ _ (MkdirAll_kept _ _)). }
  assert (path_kept path s s1) as Hp1 by (by eapply (ckeeps_wrapping _ _ _ (MkdirAll_kept _ _))).
  destruct (marshal_file tok) as [e|data] eqn:Hm; [left; injection Hr as <- <-; done|].
  apply cbind_inv in Hr as [(s2 & d & [= <- <-] & Hr)|[(e & [=] & _)|[[=] _]]].
  apply cbind_inv in Hr as [(s2 & name & K2 & Hr)|Hr].
  2: { left. destruct Hr as [(e & K2 & ->)|[K2 ->]]; apply wrapping_inv in K2 as (r' & K2 & _); apply CreateTemp_run in K2 as [? _]; (split; [by etrans|done]). }
  apply wrapping_Ret in K2. apply CreateTemp_run in K2 as [Hp2 Hn]. destruct (Hn _ eq_refl) as [Hne Hf2].
  apply cbind_inv in Hr as [(s3 & rr & K3 & Hr)|Hr].
  2: { left. destruct Hr as [(e & K3 & ->)|[K3 ->]]; apply caught_inv in K3 as (r3 & K3 & Hr3); pose proof (replace_run _ _ _ _ _ Hne Hf2 K3) as Hrep;
         destruct r3; simplify_eq. split; [unfold path_kept in *; congruence|done]. }
  apply caught_inv in K3 as (r3 & E & K3). pose proof (replace_run _ _ _ _ _ Hne Hf2 E) as Hrep. clear E.
  assert (path_kept path s3 s') as Hp4.
  { apply cbind_inv in Hr as [(s4 & u & K4 & Hr)|Hr].
    - apply (ckeeps_caught _ _ (Remove_kept _ Hne)) in K4. by destruct rr; injection Hr as <- <-.
    - destruct Hr as [(e & K4 & ->)|[K4 ->]]; by apply (ckeeps_caught _ _ (Remove_kept _ Hne)) in K4. }
  destruct r3 as [[]|e|]; simplify_eq.
  - right. exists data. split; [done|]. split; [unfold path_kept in *; congruence|].
    apply cbind_inv in Hr as [(s4 & u & K4 & Hr)|[(e & K4 & ->)|[K4 ->]]]; [injection Hr as <- <-; by left| |by right].
    apply caught_inv in K4 as ([| |] & _ & K4); done.
  - left. split; [unfold path_kept in *; congruence|]. apply cbind_inv in Hr as [(s4 & u & K4 & Hr)|[(e' & _ & ->)|[_ ->]]]; [|done|done].
    by injection Hr as <- <-.
Qed.

(** What the token file decodes to. *)
Definition stored (s : Sys) : option (error + CliToken) := option_map (fun f => unmarshal_file f.2) (y_files s !! path).

Lemma save_cases s s' r :
  Save path tok s = (s', r) ->
  (stored s' = stored s /\ r <> Ret tt) \/
  (stored s' = Some (inr tok) /\ option_map fst (y_files s' !! path) = Some tokenFilePerm /\ (r = Ret tt \/ r = Died)).
Proof.
  intros [[Hp Hr]|(data & Hm & Hf & Hr)]%Save_run; [left|right]; unfold stored.
  - unfold path_kept in Hp. by rewrite Hp.
  - rewrite Hf. cbn. by rewrite (file_roundtrip _ _ Hm).
Qed.

(** Saving a token is atomic and private: whatever call fails and wherever
    the process dies, the token file reads as it did before or as the new
    token, never as anything in between; success means the new token, readable
    by its owner only, and an error means the old file. *)
Theorem save_atomic s s' r :
  Save path tok s = (s', r) ->
  (stored s' = stored s /\ r <> Ret tt) \/
  (stored s' = Some (inr tok) /\ option_map fst (y_files s' !! path) = Some tokenFilePerm /\ (r = Ret tt \/ r = Died)).
Proof. apply save_cases. Qed.

End SaveFacts.

End Transport.
