(* ===== verification/CliRefresh.v ===== *)
(** * Refreshing the token (cli/refresh.go, cli/lock.go)

    [EnsureFresh] as the phases another process can observe between: the fast
    read, waiting for the lock, the read under the lock, the exchange and the
    write. One process runs the phases to the end ([EnsureFresh]); several
    interleave them over one machine ([cstep]), with deaths and logins, which
    take no lock, at any point. *)

From S2P Require Import Prelude GoStrings GoErrors GoEncoding GoURL GoNetip Client Cli CliFacts.

Definition refreshSkew : duration := 5 * Minute.
Definition defaultRefreshLockTimeout : duration := 30 * Second.
Definition lockPollInterval : duration := 25000 * Microsecond.

(** [EnsureFresh(ctx, path, issuer, opts...)]: its arguments. *)
Record refreshConfig := mkRefreshConfig {
  rf_path : string; rf_issuer : string; rf_skew : duration; rf_insecure : bool; rf_lockTimeout : duration
}.

Inductive phase :=
  | Start
  | Waiting (deadline : time)
  | Holding
  | Posting (tok : CliToken) (clientID : string)
  | Saving (old : string) (tok : CliToken)
  | Finished (r : res CliToken).

Section Refresh.
Context `{Unicode} `{CaseFold} `{URLParser} `{Host} `{CliJSON}.

(** [issuedTo(jwt)]. *)
Definition issuedTo (jwt : string) : string :=
  match Split jwt "." with
  | [_; payload; _] =>
      match RawURL_Decode payload with
      | None => ""
      | Some payload =>
          match unmarshal_claims payload with
          | None => ""
          | Some (clientID, aud) =>
              if negb (clientID =? "")%string then clientID
              else match aud with
                   | Some (inl one) => one
                   | Some (inr [one]) => one
                   | _ => ""
                   end
          end
      end
  | _ => ""
  end.

Definition fresh_enough (cfg : refreshConfig) (now_ : time) (tok : CliToken) : bool :=
  time_Before now_ (time_Add (ct_ExpiresAt tok) (- rf_skew cfg)).

(** [tryLock(f)] for process [pid]'s own open of the lock file. *)
Definition tryLock (pid : nat) : C bool := os_op (fun _ s =>
  match y_lock s with
  | None => (set_lock (Some pid) s, Ret true)
  | Some _ => (s, Ret false)
  end).

Definition open_lock_file (lockPath : string) : C unit := os_op (fun _ s =>
  (match y_files s !! lockPath with
   | Some _ => s
   | None => set_files (<[lockPath := (tokenFilePerm, "")]> (y_files s)) s
   end, Ret tt)).

(** [select { case <-ctx.Done(): ...; case <-time.After(lockPollInterval): }]. *)
Definition wait_for_lock : C unit := op (fun n s =>
  match ctx_Err n with
  | Some e => (s, Err (Errorf "cli: waiting for token refresh lock" e))
  | None => (add_slept lockPollInterval (set_clock (y_clock s + lockPollInterval) s), Ret tt)
  end).

(** One round of [lockTokenFile]'s loop. *)
Definition lock_round (cfg : refreshConfig) (pid : nat) (deadline : time) : C phase :=
  ok ← wrapping ("cli: lock " +:+ rf_path cfg +:+ ".lock") (tryLock pid);
  if (ok : bool) then mret Holding
  else
    now_ ← time_Now;
    if negb (time_Before now_ deadline) then fail (Errorf (rf_path cfg +:+ ".lock") (Sentinel ErrRefreshLockTimeout))
    else wait_for_lock ≫= fun _ => mret (Waiting deadline).

Definition refresh_form (refreshToken clientID : string) : Values :=
  Set_ (Set_ (Set_ [] "grant_type" "refresh_token") "refresh_token" refreshToken) "client_id" clientID.

Definition refreshed (tok : CliToken) (clientID : string) (tr : tokenResponse) (now_ : time) : CliToken :=
  mkCliToken (tr_AccessToken tr) (if (tr_RefreshToken tr =? "")%string then ct_RefreshToken tok else tr_RefreshToken tr)
    (expiry now_ (tr_ExpiresIn tr)) clientID.

(** What each phase does. *)
Definition phase_body (cfg : refreshConfig) (pid : nat) (ph : phase) : C phase :=
  match ph with
  | Start =>
      match checkIssuer (rf_issuer cfg) (rf_insecure cfg) with
      | Some e => fail e
      | None =>
          tok ← Load (rf_path cfg);
          now_ ← time_Now;
          if fresh_enough cfg now_ tok then mret (Finished (Ret tok))
          else
            wrapping "cli: open token lock file" (open_lock_file (rf_path cfg +:+ ".lock")) ≫= fun _ =>
            now_ ← time_Now;
            mret (Waiting (time_Add now_ (rf_lockTimeout cfg)))
      end
  | Waiting deadline => lock_round cfg pid deadline
  | Holding =>
      tok ← Load (rf_path cfg);
      now_ ← time_Now;
      if fresh_enough cfg now_ tok then mret (Finished (Ret tok))
      else if (ct_RefreshToken tok =? "")%string
      then fail (Opaque "cli: token is expiring and has no refresh token; run `tempogate login`")
      else
        let clientID := if (ct_ClientID tok =? "")%string then issuedTo (ct_AccessToken tok) else ct_ClientID tok in
        if (clientID =? "")%string
        then fail (Opaque "cli: token file does not record its client_id; run `tempogate login`")
        else mret (Posting tok clientID)
  | Posting tok clientID =>
      tr ← wrapping "cli: refresh failed"
             (postTokenForm (rf_insecure cfg) (TrimRightByte (rf_issuer cfg) "/") (refresh_form (ct_RefreshToken tok) clientID));
      now_ ← time_Now;
      mret (Saving (ct_RefreshToken tok) (refreshed tok clientID tr now_))
  | Saving _ tok =>
      Save (rf_path cfg) tok ≫= fun _ => mret (Finished (Ret tok))
  | Finished r => mret (Finished r)
  end.

(** Closing the descriptor, or the kernel when the process is gone, releases
    the lock. *)
Definition release (pid : nat) (s : Sys) : Sys :=
  if bool_decide (y_lock s = Some pid) then set_lock None s else s.

Definition refresh_step (cfg : refreshConfig) (pid : nat) (ph : phase) (s : Sys) : Sys * phase :=
  match phase_body cfg pid ph s with
  | (s, Ret (Finished r)) => (release pid s, Finished r)
  | (s, Ret ph) => (s, ph)
  | (s, Err e) => (release pid s, Finished (Err e))
  | (s, Died) => (release pid s, Finished Died)
  end.

(** [EnsureFresh], run by one process. *)
Fixpoint run_phases (fuel : nat) (cfg : refreshConfig) (pid : nat) (ph : phase) (s : Sys) : Sys * option (res CliToken) :=
  match ph with
  | Finished r => (s, Some r)
  | _ =>
      match fuel with
      | O => (s, None)
      | S fuel => let (s, ph) := refresh_step cfg pid ph s in run_phases fuel cfg pid ph s
      end
  end.

Definition EnsureFresh (fuel : nat) (cfg : refreshConfig) (pid : nat) (s : Sys) : Sys * option (res CliToken) :=
  run_phases fuel cfg pid Start s.

(** ** Several processes *)

(** What is on record of a refresh token: presented to the issuer; then replaced
    in the file, or stored again where the answer named no new one, or the
    process that presented it failed or was killed before it had done either. *)
Inductive happening := Posted (refreshToken : string) | Saved (refreshToken : string) | Unchanged (refreshToken : string) | Lost (refreshToken : string).

Record Machine := mkMachine { m_procs : gmap nat phase; m_sys : Sys; m_log : list happening }.

Definition logged (ph ph' : phase) : list happening :=
  match ph, ph' with
  | Posting tok _, Finished _ => [Posted (ct_RefreshToken tok); Lost (ct_RefreshToken tok)]
  | Posting tok _, _ => [Posted (ct_RefreshToken tok)]
  | Saving old tok, Finished (Ret _) => if (ct_RefreshToken tok =? old)%string then [Unchanged old] else [Saved old]
  | Saving old _, Finished _ => [Lost old]
  | _, _ => []
  end.

Definition write_token (path : string) (data : string) (s : Sys) : Sys :=
  set_files (<[path := (tokenFilePerm, data)]> (y_files s)) s.

(** Where a refresh token comes from: the exchange at an operation, or a login. *)
Context (issued_at : string -> option nat).

Inductive cstep (cfg : refreshConfig) : Machine -> Machine -> Prop :=
  | c_spawn ps s l pid : ps !! pid = None -> cstep cfg (mkMachine ps s l) (mkMachine (<[pid := Start]> ps) s l)
  | c_run ps s l pid ph s' ph' :
      ps !! pid = Some ph -> refresh_step cfg pid ph s = (s', ph') ->
      cstep cfg (mkMachine ps s l) (mkMachine (<[pid := ph']> ps) s' (l ++ logged ph ph'))
  | c_kill ps s l pid ph :
      ps !! pid = Some ph ->
      cstep cfg (mkMachine ps s l) (mkMachine (<[pid := Finished Died]> ps) (release pid s) (l ++ match ph with Saving old _ => [Lost old] | _ => [] end))
  | c_login ps s l tok data :
      issued_at (ct_RefreshToken tok) = None -> Saved (ct_RefreshToken tok) ∉ l -> Posted (ct_RefreshToken tok) ∉ l ->
      marshal_file tok = inr data ->
      cstep cfg (mkMachine ps s l) (mkMachine ps (write_token (rf_path cfg) data s) l).

End Refresh.
