(* ===== verification/CliRefreshFacts.v ===== *)
(** * Refreshing the token: theorems

    Processes that refresh the same file never present a refresh token again
    once its replacement is written, whoever dies where; a run alone ends, and
    only ever replaces the file by a token the issuer handed out. *)

From S2P Require Import Prelude GoStrings GoErrors GoEncoding GoURL GoNetip Client Cli CliFacts CliRefresh.

Section Facts.
Context `{Unicode} `{CaseFold} `{URLParser} `{Host} `{CliJSON}.
Context (cfg : refreshConfig) (Htemp : forall n p, temp_name n p <> rf_path cfg) (Hlockfile : rf_path cfg +:+ ".lock" <> rf_path cfg).
Implicit Types (s : Sys) (ph : phase) (m : Machine).

Abbreviation token_in := (stored (rf_path cfg)).

(** ** What the phases keep *)

(** Time goes on and the lock is left alone. *)
Definition ongoing s s' : Prop := (y_op s <= y_op s')%nat /\ y_lock s' = y_lock s.

#[local] Instance ongoing_po : PreOrder ongoing.
Proof. split; [by intros s|]. intros s1 s2 s3 (E1 & E2) (F1 & F2). unfold ongoing. split; [lia|congruence]. Qed.

(** The file is left alone too. *)
Definition quiet s s' : Prop :=
  (y_op s <= y_op s')%nat /\ y_lock s' = y_lock s /\ path_kept (rf_path cfg) s s'.

#[local] Instance quiet_po : PreOrder quiet.
Proof.
  split; [by intros s|]. intros s1 s2 s3 (E1 & E2 & E3) (F1 & F2 & F3). unfold quiet, path_kept in *. split_and!; [lia|congruence..].
Qed.

Lemma quiet_op {A} (f : nat -> Sys -> Sys * res A) :
  (forall n, ckeeps quiet (f n)) -> ckeeps quiet (op f).
Proof.
  intros Hf s s' r (s1 & Ef & El & Eo & _ & _ & _ & [[-> ->]|Hr])%op_cases.
  - unfold quiet, path_kept. rewrite Ef, El, Eo. auto.
  - apply Hf in Hr as (? & ? & ?). unfold quiet, path_kept in *. split_and!; [lia|congruence..].
Qed.

Lemma quiet_os_op {A} (f : nat -> Sys -> Sys * res A) : (forall n, ckeeps quiet (f n)) -> ckeeps quiet (os_op f).
Proof. intros Hf. apply quiet_op. intros n. destruct (os_fails n); [by intros s s' r [= <- <-]|apply Hf]. Qed.

Lemma quiet_time_Now : ckeeps quiet time_Now.
Proof. apply quiet_op. by intros n s s' r [= <- <-]. Qed.

Lemma quiet_Load : ckeeps quiet (Load (rf_path cfg)).
Proof.
  apply ckeeps_bind; [apply _|apply ckeeps_wrapping, quiet_os_op; by intros n s s' r [= <- <-]|].
  intros [[? d]|]; [apply ckeeps_of_result, _|apply ckeeps_fail, _].
Qed.

Lemma quiet_open_lock : ckeeps quiet (open_lock_file (rf_path cfg +:+ ".lock")).
Proof.
  apply quiet_os_op. intros n s s' r [= <- <-]. unfold quiet, path_kept.
  destruct (y_files s !! (rf_path cfg +:+ ".lock")); cbn; [done|]. by rewrite lookup_insert_ne.
Qed.

Lemma quiet_wait : ckeeps quiet wait_for_lock.
Proof. apply quiet_op. intros n s s' r. by destruct (ctx_Err n); intros [= <- <-]. Qed.

Lemma quiet_follow fuel insecure from via method u body : ckeeps quiet (follow fuel insecure from via method u body).
Proof.
  revert via method u body. induction fuel as [|fuel IH]; intros via method u body; cbn [follow]; [apply ckeeps_fail, _|].
  apply ckeeps_bind; [apply _|apply quiet_op; by intros n s s' r [= <- <-]|].
  intros [e|st target|st b]; [apply ckeeps_fail, _| |apply ckeeps_ret, _].
  destruct (CheckRedirect _ _ _ _); [apply ckeeps_fail, _|]. destruct (_ || _); apply IH.
Qed.

Lemma quiet_postTokenForm insecure issuer form : ckeeps quiet (postTokenForm insecure issuer form).
Proof.
  unfold postTokenForm, post. apply ckeeps_bind; [apply _| |].
  - destruct (url_Parse _); [apply ckeeps_wrapping, quiet_follow|apply ckeeps_fail, _].
  - intros [st [e|body]]; [apply ckeeps_fail, _|]. repeat case_match; auto with cli typeclass_instances.
Qed.

#[local] Hint Resolve quiet_time_Now quiet_Load quiet_open_lock quiet_wait quiet_postTokenForm : cli.

Lemma Load_stored s s' tok : Load (rf_path cfg) s = (s', Ret tok) -> token_in s = Some (inr tok).
Proof.
  intros (s1 & f & K & Hr)%cbind_Ret. apply wrapping_Ret in K.
  apply os_op_cases in K as (s2 & Ef & _ & _ & _ & [[_ [?|[? ?]]]|K]); [done..|]. injection K as <- <-. unfold stored. rewrite <- Ef.
  destruct (y_files s2 !! rf_path cfg) as [[md d]|]; [|done]. cbn in *. destruct (unmarshal_file d); cbn in Hr; unfold fail, mret, C_ret in Hr; by simplify_eq.
Qed.

(** ** One step *)

Definition critical ph : bool := match ph with Holding | Posting _ _ | Saving _ _ => true | _ => false end.

Lemma body_quiet pid ph s s' r :
  phase_body cfg pid ph s = (s', r) -> (match ph with Waiting _ | Saving _ _ => False | _ => True end) -> quiet s s'.
Proof.
  intros Hb Hph. revert s s' r Hb. change (ckeeps quiet (phase_body cfg pid ph)).
  destruct ph; try done; cbn [phase_body].
  - destruct (checkIssuer _ _); [apply ckeeps_fail, _|]. apply ckeeps_bind; [apply _|apply quiet_Load|]. intros tok.
    apply ckeeps_bind; [apply _|apply quiet_time_Now|]. intros n. destruct (fresh_enough _ _ _); [apply ckeeps_ret, _|].
    apply ckeeps_bind; [apply _|apply ckeeps_wrapping, quiet_open_lock|]. intros _. apply ckeeps_bind; [apply _|apply quiet_time_Now|].
    intros n'. apply ckeeps_ret, _.
  - apply ckeeps_bind; [apply _|apply quiet_Load|]. intros tok. apply ckeeps_bind; [apply _|apply quiet_time_Now|]. intros n.
    cbv zeta. repeat case_match; auto with cli typeclass_instances.
  - apply ckeeps_bind; [apply _|apply ckeeps_wrapping, quiet_postTokenForm|]. intros tr.
    apply ckeeps_bind; [apply _|apply quiet_time_Now|]. intros n. apply ckeeps_ret, _.
  - apply ckeeps_ret, _.
Qed.

Lemma Save_ongoing tok : ckeeps ongoing (Save (rf_path cfg) tok).
Proof.
  assert (forall A (f : nat -> Sys -> Sys * res A), (forall n, ckeeps ongoing (f n)) -> ckeeps ongoing (op f)) as Hop.
  { intros A f Hf s s' r (s1 & _ & El & Eo & _ & _ & _ & [[-> ->]|Hr])%op_cases; [unfold ongoing; rewrite El, Eo; auto|].
    apply Hf in Hr as [? ?]. unfold ongoing. split; [lia|congruence]. }
  assert (forall A (f : nat -> Sys -> Sys * res A), (forall n, ckeeps ongoing (f n)) -> ckeeps ongoing (os_op f)) as Hos.
  { intros A f Hf. apply Hop. intros n. destruct (os_fails n); [by intros s s' r [= <- <-]|apply Hf]. }
  unfold Save. apply ckeeps_bind; [apply _| |intros _].
  { apply ckeeps_wrapping, Hos. intros n s s' r [= <- <-]. by destruct (y_dirs s !! filepath_Dir (rf_path cfg)). }
  apply ckeeps_bind; [apply _|apply ckeeps_of_result, _|]. intros data.
  apply ckeeps_bind; [apply _|apply ckeeps_wrapping, Hos; by intros n s s' r [= <- <-]|]. intros name.
  apply ckeeps_bind; [apply _|apply ckeeps_caught|intros rr].
  - apply ckeeps_bind; [apply _|apply ckeeps_wrapping, Hos; by intros n s s' r [= <- <-]|intros _].
    apply ckeeps_bind; [apply _|apply ckeeps_wrapping, Hop; intros n s s' r; by destruct (os_fails n); intros [= <- <-]|intros _].
    apply ckeeps_bind; [apply _|apply ckeeps_wrapping, Hos; by intros n s s' r [= <- <-]|intros _].
    apply ckeeps_wrapping, Hos. intros n s s' r [= <- <-]. by destruct (y_files s !! name).
  - apply ckeeps_bind; [apply _|apply ckeeps_caught, Hos; by intros n s s' r [= <- <-]|intros _]. apply ckeeps_of_result, _.
Qed.

Lemma lock_round_run pid d s s' r :
  lock_round cfg pid d s = (s', r) ->
  (y_op s <= y_op s')%nat /\ path_kept (rf_path cfg) s s' /\
  ((y_lock s' = y_lock s /\ r <> Ret Holding) \/ (y_lock s = None /\ y_lock s' = Some pid)) /\
  forall ph', r = Ret ph' -> ph' = Holding \/ ph' = Waiting d.
Proof.
  unfold lock_round. intros Hr. apply cbind_inv in Hr as [(s1 & ok & K & Hr)|Hr].
  - apply wrapping_Ret in K. unfold tryLock in K. apply os_op_cases in K as (s2 & Ef & El & Eo & _ & [[_ [?|[? ?]]]|K]); [done..|].
    destruct (y_lock s2) as [holder|] eqn:E2; injection K as <- <-.
    + assert (ckeeps quiet (now_ ← time_Now; if negb (time_Before now_ d) then fail (Errorf (rf_path cfg +:+ ".lock") (Sentinel ErrRefreshLockTimeout))
        else wait_for_lock ≫= fun _ => mret (Waiting d))) as Hq.
      { apply ckeeps_bind; [apply _|apply quiet_time_Now|]. intros n. destruct (negb _); [apply ckeeps_fail, _|].
        apply ckeeps_bind; [apply _|apply quiet_wait|]. intros _. apply ckeeps_ret, _. }
      destruct (Hq _ _ _ Hr) as (Ho & Hl & Hp). unfold path_kept in *. rewrite Eo in Ho.
      assert (forall ph', r = Ret ph' -> ph' = Waiting d) as Hw.
      { intros ph' ->. apply cbind_Ret in Hr as (s3 & n & _ & Hr). destruct (negb _); [done|]. apply cbind_Ret in Hr as (s4 & ? & _ & Hr).
        by injection Hr as <- <-. }
      split_and!; [lia|congruence| |intros ph' Hph; right; by apply Hw]. left. split; [congruence|]. intros Hx. by apply Hw in Hx.
    + injection Hr as <- <-. cbn. split_and!; [lia|unfold path_kept; cbn; by rewrite Ef|right; split; [congruence|done]|]. intros ph' [= <-]. by left.
  - assert (s' = s' /\ forall ph', r <> Ret ph') as [_ Hno] by (destruct Hr as [(e & _ & ->)|[_ ->]]; done).
    assert (exists r', tryLock pid s = (s', r') /\ r' <> Ret true /\ r' <> Ret false) as (r' & K & Hr1 & Hr2).
    { destruct Hr as [(e & K & _)|[K _]]; apply wrapping_inv in K as (r' & K & Hm); exists r'; split; try done; by destruct r'. }
    unfold tryLock in K. apply os_op_cases in K as (s2 & Ef & El & Eo & _ & [[-> _]|K]).
    + split_and!; [lia|unfold path_kept; by rewrite Ef|left; split; [done|apply Hno]|]. intros ph' Hph. by apply Hno in Hph.
    + destruct (y_lock s2); injection K as <- <-; done.
Qed.

Lemma start_next pid s s' ph' :
  phase_body cfg pid Start s = (s', Ret ph') -> match ph' with Waiting _ | Finished _ => True | _ => False end.
Proof.
  cbn [phase_body]. intros Hb. destruct (checkIssuer _ _); [done|]. apply cbind_Ret in Hb as (s1 & tok & _ & Hb). apply cbind_Ret in Hb as (s2 & n & _ & Hb).
  destruct (fresh_enough _ _ _); [by injection Hb as <- <-|]. apply cbind_Ret in Hb as (s3 & ? & _ & Hb). apply cbind_Ret in Hb as (s4 & n' & _ & Hb).
  by injection Hb as <- <-.
Qed.

Lemma body_run pid ph s s' r :
  phase_body cfg pid ph s = (s', r) ->
  (y_op s <= y_op s')%nat /\
  (path_kept (rf_path cfg) s s' \/ exists old tok, ph = Saving old tok /\ token_in s' = Some (inr tok)) /\
  ((y_lock s' = y_lock s /\ (critical ph = false -> forall ph', r = Ret ph' -> critical ph' = false)) \/
   (y_lock s = None /\ y_lock s' = Some pid)).
Proof.
  intros Hb. destruct ph as [|d| |tok c|old tok|r0].
  - pose proof (body_quiet _ _ _ _ _ Hb I) as (Ho & Hl & Hp). split_and!; [done|by left|]. left. split; [done|]. intros _ ph' ->.
    apply start_next in Hb. by destruct ph'.
  - cbn [phase_body] in Hb. apply lock_round_run in Hb as (Ho & Hp & Hl & Hn). split_and!; [done|by left|].
    destruct Hl as [[Hl Hr]|?]; [left; split; [done|]|by right]. intros _ ph' ->. destruct (Hn _ eq_refl) as [->| ->]; done.
  - pose proof (body_quiet _ _ _ _ _ Hb I) as (Ho & Hl & Hp). split_and!; [done|by left|by left].
  - pose proof (body_quiet _ _ _ _ _ Hb I) as (Ho & Hl & Hp). split_and!; [done|by left|by left].
  - cbn [phase_body] in Hb.
    assert (exists r', Save (rf_path cfg) tok s = (s', r')) as (r' & K).
    { apply cbind_inv in Hb as [(s1 & [] & K & Hb)|[(e & K & ->)|[K ->]]]; [injection Hb as <- <-|..]; eauto. }
    destruct (Save_ongoing _ _ _ _ K) as [Ho Hl]. split_and!; [done| |by left].
    apply Save_run in K as [[Hp _]|(data & Hm & Hf & _)]; [by left| |done]. right. exists old, tok. split; [done|]. unfold stored. rewrite Hf. cbn.
    by rewrite (file_roundtrip _ _ Hm).
  - pose proof (body_quiet _ _ _ _ _ Hb I) as (Ho & Hl & Hp). cbn [phase_body] in Hb. injection Hb as <- <-.
    split_and!; [done|by left|]. left. split; [done|]. by intros _ ph' [= <-].
Qed.

Lemma saving_done pid old tok s s' ph' : phase_body cfg pid (Saving old tok) s = (s', Ret ph') -> token_in s' = Some (inr tok).
Proof.
  intros (s1 & [] & K & Hb)%cbind_Ret. injection Hb as <- <-. by destruct (save_cases _ _ Htemp _ _ _ K) as [[_ ?]|(? & _)].
Qed.

Lemma release_fields pid s : y_op (release pid s) = y_op s /\ y_files (release pid s) = y_files s /\
  (forall pid', y_lock s = Some pid' -> pid' <> pid -> y_lock (release pid s) = Some pid').
Proof. unfold release. case_bool_decide; cbn; split_and!; try done; intros; congruence. Qed.

(** ** A process on its own *)

Lemma op_later {A} (f : nat -> Sys -> Sys * res A) s s' r :
  op f s = (s', r) -> (forall n s1 s2 r, f n s1 = (s2, r) -> y_clock s1 <= y_clock s2) -> y_clock s <= y_clock s'.
Proof. intros (s1 & _ & _ & _ & _ & Hc & _ & [[_ ->]|Hr])%op_cases Hf; [done|]. apply Hf in Hr. lia. Qed.

(** A round that does not get the lock takes at least the poll interval, and
    started before the deadline. *)
Lemma lock_round_waits pid d s s' :
  lock_round cfg pid d s = (s', Ret (Waiting d)) -> y_clock s + lockPollInterval <= y_clock s' /\ y_clock s < d.
Proof.
  unfold lock_round. intros (s1 & ok & K & Hr)%cbind_Ret. apply wrapping_Ret in K.
  assert (y_clock s <= y_clock s1) as H1'.
  { eapply op_later; [exact K|]. intros n sa sb r Hx. cbn in Hx. repeat case_match; simplify_eq; cbn; lia. }
  destruct ok; [by injection Hr|]. apply cbind_Ret in Hr as (s2 & now_ & K2 & Hr).
  apply op_cases in K2 as (s3 & _ & _ & _ & _ & Hc & _ & [[? _]|K2]); [done|]. injection K2 as <- <-.
  destruct (time_Before (y_clock s3) d) eqn:E; cbn [negb] in Hr; [|done]. apply time_Before_spec in E.
  apply cbind_Ret in Hr as (s4 & [] & K4 & Hr). injection Hr as <-. apply op_cases in K4 as (s5 & _ & _ & _ & _ & Hc5 & _ & [[? _]|K4]); [done|].
  destruct (ctx_Err _); [done|]. injection K4 as <-. cbn. lia.
Qed.

(** Steps to the end, at most. *)
Definition rank ph s : Z :=
  match ph with
  | Start => 5 + Z.max 0 (rf_lockTimeout cfg / lockPollInterval + 1)
  | Waiting d => 4 + Z.max 0 ((d - y_clock s) / lockPollInterval + 1)
  | Holding => 3
  | Posting _ _ => 2
  | Saving _ _ => 1
  | Finished _ => 0
  end.

Lemma phase_rank_nonneg ph s : 0 <= rank ph s.
Proof. destruct ph; cbn; lia. Qed.

Lemma step_rank pid ph s s' ph' :
  refresh_step cfg pid ph s = (s', ph') -> (forall r, ph <> Finished r) -> rank ph' s' < rank ph s.
Proof.
  intros Hs Hnf. assert (forall r, ph' = Finished r -> rank ph' s' < rank ph s) as Hfin.
  { intros r ->. cbn. destruct ph; cbn; try lia. by destruct (Hnf r0). }
  unfold refresh_step in Hs. destruct (phase_body cfg pid ph s) as [s1 r] eqn:Hb.
  destruct r as [ph1|e|]; [|injection Hs as <- <-; by eapply Hfin..].
  destruct ph1 as [|d| |tok c|old tok|r1]; [| | | | |injection Hs as <- <-; by eapply Hfin]; injection Hs as <- <-; clear Hfin.
  all: destruct ph as [|d'| |tok' c'|old' tok'|r1']; cbn [phase_body] in Hb; try (by destruct (Hnf r1')).
  all: try (apply lock_round_run in Hb as (_ & _ & _ & Hn); destruct (Hn _ eq_refl); done).
  all: try (destruct (checkIssuer _ _); [done|]; apply cbind_Ret in Hb as (sa & tk & _ & Hb); apply cbind_Ret in Hb as (sb & n & Kn & Hb);
            destruct (fresh_enough _ _ _); [done|]; apply cbind_Ret in Hb as (sc & u & Ko & Hb); apply cbind_Ret in Hb as (sd & n' & Kn' & Hb);
            injection Hb as; simplify_eq; try done).
  all: try (apply cbind_Ret in Hb as (sa & x & _ & Hb); apply cbind_Ret in Hb as (sb & n & _ & Hb); cbv zeta in Hb;
            repeat case_match; unfold fail, mret, C_ret in Hb; simplify_eq; cbn; lia).
  all: try (apply cbind_Ret in Hb as (sa & x & _ & Hb); unfold mret, C_ret in Hb; simplify_eq; done).
  - cbn. apply op_cases in Kn' as (se & _ & _ & _ & _ & Hc & _ & [[? _]|Kn']); [done|]. injection Kn' as <- <-.
    unfold time_Add. replace (y_clock se + rf_lockTimeout cfg - y_clock se) with (rf_lockTimeout cfg) by lia. lia.
  - pose proof (lock_round_run _ _ _ _ _ Hb) as (_ & _ & _ & Hn). destruct (Hn _ eq_refl) as [?|[= ->]]; [done|].
    apply lock_round_waits in Hb as [Hc Hd]. cbn. assert (0 < lockPollInterval) by done.
    assert ((d' - y_clock s1) / lockPollInterval + 1 <= (d' - y_clock s) / lockPollInterval).
    { rewrite <- Z.div_add by lia. apply Z.div_le_mono; lia. }
    assert (0 <= (d' - y_clock s) / lockPollInterval) by (apply Z.div_pos; lia). lia.
  - cbn. lia.
Qed.

(** What a step does to the token file. *)
Definition file_effect (s0 s : Sys) ph : Prop :=
  match ph with
  | Finished (Ret tok) => token_in s = Some (inr tok)
  | Finished Died => True
  | _ => token_in s = token_in s0
  end.

Lemma kept_token s s' : path_kept (rf_path cfg) s s' -> token_in s' = token_in s.
Proof. unfold path_kept, stored. by intros ->. Qed.

Lemma body_file pid ph s s' r :
  phase_body cfg pid ph s = (s', r) -> (forall r0, ph <> Finished r0) ->
  match r with
  | Ret (Finished (Ret tok)) => token_in s' = Some (inr tok)
  | Ret (Finished _) => False
  | Died => True
  | _ => token_in s' = token_in s
  end.
Proof.
  intros Hb Hnf. destruct (body_run _ _ _ _ _ Hb) as (_ & Hfile & _).
  destruct ph as [|d| |tok c|old tok|r0]; try (by destruct (Hnf r0)).
  - destruct Hfile as [Hk%kept_token|(? & ? & ? & _)]; [|done]. cbn [phase_body] in Hb. destruct (checkIssuer _ _); [by injection Hb as <- <-|].
    destruct r as [ph1|e|]; [|done..]. apply cbind_Ret in Hb as (s1 & tok & K & Hb). pose proof (Load_stored _ _ _ K).
    apply cbind_Ret in Hb as (s2 & n & _ & Hb). destruct (fresh_enough _ _ _); [injection Hb as <- <-; congruence|].
    apply cbind_Ret in Hb as (s3 & ? & _ & Hb). apply cbind_Ret in Hb as (s4 & n' & _ & Hb). by injection Hb as <- <-.
  - destruct Hfile as [Hk%kept_token|(? & ? & ? & _)]; [|done]. cbn [phase_body] in Hb. apply lock_round_run in Hb as (_ & _ & _ & Hn).
    destruct r as [ph1|e|]; [|done..]. by destruct (Hn _ eq_refl) as [->| ->].
  - destruct Hfile as [Hk%kept_token|(? & ? & ? & _)]; [|done]. cbn [phase_body] in Hb. destruct r as [ph1|e|]; [|done..].
    apply cbind_Ret in Hb as (s1 & tok & K & Hb). pose proof (Load_stored _ _ _ K). apply cbind_Ret in Hb as (s2 & n & _ & Hb). cbv zeta in Hb.
    repeat case_match; unfold fail, mret, C_ret in Hb; simplify_eq; try done; congruence.
  - destruct Hfile as [Hk%kept_token|(? & ? & ? & _)]; [|done]. cbn [phase_body] in Hb. destruct r as [ph1|e|]; [|done..].
    apply cbind_Ret in Hb as (s1 & tr & _ & Hb). apply cbind_Ret in Hb as (s2 & n & _ & Hb). by injection Hb as <- <-.
  - cbn [phase_body] in Hb. apply cbind_inv in Hb as [(s1 & [] & K & Hb)|[(e & K & ->)|[K ->]]]; [| |done].
    + injection Hb as <- <-. by destruct (save_cases _ _ Htemp _ _ _ K) as [[_ ?]|(? & _)].
    + by destruct (save_cases _ _ Htemp _ _ _ K) as [[? _]|(_ & _ & [?|?])].
Qed.

Lemma step_file pid ph s s' ph' :
  refresh_step cfg pid ph s = (s', ph') -> (forall r0, ph <> Finished r0) -> file_effect s s' ph'.
Proof.
  intros Hs Hnf. unfold refresh_step in Hs. destruct (phase_body cfg pid ph s) as [s1 r] eqn:Hb.
  pose proof (body_file _ _ _ _ _ Hb Hnf) as Hf. pose proof (release_fields pid s1) as (_ & Ef & _).
  assert (token_in (release pid s1) = token_in s1) as Et by (unfold stored; by rewrite Ef).
  destruct r as [[| | | | |[| |]]|e|]; try done; injection Hs as <- <-; cbn; try congruence; done.
Qed.

Lemma run_ends pid fuel ph s :
  rank ph s <= Z.of_nat fuel -> (forall r0, ph <> Finished r0) ->
  exists s' r, run_phases fuel cfg pid ph s = (s', Some r) /\ file_effect s s' (Finished r).
Proof.
  revert ph s. induction fuel as [|fuel IH]; intros ph s Hf Hnf.
  - pose proof (phase_rank_nonneg ph s). destruct ph; cbn in *; try lia. by destruct (Hnf r).
  - assert (run_phases (S fuel) cfg pid ph s = let (s, ph) := refresh_step cfg pid ph s in run_phases fuel cfg pid ph s) as ->.
    { destruct ph; try done. by destruct (Hnf r). }
    destruct (refresh_step cfg pid ph s) as [s1 ph1] eqn:Hs. pose proof (step_rank _ _ _ _ _ Hs Hnf) as Hr. pose proof (step_file _ _ _ _ _ Hs Hnf) as He.
    assert ((exists r, ph1 = Finished r) \/ forall r, ph1 <> Finished r) as [[r ->]|Hnf1] by (destruct ph1; eauto).
    { exists s1, r. split; [by destruct fuel|done]. }
    destruct (IH ph1 s1) as (s2 & r & Hrun & He2); [lia|done|]. exists s2, r. split; [done|]. unfold file_effect in *. destruct ph1; try (by destruct (Hnf1 r0)).
    all: destruct r; congruence.
Qed.

(** C36. Getting a usable token always ends, with the file telling the truth.
    Alone, whatever the system, the network and the issuer do, the command ends
    within the lock's timeout in polls and four more phases; the token it returns
    is the one the file then holds; and a failure, a refused refresh among
    them, leaves the token file as it was. *)
Theorem ensure_fresh_total pid fuel s :
  5 + Z.max 0 (rf_lockTimeout cfg / lockPollInterval + 1) <= Z.of_nat fuel ->
  exists s' r, EnsureFresh fuel cfg pid s = (s', Some r) /\
    (forall tok, r = Ret tok -> token_in s' = Some (inr tok)) /\ (forall e, r = Err e -> token_in s' = token_in s).
Proof.
  intros Hf. destruct (run_ends pid fuel Start s) as (s' & r & Hrun & He); [done|done|]. exists s', r. split; [done|].
  split; intros x ->; exact He.
Qed.

(** ** Rotation *)

(** The issuer's answer names a new refresh token, or none. *)
Class Rotating := {
  issued_at : string -> option nat;
  rotates n method u body resp tr :
    roundtrip n method u body = Responded 200 (inr resp) -> unmarshal_token resp = inr tr ->
    tr_RefreshToken tr = "" \/ issued_at (tr_RefreshToken tr) = Some n
}.
Context `{Rotating}.

Definition older (n : nat) (rt : string) : Prop := match issued_at rt with None => True | Some k => (k < n)%nat end.

Lemma older_mono n n' rt : (n <= n')%nat -> older n rt -> older n' rt.
Proof. unfold older. destruct (issued_at rt); lia. Qed.

Lemma follow_answer fuel insecure from via method u body s s' st b :
  follow fuel insecure from via method u body s = (s', Ret (st, b)) ->
  exists n meth u' body', (y_op s <= n < y_op s')%nat /\ roundtrip n meth u' body' = Responded st b.
Proof.
  revert via method u body s. induction fuel as [|fuel IH]; intros via method u body s; cbn [follow]; [by intros [=]|].
  intros (s1 & a & K & Hr)%cbind_Ret. unfold send in K. apply op_cases in K as (s2 & _ & _ & Eo & _ & _ & _ & [[? _]|K]); [done|].
  injection K as <- <-. destruct (roundtrip (y_op s) method u body) as [e|st' target|st' b'] eqn:E; [done| |].
  - destruct (CheckRedirect _ _ _ _); [done|]. destruct (_ || _); apply IH in Hr as (n & me & u' & bo & Hn & Ha); exists n, me, u', bo; cbn in Hn; (split; [lia|done]).
  - injection Hr as <- <- <-. exists (y_op s), method, u, body. cbn. split; [lia|done].
Qed.

Lemma postTokenForm_issued insecure issuer form s s' tr :
  postTokenForm insecure issuer form s = (s', Ret tr) ->
  exists n, (y_op s <= n < y_op s')%nat /\ (tr_RefreshToken tr = "" \/ issued_at (tr_RefreshToken tr) = Some n).
Proof.
  unfold postTokenForm. intros (s1 & [st b] & K & Hr)%cbind_Ret. unfold post in K. destruct (url_Parse _) as [u|]; [|done].
  apply wrapping_Ret in K. unfold client_Do in K. apply follow_answer in K as (n & me & u' & bo & Hn & Ha).
  destruct b as [e|body]; [done|]. destruct (st =? 200) eqn:Est; cbn [negb] in Hr.
  - apply Z.eqb_eq in Est as ->. destruct (unmarshal_token body) as [e|tr'] eqn:Eu; [done|].
    destruct (_ =? "")%string; [done|]. injection Hr as <- <-. exists n. split; [done|]. by eapply rotates.
  - destruct (unmarshal_oauth_error body); [destruct (negb _)|]; done.
Qed.

(** What the next phase of a step starts from. *)
Definition next_ok ph ph' s s' : Prop :=
  match ph' with
  | Posting tok _ => ph = Holding /\ token_in s = Some (inr tok)
  | Saving old tok' => exists tok c n, ph = Posting tok c /\ old = ct_RefreshToken tok /\ (y_op s <= n < y_op s')%nat /\
                         (ct_RefreshToken tok' = old \/ issued_at (ct_RefreshToken tok') = Some n)
  | _ => True
  end.

Lemma body_next pid ph s s' ph' : phase_body cfg pid ph s = (s', Ret ph') -> next_ok ph ph' s s'.
Proof.
  intros Hb. destruct ph as [|d| |tok c|old tok|r0].
  - apply start_next in Hb. by destruct ph'.
  - cbn [phase_body] in Hb. apply lock_round_run in Hb as (_ & _ & _ & Hn). by destruct (Hn _ eq_refl) as [->| ->].
  - cbn [phase_body] in Hb. apply cbind_Ret in Hb as (s1 & tok & K & Hb). apply Load_stored in K. apply cbind_Ret in Hb as (s2 & n & _ & Hb). cbv zeta in Hb.
    repeat case_match; unfold fail, mret, C_ret in Hb; simplify_eq; try done; cbn; auto.
  - cbn [phase_body] in Hb. apply cbind_Ret in Hb as (s1 & tr & K & Hb). apply wrapping_Ret in K.
    pose proof (quiet_postTokenForm _ _ _ _ _ _ K) as (Ho1 & _). apply postTokenForm_issued in K as (n & Hn & Hi).
    apply cbind_Ret in Hb as (s2 & now_ & K2 & Hb). pose proof (quiet_time_Now _ _ _ K2) as (Ho2 & _). injection Hb as <- <-. cbn.
    exists tok, c, n. split_and!; [done|done|lia|lia|]. destruct (String.eqb_spec (tr_RefreshToken tr) ""); [by left|].
    right. by destruct Hi.
  - cbn [phase_body] in Hb. apply cbind_Ret in Hb as (s1 & [] & K & Hb). by injection Hb as <- <-.
  - cbn [phase_body] in Hb. injection Hb as <- <-. by destruct r0.
Qed.

(** ** The invariant of several processes *)

(** Nothing presents a token that was replaced. *)
Definition ordered (l : list happening) : Prop := forall i j rt,
  l !! i = Some (Saved rt) -> l !! j = Some (Posted rt) -> (j < i)%nat.

(** After [closes] a token may be presented again. *)
Definition closes (rt : string) (e : option happening) : Prop := e = Some (Lost rt) \/ e = Some (Unchanged rt).
Definition spaced (l : list happening) : Prop := forall i j rt, (i < j)%nat ->
  l !! i = Some (Posted rt) -> l !! j = Some (Posted rt) -> exists n, (i < n < j)%nat /\ closes rt (l !! n).

Lemma closes_app rt (l k : list happening) n : closes rt (l !! n) -> closes rt ((l ++ k) !! n).
Proof. intros [Hn|Hn]; [left|right]; by apply lookup_app_l_Some. Qed.

(** What a process presents, it presents first. *)
Lemma logged_Posted ph ph' n rt :
  logged ph ph' !! n = Some (Posted rt) -> n = 0%nat /\ exists tok c, ph = Posting tok c /\ rt = ct_RefreshToken tok.
Proof.
  unfold logged. intros Hn. destruct ph as [|d| |tok c|old tok|r0]; try done.
  - destruct ph'; destruct n as [|[|n]]; cbn in Hn; simplify_eq; (split; [done|eauto]).
  - destruct ph' as [| | | | |[x|e|]]; try (by destruct n); [destruct (_ =? _)%string|..]; by destruct n as [|n].
Qed.

(** Appending what a step logs. *)
Lemma ordered_app (l k : list happening) :
  ordered l -> (forall n rt, k !! n = Some (Posted rt) -> (Saved rt ∉ l) /\ (Saved rt ∉ k)) -> ordered (l ++ k).
Proof.
  intros Ho Hk i j rt Hi Hj. apply lookup_app_Some in Hj as [Hj|[Hlj Hj]].
  - apply lookup_app_Some in Hi as [Hi|[Hli _]]; [by eapply Ho|]. apply lookup_lt_Some in Hj. lia.
  - exfalso. destruct (Hk _ _ Hj) as [Hl Hn]. apply list_elem_of_lookup_2, elem_of_app in Hi as [?|?]; done.
Qed.

Lemma spaced_app (l k : list happening) :
  spaced l -> (forall n rt, k !! n = Some (Posted rt) -> n = 0%nat /\ forall i, l !! i = Some (Posted rt) -> exists n', (i < n')%nat /\ closes rt (l !! n')) ->
  spaced (l ++ k).
Proof.
  intros Hs Hk i j rt Hij Hi Hj. apply lookup_app_Some in Hj as [Hj|[Hlj Hj]].
  - apply lookup_app_Some in Hi as [Hi|[Hli _]]; [|apply lookup_lt_Some in Hj; lia].
    destruct (Hs i j rt Hij Hi Hj) as (n & Hn & Hc). exists n. split; [done|by apply closes_app].
  - destruct (Hk _ _ Hj) as [Hz Hclosed]. apply lookup_app_Some in Hi as [Hi|[Hli Hi]]; [|lia].
    destruct (Hclosed i Hi) as (n & Hn & Hc). exists n. split; [|by apply closes_app].
    assert (n < length l)%nat by (destruct Hc as [?%lookup_lt_Some|?%lookup_lt_Some]; done). lia.
Qed.

Record refresh_inv m : Prop := {
  i_lock : forall pid ph, m_procs m !! pid = Some ph -> critical ph = true -> y_lock (m_sys m) = Some pid;
  i_file : forall tok, token_in (m_sys m) = Some (inr tok) ->
    older (y_op (m_sys m)) (ct_RefreshToken tok) /\ Saved (ct_RefreshToken tok) ∉ m_log m;
  i_post : forall pid tok c, m_procs m !! pid = Some (Posting tok c) ->
    older (y_op (m_sys m)) (ct_RefreshToken tok) /\ Saved (ct_RefreshToken tok) ∉ m_log m;
  i_save : forall pid old tok, m_procs m !! pid = Some (Saving old tok) ->
    older (y_op (m_sys m)) old /\ older (y_op (m_sys m)) (ct_RefreshToken tok) /\ Saved (ct_RefreshToken tok) ∉ m_log m;
  i_log : forall rt, Saved rt ∈ m_log m -> older (y_op (m_sys m)) rt;
  i_order : ordered (m_log m);
  i_spaced : spaced (m_log m);
  i_open : forall i rt, m_log m !! i = Some (Posted rt) ->
    (exists n, (i < n)%nat /\ closes rt (m_log m !! n)) \/ (exists pid tok, m_procs m !! pid = Some (Saving rt tok)) \/ Saved rt ∈ m_log m
}.

(** The step itself: the body's, then the release of a process that ended. *)
Lemma step_run pid ph s s' ph' :
  refresh_step cfg pid ph s = (s', ph') ->
  exists s1 r, phase_body cfg pid ph s = (s1, r) /\ y_op s' = y_op s1 /\ y_files s' = y_files s1 /\
    (forall pid', y_lock s1 = Some pid' -> pid' <> pid \/ critical ph' = true -> y_lock s' = Some pid') /\
    (r = Ret ph' \/ critical ph' = false) /\ (forall x, ph' = Finished (Ret x) -> r = Ret ph').
Proof.
  unfold refresh_step. destruct (phase_body cfg pid ph s) as [s1 r] eqn:E. intros Hs. exists s1, r. split; [done|].
  pose proof (release_fields pid s1) as (Ho & Hf & Hl).
  destruct r as [[]|e|]; injection Hs as <- <-; rewrite ?Ho, ?Hf; split_and!; try done; try (by left); try (by right); intros pid' Hp [?|?]; auto.
Qed.

Lemma logged_Saved ph ph' rt :
  Saved rt ∈ logged ph ph' -> exists tok x, ph = Saving rt tok /\ ph' = Finished (Ret x) /\ ct_RefreshToken tok <> rt.
Proof.
  unfold logged. destruct ph as [|d| |tok c|old tok|r0]; try (by intros ?%elem_of_nil).
  - destruct ph'; intros Hin; set_unfold in Hin; by destruct_or?.
  - destruct ph' as [| | | | |[x|e|]]; try (by intros ?%elem_of_nil); [|by intros [=]%list_elem_of_singleton..].
    destruct (String.eqb_spec (ct_RefreshToken tok) old); intros [= ->]%list_elem_of_singleton; eauto.
Qed.

(** What follows the exchange and the write. *)
Lemma posting_next pid tok c s s' ph' :
  refresh_step cfg pid (Posting tok c) s = (s', ph') -> (exists tok', ph' = Saving (ct_RefreshToken tok) tok') \/ exists r, ph' = Finished r.
Proof.
  unfold refresh_step. destruct (phase_body cfg pid _ s) as [s1 r] eqn:Hb. destruct r as [ph1|e|]; [|intros [= _ <-]; eauto..].
  cbn [phase_body] in Hb. apply cbind_Ret in Hb as (s2 & tr & _ & Hb). apply cbind_Ret in Hb as (s3 & n & _ & Hb). injection Hb as <- <-.
  intros [= _ <-]. eauto.
Qed.

Lemma saving_next pid old tok s s' ph' : refresh_step cfg pid (Saving old tok) s = (s', ph') -> exists r, ph' = Finished r.
Proof.
  unfold refresh_step. destruct (phase_body cfg pid _ s) as [s1 r] eqn:Hb. destruct r as [ph1|e|]; [|intros [= _ <-]; eauto..].
  cbn [phase_body] in Hb. apply cbind_Ret in Hb as (s2 & [] & _ & Hb). injection Hb as <- <-. intros [= _ <-]. eauto.
Qed.

(** Nobody else is in the critical section with [pid]. *)
Lemma alone m pid ph pid' ph' :
  refresh_inv m -> m_procs m !! pid = Some ph -> critical ph = true -> m_procs m !! pid' = Some ph' -> critical ph' = true -> pid' = pid.
Proof. intros Hi H1' Hc H2' Hc'. pose proof (i_lock _ Hi _ _ H1' Hc). pose proof (i_lock _ Hi _ _ H2' Hc'). congruence. Qed.

(** Replacing the phase of one process and appending what it logs. *)
Lemma open_inv (ps : gmap nat phase) (l k : list happening) pid (o : option phase) ph' :
  (forall i rt, l !! i = Some (Posted rt) ->
    (exists n, (i < n)%nat /\ closes rt (l !! n)) \/ (exists pid tok, ps !! pid = Some (Saving rt tok)) \/ Saved rt ∈ l) ->
  ps !! pid = o ->
  (forall rt tok, o = Some (Saving rt tok) -> closes rt (k !! 0%nat) \/ Saved rt ∈ k) ->
  (forall n rt, k !! n = Some (Posted rt) -> closes rt (k !! (n + 1)%nat) \/ exists tok, ph' = Saving rt tok) ->
  forall i rt, (l ++ k) !! i = Some (Posted rt) ->
    (exists n, (i < n)%nat /\ closes rt ((l ++ k) !! n)) \/ (exists pid' tok, <[pid := ph']> ps !! pid' = Some (Saving rt tok)) \/ Saved rt ∈ l ++ k.
Proof.
  intros Hopen Hph Hsave Hpost i rt Hi. apply lookup_app_Some in Hi as [Hi|[Hl Hi]].
  - destruct (Hopen i rt Hi) as [(n & Hn & Hc)|[(pid' & tok & Hp)|Hs]].
    + left. exists n. split; [done|by apply closes_app].
    + destruct (decide (pid' = pid)) as [->|Hne]; [|right; left; exists pid', tok; by rewrite lookup_insert_ne].
      rewrite Hp in Hph. destruct (Hsave rt tok (eq_sym Hph)) as [Hc|Hin]; [left|right; right; apply elem_of_app; by right].
      exists (length l). split; [by eapply lookup_lt_Some|]. by rewrite lookup_app_r, Nat.sub_diag by lia.
    + right. right. apply elem_of_app. by left.
  - destruct (Hpost _ _ Hi) as [Hc|[tok ->]]; [left|right; left; exists pid, tok; by rewrite lookup_insert_eq].
    exists (i + 1)%nat. split; [lia|]. rewrite lookup_app_r by lia. by replace (i + 1 - length l)%nat with (i - length l + 1)%nat by lia.
Qed.

Lemma logged_open pid ph s s' ph' :
  refresh_step cfg pid ph s = (s', ph') ->
  (forall rt tok, Some ph = Some (Saving rt tok) -> closes rt (logged ph ph' !! 0%nat) \/ Saved rt ∈ logged ph ph') /\
  (forall n rt, logged ph ph' !! n = Some (Posted rt) -> closes rt (logged ph ph' !! (n + 1)%nat) \/ exists tok, ph' = Saving rt tok).
Proof.
  intros Hs. split.
  - intros rt tok [= ->]. destruct (saving_next _ _ _ _ _ _ Hs) as [[x|e|] ->]; cbn; [|by left; left..].
    destruct (_ =? _)%string; [left; by right|right; by left].
  - intros n rt Hn. destruct (logged_Posted _ _ _ _ Hn) as (-> & tok & c & -> & ->).
    destruct (posting_next _ _ _ _ _ _ Hs) as [[tok' ->]|[r ->]]; [eauto|by left; left].
Qed.

Lemma run_inv ps s l pid ph s' ph' :
  refresh_inv (mkMachine ps s l) -> ps !! pid = Some ph -> refresh_step cfg pid ph s = (s', ph') ->
  refresh_inv (mkMachine (<[pid := ph']> ps) s' (l ++ logged ph ph')).
Proof.
  intros Hi Hph Hs. destruct (step_run _ _ _ _ _ Hs) as (s1 & r & Hb & Eo & Ef & El & Hr & Hfin).
  destruct (body_run _ _ _ _ _ Hb) as (Ho & Hfile & Hlock). rewrite <- Eo in Ho.
  assert (forall ph1, r = Ret ph1 -> next_ok ph ph1 s s') as Hnext.
  { intros ph1 ->. apply body_next in Hb. destruct ph1; try done. cbn in *. by rewrite Eo. }
  assert (token_in s' = token_in s1) as Etok by (unfold stored; by rewrite Ef).
  assert (forall rt, Saved rt ∈ logged ph ph' -> exists tok, ph = Saving rt tok /\ ct_RefreshToken tok <> rt /\ token_in s' = Some (inr tok)) as Hsaved.
  { intros rt (tok & x & -> & -> & Hneq)%logged_Saved. exists tok. do 2 (split; [done|]). rewrite Etok. rewrite (Hfin x eq_refl) in Hb. by eapply saving_done. }
  assert (forall rt, Saved rt ∉ l -> (forall tok, ph = Saving rt tok -> ct_RefreshToken tok <> rt -> token_in s' <> Some (inr tok)) -> Saved rt ∉ l ++ logged ph ph') as Hnot.
  { intros rt Hn Hno [Hin|Hin]%elem_of_app; [done|]. apply Hsaved in Hin as (tok & -> & Hneq & Ht). by eapply Hno. }
  assert (forall pid' phx rt, pid' <> pid -> ps !! pid' = Some phx -> critical phx = true -> Saved rt ∉ l -> Saved rt ∉ l ++ logged ph ph') as Hothers.
  { intros pid' phx rt Hne Hx Hc Hn. apply Hnot; [done|]. intros tok -> _ _. destruct Hne.
    by apply (alone (mkMachine ps s l) pid (Saving rt tok) pid' phx). }
  split; cbn [m_procs m_sys m_log].
  - intros pid' phx Hx Hc. destruct (decide (pid' = pid)) as [->|Hne].
    + rewrite lookup_insert_eq in Hx. injection Hx as <-. apply El; [|by right]. destruct Hr as [->|?]; [|congruence].
      destruct Hlock as [[Hl Hn]|[_ Hl]]; [|done]. rewrite Hl. apply (i_lock _ Hi pid ph); [done|]. cbn.
      destruct (critical ph) eqn:Ec; [done|]. rewrite (Hn eq_refl ph' eq_refl) in Hc. done.
    + rewrite lookup_insert_ne in Hx by done. pose proof (i_lock _ Hi _ _ Hx Hc) as Hl0. cbn in Hl0. apply El; [|by left].
      destruct Hlock as [[Hl _]|[Hl _]]; congruence.
  - intros tok Ht. assert (forall rt tok', rt = ct_RefreshToken tok -> ph = Saving rt tok' -> ct_RefreshToken tok' <> rt -> token_in s' <> Some (inr tok')) as Hdiff
      by (intros rt tok' -> _ Hneq Ht'; congruence).
    destruct Hfile as [Hk|(old & tok' & -> & Ht')].
    + assert (token_in s = Some (inr tok)) as Ht0 by (rewrite <- Ht, Etok; unfold stored; unfold path_kept in Hk; by rewrite Hk).
      destruct (i_file _ Hi _ Ht0) as [Hold Hns]. split; [by eapply older_mono|]. apply Hnot; [done|]. intros tok'. by apply Hdiff.
    + rewrite Etok, Ht' in Ht. injection Ht as ->. destruct (i_save _ Hi _ _ _ Hph) as (_ & Hold & Hns).
      split; [by eapply older_mono|]. apply Hnot; [done|]. intros tok'. by apply Hdiff.
  - intros pid' tok c Hx. destruct (decide (pid' = pid)) as [->|Hne].
    + rewrite lookup_insert_eq in Hx. injection Hx as ->. destruct Hr as [->|?]; [|done].
      destruct (Hnext _ eq_refl) as [-> Ht]. destruct (i_file _ Hi _ Ht) as [Hold Hns].
      split; [by eapply older_mono|]. by apply Hnot.
    + rewrite lookup_insert_ne in Hx by done. destruct (i_post _ Hi _ _ _ Hx) as [Hold Hns].
      split; [by eapply older_mono|]. by eapply Hothers.
  - intros pid' old tok Hx. destruct (decide (pid' = pid)) as [->|Hne].
    + rewrite lookup_insert_eq in Hx. injection Hx as ->. destruct Hr as [->|?]; [|done].
      destruct (Hnext _ eq_refl) as (tok0 & c & n & -> & -> & Hn & Hi'). destruct (i_post _ Hi _ _ _ Hph) as [Hold Hns]. cbn in Hold, Hns.
      destruct Hi' as [->|Hi']; (split_and!; [by eapply older_mono| |]).
      * by eapply older_mono.
      * by apply Hnot.
      * unfold older; rewrite Hi'; lia.
      * apply Hnot; [|done]. intros Hin. apply (i_log _ Hi) in Hin. unfold older in Hin. rewrite Hi' in Hin. cbn in Hin. lia.
    + rewrite lookup_insert_ne in Hx by done. destruct (i_save _ Hi _ _ _ Hx) as (Hold & Hnew & Hns).
      split_and!; [by eapply older_mono..|]. by eapply Hothers.
  - intros rt [Hin|Hin]%elem_of_app; [eapply older_mono; [exact Ho|by apply (i_log _ Hi)]|].
    apply Hsaved in Hin as (tok & -> & _). destruct (i_save _ Hi _ _ _ Hph) as (Hold & _). by eapply older_mono.
  - apply ordered_app; [apply Hi|]. intros n rt Hn. destruct (logged_Posted _ _ _ _ Hn) as (_ & tok & c & Hp & ->). rewrite Hp in *.
    split; [by destruct (i_post _ Hi _ _ _ Hph)|]. by intros (? & ? & ? & _)%logged_Saved.
  - apply spaced_app; [apply Hi|]. intros n rt Hn. destruct (logged_Posted _ _ _ _ Hn) as (-> & tok & c & Hp & ->). rewrite Hp in *.
    split; [done|]. intros i Hpost. destruct (i_open _ Hi i _ Hpost) as [?|[(pid' & tok' & Hx)|Hin]]; [done| |].
    + exfalso. cbn in Hx. assert (pid' = pid) as -> by by eapply (alone (mkMachine ps s l) pid (Posting tok c)). congruence.
    + by destruct (i_post _ Hi _ _ _ Hph).
  - destruct (logged_open _ _ _ _ _ Hs) as [Ha Hb']. eapply open_inv; [apply Hi|exact Hph|exact Ha|exact Hb'].
Qed.

Lemma step_inv m m' : refresh_inv m -> cstep issued_at cfg m m' -> refresh_inv m'.
Proof.
  intros Hi Hstep. destruct Hstep as [ps s l pid Hnone|ps s l pid ph s' ph' Hph Hs|ps s l pid ph Hph|ps s l tok data Hnew Hns Hnp Hm]; [|by eapply run_inv| |].
  - split; cbn [m_procs m_sys m_log]; try apply Hi.
    + intros pid' ph Hx Hc. destruct (decide (pid' = pid)) as [->|Hne]; [rewrite lookup_insert_eq in Hx; by injection Hx as <-|].
      rewrite lookup_insert_ne in Hx by done. by eapply (i_lock _ Hi).
    + intros pid' tok c Hx. destruct (decide (pid' = pid)) as [->|Hne]; [by rewrite lookup_insert_eq in Hx|].
      rewrite lookup_insert_ne in Hx by done. by eapply (i_post _ Hi).
    + intros pid' old tok Hx. destruct (decide (pid' = pid)) as [->|Hne]; [by rewrite lookup_insert_eq in Hx|].
      rewrite lookup_insert_ne in Hx by done. by eapply (i_save _ Hi).
    + rewrite <-(app_nil_r l). eapply open_inv; [apply Hi|exact Hnone|done|by intros [] ?].
  - pose proof (release_fields pid s) as (Eo & Ef & El). assert (token_in (release pid s) = token_in s) as Et by (unfold stored; by rewrite Ef).
    set (k := match ph with Saving old _ => [Lost old] | _ => [] end).
    assert (forall n rt, k !! n = Some (Lost rt) \/ k !! n = None \/ exists rt', k !! n = Some (Lost rt')) as Hk.
    { intros n rt. unfold k. destruct ph; destruct n as [|[]]; cbn; eauto. }
    assert (forall rt, Saved rt ∉ k) as Hks.
    { intros rt [n Hn]%list_elem_of_lookup. destruct (Hk n "") as [?|[?|[? ?]]]; congruence. }
    assert (forall n rt, k !! n <> Some (Posted rt)) as Hkp.
    { intros n rt Hn. destruct (Hk n "") as [?|[?|[? ?]]]; congruence. }
    assert (forall rt, Saved rt ∉ l -> Saved rt ∉ l ++ k) as Hnot by (intros rt Hn [?|?%Hks]%elem_of_app; done).
    split; cbn [m_procs m_sys m_log]; rewrite ?Eo.
    + intros pid' ph' Hx Hc. destruct (decide (pid' = pid)) as [->|Hne]; [rewrite lookup_insert_eq in Hx; by injection Hx as <-|].
      rewrite lookup_insert_ne in Hx by done. apply El; [|done]. by eapply (i_lock _ Hi).
    + intros tok Ht. rewrite Et in Ht. destruct (i_file _ Hi _ Ht). auto.
    + intros pid' tok c Hx. destruct (decide (pid' = pid)) as [->|Hne]; [by rewrite lookup_insert_eq in Hx|].
      rewrite lookup_insert_ne in Hx by done. destruct (i_post _ Hi _ _ _ Hx). auto.
    + intros pid' old tok Hx. destruct (decide (pid' = pid)) as [->|Hne]; [by rewrite lookup_insert_eq in Hx|].
      rewrite lookup_insert_ne in Hx by done. destruct (i_save _ Hi _ _ _ Hx) as (? & ? & ?). auto.
    + intros rt [Hin|?%Hks]%elem_of_app; [by apply (i_log _ Hi)|done].
    + apply ordered_app; [apply Hi|]. by intros n rt ?%Hkp.
    + apply spaced_app; [apply Hi|]. by intros n rt ?%Hkp.
    + eapply open_inv; [apply Hi|exact Hph| |by intros n rt ?%Hkp]. intros rt tok [= ->]. left. by left.
  - split; cbn [m_procs m_sys m_log]; try apply Hi. intros tok' Ht. unfold stored, write_token in Ht. cbn in Ht.
    rewrite lookup_insert_eq in Ht. cbn in Ht. rewrite (file_roundtrip _ _ Hm) in Ht. injection Ht as <-.
    split; [unfold older; by rewrite Hnew|done].
Qed.

(** A machine before any refresh: no process, and a file whose token no later
    exchange will hand out again. *)
Definition rested m : Prop :=
  m_procs m = ∅ /\ m_log m = [] /\ forall tok, token_in (m_sys m) = Some (inr tok) -> older (y_op (m_sys m)) (ct_RefreshToken tok).

Lemma rested_inv m : rested m -> refresh_inv m.
Proof.
  intros (Hp & Hl & Hf). split; rewrite ?Hp, ?Hl; try (intros *; by rewrite lookup_empty).
  - intros tok Ht. split; [by apply Hf|]. by intros ?%elem_of_nil.
  - by intros rt ?%elem_of_nil.
  - by intros i j rt.
  - by intros i j rt.
  - by intros i rt.
Qed.

(** C35. Processes that refresh one token file take turns at the issuer. However
    they are started, interleaved and killed, and whatever logins write to the
    file meanwhile without the lock, where the issuer's answers name a new
    refresh token or none and logins bring new ones: while one process is
    between reading the token under the lock and writing its replacement, no
    other is; once a replacement is written, the token it replaced is never
    presented again, by anyone; and one token is presented twice only where, in
    between, the process that presented it first failed or was killed before it
    reported the write, so that the file may still hold it, or the issuer had
    named no new token. *)
Theorem refresh_exchanges_serialized m m' :
  rested m -> rtc (cstep issued_at cfg) m m' ->
  (forall pid ph pid' ph', m_procs m' !! pid = Some ph -> critical ph = true ->
     m_procs m' !! pid' = Some ph' -> critical ph' = true -> pid = pid') /\
  (forall l1 l2 rt, m_log m' = l1 ++ Saved rt :: l2 -> Posted rt ∉ l2) /\
  (forall l1 l2 l3 rt, m_log m' = l1 ++ Posted rt :: l2 ++ Posted rt :: l3 -> Lost rt ∈ l2 \/ Unchanged rt ∈ l2).
Proof.
  intros Hr Hsteps. assert (refresh_inv m') as Hi.
  { apply rested_inv in Hr. induction Hsteps as [|m1 m2 m3 Hs _ IH]; [done|]. apply IH. by eapply step_inv. }
  split; [intros pid ph pid' ph' Hp Hc Hp' Hc'; by eapply (alone m')|]. split.
  - intros l1 l2 rt E [n Hn]%list_elem_of_lookup. enough (length l1 + S n < length l1)%nat by lia.
    apply (i_order _ Hi (length l1) (length l1 + S n)%nat rt); rewrite E; [by apply list_lookup_middle|].
    rewrite lookup_app_r by lia. by replace (length l1 + S n - length l1)%nat with (S n) by lia.
  - intros l1 l2 l3 rt E. destruct (i_spaced _ Hi (length l1) (length l1 + S (length l2))%nat rt) as (n & Hn & Hc); [lia|rewrite E|rewrite E|].
    + by apply list_lookup_middle.
    + rewrite lookup_app_r by lia. replace (length l1 + S (length l2) - length l1)%nat with (S (length l2)) by lia. by apply list_lookup_middle.
    + rewrite E in Hc. assert ((l1 ++ Posted rt :: l2 ++ Posted rt :: l3) !! n = l2 !! (n - length l1 - 1)%nat) as Hl.
      { rewrite lookup_app_r, lookup_cons_ne_0 by lia. rewrite lookup_app_l by lia. f_equal. lia. }
      rewrite Hl in Hc. destruct Hc as [Hc|Hc]; apply list_elem_of_lookup_2 in Hc; auto.
Qed.

End Facts.
