(* ===== verification/Sessions.v ===== *)
(** * What the token store promises

    The contract of [TokenStore] (oidc/token.go, state/doc.go) as an abstract
    machine: authorization codes and refresh tokens by their hash, consumed
    rows staying behind as tombstones, a revoked family admitting no further
    token. The backends refine this machine ([TokenStoreSpec]); a driver
    failure may leave an operation done or not done, but never half done. The
    step relation of the machine and what it preserves are what the theorems
    about the handlers rest on. *)

From S2P Require Import Prelude GoStrings GoErrors Oidc.

(** ** Abstract state *)

(** Rows never hold the secret: [ac_Code] and [rt_Token] are empty. *)
Record CodeRow := mkCodeRow { cr_code : AuthCode; cr_consumed : option time }.
Record TokenRow := mkTokenRow { tr_refresh : Refresh; tr_consumed : option time; tr_revoked : option time }.

#[export] Instance CodeRow_eq_dec : EqDecision CodeRow.
Proof. solve_decision. Defined.
#[export] Instance TokenRow_eq_dec : EqDecision TokenRow.
Proof. solve_decision. Defined.

Record Sessions := mkSessions {
  codes : gmap string CodeRow;
  tokens : gmap string TokenRow
}.

Definition with_token (t : string) (r : Refresh) : Refresh :=
  mkRefresh t (rt_JTI r) (rt_ClientID r) (rt_ConnectorID r) (rt_Subject r) (rt_Email r)
    (rt_FamilyID r) (rt_AuthTime r) (rt_CreatedAt r) (rt_ExpiresAt r).

Definition with_code (c : string) (ac : AuthCode) : AuthCode :=
  mkAuthCode c (ac_ClientID ac) (ac_RedirectURI ac) (ac_ConnectorID ac) (ac_Subject ac) (ac_Email ac)
    (ac_Scope ac) (ac_CodeChallenge ac) (ac_CodeChallengeMethod ac) (ac_Nonce ac) (ac_FamilyID ac)
    (ac_CreatedAt ac) (ac_ExpiresAt ac).

Definition with_family (f : string) (ac : AuthCode) : AuthCode :=
  mkAuthCode (ac_Code ac) (ac_ClientID ac) (ac_RedirectURI ac) (ac_ConnectorID ac) (ac_Subject ac)
    (ac_Email ac) (ac_Scope ac) (ac_CodeChallenge ac) (ac_CodeChallengeMethod ac) (ac_Nonce ac) f
    (ac_CreatedAt ac) (ac_ExpiresAt ac).

(** What a replay gets back: who and which family, not the request's scope,
    challenge and nonce. *)
Definition tombstone_code (c : string) (ac : AuthCode) : AuthCode :=
  mkAuthCode c (ac_ClientID ac) (ac_RedirectURI ac) (ac_ConnectorID ac) (ac_Subject ac) (ac_Email ac)
    "" "" "" "" (ac_FamilyID ac) (ac_CreatedAt ac) (ac_ExpiresAt ac).

Definition row_family (r : TokenRow) : string := rt_FamilyID (tr_refresh r).
Definition in_family (f : string) (r : TokenRow) : bool := (row_family r =? f)%string.
Definition revoked (r : TokenRow) : bool := bool_decide (is_Some (tr_revoked r)).
Definition consumed (r : TokenRow) : bool := bool_decide (is_Some (tr_consumed r)).
Definition live (r : TokenRow) : bool := negb (consumed r) && negb (revoked r).

Definition family_revoked (f : string) (t : gmap string TokenRow) : bool :=
  existsb (fun r => in_family f r && revoked r) (map_to_list t).*2.

Definition family_exists (f : string) (t : gmap string TokenRow) : bool :=
  existsb (in_family f) (map_to_list t).*2.

(** Stamp every unrevoked row that satisfies [p]. *)
Definition revoke_row (p : TokenRow -> bool) (at_ : time) (r : TokenRow) : TokenRow :=
  if p r && negb (revoked r) then mkTokenRow (tr_refresh r) (tr_consumed r) (Some at_) else r.

Definition revoke_where (p : TokenRow -> bool) (at_ : time) (t : gmap string TokenRow) :
    gmap string TokenRow := revoke_row p at_ <$> t.

(** How many live rows satisfy [p]. *)
Definition count_live (p : TokenRow -> bool) (t : gmap string TokenRow) : Z :=
  Z.of_nat (length (List.filter (fun r => p r && live r) (map_to_list t).*2)).

(** ** Abstract operations *)

Module Spec.

Definition ConsumeAuthCode (c familyID : string) (at_ : time) (s : Sessions) :
    Sessions * (AuthCode * option error) :=
  match codes s !! Hash c with
  | None => (s, (zeroAuthCode, Some (Sentinel ErrAuthCodeNotFound)))
  | Some row =>
      match cr_consumed row with
      | None =>
          let ac := with_family familyID (cr_code row) in
          (mkSessions (<[Hash c := mkCodeRow ac (Some at_)]> (codes s)) (tokens s),
           (with_code c ac, None))
      | Some _ => (s, (tombstone_code c (cr_code row), Some (Sentinel ErrAuthCodeReused)))
      end
  end.

Definition SaveRefresh (r : Refresh) (s : Sessions) : Sessions * option error :=
  if family_revoked (rt_FamilyID r) (tokens s)
  then (s, Some (Errorf (rt_FamilyID r) (Sentinel ErrRefreshFamilyRevoked)))
  else match tokens s !! Hash (rt_Token r) with
       | Some _ => (s, Some (Sentinel ErrDuplicateRefreshToken))
       | None =>
           (mkSessions (codes s)
              (<[Hash (rt_Token r) := mkTokenRow (with_token "" r) None None]> (tokens s)), None)
       end.

Definition ConsumeRefresh (token clientID : string) (at_ : time) (s : Sessions) :
    Sessions * (Refresh * option error) :=
  match tokens s !! Hash token with
  | None => (s, (zeroRefresh, Some (Sentinel ErrRefreshNotFound)))
  | Some row =>
      if negb (rt_ClientID (tr_refresh row) =? clientID)%string
      then (s, (zeroRefresh, Some (Sentinel ErrRefreshNotFound)))
      else if live row then
        (mkSessions (codes s)
           (<[Hash token := mkTokenRow (tr_refresh row) (Some at_) (tr_revoked row)]> (tokens s)),
         (with_token token (tr_refresh row), None))
      else if consumed row then (s, (with_token token (tr_refresh row), Some (Sentinel ErrRefreshReused)))
      else (s, (zeroRefresh, Some (Sentinel ErrRefreshNotFound)))
  end.

(** [CallbackStore.SaveAuthCode]: the callback side of the same table. *)
Definition SaveAuthCode (ac : AuthCode) (s : Sessions) : Sessions * option error :=
  match codes s !! Hash (ac_Code ac) with
  | Some _ => (s, Some (Sentinel ErrDuplicateAuthCode))
  | None =>
      (mkSessions (<[Hash (ac_Code ac) := mkCodeRow (with_family "" (with_code "" ac)) None]> (codes s))
         (tokens s), None)
  end.

(** An operator's revocation of every token that satisfies [p]. *)
Definition RevokeWhere (p : TokenRow -> bool) (at_ : time) (s : Sessions) : Sessions * Z :=
  (mkSessions (codes s) (revoke_where p at_ (tokens s)), count_live p (tokens s)).

(** Of every token of every family with a token that satisfies [p]. *)
Definition RevokeFamiliesWhere (p : TokenRow -> bool) (at_ : time) (s : Sessions) : Sessions * Z :=
  RevokeWhere (fun r => existsb (fun r' => in_family (row_family r) r' && p r') (map_to_list (tokens s)).*2) at_ s.

Definition RevokeRefreshFamily (f : string) (at_ : time) (s : Sessions) :
    Sessions * (Z * option error) :=
  if family_exists f (tokens s)
  then (mkSessions (codes s) (revoke_where (in_family f) at_ (tokens s)),
        (count_live (in_family f) (tokens s), None))
  else (s, (0, Some (Errorf f (Sentinel ErrSessionNotFound)))).

End Spec.

(** ** Steps of the machine *)

Inductive step : Sessions -> Sessions -> Prop :=
  | step_consume_code c f t s : step s (Spec.ConsumeAuthCode c f t s).1
  | step_save r s : step s (Spec.SaveRefresh r s).1
  | step_consume_refresh tok c t s : step s (Spec.ConsumeRefresh tok c t s).1
  | step_revoke f t s : step s (Spec.RevokeRefreshFamily f t s).1
  | step_save_code ac s : step s (Spec.SaveAuthCode ac s).1
  | step_revoke_where p t s : step s (Spec.RevokeWhere p t s).1.

Abbreviation steps := (rtc step).

(** ** Refinement *)

(** A failure of the driver: no sentinel the handlers test for. *)
Fixpoint driver_error (e : error) : bool :=
  match e with
  | Opaque _ => true
  | Errorf _ e' => driver_error e'
  | _ => false
  end.

Definition failed (e : option error) : Prop := exists x, e = Some x /\ driver_error x = true.

(** [op] is linearizable at [s]: at some point between the steps other requests
    take before and after it, it does in one step what [spec] does, or reports
    a driver failure having done it or not done it at all. *)
Definition linearizes {S A} (view : S -> Sessions) (err : A -> option error)
    (op : S -> S * A) (spec : Sessions -> Sessions * A) (s : S) : Prop :=
  exists s0 s1, steps (view s) s0 /\ steps s1 (view (op s).1) /\
    ((s1, (op s).2) = spec s0 \/
     failed (err (op s).2) /\ (s1 = s0 \/ s1 = (spec s0).1)).

Definition refines {S A} (inv : S -> Prop) (view : S -> Sessions) (err : A -> option error)
    (op : S -> S * A) (spec : Sessions -> Sessions * A) : Prop :=
  forall s, inv s -> inv (op s).1 /\ linearizes view err op spec s.

(** The contract. *)
Class TokenStoreSpec (S : Type) `{TokenStore S} := {
  view : S -> Sessions;
  store_inv : S -> Prop;
  ConsumeAuthCode_refines c f t :
    refines store_inv view snd (ConsumeAuthCode c f t) (Spec.ConsumeAuthCode c f t);
  SaveRefresh_refines r : refines store_inv view id (SaveRefresh r) (Spec.SaveRefresh r);
  ConsumeRefresh_refines tok c t :
    refines store_inv view snd (ConsumeRefresh tok c t) (Spec.ConsumeRefresh tok c t);
  RevokeRefreshFamily_keeps f t s : store_inv s ->
    store_inv (RevokeRefreshFamily f t s).1 /\ steps (view s) (view (RevokeRefreshFamily f t s).1);
  (** A family that has no token yet may get its first one while the operation
      runs; what is promised is about the families that exist. *)
  RevokeRefreshFamily_linearizes f t s : store_inv s ->
    family_exists f (tokens (view s)) = true ->
    linearizes view snd (RevokeRefreshFamily f t) (Spec.RevokeRefreshFamily f t) s
}.

(** ** Invariants *)

(** Facts about a state that only grow. *)
Definition code_used (h : string) (s : Sessions) : Prop :=
  exists row, codes s !! h = Some row /\ cr_consumed row <> None.

Definition token_used (h : string) (s : Sessions) : Prop :=
  exists row, tokens s !! h = Some row /\ consumed row = true.

Definition token_in (f h : string) (s : Sessions) : Prop :=
  exists row, tokens s !! h = Some row /\ row_family row = f.

Definition family_dead (f : string) (s : Sessions) : Prop :=
  (exists h, token_in f h s) /\
  forall h row, tokens s !! h = Some row -> row_family row = f -> revoked row = true.

(** ** Facts *)

Lemma in_snd_map {K A} `{Countable K} (m : gmap K A) x :
  In x (map_to_list m).*2 <-> exists k, m !! k = Some x.
Proof.
  rewrite <- list_elem_of_In, list_elem_of_fmap. split.
  - intros ([k y] & -> & Hin). exists k. by apply elem_of_map_to_list.
  - intros [k Hk]. exists (k, x). split; [done|]. by apply elem_of_map_to_list.
Qed.

Lemma family_revoked_true f t :
  family_revoked f t = true <-> exists h r, t !! h = Some r /\ row_family r = f /\ revoked r = true.
Proof.
  unfold family_revoked. rewrite existsb_exists. setoid_rewrite in_snd_map. split.
  - intros (r & [h Hh] & [Hf Hr]%andb_true_iff). apply String.eqb_eq in Hf. eauto.
  - intros (h & r & Hh & Hf & Hr). exists r. split; [eauto|].
    unfold in_family. by rewrite Hf, String.eqb_refl, Hr.
Qed.

Lemma family_exists_true f t :
  family_exists f t = true <-> exists h r, t !! h = Some r /\ row_family r = f.
Proof.
  unfold family_exists. rewrite existsb_exists. setoid_rewrite in_snd_map. split.
  - intros (r & [h Hh] & Hf%String.eqb_eq). eauto.
  - intros (h & r & Hh & Hf). exists r. split; [eauto|]. by apply String.eqb_eq.
Qed.

Lemma revoke_row_family p t r : row_family (revoke_row p t r) = row_family r.
Proof. unfold revoke_row. by destruct (_ && _). Qed.

Lemma revoke_row_consumed p t r : tr_consumed (revoke_row p t r) = tr_consumed r.
Proof. unfold revoke_row. by destruct (_ && _). Qed.

Lemma revoke_row_refresh p t r : tr_refresh (revoke_row p t r) = tr_refresh r.
Proof. unfold revoke_row. by destruct (_ && _). Qed.

Lemma revoke_row_revoked p t r : revoked (revoke_row p t r) = revoked r || p r.
Proof.
  unfold revoke_row. destruct (p r) eqn:Hp, (revoked r) eqn:Hr; cbn; [done..|].
  by rewrite Hr.
Qed.

Lemma lookup_revoke_where p t m h r :
  revoke_where p t m !! h = Some r <-> exists r0, m !! h = Some r0 /\ r = revoke_row p t r0.
Proof.
  unfold revoke_where. rewrite lookup_fmap, fmap_Some. done.
Qed.

(** How a token row may evolve: its data is fixed, consumption and revocation
    are permanent. *)
Definition row_le (r r' : TokenRow) : Prop :=
  tr_refresh r' = tr_refresh r /\
  (consumed r = true -> tr_consumed r' = tr_consumed r) /\
  (revoked r = true -> tr_revoked r' = tr_revoked r).

#[export] Instance row_le_refl : Reflexive row_le.
Proof. done. Qed.

#[export] Instance row_le_trans : Transitive row_le.
Proof.
  intros x y z (H1 & H2 & H3) (H4 & H5 & H6). unfold row_le, consumed, revoked in *.
  rewrite !bool_decide_eq_true in *. split; [congruence|].
  split; intros Hs; [rewrite <- (H2 Hs); apply H5; by rewrite H2|rewrite <- (H3 Hs); apply H6; by rewrite H3].
Qed.

Definition code_le (r r' : CodeRow) : Prop :=
  r' = r \/ (cr_consumed r = None /\ cr_consumed r' <> None /\
             exists f, cr_code r' = with_family f (cr_code r)).

#[export] Instance code_le_refl : Reflexive code_le.
Proof. by left. Qed.

#[export] Instance code_le_trans : Transitive code_le.
Proof. unfold code_le. intros x y z [->|(? & ? & ?)] [->|(? & ? & ?)]; naive_solver. Qed.

Lemma consume_row_le row t : live row = true -> row_le row (mkTokenRow (tr_refresh row) (Some t) (tr_revoked row)).
Proof.
  unfold live, row_le. intros [Hc%negb_true_iff _]%andb_true_iff. split; [done|]. by rewrite Hc.
Qed.

Lemma revoke_row_le p t r : row_le r (revoke_row p t r).
Proof.
  unfold row_le, revoke_row. destruct (p r), (revoked r) eqn:E; cbn; try rewrite E; done.
Qed.

(** A branch that leaves the state alone. *)
Ltac fin := cbn; eauto using row_le_refl, code_le_refl.

Lemma step_tokens s s' h row :
  step s s' -> tokens s !! h = Some row -> exists row', tokens s' !! h = Some row' /\ row_le row row'.
Proof.
  intros Hst Hh.
  destruct Hst; unfold Spec.ConsumeAuthCode, Spec.SaveRefresh, Spec.ConsumeRefresh, Spec.RevokeRefreshFamily.
  - destruct (codes s !! _) as [r|]; [destruct (cr_consumed r)|]; fin.
  - destruct (family_revoked _ _); [fin|]. destruct (tokens s !! Hash (rt_Token r)) eqn:E; [fin|].
    cbn. rewrite lookup_insert_ne by congruence. fin.
  - destruct (tokens s !! Hash tok) as [r|] eqn:E; [|fin].
    destruct (negb _); [fin|]. destruct (live r) eqn:Hl; [|destruct (consumed r); fin].
    cbn. destruct (decide (h = Hash tok)) as [->|Hne].
    + simplify_eq. rewrite lookup_insert_eq. eexists. split; [done|]. by apply consume_row_le.
    + rewrite lookup_insert_ne by done. fin.
  - destruct (family_exists _ _); [|fin]. cbn. unfold revoke_where. rewrite lookup_fmap, Hh. cbn.
    eexists. split; [done|]. apply revoke_row_le.
  - unfold Spec.SaveAuthCode. destruct (codes s !! _); fin.
  - cbn. unfold revoke_where. rewrite lookup_fmap, Hh. cbn.
    eexists. split; [done|]. apply revoke_row_le.
Qed.

Lemma step_codes s s' h row :
  step s s' -> codes s !! h = Some row -> exists row', codes s' !! h = Some row' /\ code_le row row'.
Proof.
  intros Hst Hh.
  destruct Hst; unfold Spec.ConsumeAuthCode, Spec.SaveRefresh, Spec.ConsumeRefresh, Spec.RevokeRefreshFamily.
  - destruct (codes s !! Hash c) as [r|] eqn:E; [|fin]. destruct (cr_consumed r) eqn:Hc; [fin|].
    cbn. destruct (decide (h = Hash c)) as [->|Hne].
    + simplify_eq. rewrite lookup_insert_eq. eexists. split; [done|]. right. fin.
    + rewrite lookup_insert_ne by done. fin.
  - destruct (family_revoked _ _); [fin|]. destruct (tokens s !! _); fin.
  - destruct (tokens s !! _) as [r|]; [|fin]. destruct (negb _); [fin|].
    destruct (live r); [fin|]. destruct (consumed r); fin.
  - destruct (family_exists _ _); fin.
  - unfold Spec.SaveAuthCode. destruct (codes s !! Hash (ac_Code ac)) eqn:E; [fin|]. cbn.
    rewrite lookup_insert_ne by congruence. fin.
  - fin.
Qed.

Lemma steps_tokens s s' h row :
  steps s s' -> tokens s !! h = Some row -> exists row', tokens s' !! h = Some row' /\ row_le row row'.
Proof.
  intros Hs. revert row. induction Hs as [s|s s1 s' H1 _ IH]; intros row Hh; [by exists row|].
  destruct (step_tokens _ _ _ _ H1 Hh) as (r1 & Hr1 & Hle). destruct (IH _ Hr1) as (r' & Hr' & Hle').
  exists r'. split; [done|]. by etrans.
Qed.

Lemma steps_codes s s' h row :
  steps s s' -> codes s !! h = Some row -> exists row', codes s' !! h = Some row' /\ code_le row row'.
Proof.
  intros Hs. revert row. induction Hs as [s|s s1 s' H1 _ IH]; intros row Hh; [by exists row|].
  destruct (step_codes _ _ _ _ H1 Hh) as (r1 & Hr1 & Hle). destruct (IH _ Hr1) as (r' & Hr' & Hle').
  exists r'. split; [done|]. by etrans.
Qed.

Lemma code_used_steps h s s' : steps s s' -> code_used h s -> code_used h s'.
Proof.
  intros Hs (row & Hr & Hc). destruct (steps_codes _ _ _ _ Hs Hr) as (r' & Hr' & [->|(? & ? & ?)]);
    [by exists row|done].
Qed.

Lemma token_used_steps h s s' : steps s s' -> token_used h s -> token_used h s'.
Proof.
  intros Hs (row & Hr & Hc). destruct (steps_tokens _ _ _ _ Hs Hr) as (r' & Hr' & _ & Hle & _).
  exists r'. split; [done|]. unfold consumed in *. by rewrite Hle.
Qed.

Lemma token_in_steps f h s s' : steps s s' -> token_in f h s -> token_in f h s'.
Proof.
  intros Hs (row & Hr & Hf). destruct (steps_tokens _ _ _ _ Hs Hr) as (r' & Hr' & Hle & _).
  exists r'. split; [done|]. unfold row_family in *. by rewrite Hle.
Qed.

(** Where a token row of the next state comes from. *)
Lemma step_tokens_back s s' h row' :
  step s s' -> tokens s' !! h = Some row' ->
  (exists row, tokens s !! h = Some row /\ row_le row row') \/
  (tokens s !! h = None /\ live row' = true /\ family_revoked (row_family row') (tokens s) = false).
Proof.
  intros Hst Hh'. destruct (tokens s !! h) as [row|] eqn:E.
  { left. destruct (step_tokens _ _ _ _ Hst E) as (r & Hr & Hle). exists row. by simplify_eq. }
  right. split; [done|]. revert Hh'.
  destruct Hst; unfold Spec.ConsumeAuthCode, Spec.SaveRefresh, Spec.ConsumeRefresh, Spec.RevokeRefreshFamily.
  - destruct (codes s !! _) as [r|]; [destruct (cr_consumed r)|]; cbn; congruence.
  - destruct (family_revoked _ _) eqn:Hf; [cbn; congruence|].
    destruct (tokens s !! Hash (rt_Token r)) eqn:E'; [cbn; congruence|]. cbn.
    intros [[<- <-]|[? ?]]%lookup_insert_Some; [done|congruence].
  - destruct (tokens s !! Hash tok) as [r|] eqn:E'; [|cbn; congruence].
    destruct (negb _); [cbn; congruence|]. destruct (live r); [|destruct (consumed r); cbn; congruence].
    cbn. intros [[<- <-]|[? ?]]%lookup_insert_Some; congruence.
  - destruct (family_exists _ _); [|cbn; congruence]. cbn. unfold revoke_where.
    rewrite lookup_fmap, E. done.
  - unfold Spec.SaveAuthCode. destruct (codes s !! _); cbn; congruence.
  - cbn. unfold revoke_where. rewrite lookup_fmap, E. done.
Qed.

(** A dead family stays dead: nothing revives a token and nothing joins it. *)
Lemma family_dead_step f s s' : step s s' -> family_dead f s -> family_dead f s'.
Proof.
  intros Hst [[h0 Hin] Hd]. split.
  { exists h0. eapply token_in_steps; [by apply rtc_once|done]. }
  intros h row Hh Hf. destruct (step_tokens_back _ _ _ _ Hst Hh) as [(r & Hr & Hle)|(_ & _ & Hn)].
  - destruct Hle as (Hdata & _ & Hrev).
    assert (revoked r = true) as Hrr.
    { eapply Hd; [done|]. unfold row_family in *. by rewrite <- Hdata. }
    unfold revoked in *. by rewrite Hrev.
  - exfalso. destruct Hin as (r0 & Hr0 & Hf0).
    assert (family_revoked (row_family row) (tokens s) = true); [|congruence].
    apply family_revoked_true. exists h0, r0. split; [done|]. split; [congruence|]. by eapply Hd.
Qed.

Lemma family_dead_steps f s s' : steps s s' -> family_dead f s -> family_dead f s'.
Proof. intros Hs. induction Hs as [|s s1 s' H1 _ IH]; [done|]. eauto using family_dead_step. Qed.

Lemma family_dead_revoked f s : family_dead f s -> family_revoked f (tokens s) = true.
Proof.
  intros [[h (r & Hr & Hf)] Hd]. apply family_revoked_true. exists h, r. eauto.
Qed.

Lemma revoke_kills f t s :
  (Spec.RevokeRefreshFamily f t s).2.2 = None -> family_dead f (Spec.RevokeRefreshFamily f t s).1.
Proof.
  unfold Spec.RevokeRefreshFamily. destruct (family_exists f (tokens s)) eqn:E; [|done]. intros _. cbn.
  apply family_exists_true in E as (h & r & Hh & Hf). split.
  - exists h. exists (revoke_row (in_family f) t r). split; [|by rewrite revoke_row_family].
    apply lookup_revoke_where. eauto.
  - intros h' row (r0 & Hr0 & ->)%lookup_revoke_where. rewrite revoke_row_family. intros Hf'.
    rewrite revoke_row_revoked. unfold in_family. by rewrite Hf', String.eqb_refl, orb_true_r.
Qed.

(** A live token means its family is not dead. *)
Lemma family_dead_not_live f s h row :
  family_dead f s -> tokens s !! h = Some row -> row_family row = f -> live row = false.
Proof.
  intros [_ Hd] Hr Hf. unfold live. by rewrite (Hd _ _ Hr Hf), andb_false_r.
Qed.
