(* ===== verification/Sql.v ===== *)
(** * SQL statements under interleaving and failure

    What the state backends share: a database is its tables and a schedule of
    the statements to come, which says what other requests do to the tables
    before each statement and whether the driver serves it. A store method is a
    sequence of statements; a statement is atomic, a transaction is atomic and
    isolated. Rely/guarantee reasoning about them: [rely R] says other requests
    change the tables only as [R] allows. *)

From S2P Require Import Prelude GoStrings GoErrors Oidc.

(** ** Statements *)

(** Whether the driver serves a statement: a failure is reported before the
    statement took effect or after. *)
Inductive outcome := Served | FailedBefore | FailedAfter.

(** What surrounds a statement: first, what other requests do to the tables. *)
Record slot (T : Type) := mkSlot { slot_others : T -> T; slot_outcome : outcome }.
Arguments mkSlot {T}.
Arguments slot_others {T}.
Arguments slot_outcome {T}.

(** The database: its tables, and the schedule of the statements to come. Past
    its end nothing interferes and nothing fails. *)
Record Database (T : Type) := mkDB { tables : T; sched : list (slot T) }.
Arguments mkDB {T}.
Arguments tables {T}.
Arguments sched {T}.

Definition free_slot {T} : slot T := mkSlot (fun t => t) Served.

(** The slot of the next statement, and the rest of the schedule. *)
Definition next_slot {T} (db : Database T) : slot T := hd free_slot (sched db).
Definition later {T} (t : T) (db : Database T) : Database T := mkDB t (tail (sched db)).

(** A method body: statements that may fail in the driver. *)
Definition Q (T A : Type) : Type := Database T -> Database T * (error + A).

#[export] Instance Q_ret T : MRet (Q T) := fun A x db => (db, inr x).
#[export] Instance Q_bind T : MBind (Q T) := fun A B f q db =>
  match q db with
  | (db', inr x) => f x db'
  | (db', inl e) => (db', inl e)
  end.

Definition driver : error := Opaque "driver".

Section Statements.
Context {T A : Type}.
Implicit Types (f : T -> T * A) (db : Database T).

(** Run one atomic statement on the tables, or fail with the method's message. *)
Definition run_stmt (msg : string) f (t : T) db : Database T * (error + A) :=
  match slot_outcome (next_slot db) with
  | Served => let (t', a) := f t in (later t' db, inr a)
  | FailedBefore => (later t db, inl (Errorf msg driver))
  | FailedAfter => (later (f t).1 db, inl (Errorf msg driver))
  end.

Definition stmt (msg : string) f : Q T A := fun db =>
  run_stmt msg f (slot_others (next_slot db) (tables db)) db.

(** A statement of a transaction, which others do not disturb. *)
Definition tx_stmt (msg : string) f : Q T A := fun db => run_stmt msg f (tables db) db.

(** [res.RowsAffected()], [rows.Err], ...: no statement, but it may fail. *)
Definition after (msg : string) (a : A) : Q T A := stmt msg (fun t => (t, a)).

(** A method returning a row beside an error. *)
Definition method (zero : A) (q : Q T (A * option error)) : storeOp (Database T) (A * option error) := fun db =>
  match q db with
  | (db', inr r) => (db', r)
  | (db', inl e) => (db', (zero, Some e))
  end.

(** The body of a transaction and its commit: a failure of any statement, or an
    error the body returns, restores what was there before; a commit that
    reports a failure may have taken effect. *)
Definition in_tx (commit_msg : string) (q : Q T (A * option error)) : Q T (A * option error) := fun db =>
  match q db with
  | (db', inr (a, None)) =>
      match slot_outcome (next_slot db') with
      | Served => (later (tables db') db', inr (a, None))
      | FailedBefore => (later (tables db) db', inl (Errorf commit_msg driver))
      | FailedAfter => (later (tables db') db', inl (Errorf commit_msg driver))
      end
  | (db', r) => (mkDB (tables db) (sched db'), r)
  end.

End Statements.

(** A method returning only an error. *)
Definition method_ {T} (q : Q T (option error)) : storeOp (Database T) (option error) := fun db =>
  match q db with
  | (db', inr r) => (db', r)
  | (db', inl e) => (db', Some e)
  end.

Definition transaction {T A} (begin_msg commit_msg : string) (q : Q T (A * option error)) : Q T (A * option error) :=
  after begin_msg tt ≫= fun _ : unit => in_tx commit_msg q.

(** ** Reasoning about statements *)

Lemma Q_bind_cases {T A B} (q : Q T A) (f : A -> Q T B) db db' r :
  (q ≫= f) db = (db', r) ->
  (exists e, q db = (db', inl e) /\ r = inl e) \/
  (exists db1 a, q db = (db1, inr a) /\ f a db1 = (db', r)).
Proof.
  unfold mbind, Q_bind. destruct (q db) as [db1 [e|a]] eqn:E; intros Hr.
  - left. exists e. by simplify_eq.
  - right. eauto.
Qed.

(** A transaction commits its body as a whole or leaves the tables alone. *)
Lemma in_tx_run {T A} msg (q : Q T (A * option error)) db db' r :
  in_tx msg q db = (db', r) ->
  (tables db' = tables db /\ (forall a, r <> inr (a, None)) /\
   (r = inl (Errorf msg driver) \/ exists dbq, q db = (dbq, r))) \/
  (exists a db1, q db = (db1, inr (a, None)) /\ tables db' = tables db1 /\
     (r = inr (a, None) \/ r = inl (Errorf msg driver))).
Proof.
  unfold in_tx. destruct (q db) as [db1 [e|[a [e|]]]];
    [intros [= <- <-]; left; eauto 10|intros [= <- <-]; left; split_and!; eauto; done|].
  destruct (slot_outcome _); intros [= <- <-]; [right|left|right]; eauto 10.
Qed.

Lemma tx_stmt_inr {T A} msg (f : T -> T * A) db db' a :
  tx_stmt msg f db = (db', inr a) -> f (tables db) = (tables db', a).
Proof.
  unfold tx_stmt, run_stmt. destruct (slot_outcome _); [|done..].
  destruct (f (tables db)) as [t' x]. by intros [= <- <-].
Qed.

Lemma tx_stmt_inl {T A} msg (f : T -> T * A) db db' e :
  tx_stmt msg f db = (db', inl e) -> e = Errorf msg driver.
Proof.
  unfold tx_stmt, run_stmt. destruct (slot_outcome _); [destruct (f (tables db)); done|..]; by intros [= _ <-].
Qed.

Lemma after_outcome {T A} msg (a : A) (db db' : Database T) r :
  after msg a db = (db', r) -> tables db' = slot_others (next_slot db) (tables db).
Proof. unfold after, stmt, run_stmt. by destruct (slot_outcome _); intros [= <- <-]. Qed.

(** Two conditions on what others do, at once. *)
Definition both {T} (R1 R2 : relation T) : relation T := fun t t' => R1 t t' /\ R2 t t'.

#[export] Instance both_preorder {T} (R1 R2 : relation T) : PreOrder R1 -> PreOrder R2 -> PreOrder (both R1 R2).
Proof.
  intros P1 P2. split; [by split|]. intros t1 t2 t3 [? ?] [? ?]. split; by etrans.
Qed.

Section Rely.
Context {T : Type} (R : relation T) `{!PreOrder R}.
Implicit Types (db : Database T).

(** Other requests change the tables only as [R] allows. *)
Definition rely db : Prop := Forall (fun sl => forall t, R t (slot_others sl t)) (sched db).

Lemma rely_next db : rely db -> R (tables db) (slot_others (next_slot db) (tables db)).
Proof. unfold rely, next_slot. destruct (sched db); cbn; [done|]. by intros [H _]%Forall_cons. Qed.

Lemma rely_later db t : rely db -> rely (later t db).
Proof. unfold rely, later. destruct (sched db); cbn; [done|]. by intros [_ H]%Forall_cons. Qed.

(** A statement runs on some tables [R] leads to, or fails. *)
Lemma stmt_run {A} msg (f : T -> T * A) db db' r :
  rely db -> stmt msg f db = (db', r) ->
  rely db' /\ exists t, R (tables db) t /\
    ((exists a, r = inr a /\ f t = (tables db', a)) \/
     (r = inl (Errorf msg driver) /\ (tables db' = t \/ tables db' = (f t).1))).
Proof.
  intros Hr. pose proof (rely_next _ Hr) as Hn. unfold stmt, run_stmt.
  set (t := slot_others _ _) in *. pose proof (rely_later db) as Ht.
  destruct (slot_outcome _); [destruct (f t) as [t' a] eqn:Ef|..]; intros [= <- <-];
    (split; [by apply Ht|]); exists t; cbn; rewrite ?Ef; eauto 10.
Qed.

Lemma after_run {A} msg (a : A) db db' r :
  rely db -> after msg a db = (db', r) ->
  rely db' /\ R (tables db) (tables db') /\ (r = inr a \/ r = inl (Errorf msg driver)).
Proof.
  intros Hr Hs. apply stmt_run in Hs as (Hr' & t & Ht & Hc); [|done]. split; [done|].
  destruct Hc as [(a' & -> & [= <- <-])|(-> & [->| ->])]; eauto.
Qed.

Definition guarantees {A} (q : Q T A) : Prop :=
  forall db db' r, rely db -> q db = (db', r) -> rely db' /\ R (tables db) (tables db').

Lemma guarantees_bind {A B} (q : Q T A) (f : A -> Q T B) :
  guarantees q -> (forall x, guarantees (f x)) -> guarantees (q ≫= f).
Proof.
  intros Hq Hf db db' r Hr [(e & Hq1 & ->)|(db1 & a & Hq1 & Hf1)]%Q_bind_cases; [by eapply Hq|].
  destruct (Hq _ _ _ Hr Hq1) as [Hr1 H1]. destruct (Hf _ _ _ _ Hr1 Hf1) as [Hr2 H2].
  split; [done|]. by etrans.
Qed.

Lemma guarantees_ret {A} (x : A) : guarantees (mret x).
Proof. by intros db db' r Hr [= <- <-]. Qed.

Lemma guarantees_run {A} msg (f : T -> T * A) db db' t r :
  (forall t, R t (f t).1) -> rely db -> run_stmt msg f t db = (db', r) -> rely db' /\ R t (tables db').
Proof.
  intros Hf Hr. unfold run_stmt. specialize (Hf t).
  destruct (slot_outcome _); [destruct (f t) as [t' a]|..]; intros [= <- <-]; (split; [by apply rely_later|done]).
Qed.

Lemma guarantees_stmt {A} msg (f : T -> T * A) :
  (forall t, R t (f t).1) -> guarantees (stmt msg f).
Proof.
  intros Hf db db' r Hr Hs. pose proof (rely_next _ Hr) as Hn.
  destruct (guarantees_run _ _ _ _ _ _ Hf Hr Hs) as [Hr' Ht]. split; [done|]. by etrans.
Qed.

Lemma guarantees_tx_stmt {A} msg (f : T -> T * A) :
  (forall t, R t (f t).1) -> guarantees (tx_stmt msg f).
Proof. intros Hf db db' r Hr Hs. exact (guarantees_run _ _ _ _ _ _ Hf Hr Hs). Qed.

Lemma guarantees_after {A} msg (a : A) : guarantees (after msg a).
Proof. by apply guarantees_stmt. Qed.

(** A method keeps to [R] if the other requests do. *)
Definition guarantees_all {A} (op : storeOp (Database T) A) : Prop :=
  forall db db' r, rely db -> op db = (db', r) -> rely db' /\ R (tables db) (tables db').

Lemma guarantees_method {A} zero (q : Q T (A * option error)) db db' r :
  guarantees q -> rely db -> method zero q db = (db', r) -> rely db' /\ R (tables db) (tables db').
Proof.
  intros Hq Hr. unfold method. destruct (q db) as [db1 r1] eqn:E.
  destruct (Hq _ _ _ Hr E). by destruct r1; intros [= <- <-].
Qed.

Lemma guarantees_method_ (q : Q T (option error)) db db' r :
  guarantees q -> rely db -> method_ q db = (db', r) -> rely db' /\ R (tables db) (tables db').
Proof.
  intros Hq Hr. unfold method_. destruct (q db) as [db1 r1] eqn:E.
  destruct (Hq _ _ _ Hr E). by destruct r1; intros [= <- <-].
Qed.

End Rely.

#[export] Hint Extern 1 (guarantees _ (mret _)) => apply guarantees_ret; apply _ : tg.
#[export] Hint Extern 1 (guarantees _ (after _ _)) => apply guarantees_after; apply _ : tg.

(** Walk a method body down to its statements. *)
Ltac guarantees :=
  repeat first
    [ progress intros
    | solve [auto with tg]
    | apply guarantees_bind; [apply _|..]
    | apply guarantees_stmt; [apply _|intros; cbn; try reflexivity]
    | match goal with |- guarantees _ (match ?x with _ => _ end) => destruct x end
    | match goal with |- guarantees _ (if ?x then _ else _) => destruct x end
    | match goal with |- guarantees _ (let '(_, _) := ?x in _) => destruct x end ].

(** *** Schedules are consumed from the front *)

(** [q] leaves a suffix of the schedule. *)
Definition suffixing {T A} (q : Q T A) : Prop :=
  forall db db' r, q db = (db', r) -> exists n, sched db' = drop n (sched db).

Lemma suffixing_bind {T A B} (q : Q T A) (f : A -> Q T B) :
  suffixing q -> (forall x, suffixing (f x)) -> suffixing (q ≫= f).
Proof.
  intros Hq Hf db db' r [(e & Hq1 & ->)|(db1 & a & Hq1 & Hf1)]%Q_bind_cases; [by eapply Hq|].
  destruct (Hq _ _ _ Hq1) as [n Hn]. destruct (Hf _ _ _ _ Hf1) as [k Hk].
  exists (n + k)%nat. by rewrite Hk, Hn, drop_drop.
Qed.

Lemma suffixing_ret {T A} (x : A) : suffixing (mret (M := Q T) x).
Proof. intros db db' r [= <- <-]. by exists 0%nat. Qed.

Lemma suffixing_tx_stmt {T A} msg (f : T -> T * A) : suffixing (tx_stmt msg f).
Proof.
  intros db db' r E. exists 1%nat. revert E. unfold tx_stmt, run_stmt.
  destruct (slot_outcome _); [destruct (f (tables db))|..]; intros [= <- <-]; cbn; by destruct (sched db).
Qed.

Lemma suffixing_in_tx {T A} msg (q : Q T (A * option error)) : suffixing q -> suffixing (in_tx msg q).
Proof.
  intros Hq db db' r. unfold in_tx. destruct (q db) as [db1 r1] eqn:E. destruct (Hq _ _ _ E) as [n Hn].
  assert (tail (sched db1) = drop (n + 1) (sched db)) as Ht.
  { rewrite <- drop_drop, <- Hn. by destruct (sched db1). }
  destruct r1 as [e|[a [e|]]]; [intros [= <- <-]; eauto|intros [= <- <-]; eauto|].
  destruct (slot_outcome _); intros [= <- <-]; cbn; eauto.
Qed.

Lemma rely_suffix {T} (R : relation T) db db' n : rely R db -> sched db' = drop n (sched db) -> rely R db'.
Proof. unfold rely. intros Hr ->. by apply Forall_drop. Qed.
