(* ===== verification/Sqlite.v ===== *)
(** * The SQLite backend (state/sqlite)

    The tables as finite maps by primary key, and each store method as the
    sequence of SQL statements it runs. One connection serves all statements,
    so a statement is atomic; between two statements of a method, statements of
    other requests may run, and any statement may fail in the driver
    ([sched] decides). The refinement of the session contract is in
    SqliteSessions.v. *)

From S2P Require Import Prelude GoStrings GoErrors Oidc Keys Sessions Sql.

(** ** Tables *)

(** admin.IntegrationKey. *)
Record IntegrationKey := mkIntegrationKey {
  ik_ID : string;
  ik_Namespace : string;
  ik_Role : string;
  ik_Owner : string;
  ik_JTI : string;
  ik_CreatedAt : time;
  ik_ExpiresAt : option time;
  ik_RevokedAt : option time
}.

#[export] Instance IntegrationKey_eq_dec : EqDecision IntegrationKey.
Proof. solve_decision. Defined.

Definition zeroIntegrationKey : IntegrationKey := mkIntegrationKey "" "" "" "" "" 0 None None.

Record Tables := mkTables {
  auth_requests : gmap string AuthRequest;
  auth_codes : gmap string CodeRow;
  refresh_tokens : gmap string TokenRow;
  device_codes : gmap string DeviceCode;
  browser_sessions : gmap string BrowserSession;
  keypairs : gmap string Keypair;
  integration_keys : gmap string IntegrationKey;
  jti_denylist : gmap string time
}.

Definition emptyTables : Tables := mkTables ∅ ∅ ∅ ∅ ∅ ∅ ∅ ∅.

Definition set_requests m t := mkTables m (auth_codes t) (refresh_tokens t) (device_codes t)
  (browser_sessions t) (keypairs t) (integration_keys t) (jti_denylist t).
Definition set_codes m t := mkTables (auth_requests t) m (refresh_tokens t) (device_codes t)
  (browser_sessions t) (keypairs t) (integration_keys t) (jti_denylist t).
Definition set_tokens m t := mkTables (auth_requests t) (auth_codes t) m (device_codes t)
  (browser_sessions t) (keypairs t) (integration_keys t) (jti_denylist t).
Definition set_devices m t := mkTables (auth_requests t) (auth_codes t) (refresh_tokens t) m
  (browser_sessions t) (keypairs t) (integration_keys t) (jti_denylist t).
Definition set_sessions m t := mkTables (auth_requests t) (auth_codes t) (refresh_tokens t) (device_codes t)
  m (keypairs t) (integration_keys t) (jti_denylist t).
Definition set_keypairs m t := mkTables (auth_requests t) (auth_codes t) (refresh_tokens t) (device_codes t)
  (browser_sessions t) m (integration_keys t) (jti_denylist t).
Definition set_ikeys m t := mkTables (auth_requests t) (auth_codes t) (refresh_tokens t) (device_codes t)
  (browser_sessions t) (keypairs t) m (jti_denylist t).
Definition set_denylist m t := mkTables (auth_requests t) (auth_codes t) (refresh_tokens t) (device_codes t)
  (browser_sessions t) (keypairs t) (integration_keys t) m.

Abbreviation DB := (Database Tables).

Definition emptyDB : DB := mkDB emptyTables [].

(** ** Authorization requests (authrequest.go) *)

(** The statements are those of both backends; [true] is a unique violation. *)
Definition sql_insert_request (ar : AuthRequest) (t : Tables) : Tables * bool :=
  match auth_requests t !! ar_InternalState ar with
  | Some _ => (t, true)
  | None => (set_requests (<[ar_InternalState ar := ar]> (auth_requests t)) t, false)
  end.

Definition sql_delete_request (st : string) (t : Tables) : Tables * option AuthRequest :=
  match auth_requests t !! st with
  | Some ar => (set_requests (delete st (auth_requests t)) t, Some ar)
  | None => (t, None)
  end.

Definition sqlite_SaveAuthRequest (ar : AuthRequest) : storeOp DB (option error) := method_ (
  dup ← stmt "sqlite: save auth request" (sql_insert_request ar);
  mret (if (dup : bool) then Some (Sentinel ErrDuplicateInternalState) else None)).

Definition sqlite_ConsumeAuthRequest (st : string) : storeOp DB (AuthRequest * option error) :=
  method zeroAuthRequest (
    row ← stmt "sqlite: consume auth request" (sql_delete_request st);
    mret (match row with
          | Some ar => (ar, None)
          | None => (zeroAuthRequest, Some (Sentinel ErrAuthRequestNotFound))
          end)).

(** ** Authorization codes (authcode.go) *)

Definition sql_insert_code (ac : AuthCode) (t : Tables) : Tables * bool :=
  match auth_codes t !! Hash (ac_Code ac) with
  | Some _ => (t, true)
  | None =>
      (set_codes (<[Hash (ac_Code ac) := mkCodeRow (with_family "" (with_code "" ac)) None]>
                    (auth_codes t)) t, false)
  end.

(** [UPDATE ... WHERE code_hash = ? AND consumed_at IS NULL RETURNING ...]. *)
Definition sql_consume_code (c familyID : string) (at_ : time) (t : Tables) : Tables * option AuthCode :=
  match auth_codes t !! Hash c with
  | Some row =>
      match cr_consumed row with
      | None =>
          let ac := with_family familyID (cr_code row) in
          (set_codes (<[Hash c := mkCodeRow ac (Some at_)]> (auth_codes t)) t, Some ac)
      | Some _ => (t, None)
      end
  | None => (t, None)
  end.

(** [SELECT ... WHERE code_hash = ? AND consumed_at IS NOT NULL]. *)
Definition sql_code_tombstone (c : string) (t : Tables) : Tables * option AuthCode :=
  match auth_codes t !! Hash c with
  | Some row => (t, if bool_decide (is_Some (cr_consumed row)) then Some (cr_code row) else None)
  | None => (t, None)
  end.

Definition sqlite_SaveAuthCode (ac : AuthCode) : storeOp DB (option error) := method_ (
  dup ← stmt "sqlite: save auth code" (sql_insert_code ac);
  mret (if (dup : bool) then Some (Sentinel ErrDuplicateAuthCode) else None)).

Definition sqlite_ConsumeAuthCode (c familyID : string) (at_ : time) :
    storeOp DB (AuthCode * option error) :=
  method zeroAuthCode (
    row ← stmt "sqlite: consume auth code" (sql_consume_code c familyID at_);
    match row with
    | Some ac => mret (with_code c ac, None)
    | None =>
        tomb ← stmt "sqlite: look up consumed auth code" (sql_code_tombstone c);
        mret (match tomb with
              | None => (zeroAuthCode, Some (Sentinel ErrAuthCodeNotFound))
              | Some ac => (tombstone_code c ac, Some (Sentinel ErrAuthCodeReused))
              end)
    end).

(** ** Refresh tokens (refresh.go) *)

Inductive insert_result := Inserted | NoRow | PrimaryKeyConflict.

Definition sqlite_SaveRefresh (r : Refresh) : storeOp DB (option error) := method_ (
  res ← stmt "sqlite: save refresh token" (fun db =>
    if family_revoked (rt_FamilyID r) (refresh_tokens db) then (db, NoRow)
    else match refresh_tokens db !! Hash (rt_Token r) with
         | Some _ => (db, PrimaryKeyConflict)
         | None =>
             (set_tokens (<[Hash (rt_Token r) := mkTokenRow (with_token "" r) None None]>
                            (refresh_tokens db)) db, Inserted)
         end);
  match res with
  | PrimaryKeyConflict => mret (Some (Sentinel ErrDuplicateRefreshToken))
  | _ =>
      n ← after "sqlite: save refresh token" (match res with Inserted => 1 | _ => 0 end);
      mret (if (n : Z) =? 0
            then Some (Errorf (rt_FamilyID r) (Sentinel ErrRefreshFamilyRevoked)) else None)
  end).

(** [UPDATE ... WHERE token_hash = ? AND client_id = ? AND consumed_at IS NULL AND
    revoked_at IS NULL RETURNING ...]. *)
Definition sql_consume_refresh (token clientID : string) (at_ : time) (t : Tables) : Tables * option Refresh :=
  match refresh_tokens t !! Hash token with
  | Some row =>
      if (rt_ClientID (tr_refresh row) =? clientID)%string && live row
      then (set_tokens (<[Hash token := mkTokenRow (tr_refresh row) (Some at_) (tr_revoked row)]>
                          (refresh_tokens t)) t, Some (tr_refresh row))
      else (t, None)
  | None => (t, None)
  end.

(** [SELECT ... WHERE token_hash = ? AND client_id = ? AND consumed_at IS NOT NULL]. *)
Definition sql_refresh_tombstone (token clientID : string) (t : Tables) : Tables * option Refresh :=
  match refresh_tokens t !! Hash token with
  | Some row =>
      (t, if (rt_ClientID (tr_refresh row) =? clientID)%string && consumed row
          then Some (tr_refresh row) else None)
  | None => (t, None)
  end.

Definition sqlite_ConsumeRefresh (token clientID : string) (at_ : time) :
    storeOp DB (Refresh * option error) :=
  method zeroRefresh (
    r ← stmt "sqlite: consume refresh token" (sql_consume_refresh token clientID at_);
    match r with
    | Some r => mret (with_token token r, None)
    | None =>
        tomb ← stmt "sqlite: look up consumed refresh token" (sql_refresh_tombstone token clientID);
        mret (match tomb with
              | None => (zeroRefresh, Some (Sentinel ErrRefreshNotFound))
              | Some r => (with_token token r, Some (Sentinel ErrRefreshReused))
              end)
    end).

(** [s.revokeRefresh(ctx, op, where, at, args...)]: the rows it stamps and, of
    them, the ones that were live. *)
Definition revokeRefresh (p : TokenRow -> bool) (at_ : time) : Q Tables Z :=
  n ← stmt "sqlite: revoke refresh tokens" (fun db =>
    (set_tokens (revoke_where p at_ (refresh_tokens db)) db, count_live p (refresh_tokens db)));
  after "sqlite: revoke refresh tokens" n.

Definition sqlite_RevokeRefreshFamily (f : string) (at_ : time) : storeOp DB (Z * option error) :=
  method 0 (
    n ← revokeRefresh (in_family f) at_;
    if 0 <? n then mret (n, None)
    else
      exists_ ← stmt "sqlite: look up refresh family" (fun db => (db, family_exists f (refresh_tokens db)));
      mret (if (exists_ : bool) then (0, None) else (0, Some (Errorf f (Sentinel ErrSessionNotFound))))).

Definition email_matches (email : string) (r : TokenRow) : bool :=
  (ascii_lower (rt_Email (tr_refresh r)) =? ascii_lower email)%string.

Definition subject_matches (connectorID subject : string) (r : TokenRow) : bool :=
  (rt_ConnectorID (tr_refresh r) =? connectorID)%string && (rt_Subject (tr_refresh r) =? subject)%string.

Definition sqlite_RevokeRefreshByEmail (email : string) (at_ : time) : storeOp DB (Z * option error) :=
  method 0 (n ← revokeRefresh (email_matches email) at_; mret (n, None)).

Definition sqlite_RevokeRefreshBySubject (connectorID subject : string) (at_ : time) :
    storeOp DB (Z * option error) :=
  method 0 (n ← revokeRefresh (subject_matches connectorID subject) at_; mret (n, None)).

Record RefreshSession := mkRefreshSession {
  rs_FamilyID : string; rs_ClientID : string; rs_ConnectorID : string; rs_Subject : string;
  rs_Email : string; rs_AuthTime : time; rs_RotatedAt : time; rs_ExpiresAt : time
}.

Record RefreshSessionFilter := mkSessionFilter { sf_Email : string; sf_ConnectorID : string; sf_Subject : string }.

Definition filter_matches (f : RefreshSessionFilter) (r : TokenRow) : bool :=
  live r
  && ((sf_Email f =? "")%string || email_matches (sf_Email f) r)
  && ((sf_ConnectorID f =? "")%string || (rt_ConnectorID (tr_refresh r) =? sf_ConnectorID f)%string)
  && ((sf_Subject f =? "")%string || (rt_Subject (tr_refresh r) =? sf_Subject f)%string).

Definition refresh_session (r : TokenRow) : RefreshSession :=
  let x := tr_refresh r in
  mkRefreshSession (rt_FamilyID x) (rt_ClientID x) (rt_ConnectorID x) (rt_Subject x) (rt_Email x)
    (rt_AuthTime x) (rt_CreatedAt x) (rt_ExpiresAt x).

(** [ORDER BY email, auth_time]. *)
Definition session_le (a b : RefreshSession) : Prop :=
  String.ltb (rs_Email a) (rs_Email b) = true \/
  (rs_Email a = rs_Email b /\ rs_AuthTime a <= rs_AuthTime b).

#[export] Instance session_le_dec a b : Decision (session_le a b).
Proof. unfold session_le. apply _. Defined.

Definition sqlite_ListRefreshSessions (f : RefreshSessionFilter) (now_ : time) :
    storeOp DB (list RefreshSession * option error) :=
  method [] (
    rows ← stmt "sqlite: list refresh sessions" (fun db =>
      (db, merge_sort session_le
             (refresh_session <$> List.filter (filter_matches f) (map_to_list (refresh_tokens db)).*2)));
    rows ← after "sqlite: list refresh sessions" rows;
    mret (List.filter (fun rs => time_Before now_ (rs_ExpiresAt rs)) rows, None)).

(** ** Device codes (device_codes.go) *)

Definition sqlite_ErrDuplicateDeviceCode : error := Errorf "sqlite duplicate" (Sentinel ErrDuplicateDeviceCode).
Definition sqlite_ErrDeviceCodeNotFound : error := Errorf "sqlite" (Sentinel ErrDeviceCodeNotFound).
Definition sqlite_ErrDeviceCodeNotPending : error := Errorf "sqlite" (Sentinel ErrDeviceCodeNotPending).

Definition with_device_code (c : string) (dc : DeviceCode) : DeviceCode :=
  mkDeviceCode c (dc_UserCode dc) (dc_ClientID dc) (dc_Scope dc) (dc_ConnectorID dc) (dc_Subject dc)
    (dc_Email dc) (dc_ApprovedAt dc) (dc_DeniedAt dc) (dc_LastPolledAt dc) (dc_IntervalSeconds dc)
    (dc_CreatedAt dc) (dc_ExpiresAt dc).

Definition user_code_is (uc : string) (dc : DeviceCode) : bool := (dc_UserCode dc =? uc)%string.

Definition find_user_code (uc : string) (m : gmap string DeviceCode) : option DeviceCode :=
  List.find (user_code_is uc) (map_to_list m).*2.

(** Both the hash and the user code are unique. *)
Definition sql_insert_device (dc : DeviceCode) (t : Tables) : Tables * bool :=
  if bool_decide (is_Some (device_codes t !! Hash (dc_Code dc)))
     || bool_decide (is_Some (find_user_code (dc_UserCode dc) (device_codes t)))
  then (t, true)
  else (set_devices (<[Hash (dc_Code dc) := with_device_code "" dc]> (device_codes t)) t, false).

Definition sql_delete_device (c : string) (t : Tables) : Tables * option DeviceCode :=
  match device_codes t !! Hash c with
  | Some dc => (set_devices (delete (Hash c) (device_codes t)) t, Some dc)
  | None => (t, None)
  end.

Definition sqlite_SaveDeviceCode (dc : DeviceCode) : storeOp DB (option error) := method_ (
  dup ← stmt "sqlite: save device code" (sql_insert_device dc);
  mret (if (dup : bool) then Some sqlite_ErrDuplicateDeviceCode else None)).

Definition lookupDeviceCode (sel : gmap string DeviceCode -> option DeviceCode) (c : string) :
    storeOp DB (DeviceCode * option error) :=
  method zeroDeviceCode (
    row ← stmt "sqlite: lookup device code" (fun db => (db, sel (device_codes db)));
    mret (match row with
          | None => (zeroDeviceCode, Some sqlite_ErrDeviceCodeNotFound)
          | Some dc => (with_device_code c dc, None)
          end)).

Definition sqlite_LookupDeviceCodeByDeviceCode (c : string) : storeOp DB (DeviceCode * option error) :=
  lookupDeviceCode (fun m => m !! Hash c) c.

Definition sqlite_LookupDeviceCodeByUserCode (uc : string) : storeOp DB (DeviceCode * option error) :=
  lookupDeviceCode (find_user_code uc) "".

Definition set_polled (t : time) (bump : Z) (dc : DeviceCode) : DeviceCode :=
  mkDeviceCode (dc_Code dc) (dc_UserCode dc) (dc_ClientID dc) (dc_Scope dc) (dc_ConnectorID dc)
    (dc_Subject dc) (dc_Email dc) (dc_ApprovedAt dc) (dc_DeniedAt dc) (Some t)
    (dc_IntervalSeconds dc + bump) (dc_CreatedAt dc) (dc_ExpiresAt dc).

(** [!lastPolled.Valid || now.Sub(last) >= time.Duration(interval)*time.Second],
    the product wrapping at 64 bits. *)
Definition well_paced (lastPolled : option time) (interval : Z) (now_ : time) : bool :=
  match lastPolled with
  | None => true
  | Some l => wrap64 (interval * Second) <=? time_Sub now_ l
  end.

(** The three statements of [PollDeviceCode]. *)
Definition poll_read (h : string) (db : Tables) : Tables * option (option time * Z) :=
  (db, match device_codes db !! h with
       | None => None
       | Some dc => Some (dc_LastPolledAt dc, dc_IntervalSeconds dc)
       end).

Definition poll_swap (h : string) (prev : option time) (now_ : time) (db : Tables) : Tables * Z :=
  match device_codes db !! h with
  | Some dc =>
      if bool_decide (dc_LastPolledAt dc = prev)
      then (set_devices (<[h := set_polled now_ 0 dc]> (device_codes db)) db, 1) else (db, 0)
  | None => (db, 0)
  end.

Definition poll_slow (h : string) (now_ : time) (db : Tables) : Tables * unit :=
  match device_codes db !! h with
  | Some dc => (set_devices (<[h := set_polled now_ 5 dc]> (device_codes db)) db, tt)
  | None => (db, tt)
  end.

Definition slow_down (h : string) (now_ : time) : Q Tables (bool * option error) :=
  stmt "sqlite: poll device code slow_down" (poll_slow h now_) ≫= fun _ => mret (true, None).

Definition sqlite_PollDeviceCode (c : string) (now_ : time) : storeOp DB (bool * option error) :=
  method false (
    row ← stmt "sqlite: poll device code" (poll_read (Hash c));
    match row with
    | None => mret (false, Some sqlite_ErrDeviceCodeNotFound)
    | Some (lastPolled, interval) =>
        if well_paced lastPolled interval now_ then
          n ← stmt "sqlite: poll device code" (poll_swap (Hash c) lastPolled now_);
          n ← after "sqlite: poll device code" n;
          if (n : Z) =? 1 then mret (false, None) else slow_down (Hash c) now_
        else slow_down (Hash c) now_
    end).

Definition is_pending (dc : DeviceCode) : bool :=
  bool_decide (dc_ApprovedAt dc = None) && bool_decide (dc_DeniedAt dc = None).

(** [UPDATE device_codes SET ... WHERE hit]: the rows affected. *)
Definition sql_stamp_devices (hit : DeviceCode -> bool) (stamp : DeviceCode -> DeviceCode) (t : Tables) : Tables * Z :=
  (set_devices ((fun dc => if hit dc then stamp dc else dc) <$> device_codes t) t,
   Z.of_nat (length (List.filter hit (map_to_list (device_codes t)).*2))).

(** [s.decideDeviceCode(ctx, now, stmt, args, userCode)] with the stamp its
    UPDATE applies to a pending row. *)
Definition decideDeviceCode (now_ : time) (stamp : DeviceCode -> DeviceCode) (uc : string) : Q Tables (option error) :=
  expiresAt ← stmt "sqlite: decide device code" (fun db =>
    (db, option_map dc_ExpiresAt (find_user_code uc (device_codes db))));
  match expiresAt with
  | None => mret (Some sqlite_ErrDeviceCodeNotPending)
  | Some expiresAt =>
      if negb (time_Before now_ expiresAt) then mret (Some (Errorf "expired" sqlite_ErrDeviceCodeNotPending))
      else
        n ← stmt "sqlite: decide device code" (fun db =>
          sql_stamp_devices (fun dc => user_code_is uc dc && is_pending dc) stamp db);
        n ← after "sqlite: decide device code rows" n;
        mret (if (n : Z) =? 0 then Some sqlite_ErrDeviceCodeNotPending else None)
  end.

Definition approve_stamp (id : Identity) (t : time) (dc : DeviceCode) : DeviceCode :=
  mkDeviceCode (dc_Code dc) (dc_UserCode dc) (dc_ClientID dc) (dc_Scope dc) (id_ConnectorID id)
    (id_Subject id) (id_Email id) (Some t) (dc_DeniedAt dc) (dc_LastPolledAt dc)
    (dc_IntervalSeconds dc) (dc_CreatedAt dc) (dc_ExpiresAt dc).

Definition deny_stamp (t : time) (dc : DeviceCode) : DeviceCode :=
  mkDeviceCode (dc_Code dc) (dc_UserCode dc) (dc_ClientID dc) (dc_Scope dc) (dc_ConnectorID dc)
    (dc_Subject dc) (dc_Email dc) (dc_ApprovedAt dc) (Some t) (dc_LastPolledAt dc)
    (dc_IntervalSeconds dc) (dc_CreatedAt dc) (dc_ExpiresAt dc).

Definition sqlite_ApproveDeviceCode (uc : string) (id : Identity) (now_ : time) : storeOp DB (option error) :=
  method_ (decideDeviceCode now_ (approve_stamp id now_) uc).

Definition sqlite_DenyDeviceCode (uc : string) (now_ : time) : storeOp DB (option error) :=
  method_ (decideDeviceCode now_ (deny_stamp now_) uc).

Definition sqlite_ConsumeDeviceCode (c : string) : storeOp DB (DeviceCode * option error) :=
  method zeroDeviceCode (
    row ← stmt "sqlite: consume device code" (sql_delete_device c);
    mret (match row with
          | None => (zeroDeviceCode, Some sqlite_ErrDeviceCodeNotFound)
          | Some dc => (with_device_code c dc, None)
          end)).

(** ** Browser sessions (browser_sessions.go) *)

Definition with_sid (sid : string) (bs : BrowserSession) : BrowserSession :=
  mkBrowserSession sid (bs_ConnectorID bs) (bs_Subject bs) (bs_Email bs) (bs_CreatedAt bs) (bs_ExpiresAt bs).

Definition sql_insert_session (bs : BrowserSession) (t : Tables) : Tables * bool :=
  match browser_sessions t !! Hash (bs_SID bs) with
  | Some _ => (t, true)
  | None => (set_sessions (<[Hash (bs_SID bs) := with_sid "" bs]> (browser_sessions t)) t, false)
  end.

Definition sql_delete_session (sid : string) (t : Tables) : Tables * unit :=
  (set_sessions (delete (Hash sid) (browser_sessions t)) t, tt).

Definition sqlite_SaveBrowserSession (bs : BrowserSession) : storeOp DB (option error) := method_ (
  dup ← stmt "sqlite: save browser session" (sql_insert_session bs);
  mret (if (dup : bool) then Some (Sentinel ErrDuplicateBrowserSession) else None)).

Definition sqlite_LookupBrowserSession (sid : string) : storeOp DB (BrowserSession * option error) :=
  method zeroBrowserSession (
    row ← stmt "sqlite: lookup browser session" (fun db => (db, browser_sessions db !! Hash sid));
    mret (match row with
          | None => (zeroBrowserSession, Some (Sentinel ErrBrowserSessionNotFound))
          | Some bs => (with_sid sid bs, None)
          end)).

Definition sqlite_DeleteBrowserSession (sid : string) : storeOp DB (option error) := method_ (
  stmt "sqlite: delete browser session" (sql_delete_session sid) ≫= fun _ => mret None).

(** ** Keypairs (keypair.go) *)

(** [ORDER BY created_at ASC, kid ASC]. The column holds Go time strings, all
    in UTC at the same precision, which order like the instants. *)
Definition sql_insert_keypair (kp : Keypair) (t : Tables) : Tables * bool :=
  match keypairs t !! Kid kp with
  | Some _ => (t, true)
  | None =>
      let row := mkKeypair (Kid kp) (Alg kp) (PrivatePEM kp) (PublicPEM kp) (CreatedAt kp) None in
      (set_keypairs (<[Kid kp := row]> (keypairs t)) t, false)
  end.

(** [UPDATE keypairs SET private_pem = ? WHERE kid = ?]: rows affected. *)
Definition sql_update_pem (kid pem : string) (t : Tables) : Tables * Z :=
  match keypairs t !! kid with
  | Some kp => (set_keypairs (<[kid := set_PrivatePEM kp pem]> (keypairs t)) t, 1)
  | None => (t, 0)
  end.

Definition sqlite_SaveKeypair (kp : Keypair) : storeOp DB (option error) := method_ (
  dup ← stmt "sqlite: save keypair" (sql_insert_keypair kp);
  mret (if (dup : bool) then Some (Errorf (Kid kp) (Sentinel ErrDuplicateKid)) else None)).

Definition sqlite_LoadKeypairs : storeOp DB (list Keypair * option error) :=
  method [] (
    rows ← stmt "sqlite: load keypairs" (fun db => (db, sortByCreatedAt (map_to_list (keypairs db)).*2));
    rows ← after "sqlite: rows" rows;
    mret (rows, None)).

Definition sqlite_UpdateKeypairPrivatePEM (kid pem : string) : storeOp DB (option error) := method_ (
  n ← stmt "sqlite: update keypair" (sql_update_pem kid pem);
  n ← after "sqlite: update keypair" n;
  mret (if (n : Z) =? 0 then Some (Opaque "sqlite: update keypair: no keypair with this kid") else None)).

Definition set_retired (t : time) (kp : Keypair) : Keypair :=
  mkKeypair (Kid kp) (Alg kp) (PrivatePEM kp) (PublicPEM kp) (CreatedAt kp) (Some t).

(** [EXISTS (SELECT 1 FROM keypairs WHERE kid <> ? AND retired_at IS NULL)]. *)
Definition other_active (kid : string) (m : gmap string Keypair) : bool :=
  existsb (fun kp => negb (Kid kp =? kid)%string && negb (Retired kp)) (map_to_list m).*2.

Definition sqlite_RetireKeypair (kid : string) (at_ : time) : storeOp DB (Keypair * option error) :=
  method zeroKeypair (
    changed ← stmt "sqlite: retire keypair" (fun db =>
      match keypairs db !! kid with
      | Some kp =>
          if negb (Retired kp) && other_active kid (keypairs db)
          then (set_keypairs (<[kid := set_retired at_ kp]> (keypairs db)) db, 1) else (db, 0)
      | None => (db, 0)
      end);
    changed ← after "sqlite: retire keypair" changed;
    row ← stmt "sqlite: scan keypair" (fun db => (db, keypairs db !! kid));
    mret (match row with
          | None => (zeroKeypair, Some (Errorf kid (Sentinel ErrKeypairNotFound)))
          | Some kp =>
              if ((changed : Z) =? 0) && negb (Retired kp)
              then (zeroKeypair, Some (Errorf kid (Sentinel ErrLastActiveKeypair))) else (kp, None)
          end)).

(** ** Integration keys and the denylist (integration_keys.go, jti_denylist.go) *)

Record ListFilter := mkListFilter { lf_Owner : string; lf_Namespace : string; lf_Limit : Z; lf_Cursor : string }.

Definition defaultListLimit : Z := 50.

(** [CHECK (role IN (...))], [PRIMARY KEY (id)], [jti ... UNIQUE]. *)
Definition ikey_roles : list string := ["read"; "write"; "worker"; "admin"].

Definition ikey_conflict (k : IntegrationKey) (m : gmap string IntegrationKey) : bool :=
  negb (bool_decide (ik_Role k ∈ ikey_roles))
  || bool_decide (is_Some (m !! ik_ID k))
  || existsb (fun k' => (ik_JTI k' =? ik_JTI k)%string) (map_to_list m).*2.

Definition sql_insert_ikey (k : IntegrationKey) (t : Tables) : Tables * bool :=
  if ikey_conflict k (integration_keys t) then (t, true)
  else (set_ikeys (<[ik_ID k := k]> (integration_keys t)) t, false).

Definition sqlite_SaveIntegrationKey (k : IntegrationKey) : storeOp DB (option error) := method_ (
  dup ← stmt "sqlite: save integration key" (sql_insert_ikey k);
  mret (if (dup : bool) then Some (Errorf "sqlite: save integration key" driver) else None)).

Definition sqlite_IntegrationKeyByID (id : string) : storeOp DB (IntegrationKey * option error) :=
  method zeroIntegrationKey (
    row ← stmt "sqlite: integration key by id" (fun db => (db, integration_keys db !! id));
    mret (match row with
          | None => (zeroIntegrationKey, Some (Errorf id (Sentinel ErrIntegrationKeyNotFound)))
          | Some k => (k, None)
          end)).

(** [ORDER BY id DESC]. *)
Definition id_ge (a b : IntegrationKey) : Prop := String.leb (ik_ID b) (ik_ID a) = true.

#[export] Instance id_ge_dec a b : Decision (id_ge a b).
Proof. unfold id_ge. apply _. Defined.

Definition list_matches (f : ListFilter) (k : IntegrationKey) : bool :=
  ((lf_Owner f =? "")%string || (ik_Owner k =? lf_Owner f)%string)
  && ((lf_Namespace f =? "")%string || (ik_Namespace k =? lf_Namespace f)%string)
  && ((lf_Cursor f =? "")%string || String.ltb (ik_ID k) (lf_Cursor f)).

Definition sql_list_ikeys (f : ListFilter) (limit : Z) (t : Tables) : Tables * list IntegrationKey :=
  (t, firstn (Z.to_nat (limit + 1))
        (merge_sort id_ge (List.filter (list_matches f) (map_to_list (integration_keys t)).*2))).

Definition sqlite_ListIntegrationKeys (f : ListFilter) : storeOp DB (list IntegrationKey * option error) :=
  let limit := if lf_Limit f <=? 0 then defaultListLimit else lf_Limit f in
  method [] (
    rows ← stmt "sqlite: list integration keys" (sql_list_ikeys f limit);
    rows ← after "sqlite: rows" rows;
    mret (rows, None)).

Definition set_revoked (t : time) (k : IntegrationKey) : IntegrationKey :=
  mkIntegrationKey (ik_ID k) (ik_Namespace k) (ik_Role k) (ik_Owner k) (ik_JTI k) (ik_CreatedAt k)
    (ik_ExpiresAt k) (match ik_RevokedAt k with None => Some t | Some r => Some r end).

(** [INSERT INTO jti_denylist ... ON CONFLICT (jti) DO NOTHING]. *)
Definition sql_denylist (jti : string) (at_ : time) (t : Tables) : Tables * unit :=
  match jti_denylist t !! jti with
  | Some _ => (t, tt)
  | None => (set_denylist (<[jti := at_]> (jti_denylist t)) t, tt)
  end.

Definition sqlite_MarkIntegrationKeyRevoked (id : string) (at_ : time) : storeOp DB (string * option error) :=
  method "" (transaction "sqlite: begin tx for mark revoked" "sqlite: commit mark revoked" (
    jti ← tx_stmt "sqlite: mark revoked" (fun db => (db, option_map ik_JTI (integration_keys db !! id)));
    match jti with
    | None => mret ("", Some (Errorf id (Sentinel ErrIntegrationKeyNotFound)))
    | Some jti =>
        tx_stmt "sqlite: mark revoked update" (fun db =>
          (set_ikeys (alter (set_revoked at_) id (integration_keys db)) db, tt)) ≫= fun _ =>
        tx_stmt "sqlite: mark revoked denylist insert" (sql_denylist jti at_) ≫= fun _ =>
        mret (jti, None)
    end)).

Definition sqlite_IsRevoked (jti : string) : storeOp DB (bool * option error) :=
  method false (
    row ← stmt "sqlite: is jti revoked" (fun db => (db, bool_decide (is_Some (jti_denylist db !! jti))));
    mret (row, None)).

(** ** The interfaces it implements *)

#[export] Instance sqlite_AuthRequestStore : AuthRequestStore DB := {
  SaveAuthRequest := sqlite_SaveAuthRequest
}.
#[export] Instance sqlite_CallbackStore : CallbackStore DB := {
  ConsumeAuthRequest := sqlite_ConsumeAuthRequest;
  SaveAuthCode := sqlite_SaveAuthCode
}.
#[export] Instance sqlite_TokenStore : TokenStore DB := {
  ConsumeAuthCode := sqlite_ConsumeAuthCode;
  SaveRefresh := sqlite_SaveRefresh;
  ConsumeRefresh := sqlite_ConsumeRefresh;
  RevokeRefreshFamily := sqlite_RevokeRefreshFamily
}.
#[export] Instance sqlite_DeviceCodeStore : DeviceCodeStore DB := {
  SaveDeviceCode := sqlite_SaveDeviceCode;
  LookupDeviceCodeByDeviceCode := sqlite_LookupDeviceCodeByDeviceCode;
  LookupDeviceCodeByUserCode := sqlite_LookupDeviceCodeByUserCode;
  PollDeviceCode := sqlite_PollDeviceCode;
  ApproveDeviceCode := sqlite_ApproveDeviceCode;
  DenyDeviceCode := sqlite_DenyDeviceCode;
  ConsumeDeviceCode := sqlite_ConsumeDeviceCode
}.
#[export] Instance sqlite_BrowserSessionStore : BrowserSessionStore DB := {
  SaveBrowserSession := sqlite_SaveBrowserSession;
  LookupBrowserSession := sqlite_LookupBrowserSession;
  DeleteBrowserSession := sqlite_DeleteBrowserSession
}.
#[export] Instance sqlite_KeyStore : KeyStore DB := {
  SaveKeypair := sqlite_SaveKeypair;
  LoadKeypairs := sqlite_LoadKeypairs;
  RetireKeypair := sqlite_RetireKeypair
}.
