(* ===== verification/Reaper.v ===== *)
(** * Reaping expired state (state/sqlite/reaper.go)

    The sweep that deletes expired rows, whole refresh-token families and
    denylist rows, a batch per statement, each statement interleaving with other
    requests like any other. SQLite gives every row of a table a distinct rowid,
    which orders the walk. *)

From S2P Require Import Prelude GoStrings GoErrors Oidc Keys Sessions Sql Sqlite.

(** The rowids of the walked tables: positive, and distinct within a table. *)
Class RowIDs := {
  rowid : string -> string -> Z;
  rowid_pos table k : 0 < rowid table k;
  rowid_inj table k k' : rowid table k = rowid table k' -> k = k'
}.

Definition defaultReapBatchSize : Z := 500.
Definition denylistGrace : duration := Hour.

Record Reaper := mkReaper { rp_maxLifetime : duration; rp_batch : Z }.

(** [NewReaper(store, WithReaperRefreshMaxLifetime(d), WithReaperBatchSize(n))]. *)
Definition NewReaper (maxLifetime : duration) (batch : Z) : Reaper :=
  mkReaper maxLifetime (if 0 <? batch then batch else defaultReapBatchSize).

(** ** The tables the sweep walks *)

(** A table whose rows are dead once a deadline has passed: the deadlines by
    primary key, and the deletion of the rows that [keep] does not select. *)
Record Table := mkTable {
  tb_name : string;
  tb_deadlines : Tables -> gmap string time;
  tb_keep : (string -> bool) -> Tables -> Tables
}.

Definition keep_rows {A} (keep : string -> bool) (m : gmap string A) : gmap string A :=
  filter (fun kv => keep kv.1 = true) m.

Definition auth_requests_table : Table := mkTable "auth_requests"
  (fun t => ar_ExpiresAt <$> auth_requests t) (fun p t => set_requests (keep_rows p (auth_requests t)) t).
Definition auth_codes_table : Table := mkTable "auth_codes"
  (fun t => (fun r => ac_ExpiresAt (cr_code r)) <$> auth_codes t) (fun p t => set_codes (keep_rows p (auth_codes t)) t).
Definition device_codes_table : Table := mkTable "device_codes"
  (fun t => dc_ExpiresAt <$> device_codes t) (fun p t => set_devices (keep_rows p (device_codes t)) t).
Definition browser_sessions_table : Table := mkTable "browser_sessions"
  (fun t => bs_ExpiresAt <$> browser_sessions t) (fun p t => set_sessions (keep_rows p (browser_sessions t)) t).

Definition expiringTables : list Table :=
  [auth_requests_table; auth_codes_table; device_codes_table; browser_sessions_table].

(** [... JOIN integration_keys k ON k.jti = d.jti WHERE k.expires_at IS NOT NULL]:
    a jti has one key; its row dies a grace after the key's expiry. *)
Definition key_expiry (jti : string) (m : gmap string IntegrationKey) : option time :=
  match List.find (fun k => (ik_JTI k =? jti)%string) (map_to_list m).*2 with
  | Some k => ik_ExpiresAt k
  | None => None
  end.

Definition jti_denylist_table : Table := mkTable "jti_denylist"
  (fun t => map_imap (fun jti _ => option_map (fun e => time_Add e denylistGrace) (key_expiry jti (integration_keys t)))
              (jti_denylist t))
  (fun p t => set_denylist (keep_rows p (jti_denylist t)) t).

Section Sweep.
Context `{RowIDs}.

(** [SELECT rowid, ... WHERE rowid > ? ORDER BY rowid LIMIT ?]. *)
Definition by_rowid (table : string) {A} (a b : string * A) : Prop := rowid table a.1 <= rowid table b.1.

#[export] Instance by_rowid_dec table {A} (a b : string * A) : Decision (by_rowid table a b).
Proof. unfold by_rowid. apply _. Defined.

Definition past {A} (table : string) (cursor : Z) (m : gmap string A) : list (string * A) :=
  List.filter (fun kv => cursor <? rowid table kv.1) (map_to_list m).

Definition read_page {A} (table : string) (limit : Z) (m : gmap string A) (cursor : Z) : list (string * A) :=
  firstn (Z.to_nat limit) (merge_sort (by_rowid table) (past table cursor m)).

(** [r.pages(ctx, query, scan, flush)] over the rows [rows] selects, threading what
    [scan] and [flush] accumulate; the cursor is the last rowid read. *)
Fixpoint pages {A Acc} (fuel : nat) (limit : Z) (table : string) (rows : Tables -> gmap string A)
    (flush : Acc -> list (string * A) -> Q Tables Acc) (cursor : Z) (acc : Acc) (db : DB) : DB * (Acc * option error) :=
  match fuel with
  | O => (db, (acc, Some (Opaque "fuel")))
  | S fuel =>
      match (p ← stmt "query" (fun t => (t, read_page table limit (rows t) cursor)); after "rows" p) db with
      | (db, inl e) => (db, (acc, Some e))
      | (db, inr p) =>
          match flush acc p db with
          | (db, inl e) => (db, (acc, Some e))
          | (db, inr acc) =>
              if Z.of_nat (length p) <? limit then (db, (acc, None))
              else pages fuel limit table rows flush
                     (match last p with Some kv => rowid table kv.1 | None => cursor end) acc db
          end
      end
  end.

(** [r.deleteIn(ctx, stmt, args)]: the rows deleted. *)
Definition deleteIn (del : list string -> Tables -> Tables) (count : list string -> Tables -> Z) (args : list string) :
    Q Tables Z :=
  if bool_decide (args = []) then mret 0
  else n ← stmt "delete" (fun t => (del args t, count args t)); after "rows affected" n.

Definition drop_keys (tb : Table) (keys : list string) (t : Tables) : Tables :=
  tb_keep tb (fun k => negb (bool_decide (k ∈ keys))) t.

Definition count_keys (tb : Table) (keys : list string) (t : Tables) : Z :=
  Z.of_nat (length (List.filter (fun kv => bool_decide (kv.1 ∈ keys)) (map_to_list (tb_deadlines tb t)))).

(** [r.reapExpired(ctx, table, now)], and [r.reapDenylist(ctx, now)]. *)
Definition expired_keys (now_ : time) (p : list (string * time)) : list string :=
  (List.filter (fun kv => time_After now_ kv.2) p).*1.

Definition reapExpired (r : Reaper) (fuel : nat) (tb : Table) (now_ : time) (db : DB) : DB * (Z * option error) :=
  pages fuel (rp_batch r) (tb_name tb) (tb_deadlines tb)
    (fun deleted p => n ← deleteIn (drop_keys tb) (count_keys tb) (expired_keys now_ p); mret (deleted + n)) 0 0 db.

(** A refresh token that no longer matters. *)
Definition dead_token (r : Reaper) (now_ : time) (row : TokenRow) : bool :=
  let ended := (0 <? rp_maxLifetime r) && negb (time_Before now_ (time_Add (rt_AuthTime (tr_refresh row)) (rp_maxLifetime r))) in
  let spent := consumed row || revoked row in
  ended || (spent && time_After now_ (rt_ExpiresAt (tr_refresh row))).

(** [seen[family] = seen[family] || !dead]. *)
Definition see (r : Reaper) (now_ : time) (seen : gmap string bool) (kv : string * TokenRow) : gmap string bool :=
  let f := row_family kv.2 in
  <[f := default false (seen !! f) || negb (dead_token r now_ kv.2)]> seen.

Definition drop_families (fams : list string) (t : Tables) : Tables :=
  set_tokens (filter (fun kv => bool_decide (row_family kv.2 ∈ fams) = false) (refresh_tokens t)) t.

Definition count_families (fams : list string) (t : Tables) : Z :=
  Z.of_nat (length (List.filter (fun kv => bool_decide (row_family kv.2 ∈ fams)) (map_to_list (refresh_tokens t)))).

(** The deletions, a chunk of families per statement. *)
Fixpoint delete_chunks (fuel : nat) (batch : Z) (fams : list string) (deleted : Z) (db : DB) : DB * (Z * option error) :=
  match fuel, fams with
  | _, [] => (db, (deleted, None))
  | O, _ => (db, (deleted, Some (Opaque "fuel")))
  | S fuel, _ =>
      let chunk := firstn (Z.to_nat batch) fams in
      match deleteIn drop_families count_families chunk db with
      | (db, inl e) => (db, (deleted, Some e))
      | (db, inr n) => delete_chunks fuel batch (skipn (Z.to_nat batch) fams) (deleted + n) db
      end
  end.

(** [r.reapRefreshFamilies(ctx, now)]. *)
Definition dead_families (seen : gmap string bool) : list string :=
  (List.filter (fun kv => negb kv.2) (map_to_list seen)).*1.

Definition reapRefreshFamilies (r : Reaper) (fuel : nat) (now_ : time) (db : DB) : DB * (Z * option error) :=
  match pages fuel (rp_batch r) "refresh_tokens" refresh_tokens
          (fun seen p => mret (foldl (see r now_) seen p)) 0 ∅ db with
  | (db, (_, Some e)) => (db, (0, Some e))
  | (db, (seen, None)) => delete_chunks fuel (rp_batch r) (dead_families seen) 0 db
  end.

(** [r.Reap(ctx)]: a failure on one table does not stop the others. *)
Definition count_of (table : string) (res : DB * (Z * option error)) (counts : list (string * Z)) (errs : list error) :
    DB * (list (string * Z) * list error) :=
  let '(db, (n, e)) := res in
  (db, (counts ++ [(table, n)],
        match e with Some e => errs ++ [Errorf ("sqlite: reap " +:+ table) e] | None => errs end)).

Fixpoint reap_tables (r : Reaper) (fuel : nat) (now_ : time) (tbs : list Table) (counts : list (string * Z))
    (errs : list error) (db : DB) : DB * (list (string * Z) * list error) :=
  match tbs with
  | [] => (db, (counts, errs))
  | tb :: tbs =>
      let '(db, (counts, errs)) := count_of (tb_name tb) (reapExpired r fuel tb now_ db) counts errs in
      reap_tables r fuel now_ tbs counts errs db
  end.

Definition Reap (r : Reaper) (fuel : nat) (now_ : time) (db : DB) : DB * (list (string * Z) * list error) :=
  let '(db, (counts, errs)) := reap_tables r fuel now_ expiringTables [] [] db in
  let '(db, (counts, errs)) := count_of "refresh_tokens" (reapRefreshFamilies r fuel now_ db) counts errs in
  count_of "jti_denylist" (reapExpired r fuel jti_denylist_table now_ db) counts errs.

End Sweep.
