(* ===== verification/ReaperFacts.v ===== *)
(** * Reaping: theorems

    A sweep that nothing disturbs deletes exactly the dead rows, whatever the
    batch size, and ends; what it deletes no reader would have accepted, and a
    family with a usable token keeps every tombstone. A rotation caught between
    its two statements is not protected, as a run at the end shows. *)

From S2P Require Import Prelude GoStrings GoErrors Oidc Keys Sessions Sql Sqlite Reaper.

(** ** The walk *)

Section Walk.
Context `{RowIDs}.

Lemma stmt_quiet {T A} msg (f : T -> T * A) t : stmt msg f (mkDB t []) = (mkDB (f t).1 [], inr (f t).2).
Proof. unfold stmt, run_stmt. cbn. by destruct (f t). Qed.

Definition sorted_past {A} (table : string) (cursor : Z) (m : gmap string A) : list (string * A) :=
  merge_sort (by_rowid table) (past table cursor m).

Definition row_lt {A} (table : string) (a b : string * A) : Prop := rowid table a.1 < rowid table b.1.

#[local] Instance by_rowid_trans table A : Transitive (@by_rowid _ table A).
Proof. intros a b c. unfold by_rowid. lia. Qed.
#[local] Instance by_rowid_total table A : Total (@by_rowid _ table A).
Proof. intros a b. unfold by_rowid. lia. Qed.
#[local] Instance row_lt_antisym table A : AntiSymm eq (@row_lt A table).
Proof. intros a b. unfold row_lt. lia. Qed.

Lemma elem_past {A} table cursor (m : gmap string A) k x :
  (k, x) ∈ past table cursor m <-> m !! k = Some x /\ cursor < rowid table k.
Proof.
  unfold past. rewrite list_elem_of_In, filter_In, <- list_elem_of_In, elem_of_map_to_list. cbn. by rewrite Z.ltb_lt.
Qed.

Lemma elem_sorted_past {A} table cursor (m : gmap string A) k x :
  (k, x) ∈ sorted_past table cursor m <-> m !! k = Some x /\ cursor < rowid table k.
Proof. unfold sorted_past. rewrite merge_sort_Permutation. apply elem_past. Qed.

Lemma NoDup_past {A} table cursor (m : gmap string A) : NoDup (past table cursor m).*1.
Proof.
  unfold past. pose proof (NoDup_fst_map_to_list m) as Hnd. revert Hnd. induction (map_to_list m) as [|[k x] l IH]; [constructor|].
  cbn. intros [Hk Hl]%NoDup_cons. destruct (_ <? _); [|auto]. cbn. constructor; [|auto].
  intros ([k' x'] & -> & Hin)%list_elem_of_fmap. apply Hk. apply list_elem_of_fmap. exists (k', x'). split; [done|].
  rewrite list_elem_of_In in Hin |- *. by apply filter_In in Hin as [? _].
Qed.

Lemma sorted_past_NoDup {A} table cursor (m : gmap string A) : NoDup (sorted_past table cursor m).*1.
Proof. unfold sorted_past. rewrite merge_sort_Permutation. apply NoDup_past. Qed.

Lemma sorted_strict_rows {A} table (l : list (string * A)) :
  StronglySorted (by_rowid table) l -> NoDup l.*1 -> StronglySorted (row_lt table) l.
Proof.
  induction 1 as [|x l Hl IH Hx]; [constructor|]. cbn. intros [Hn Hnd]%NoDup_cons. constructor; [auto|].
  rewrite List.Forall_forall in *. intros y Hy. pose proof (Hx y Hy) as Hle. unfold row_lt, by_rowid in *.
  destruct (decide (rowid table x.1 = rowid table y.1)) as [E|E]; [|lia]. apply rowid_inj in E.
  destruct Hn. rewrite E. apply list_elem_of_fmap. exists y. split; [done|]. by apply list_elem_of_In.
Qed.

Lemma sorted_past_strict {A} table cursor (m : gmap string A) : StronglySorted (row_lt table) (sorted_past table cursor m).
Proof. apply sorted_strict_rows; [apply StronglySorted_merge_sort; apply _|apply sorted_past_NoDup]. Qed.

Lemma NoDup_rows {A} (l : list (string * A)) : NoDup l.*1 -> NoDup l.
Proof. apply NoDup_fmap_1. Qed.

(** A strictly sorted list is its elements. *)
Lemma sorted_ext {A} table (l l' : list (string * A)) :
  StronglySorted (row_lt table) l -> StronglySorted (row_lt table) l' -> NoDup l -> NoDup l' ->
  (forall kx, kx ∈ l <-> kx ∈ l') -> l = l'.
Proof.
  intros Hs Hs' Hn Hn' He. apply (StronglySorted_unique (row_lt table)); [done|done|]. by apply NoDup_Permutation.
Qed.

Lemma sorted_past_ext {A} table cursor (m m' : gmap string A) :
  (forall k, cursor < rowid table k -> m !! k = m' !! k) -> sorted_past table cursor m = sorted_past table cursor m'.
Proof.
  intros Hm. apply (sorted_ext table); [apply sorted_past_strict|apply sorted_past_strict|apply NoDup_rows, sorted_past_NoDup..|].
  intros [k x]. rewrite !elem_sorted_past. split; intros [E Hc]; (split; [|done]); by rewrite Hm in * .
Qed.

Lemma sorted_app_lt {A} table (l1 l2 : list (string * A)) a b :
  StronglySorted (row_lt table) (l1 ++ l2) -> a ∈ l1 -> b ∈ l2 -> row_lt table a b.
Proof.
  induction l1 as [|x l1 IH]; cbn; intros Hs Ha Hb; [by apply not_elem_of_nil in Ha|].
  inversion Hs as [|? ? Hs' Hall]; subst. apply elem_of_cons in Ha as [->|Ha]; [|by apply IH].
  rewrite List.Forall_forall in Hall. apply Hall. apply list_elem_of_In. apply elem_of_app. by right.
Qed.

(** After a page that ends at [kv], the walk goes on with the rest. *)
Lemma sorted_past_rest {A} table cursor (m : gmap string A) l1 kv l2 :
  sorted_past table cursor m = (l1 ++ [kv]) ++ l2 -> sorted_past table (rowid table kv.1) m = l2.
Proof.
  intros E. pose proof (sorted_past_strict table cursor m) as Hs. pose proof (NoDup_rows _ (sorted_past_NoDup table cursor m)) as Hn.
  rewrite E in Hs, Hn. apply (sorted_ext table); [apply sorted_past_strict| |apply NoDup_rows, sorted_past_NoDup|by apply NoDup_app in Hn as (_ & _ & ?)|].
  { clear -Hs. induction (l1 ++ [kv]) as [|x l IH]; [done|]. apply IH. cbn in Hs. by inversion Hs. }
  intros [k x]. rewrite elem_sorted_past. split.
  - intros [Hk Hlt]. assert ((k, x) ∈ sorted_past table cursor m) as Hin.
    { apply elem_sorted_past. split; [done|]. assert (kv ∈ sorted_past table cursor m) as Hkv by (rewrite E; set_solver).
      destruct kv as [k0 x0]. apply elem_sorted_past in Hkv as [_ ?]. cbn in Hlt. lia. }
    rewrite E in Hin. apply elem_of_app in Hin as [Hin|Hin]; [|done]. exfalso.
    apply elem_of_app in Hin as [Hin|Hin].
    + rewrite <- app_assoc in Hs. pose proof (sorted_app_lt table l1 ([kv] ++ l2) (k, x) kv Hs Hin ltac:(set_solver)) as Hl.
      unfold row_lt in Hl. cbn in Hl. lia.
    + apply list_elem_of_singleton in Hin as <-. cbn in Hlt. lia.
  - intros Hin. assert ((k, x) ∈ sorted_past table cursor m) as Hin2 by (rewrite E; set_solver).
    apply elem_sorted_past in Hin2 as [Hk _]. split; [done|].
    exact (sorted_app_lt table (l1 ++ [kv]) l2 kv (k, x) Hs ltac:(set_solver) Hin).
Qed.

(** A walk nobody disturbs visits every row once, in order. *)
Lemma pages_run {A Acc} limit table (rows : Tables -> gmap string A) (flush : Acc -> list (string * A) -> Q Tables Acc)
    (I : list (string * A) -> Tables -> Acc -> Prop) :
  0 < limit ->
  (forall done_ t acc p, I done_ t acc -> NoDup p.*1 -> (forall kv, kv ∈ p -> rows t !! kv.1 = Some kv.2) ->
     exists t' acc', flush acc p (mkDB t []) = (mkDB t' [], inr acc') /\
     I (done_ ++ p) t' acc' /\ forall k, k ∉ p.*1 -> rows t' !! k = rows t !! k) ->
  forall fuel cursor done_ t acc, I done_ t acc -> (length (sorted_past table cursor (rows t)) < fuel)%nat ->
  exists t' acc', pages fuel limit table rows flush cursor acc (mkDB t []) = (mkDB t' [], (acc', None)) /\
    I (done_ ++ sorted_past table cursor (rows t)) t' acc'.
Proof.
  intros Hl Hf. induction fuel as [|fuel IH]; intros cursor done_ t acc HI Hfuel; [lia|]. cbn [pages].
  unfold mbind, Q_bind. rewrite stmt_quiet. cbn [fst snd]. unfold after. rewrite stmt_quiet. cbn [fst snd].
  pose proof (sorted_past_NoDup table cursor (rows t)) as Hnd.
  assert (forall kv, kv ∈ sorted_past table cursor (rows t) -> rows t !! kv.1 = Some kv.2) as Hin.
  { intros [k x] [? _]%elem_sorted_past. done. }
  unfold read_page. fold (sorted_past table cursor (rows t)).
  pose proof (eq_sym (firstn_skipn (Z.to_nat limit) (sorted_past table cursor (rows t)))) as Esplit.
  pose proof (length_firstn (Z.to_nat limit) (sorted_past table cursor (rows t))) as Hlen.
  remember (firstn (Z.to_nat limit) (sorted_past table cursor (rows t))) as p eqn:Ep.
  remember (skipn (Z.to_nat limit) (sorted_past table cursor (rows t))) as rest eqn:Erest.
  rewrite Esplit in Hnd, Hin. rewrite fmap_app in Hnd. apply NoDup_app in Hnd as (Hnd & Hdisj & _).
  destruct (Hf done_ t acc p HI Hnd) as (t1 & acc1 & Hfl & HI1 & Hrows).
  { intros kv Hkv. apply Hin. set_solver. }
  rewrite Hfl. destruct (Z.of_nat (length p) <? limit) eqn:Hlt.
  { exists t1, acc1. split; [done|]. rewrite Esplit. assert (rest = []) as ->; [|by rewrite app_nil_r].
    subst rest. apply skipn_all2. lia. }
  apply Z.ltb_ge in Hlt. destruct p as [|kv l1 _] using rev_ind; [change (length []) with 0%nat in *; lia|]. rewrite last_snoc.
  pose proof (sorted_past_rest table cursor (rows t) l1 kv rest Esplit) as Hrest.
  assert (sorted_past table (rowid table kv.1) (rows t1) = rest) as Hrest1.
  { rewrite <- Hrest. apply sorted_past_ext. intros k Hk. apply Hrows. intros Hkp.
    apply list_elem_of_fmap in Hkp as (kv' & -> & Hkv'). apply elem_of_app in Hkv' as [Hkv'|Hkv'].
    - pose proof (sorted_past_strict table cursor (rows t)) as Hs. rewrite Esplit, <- app_assoc in Hs.
      pose proof (sorted_app_lt table l1 ([kv] ++ rest) kv' kv Hs Hkv' ltac:(set_solver)) as Hc. unfold row_lt in Hc. lia.
    - apply list_elem_of_singleton in Hkv' as ->. lia. }
  destruct (IH (rowid table kv.1) _ t1 acc1 HI1) as (t2 & acc2 & Hpg & HI2).
  { rewrite Hrest1. rewrite Esplit in Hfuel. rewrite !length_app in Hfuel. cbn in Hfuel. lia. }
  exists t2, acc2. rewrite Hpg. split; [done|]. rewrite Hrest1 in HI2. by rewrite Esplit, app_assoc.
Qed.

(** From the start of a table: all of its rows. *)
Definition in_order {A} (table : string) (m : gmap string A) : list (string * A) := sorted_past table 0 m.

Lemma in_order_elem {A} table (m : gmap string A) k x : (k, x) ∈ in_order table m <-> m !! k = Some x.
Proof. unfold in_order. rewrite elem_sorted_past. pose proof (rowid_pos table k). tauto. Qed.

Lemma in_order_length {A} table (m : gmap string A) : length (in_order table m) = size m.
Proof.
  rewrite <- (length_map_to_list m). apply Permutation_length, NoDup_Permutation.
  - apply NoDup_rows, sorted_past_NoDup.
  - apply NoDup_map_to_list.
  - intros [k x]. by rewrite in_order_elem, elem_of_map_to_list.
Qed.

(** ** Deleting *)

Lemma length_filter_Permutation {A} (f : A -> bool) l l' : l ≡ₚ l' -> length (List.filter f l) = length (List.filter f l').
Proof. induction 1; cbn; repeat case_match; cbn; lia. Qed.

Lemma count_filter {A} (f : string * A -> bool) (m : gmap string A) :
  Z.of_nat (length (List.filter f (map_to_list m))) = Z.of_nat (size m) - Z.of_nat (size (filter (fun kv => f kv = false) m)).
Proof.
  induction m as [|k x m Hk IH] using map_ind; [by rewrite map_to_list_empty, map_filter_empty|].
  rewrite (length_filter_Permutation f _ _ (map_to_list_insert m k x Hk)), map_size_insert_None by done. cbn.
  destruct (f (k, x)) eqn:E.
  - rewrite map_filter_insert_False by (cbn; congruence). rewrite map_filter_delete, delete_id; [cbn; lia|].
    apply map_lookup_filter_None. by left.
  - rewrite map_filter_insert_True by done. rewrite map_size_insert_None; [lia|]. apply map_lookup_filter_None. by left.
Qed.

Lemma keep_rows_lookup {A} p (m : gmap string A) k : keep_rows p m !! k = if p k then m !! k else None.
Proof.
  unfold keep_rows. rewrite map_lookup_filter. destruct (m !! k); cbn; [|by destruct (p k)].
  destruct (p k) eqn:E; cbn; case_guard; cbn in *; congruence.
Qed.

Lemma keep_rows_keep {A} p q (m : gmap string A) : keep_rows p (keep_rows q m) = keep_rows (fun k => p k && q k) m.
Proof.
  unfold keep_rows. rewrite map_filter_filter. apply map_filter_ext. intros k x _. cbn. by rewrite andb_true_iff.
Qed.

Lemma keep_rows_ext {A} p q (m : gmap string A) : (forall k, is_Some (m !! k) -> p k = q k) -> keep_rows p m = keep_rows q m.
Proof. intros E. apply map_filter_ext. intros k x Hk. cbn. by rewrite E by eauto. Qed.

Lemma keep_rows_all {A} (m : gmap string A) : keep_rows (fun _ => true) m = m.
Proof. by apply map_filter_id. Qed.

Lemma keep_rows_fmap {A B} (f : A -> B) p (m : gmap string A) : f <$> keep_rows p m = keep_rows p (f <$> m).
Proof. unfold keep_rows. by rewrite map_filter_fmap. Qed.

(** What the walk relies on of a table. *)
Class TableLaws (tb : Table) := {
  deadlines_keep p t : tb_deadlines tb (tb_keep tb p t) = keep_rows p (tb_deadlines tb t);
  keep_keep p q t : tb_keep tb p (tb_keep tb q t) = tb_keep tb (fun k => p k && q k) t;
  keep_ext p q t : (forall k, p k = q k) -> tb_keep tb p t = tb_keep tb q t;
  keep_all t : tb_keep tb (fun _ => true) t = t
}.

Ltac table_laws :=
  split; [intros p t; cbn; rewrite ?keep_rows_fmap; try done
         |intros p q t; cbn; unfold set_requests, set_codes, set_devices, set_sessions, set_denylist; cbn; by rewrite keep_rows_keep
         |intros p q t E; cbn; f_equal; apply keep_rows_ext; auto
         |intros []; cbn; unfold set_requests, set_codes, set_devices, set_sessions, set_denylist; cbn; by rewrite keep_rows_all].

#[export] Instance auth_requests_laws : TableLaws auth_requests_table. Proof. table_laws. Qed.
#[export] Instance auth_codes_laws : TableLaws auth_codes_table. Proof. table_laws. Qed.
#[export] Instance device_codes_laws : TableLaws device_codes_table. Proof. table_laws. Qed.
#[export] Instance browser_sessions_laws : TableLaws browser_sessions_table. Proof. table_laws. Qed.
#[export] Instance jti_denylist_laws : TableLaws jti_denylist_table.
Proof.
  table_laws. apply map_eq. intros k. rewrite map_lookup_imap, !keep_rows_lookup, map_lookup_imap. by destruct (p k).
Qed.

(** ** The tables with a deadline *)

Definition overdue (now_ : time) (d : option time) : bool := match d with Some e => time_After now_ e | None => false end.

(** What a sweep leaves of a table. *)
Definition swept (now_ : time) (tb : Table) (t : Tables) : Tables :=
  tb_keep tb (fun k => negb (overdue now_ (tb_deadlines tb t !! k))) t.

Definition deleted_rows {A} (m m' : gmap string A) : Z := Z.of_nat (size m) - Z.of_nat (size m').

Lemma count_keys_deleted tb `{TableLaws tb} keys t :
  count_keys tb keys t = deleted_rows (tb_deadlines tb t) (tb_deadlines tb (drop_keys tb keys t)).
Proof.
  unfold count_keys, drop_keys, deleted_rows. rewrite count_filter, deadlines_keep. unfold keep_rows.
  do 3 f_equal. apply map_filter_ext. intros k x _. cbn. by case_bool_decide.
Qed.

Lemma deleteIn_quiet del count args t :
  (del [] t = t) -> (count [] t = 0) -> deleteIn del count args (mkDB t []) = (mkDB (del args t) [], inr (count args t)).
Proof.
  intros Hd Hc. unfold deleteIn. case_bool_decide as E; [subst; by rewrite Hd, Hc|].
  unfold mbind, Q_bind. rewrite stmt_quiet. cbn [fst snd]. unfold after. by rewrite stmt_quiet.
Qed.

Lemma drop_none tb `{TableLaws tb} t : drop_keys tb [] t = t.
Proof. unfold drop_keys. rewrite <- (keep_all t) at 2. apply keep_ext. intros k. by rewrite bool_decide_eq_false_2 by set_solver. Qed.

Lemma drop_app tb `{TableLaws tb} l l' t : drop_keys tb l' (drop_keys tb l t) = drop_keys tb (l ++ l') t.
Proof.
  unfold drop_keys. rewrite keep_keep. apply keep_ext. intros k. repeat case_bool_decide; try done; set_solver.
Qed.

Lemma expired_keys_app now_ l l' : expired_keys now_ (l ++ l') = expired_keys now_ l ++ expired_keys now_ l'.
Proof. unfold expired_keys. by rewrite List.filter_app, fmap_app. Qed.

Lemma elem_expired_keys now_ l k : k ∈ expired_keys now_ l <-> exists e, (k, e) ∈ l /\ time_After now_ e = true.
Proof.
  unfold expired_keys. rewrite list_elem_of_fmap. split.
  - intros ([k' e] & -> & Hin). rewrite list_elem_of_In, filter_In, <- list_elem_of_In in Hin. cbn in *. eauto.
  - intros (e & Hin & He). exists (k, e). split; [done|]. by rewrite list_elem_of_In, filter_In, <- list_elem_of_In.
Qed.

(** One table: exactly its overdue rows go, and they are counted. *)
Lemma reapExpired_exact r tb `{TableLaws tb} now_ t fuel :
  0 < rp_batch r -> (size (tb_deadlines tb t) < fuel)%nat ->
  reapExpired r fuel tb now_ (mkDB t []) =
    (mkDB (swept now_ tb t) [], (deleted_rows (tb_deadlines tb t) (tb_deadlines tb (swept now_ tb t)), None)).
Proof.
  intros Hb Hfuel. unfold reapExpired.
  destruct (pages_run (rp_batch r) (tb_name tb) (tb_deadlines tb)
    (fun deleted p => n ← deleteIn (drop_keys tb) (count_keys tb) (expired_keys now_ p); mret (deleted + n))
    (fun done_ t' n => t' = drop_keys tb (expired_keys now_ done_) t /\ n = deleted_rows (tb_deadlines tb t) (tb_deadlines tb t')) Hb)
    with (fuel := fuel) (cursor := 0) (done_ := @nil (string * time)) (t := t) (acc := 0) as (t' & n & -> & -> & ->).
  - intros done_ t1 n p [-> ->] Hnd Hin. do 2 eexists. unfold mbind, Q_bind. rewrite deleteIn_quiet; [|by apply drop_none|].
    2: { rewrite count_keys_deleted by done. rewrite drop_none by done. unfold deleted_rows. lia. }
    split; [reflexivity|]. rewrite drop_app, <- expired_keys_app by done. split_and!; [done| |].
    + rewrite count_keys_deleted, drop_app, <- expired_keys_app by done. unfold deleted_rows. lia.
    + intros k Hk. rewrite expired_keys_app, <- drop_app by done. unfold drop_keys at 1. rewrite deadlines_keep, keep_rows_lookup.
      rewrite bool_decide_eq_false_2; [done|]. intros (e & Hke & _)%elem_expired_keys. apply Hk.
      apply list_elem_of_fmap. by exists (k, e).
  - rewrite drop_none by done. unfold deleted_rows. split; [done|lia].
  - fold (in_order (tb_name tb) (tb_deadlines tb t)). by rewrite in_order_length.
  - cbn [app]. fold (in_order (tb_name tb) (tb_deadlines tb t)).
    assert (drop_keys tb (expired_keys now_ (in_order (tb_name tb) (tb_deadlines tb t))) t = swept now_ tb t) as ->; [|done].
    apply keep_ext. intros k. f_equal. unfold overdue. destruct (tb_deadlines tb t !! k) as [e|] eqn:E.
    + destruct (time_After now_ e) eqn:Ea; [apply bool_decide_eq_true_2|apply bool_decide_eq_false_2]; rewrite elem_expired_keys.
      * exists e. by rewrite in_order_elem.
      * intros (e' & He' & Ha). apply in_order_elem in He'. congruence.
    + apply bool_decide_eq_false_2. rewrite elem_expired_keys. intros (e' & He' & Ha). apply in_order_elem in He'. congruence.
Qed.

(** ** The refresh-token families *)

(** A family that still matters: one of its rows does. *)
Definition alive_row (r : Reaper) (now_ : time) (f : string) (kv : string * TokenRow) : bool :=
  in_family f kv.2 && negb (dead_token r now_ kv.2).

Definition alive_family (r : Reaper) (now_ : time) (m : gmap string TokenRow) (f : string) : bool :=
  existsb (alive_row r now_ f) (map_to_list m).

Definition swept_tokens (r : Reaper) (now_ : time) (m : gmap string TokenRow) : gmap string TokenRow :=
  filter (fun kv => alive_family r now_ m (row_family kv.2) = true) m.

Lemma see_lookup r now_ seen kv f :
  see r now_ seen kv !! f =
    if in_family f kv.2 then Some (default false (seen !! f) || alive_row r now_ f kv) else seen !! f.
Proof.
  unfold see, alive_row, in_family. destruct (String.eqb_spec (row_family kv.2) f) as [<-|Hf].
  - by rewrite lookup_insert_eq.
  - by rewrite lookup_insert_ne.
Qed.

(** What the walk has seen of a family. *)
Lemma seen_lookup r now_ l f : forall seen,
  foldl (see r now_) seen l !! f =
    if existsb (fun kv => in_family f kv.2) l then Some (default false (seen !! f) || existsb (alive_row r now_ f) l)
    else seen !! f.
Proof.
  induction l as [|kv l IH]; intros seen; [done|]. cbn [foldl existsb]. rewrite IH, see_lookup.
  assert (alive_row r now_ f kv = in_family f kv.2 && negb (dead_token r now_ kv.2)) as Ha by done. revert Ha.
  destruct (in_family f kv.2) eqn:E; cbn [andb orb]; intros Ha; [|by rewrite Ha].
  destruct (existsb (fun kv => in_family f kv.2) l) eqn:El; cbn [default]; [by rewrite orb_assoc|].
  assert (existsb (alive_row r now_ f) l = false) as ->; [|by rewrite orb_false_r].
  apply not_true_iff_false. intros (kv' & Hin & Hal)%existsb_exists. apply not_true_iff_false in El. apply El.
  apply existsb_exists. exists kv'. split; [done|]. by apply andb_true_iff in Hal as [? _].
Qed.

Lemma existsb_rows {A} (p : string * A -> bool) table (m : gmap string A) :
  existsb p (in_order table m) = existsb p (map_to_list m).
Proof.
  apply eq_iff_eq_true. rewrite !existsb_exists. split; intros ([k x] & Hin & Hp); exists (k, x); (split; [|done]).
  - apply list_elem_of_In, elem_of_map_to_list. rewrite <- list_elem_of_In in Hin. by apply in_order_elem in Hin.
  - apply list_elem_of_In, in_order_elem. rewrite <- list_elem_of_In in Hin. by apply elem_of_map_to_list.
Qed.

Lemma elem_dead_families seen f : f ∈ dead_families seen <-> seen !! f = Some false.
Proof.
  unfold dead_families. rewrite list_elem_of_fmap. split.
  - intros ([f' b] & -> & Hin). rewrite list_elem_of_In, filter_In, <- list_elem_of_In, elem_of_map_to_list in Hin.
    cbn in *. destruct Hin as [-> Hb]. by destruct b.
  - intros Hf. exists (f, false). split; [done|]. by rewrite list_elem_of_In, filter_In, <- list_elem_of_In, elem_of_map_to_list.
Qed.

Lemma NoDup_dead_families seen : NoDup (dead_families seen).
Proof.
  unfold dead_families. pose proof (NoDup_fst_map_to_list seen) as Hnd. revert Hnd.
  induction (map_to_list seen) as [|[k x] l IH]; [constructor|]. cbn. intros [Hk Hl]%NoDup_cons.
  destruct x; cbn; [auto|]. constructor; [|auto].
  intros ([k' x'] & -> & Hin)%list_elem_of_fmap. apply Hk. apply list_elem_of_fmap. exists (k', x'). split; [done|].
  rewrite list_elem_of_In in Hin |- *. by apply filter_In in Hin as [? _].
Qed.

Lemma count_families_deleted fams t :
  count_families fams t = deleted_rows (refresh_tokens t) (refresh_tokens (drop_families fams t)).
Proof. unfold count_families. by rewrite count_filter. Qed.

Lemma drop_families_nil t : drop_families [] t = t.
Proof.
  destruct t. unfold drop_families, set_tokens. cbn. f_equal. apply map_filter_id. intros k x _. cbn.
  by rewrite bool_decide_eq_false_2 by set_solver.
Qed.

Lemma drop_families_app l l' t : drop_families l' (drop_families l t) = drop_families (l ++ l') t.
Proof.
  unfold drop_families, set_tokens. cbn. f_equal. rewrite map_filter_filter. apply map_filter_ext. intros k x _. cbn.
  rewrite !bool_decide_eq_false. set_solver.
Qed.

Lemma delete_chunks_exact batch : 0 < batch -> forall fuel fams n t, (length fams <= fuel)%nat ->
  delete_chunks fuel batch fams n (mkDB t []) =
    (mkDB (drop_families fams t) [], (n + deleted_rows (refresh_tokens t) (refresh_tokens (drop_families fams t)), None)).
Proof.
  intros Hb.
  assert (forall n t, (n, None) = (n + deleted_rows (refresh_tokens t) (refresh_tokens (drop_families [] t)), @None error)) as Hnil.
  { intros n t. rewrite drop_families_nil. unfold deleted_rows. by rewrite Z.sub_diag, Z.add_0_r. }
  induction fuel as [|fuel IH]; intros [|f fams] n t Hl; try (cbn [length] in Hl; lia);
    try (cbn [delete_chunks]; rewrite Hnil, drop_families_nil at 1; by rewrite drop_families_nil).
  cbn [delete_chunks].
  rewrite deleteIn_quiet; [|apply drop_families_nil|].
  2: { rewrite count_families_deleted, drop_families_nil. unfold deleted_rows. lia. }
  rewrite IH by (rewrite length_skipn; cbn [length] in *; lia). rewrite count_families_deleted, drop_families_app, firstn_skipn.
  do 2 f_equal. unfold deleted_rows. lia.
Qed.

(** Exactly the families without a row that matters go, whole. *)
Lemma reapRefreshFamilies_exact r now_ t fuel :
  0 < rp_batch r -> (size (refresh_tokens t) < fuel)%nat ->
  reapRefreshFamilies r fuel now_ (mkDB t []) =
    (mkDB (set_tokens (swept_tokens r now_ (refresh_tokens t)) t) [],
     (deleted_rows (refresh_tokens t) (swept_tokens r now_ (refresh_tokens t)), None)).
Proof.
  intros Hb Hfuel. unfold reapRefreshFamilies.
  destruct (pages_run (rp_batch r) "refresh_tokens" refresh_tokens (fun seen p => mret (foldl (see r now_) seen p))
    (fun done_ t' seen => t' = t /\ seen = foldl (see r now_) ∅ done_) Hb)
    with (fuel := fuel) (cursor := 0) (done_ := @nil (string * TokenRow)) (t := t) (acc := ∅ : gmap string bool)
    as (t' & seen & -> & -> & ->).
  - intros done_ t1 seen p [-> ->] _ _. do 2 eexists. split; [reflexivity|]. by rewrite foldl_app.
  - done.
  - fold (in_order "refresh_tokens" (refresh_tokens t)). by rewrite in_order_length.
  - cbn [app]. fold (in_order "refresh_tokens" (refresh_tokens t)). set (seen := foldl _ _ _).
    assert (forall f, f ∈ dead_families seen <->
      existsb (fun kv => in_family f kv.2) (map_to_list (refresh_tokens t)) = true /\ alive_family r now_ (refresh_tokens t) f = false) as Hdead.
    { intros f. rewrite elem_dead_families. unfold seen. rewrite seen_lookup, !existsb_rows, lookup_empty.
      unfold alive_family. destruct (existsb (fun kv => _) _), (existsb (alive_row _ _ _) _); cbn; split; intros Hx; try done; by destruct Hx. }
    assert (set_tokens (swept_tokens r now_ (refresh_tokens t)) t = drop_families (dead_families seen) t) as E.
    { unfold drop_families, swept_tokens. f_equal. apply map_filter_ext. intros k x Hk. cbn.
      rewrite bool_decide_eq_false, Hdead. rewrite <- not_false_iff_true. split; [tauto|]. intros Hn Hf. apply Hn. split; [|done].
      apply existsb_exists. exists (k, x). split; [by apply list_elem_of_In, elem_of_map_to_list|]. apply String.eqb_refl. }
    rewrite delete_chunks_exact; [by rewrite <- E|done|].
    transitivity (length (map (fun kv => row_family kv.2) (map_to_list (refresh_tokens t)))).
    + apply NoDup_incl_length; [apply NoDup_ListNoDup, NoDup_dead_families|]. intros f Hf.
      apply list_elem_of_In, Hdead in Hf as [([k x] & Hin & Hfam)%existsb_exists _]. apply in_map_iff. exists (k, x).
      split; [|done]. by apply String.eqb_eq in Hfam.
    + rewrite length_map, length_map_to_list. lia.
Qed.

(** ** The sweep *)

Definition fresh {A} (now_ : time) (deadline : A -> time) (m : gmap string A) : gmap string A :=
  filter (fun kv => deadline kv.2 >= now_) m.

(** A denylist row stays while its key is unknown, has no expiry, or expired
    less than the grace ago. *)
Definition fresh_denial (now_ : time) (keys : gmap string IntegrationKey) (jti : string) : bool :=
  match key_expiry jti keys with Some e => now_ <=? e + denylistGrace | None => true end.

(** The sweep in one step. *)
Definition reaped (r : Reaper) (now_ : time) (t : Tables) : Tables := mkTables
  (fresh now_ ar_ExpiresAt (auth_requests t))
  (fresh now_ (fun row => ac_ExpiresAt (cr_code row)) (auth_codes t))
  (swept_tokens r now_ (refresh_tokens t))
  (fresh now_ dc_ExpiresAt (device_codes t))
  (fresh now_ bs_ExpiresAt (browser_sessions t))
  (keypairs t) (integration_keys t)
  (keep_rows (fresh_denial now_ (integration_keys t)) (jti_denylist t)).

(** A bound on the rows of any table. *)
Definition rows_of (t : Tables) : nat :=
  size (auth_requests t) + size (auth_codes t) + size (refresh_tokens t) + size (device_codes t) +
  size (browser_sessions t) + size (jti_denylist t).

Definition reap_counts (t t' : Tables) : list (string * Z) :=
  [("auth_requests", deleted_rows (auth_requests t) (auth_requests t'));
   ("auth_codes", deleted_rows (auth_codes t) (auth_codes t'));
   ("device_codes", deleted_rows (device_codes t) (device_codes t'));
   ("browser_sessions", deleted_rows (browser_sessions t) (browser_sessions t'));
   ("refresh_tokens", deleted_rows (refresh_tokens t) (refresh_tokens t'));
   ("jti_denylist", deleted_rows (jti_denylist t) (jti_denylist t'))].

Lemma fresh_keep {A} now_ (deadline : A -> time) (m : gmap string A) :
  keep_rows (fun k => negb (overdue now_ ((deadline <$> m) !! k))) m = fresh now_ deadline m.
Proof.
  apply map_filter_ext. intros k x Hk. cbn. rewrite lookup_fmap, Hk. cbn. unfold time_After.
  rewrite negb_true_iff, Z.ltb_ge. lia.
Qed.

Lemma size_fmap_rows {A B} (f : A -> B) (m : gmap string A) : size (f <$> m) = size m.
Proof. apply map_size_fmap. Qed.

Lemma deleted_fmap {A B} (f : A -> B) (m m' : gmap string A) : deleted_rows (f <$> m) (f <$> m') = deleted_rows m m'.
Proof. unfold deleted_rows. by rewrite !size_fmap_rows. Qed.

Lemma swept_denylist now_ t :
  swept now_ jti_denylist_table t = set_denylist (keep_rows (fresh_denial now_ (integration_keys t)) (jti_denylist t)) t.
Proof.
  unfold swept. cbn. f_equal. apply keep_rows_ext. intros k [x Hk]. rewrite map_lookup_imap, Hk. cbn.
  unfold fresh_denial. destruct (key_expiry k _) as [e|]; cbn; [|done]. unfold time_After, time_Add. lia.
Qed.

Lemma deleted_keep {A} q (m : gmap string A) : deleted_rows m (keep_rows q m) = Z.of_nat (size (keep_rows (fun k => negb (q k)) m)).
Proof.
  pose proof (count_filter (fun kv => q kv.1) m) as E1. pose proof (count_filter (fun kv => negb (q kv.1)) m) as E2.
  unfold deleted_rows. replace (keep_rows q m) with (filter (fun kv : string * A => negb (q kv.1) = false) m).
  2: { apply map_filter_ext. intros k x _. cbn. by rewrite negb_false_iff. }
  replace (keep_rows (fun k => negb (q k)) m) with (filter (fun kv : string * A => q kv.1 = false) m).
  2: { apply map_filter_ext. intros k x _. cbn. by rewrite negb_true_iff. }
  pose proof (List.filter_length (fun kv => q kv.1) (map_to_list m)) as E. rewrite length_map_to_list in E. lia.
Qed.

(** The denylist rows without a deadline are not counted on either side. *)
Lemma deleted_denylist now_ t :
  deleted_rows (tb_deadlines jti_denylist_table t) (tb_deadlines jti_denylist_table (swept now_ jti_denylist_table t)) =
  deleted_rows (jti_denylist t) (jti_denylist (swept now_ jti_denylist_table t)).
Proof.
  unfold swept. rewrite deadlines_keep. set (D := tb_deadlines jti_denylist_table t). cbn [tb_keep jti_denylist set_denylist jti_denylist_table].
  rewrite !deleted_keep. f_equal. rewrite <- !(size_dom (D := gset string)). f_equal. apply set_eq. intros k.
  rewrite !elem_of_dom, !keep_rows_lookup, negb_involutive. destruct (D !! k) as [e|] eqn:E; [|done]. cbn.
  destruct (time_After now_ e); [|done]. unfold D in E. cbn in E. rewrite map_lookup_imap in E.
  destruct (jti_denylist t !! k); [|done]. by split.
Qed.

Lemma size_imap {A B} (f : string -> A -> option B) (m : gmap string A) : (size (map_imap f m) <= size m)%nat.
Proof.
  rewrite <- !(size_dom (D := gset string)). apply subseteq_size. intros k. rewrite !elem_of_dom, map_lookup_imap.
  destruct (m !! k); [by eexists|by intros []].
Qed.

Lemma Reap_exact r now_ t fuel :
  0 < rp_batch r -> (rows_of t < fuel)%nat ->
  Reap r fuel now_ (mkDB t []) = (mkDB (reaped r now_ t) [], (reap_counts t (reaped r now_ t), [])).
Proof.
  intros Hb Hfuel. unfold rows_of in Hfuel. unfold Reap. cbn [reap_tables expiringTables].
  assert (forall A B (f : A -> B) (m : gmap string A), (size m < fuel)%nat -> (size (f <$> m) < fuel)%nat) as Hsz.
  { intros A B f m. by rewrite size_fmap_rows. }
  rewrite reapExpired_exact; [|apply _|done|apply Hsz; lia]. cbn [count_of tb_name auth_requests_table app].
  rewrite reapExpired_exact; [|apply _|done|apply Hsz; cbn; lia]. cbn [count_of tb_name auth_codes_table app].
  rewrite reapExpired_exact; [|apply _|done|apply Hsz; cbn; lia]. cbn [count_of tb_name device_codes_table app].
  rewrite reapExpired_exact; [|apply _|done|apply Hsz; cbn; lia]. cbn [count_of tb_name browser_sessions_table app].
  rewrite reapRefreshFamilies_exact; [|done|cbn; lia]. cbn [count_of app].
  rewrite reapExpired_exact; [|apply _|done|]. 2: { eapply Nat.le_lt_trans; [apply size_imap|cbn; lia]. }
  cbn [count_of tb_name jti_denylist_table app]. rewrite deleted_denylist, swept_denylist.
  unfold swept. cbn. rewrite !deleted_fmap, !fresh_keep. done.
Qed.

Lemma NewReaper_batch maxLifetime batch : 0 < rp_batch (NewReaper maxLifetime batch).
Proof. unfold NewReaper, defaultReapBatchSize. cbn [rp_batch]. case Z.ltb_spec; lia. Qed.

(** C26. The batched sweep deletes exactly the dead rows and ends: run alone, for
    every configured batch size, it leaves of each table what the one-step
    definition leaves of it, reports that many rows deleted, and no error. *)
Theorem reap_exact maxLifetime batch now_ t fuel :
  (rows_of t < fuel)%nat ->
  let r := NewReaper maxLifetime batch in
  Reap r fuel now_ (mkDB t []) = (mkDB (reaped r now_ t) [], (reap_counts t (reaped r now_ t), [])).
Proof. intros Hf. apply Reap_exact; [|done]. apply NewReaper_batch. Qed.

(** A family with a row that matters keeps all of its rows. *)
Lemma swept_family_kept r now_ (m : gmap string TokenRow) k row k' row' :
  m !! k = Some row -> m !! k' = Some row' -> row_family row = row_family row' -> dead_token r now_ row' = false ->
  swept_tokens r now_ m !! k = Some row.
Proof.
  intros Hk Hk' Hf Hd. apply map_lookup_filter_Some. split; [done|]. cbn. apply existsb_exists. exists (k', row').
  split; [by apply list_elem_of_In, elem_of_map_to_list|]. unfold alive_row, in_family. cbn.
  by rewrite Hf, String.eqb_refl, Hd.
Qed.

Lemma swept_lookup_sub r now_ (m : gmap string TokenRow) k row : swept_tokens r now_ m !! k = Some row -> m !! k = Some row.
Proof. by intros [? _]%map_lookup_filter_Some. Qed.

(** What presenting a token answers depends on its row alone. *)
Lemma ConsumeRefresh_by_row token clientID at_ t t' :
  refresh_tokens t !! Hash token = refresh_tokens t' !! Hash token ->
  (sqlite_ConsumeRefresh token clientID at_ (mkDB t [])).2 = (sqlite_ConsumeRefresh token clientID at_ (mkDB t' [])).2.
Proof.
  intros E. unfold sqlite_ConsumeRefresh, method, mbind, Q_bind. rewrite !stmt_quiet. cbn [fst snd].
  unfold sql_consume_refresh. rewrite E. destruct (refresh_tokens t' !! Hash token) as [row|] eqn:E'.
  - destruct (_ && _) eqn:El; cbn [fst snd]; [done|]. rewrite !stmt_quiet. unfold sql_refresh_tombstone. rewrite E, E'. by cbn.
  - cbn [fst snd]. rewrite !stmt_quiet. unfold sql_refresh_tombstone. by rewrite E, E'.
Qed.

(** The sweep never blinds reuse detection, nor ends a session: while some
    token of a family is usable, presenting any token of the family answers
    after the sweep what it would have answered before it; in particular a
    rotated token is still recognised as reuse. *)
Theorem reap_keeps_replay_detection r now_ t fuel token clientID at_ row k' row' :
  0 < rp_batch r -> (rows_of t < fuel)%nat ->
  refresh_tokens t !! Hash token = Some row -> refresh_tokens t !! k' = Some row' ->
  row_family row = row_family row' -> dead_token r now_ row' = false ->
  (sqlite_ConsumeRefresh token clientID at_ (Reap r fuel now_ (mkDB t [])).1).2 =
  (sqlite_ConsumeRefresh token clientID at_ (mkDB t [])).2.
Proof.
  intros Hb Hf Hk Hk' Hfam Hd. rewrite Reap_exact by done. apply ConsumeRefresh_by_row. cbn [refresh_tokens reaped].
  rewrite Hk. by apply (swept_family_kept r now_ _ _ _ k' row').
Qed.

End Walk.

(** ** Runs *)

Module ReaperExample.

Lemma encode_rowid_inj (k k' : string) : Z.pos (encode k) = Z.pos (encode k') -> k = k'.
Proof. intros [= E]. by apply (inj encode). Qed.

#[local] Instance encoded_rowids : RowIDs := {
  rowid _ k := Z.pos (encode k);
  rowid_pos _ _ := Pos2Z.is_pos _;
  rowid_inj _ := encode_rowid_inj
}.

Definition token_row (family : string) (expires : time) (consumed_ : option time) : TokenRow :=
  mkTokenRow (mkRefresh "" "j" "cli" "google" "1" "a@x.io" family 0 0 expires) consumed_ None.

Definition request (expires : time) : AuthRequest :=
  mkAuthRequest "s" "google" "cli" "" "" "" "" "" "" 0 expires.

Definition spent_code : AuthCode :=
  mkAuthCode "CODE" "cli" "http://127.0.0.1:4711/callback" "google" "1" "a@x.io" "openid" "" "S256" "n" "" 0 20.

(** Of family F one token is rotated and its successor usable; family G is
    spent and expired; one of two requests has expired. *)
Definition t1 : Tables :=
  set_requests (<["r1" := request 10]> (<["r2" := request 90]> ∅))
   (set_tokens (<[Hash "A" := token_row "F" 20 (Some 15)]> (<[Hash "B" := token_row "F" 90 None]>
      (<[Hash "C" := token_row "G" 20 (Some 15)]> ∅))) emptyTables).

(** One row a page, and no bound on the age of a sign-in. *)
Definition reaper : Reaper := NewReaper 0 1.

(** One request and family G go. *)
Lemma t1_counts : reap_counts t1 (reaped reaper 50 t1) =
  [("auth_requests", 1); ("auth_codes", 0); ("device_codes", 0); ("browser_sessions", 0); ("refresh_tokens", 1); ("jti_denylist", 0)].
Proof. vm_compute. reflexivity. Qed.

Lemma reap_exact_witness :
  Reap reaper 10 50 (mkDB t1 []) = (mkDB (reaped reaper 50 t1) [], (reap_counts t1 (reaped reaper 50 t1), [])).
Proof. apply (reap_exact 0 1 50 t1 10). vm_compute. lia. Defined.

(** The rotated token is still reuse after the sweep. *)
Lemma reap_keeps_replay_detection_witness :
  (sqlite_ConsumeRefresh "A" "cli" 60 (Reap reaper 10 50 (mkDB t1 [])).1).2 =
    (sqlite_ConsumeRefresh "A" "cli" 60 (mkDB t1 [])).2 /\
  (sqlite_ConsumeRefresh "A" "cli" 60 (mkDB t1 [])).2.2 = Some (Sentinel ErrRefreshReused).
Proof.
  split; [|vm_compute; reflexivity].
  apply (reap_keeps_replay_detection reaper 50 t1 10 "A" "cli" 60 (token_row "F" 20 (Some 15)) (Hash "B") (token_row "F" 90 None));
    vm_compute; try reflexivity; lia.
Defined.

(** ** What the sweep does change *)

(** A redeemed code that has expired: a replay is answered as reuse, which
    revokes the session it started, until the sweep takes the tombstone. *)
Definition t2 : Tables := (sqlite_ConsumeAuthCode "CODE" "F" 15 (sqlite_SaveAuthCode spent_code emptyDB).1).1.(tables).

Lemma consumed_code_forgotten :
  (sqlite_ConsumeAuthCode "CODE" "F2" 60 (mkDB t2 [])).2.2 = Some (Sentinel ErrAuthCodeReused) /\
  (sqlite_ConsumeAuthCode "CODE" "F2" 60 (Reap reaper 10 50 (mkDB t2 [])).1).2.2 = Some (Sentinel ErrAuthCodeNotFound).
Proof. split; vm_compute; reflexivity. Qed.

(** A rotation consumes token A before it expires; the sweep, after that, reads
    A as spent and expired; the rotation stores its successor before the sweep
    deletes the family, and the successor goes with it. *)
Definition t3 : Tables := set_tokens (<[Hash "A" := token_row "F" 20 (Some 19)]> ∅) emptyTables.

Definition successor : Refresh := mkRefresh "B" "j" "cli" "google" "1" "a@x.io" "F" 0 19 90.

Definition rotating_db : DB :=
  mkDB t3 (repeat free_slot 12 ++ [mkSlot (fun t => tables (sqlite_SaveRefresh successor (mkDB t [])).1) Served]).

Lemma sweep_races_rotation :
  (sqlite_SaveRefresh successor (mkDB t3 [])).2 = None /\
  refresh_tokens (tables (Reap reaper 10 50 rotating_db).1) = ∅ /\
  (Reap reaper 10 50 rotating_db).2.1 !! 4%nat = Some ("refresh_tokens", 2).
Proof. split_and!; vm_compute; reflexivity. Qed.

End ReaperExample.
