(* ===== verification/Token.v ===== *)
(** * The token endpoint (oidc/token.go, device_token.go, authz.go)

    POST /token: the authorization-code, refresh-token and device-code grants
    over any store ([TokenStore], [DeviceCodeStore]), with client
    authentication, PKCE, rotation, reuse detection and the security events.
    The theorems about it are in TokenFacts.v. *)

From stdpp Require Import pretty.
From S2P Require Import Prelude GoStrings GoErrors GoEncoding GoCrypto GoURL Perms Oidc Client Keys.
From S2P Require Import Signer.

(** ** Configuration *)

(** [PermissionResolver.Resolve(ctx, email)]: a grant (possibly nil) or an
    error. *)
Definition PermissionResolver := string -> error + option Grant.

(** [denyAll], the resolver of a component built without one. *)
Definition denyAll : PermissionResolver := fun _ => inr (Some (New [])).

Record Token := mkToken {
  t_devices : bool;
  t_signer : Signer;
  t_clients : TokenClients;
  (** the ids of the configured connectors; [None] without any. *)
  t_connectors : option (gset string);
  t_allowedDomains : gset string;
  t_authorizer : PermissionResolver;
  t_accessTTL : duration;
  t_refreshTTL : duration;
  t_refreshMaxLifetime : duration
}.

Definition DefaultAccessTokenTTL : duration := 4 * Hour.
Definition IDTokenTTL : duration := 5 * Minute.
Definition DefaultRefreshTokenTTL : duration := 7 * 24 * Hour.
Definition DefaultRefreshMaxLifetime : duration := 7 * 24 * Hour.
Definition refreshEntropyBytes : nat := 32.
Definition familyIDEntropyBytes : nat := 16.

Definition ValidateTokenLifetimes (access refreshIdle refreshMax : duration) : option error :=
  if (access <=? 0) || (refreshIdle <=? 0) || (refreshMax <=? 0)
  then Some (Opaque "oidc: the token lifetimes must all be positive")
  else if refreshIdle <=? access
  then Some (Opaque "oidc: OIDC_ACCESS_TOKEN_TTL must be shorter than OIDC_REFRESH_TOKEN_TTL")
  else if refreshMax <? refreshIdle
  then Some (Opaque "oidc: OIDC_REFRESH_TOKEN_TTL must not exceed OIDC_REFRESH_MAX_LIFETIME")
  else None.

(** [WithTokenLifetimes]: zero (or less) keeps the default. *)
Definition WithTokenLifetimes (access refreshIdle refreshMax : duration) (t : Token) : Token :=
  mkToken (t_devices t) (t_signer t) (t_clients t) (t_connectors t) (t_allowedDomains t) (t_authorizer t)
    (if 0 <? access then access else t_accessTTL t)
    (if 0 <? refreshIdle then refreshIdle else t_refreshTTL t)
    (if 0 <? refreshMax then refreshMax else t_refreshMaxLifetime t).

(** [NewToken(store, signer, clients)] without options. *)
Definition NewToken (signer : Signer) (clients : TokenClients) : Token :=
  mkToken false signer clients None ∅ denyAll
    DefaultAccessTokenTTL DefaultRefreshTokenTTL DefaultRefreshMaxLifetime.

(** ** Request and response *)

Record tokenInput := mkTokenInput { in_RawBody : string; in_Authorization : string }.

Record tokenResponse := mkTokenResponse {
  AccessToken : string;
  TokenType : string;
  ExpiresIn : Z;
  RefreshToken : string;
  IDToken : string
}.

Record tokenOutput := mkTokenOutput { CacheControl : string; Pragma : string; Body : tokenResponse }.

Record AuthCodeRedemptionRequest := mkRedemptionRequest {
  rr_Code : string;
  rr_ClientID : string;
  rr_RedirectURI : string;
  rr_CodeVerifier : string;
  rr_ClientSecret : string
}.

Record AuthCodeRedemption := mkRedemption {
  rd_Identity : Identity;
  rd_ClientID : string;
  rd_Nonce : string;
  rd_FamilyID : string
}.

(** What a refresh token inherits from the sign-in that started its session;
    an empty family means a new sign-in. *)
Record lineage := mkLineage { l_familyID : string; l_authTime : time }.

Definition grantAuthorizationCode : string := "authorization_code".
Definition grantRefreshToken : string := "refresh_token".
Definition grantDeviceCode : string := "urn:ietf:params:oauth:grant-type:device_code".

Definition grantLabel (grantType : string) : string :=
  if (grantType =? grantAuthorizationCode)%string then "authorization_code"
  else if (grantType =? grantRefreshToken)%string then "refresh_token"
  else if (grantType =? grantDeviceCode)%string then "device_code"
  else "other".

(** [tokenErrorCode(err)]: [""] on success. *)
Definition tokenErrorCode {A} (r : error + A) : string :=
  match r with
  | inr _ => ""
  | inl e => match errors_As_oauth e with
             | Some (_, c, _) => c
             | None => "server_error"
             end
  end.

Definition errLegacyGrant (kind : string) : error :=
  oauthErr StatusBadRequest "invalid_grant" (kind +:+ " predates this tempogate version; sign in again").

Definition msgNoAccess : string :=
  "no Temporal access is granted to this account; ask an administrator for access".

(** ** PKCE and client credentials *)

Definition verifyPKCE (verifier challenge : string) : bool :=
  ConstantTimeCompare (RawURL_Encode (sha256_Sum256 verifier)) challenge.

Definition validCodeVerifier (v : string) : bool :=
  if (len v <? 43) || (128 <? len v) then false
  else all_bytes (fun c => url_char c || Ascii.eqb c "." || Ascii.eqb c "~") v.

Definition hasBasicScheme (header : string) : bool :=
  (6 <=? String.length header)%nat && EqualFold (String.substring 0 6 header) "Basic ".

Definition or_raw (o : option string) (raw : string) : string := default raw o.

Definition parseBasicAuth (header : string) : option (string * string) :=
  if (String.length header <=? 6)%nat || negb (hasBasicScheme header) then None
  else
    match Std_Decode (TrimSpace (drop_bytes 6 header)) with
    | None => None
    | Some raw =>
        match Cut raw ":" with
        | None => None
        | Some (u, p) => Some (or_raw (QueryUnescape u) u, or_raw (QueryUnescape p) p)
        end
    end.

Definition clientCredentials (form : Values) (authHeader : string) : string * string :=
  match parseBasicAuth authHeader with
  | Some (id, secret) => (id, secret)
  | None => (Get form "client_id", Get form "client_secret")
  end.

Definition authenticateClient (t : Token) (clientID secret : string) (g : GrantType) : error + Client :=
  match tc_Lookup (t_clients t) clientID with
  | None => inl (oauthErr StatusUnauthorized "invalid_client" "unknown client")
  | Some c =>
      if (negb (Secret c =? "")%string || negb (secret =? "")%string)
         && negb (tc_Authenticate (t_clients t) clientID secret)
      then inl (oauthErr StatusUnauthorized "invalid_client" "client authentication failed")
      else if negb (Allows c g)
      then inl (oauthErr StatusBadRequest "unauthorized_client" "client is not registered for this grant type")
      else inr c
  end.

Definition connectorConfigured (t : Token) (id : string) : bool :=
  match t_connectors t with None => false | Some ids => bool_decide (id ∈ ids) end.

(** [permitted(ctx, a, email)]. *)
Definition permitted (a : PermissionResolver) (email : string) : error + (option Grant * bool) :=
  match a email with
  | inl e => inl e
  | inr g => inr (g, negb (Empty g))
  end.

(** [errors.Is(err, s)] for a possibly nil error. *)
Definition is_err (e : option error) (s : sentinel) : bool :=
  match e with Some x => errors_Is x s | None => false end.

(** ** The grants *)

Section Grants.
Context `{Unicode} `{JWX} `{UUIDGen} `{Env} {S : Type} `{TokenStore S} `{DeviceCodeStore S}.
Implicit Types (t : Token).

Definition lift {A} (r : error + A) : M S A :=
  match r with inl e => throw e | inr x => mret x end.

Definition declare (kind : string) (values : list string) : M S unit := emit (Declared kind values).

Definition declareIdentity (subject email : string) : M S unit :=
  declare "pii" [email; ToLower email; subject].

Definition randomRefresh : M S string :=
  b ← rand_Read refreshEntropyBytes;
  match b with
  | None => throw (Errorf "oidc: generate refresh token" (Opaque "rand"))
  | Some b => mret (RawURL_Encode b)
  end.

Definition randomFamilyID : M S string :=
  b ← rand_Read familyIDEntropyBytes;
  match b with
  | None => throw (Errorf "oidc: generate refresh token family" (Opaque "rand"))
  | Some b => mret (hex_Encode b)
  end.

Definition revokeFamily (rt : Refresh) (at_ : time) (ev msg : string) : M S unit :=
  r ← on_store (RevokeRefreshFamily (rt_FamilyID rt) at_);
  n ← or_throw (Errorf "oidc: revoke refresh token family") r;
  emit (Counted "tempogate.refresh_family_revocations" [ev]) ≫= fun _ =>
  emit (Logged msg [("event", ev); ("family_id", rt_FamilyID rt); ("client_id", rt_ClientID rt);
                    ("email", rt_Email rt); ("revoked_live_tokens", pretty n)]).

(** [t.issue(ctx, id, clientID, nonce, l)]. *)
Definition issue t (id : Identity) (clientID nonce : string) (l : lineage) : M S tokenOutput :=
  declareIdentity (id_Subject id) (id_Email id) ≫= fun _ =>
  match permitted (t_authorizer t) (id_Email id) with
  | inl e => throw (Errorf "oidc: resolve permissions" e)
  | inr (_, false) => throw (Sentinel errNoPermissions)
  | inr (grant, true) =>
      now_ ← now;
      l ← (if (l_familyID l =? "")%string
           then familyID ← randomFamilyID; mret (mkLineage familyID now_)
           else mret l);
      let sub := TokenSubject (id_ConnectorID id) (id_Subject id) in
      m ← attempt (Mint (t_signer t) (mkMintRequest sub (ToClaim grant) (t_accessTTL t) (id_Email id)
                                        (id_ConnectorID id) clientID));
      match m with
      | inl e => throw (Errorf "oidc: mint access token" e)
      | inr (signed, jti) =>
          i ← attempt (MintIDToken (t_signer t) (mkIDTokenRequest sub (id_Email id) (id_ConnectorID id)
                                                   clientID nonce (l_authTime l) IDTokenTTL));
          match i with
          | inl e => throw (Errorf "oidc: mint id token" e)
          | inr idToken =>
              refreshTok ← randomRefresh;
              declare "secret" [signed; idToken; refreshTok] ≫= fun _ =>
              let expiresAt := time_Add now_ (t_refreshTTL t) in
              let end_ := time_Add (l_authTime l) (t_refreshMaxLifetime t) in
              let expiresAt := if time_Before end_ expiresAt then end_ else expiresAt in
              e ← on_store (SaveRefresh
                    (mkRefresh refreshTok jti clientID (id_ConnectorID id) (id_Subject id) (id_Email id)
                       (l_familyID l) (l_authTime l) now_ expiresAt));
              if is_err e ErrRefreshFamilyRevoked
              then throw (oauthErr StatusBadRequest "invalid_grant" "the session has been revoked")
              else match e with
                   | Some e => throw (Errorf "oidc: persist refresh token" e)
                   | None =>
                       mret (mkTokenOutput "no-store" "no-cache"
                               (mkTokenResponse signed "Bearer" (Z.quot (t_accessTTL t) Second)
                                  refreshTok idToken))
                   end
          end
      end
  end.

(** [t.refuseNoPermissions(...)]: records the refusal and returns its error. *)
Definition refuseNoPermissions (grant : string) (id : Identity) (clientID c : string) : M S error :=
  emit (Counted "tempogate.authz_denied" [grant]) ≫= fun _ =>
  emit (Logged "oidc: token refused: no authorization rule grants this account any Temporal permissions"
          [("event", "token_authz_denied"); ("grant", grant); ("client_id", clientID);
           ("email", id_Email id)]) ≫= fun _ =>
  mret (oauthErr StatusBadRequest c msgNoAccess).

Definition bad_grant (desc : string) : error := oauthErr StatusBadRequest "invalid_grant" desc.
Definition bad_request (desc : string) : error := oauthErr StatusBadRequest "invalid_request" desc.

Definition msg_unknown_code : string := "unknown or already-redeemed authorization code".

Definition RedeemAuthorizationCode t (rq : AuthCodeRedemptionRequest) : M S AuthCodeRedemption :=
  declare "secret" [rr_Code rq; rr_CodeVerifier rq; rr_ClientSecret rq] ≫= fun _ =>
  if (rr_Code rq =? "")%string then throw (bad_request "code is required") else
  c ← lift (authenticateClient t (rr_ClientID rq) (rr_ClientSecret rq) GrantTypeAuthorizationCode);
  if (Secret c =? "")%string && (rr_CodeVerifier rq =? "")%string
  then throw (bad_request "code_verifier is required (PKCE)") else
  if negb (rr_CodeVerifier rq =? "")%string && negb (validCodeVerifier (rr_CodeVerifier rq))
  then throw (bad_request "code_verifier must be 43-128 characters of [A-Za-z0-9-._~] (RFC 7636)") else
  familyID ← randomFamilyID;
  now_ ← now;
  r ← on_store (ConsumeAuthCode (rr_Code rq) familyID now_);
  let '(ac, err) := r in
  if is_err err ErrAuthCodeReused then
    (if negb (ac_FamilyID ac =? "")%string
     then revokeFamily (mkRefresh "" "" (ac_ClientID ac) "" "" (ac_Email ac) (ac_FamilyID ac) 0 0 0) now_
            "auth_code_reuse" "oidc: authorization code reuse detected; revoked the tokens issued from it"
     else mret tt) ≫= fun _ =>
    throw (bad_grant msg_unknown_code)
  else if is_err err ErrAuthCodeNotFound then throw (bad_grant msg_unknown_code)
  else match err with
  | Some e => throw (Errorf "oidc: consume auth code" e)
  | None =>
      if time_After now_ (ac_ExpiresAt ac) then throw (bad_grant "authorization code expired")
      else if (ac_Subject ac =? "")%string then throw (errLegacyGrant "authorization code")
      else if negb (rr_ClientID rq =? ac_ClientID ac)%string
      then throw (bad_grant "client_id does not match the authorization request")
      else if negb (rr_RedirectURI rq =? ac_RedirectURI ac)%string
      then throw (bad_grant "redirect_uri does not match the authorization request")
      else
        (if negb (ac_CodeChallenge ac =? "")%string then
           if (rr_CodeVerifier rq =? "")%string then throw (bad_grant "code_verifier is required (PKCE)")
           else if negb (verifyPKCE (rr_CodeVerifier rq) (ac_CodeChallenge ac))
           then throw (bad_grant "PKCE verification failed")
           else mret tt
         else if (Secret c =? "")%string
         then throw (bad_grant "authorization code is not bound to a PKCE challenge")
         else mret tt) ≫= fun _ =>
        mret (mkRedemption (mkIdentity (ac_ConnectorID ac) (ac_Subject ac) (ac_Email ac))
                (ac_ClientID ac) (ac_Nonce ac) familyID)
  end.

(** An error of [issue] that a grant turns into its own. *)
Definition on_no_permissions (r : error + tokenOutput) (refuse : M S error) : M S tokenOutput :=
  match r with
  | inr out => mret out
  | inl e => if errors_Is e errNoPermissions then e' ← refuse; throw e' else throw e
  end.

Definition authorizationCodeGrant t (form : Values) (authHeader : string) : M S tokenOutput :=
  let '(clientID, presentedSecret) := clientCredentials form authHeader in
  r ← RedeemAuthorizationCode t
        (mkRedemptionRequest (Get form "code") clientID (Get form "redirect_uri")
           (Get form "code_verifier") presentedSecret);
  authTime ← now;
  out ← attempt (issue t (rd_Identity r) (rd_ClientID r) (rd_Nonce r) (mkLineage (rd_FamilyID r) authTime));
  on_no_permissions out
    (refuseNoPermissions "authorization_code" (rd_Identity r) (rd_ClientID r) "invalid_grant").

Definition msg_unknown_refresh : string := "unknown, revoked, or other client's refresh token".

Definition refreshTokenGrant t (form : Values) (authHeader : string) : M S tokenOutput :=
  let token := Get form "refresh_token" in
  if (token =? "")%string then throw (bad_request "refresh_token is required") else
  let '(clientID, secret) := clientCredentials form authHeader in
  lift (authenticateClient t clientID secret GrantTypeRefreshToken) ≫= fun _ =>
  now_ ← now;
  r ← on_store (ConsumeRefresh token clientID now_);
  let '(rt, err) := r in
  if is_err err ErrRefreshReused then
    revokeFamily rt now_ "refresh_token_reuse"
      "oidc: refresh token reuse detected; revoked the token family" ≫= fun _ =>
    throw (bad_grant "refresh token already used; the session has been revoked")
  else if is_err err ErrRefreshNotFound then throw (bad_grant msg_unknown_refresh)
  else match err with
  | Some e => throw (Errorf "oidc: consume refresh token" e)
  | None =>
      if time_After now_ (rt_ExpiresAt rt) then throw (bad_grant "refresh token expired")
      else if negb (time_Before now_ (time_Add (rt_AuthTime rt) (t_refreshMaxLifetime t)))
      then throw (bad_grant "session reached its maximum lifetime; sign in again")
      else if (rt_Subject rt =? "")%string then throw (errLegacyGrant "refresh token")
      else if negb (connectorConfigured t (rt_ConnectorID rt)) then
        revokeFamily rt now_ "refresh_connector_removed"
          "oidc: refresh refused for a connector that is no longer configured; revoked the token family"
        ≫= fun _ =>
        throw (bad_grant "the sign-in method of this session is no longer available; sign in again")
      else if negb (emailDomainAllowed (t_allowedDomains t) (rt_Email rt)) then
        revokeFamily rt now_ "refresh_domain_not_allowed"
          "oidc: refresh refused for a domain no longer allowed; revoked the token family" ≫= fun _ =>
        throw (bad_grant "email domain is no longer allowed")
      else
        out ← attempt (issue t (mkIdentity (rt_ConnectorID rt) (rt_Subject rt) (rt_Email rt))
                         (rt_ClientID rt) "" (mkLineage (rt_FamilyID rt) (rt_AuthTime rt)));
        on_no_permissions out
          (emit (Counted "tempogate.authz_denied" ["refresh_token"]) ≫= fun _ =>
           revokeFamily rt now_ "refresh_authz_denied"
             "oidc: refresh refused: no authorization rule grants this account any Temporal permissions any more; revoked the token family"
           ≫= fun _ => mret (bad_grant msgNoAccess))
  end.

Definition deviceCodeGrant t (form : Values) (authHeader : string) : M S tokenOutput :=
  if negb (t_devices t)
  then throw (oauthErr StatusBadRequest "unsupported_grant_type" "device_code grant is not enabled on this server")
  else
  let deviceCode := Get form "device_code" in
  if (deviceCode =? "")%string then throw (bad_request "device_code is required") else
  let '(clientID, secret) := clientCredentials form authHeader in
  if (clientID =? "")%string then throw (bad_request "client_id is required") else
  lift (authenticateClient t clientID secret GrantTypeDeviceCode) ≫= fun _ =>
  d ← on_store (LookupDeviceCodeByDeviceCode deviceCode);
  let '(dc, err) := d in
  if is_err err ErrDeviceCodeNotFound then throw (bad_grant "unknown or already-consumed device_code")
  else match err with
  | Some e => throw (Errorf "oidc: lookup device code" e)
  | None =>
  if negb (clientID =? dc_ClientID dc)%string
  then throw (oauthErr StatusUnauthorized "invalid_client" "client_id does not match the device authorization request")
  else
  now_ ← now;
  p ← on_store (PollDeviceCode deviceCode now_);
  let '(slowDown, err) := p in
  if is_err err ErrDeviceCodeNotFound then throw (bad_grant "unknown or already-consumed device_code")
  else match err with
  | Some e => throw (Errorf "oidc: record device code poll" e)
  | None =>
  if (slowDown : bool) then throw (oauthErr StatusBadRequest "slow_down" "polling faster than the agreed interval")
  else if time_After now_ (dc_ExpiresAt dc) then
    on_store (ConsumeDeviceCode deviceCode) ≫= fun _ =>
    throw (oauthErr StatusBadRequest "expired_token" "device_code expired")
  else match dc_DeniedAt dc with
  | Some _ =>
      on_store (ConsumeDeviceCode deviceCode) ≫= fun _ =>
      throw (oauthErr StatusBadRequest "access_denied" "the device authorization request was denied")
  | None =>
  match dc_ApprovedAt dc with
  | None =>
      throw (oauthErr StatusBadRequest "authorization_pending"
               "user has not yet completed the device authorization")
  | Some _ =>
  f ← on_store (ConsumeDeviceCode deviceCode);
  let '(final, err) := f in
  if is_err err ErrDeviceCodeNotFound then throw (bad_grant "device_code already consumed")
  else match err with
  | Some e => throw (Errorf "oidc: consume device code" e)
  | None =>
  if (dc_Subject final =? "")%string then throw (errLegacyGrant "device code")
  else
    let id := mkIdentity (dc_ConnectorID final) (dc_Subject final) (dc_Email final) in
    out ← attempt (issue t id (dc_ClientID final) "" (mkLineage "" zeroTime));
    on_no_permissions out (refuseNoPermissions "device_code" id (dc_ClientID final) "access_denied")
  end end end end end.

(** ** Dispatch *)

Definition token_caps (form : Values) : list paramCap :=
  [mkCap "client_id" (Get form "client_id") maxClientIDLen;
   mkCap "redirect_uri" (Get form "redirect_uri") maxRedirectURILen;
   mkCap "code" (Get form "code") maxCredentialLen;
   mkCap "code_verifier" (Get form "code_verifier") maxCredentialLen;
   mkCap "refresh_token" (Get form "refresh_token") maxCredentialLen;
   mkCap "device_code" (Get form "device_code") maxCredentialLen].

Definition dispatch t (form : Values) (authorization : string) : M S tokenOutput :=
  declare "secret" [authorization; Get form "code"; Get form "code_verifier"; Get form "refresh_token";
                    Get form "device_code"; Get form "client_secret"] ≫= fun _ =>
  declare "identifier" [Get form "client_id"] ≫= fun _ =>
  (match parseBasicAuth authorization with
   | Some (id, secret) =>
       let encoded := match Cut authorization " " with Some (_, x) => x | None => "" end in
       declare "secret" [secret; encoded] ≫= fun _ => declare "identifier" [id]
   | None => mret tt
   end) ≫= fun _ =>
  match checkParamLengths (token_caps form) with
  | Some e => throw e
  | None =>
      let g := Get form "grant_type" in
      if (g =? grantAuthorizationCode)%string then authorizationCodeGrant t form authorization
      else if (g =? grantRefreshToken)%string then refreshTokenGrant t form authorization
      else if (g =? grantDeviceCode)%string then deviceCodeGrant t form authorization
      else if (g =? "")%string then throw (bad_request "grant_type is required")
      else throw (oauthErr StatusBadRequest "unsupported_grant_type"
                    "only authorization_code, refresh_token, and urn:ietf:params:oauth:grant-type:device_code are supported")
  end.

(** [Telemetry.token(ctx, grant, errorCode)]. *)
Definition telemetry_token (grant errorCode : string) : M S unit :=
  if (errorCode =? "")%string then emit (Counted "tempogate.tokens_issued" [grant])
  else emit (Counted "tempogate.token_errors" [grant; errorCode]).

Definition grant t (rq : tokenInput) : M S tokenOutput :=
  match ParseQuery (in_RawBody rq) with
  | None =>
      telemetry_token "other" "invalid_request" ≫= fun _ => throw (bad_request "malformed form body")
  | Some form =>
      out ← attempt (dispatch t form (in_Authorization rq));
      telemetry_token (grantLabel (Get form "grant_type")) (tokenErrorCode out) ≫= fun _ =>
      lift out
  end.

Definition dquote : string := String "034" "".

(** [withBasicChallenge(err, authHeader)]: the error, with the WWW-Authenticate
    header it is sent with. *)
Definition withBasicChallenge (e : error) (authHeader : string) : error * option string :=
  match errors_As_oauth e with
  | Some (status, c, _) =>
      if (status =? StatusUnauthorized) && (c =? "invalid_client")%string && hasBasicScheme authHeader
      then (e, Some ("Basic realm=" +:+ dquote +:+ "tempogate" +:+ dquote)) else (e, None)
  | None => (e, None)
  end.

Definition handle t (rq : tokenInput) (w : World S) :
    World S * ((error * option string) + tokenOutput) :=
  let (w', r) := grant t rq w in
  (w', match r with
       | inl e => inl (withBasicChallenge e (in_Authorization rq))
       | inr out => inr out
       end).

End Grants.
