(* ===== verification/UserInfo.v ===== *)
(** * The userinfo endpoint (oidc/userinfo.go)

    GET /userinfo: a resource behind tempogate's own access tokens. The theorems
    compose the handler with the verifier: what a 200 proves, and that a minted
    access token gets its own subject and email back. *)

From S2P Require Import Prelude GoStrings GoErrors Oidc Denylist Keys Signer Verifier Token.

Definition bearerPrefix : string := "Bearer ".

(** [bearerToken(header)]. *)
Definition bearerToken (header : string) : option string :=
  if (String.length header <=? String.length bearerPrefix)%nat
     || negb (EqualFold (String.substring 0 (String.length bearerPrefix) header) bearerPrefix) then None
  else
    let tok := TrimSpace (drop_bytes (String.length bearerPrefix) header) in
    if (tok =? "")%string then None else Some tok.

(** [displayName(email, sub)]: [at > 0] is a non-empty local part. *)
Definition displayName (email sub : string) : string :=
  let rest := if negb (email =? "")%string then email else sub in
  match Cut email "@"%char with
  | Some (local, _) => if (local =? "")%string then rest else local
  | None => rest
  end.

Record userInfoBody := mkUserInfoBody {
  ub_Sub : string;
  ub_IDP : string;
  ub_Email : string;
  ub_EmailVerified : bool;
  ub_Name : string
}.

Section Handle.
Context `{JOSE} `{Env} `{Unicode} {S : Type} `{DenylistChecker S}.

(** [stringClaim(tok, name)] of an optional string claim. *)
Definition stringClaim (v : option string) : string := default "" v.

(** [u.handle(ctx, in)]. *)
Definition UserInfo_handle (v : Verifier) (authorization : string) : M (VState S) userInfoBody :=
  declare "secret" [authorization] ≫= fun _ =>
  let raw := bearerToken authorization in
  declare "secret" [default "" raw] ≫= fun _ =>
  match raw with
  | None => throw (StatusError 401 "missing or malformed Authorization: Bearer header")
  | Some raw =>
      r ← attempt (Verify v raw);
      match r with
      | inl _ => throw (StatusError 401 "the access token is invalid or expired")
      | inr tok =>
          let sub := cl_sub tok in
          if (sub =? "")%string then throw (StatusError 401 "token has no subject")
          else
            let email := stringClaim (cl_email tok) in
            declareIdentity sub email ≫= fun _ =>
            mret (mkUserInfoBody sub (stringClaim (cl_idp tok)) email true (displayName email sub))
      end
  end.

End Handle.

(** ** Facts *)

Section Facts.
Context `{JOSELaws} `{UUIDGen} `{Env} `{Unicode} {S : Type} `{DenylistChecker S} (pem_of : string -> string).

(** What /userinfo answers: either 401, or the claims of a bearer token that
    is an access token of this issuer and audience, valid now and signed by a
    published key, with its own non-empty subject and email. *)
Theorem userinfo_sound v cfg kps authorization (w w' : World (VState S)) r :
  vf_keys v = Some (cfg, kps) -> immutable pem_of kps -> coherent pem_of w ->
  UserInfo_handle v authorization w = (w', r) ->
  match r with
  | inl e => http_status e = 401
  | inr body =>
      exists raw h tok, bearerToken authorization = Some raw /\ h_typ h = AccessTokenType /\
        signed_by_published cfg kps (clock (w_tick w)) raw h tok /\
        claims_valid (clock (Datatypes.S (w_tick w))) (nonempty (vf_issuer v)) (nonempty (vf_audience v)) tok /\
        ub_Sub body = cl_sub tok /\ cl_sub tok <> "" /\ ub_Email body = stringClaim (cl_email tok) /\
        ub_IDP body = stringClaim (cl_idp tok)
  end.
Proof.
  intros Hk Him Hc Hu. unfold UserInfo_handle in Hu. run_in Hu.
  destruct (bearerToken authorization) as [raw|]; [|by run_in Hu].
  unfold attempt in Hu. destruct (Verify v raw _) as [w1 [e|tok]] eqn:Hv; [by run_in Hu|].
  apply (Verify_inr pem_of _ cfg kps) in Hv as (_ & (h & Hty & Hsig) & Hval & _); [|done..]. cbn in Hsig, Hval.
  destruct (cl_sub tok =? "")%string eqn:Hs; run_in Hu; [done|]. apply String.eqb_neq in Hs.
  exists raw, h, tok. done.
Qed.

(** C21. The endpoint's purpose, end to end: an access token [Mint] returned for a
    person, sent as a bearer token while its key is published and it has
    neither expired nor been revoked, is answered with that person's subject,
    email and connector. *)
Theorem userinfo_of_minted {T} sg req (w0 w0' : World T) tok jti cfg0 kps0 v cfg kps (w : World (VState S)) :
  sg_keys sg = Some (cfg0, kps0) -> memo_coherent kps0 w0 -> Mint sg req w0 = (w0', inr (tok, jti)) ->
  mr_Subject req <> "" ->
  serves pem_of v cfg kps w -> vf_issuer v = sg_issuer sg -> vf_audience v = sg_audience sg ->
  (forall kp, Signing kps0 (clock (Datatypes.S (w_tick w0))) (k_publishDelay cfg0) = Some kp ->
     still_published cfg kps (clock (w_tick w)) kp) ->
  clock (w_tick w0) <= clock (Datatypes.S (w_tick w)) ->
  (0 < mr_TTL req -> trunc (clock (Datatypes.S (w_tick w))) < trunc (clock (w_tick w0) + mr_TTL req)) ->
  (vf_denylist v = true -> jti <> "" ->
   forall w1 : World S, w_store w1 = vs_store (w_store w) -> (IsRevoked jti w1).2 = inr false) ->
  (UserInfo_handle v (bearerPrefix +:+ tok) w).2 =
    inr (mkUserInfoBody (mr_Subject req) (mr_IDP req) (mr_Email req) true (displayName (mr_Email req) (mr_Subject req))).
Proof.
  intros Hsk Hmemo Hmint Hsub Hserves Hiss Haud Hpub Hclk Hexp Hden.
  pose proof Hmint as Hm. eapply Mint_inr in Hm as (kp & priv & t0 & t1 & _ & _ & _ & _ & Hsig); [|done|done].
  apply Sign_compact in Hsig as [Hne Htrim].
  assert (bearerToken (bearerPrefix +:+ tok) = Some tok) as Hb.
  { unfold bearerToken. rewrite length_append, substring_append_prefix, drop_bytes_append, Htrim.
    rewrite (proj2 (String.eqb_neq tok "") Hne). destruct tok as [|c tok]; [done|].
    rewrite (proj2 (Nat.leb_gt _ _)) by (cbn; lia). done. }
  unfold UserInfo_handle, declare. rewrite Hb. unfold mbind, M_bind, emit, attempt. cbn [w_store w_tick w_draw w_trace w_memo].
  set (w1 := mkWorld _ _ _ _ _).
  destruct (minted_verifies pem_of sg req w0 w0' tok jti cfg0 kps0 v cfg kps w1) as (c & Hv & Hs & _ & _ & He & Hi & _); try done.
  { by destruct Hserves. }
  destruct (Verify v tok w1) as [w2 r2]. cbn in Hv. subst r2. rewrite Hs, (proj2 (String.eqb_neq _ _) Hsub).
  cbn. rewrite He, Hi. unfold stringClaim, nonempty.
  destruct (mr_Email req =? "")%string eqn:E1; destruct (mr_IDP req =? "")%string eqn:E2;
    try apply String.eqb_eq in E1; try apply String.eqb_eq in E2; cbn; by rewrite ?E1, ?E2.
Qed.

End Facts.
