(* ===== verification/Admin.v ===== *)
(** * The admin API (package admin)

    The guard in front of the private listener, integration keys (mint, read,
    list, revoke), sessions (list, revoke) and signing keys (list, retire), each
    handler with its audit line. The stores are the package's consumer-side
    interfaces; the integration-key handlers run on the store together with the
    denylist cache they hydrate. Whether a string parses as a UUID is third-party
    code. *)

From stdpp Require Import pretty.
From S2P Require Import Prelude GoStrings GoErrors GoEncoding GoCrypto GoNetip Perms Oidc Denylist Keys Signer Sqlite Token.

(** ** The guard (guard.go) *)

Module Guard.

Definition fingerprintLen : nat := 8.

Record Guard := mkGuard {
  gd_digests : list string;
  gd_exact : gset string;
  gd_anyPort : gset string
}.

(** [strings.Trim(s, "[]")]. *)
Definition is_bracket (c : ascii) : bool := Ascii.eqb c "[" || Ascii.eqb c "]".

Fixpoint trim_left (s : string) : string :=
  match s with String c s' => if is_bracket c then trim_left s' else s | "" => "" end.

Fixpoint trim_right (s : string) : string :=
  match s with
  | "" => ""
  | String c s' =>
      match trim_right s' with
      | "" => if is_bracket c then "" else String c ""
      | t => String c t
      end
  end.

Definition Trim_brackets (s : string) : string := trim_right (trim_left s).

(** One host of [WithAllowedHosts]. *)
Definition allow_host `{Unicode} (g : Guard) (h : string) : Guard :=
  let h := ToLower (TrimSpace h) in
  match SplitHostPort h with
  | Some _ => mkGuard (gd_digests g) ({[h]} ∪ gd_exact g) (gd_anyPort g)
  | None => mkGuard (gd_digests g) (gd_exact g) ({[Trim_brackets h]} ∪ gd_anyPort g)
  end.

(** [NewGuard(WithTokenDigests(digests), WithAllowedHosts(hosts))]. *)
Definition NewGuard `{Unicode} (digests : list string) (hosts : list string) : Guard :=
  foldl allow_host (mkGuard digests ∅ ∅) hosts.

Fixpoint parse_digests (entries : list string) (out : list string) : error + list string :=
  match entries with
  | [] => inr out
  | entry :: entries =>
      let entry := TrimSpace entry in
      if (entry =? "")%string then parse_digests entries out
      else
        let bad := inl (Opaque "admin: ADMIN_TOKEN_SHA256 entry is not a 64-char hex SHA-256 digest") in
        match hex_Decode entry with
        | None => bad
        | Some b => if negb (String.length b =? 32)%nat then bad else parse_digests entries (out ++ [b])
        end
  end.

(** [ParseTokenDigests(csv)]; the message names only the position. *)
Definition ParseTokenDigests (csv : string) : error + list string := parse_digests (Split csv ",") [].

Definition hostAllowed `{Unicode} (g : Guard) (host : string) : bool :=
  let host := ToLower host in
  if bool_decide (host ∈ gd_exact g) then true
  else
    let host := match SplitHostPort host with Some h => h | None => host end in
    bool_decide (Trim_brackets host ∈ gd_anyPort g).

Definition admin_bearerToken (header : string) : string * bool :=
  match Cut header " " with
  | None => ("", false)
  | Some (scheme, token) =>
      if negb (EqualFold scheme "Bearer") then ("", false)
      else let token := TrimSpace token in (token, negb (token =? "")%string)
  end.

(** The loop of [g.match]: the first digest equal to the sum. *)
Fixpoint match_loop (sum : string) (digests : list string) (matched : option string) : option string :=
  match digests with
  | [] => matched
  | d :: digests =>
      match_loop sum digests
        (if (sum =? d)%string && bool_decide (matched = None) then Some d else matched)
  end.

Definition match_ (g : Guard) (token : string) : option string :=
  match match_loop (sha256_Sum256 token) (gd_digests g) None with
  | None => None
  | Some d => Some (String.substring 0 fingerprintLen (hex_Encode d))
  end.

(** What the guard reads of a request, and the caller it hands to handlers. *)
Record Request := mkRequest {
  rq_Host : string; rq_Authorization : string; rq_RemoteAddr : string; rq_Method : string; rq_Path : string
}.

Record caller := mkCaller { c_fingerprint : string; c_remoteAddr : string }.

(** A refused request: its status, challenge and message. *)
Record Rejection := mkRejection { rj_Status : Z; rj_WWWAuthenticate : option string; rj_Message : string }.

Definition quoted (s : string) : string := String (byte_of 34) (s +:+ String (byte_of 34) "").

Section Middleware.
Context `{Unicode} {S A : Type}.

Definition reject (rq : Request) (status : Z) (reason msg : string) : M S (Rejection + A) :=
  emit (Logged "admin request rejected"
          [("action", "authenticate"); ("outcome", "denied"); ("reason", reason); ("method", rq_Method rq);
           ("path", rq_Path rq); ("host", rq_Host rq); ("remote_addr", rq_RemoteAddr rq)]) ≫= fun _ =>
  mret (inl (mkRejection status
               (if status =? 401 then Some ("Bearer realm=" +:+ quoted "tempogate-admin") else None) msg)).

(** [g.middleware(api)], around the handler [next]. *)
Definition middleware (g : Guard) (rq : Request) (next : caller -> M S A) : M S (Rejection + A) :=
  if negb (hostAllowed g (rq_Host rq)) then reject rq 421 "host_not_allowed" "host not allowed"
  else
    emit (Declared "secret" [rq_Authorization rq]) ≫= fun _ =>
    let '(token, ok) := admin_bearerToken (rq_Authorization rq) in
    emit (Declared "secret" [token]) ≫= fun _ =>
    if bool_decide (gd_digests g = [])
    then reject rq 401 "locked" "admin API is locked: no ADMIN_TOKEN_SHA256 configured"
    else if negb ok then reject rq 401 "missing_credentials" "bearer token required"
    else
      match match_ g token with
      | None => reject rq 401 "invalid_token" "invalid bearer token"
      | Some fp => a ← next (mkCaller fp (rq_RemoteAddr rq)); mret (inr a)
      end.

End Middleware.
End Guard.

(** ** The stores (store.go) *)

Class KeyRegistry (R : Type) := {
  Save : IntegrationKey -> storeOp R (option error);
  ByID : string -> storeOp R (IntegrationKey * option error);
  List_ : ListFilter -> storeOp R (list IntegrationKey * option error);
  MarkRevoked : string -> time -> storeOp R (string * option error)
}.

Class SessionStore (R : Type) := {
  ListSessions : RefreshSessionFilter -> time -> storeOp R (list RefreshSession * option error);
  RevokeFamily : string -> time -> storeOp R (Z * option error);
  RevokeEmail : string -> time -> storeOp R (Z * option error);
  RevokeSubject : string -> string -> time -> storeOp R (Z * option error)
}.

(** [uuid.Parse(s)] succeeds. *)
Class UUIDParse := { uuid_Parse : string -> bool }.

(** [auditOutcome(err)], of the error if any. *)
Definition auditOutcome (err : option error) : string :=
  match err with
  | None => "success"
  | Some e =>
      if errors_Is e ErrIntegrationKeyNotFound || errors_Is e ErrSessionNotFound then "not_found"
      else if bool_decide (errors_As_status e = Some 403) then "denied"
      else if bool_decide (errors_As_status e = Some 400) then "invalid"
      else "error"
  end.

Definition err_of {A} (r : error + A) : option error := match r with inl e => Some e | inr _ => None end.

(** ** Integration keys (model.go, keys.go) *)

Module AdminKeys.
Import Guard.

Definition DefaultMaxTTL : duration := 90 * 24 * Hour.
Definition defaultListLimit : Z := 50.
Definition maxListLimit : Z := 200.

Definition ErrInvalidRole_admin : error := Errorf "admin" (Sentinel ErrInvalidRole).
Definition ErrWorkerRole_admin : error := Errorf "admin" (Sentinel ErrWorkerRole).

(** [err.Error()] of the validation errors. *)
Definition validation_message (e : error) : string :=
  if errors_Is e ErrInvalidRole then "admin: perms: role must be one of read/write/worker/admin"
  else if errors_Is e ErrWorkerRole
  then "admin: perms: worker grants nothing under Temporal's default authorizer; use write"
  else if errors_Is e ErrEmptyOwner then "admin: owner is required" else "admin: namespace is required".

(** [k.Validate()]. *)
Definition IntegrationKey_Validate (k : IntegrationKey) : option error :=
  if (ik_Namespace k =? "")%string then Some (Sentinel ErrAdminEmptyNamespace)
  else if (ik_Owner k =? "")%string then Some (Sentinel ErrEmptyOwner)
  else if negb (Role_Valid (ik_Role k)) then Some ErrInvalidRole_admin
  else if (ik_Role k =? RoleWorker)%string then Some ErrWorkerRole_admin
  else None.

(** [k.Grant()]. *)
Definition Grant_ (k : IntegrationKey) : gmap string string := New [AddNamespace (ik_Namespace k) (ik_Role k)].

Record AdminKeys := mkAdminKeys {
  ak_signer : Signer;
  ak_hydrator : bool;
  ak_systemGrants : bool;
  ak_maxTTL : duration;
  ak_defaultLimit : Z;
  ak_maxLimit : Z
}.

(** [NewKeys(registry, signer, opts...)]. *)
Definition NewKeys (signer : Signer) (hydrator systemGrants : bool) (maxTTL : option duration) : AdminKeys :=
  mkAdminKeys signer hydrator systemGrants (default DefaultMaxTTL maxTTL) defaultListLimit maxListLimit.

Record createBody := mkCreateBody {
  cb_Namespace : string; cb_Role : string; cb_Owner : string; cb_ExpiresAt : option time
}.

Record createOutput := mkCreateOutput {
  co_Status : Z; co_ID : string; co_JWT : string; co_ExpiresAt : option time
}.

Record keyView := mkKeyView {
  kv_ID : string; kv_Namespace : string; kv_Role : string; kv_Owner : string;
  kv_CreatedAt : time; kv_ExpiresAt : option time; kv_RevokedAt : option time
}.

Definition viewOf (k : IntegrationKey) : keyView :=
  mkKeyView (ik_ID k) (ik_Namespace k) (ik_Role k) (ik_Owner k) (ik_CreatedAt k) (ik_ExpiresAt k) (ik_RevokedAt k).

Record listInput := mkListInput { li_Owner : string; li_Namespace : string; li_Limit : Z; li_Cursor : string }.
Record listBody := mkListBody { lb_Items : list keyView; lb_NextCursor : string }.

Section Handlers.
Context `{Unicode} `{JWX} `{UUIDGen} `{UUIDParse} `{Env} `{MapOrder} {R : Type} `{KeyRegistry R}.
Implicit Types (h : AdminKeys) (k : IntegrationKey).

Definition on_registry {A} (op : storeOp R A) : M (Cached R) A :=
  on_store (fun p => let (s', r) := op (ca_store p) in (mkCached s' (ca_cache p), r)).

(** [h.newID()]. *)
Definition newID : M (Cached R) string := fun w =>
  match uuid_NewV7 (w_draw w) with
  | None => (w, inl (Errorf "admin: generate id" (Opaque "uuid")))
  | Some id => (mkWorld (w_store w) (w_tick w) (Datatypes.S (w_draw w)) (w_trace w) (w_memo w), inr id)
  end.

Definition audit_key (c : caller) (action outcome : string) k : M (Cached R) unit :=
  emit (Logged "admin audit"
          [("action", action); ("outcome", outcome); ("id", ik_ID k); ("jti", ik_JTI k);
           ("namespace", ik_Namespace k); ("role", ik_Role k); ("owner", ik_Owner k);
           ("caller", c_fingerprint c); ("remote_addr", c_remoteAddr c)]).

(** The key as [mint_key] stamps it. *)
Definition stamp k (id jti : string) (now_ : time) : IntegrationKey :=
  mkIntegrationKey id (ik_Namespace k) (ik_Role k) (ik_Owner k) jti now_ (ik_ExpiresAt k) (ik_RevokedAt k).

(** [h.mint(ctx, k)]: the key as it leaves it, and the response or the error. *)
Definition mint_key h k : M (Cached R) (IntegrationKey * (error + createOutput)) :=
  let fail e := mret (k, inl e) in
  emit (Declared "pii" [ik_Owner k]) ≫= fun _ =>
  match IntegrationKey_Validate k with
  | Some e =>
      fail (StatusError (if errors_Is e ErrWorkerRole then 422 else 400) (validation_message e))
  | None =>
      if (ik_Namespace k =? SystemNamespace)%string && negb (ak_systemGrants h) then
        fail (StatusError 403
          "temporal-system grants are cluster-wide and disabled; set ADMIN_ALLOW_SYSTEM_GRANTS=true to allow them")
      else
        i ← attempt newID;
        match i with
        | inl e => fail (Errorf "admin: generate id" e)
        | inr id =>
            now_ ← now;
            match ik_ExpiresAt k with
            | None => fail (StatusError 400 "expires_at is required")
            | Some exp =>
                let ttl := time_Sub exp now_ in
                if ttl <=? 0 then fail (StatusError 400 "expires_at must be in the future")
                else if ak_maxTTL h <? ttl
                then fail (StatusError 400 "expires_at must be at most ADMIN_KEYS_MAX_TTL from now")
                else
                  m ← attempt (Mint (ak_signer h)
                                 (mkMintRequest (ik_Owner k) (ToClaim (Some (Grant_ k))) ttl "" "" ""));
                  match m with
                  | inl e => fail (Errorf "admin: mint jwt" e)
                  | inr (signed, jti) =>
                      emit (Declared "secret" [signed]) ≫= fun _ =>
                      let k := stamp k id jti now_ in
                      e ← on_registry (Save k);
                      match e with
                      | Some e => mret (k, inl (Errorf "admin: save integration key" e))
                      | None => mret (k, inr (mkCreateOutput 201 id signed (ik_ExpiresAt k)))
                      end
                  end
            end
        end
  end.

(** [h.create(ctx, in)]. *)
Definition create h (c : caller) (b : createBody) : M (Cached R) createOutput :=
  let k := mkIntegrationKey "" (cb_Namespace b) (cb_Role b) (cb_Owner b) "" zeroTime (cb_ExpiresAt b) None in
  kr ← mint_key h k;
  let '(k, r) := kr in
  audit_key c "create" (auditOutcome (err_of r)) k ≫= fun _ =>
  match r with inl e => throw e | inr out => mret out end.

(** [h.get(ctx, in)]. *)
Definition get_key (id : string) : M (Cached R) keyView :=
  r ← on_registry (ByID id);
  match r with
  | (row, None) => mret (viewOf row)
  | (_, Some e) =>
      if errors_Is e ErrIntegrationKeyNotFound then throw (StatusError 404 "integration key not found")
      else throw (Errorf "admin: get integration key" e)
  end.

Definition page_limit h (limit : Z) : Z :=
  if limit <=? 0 then ak_defaultLimit h else if ak_maxLimit h <? limit then ak_maxLimit h else limit.

(** [h.list(ctx, in)]: the page, out of the rows the store returns. *)
Definition list_page (limit : Z) (rows : list IntegrationKey) : listBody :=
  if limit <? Z.of_nat (length rows) then
    mkListBody (map viewOf (firstn (Z.to_nat limit) rows))
      (ik_ID (nth (Z.to_nat (limit - 1)) rows zeroIntegrationKey))
  else mkListBody (map viewOf rows) "".

Definition list_keys h (inp : listInput) : M (Cached R) listBody :=
  let limit := page_limit h (li_Limit inp) in
  if negb (li_Cursor inp =? "")%string && negb (uuid_Parse (li_Cursor inp))
  then throw (StatusError 400 "cursor is not a valid id")
  else
    r ← on_registry (List_ (mkListFilter (li_Owner inp) (li_Namespace inp) limit (li_Cursor inp)));
    match r with
    | (_, Some e) => throw (Errorf "admin: list integration keys" e)
    | (rows, None) => mret (list_page limit rows)
    end.

(** [h.hydrator.Hydrate(jti)]: the cache reads its clock only to store. *)
Definition hydrate (jti : string) : M (Cached R) unit :=
  if (jti =? "")%string then mret tt
  else t ← now; on_cache (fun c => (Hydrate c jti t, tt)).

(** [h.revoke(ctx, id)]. *)
Definition revoke_key h (id : string) : M (Cached R) string :=
  t ← now;
  r ← on_registry (MarkRevoked id t);
  jti ← or_throw (fun e => e) r;
  (if ak_hydrator h then hydrate jti else mret tt) ≫= fun _ =>
  mret jti.

(** [h.delete(ctx, in)]. *)
Definition delete_ h (c : caller) (id : string) : M (Cached R) Z :=
  r ← attempt (revoke_key h id);
  let stub jti := mkIntegrationKey id "" "" "" jti zeroTime None None in
  row ← match r with
        | inl _ => mret (stub "")
        | inr jti =>
            got ← on_registry (ByID id);
            mret (match got with (row, None) => row | (_, Some _) => stub jti end)
        end;
  audit_key c "revoke" (auditOutcome (err_of r)) row ≫= fun _ =>
  match r with
  | inr _ => mret 204
  | inl e =>
      if errors_Is e ErrIntegrationKeyNotFound then throw (StatusError 404 "integration key not found")
      else throw (Errorf "admin: revoke integration key" e)
  end.

End Handlers.
End AdminKeys.

(** ** Sessions (sessions.go) *)

Module AdminSessions.
Import Guard.

Record sessionView := mkSessionView {
  sv_FamilyID : string; sv_ClientID : string; sv_Email : string; sv_Subject : string; sv_Connector : string;
  sv_AuthTime : time; sv_LastRotationAt : time; sv_ExpiresAt : time
}.

Record sessionRevokeBody := mkRevokeBody { rb_Email : string; rb_Subject : string; rb_FamilyID : string }.

Definition session_view (r : RefreshSession) : sessionView :=
  mkSessionView (rs_FamilyID r) (rs_ClientID r) (rs_Email r) (TokenSubject (rs_ConnectorID r) (rs_Subject r))
    (rs_ConnectorID r) (rs_AuthTime r) (rs_RotatedAt r) (rs_ExpiresAt r).

Section Handlers.
Context `{Unicode} `{Env} {R : Type} `{SessionStore R}.

Definition declare_pii (email subject : string) : M R unit :=
  emit (Declared "pii" [email; ToLower email; subject]).

Definition parseSubject (sub : string) : M R (string * string) :=
  match ParseTokenSubject sub with
  | inl _ => throw (StatusError 400 "subject must be a token sub, <connector>:<upstream sub> (e.g. google:1234)")
  | inr p => mret p
  end.

Fixpoint declare_rows (rows : list RefreshSession) : M R unit :=
  match rows with
  | [] => mret tt
  | r :: rows => declare_pii (rs_Email r) (rs_Subject r) ≫= fun _ => declare_rows rows
  end.

(** [h.list(ctx, in)]. *)
Definition list_sessions (email subject : string) : M R (list sessionView) :=
  declare_pii email subject ≫= fun _ =>
  cs ← (if negb (subject =? "")%string then parseSubject subject else mret ("", ""));
  t ← now;
  r ← on_store (ListSessions (mkSessionFilter email cs.1 cs.2) t);
  rows ← or_throw (Errorf "admin: list sessions") r;
  declare_rows rows ≫= fun _ =>
  mret (map session_view rows).

Definition selectors (b : sessionRevokeBody) : nat :=
  length (List.filter (fun v => negb (v =? "")%string) [rb_Email b; rb_Subject b; rb_FamilyID b]).

(** [h.revokeBy(ctx, b)]: a count and an error, as the stores return both. *)
Definition revokeBy (b : sessionRevokeBody) : M R (Z * option error) :=
  declare_pii (rb_Email b) (rb_Subject b) ≫= fun _ =>
  if negb (selectors b =? 1)%nat
  then mret (0, Some (StatusError 400 "exactly one of email, subject or family_id must be non-empty"))
  else
    t ← now;
    if negb (rb_Email b =? "")%string then on_store (RevokeEmail (rb_Email b) t)
    else if negb (rb_Subject b =? "")%string then
      p ← attempt (parseSubject (rb_Subject b));
      match p with
      | inl e => mret (0, Some e)
      | inr (connectorID, subject) => on_store (RevokeSubject connectorID subject t)
      end
    else on_store (RevokeFamily (rb_FamilyID b) t).

Definition audit_sessions (c : caller) (b : sessionRevokeBody) (revoked : Z) (err : option error) : M R unit :=
  emit (Logged "admin audit"
          [("action", "revoke_sessions"); ("outcome", auditOutcome err); ("email", rb_Email b);
           ("subject", rb_Subject b); ("family_id", rb_FamilyID b); ("revoked", pretty revoked);
           ("caller", c_fingerprint c); ("remote_addr", c_remoteAddr c)]).

(** [h.revoke(ctx, in)]. *)
Definition revoke_sessions (c : caller) (b : sessionRevokeBody) : M R Z :=
  r ← revokeBy b;
  let '(n, err) := r in
  audit_sessions c b n err ≫= fun _ =>
  match err with
  | None => mret n
  | Some e =>
      if errors_Is e ErrSessionNotFound then throw (StatusError 404 "session not found")
      else match errors_As_status e with
           | Some _ => throw e
           | None => throw (Errorf "admin: revoke sessions" e)
           end
  end.

End Handlers.
End AdminSessions.

(** ** Signing keys (signing_keys.go) *)

Module AdminSigningKeys.
Import Guard.

Record signingKeyView := mkSigningKeyView {
  sk_Kid : string; sk_Alg : string; sk_CreatedAt : time; sk_RetiredAt : option time;
  sk_Active : bool; sk_ActivatesAt : option time
}.

Definition signingKeyViewOf (kp : Keypair) (active : bool) : signingKeyView :=
  mkSigningKeyView (Kid kp) (Alg kp) (CreatedAt kp) (RetiredAt kp) active None.

Definition set_ActivatesAt (v : signingKeyView) (at_ : option time) : signingKeyView :=
  mkSigningKeyView (sk_Kid v) (sk_Alg v) (sk_CreatedAt v) (sk_RetiredAt v) (sk_Active v) at_.

Section Handlers.
Context `{AEAD} `{RSAKeyGen} `{Env} {S : Type} `{KeyStore S}.

(** [h.list(ctx)]. *)
Definition list_signing_keys (cfg : KeysCfg) : M (KeyState S) (list signingKeyView) :=
  r ← attempt (Statuses cfg);
  match r with
  | inl e => throw (Errorf "admin: list signing keys" e)
  | inr sts => mret (map (fun st => set_ActivatesAt (signingKeyViewOf (st_Keypair st) (st_Signing st)) (st_ActivatesAt st)) sts)
  end.

(** The outcome [h.audit] writes. *)
Definition retire_outcome (err : option error) : string :=
  match err with
  | None => "success"
  | Some e =>
      if errors_Is e ErrKeypairNotFound then "not_found"
      else if errors_Is e ErrLastActiveKeypair then "conflict"
      else if errors_Is e ErrReplacementPending then "replacement_pending"
      else "error"
  end.

(** [errors.As(err, &pending)] for [pending *keys.ReplacementPendingError]. *)
Fixpoint errors_As_pending (e : error) : option (string * time) :=
  match e with
  | ReplacementPending kid at_ => Some (kid, at_)
  | Errorf _ e' | UpstreamError _ _ _ e' => errors_As_pending e'
  | _ => None
  end.

(** [h.retire(ctx, in)]. *)
Definition retire_key (cfg : KeysCfg) (c : caller) (kid : string) (force : bool) : M (KeyState S) signingKeyView :=
  r ← attempt (Retire cfg kid force);
  emit (Logged "admin audit"
          [("action", "retire_signing_key"); ("outcome", retire_outcome (err_of r)); ("kid", kid);
           ("force", if force then "true" else "false");
           ("caller", c_fingerprint c); ("remote_addr", c_remoteAddr c)]) ≫= fun _ =>
  match r with
  | inr kp => mret (signingKeyViewOf kp false)
  | inl e =>
      if errors_Is e ErrKeypairNotFound then throw (StatusError 404 "signing key not found")
      else if errors_Is e ErrLastActiveKeypair
      then throw (StatusError 409 "this is the only active signing key; run `tempogate keys generate --force` first")
      else match errors_As_pending e with
           | Some (kid', _) =>
               throw (StatusError 409 ("the replacement signing key " +:+ kid' +:+ " is still inside KEYS_PUBLISH_DELAY"))
           | None => throw (Errorf "admin: retire signing key" e)
           end
  end.

End Handlers.
End AdminSigningKeys.
