(* ===== verification/VerifierExamples.v ===== *)
(** * The verifier at concrete inputs

    A token library that knows three tokens, two access tokens and an ID token of
    one key, and keeps the laws of [JOSELaws]; the theorems of the verifier, the
    published key set and the userinfo endpoint applied to it. *)

From S2P Require Import Prelude GoStrings GoErrors GoEncoding Oidc Denylist Keys Signer Verifier Token UserInfo.

Module VerifierExample.

Definition sg_cfg : KeysCfg := defaultKeysCfg.
Definition key1 : Keypair := mkKeypair "k1" AlgRS256 "priv1" "pub1" (- Hour) None.
(** The same key, retired at second 20. *)
Definition key1_retired : Keypair := mkKeypair "k1" AlgRS256 "priv1" "pub1" (- Hour) (Some (20 * Second)).
Definition key2 : Keypair := mkKeypair "k2" AlgRS256 "priv2" "pub2" (10 * Second) None.

Definition signer : Signer := mkSigner (Some (sg_cfg, [key1])) "https://sso.example.com" "temporal".
Definition req : MintRequest :=
  mkMintRequest "google:1" ["default:read"] Hour "alice@example.com" "google" "tempogate-cli".
Definition id_req : IDTokenRequest :=
  mkIDTokenRequest "google:1" "alice@example.com" "google" "tempogate-cli" "n" 0 Hour.

Definition access : Claims :=
  mkClaims "google:1" (Some "https://sso.example.com") ["temporal"] 0 0 (Some Hour) "0198"
    (Some ["default:read"]) (Some "alice@example.com") None None None (Some "tempogate-cli") (Some "google").
Definition id_token : Claims :=
  mkClaims "google:1" (Some "https://sso.example.com") ["tempogate-cli"] 0 0 (Some Hour) "0198"
    None (Some "alice@example.com") (Some true) (Some "n") (Some 0) None (Some "google").

(** What POST /admin/keys mints for the owner "ci" at second 1. *)
Definition integration : Claims :=
  mkClaims "ci" (Some "https://sso.example.com") ["temporal"] Second Second (Some (Second + Hour)) "0198"
    (Some ["default:write"]) None None None None None None.

Definition access_header : Header := mkHeader "k1" AccessTokenType.
Definition id_header : Header := mkHeader "k1" idTokenType.

#[export] Instance Header_eq_dec : EqDecision Header.
Proof. solve_decision. Defined.

(** Compact serialization, header, claims and verification key. *)
Definition tokens : list (string * Header * Claims * string) :=
  [("h.a.s", access_header, wire access, "pub1"); ("h.i.s", id_header, wire id_token, "pub1");
   ("h.k.s", access_header, wire integration, "pub1")].

Definition claims_validb (t : time) (iss aud : option string) (c : Claims) : bool :=
  match cl_exp c with Some e => trunc t <? trunc e | None => true end &&
  (trunc (cl_nbf c) <=? trunc t) && (trunc (cl_iat c) <=? trunc t) &&
  match iss with Some i => bool_decide (cl_iss c = Some i) | None => true end &&
  match aud with Some a => bool_decide (a ∈ cl_aud c) | None => true end.

Lemma claims_validb_spec t iss aud c : claims_validb t iss aud c = true <-> claims_valid t iss aud c.
Proof.
  unfold claims_validb. rewrite !andb_true_iff, !Z.leb_le. split.
  - intros [[[[He Hn] Hi] Hs] Ha]. constructor; [|done|done| |].
    + intros e E. rewrite E in He. lia.
    + intros i ->. by apply bool_decide_eq_true in Hs.
    + intros a ->. by apply bool_decide_eq_true, list_elem_of_In in Ha.
  - intros [He Hn Hi Hs Ha]. split_and?; [|done|done| |].
    + destruct (cl_exp c); [|done]. apply Z.ltb_lt. auto.
    + destruct iss; [|done]. apply bool_decide_eq_true. auto.
    + destruct aud; [|done]. apply bool_decide_eq_true, list_elem_of_In. auto.
Qed.

#[export] Instance two_jwx : JWX := {
  jwk_ParsePrivate pem := Some pem;
  jwt_Build _ := true;
  jwt_Sign h c priv :=
    if decide (h = access_header /\ c = access /\ priv = "priv1") then Some "h.a.s"
    else if decide (h = id_header /\ c = id_token /\ priv = "priv1") then Some "h.i.s"
    else if decide (h = access_header /\ c = integration /\ priv = "priv1") then Some "h.k.s" else None
}.

#[export] Instance two_jose : JOSE := {
  jwk_ParsePublic pem := Some (mkJwkKey "" "" pem);
  jwk_SetKeyID kid k := Some (mkJwkKey kid (jk_alg k) (jk_pub k));
  jwk_SetAlgorithm alg k := Some (mkJwkKey (jk_kid k) alg (jk_pub k));
  set_AddKey k set := Some (set ++ [k]);
  set_LookupKeyID kid set := List.find (fun k => (jk_kid k =? kid)%string) set;
  jwt_Parse set t iss aud raw :=
    match List.find (fun x => (x.1.1.1 =? raw)%string) tokens with
    | Some (_, h, c, pub) =>
        if existsb (fun k => (jk_kid k =? h_kid h)%string && (jk_pub k =? pub)%string) set
           && claims_validb t iss aud c then Some c else None
    | None => None
    end;
  jws_Parse raw :=
    match List.find (fun x => (x.1.1.1 =? raw)%string) tokens with Some (_, h, _, _) => Some h | None => None end
}.

Lemma tokens_find raw h c pub :
  In (raw, h, c, pub) tokens <-> List.find (fun x => (x.1.1.1 =? raw)%string) tokens = Some (raw, h, c, pub).
Proof.
  split.
  - intros [E|[E|[E|[]]]]; injection E as <- <- <- <-; reflexivity.
  - intros Hf. by apply List.find_some in Hf as [? _].
Qed.

#[export] Instance two_laws : JOSELaws.
Proof.
  refine {| signed raw h c pub := In (raw, h, c, pub) tokens; key_pair priv pub := priv = "priv1" /\ pub = "pub1" |}.
  - intros kid k. eexists. split; [reflexivity|done].
  - intros alg k. eexists. split; [reflexivity|done].
  - by intros k set set' [= <-].
  - done.
  - intros kid set k [Hin Hk]%List.find_some. by apply String.eqb_eq in Hk.
  - intros set t iss aud raw c. cbn [jwt_Parse two_jose].
    destruct (List.find _ tokens) as [[[[raw' h] c'] pub]|] eqn:Hf; [|done].
    destruct (existsb _ set) eqn:He; cbn [andb]; [|done]. destruct (claims_validb _ _ _ _) eqn:Hv; [|done]. intros [= <-].
    apply claims_validb_spec in Hv. split; [|done]. apply existsb_exists in He as (k & Hin & Hk).
    apply andb_true_iff in Hk as [Hk1 Hk2]. apply String.eqb_eq in Hk1, Hk2. exists k, h. split; [done|]. split; [done|].
    pose proof (List.find_some _ _ Hf) as [Hin2 Hr]. apply String.eqb_eq in Hr. cbn in Hr. by rewrite <- Hr, Hk2.
  - intros set t iss aud raw c k h _ Hin Hk Hs Hv. cbn [jwt_Parse two_jose]. rewrite (proj1 (tokens_find _ _ _ _) Hs).
    rewrite (proj2 (claims_validb_spec _ _ _ _) Hv). replace (existsb _ set) with true; [done|].
    symmetry. apply existsb_exists. exists k. split; [done|]. by rewrite Hk, !String.eqb_refl.
  - intros raw h c pub Hs. cbn [jws_Parse two_jose]. by rewrite (proj1 (tokens_find _ _ _ _) Hs).
  - intros h c priv pub raw Hs [-> ->]. cbn [jwt_Sign two_jwx] in Hs.
    destruct (decide _) as [(-> & -> & _)|]; [injection Hs as <-; by left|].
    destruct (decide _) as [(-> & -> & _)|]; [injection Hs as <-; right; by left|].
    destruct (decide _) as [(-> & -> & _)|]; [injection Hs as <-; right; right; by left|done].
  - intros h c priv raw Hs. cbn [jwt_Sign two_jwx] in Hs.
    destruct (decide _); [injection Hs as <-; done|]. destruct (decide _); [injection Hs as <-; done|].
    destruct (decide _); [injection Hs as <-; done|done].
Defined.

#[export] Instance uuid_0198 : UUIDGen := { uuid_NewV7 _ := Some "0198" }.
#[export] Instance second_clock : Env := { clock i := Z.of_nat i * Second; entropy i n := None }.
#[export] Instance no_unicode : Unicode := { unicode_lower s := s }.
#[export] Instance table_checker : DenylistChecker (gmap string time) :=
  {| IsRevoked jti := on_store (fun d => (d, bool_decide (is_Some (d !! jti)))) |}.
#[export] Instance table_spec : DenylistStore (gmap string time).
Proof.
  refine {| denied d := d; steady _ := True |}. intros w w' jti _ [= _ Hb]. cbn.
  apply bool_decide_eq_false in Hb. by apply eq_None_not_Some.
Defined.

Definition pem_of (kid : string) : string := if (kid =? "k1")%string then "pub1" else "pub2".

(** Minted at second 0; verified at second 30, the key retired meanwhile, the
    key set memo still from before the rotation. *)
Definition mint_world : World unit := mkWorld tt 0 0 [] None.
Definition verifier : Verifier :=
  mkVerifier (Some (sg_cfg, [key1_retired; key2])) "https://sso.example.com" "temporal" true.
Definition old_memo : option verifyKeySet := Some (mkVerifyKeySet ["k1"] [mkJwkKey "k1" "RS256" "pub1"]).
Definition verify_world (d : gmap string time) : World (VState (gmap string time)) :=
  mkWorld (mkVState d old_memo) 30 0 [] None.

Lemma keys_immutable : immutable pem_of [key1_retired; key2].
Proof. intros kp [<-|[<-|[]]]; reflexivity. Qed.

Lemma memo_fits d : coherent pem_of (verify_world d).
Proof.
  intros p [= <-]. constructor; [|constructor]. split; [done|]. exists (mkJwkKey "" "" "pub1"). done.
Qed.

Lemma verifier_serves d : serves pem_of verifier sg_cfg [key1_retired; key2] (verify_world d).
Proof.
  constructor; [reflexivity|apply keys_immutable|apply memo_fits|by repeat constructor; set_solver|]. intros kp _. eexists. reflexivity.
Qed.

Lemma key1_published kp :
  Signing [key1] (clock 1) (k_publishDelay sg_cfg) = Some kp ->
  still_published sg_cfg [key1_retired; key2] (clock 30) kp.
Proof.
  intros E. vm_compute in E. injection E as <-. intros priv [= <-].
  exists key1_retired, (mkJwkKey "" "" "pub1"). split; [by left|]. split; [done|]. split; [vm_compute; reflexivity|]. done.
Qed.

Lemma not_revoked (w1 : World (gmap string time)) : w_store w1 = ∅ -> (IsRevoked "0198" w1).2 = inr false.
Proof. intros E. cbn. unfold on_store. rewrite E. reflexivity. Qed.

Lemma minted_token_verifies_witness :
  exists c, (Verify verifier "h.a.s" (verify_world ∅)).2 = inr c /\ cl_sub c = "google:1" /\ cl_jti c = "0198" /\
    cl_permissions c = Some ["default:read"] /\ cl_email c = Some "alice@example.com" /\
    cl_idp c = Some "google" /\ cl_client_id c = Some "tempogate-cli".
Proof.
  apply (minted_token_verifies pem_of signer req mint_world (Mint signer req mint_world).1 "h.a.s" "0198"
    sg_cfg [key1] verifier sg_cfg [key1_retired; key2] (verify_world ∅)).
  - reflexivity.
  - intros kid raw [=].
  - vm_compute. reflexivity.
  - apply verifier_serves.
  - reflexivity.
  - reflexivity.
  - apply key1_published.
  - vm_compute. discriminate.
  - intros _. vm_compute. reflexivity.
  - intros _ _ w1 E. by apply not_revoked.
Defined.

Lemma userinfo_of_minted_witness :
  (UserInfo_handle verifier "Bearer h.a.s" (verify_world ∅)).2 =
    inr (mkUserInfoBody "google:1" "google" "alice@example.com" true "alice").
Proof.
  apply (userinfo_of_minted pem_of signer req mint_world (Mint signer req mint_world).1 "h.a.s" "0198"
    sg_cfg [key1] verifier sg_cfg [key1_retired; key2] (verify_world ∅)).
  - reflexivity.
  - intros kid raw [=].
  - vm_compute. reflexivity.
  - discriminate.
  - apply verifier_serves.
  - reflexivity.
  - reflexivity.
  - apply key1_published.
  - vm_compute. discriminate.
  - intros _. vm_compute. reflexivity.
  - intros _ _ w1 E. by apply not_revoked.
Defined.

Definition verified := (Verify verifier "h.a.s" (verify_world ∅)).1.

Lemma Verify_sound_witness :
  exists h, h_typ h = AccessTokenType /\
    signed_by_published sg_cfg [key1_retired; key2] (clock 30) "h.a.s" h (wire access).
Proof.
  destruct (Verify_sound pem_of verifier sg_cfg [key1_retired; key2] "h.a.s" (verify_world ∅) verified (wire access))
    as (_ & Hh & _ & _).
  - reflexivity.
  - apply keys_immutable.
  - apply memo_fits.
  - vm_compute. reflexivity.
  - exact Hh.
Defined.

Lemma id_token_refused_witness : exists e, (Verify verifier "h.i.s" (verify_world ∅)).2 = inl e.
Proof.
  apply (id_token_refused signer id_req mint_world (MintIDToken signer id_req mint_world).1 "h.i.s"
    sg_cfg [key1] verifier (verify_world ∅)).
  - reflexivity.
  - intros kid raw [=].
  - vm_compute. reflexivity.
  - intros kp priv [<-|[]] [= <-]. exists "pub1". done.
Defined.

Definition userinfo_done := (UserInfo_handle verifier "bearer h.a.s" (verify_world ∅)).1.

Lemma userinfo_sound_witness :
  exists raw h tok, bearerToken "bearer h.a.s" = Some raw /\ h_typ h = AccessTokenType /\
    signed_by_published sg_cfg [key1_retired; key2] (clock 30) raw h tok.
Proof.
  destruct (userinfo_sound pem_of verifier sg_cfg [key1_retired; key2] "bearer h.a.s" (verify_world ∅) userinfo_done
    (inr (mkUserInfoBody "google:1" "google" "alice@example.com" true "alice"))) as (raw & h & tok & Hb & Hh & Hs & _).
  - reflexivity.
  - apply keys_immutable.
  - apply memo_fits.
  - vm_compute. reflexivity.
  - exists raw, h, tok. split; [exact Hb|]. split; [exact Hh|exact Hs].
Defined.

(** Behind the cache, with the jti of the token in the table: refused, while a
    token of another jti is not concerned. *)
Definition cached_world (jti : string) : World (VState (Cached (gmap string time))) :=
  mkWorld (mkVState (mkCached {[jti := 0]} (NewDenylistCache true None 0)) old_memo) 30 0 [] None.

Example revoked_now : (Verify verifier "h.a.s" (cached_world "0198")).2 = inl (Sentinel ErrTokenRevoked).
Proof. vm_compute. reflexivity. Qed.

Lemma revoked_token_refused_witness : cl_jti (wire access) <> "0199".
Proof.
  refine (revoked_token_refused pem_of verifier sg_cfg [key1_retired; key2] "h.a.s" (cached_world "0199")
    (Verify verifier "h.a.s" (cached_world "0199")).1 (wire access) "0199" _ _ _ _ _ _ _ _ _).
  - reflexivity.
  - apply keys_immutable.
  - intros p [= <-]. constructor; [|constructor]. split; [done|]. exists (mkJwkKey "" "" "pub1"). done.
  - reflexivity.
  - discriminate.
  - reflexivity.
  - exact I.
  - split; [eexists; vm_compute; reflexivity|]. intros e Hx. cbn in Hx. rewrite lookup_empty in Hx. discriminate Hx.
  - vm_compute. reflexivity.
Defined.

(** The published key set of two RSA keys. *)
#[export] Instance two_x509 : X509 := { x509_public pem := RSAPublic (256 * 65537 + 9) 65537 }.
Definition ring_world : World (KeyState unit) := mkWorld (mkKeyState tt [key1_retired; key2] []) 30 0 [] None.

Lemma PublicJWKS_faithful_witness :
  List.Forall2 projects [key1_retired; key2]
    [mkJWK "k1" AlgRS256 "AQABCQ" "AQAB"; mkJWK "k2" AlgRS256 "AQABCQ" "AQAB"].
Proof.
  destruct (PublicJWKS_faithful (S := gmap string time) pem_of sg_cfg ring_world (PublicJWKS sg_cfg ring_world).1
    [mkJWK "k1" AlgRS256 "AQABCQ" "AQAB"; mkJWK "k2" AlgRS256 "AQABCQ" "AQAB"]) as [Hf _].
  - vm_compute. reflexivity.
  - exact Hf.
Defined.

End VerifierExample.
