(* ===== verification/Session.v ===== *)
(** * The verification-page session (oidc/session.go)

    [SessionManager]: opaque sids in a signed cookie, backed by the
    [BrowserSessionStore], with issue, lookup and sign-out. *)

From S2P Require Import Prelude GoStrings GoErrors GoEncoding GoCrypto GoURL GoHttp Oidc Binding Token.

Definition sessionSIDEntropyBytes : nat := 32.
Definition defaultSessionTTL : duration := 5 * Minute.

Record SessionManager := mkSessionManager {
  sm_signingKey : string;
  sm_ttl : duration;
  sm_cookieName : string;
  sm_cookiePath : string;
  sm_cookieSecure : bool
}.

(** ** The cookie value *)

Definition signCookie (m : SessionManager) (sid : string) : string :=
  RawURL_Encode sid +:+ "." +:+ RawURL_Encode (labeledMAC (sm_signingKey m) macLabelSessionCookie sid).

(** [SplitN(value, ".", 2)] with two non-empty parts, both decoded. *)
Definition verifyCookie (m : SessionManager) (value : string) : option string :=
  match Cut value "." with
  | None => None
  | Some (a, b) =>
      if (a =? "")%string || (b =? "")%string then None
      else
        match RawURL_Decode a with
        | None => None
        | Some sidBytes =>
            match RawURL_Decode b with
            | None => None
            | Some gotMAC =>
                if ConstantTimeCompare gotMAC (labeledMAC (sm_signingKey m) macLabelSessionCookie sidBytes)
                then Some sidBytes else None
            end
        end
  end.

(** [m.sidFromRequest(r)], [header] being the request's Cookie header. *)
Definition sidFromRequest (m : SessionManager) (header : string) : option string :=
  match Request_Cookie header (sm_cookieName m) with
  | None => None
  | Some v => verifyCookie m v
  end.

(** The cookies [IssueCookie] and [Clear] set. *)
Definition sessionCookie (m : SessionManager) (value : string) (maxAge : Z) : Cookie :=
  mkCookie (sm_cookieName m) value (sm_cookiePath m) true (sm_cookieSecure m) SameSiteLaxMode maxAge.

Section Session.
Context `{Unicode} `{Env} {S : Type} `{BrowserSessionStore S}.
Implicit Types (m : SessionManager).

Definition randomSID : M S string :=
  b ← rand_Read sessionSIDEntropyBytes;
  match b with
  | None => throw (Errorf "oidc: generate session sid" (Opaque "rand"))
  | Some b => mret (RawURL_Encode b)
  end.

Definition IssueCookie m (id : Identity) : M S (string * Cookie) :=
  sid ← randomSID;
  declare "secret" [sid] ≫= fun _ =>
  declareIdentity (id_Subject id) (id_Email id) ≫= fun _ =>
  now_ ← now;
  e ← on_store (SaveBrowserSession
        (mkBrowserSession sid (id_ConnectorID id) (id_Subject id) (id_Email id) now_ (time_Add now_ (sm_ttl m))));
  match e with
  | Some e => throw (Errorf "oidc: persist browser session" e)
  | None => mret (sid, sessionCookie m (signCookie m sid) (Z.quot (sm_ttl m) Second))
  end.

Definition Session_Get m (header : string) : M S BrowserSession :=
  match Request_Cookie header (sm_cookieName m) with
  | Some v => declare "secret" [v]
  | None => mret tt
  end ≫= fun _ =>
  match sidFromRequest m header with
  | None => throw (Sentinel ErrNoSession)
  | Some sid =>
      declare "secret" [sid] ≫= fun _ =>
      r ← on_store (LookupBrowserSession sid);
      let '(bs, err) := r in
      if is_err err ErrBrowserSessionNotFound then throw (Sentinel ErrNoSession)
      else match err with
           | Some e => throw (Errorf "oidc: lookup browser session" e)
           | None =>
               now_ ← now;
               if negb (time_Before now_ (bs_ExpiresAt bs)) || (bs_Subject bs =? "")%string
               then throw (Sentinel ErrNoSession)
               else declareIdentity (bs_Subject bs) (bs_Email bs) ≫= fun _ => mret bs
           end
  end.

(** [m.Clear(ctx, w, r)]: the eviction cookie set on the response. *)
Definition Session_Clear m (header : string) : M S Cookie :=
  match sidFromRequest m header with
  | Some sid =>
      e ← on_store (DeleteBrowserSession sid);
      match e with
      | Some e => throw (Errorf "oidc: delete browser session" e)
      | None => mret tt
      end
  | None => mret tt
  end ≫= fun _ => mret (sessionCookie m "" (-1)).

End Session.

(** ** Facts *)

(** What a value must be to vouch for a sid. *)
Definition vouches (m : SessionManager) (value sid : string) : Prop :=
  authentic (sm_signingKey m) macLabelSessionCookie value sid.

Lemma verifyCookie_iff m value sid : verifyCookie m value = Some sid <-> vouches m value sid.
Proof.
  unfold verifyCookie. split.
  - destruct (Cut value ".") as [[a b]|] eqn:Hc; [|done]. apply Cut_Some in Hc as [-> Ha].
    destruct (a =? "")%string eqn:Ea; [done|]. destruct (b =? "")%string eqn:Eb; [done|]. cbn [orb].
    destruct (RawURL_Decode a) as [x|] eqn:Da; [|done]. destruct (RawURL_Decode b) as [y|] eqn:Db; [|done].
    destruct (ConstantTimeCompare _ _) eqn:Hm; [|done]. intros [= <-].
    apply ConstantTimeCompare_true in Hm as ->. solve_bool. by exists a, b.
  - intros (a & b & -> & Ha & Hna & Hnb & Da & Db).
    assert (Cut (a +:+ "." +:+ b) "." = Some (a, b)) as -> by (by apply Cut_Some).
    rewrite (proj2 (String.eqb_neq _ _) Hna), (proj2 (String.eqb_neq _ _) Hnb). cbn [orb].
    by rewrite Da, Db, (proj2 (ConstantTimeCompare_true _ _) eq_refl).
Qed.

Lemma signCookie_vouches m sid : sid <> "" -> vouches m (signCookie m sid) sid.
Proof. intros Hs. unfold vouches, signCookie. exact (authentic_sign _ _ _ Hs). Qed.

(** The session cookie is exactly as strong as its MAC: a cookie value is
    accepted for a sid if and only if it consists of two non-empty base64url
    parts that decode to the sid and to the session-cookie MAC of that sid
    under the signing key; and the value signed for a non-empty sid is accepted
    for that sid and for no other. *)
Theorem session_cookie_verified (m : SessionManager) (value sid : string) :
  sid <> "" ->
  (verifyCookie m value = Some sid <-> vouches m value sid) /\
  forall sid', verifyCookie m (signCookie m sid) = Some sid' <-> sid' = sid.
Proof.
  intros Hs. split; [apply verifyCookie_iff|]. intros sid'. split; [|intros ->].
  - rewrite (proj2 (verifyCookie_iff m _ sid) (signCookie_vouches _ _ Hs)). by intros [= <-].
  - by apply verifyCookie_iff, signCookie_vouches.
Qed.

Section SessionFacts.
Context `{Unicode} `{Env} {S : Type} `{BrowserSessionStore S}.

(** A browser is recognised only through a live session: when [Get] returns
    a session, the request's cookie of the session's name carries a sid with a
    valid MAC, the store holds that row for that sid, it has not expired at the
    time of the request, and it names a subject. *)
Theorem session_get_sound (m : SessionManager) (header : string) (w w' : World S) (bs : BrowserSession) :
  Session_Get m header w = (w', inr bs) ->
  exists value sid s' t,
    Request_Cookie header (sm_cookieName m) = Some value /\ vouches m value sid /\
    LookupBrowserSession sid (w_store w) = (s', (bs, None)) /\ w_store w' = s' /\
    t = clock (w_tick w) /\ t < bs_ExpiresAt bs /\ bs_Subject bs <> "".
Proof.
  intros Hg. unfold Session_Get in Hg. apply bind_inr in Hg as (w1 & [] & Hd & Hg).
  unfold sidFromRequest in Hg. destruct (Request_Cookie header _) as [value|] eqn:Hc; [|done].
  destruct (verifyCookie m value) as [sid|] eqn:Hv; [|done]. apply verifyCookie_iff in Hv.
  unfold declare in Hd. run_in Hd. apply bind_inr in Hg as (w2 & [] & Hd2 & Hg). unfold declare in Hd2. run_in Hd2.
  apply bind_inr in Hg as (w3 & [bs' err] & Hl & Hg). unfold on_store in Hl. cbn in Hl.
  destruct (LookupBrowserSession sid (w_store w)) as [s' p] eqn:Hs. injection Hl as <- ->.
  destruct (is_err err ErrBrowserSessionNotFound); [done|]. destruct err; [done|].
  apply bind_inr in Hg as (w4 & now_ & Hn & Hg). run_in Hn.
  destruct (negb _ || _) eqn:Hx; [done|]. apply orb_false_iff in Hx as [Hx Hsub].
  apply bind_inr in Hg as (w5 & [] & Hd5 & Hg). unfold declareIdentity, declare in Hd5. run_in Hd5. run_in Hg.
  apply negb_false_iff, time_Before_spec in Hx. apply String.eqb_neq in Hsub.
  exists value, sid, s', (clock (w_tick w)). repeat split; try done.
Qed.

End SessionFacts.
