(* ===== verification/Login.v ===== *)
(** * The browser leg of a login (oidc/connector.go, authorize.go, callback.go)

    GET /authorize validates the downstream client, stores a pending
    [AuthRequest], binds it to the browser and sends the browser to the active
    connector; GET /callback/{connector} checks the binding, consumes the
    request, has the connector verify the upstream's answer, applies the
    admission gates and mints the authorization code. A [Connector] is an
    interface of the source (the upstream protocol lives behind it), here a
    record of its methods. The theorems are in LoginFacts.v. *)

From S2P Require Import Prelude GoStrings GoErrors GoEncoding GoCrypto GoURL GoHttp Perms Oidc Client.
From S2P Require Import Binding Token.

(** ** Connectors (connector.go) *)

Record Flow := mkFlow { ResponseMethod : string; StateParam : string }.

Record BeginParams := mkBeginParams {
  bp_RedirectURI : string;
  bp_State : string;
  bp_CodeChallenge : string;
  bp_Nonce : string;
  bp_RequestID : string
}.

Record CompleteParams := mkCompleteParams {
  cp_RedirectURI : string;
  cp_Params : Values;
  cp_CodeVerifier : string;
  cp_Nonce : string;
  cp_RequestID : string
}.

Record UpstreamIdentity := mkUpstreamIdentity {
  ui_Subject : string;
  ui_Email : string;
  ui_EmailVerified : bool;
  ui_Groups : list string
}.

Record Completion := mkCompletion { co_Identity : UpstreamIdentity; co_Refusal : string }.

(** The answers of the upstream change over time, so its two calls also get the
    number of the call. [c_Complete] also says whether the overall deadline had
    passed when it returned. *)
Record Connector := mkConnector {
  c_ID : string;
  c_DisplayName : string;
  c_Flow : Flow;
  c_Begin : nat -> BeginParams -> error + string;
  c_Complete : nat -> CompleteParams -> (error + Completion) * bool
}.

Record Connectors := mkConnectors { cs_byID : gmap string Connector; cs_active : Connector }.

Definition validateFlow (f : Flow) : option error :=
  if negb (ResponseMethod f =? "GET")%string then Some (Opaque "response method is not supported (only GET)")
  else if (StateParam f =? "")%string then Some (Opaque "state parameter is empty")
  else None.

Definition NewConnectors (cs : list Connector) : error + Connectors :=
  match cs with
  | [] => inl (Opaque "oidc: no upstream connector is configured")
  | [c] =>
      match ValidateConnectorID (c_ID c) with
      | Some e => inl e
      | None =>
          match validateFlow (c_Flow c) with
          | Some e => inl (Errorf "oidc: connector" e)
          | None => inr (mkConnectors {[c_ID c := c]} c)
          end
      end
  | _ => inl (Opaque "oidc: several upstream connectors are configured, but only one may be active")
  end.

Definition Active (cs : Connectors) : Connector := cs_active cs.
Definition Connectors_Lookup (cs : Connectors) (id : string) : option Connector := cs_byID cs !! id.

(** ** Authorization responses (authorize.go) *)

(** [params] is a map with one value per key; the keys are distinct. *)
Definition authorizationResponse `{URLParser} (redirectURI issuer state : string) (params : Values) : error + string :=
  match url_Parse redirectURI with
  | None => inl (Errorf "oidc: parse redirect_uri" (Opaque "url"))
  | Some u =>
      let q := Query (u_RawQuery u) in
      let q := foldl (fun q kv => Set_ q kv.1 kv.2) q params in
      let q := if (state =? "")%string then q else Set_ q "state" state in
      let q := if (issuer =? "")%string then q else Set_ q "iss" issuer in
      inr (URL_String (set_RawQuery (Encode q) u))
  end.

Definition scopeContains (scope want : string) : bool :=
  existsb (fun s => (s =? want)%string) (Fields scope).

Definition stateEntropyBytes : nat := 32.
Definition codeEntropyBytes : nat := 32.
Definition authCodeTTL : duration := 1 * Minute.
Definition StatusFound : Z := 302.
Definition StatusForbidden : Z := 403.
Definition StatusNotFound : Z := 404.
Definition StatusBadGateway : Z := 502.

Record authorizeInput := mkAuthorizeInput {
  ai_ResponseType : string;
  ai_ClientID : string;
  ai_RedirectURI : string;
  ai_Scope : string;
  ai_State : string;
  ai_CodeChallenge : string;
  ai_CodeChallengeMethod : string;
  ai_Nonce : string
}.

Record authorizeOutput := mkAuthorizeOutput { ao_Status : Z; ao_Location : string; ao_SetCookie : string }.

Record Authorizer := mkAuthorizer {
  a_clients : ClientRegistry;
  a_binding : UpstreamBinding;
  a_connectors : Connectors;
  a_issuer : string
}.

(** [New(store, clients, binding, connectors, issuer)]. *)
Definition NewAuthorizer (clients : ClientRegistry) (b : UpstreamBinding) (cs : Connectors) (issuer : string) : Authorizer :=
  mkAuthorizer clients b cs (TrimRightByte issuer "/").

(** [a.check(in)]: the OAuth error code and description, if any. *)
Definition check (a : Authorizer) (i : authorizeInput) : option (string * string) :=
  if negb (ai_ResponseType i =? "code")%string
  then Some ("unsupported_response_type", "only response_type=code is supported")
  else if negb (scopeContains (ai_Scope i) "openid") then Some ("invalid_scope", "scope must include openid")
  else if (ai_CodeChallenge i =? "")%string then
    if negb (IsConfidential (a_clients a) (ai_ClientID i))
    then Some ("invalid_request", "code_challenge is required (PKCE)") else None
  else if negb (validCodeChallenge (ai_CodeChallenge i))
  then Some ("invalid_request", "code_challenge must be 43 base64url characters (S256)")
  else if negb (ai_CodeChallengeMethod i =? "S256")%string
  then Some ("invalid_request", "code_challenge_method must be S256")
  else None.

Definition authorize_caps (i : authorizeInput) : list paramCap :=
  [mkCap "client_id" (ai_ClientID i) maxClientIDLen; mkCap "redirect_uri" (ai_RedirectURI i) maxRedirectURILen;
   mkCap "scope" (ai_Scope i) maxScopeLen; mkCap "state" (ai_State i) maxStateLen; mkCap "nonce" (ai_Nonce i) maxNonceLen].

(** How a failed client validation is answered. *)
Definition validate_error (e : error) : error :=
  if errors_Is e ErrUnknownClient then oauthErr StatusBadRequest "invalid_client" "unknown client_id"
  else if errors_Is e ErrUnauthorizedClient
  then oauthErr StatusBadRequest "unauthorized_client" "client is not registered for the authorization-code flow"
  else oauthErr StatusBadRequest "invalid_request" "redirect_uri not registered for this client".

(** One call to the upstream: every call has its own number. *)
Definition upstream {S A} (f : nat -> A) : M S A := fun w =>
  (mkWorld (w_store w) (w_tick w) (Datatypes.S (w_draw w)) (w_trace w) (w_memo w), inr (f (w_draw w))).

Definition or_fail {S A} (msg : string) (r : error + A) : M S A :=
  match r with inl e => throw (Errorf msg e) | inr x => mret x end.

Section Authorize.
Context `{URLParser} `{Env} {S : Type} `{AuthRequestStore S}.
Implicit Types (a : Authorizer).

Definition randomState : M S string :=
  b ← rand_Read stateEntropyBytes;
  match b with
  | None => throw (Errorf "oidc: generate state" (Opaque "rand"))
  | Some b => mret (RawURL_Encode b)
  end.

(** The row /authorize stores. *)
Definition pending (i : authorizeInput) (connectorID internalState : string) (now_ : time) : AuthRequest :=
  mkAuthRequest internalState connectorID (ai_ClientID i) (ai_RedirectURI i) (ai_Scope i) (ai_State i)
    (ai_CodeChallenge i) (ai_CodeChallengeMethod i) (ai_Nonce i) now_ (time_Add now_ authRequestTTL).

(** The parameters of the upstream start request. *)
Definition begin_params a (id internalState : string) : BeginParams :=
  mkBeginParams (a_issuer a +:+ CallbackPath id) internalState (codeChallenge (a_binding a) id internalState)
    (nonce (a_binding a) id internalState) (requestID (a_binding a) id internalState).

Definition Authorize_handle a (i : authorizeInput) : M S authorizeOutput :=
  match checkParamLengths (authorize_caps i) with
  | Some e => throw e
  | None =>
  declare "secret" [ai_State i; ai_Nonce i] ≫= fun _ =>
  declare "identifier" [ai_ClientID i] ≫= fun _ =>
  match Validate (a_clients a) (ai_ClientID i) (ai_RedirectURI i) with
  | Some e => throw (validate_error e)
  | None =>
  match check a i with
  | Some (oauth_code, desc) =>
      loc ← lift (authorizationResponse (ai_RedirectURI i) (a_issuer a) (ai_State i)
                    [("error", oauth_code); ("error_description", desc)]);
      mret (mkAuthorizeOutput StatusFound loc "")
  | None =>
  internalState ← randomState;
  declare "secret" [internalState] ≫= fun _ =>
  let conn := Active (a_connectors a) in
  now_ ← now;
  e ← on_store (SaveAuthRequest (pending i (c_ID conn) internalState now_));
  match e with
  | Some e => throw (Errorf "oidc: persist auth request" e)
  | None =>
  start ← upstream (fun n => c_Begin conn n (begin_params a (c_ID conn) internalState));
  url ← or_fail "oidc: begin sign-in" start;
  mret (mkAuthorizeOutput StatusFound url (Cookie_String (Binding_Cookie (a_binding a) (c_ID conn) internalState)))
  end end end end.

End Authorize.

(** ** The callback (callback.go) *)

Definition reasonNone : string := "none".
Definition reasonMissingState : string := "missing_state".
Definition reasonStateNotBound : string := "state_not_bound".
Definition reasonUnknownState : string := "unknown_state".
Definition reasonExpiredRequest : string := "expired_request".
Definition reasonConnectorMismatch : string := "connector_mismatch".
Definition reasonUpstreamDenied : string := "upstream_denied".
Definition reasonMissingCode : string := "missing_code".
Definition reasonUpstreamError : string := "upstream_error".
Definition reasonEmailUnverified : string := "email_unverified".
Definition reasonDomainNotAllowed : string := "domain_not_allowed".
Definition reasonHostedDomainNotAllowed : string := "hosted_domain_not_allowed".
Definition reasonAuthzDenied : string := "authz_denied".
Definition reasonInternal : string := "internal".

Record callbackInput := mkCallbackInput { ci_Connector : string; ci_Cookie : string; ci_params : Values }.

Record callbackOutput := mkCallbackOutput {
  co_Status : Z;
  co_Location : string;
  co_SetCookie : string;
  co_ContentType : string;
  co_Body : string
}.

Record Callback := mkCallback {
  cb_issuer : string;
  cb_connectors : Connectors;
  cb_binding : UpstreamBinding;
  cb_allowedDomains : gset string;
  cb_authorizer : PermissionResolver
}.

(** [html.EscapeString]. *)
Definition escape_byte (c : ascii) : string :=
  let n := code c in
  if (n =? 38)%N then "&amp;" else if (n =? 39)%N then "&#39;" else if (n =? 60)%N then "&lt;"
  else if (n =? 62)%N then "&gt;" else if (n =? 34)%N then "&#34;" else String c "".

Fixpoint EscapeString (s : string) : string :=
  match s with
  | "" => ""
  | String c s' => escape_byte c +:+ EscapeString s'
  end.

Definition attr_lang : string := "lang=" +:+ quoted "en".
Definition attr_charset : string := "charset=" +:+ quoted "utf-8".

Definition forbiddenPage (email setCookie : string) : callbackOutput :=
  mkCallbackOutput StatusForbidden "" setCookie "text/html; charset=utf-8"
    ("<!DOCTYPE html><html " +:+ attr_lang +:+ "><head><meta " +:+ attr_charset +:+ ">"
     +:+ "<title>Access denied</title></head><body>"
     +:+ "<h1>Access denied</h1><p>" +:+ EscapeString email
     +:+ " is not in an allowed domain for this service.</p></body></html>").

Section Complete.
Context `{Unicode} `{URLParser} `{Env} {S : Type} `{CallbackStore S}.
Implicit Types (c : Callback) (conn : Connector).

Definition randomCode : M S (option string) :=
  b ← rand_Read codeEntropyBytes;
  mret (RawURL_Encode <$> b).

(** [c.refusal(id, connectorRefusal)]. *)
Definition refusal c (id : UpstreamIdentity) (connectorRefusal : string) : string :=
  if negb (ui_EmailVerified id) then reasonEmailUnverified
  else if negb (emailDomainAllowed (cb_allowedDomains c) (ui_Email id)) then reasonDomainNotAllowed
  else connectorRefusal.

Definition redirect c (ar : AuthRequest) (setCookie : string) (params : Values) : error + callbackOutput :=
  match authorizationResponse (ar_RedirectURI ar) (cb_issuer c) (ar_ClientState ar) params with
  | inl e => inl e
  | inr loc => inr (mkCallbackOutput StatusFound loc setCookie "" "")
  end.

Definition logUpstreamFailure (connectorID : string) (e : error) (overBudget : bool) : M S unit :=
  let '(cause, oauthCode, timeout) :=
    match errors_As_upstream e with
    | Some (r, o, t) => (r, o, t || overBudget)
    | None => ("unknown", "", overBudget)
    end in
  emit (Logged (connectorID +:+ " sign-in failed")
          ([("op", "oidc.callback"); ("connector", connectorID); ("cause", cause)]
           ++ (if (oauthCode =? "")%string then [] else [("oauth_error", oauthCode)])
           ++ (if timeout then [("timeout", "true")] else []))).

Definition complete_params c (id : string) (params : Values) (state : string) : CompleteParams :=
  mkCompleteParams (cb_issuer c +:+ CallbackPath id) params (codeVerifier (cb_binding c) id state)
    (nonce (cb_binding c) id state) (requestID (cb_binding c) id state).

(** A completed sign-in without a subject is an upstream error. *)
Definition with_subject (r : error + Completion) : error + Completion :=
  match r with
  | inr co => if (ui_Subject (co_Identity co) =? "")%string
              then inl (UpstreamError "claims_incomplete" "" false (Opaque "oidc: upstream identity has no subject"))
              else inr co
  | inl e => inl e
  end.

Definition completeUpstream c conn (params : Values) (state : string) : M S (error + Completion) :=
  let id := c_ID conn in
  let cp := complete_params c id params state in
  declare "secret" [cp_CodeVerifier cp; cp_Nonce cp] ≫= fun _ =>
  r ← upstream (fun n => c_Complete conn n cp);
  let '(res, overBudget) := r in
  let res := with_subject res in
  match res with
  | inr co => mret (inr co)
  | inl e =>
      (if bool_decide (errors_As_denied e = None) && negb (errors_Is e ErrMissingResponse)
       then logUpstreamFailure id e overBudget else mret tt) ≫= fun _ => mret (inl e)
  end.

(** [c.complete(ctx, conn, in)]: the reason, and the response or the error. *)
Definition outcome_of (reason : string) (r : error + callbackOutput) : M S (string * (error + callbackOutput)) :=
  mret (reason, r).

Definition bad_callback (desc : string) : error := oauthErr StatusBadRequest "invalid_request" desc.

(** The code minted for an admitted, permitted identity. *)
Definition minted c (id : UpstreamIdentity) (connectorID : string) (ar : AuthRequest) (code : string) (now_ : time) : AuthCode :=
  mkAuthCode code (ar_ClientID ar) (ar_RedirectURI ar) connectorID (ui_Subject id) (ui_Email id) (ar_Scope ar)
    (ar_CodeChallenge ar) (ar_CodeChallengeMethod ar) (ar_Nonce ar) "" now_ (time_Add now_ authCodeTTL).

(** What follows the upstream's answer [completion] for the consumed request. *)
Definition admission c conn (ar : AuthRequest) (clearBinding : string) (completion : Completion) :
    M S (string * (error + callbackOutput)) :=
  let id := c_ID conn in
  let identity := co_Identity completion in
  declareIdentity (ui_Subject identity) (ui_Email identity) ≫= fun _ =>
  let refused := refusal c identity (co_Refusal completion) in
  if negb (refused =? "")%string then outcome_of refused (inr (forbiddenPage (ui_Email identity) clearBinding))
  else
    match permitted (cb_authorizer c) (ui_Email identity) with
    | inl e => outcome_of reasonInternal (inl (Errorf "oidc: resolve permissions" e))
    | inr (_, false) =>
        emit (Counted "tempogate.authz_denied" ["login"]) ≫= fun _ =>
        emit (Logged (id +:+ " sign-in refused: no authorization rule grants this account any Temporal permissions")
                [("op", "oidc.callback"); ("connector", id); ("cause", reasonAuthzDenied);
                 ("client_id", ar_ClientID ar); ("email", ui_Email identity)]) ≫= fun _ =>
        outcome_of reasonAuthzDenied
          (redirect c ar clearBinding [("error", "access_denied"); ("error_description", msgNoAccess)])
    | inr (_, true) =>
        code ← randomCode;
        match code with
        | None => outcome_of reasonInternal (inl (Errorf "oidc: generate auth code" (Opaque "rand")))
        | Some code =>
            declare "secret" [code] ≫= fun _ =>
            now_ ← now;
            e ← on_store (SaveAuthCode (minted c identity id ar code now_));
            match e with
            | Some e => outcome_of reasonInternal (inl (Errorf "oidc: persist auth code" e))
            | None =>
                match redirect c ar clearBinding [("code", code)] with
                | inl e => outcome_of reasonInternal (inl e)
                | inr out => outcome_of reasonNone (inr out)
                end
            end
        end
    end.

Definition complete c conn (i : callbackInput) : M S (string * (error + callbackOutput)) :=
  let id := c_ID conn in
  let state := Get (ci_params i) (StateParam (c_Flow conn)) in
  declare "secret" [state; Get (ci_params i) "code"; ci_Cookie i] ≫= fun _ =>
  if (state =? "")%string then outcome_of reasonMissingState (inl (bad_callback "missing state"))
  else if negb (boundToBrowser (cb_binding c) (ci_Cookie i) id state) then
    emit (Logged (id +:+ " callback rejected: state not bound to this browser")
            [("op", "oidc.callback"); ("connector", id); ("cause", "state_not_bound_to_browser")]) ≫= fun _ =>
    outcome_of reasonStateNotBound (inl (bad_callback "sign-in was not started in this browser"))
  else
  r ← on_store (ConsumeAuthRequest state);
  let '(ar, err) := r in
  if is_err err ErrAuthRequestNotFound
  then outcome_of reasonUnknownState (inl (bad_callback "unknown or already-used state"))
  else match err with
  | Some e => outcome_of reasonInternal (inl (Errorf "oidc: consume auth request" e))
  | None =>
      now_ ← now;
      if time_After now_ (ar_ExpiresAt ar)
      then outcome_of reasonExpiredRequest (inl (bad_callback "auth request expired"))
      else if negb (ar_ConnectorID ar =? id)%string
      then outcome_of reasonConnectorMismatch (inl (bad_callback "state was issued for another sign-in method"))
      else
        let clearBinding := Cookie_String (clearCookie (cb_binding c) id state) in
        completion ← completeUpstream c conn (ci_params i) state;
        match completion with
        | inr co => admission c conn ar clearBinding co
        | inl e =>
            match errors_As_denied e with
            | Some (denied_code, denied_desc) =>
                outcome_of reasonUpstreamDenied
                  (redirect c ar clearBinding [("error", denied_code); ("error_description", denied_desc)])
            | None =>
                if errors_Is e ErrMissingResponse
                then outcome_of reasonMissingCode (inl (bad_callback "missing code"))
                else outcome_of reasonUpstreamError
                       (inl (oauthErr StatusBadGateway "upstream_error"
                               ("could not complete " +:+ c_DisplayName conn +:+ " sign-in")))
            end
        end
  end.

(** [c.handle(ctx, in)]: every sign-in is counted once. *)
Definition Callback_handle c (i : callbackInput) : M S callbackOutput :=
  match Connectors_Lookup (cb_connectors c) (ci_Connector i) with
  | None => throw (StatusError StatusNotFound "no such connector")
  | Some conn =>
      r ← complete c conn i;
      let '(reason, out) := r in
      emit (Counted "tempogate.logins"
              [if (reason =? reasonNone)%string then "success" else "failure"; reason]) ≫= fun _ =>
      lift out
  end.

End Complete.
