(* ===== verification/Google.v ===== *)
(** * The Google connector (oidc/connector/google/client.go, connector.go,
      oidc/connector/upstreamhttp/upstreamhttp.go)

    The upstream leg of a login: discovery with its backoff, the exchange of the
    authorization code, the verification of the id_token, the nonce, and the
    Workspace gate. golang.org/x/oauth2, coreos/go-oidc and the network are a
    parameter; what the code relies on of them is the class [GoogleLaws]. The
    mutex of the client serialises discovery, so its state is threaded through
    the calls in order. The theorems are in GoogleFacts.v. *)

From S2P Require Import Prelude GoStrings GoErrors GoCrypto GoURL Oidc Login.

(** ** The libraries *)

(** How an upstream call failed: the error, whether it is a deadline or a
    network timeout, whether the call's deadline had passed, and the [ErrorCode]
    of an [*oauth2.RetrieveError] in its chain. *)
Record failure := mkFailure {
  f_err : error; f_deadline_exceeded : bool; f_past_deadline : bool; f_net_timeout : bool; f_retrieve : option string
}.

(** [upstreamhttp.TimedOut(callCtx, err)]. *)
Definition TimedOut (f : failure) : bool :=
  if f_deadline_exceeded f then true else if f_past_deadline f then true else f_net_timeout f.

(** The claims [idToken.Claims(&claims)] decodes. *)
Record claims := mkClaims { cl_Email : string; cl_EmailVerified : bool; cl_HostedDomain : string }.

Record IDToken := mkIDToken { it_Subject : string; it_Nonce : string; it_Claims : error + claims }.

Record OAuthConfig := mkOAuthConfig { oc_ClientID : string; oc_ClientSecret : string; oc_TokenURL : string; oc_Scopes : list string }.

(** The upstream's answers, by the number of the call. The answer to an exchange
    is [tok.Extra("id_token").(string)]. *)
Class GoogleAPI := {
  Provider : Type;
  NewProvider : nat -> string -> failure + Provider;
  oauth_Exchange : nat -> OAuthConfig -> string -> string -> string -> failure + option string;
  verifier_Verify : nat -> Provider -> string -> string -> failure + IDToken;
  google_clock : nat -> time
}.

(** [issued iss aud raw tok]: [iss] signed [raw], an unexpired id_token for the
    client [aud] that says [tok]. A verifier accepts nothing else. *)
Class GoogleLaws `{GoogleAPI} := {
  issued : string -> string -> string -> IDToken -> Prop;
  verifier_sound n n' iss p aud raw tok :
    NewProvider n iss = inr p -> verifier_Verify n' p aud raw = inr tok -> issued iss aud raw tok
}.

(** ** The client (client.go) *)

Definition scopes : string := "openid email".
Definition discoveryInitialBackoff : duration := Second.
Definition discoveryMaxBackoff : duration := 30 * Second.

Definition UpstreamReasonDiscovery : string := "discovery_unavailable".
Definition UpstreamReasonExchange : string := "code_exchange_failed".
Definition UpstreamReasonIDToken : string := "id_token_invalid".
Definition UpstreamReasonNonce : string := "nonce_mismatch".
Definition UpstreamReasonClaims : string := "claims_incomplete".
Definition UpstreamReasonIssuer : string := "issuer_mismatch".

Record GoogleClient := mkGoogleClient { gc_oauth : OAuthConfig; gc_issuerURL : string; gc_clientID : string }.

(** [New(clientID, clientSecret, tokenEndpoint, issuerURL)]. *)
Definition NewGoogleClient (clientID clientSecret tokenEndpoint issuerURL : string) : GoogleClient :=
  mkGoogleClient (mkOAuthConfig clientID clientSecret tokenEndpoint (Fields scopes)) (TrimRightByte issuerURL "/") clientID.

Record googleIdentity := mkGoogleIdentity {
  gi_Subject : string; gi_Email : string; gi_EmailVerified : bool; gi_HostedDomain : string
}.

Definition upstreamErr (reason : string) (e : error) : error := UpstreamError reason "" false e.

(** [c.callErr(callCtx, reason, err)]. *)
Definition callErr (reason msg : string) (f : failure) : error := UpstreamError reason "" (TimedOut f) (Errorf msg (f_err f)).

(** [done(err)] of [Telemetry.StartUpstream(ctx, op)]: the call is timed, and
    a failed one counted as a timeout or an error. *)
Definition upstream_done (op : string) (e : option error) : list event :=
  Counted "tempogate.upstream_request.duration" [op] ::
  match e with
  | None => []
  | Some e =>
      let timeout := match errors_As_upstream e with Some (_, _, t) => t | None => false end in
      [Counted "tempogate.upstream_errors" [op; if timeout then "timeout" else "error"]]
  end.

Section Client.
Context `{GoogleAPI}.

(** What [mu] guards. The verifier is the provider's, for the client id it was
    made with. *)
Record Discovery := mkDiscovery {
  d_verifier : option (Provider * string); d_lastErr : option error; d_retryAt : time; d_backoff : duration
}.

Definition noDiscovery : Discovery := mkDiscovery None None 0 0.

(** The client in use: its discovery state, the calls made so far and what they
    recorded. *)
Record GState := mkGState { g_discovery : Discovery; g_call : nat; g_events : list event }.

Definition tick (s : GState) : GState := mkGState (g_discovery s) (S (g_call s)) (g_events s).
Definition record (evs : list event) (s : GState) : GState := mkGState (g_discovery s) (g_call s) (g_events s ++ evs).
Definition set_discovery (d : Discovery) (s : GState) : GState := mkGState d (g_call s) (g_events s).

(** Discovery, once the backoff allows it. *)
Definition discover (c : GoogleClient) (now_ : time) (s : GState) : GState * (error + Provider * string) :=
  let d := g_discovery s in
  let n := g_call s in
  let s := tick s in
  match NewProvider n (gc_issuerURL c) with
  | inl f =>
      let ue := callErr UpstreamReasonDiscovery ("google: discovery (" +:+ gc_issuerURL c +:+ ")") f in
      let backoff := Z.min (Z.max (2 * d_backoff d) discoveryInitialBackoff) discoveryMaxBackoff in
      (set_discovery (mkDiscovery None (Some ue) (time_Add now_ backoff) backoff)
         (record (upstream_done "discovery" (Some ue)) s), inl ue)
  | inr p =>
      let v := (p, gc_clientID c) in
      (set_discovery (mkDiscovery (Some v) None (d_retryAt d) 0) (record (upstream_done "discovery" None) s), inr v)
  end.

(** [c.idVerifier(ctx)]. *)
Definition idVerifier (c : GoogleClient) (s : GState) : GState * (error + Provider * string) :=
  match d_verifier (g_discovery s) with
  | Some v => (s, inr v)
  | None =>
      let now_ := google_clock (g_call s) in
      match d_lastErr (g_discovery s) with
      | Some e => if time_Before now_ (d_retryAt (g_discovery s)) then (tick s, inl e) else discover c now_ (tick s)
      | None => discover c now_ (tick s)
      end
  end.

(** [c.exchange(ctx, code, redirectURI, codeVerifier)]. *)
Definition exchange (c : GoogleClient) (code redirectURI codeVerifier : string) (s : GState) : GState * (error + option string) :=
  let n := g_call s in
  let s := tick s in
  match oauth_Exchange n (gc_oauth c) code redirectURI codeVerifier with
  | inr tok => (record (upstream_done "code_exchange" None) s, inr tok)
  | inl f =>
      let ue := UpstreamError UpstreamReasonExchange (default "" (f_retrieve f)) (TimedOut f)
                  (Errorf "google: code exchange" (f_err f)) in
      (record (upstream_done "code_exchange" (Some ue)) s, inl ue)
  end.

(** [c.verify(ctx, verifier, rawID)]. *)
Definition verify (v : Provider * string) (rawID : string) (s : GState) : GState * (error + IDToken) :=
  let n := g_call s in
  let s := tick s in
  match verifier_Verify n v.1 v.2 rawID with
  | inr tok => (record (upstream_done "verify_id_token" None) s, inr tok)
  | inl f =>
      let ue := callErr UpstreamReasonIDToken "google: verify id_token" f in
      (record (upstream_done "verify_id_token" (Some ue)) s, inl ue)
  end.

(** What the verified id_token must say. *)
Definition identity_of (nonce : string) (tok : IDToken) : error + googleIdentity :=
  if (nonce =? "")%string || negb (ConstantTimeCompare (it_Nonce tok) nonce)
  then inl (upstreamErr UpstreamReasonNonce (Opaque "google: id_token nonce does not match the request"))
  else
    match it_Claims tok with
    | inl e => inl (upstreamErr UpstreamReasonIDToken (Errorf "google: decode id_token claims" e))
    | inr cl =>
        if (it_Subject tok =? "")%string
        then inl (upstreamErr UpstreamReasonClaims (Opaque "google: id_token has no sub claim"))
        else if (cl_Email cl =? "")%string
        then inl (upstreamErr UpstreamReasonClaims (Opaque "google: id_token has no email claim"))
        else inr (mkGoogleIdentity (it_Subject tok) (cl_Email cl) (cl_EmailVerified cl) (cl_HostedDomain cl))
    end.

(** [c.ExchangeAndVerify(ctx, code, redirectURI, codeVerifier, nonce)]. *)
Definition ExchangeAndVerify (c : GoogleClient) (code redirectURI codeVerifier nonce : string) (s : GState) :
    GState * (error + googleIdentity) :=
  match idVerifier c s with
  | (s, inl e) => (s, inl e)
  | (s, inr v) =>
      match exchange c code redirectURI codeVerifier s with
      | (s, inl e) => (s, inl e)
      | (s, inr tok) =>
          let rawID := default "" tok in
          if (rawID =? "")%string
          then (s, inl (upstreamErr UpstreamReasonIDToken (Opaque "google: token response missing id_token")))
          else
            match verify v rawID s with
            | (s, inl e) => (s, inl e)
            | (s, inr idToken) => (s, identity_of nonce idToken)
            end
      end
  end.

End Client.

(** ** The connector (connector.go) *)

Definition GoogleID : string := "google".
Definition RefusalHostedDomainNotAllowed : string := reasonHostedDomainNotAllowed.

Record GoogleConfig := mkGoogleConfig {
  gf_ClientID : string; gf_AuthEndpoint : string; gf_IssuerURL : string; gf_HostedDomains : string
}.

(** The exchanger is the client above; the seam for fakes is not kept. *)
Record GoogleConnector := mkGoogleConnector {
  gn_clientID : string;
  gn_authEndpoint : URL;
  gn_issuer : string;
  gn_hostedDomains : gset string;
  gn_hdHint : string;
  gn_client : GoogleClient
}.

Definition hostedDomainHint (hosted : gset string) : string :=
  match elements hosted with
  | [] => ""
  | [d] => d
  | _ => "*"
  end.

Section Connector.
Context `{Unicode} `{URLParser}.

Definition NewConnector (cfg : GoogleConfig) (client : GoogleClient) : error + GoogleConnector :=
  let bad := Opaque ("google: authorization endpoint " +:+ gf_AuthEndpoint cfg +:+ " must be an absolute URL") in
  match url_Parse (gf_AuthEndpoint cfg) with
  | None => inl bad
  | Some auth =>
      if (u_Scheme auth =? "")%string || (u_Host auth =? "")%string then inl bad
      else
        let hosted := ParseDomains (gf_HostedDomains cfg) in
        inr (mkGoogleConnector (gf_ClientID cfg) auth (TrimRightByte (gf_IssuerURL cfg) "/") hosted
               (hostedDomainHint hosted) client)
  end.

(** [c.hostedDomainAllowed(hd)]. *)
Definition hostedDomainAllowed (c : GoogleConnector) (hd : string) : bool :=
  if bool_decide (gn_hostedDomains c = ∅) then true else bool_decide (ToLower hd ∈ gn_hostedDomains c).

(** [c.Begin(ctx, p)]. *)
Definition begin_query (c : GoogleConnector) (p : BeginParams) : Values :=
  [("client_id", gn_clientID c); ("redirect_uri", bp_RedirectURI p); ("response_type", "code"); ("scope", scopes);
   ("state", bp_State p); ("code_challenge", bp_CodeChallenge p); ("code_challenge_method", "S256"); ("nonce", bp_Nonce p)]
  ++ (if (gn_hdHint c =? "")%string then [] else [("hd", gn_hdHint c)]).

Definition Begin (c : GoogleConnector) (p : BeginParams) : error + string :=
  let u := gn_authEndpoint c in
  let q := foldl (fun q kv => Set_ q kv.1 kv.2) (Query (u_RawQuery u)) (begin_query c p) in
  inr (URL_String (set_RawQuery (Encode q) u)).

(** [c.FormActionSources(ctx)]. *)
Definition FormActionSources (c : GoogleConnector) : list string :=
  [u_Scheme (gn_authEndpoint c) +:+ "://" +:+ u_Host (gn_authEndpoint c)].

Context `{GoogleAPI}.

(** [c.Complete(ctx, p)]. *)
Definition Complete (c : GoogleConnector) (p : CompleteParams) (s : GState) : GState * (error + Completion) :=
  let e := Get (cp_Params p) "error" in
  let code := Get (cp_Params p) "code" in
  let iss := Get (cp_Params p) "iss" in
  if negb (e =? "")%string then (s, inl (UpstreamDenied e (Get (cp_Params p) "error_description")))
  else if (code =? "")%string then (s, inl (Sentinel ErrMissingResponse))
  else if negb (iss =? "")%string && negb (ConstantTimeCompare iss (gn_issuer c))
  then (s, inl (upstreamErr UpstreamReasonIssuer (Opaque "google: authorization response names another issuer")))
  else
    match ExchangeAndVerify (gn_client c) code (cp_RedirectURI p) (cp_CodeVerifier p) (cp_Nonce p) s with
    | (s, inl e) => (s, inl e)
    | (s, inr id) =>
        (s, inr (mkCompletion (mkUpstreamIdentity (gi_Subject id) (gi_Email id) (gi_EmailVerified id) [])
                   (if hostedDomainAllowed c (gi_HostedDomain id) then "" else RefusalHostedDomainNotAllowed)))
    end.

(** Google behind [oidc.Connector]: [st n] is the client when callback [n] calls
    it, and [late n] whether the callback's own deadline has passed by then. *)
Definition google_connector (c : GoogleConnector) (st : nat -> GState) (late : nat -> bool) : Connector :=
  mkConnector GoogleID "Google" (mkFlow "GET" "state") (fun _ p => Begin c p) (fun n p => ((Complete c p (st n)).2, late n)).

End Connector.
