(* ===== verification/CliLogin.v ===== *)
(** * Signing in from the command line (cli/loopback.go, cli/device.go,
      cmd/login.go, cmd/token.go)

    The loopback flow: its one-shot callback server as a state machine over the
    requests that reach the port, and the run around it. The device flow: the
    request for a code and the polling loop, with durations at 64 bits. The
    commands that use them and the token file. The theorems are in
    CliLoginFacts.v. *)

From S2P Require Import Prelude GoStrings GoErrors GoEncoding GoCrypto GoURL GoHttp GoNetip GoTime Oidc Client Cli CliFacts CliRefresh.
From S2P Require Import Login.

(** A newline. *)
Definition nl : string := String (Ascii.ascii_of_nat 10) "".

Definition callbackPath : string := "/callback".
Definition loginScope : string := "openid email".
Definition defaultClientID : string := "tempogate-cli".
Definition defaultCallbackTimeout : duration := 3 * Minute.
Definition pkceVerifierBytes : nat := 32.
Definition stateBytes : nat := 32.
Definition authorizePath : string := "/authorize".

(** ** The loopback server *)

Record callbackResult := mkCallbackResult { cr_code_ : string; cr_err : option error }.

Record page := mkPage { pg_status : Z; pg_body : string }.

Definition writePage (status : Z) (title msg : string) : page :=
  let t := EscapeString title in
  let m := EscapeString msg in
  mkPage status
    ("<!DOCTYPE html><html lang=" +:+ quoted "en" +:+ "><head><meta charset=" +:+ quoted "utf-8" +:+ ">"
     +:+ "<title>" +:+ t +:+ "</title></head><body style=" +:+ quoted "font-family:system-ui,sans-serif;max-width:32rem;margin:4rem auto;text-align:center"
     +:+ "><h1>" +:+ t +:+ "</h1><p>" +:+ m +:+ "</p></body></html>").

(** The handler's memory: [once], and [resultCh], which holds one result. *)
Record Loopback := mkLoopback { lb_once : bool; lb_result : option callbackResult }.

Definition deliver (r : callbackResult) (l : Loopback) : Loopback :=
  match lb_result l with
  | None => mkLoopback (lb_once l) (Some r)
  | Some _ => l
  end.

(** A request to the port: its path and its query. *)
Record lbRequest := mkLbRequest { lr_path : string; lr_query : string }.

Definition callbackHandler (wantState : string) (r : lbRequest) (l : Loopback) : Loopback * page :=
  if negb (lr_path r =? callbackPath)%string then (l, mkPage 404 "404 page not found")
  else
    let q := Query (lr_query r) in
    if negb (ConstantTimeCompare (Get q "state") wantState)
    then (l, writePage 400 "Login failed" "State mismatch - this request did not come from the login in progress. You can close this tab.")
    else if lb_once l
    then (l, writePage 409 "Login already handled" "This sign-in has already been handled. You can close this tab.")
    else
      let l := mkLoopback true (lb_result l) in
      if negb (Get q "error" =? "")%string then
        (deliver (mkCallbackResult "" (Some (Opaque ("cli: authorization failed: " +:+ Get q "error" +:+ ": " +:+ Get q "error_description")))) l,
         writePage 400 "Login failed" (Get q "error" +:+ ": " +:+ Get q "error_description"))
      else if (Get q "code" =? "")%string then
        (deliver (mkCallbackResult "" (Some (Opaque "cli: callback returned no authorization code"))) l,
         writePage 400 "Login failed" "No authorization code in the callback. You can close this tab and retry.")
      else
        (deliver (mkCallbackResult (Get q "code") None) l,
         writePage 200 "Login successful" "You can close this browser tab and return to your terminal.").

(** What happens while [Run] waits. *)
Inductive arrival := Arrives (r : lbRequest) | WaitedOut | Cancelled (e : error) | ServerFailed (e : error).

(** [f.awaitCode(ctx, resultCh)]. *)
Fixpoint awaitCode (wantState : string) (es : list arrival) (l : Loopback) : error + string :=
  match lb_result l with
  | Some r => match cr_err r with Some e => inl e | None => inr (cr_code_ r) end
  | None =>
      match es with
      | [] => inl (Opaque "cli: no authorization code received; aborting login")
      | Arrives r :: es => awaitCode wantState es (callbackHandler wantState r l).1
      | WaitedOut :: _ => inl (Opaque "cli: no authorization code received; aborting login")
      | Cancelled e :: _ => inl (Errorf "cli: login cancelled" e)
      | ServerFailed e :: es => awaitCode wantState es (deliver (mkCallbackResult "" (Some (Errorf "cli: loopback server" e))) l)
      end
  end.

(** ** The loopback flow *)

Record Flow_ := mkFlow_ { fl_issuer : string; fl_clientID : string; fl_scope : string; fl_insecure : bool }.

(** [New(WithIssuer(rawURL), WithClientID(id), WithInsecure(insecure))]. *)
Definition NewFlow (rawURL id : string) (insecure : bool) : Flow_ :=
  mkFlow_ (TrimRightByte rawURL "/") (if (id =? "")%string then defaultClientID else id) loginScope insecure.

Definition codeChallengeOf (verifier : string) : string := RawURL_Encode (sha256_Sum256 verifier).

Definition authorize_query (f : Flow_) (redirectURI verifier state : string) : Values :=
  foldl (fun q kv => Set_ q kv.1 kv.2) []
    [("response_type", "code"); ("client_id", fl_clientID f); ("redirect_uri", redirectURI); ("scope", fl_scope f);
     ("code_challenge", codeChallengeOf verifier); ("code_challenge_method", "S256"); ("state", state)].

Definition authorizeURL (f : Flow_) (redirectURI verifier state : string) : string :=
  fl_issuer f +:+ authorizePath +:+ "?" +:+ Encode (authorize_query f redirectURI verifier state).

Definition exchange_form (f : Flow_) (code verifier redirectURI : string) : Values :=
  foldl (fun q kv => Set_ q kv.1 kv.2) []
    [("grant_type", "authorization_code"); ("code", code); ("redirect_uri", redirectURI); ("client_id", fl_clientID f);
     ("code_verifier", verifier)].

Section Loopback.
Context `{Unicode} `{CaseFold} `{URLParser} `{Host} `{CliJSON}.

Definition randomURLSafe (n : nat) : C string := b ← rand_bytes n; mret (RawURL_Encode b).

(** [f.exchange(ctx, code, verifier, redirectURI)]. *)
Definition cli_exchange (f : Flow_) (code verifier redirectURI : string) : C CliToken :=
  tr ← postTokenForm (fl_insecure f) (fl_issuer f) (exchange_form f code verifier redirectURI);
  now_ ← time_Now;
  mret (mkCliToken (tr_AccessToken tr) (tr_RefreshToken tr) (expiry now_ (tr_ExpiresIn tr)) (fl_clientID f)).

(** [f.Run(ctx)]: the listener's address is the system's ([listen]), so is
    the error of opening a browser, and what reaches the port while it waits is [es]. *)
Definition Flow_Run (f : Flow_) (listen : error + string) (openBrowser : string -> option string) (es : list arrival) : C CliToken :=
  if (fl_issuer f =? "")%string then fail (Opaque "cli: issuer is required (pass --issuer or set TEMPOGATE_ISSUER)")
  else match checkIssuer (fl_issuer f) (fl_insecure f) with
       | Some e => fail e
       | None =>
           verifier ← wrapping "cli: generate PKCE verifier" (randomURLSafe pkceVerifierBytes);
           state ← wrapping "cli: generate state" (randomURLSafe stateBytes);
           addr ← of_result (Errorf "cli: bind loopback listener") listen;
           let redirectURI := "http://" +:+ addr +:+ callbackPath in
           let authURL := authorizeURL f redirectURI verifier state in
           Fprint Stderr ("Opening your browser to sign in." +:+ nl +:+ "If it does not open, visit:" +:+ nl +:+ nl +:+ "  " +:+ authURL +:+ nl +:+ nl)
             ≫= fun _ =>
           match openBrowser authURL with
           | None => mret tt
           | Some openErr => Fprint Stderr ("Could not open a browser automatically (" +:+ openErr +:+ "); open the URL above manually." +:+ nl)
           end ≫= fun _ =>
           code ← of_result id (awaitCode state es (mkLoopback false None));
           cli_exchange f code verifier redirectURI
       end.

(** ** The device flow (device.go) *)

Definition deviceGrantType : string := "urn:ietf:params:oauth:grant-type:device_code".
Definition defaultDeviceClientID : string := "tempogate-device".
Definition defaultDeviceScope : string := "openid email".
Definition defaultMinSleep : duration := Second.
Definition slowDownBump : duration := 5 * Second.
Definition transientBackoffCap : Z := 4.
Definition defaultPollFallback : duration := 15 * Minute.
Definition deviceAuthorizationPath : string := "/device_authorization".

Record DeviceFlow := mkDeviceFlow {
  df_issuer : string; df_clientID : string; df_scope : string; df_pollDeadline : duration; df_minSleep : duration; df_insecure : bool
}.

Definition NewDeviceFlow (rawURL id : string) (pollDeadline : duration) (insecure : bool) : DeviceFlow :=
  mkDeviceFlow (TrimRightByte rawURL "/") (if (id =? "")%string then defaultDeviceClientID else id) defaultDeviceScope pollDeadline
    defaultMinSleep insecure.

Definition device_form (f : DeviceFlow) : Values :=
  let form := Set_ [] "client_id" (df_clientID f) in
  if (df_scope f =? "")%string then form else Set_ form "scope" (df_scope f).

Definition requestDeviceCode (f : DeviceFlow) : C deviceAuthResponse :=
  r ← post (df_insecure f) (df_issuer f +:+ deviceAuthorizationPath) "cli: build device authorization request"
        "cli: device authorization request" (device_form f);
  let '(status, body) := r in
  match body with
  | inl e => fail (Errorf "cli: read device authorization response" e)
  | inr body =>
      if negb (status =? 200) then
        match unmarshal_oauth_error body with
        | Some oe =>
            if (oe_Err oe =? "")%string then fail (Opaque "cli: device authorization failed")
            else if (oe_Err oe =? "invalid_client")%string then fail (Sentinel ErrInvalidClient)
            else fail (Opaque ("cli: device authorization rejected (" +:+ oe_Err oe +:+ "): " +:+ oe_Desc oe))
        | None => fail (Opaque "cli: device authorization failed")
        end
      else
        match unmarshal_device body with
        | inl e => fail (Errorf "cli: decode device authorization response" e)
        | inr dar =>
            if (da_DeviceCode dar =? "")%string || (da_UserCode dar =? "")%string
            then fail (Opaque "cli: device authorization response missing device_code or user_code") else mret dar
        end
  end.

Definition printPrompt (i : deviceAuthResponse) : C unit :=
  Fprint Stderr ("A login URL has been generated. On any device with a browser, open:" +:+ nl +:+ nl +:+ "  " +:+ da_VerificationURI i +:+ nl +:+ nl
                 +:+ "And enter this code:" +:+ nl +:+ nl +:+ "  " +:+ da_UserCode i +:+ nl) ≫= fun _ =>
  (if (da_VerificationURIComplete i =? "")%string then mret tt
   else Fprint Stderr (nl +:+ "(or, to skip the manual entry, scan/open:" +:+ nl +:+ "  " +:+ da_VerificationURIComplete i +:+ " )" +:+ nl)) ≫= fun _ =>
  Fprint Stderr (nl +:+ "Waiting for you to approve in your browser…" +:+ nl).

Inductive pollAction := actionDone (tok : CliToken) | actionPending | actionSlowDown | actionTransient.

Definition poll_form (f : DeviceFlow) (deviceCode : string) : Values :=
  foldl (fun q kv => Set_ q kv.1 kv.2) [] [("grant_type", deviceGrantType); ("device_code", deviceCode); ("client_id", df_clientID f)].

(** A request that got no answer: cancelled, redirected away, or to be retried. *)
Definition poll_failed (e : error) : C pollAction :=
  c ← ctx_err;
  match c with
  | Some ce => fail ce
  | None => if errors_Is e ErrUnsafeRedirect then fail (Errorf "cli: poll request" e) else mret actionTransient
  end.

Definition poll_rejected (status : Z) (body : string) : C pollAction :=
  match unmarshal_oauth_error body with
  | None => fail (Opaque "cli: poll failed")
  | Some oe =>
      if (oe_Err oe =? "")%string then fail (Opaque "cli: poll failed")
      else if (oe_Err oe =? "authorization_pending")%string then mret actionPending
      else if (oe_Err oe =? "slow_down")%string then mret actionSlowDown
      else if (oe_Err oe =? "access_denied")%string then fail (Sentinel ErrUserDenied)
      else if (oe_Err oe =? "expired_token")%string then fail (Sentinel ErrDeviceCodeExpired)
      else if (oe_Err oe =? "invalid_grant")%string then fail (Sentinel ErrInvalidGrant)
      else if (oe_Err oe =? "invalid_client")%string then fail (Sentinel ErrInvalidClient)
      else fail (Opaque ("cli: poll rejected (" +:+ oe_Err oe +:+ "): " +:+ oe_Desc oe))
  end.

(** [f.pollOnce(ctx, deviceCode)]. *)
Definition pollOnce (f : DeviceFlow) (deviceCode : string) : C pollAction :=
  match url_Parse (df_issuer f +:+ TokenPath) with
  | None => fail (Errorf "cli: build poll request" (Opaque "url"))
  | Some u =>
      r ← caught (client_Do (df_insecure f) u (Encode (poll_form f deviceCode)));
      match r with
      | inl e => poll_failed e
      | inr (status, inl e) => c ← ctx_err; match c with Some ce => fail ce | None => mret actionTransient end
      | inr (status, inr body) =>
          if (500 <=? status) && (status <? 600) then mret actionTransient
          else if status =? 200 then
            match unmarshal_token body with
            | inl e => fail (Errorf "cli: decode token response" e)
            | inr tr =>
                if (tr_AccessToken tr =? "")%string then fail (Opaque "cli: token response contained no access_token")
                else
                  now_ ← time_Now;
                  mret (actionDone (mkCliToken (tr_AccessToken tr) (tr_RefreshToken tr) (expiry now_ (tr_ExpiresIn tr)) (df_clientID f)))
            end
          else poll_rejected status body
      end
  end.

(** What the next sleep is, and the interval and backoff after it. *)
Definition schedule (action : pollAction) (interval backoff : duration) : duration * duration * duration :=
  match action with
  | actionSlowDown => let interval := wrap64 (interval + slowDownBump) in (interval, interval, interval)
  | actionTransient =>
      let next := wrap64 (backoff * 2) in
      let maxBackoff := wrap64 (interval * transientBackoffCap) in
      (backoff, interval, if maxBackoff <? next then maxBackoff else next)
  | _ => (interval, interval, interval)
  end.

(** [f.pollLoop(ctx, init)]. *)
Fixpoint poll_rounds (fuel : nat) (f : DeviceFlow) (deviceCode : string) (start : time) (deadline interval backoff : duration) : C (option CliToken) :=
  match fuel with
  | O => mret None
  | S fuel =>
      c ← ctx_err;
      match c with
      | Some e => fail e
      | None =>
          now_ ← time_Now;
          if deadline <=? time_Sub now_ start then fail (Sentinel ErrPollDeadlineExceeded)
          else
            action ← pollOnce f deviceCode;
            match action with
            | actionDone tok => mret (Some tok)
            | _ =>
                let '(sleepFor, interval, backoff) := schedule action interval backoff in
                defaultSleep (Z.max sleepFor (df_minSleep f)) ≫= fun _ =>
                poll_rounds fuel f deviceCode start deadline interval backoff
            end
      end
  end.

Definition poll_interval (f : DeviceFlow) (i : deviceAuthResponse) : duration :=
  Z.max (wrap64 (da_Interval i * Second)) (df_minSleep f).

Definition poll_deadline (f : DeviceFlow) (i : deviceAuthResponse) : duration :=
  let deadline := if 0 <? df_pollDeadline f then df_pollDeadline f else wrap64 (da_ExpiresIn i * Second) in
  if deadline <=? 0 then defaultPollFallback else deadline.

Definition pollLoop (fuel : nat) (f : DeviceFlow) (i : deviceAuthResponse) : C (option CliToken) :=
  start ← time_Now;
  poll_rounds fuel f (da_DeviceCode i) start (poll_deadline f i) (poll_interval f i) (poll_interval f i).

Definition DeviceFlow_Run (fuel : nat) (f : DeviceFlow) : C (option CliToken) :=
  if (df_issuer f =? "")%string then fail (Opaque "cli: issuer is required (pass --issuer or set TEMPOGATE_ISSUER)")
  else match checkIssuer (df_issuer f) (df_insecure f) with
       | Some e => fail e
       | None => i ← requestDeviceCode f; printPrompt i ≫= fun _ => pollLoop fuel f i
       end.

End Loopback.

(** ** The commands (cmd/login.go, cmd/token.go) *)

(** What the commands find around them: the environment variables, the home
    directory, and the stream that cobra's [cmd.Println] writes to when no
    output was set. *)
Class Shell := {
  Getenv : string -> string;
  UserHomeDir : error + string;
  println_stream : stream
}.

Definition issuerEnvVar : string := "TEMPOGATE_ISSUER".
Definition loginModeEnvVar : string := "TEMPOGATE_LOGIN_MODE".

(** The flags of [tempogate login]; [lf_deviceChanged] is whether --device was
    given. *)
Record loginFlags := mkLoginFlags {
  lf_issuer : string; lf_clientID : string; lf_tokenFile : string; lf_device : bool; lf_deviceChanged : bool;
  lf_insecure : bool; lf_devicePollDeadline : duration
}.

Section Commands.
Context `{Unicode} `{CaseFold} `{URLParser} `{Host} `{CliJSON} `{Shell}.

Definition DefaultTokenPath : error + string :=
  match UserHomeDir with
  | inl e => inl (Errorf "cli: resolve home directory" e)
  | inr home => inr (filepath_Join [home; tokenDirName; tokenFileName])
  end.

Definition resolveTokenPath (explicit : string) : error + string :=
  if (explicit =? "")%string then DefaultTokenPath else inr explicit.

(** The start of both commands: the issuer and the token file. *)
Definition resolve_issuer (flag : string) : error + string :=
  let issuer := if (flag =? "")%string then Getenv issuerEnvVar else flag in
  if (issuer =? "")%string then inl (Opaque ("issuer is required: pass --issuer or set " +:+ issuerEnvVar)) else inr issuer.

Definition use_device (o : loginFlags) : bool :=
  if negb (lf_deviceChanged o) && (Getenv loginModeEnvVar =? "device")%string then true else lf_device o.

(** [cmd.Println(x)]. *)
Definition Println (x : string) : C unit := Fprint println_stream (x +:+ nl).

(** [RunE] of [tempogate login]; [fuel] is for the polling. *)
Definition login (fuel : nat) (o : loginFlags) (listen : error + string) (openBrowser : string -> option string) (es : list arrival) : C (option unit) :=
  issuer ← of_result id (resolve_issuer (lf_issuer o));
  path ← of_result id (resolveTokenPath (lf_tokenFile o));
  tok ← (if use_device o then
           if lf_devicePollDeadline o <? 0 then fail (Opaque "--device-poll-deadline must be non-negative")
           else DeviceFlow_Run fuel (NewDeviceFlow issuer (lf_clientID o) (lf_devicePollDeadline o) (lf_insecure o))
         else t ← Flow_Run (NewFlow issuer (lf_clientID o) (lf_insecure o)) listen openBrowser es; mret (Some t));
  match tok with
  | None => mret None
  | Some tok =>
      Save path tok ≫= fun _ =>
      Fprint Stderr ("Signed in. Token saved to " +:+ path +:+ ", valid until " +:+ Format RFC3339 (ct_ExpiresAt tok) 0 +:+ "." +:+ nl) ≫= fun _ =>
      Println (ct_AccessToken tok) ≫= fun _ => mret (Some tt)
  end.

(** [RunE] of [tempogate token]. *)
Definition token_cmd (fuel : nat) (pid : nat) (issuerFlag tokenFile : string) (insecure : bool) (s : Sys) : Sys * option (res unit) :=
  match resolve_issuer issuerFlag with
  | inl e => (s, Some (Err e))
  | inr issuer =>
      match resolveTokenPath tokenFile with
      | inl e => (s, Some (Err e))
      | inr path =>
          match EnsureFresh fuel (mkRefreshConfig path issuer refreshSkew insecure defaultRefreshLockTimeout) pid s with
          | (s, Some (Ret tok)) => let '(s, r) := Println (ct_AccessToken tok) s in (s, Some r)
          | (s, Some (Err e)) => (s, Some (Err e))
          | (s, Some Died) => (s, Some Died)
          | (s, None) => (s, None)
          end
      end
  end.

End Commands.
