(* ===== verification/Device.v ===== *)
(** * The device flow (oidc/device_authorization.go, oidc/device_ui.go)

    POST /device_authorization mints the device and user codes; the verification
    pages take the user code, send the browser through a sign-in of their own
    (the internal tempogate-device-ui client, with a signed bounce state), and
    approve or deny the device code behind a session, a CSRF token, an origin
    check and the attempt budgets. Page bodies are kept as data: which template
    is rendered with which values. The theorems are in DeviceFacts.v. *)

From stdpp Require Import pretty.
From S2P Require Import Prelude GoStrings GoErrors GoEncoding GoCrypto GoURL GoHttp Ratelimit Perms Oidc Client.
From S2P Require Import Binding Signer Token Session Login.

#[local] Open Scope Z_scope.

(** ** User codes *)

Definition DevicePath : string := "/device".
Definition AuthorizePath : string := "/authorize".
Definition DeviceSSOCallbackPath : string := DevicePath +:+ "/sso-callback".
Definition DeviceConfirmPath : string := DevicePath +:+ "/confirm".
Definition DeviceApprovePath : string := DevicePath +:+ "/approve".
Definition DeviceDenyPath : string := DevicePath +:+ "/deny".

Definition deviceCodeTTL : duration := 15 * Minute.
Definition defaultPollInterval : Z := 5.
Definition userCodeAlphabet : string := "BCDFGHJKLMNPQRSTVWXZ3479".
Definition userCodeLen : nat := 8.
Definition deviceCodeEntropyBytes : nat := 32.
Definition userCodeMaxRetries : nat := 3.
Definition userCodeRandRejectionCap : N := 240.

Definition formatUserCode (canonical : string) : string :=
  if (String.length canonical <=? userCodeLen / 2)%nat then canonical
  else String.substring 0 (userCodeLen / 2) canonical +:+ "-" +:+ drop_bytes (userCodeLen / 2) canonical.

(** [canonicalUserCode(raw)]: letters upper-cased, digits kept, everything else
    (also every byte of a non-ASCII rune) stripped. *)
Fixpoint canonicalUserCode (raw : string) : string :=
  match raw with
  | "" => ""
  | String c s =>
      let n := code c in
      if ((97 <=? n) && (n <=? 122))%N then String (byte_of (n - 32)) (canonicalUserCode s)
      else if ((65 <=? n) && (n <=? 90) || (48 <=? n) && (n <=? 57))%N then String c (canonicalUserCode s)
      else canonicalUserCode s
  end.

(** One byte of randomness: a character of the alphabet, or rejected. *)
Definition user_code_char (b : ascii) : option ascii :=
  if (userCodeRandRejectionCap <=? code b)%N then None
  else String.get (N.to_nat (code b mod N.of_nat (String.length userCodeAlphabet))) userCodeAlphabet.

(** The loop over one buffer of random bytes. *)
Fixpoint take_codes (out buf : string) : string :=
  match buf with
  | "" => out
  | String b buf' =>
      if (userCodeLen <=? String.length out)%nat then out
      else match user_code_char b with
           | None => take_codes out buf'
           | Some c => take_codes (out +:+ String c "") buf'
           end
  end.

(** ** POST /device_authorization *)

Record DeviceAuthorization := mkDeviceAuthorization { da_clients : ClientRegistry; da_issuer : string }.

Record deviceAuthorizationBody := mkDeviceAuthorizationBody {
  db_DeviceCode : string;
  db_UserCode : string;
  db_VerificationURI : string;
  db_VerificationURIComplete : string;
  db_ExpiresIn : Z;
  db_Interval : Z
}.

Record deviceAuthorizationOutput := mkDeviceAuthorizationOutput {
  do_CacheControl : string;
  do_Body : deviceAuthorizationBody
}.

Definition NewDeviceAuthorization (clients : ClientRegistry) (issuer : string) : DeviceAuthorization :=
  mkDeviceAuthorization clients (TrimRightByte issuer "/").

Section Authorization.
Context `{Env} {S : Type} `{DeviceCodeStore S}.

Definition randomDeviceCode : M S string :=
  b ← rand_Read deviceCodeEntropyBytes;
  match b with
  | None => throw (Errorf "oidc: generate device code" (Opaque "rand"))
  | Some b => mret (RawURL_Encode b)
  end.

(** [randomUserCode()] reads until it has enough accepted bytes; [rounds] bounds
    how many reads the model follows. *)
Fixpoint randomUserCode (rounds : nat) (out : string) : M S string :=
  if (userCodeLen <=? String.length out)%nat then mret out
  else
    match rounds with
    | O => throw (Opaque "oidc: still sampling")
    | Datatypes.S rounds =>
        b ← rand_Read 16;
        match b with
        | None => throw (Errorf "oidc: generate user code" (Opaque "rand"))
        | Some buf => randomUserCode rounds (take_codes out buf)
        end
    end.

(** At least one byte in 16 is accepted in all but one read in 16^16; 64 reads
    never run out in practice. *)
Definition sampling_rounds : nat := 64.

Definition fresh_device (clientID scope deviceCode userCode : string) (now_ : time) : DeviceCode :=
  mkDeviceCode deviceCode userCode clientID scope "" "" "" None None None defaultPollInterval now_
    (time_Add now_ deviceCodeTTL).

(** The attempts of [h.mint(ctx, clientID, scope)]. *)
Fixpoint mint_attempts (n : nat) (clientID scope : string) (now_ : time) : M S DeviceCode :=
  match n with
  | O => throw (Opaque "oidc: exhausted device-code regeneration retries")
  | Datatypes.S n =>
      deviceCode ← randomDeviceCode;
      userCode ← randomUserCode sampling_rounds "";
      declare "secret" [deviceCode; userCode; formatUserCode userCode] ≫= fun _ =>
      let dc := fresh_device clientID scope deviceCode userCode now_ in
      e ← on_store (SaveDeviceCode dc);
      match e with
      | None => mret dc
      | Some e => if errors_Is e ErrDuplicateDeviceCode then mint_attempts n clientID scope now_
                  else throw (Errorf "oidc: persist device code" e)
      end
  end.

Definition mint (clientID scope : string) : M S DeviceCode :=
  now_ ← now; mint_attempts userCodeMaxRetries clientID scope now_.

Definition device_response (h : DeviceAuthorization) (dc : DeviceCode) : deviceAuthorizationBody :=
  mkDeviceAuthorizationBody (dc_Code dc) (formatUserCode (dc_UserCode dc)) (da_issuer h +:+ DevicePath)
    (da_issuer h +:+ DevicePath +:+ "?user_code=" +:+ QueryEscape (formatUserCode (dc_UserCode dc)))
    (Z.quot deviceCodeTTL Second) defaultPollInterval.

Definition DeviceAuthorization_handle (h : DeviceAuthorization) (rawBody : string) : M S deviceAuthorizationOutput :=
  match ParseQuery rawBody with
  | None => throw (oauthErr StatusBadRequest "invalid_request" "malformed form body")
  | Some form =>
  match checkParamLengths [mkCap "client_id" (Get form "client_id") maxClientIDLen;
                           mkCap "scope" (Get form "scope") maxScopeLen] with
  | Some e => throw e
  | None =>
  let clientID := Get form "client_id" in
  declare "identifier" [clientID] ≫= fun _ =>
  if (clientID =? "")%string then throw (oauthErr StatusBadRequest "invalid_request" "client_id is required")
  else
  match da_clients h !! clientID with
  | None => throw (oauthErr StatusUnauthorized "invalid_client" "client_id is not a registered public client")
  | Some client =>
      if negb (Secret client =? "")%string
      then throw (oauthErr StatusUnauthorized "invalid_client" "client_id is not a registered public client")
      else if negb (Allows client GrantTypeDeviceCode)
      then throw (oauthErr StatusBadRequest "unauthorized_client"
                    "client_id is not registered for the device authorization grant")
      else
        dc ← mint clientID (Get form "scope");
        mret (mkDeviceAuthorizationOutput "no-store" (device_response h dc))
  end end end.

End Authorization.

(** ** The verification pages *)

(** What is rendered: the template and its values. *)
Inductive page :=
  | Enter (postURL prefilledUserCode : string)
  | Confirm (displayUserCode email approveURL denyURL csrfToken : string)
  | Approved
  | Denied
  | NoAccess
  | ErrorPage (reason : string).

Record htmlOutput := mkHtml {
  ho_Status : Z;
  ho_ContentType : string;
  ho_CacheControl : string;
  ho_ContentSecurityPolicy : string;
  ho_ReferrerPolicy : string;
  ho_Body : page
}.

Inductive deviceRedirectOrPage :=
  | Redirect (location setCookie : string)
  | Page (p : htmlOutput).

Definition StatusOK : Z := 200.
Definition StatusInternalServerError : Z := 500.

(** The attempt budgets of the page, part of the server's state:
    [ratelimit.Limiter] per client address and per session. [Allow] reads the
    clock. *)
Class AttemptLimits (S : Type) := {
  ip_Allow : string -> time -> storeOp S bool;
  ip_Refund : string -> storeOp S unit;
  session_Allow : string -> time -> storeOp S bool;
  session_Refund : string -> storeOp S unit
}.

Definition defaultUserCodeAttemptsPerIP : Z := 20.
Definition defaultUserCodeAttemptsPerSession : Z := 5.
Definition userCodeAttemptWindow : duration := Minute.

(** The state of the process: the store, and the two limiters [NewDeviceUI]
    builds. *)
Record Server (S : Type) := mkServer {
  sv_store : S;
  sv_ipAttempts : Limiter;
  sv_sessionAttempts : Limiter
}.
Arguments mkServer {S}.
Arguments sv_store {S}.
Arguments sv_ipAttempts {S}.
Arguments sv_sessionAttempts {S}.

Definition NewServer {S} (s : S) : Server S :=
  mkServer s (Ratelimit.New [WithLimit defaultUserCodeAttemptsPerIP userCodeAttemptWindow])
    (Ratelimit.New [WithLimit defaultUserCodeAttemptsPerSession userCodeAttemptWindow]).

Section Server.
Context {S : Type}.

Definition in_store {A} (op : S -> S * A) : storeOp (Server S) A := fun sv =>
  let (s, x) := op (sv_store sv) in (mkServer s (sv_ipAttempts sv) (sv_sessionAttempts sv), x).

Definition on_ip {A} (op : Limiter -> Limiter * A) : storeOp (Server S) A := fun sv =>
  let (l, x) := op (sv_ipAttempts sv) in (mkServer (sv_store sv) l (sv_sessionAttempts sv), x).

Definition on_session {A} (op : Limiter -> Limiter * A) : storeOp (Server S) A := fun sv =>
  let (l, x) := op (sv_sessionAttempts sv) in (mkServer (sv_store sv) (sv_ipAttempts sv) l, x).

#[export] Instance Server_limits `{Codegen} : AttemptLimits (Server S) := {|
  ip_Allow key t := on_ip (fun l => Limiter_Allow l key t);
  ip_Refund key := on_ip (fun l => (Limiter_Refund l key, tt));
  session_Allow key t := on_session (fun l => Limiter_Allow l key t);
  session_Refund key := on_session (fun l => (Limiter_Refund l key, tt))
|}.

#[export] Instance Server_tokens `{TokenStore S} : TokenStore (Server S) := {|
  ConsumeAuthCode c f t := in_store (ConsumeAuthCode c f t);
  SaveRefresh r := in_store (SaveRefresh r);
  ConsumeRefresh tok c t := in_store (ConsumeRefresh tok c t);
  RevokeRefreshFamily f t := in_store (RevokeRefreshFamily f t)
|}.

#[export] Instance Server_devices `{DeviceCodeStore S} : DeviceCodeStore (Server S) := {|
  SaveDeviceCode dc := in_store (SaveDeviceCode dc);
  LookupDeviceCodeByDeviceCode c := in_store (LookupDeviceCodeByDeviceCode c);
  LookupDeviceCodeByUserCode c := in_store (LookupDeviceCodeByUserCode c);
  PollDeviceCode c t := in_store (PollDeviceCode c t);
  ApproveDeviceCode c id t := in_store (ApproveDeviceCode c id t);
  DenyDeviceCode c t := in_store (DenyDeviceCode c t);
  ConsumeDeviceCode c := in_store (ConsumeDeviceCode c)
|}.

#[export] Instance Server_sessions `{BrowserSessionStore S} : BrowserSessionStore (Server S) := {|
  SaveBrowserSession bs := in_store (SaveBrowserSession bs);
  LookupBrowserSession sid := in_store (LookupBrowserSession sid);
  DeleteBrowserSession sid := in_store (DeleteBrowserSession sid)
|}.

End Server.

(** The signed bounce state. *)
Record deviceBounceState := mkBounce { bo_UserCode : string; bo_Nonce : string; bo_Exp : Z }.

(** [json.Marshal] and [json.Unmarshal] on it; an object's text is not empty, and
    unmarshalling what was marshalled from ASCII text gives it back. *)
Class BounceJSON := {
  json_Marshal : deviceBounceState -> string;
  json_Unmarshal : string -> option deviceBounceState
}.

Class BounceJSONSpec `{BounceJSON} := {
  json_nonempty p : json_Marshal p <> "";
  json_roundtrip p : is_ascii (bo_UserCode p) = true -> is_ascii (bo_Nonce p) = true ->
    json_Unmarshal (json_Marshal p) = Some p
}.

Definition deviceStateTTL : duration := 10 * Minute.
Definition deviceStateNonceBytes : nat := 16.

Record DeviceUI := mkDeviceUI {
  du_sessions : SessionManager;
  du_clients : ClientRegistry;
  du_redeemer : Token;
  du_signingKey : string;
  du_issuer : string;
  du_issuerURL : URL;
  du_internalClientID : string;
  du_internalClientSecret : string;
  du_enterPagePolicy : string;
  du_pagePolicy : string;
  du_authorizer : PermissionResolver
}.

Definition msgUnusableUserCode : string :=
  "That code is not valid. Check the code on your device and try again, or restart the sign-in from your device.".
Definition msgTooManyAttempts : string := "Too many attempts. Wait a minute, then try again.".
Definition msgNotCompleted : string := "That sign-in could not be completed. Restart the sign-in from your device.".

Definition publicPath (u : DeviceUI) (p : string) : string := TrimRightByte (u_Path (du_issuerURL u)) "/" +:+ p.

Definition confirmRedirect (u : DeviceUI) (canonical : string) : string :=
  publicPath u DeviceConfirmPath +:+ "?user_code=" +:+ QueryEscape (formatUserCode canonical).

Definition htmlPage (u : DeviceUI) (body : page) : htmlOutput :=
  mkHtml StatusOK "text/html; charset=utf-8" "no-store" (du_pagePolicy u) "same-origin" body.

Definition with_status (st : Z) (o : htmlOutput) : htmlOutput :=
  mkHtml st (ho_ContentType o) (ho_CacheControl o) (ho_ContentSecurityPolicy o) (ho_ReferrerPolicy o) (ho_Body o).

Definition errorHTMLPage (u : DeviceUI) (reason : string) : htmlOutput := htmlPage u (ErrorPage reason).
Definition errorPage (u : DeviceUI) (reason : string) : deviceRedirectOrPage := Page (errorHTMLPage u reason).
Definition tooManyAttemptsPage (u : DeviceUI) : deviceRedirectOrPage :=
  Page (with_status StatusTooManyRequests (errorHTMLPage u msgTooManyAttempts)).

(** *** Same origin *)

Section Origin.
Context `{URLParser}.

(** [strings.EqualFold(s, t)] for an ASCII [t], as hosts and schemes are. *)
Definition refererAllowed (u : DeviceUI) (referer : string) : bool :=
  match url_Parse referer with
  | None => false
  | Some ref =>
      let iss := du_issuerURL u in
      if bool_decide (u_User ref <> None) then false
      else if negb (EqualFold (u_Scheme ref) (u_Scheme iss)) || negb (EqualFold (u_Host ref) (u_Host iss)) then false
      else
        let base := TrimRightByte (u_EscapedPath iss) "/" in
        let p := u_EscapedPath ref in
        (base =? "")%string || (p =? base)%string || HasPrefix p (base +:+ "/")
  end.

Definition originAllowed (u : DeviceUI) (origin referer : string) : bool :=
  if negb (origin =? "")%string
  then (origin =? u_Scheme (du_issuerURL u) +:+ "://" +:+ u_Host (du_issuerURL u))%string
  else refererAllowed u referer.

End Origin.

(** *** Bounce state and handlers *)

Section Pages.
Context `{Unicode} `{URLParser} `{BounceJSON} `{Env} {S : Type}.
Context `{TokenStore S} `{DeviceCodeStore S} `{BrowserSessionStore S} `{AttemptLimits S}.
Implicit Types (u : DeviceUI).

Definition declareUserCode (raw : string) : M S unit :=
  let canonical := canonicalUserCode raw in
  declare "secret" [raw; canonical; formatUserCode canonical].

Definition signBounceState u (canonical : string) : M S string :=
  b ← rand_Read deviceStateNonceBytes;
  match b with
  | None => throw (Opaque "rand")
  | Some b =>
      now_ ← now;
      let raw := json_Marshal (mkBounce canonical (RawURL_Encode b) (Unix (time_Add now_ deviceStateTTL))) in
      mret (RawURL_Encode raw +:+ "."
            +:+ RawURL_Encode (labeledMAC (du_signingKey u) macLabelDeviceBounceState raw))
  end.

(** The checks before the clock is read: the authenticated payload. *)
Definition open_bounce u (signed : string) : error + deviceBounceState :=
  match Cut signed "." with
  | None => inl (Opaque "malformed state")
  | Some (a, b) =>
      if (a =? "")%string || (b =? "")%string then inl (Opaque "malformed state")
      else
        match RawURL_Decode a, RawURL_Decode b with
        | Some raw, Some gotMAC =>
            if ConstantTimeCompare gotMAC (labeledMAC (du_signingKey u) macLabelDeviceBounceState raw)
            then match json_Unmarshal raw with
                 | Some p => inr p
                 | None => inl (Opaque "json")
                 end
            else inl (Opaque "bad state mac")
        | _, _ => inl (Opaque "base64")
        end
  end.

Definition verifyBounceState u (signed : string) : M S (error + string) :=
  match open_bounce u signed with
  | inl e => mret (inl e)
  | inr payload =>
      now_ ← now;
      if bo_Exp payload <? Unix now_ then mret (inl (Opaque "state expired"))
      else if (canonicalUserCode (bo_UserCode payload) =? "")%string
      then mret (inl (Opaque "state has no user_code"))
      else mret (inr (canonicalUserCode (bo_UserCode payload)))
  end.

(** [u.spendUserCodeAttempt(ctx, sid)] for the client key [ip]. *)
Definition spendUserCodeAttempt (ip sid : string) : M S bool :=
  t ← now;
  ok ← on_store (ip_Allow ip t);
  if negb (ok : bool) then mret false
  else if (sid =? "")%string then mret true
  else
    t ← now;
    ok ← on_store (session_Allow sid t);
    if (ok : bool) then mret true else on_store (ip_Refund ip) ≫= fun _ => mret false.

Definition refundUserCodeAttempt (ip sid : string) : M S unit :=
  on_store (ip_Refund ip) ≫= fun _ =>
  if (sid =? "")%string then mret tt else on_store (session_Refund sid).

Definition userCodeUsable (canonical : string) : M S bool :=
  r ← on_store (LookupDeviceCodeByUserCode canonical);
  let '(dc, err) := r in
  if is_err err ErrDeviceCodeNotFound then mret false
  else match err with
       | Some e => throw (Errorf "oidc: lookup user_code" e)
       | None =>
           now_ ← now;
           mret (negb (time_After now_ (dc_ExpiresAt dc) || bool_decide (is_Some (dc_ApprovedAt dc))
                       || bool_decide (is_Some (dc_DeniedAt dc))))
       end.

Definition handleEnterGet u (userCode : string) : M S htmlOutput :=
  let p := htmlPage u (Enter (publicPath u DevicePath) (formatUserCode (canonicalUserCode userCode))) in
  mret (mkHtml (ho_Status p) (ho_ContentType p) (ho_CacheControl p) (du_enterPagePolicy u) (ho_ReferrerPolicy p)
          (ho_Body p)).

Definition bounce_location u (state : string) : string :=
  du_issuer u +:+ AuthorizePath +:+ "?"
  +:+ Encode (Set_ (Set_ (Set_ (Set_ (Set_ [] "response_type" "code") "client_id" (du_internalClientID u))
                            "redirect_uri" (du_issuer u +:+ DeviceSSOCallbackPath))
                      "scope" "openid email") "state" state).

Definition handleEnterPost u (ip cookie rawBody : string) : M S deviceRedirectOrPage :=
  match ParseQuery rawBody with
  | None => mret (errorPage u "Your submission was malformed. Please return to your device and try again.")
  | Some form =>
  let raw := Get form "user_code" in
  let canonical := canonicalUserCode raw in
  declareUserCode raw ≫= fun _ =>
  if (canonical =? "")%string then mret (errorPage u "Enter the code shown on your device.")
  else
  r ← attempt (Session_Get (du_sessions u) cookie);
  sid ← match r with
        | inr bs => mret (bs_SID bs)
        | inl e => if errors_Is e ErrNoSession then mret "" else throw (Errorf "oidc: device-ui session lookup" e)
        end;
  spent ← spendUserCodeAttempt ip sid;
  if negb spent then mret (tooManyAttemptsPage u)
  else
  usable ← userCodeUsable canonical;
  if negb usable then mret (errorPage u msgUnusableUserCode)
  else
  refundUserCodeAttempt ip sid ≫= fun _ =>
  if negb (sid =? "")%string then mret (Redirect (confirmRedirect u canonical) "")
  else
    st ← attempt (signBounceState u canonical);
    match st with
    | inl e => throw (Errorf "oidc: sign device-ui bounce state" e)
    | inr state => mret (Redirect (bounce_location u state) "")
    end
  end.

(** [u.denyForNoAccess(ctx, canonical)]. *)
Definition denyForNoAccess u (canonical : string) : M S htmlOutput :=
  now_ ← now;
  e ← on_store (DenyDeviceCode canonical now_);
  match e with
  | Some e => if errors_Is e ErrDeviceCodeNotPending || errors_Is e ErrDeviceCodeNotFound
              then mret (with_status StatusForbidden (htmlPage u NoAccess))
              else throw (Errorf "oidc: device-ui deny for no access" e)
  | None => mret (with_status StatusForbidden (htmlPage u NoAccess))
  end.

Definition rejected_state u (e : error) : M S deviceRedirectOrPage :=
  emit (Logged "device-ui sso callback rejected: bounce state verification failed"
          [("op", "device.sso_callback"); ("cause", "verify_bounce_state")]) ≫= fun _ =>
  mret (errorPage u msgNotCompleted).

Definition handleSSODenied u (state : string) : M S deviceRedirectOrPage :=
  v ← verifyBounceState u state;
  match v with
  | inl e => rejected_state u e
  | inr userCode => p ← denyForNoAccess u userCode; mret (Page p)
  end.

Definition redeemAuthCode u (c : string) : M S Identity :=
  r ← attempt (RedeemAuthorizationCode (du_redeemer u)
                 (mkRedemptionRequest c (du_internalClientID u) (du_issuer u +:+ DeviceSSOCallbackPath) ""
                    (du_internalClientSecret u)));
  match r with
  | inl e => throw (Errorf "oidc: in-process auth code redemption" e)
  | inr rd => mret (rd_Identity rd)
  end.

Definition bool_attr (b : bool) : string := if b then "true" else "false".

Definition handleSSOCallback u (c state err : string) : M S deviceRedirectOrPage :=
  declare "secret" [c; state] ≫= fun _ =>
  if (err =? "access_denied")%string && negb (state =? "")%string then handleSSODenied u state
  else if (c =? "")%string || (state =? "")%string then
    emit (Logged "device-ui sso callback rejected: missing code or state"
            [("op", "device.sso_callback"); ("cause", "missing_code_or_state");
             ("code_present", bool_attr (negb (c =? "")%string));
             ("state_present", bool_attr (negb (state =? "")%string))]) ≫= fun _ =>
    mret (errorPage u msgNotCompleted)
  else
  v ← verifyBounceState u state;
  declareUserCode (match v with inr uc => uc | inl _ => "" end) ≫= fun _ =>
  match v with
  | inl e => rejected_state u e
  | inr userCode =>
      r ← attempt (redeemAuthCode u c);
      match r with
      | inl e =>
          emit (Logged "device-ui sso callback failed: auth code redemption failed"
                  [("op", "device.sso_callback"); ("cause", "redeem_auth_code")]) ≫= fun _ =>
          mret (errorPage u msgNotCompleted)
      | inr id =>
          i ← attempt (IssueCookie (du_sessions u) id);
          match i with
          | inl e => throw (Errorf "oidc: device-ui session issue" e)
          | inr (_, ck) => mret (Redirect (confirmRedirect u userCode) (Cookie_String ck))
          end
      end
  end.

(** [u.refuseIfNoAccess(ctx, bs, canonical)]: the page, or [None] to go on. *)
Definition refuseIfNoAccess u (bs : BrowserSession) (canonical : string) : M S (option htmlOutput) :=
  match permitted (du_authorizer u) (bs_Email bs) with
  | inl e => throw (Errorf "oidc: device-ui resolve permissions" e)
  | inr (_, true) => mret None
  | inr (_, false) =>
      emit (Counted "tempogate.authz_denied" ["device_verification"]) ≫= fun _ =>
      emit (Logged "device-ui approval refused: no authorization rule grants this account any Temporal permissions"
              [("op", "device.decision"); ("cause", reasonAuthzDenied); ("email", bs_Email bs)]) ≫= fun _ =>
      p ← denyForNoAccess u canonical; mret (Some p)
  end.

Definition handleConfirm u (ip userCode cookie : string) : M S deviceRedirectOrPage :=
  let canonical := canonicalUserCode userCode in
  declareUserCode userCode ≫= fun _ =>
  if (canonical =? "")%string then mret (errorPage u msgNotCompleted)
  else
  r ← attempt (Session_Get (du_sessions u) cookie);
  match r with
  | inl e =>
      if errors_Is e ErrNoSession
      then mret (Redirect (publicPath u DevicePath +:+ "?user_code=" +:+ QueryEscape (formatUserCode canonical)) "")
      else throw (Errorf "oidc: device-ui confirm session lookup" e)
  | inr bs =>
      spent ← spendUserCodeAttempt ip (bs_SID bs);
      if negb spent then mret (tooManyAttemptsPage u)
      else
      usable ← userCodeUsable canonical;
      if negb usable then mret (errorPage u msgUnusableUserCode)
      else
      refundUserCodeAttempt ip (bs_SID bs) ≫= fun _ =>
      refused ← refuseIfNoAccess u bs canonical;
      match refused with
      | Some p => mret (Page p)
      | None =>
          mret (Page (htmlPage u (Confirm (formatUserCode canonical) (bs_Email bs) (publicPath u DeviceApprovePath)
                                    (publicPath u DeviceDenyPath) (bs_SID bs))))
      end
  end.

Record deviceDecisionInput := mkDecision {
  dd_Cookie : string;
  dd_Origin : string;
  dd_Referer : string;
  dd_RawBody : string
}.

Definition session_identity (bs : BrowserSession) : Identity :=
  mkIdentity (bs_ConnectorID bs) (bs_Subject bs) (bs_Email bs).

Definition handleDecision u (ip : string) (i : deviceDecisionInput) (approve : bool) : M S htmlOutput :=
  if negb (originAllowed u (dd_Origin i) (dd_Referer i))
  then mret (errorHTMLPage u "That request did not come from the expected page. Restart the sign-in from your device.")
  else
  match ParseQuery (dd_RawBody i) with
  | None => mret (errorHTMLPage u "Your submission was malformed. Please return to your device and try again.")
  | Some form =>
  r ← attempt (Session_Get (du_sessions u) (dd_Cookie i));
  match r with
  | inl e =>
      if errors_Is e ErrNoSession
      then mret (errorHTMLPage u "Your sign-in has expired. Restart the sign-in from your device.")
      else throw (Errorf "oidc: device-ui decision session lookup" e)
  | inr bs =>
  if negb (ConstantTimeCompare (Get form "csrf_token") (bs_SID bs))
  then mret (errorHTMLPage u "That submission could not be verified. Restart the sign-in from your device.")
  else
  let canonical := canonicalUserCode (Get form "user_code") in
  declareUserCode (Get form "user_code") ≫= fun _ =>
  if (canonical =? "")%string
  then mret (errorHTMLPage u "That submission was missing the device code. Restart the sign-in from your device.")
  else
  spent ← spendUserCodeAttempt ip (bs_SID bs);
  if negb spent then mret (with_status StatusTooManyRequests (errorHTMLPage u msgTooManyAttempts))
  else
  refused ← (if approve then refuseIfNoAccess u bs canonical else mret None);
  match refused with
  | Some p => mret (with_status (ho_Status p) (htmlPage u (ho_Body p)))
  | None =>
  now_ ← now;
  e ← (if approve then on_store (ApproveDeviceCode canonical (session_identity bs) now_)
       else on_store (DenyDeviceCode canonical now_));
  match e with
  | Some e =>
      if errors_Is e ErrDeviceCodeNotPending || errors_Is e ErrDeviceCodeNotFound
      then mret (errorHTMLPage u msgUnusableUserCode)
      else throw (Errorf "oidc: device-ui decision flip" e)
  | None =>
      refundUserCodeAttempt ip (bs_SID bs) ≫= fun _ =>
      mret (htmlPage u (if approve then Approved else Denied))
  end end end end.

(** The wrappers of the routes: an unexpected error becomes the 500 page. *)
Definition serverErrorHTML u (op requestID : string) : M S htmlOutput :=
  emit (Logged "device-ui request failed" [("op", op); ("request_id", requestID)]) ≫= fun _ =>
  mret (with_status StatusInternalServerError
          (errorHTMLPage u ("Something went wrong on our side. Restart the sign-in from your device. (request id "
                            +:+ requestID +:+ ")"))).

Definition htmlOrServerError u (op requestID : string) (m : M S htmlOutput) : M S htmlOutput :=
  r ← attempt m;
  match r with inl _ => serverErrorHTML u op requestID | inr out => mret out end.

Definition pageOrServerError u (op requestID : string) (m : M S deviceRedirectOrPage) : M S deviceRedirectOrPage :=
  r ← attempt m;
  match r with
  | inl _ => p ← serverErrorHTML u op requestID; mret (Page p)
  | inr out => mret out
  end.

End Pages.

(** ** Construction *)

Definition defaultInternalDeviceUIClientID : string := "tempogate-device-ui".

Definition upstreamFormActionSource `{URLParser} `{Unicode} (raw : string) : error + string :=
  match url_Parse raw with
  | None => inl (Opaque "url")
  | Some parsed =>
      let scheme := ToLower (u_Scheme parsed) in
      if negb (scheme =? "https")%string && negb (scheme =? "http")%string
      then inl (Opaque "scheme must be http or https")
      else if (u_Host parsed =? "")%string then inl (Opaque "missing host")
      else inr (scheme +:+ "://" +:+ u_Host parsed)
  end.

Fixpoint form_action_sources `{URLParser} `{Unicode} (raws : list string) : error + list string :=
  match raws with
  | [] => inr []
  | raw :: raws' =>
      if (raw =? "")%string then form_action_sources raws'
      else
        match upstreamFormActionSource raw with
        | inl e => inl (Errorf "oidc: upstream IdP authorization endpoint must be an absolute URL with scheme and host" e)
        | inr s => match form_action_sources raws' with inl e => inl e | inr l => inr (s :: l) end
        end
  end.

Definition devicePagePolicy (styleSource formActionSources : string) : string :=
  "default-src 'none'; style-src " +:+ styleSource +:+ "; form-action " +:+ formActionSources
  +:+ "; base-uri 'none'; frame-ancestors 'none'".

(** [NewDeviceUI]: [styleSource] is the hash of the embedded stylesheet. *)
Definition NewDeviceUI `{URLParser} `{Unicode} (sessions : SessionManager) (clients : ClientRegistry) (redeemer : Token)
    (signingKey issuer : string) (endpoints : list string) (styleSource : string) (authorizer : PermissionResolver) :
    error + DeviceUI :=
  let issuer := TrimRightByte issuer "/" in
  match clients !! defaultInternalDeviceUIClientID with
  | None => inl (Opaque "oidc: internal device-ui client not registered in OIDC_CLIENTS")
  | Some client =>
      if (Secret client =? "")%string then inl (Opaque "oidc: internal device-ui client must be confidential")
      else
        match url_Parse issuer with
        | None => inl (Opaque "oidc: issuer is not an absolute URL")
        | Some iss =>
            if (u_Scheme iss =? "")%string || (u_Host iss =? "")%string
            then inl (Opaque "oidc: issuer is not an absolute URL")
            else
              match Validate clients defaultInternalDeviceUIClientID (issuer +:+ DeviceSSOCallbackPath) with
              | Some e => inl (Errorf "oidc: internal device-ui client redirect mismatch" e)
              | None =>
                  match form_action_sources endpoints with
                  | inl e => inl e
                  | inr sources =>
                      inr (mkDeviceUI sessions clients redeemer signingKey issuer iss defaultInternalDeviceUIClientID
                             (Secret client)
                             (devicePagePolicy styleSource (String.concat " " ("'self'" :: sources)))
                             (devicePagePolicy styleSource "'self'") authorizer)
                  end
              end
        end
  end.
