(* ===== verification/TokenFacts.v ===== *)
(** * What the token endpoint guarantees

    The theorems about Token.v, against the store contract of Sessions.v, hence
    for every backend that refines it: single use of codes and refresh tokens
    over any sequence of requests, death of a replayed family, bounded session
    lifetime, PKCE, client binding, no token without permissions, and that
    every request only takes steps of the abstract session machine. *)

From S2P Require Import Prelude GoStrings GoErrors GoEncoding GoCrypto GoURL Perms Oidc Client Keys.
From S2P Require Import Signer Sessions Token.

(** The device-code operations /token calls leave sessions alone (other requests
    may still take steps meanwhile). *)
Class DeviceStoreFrame (S : Type) `{TokenStoreSpec S} `{DeviceCodeStore S} := {
  frame_lookup c s : store_inv s ->
    store_inv (LookupDeviceCodeByDeviceCode c s).1 /\ steps (view s) (view (LookupDeviceCodeByDeviceCode c s).1);
  frame_poll c t s : store_inv s ->
    store_inv (PollDeviceCode c t s).1 /\ steps (view s) (view (PollDeviceCode c t s).1);
  frame_consume c s : store_inv s ->
    store_inv (ConsumeDeviceCode c s).1 /\ steps (view s) (view (ConsumeDeviceCode c s).1)
}.

Section TokenFacts.
Context `{Unicode} `{JWX} `{UUIDGen} `{Env} {S : Type} `{DeviceStoreFrame S}.
Implicit Types (t : Token) (w : World S).

Abbreviation vw w := (view (w_store w)).
Abbreviation ok w := (store_inv (w_store w)).

(** ** Every request only takes steps of the machine *)

Definition stepping {A} (m : M S A) : Prop :=
  forall w w' r, ok w -> m w = (w', r) -> ok w' /\ steps (vw w) (vw w').

Lemma stepping_bind {A B} (m : M S A) (f : A -> M S B) :
  stepping m -> (forall x, stepping (f x)) -> stepping (m ≫= f).
Proof.
  intros Hm Hf w w' r Hok [(e & Hm1 & ->)|(w1 & x & Hm1 & Hf1)]%bind_cases; [by eapply Hm|].
  destruct (Hm _ _ _ Hok Hm1) as [Hok1 Hs1]. destruct (Hf _ _ _ _ Hok1 Hf1) as [Hok2 Hs2].
  split; [done|]. by etrans.
Qed.

Lemma stepping_keeps {A} (m : M S A) :
  (forall w w' r, m w = (w', r) -> w_store w' = w_store w) -> stepping m.
Proof. intros Hk w w' r Hok Hm. rewrite (Hk _ _ _ Hm). done. Qed.

Lemma stepping_ret {A} (x : A) : stepping (mret x).
Proof. apply stepping_keeps. by intros w w' r [= <- <-]. Qed.
Lemma stepping_throw {A} e : stepping (@throw S A e).
Proof. apply stepping_keeps. by intros w w' r [= <- <-]. Qed.
Lemma stepping_now : stepping now.
Proof. apply stepping_keeps. by intros w w' r [= <- <-]. Qed.
Lemma stepping_emit ev : stepping (emit ev).
Proof. apply stepping_keeps. by intros w w' r [= <- <-]. Qed.
Lemma stepping_rand n : stepping (rand_Read n).
Proof. apply stepping_keeps. by intros w w' r [= <- <-]. Qed.

Lemma stepping_attempt {A} (m : M S A) : stepping m -> stepping (attempt m).
Proof.
  intros Hm w w' r Hok. unfold attempt. destruct (m w) as [w1 r1] eqn:E. intros [= <- <-]. eauto.
Qed.

Lemma stepping_lift {A} (r : error + A) : stepping (lift r).
Proof. destruct r; [apply stepping_throw|apply stepping_ret]. Qed.

Lemma stepping_Mint s req : stepping (Mint s req).
Proof. apply stepping_keeps. intros w w' r Hm. by apply keeps_Mint in Hm as [? _]. Qed.
Lemma stepping_MintIDToken s req : stepping (MintIDToken s req).
Proof. apply stepping_keeps. intros w w' r Hm. by apply keeps_MintIDToken in Hm as [? _]. Qed.

(** A store operation that refines a step of the machine. *)
Lemma stepping_refines {A} (err : A -> option error) (op : S -> S * A) spec :
  refines store_inv view err op spec -> (forall s, step s (spec s).1) -> stepping (on_store op).
Proof.
  intros Hr Hst w w' r Hok. unfold on_store. destruct (Hr _ Hok) as [Hok' Hv]. unfold linearizes in Hv.
  destruct (op (w_store w)) as [s' a]. intros [= <- <-]. cbn in *. split; [done|].
  destruct Hv as (s0 & s1 & Hs0 & Hs1 & Hv). etrans; [exact Hs0|]. etrans; [|exact Hs1].
  destruct Hv as [Hv|[_ [->| ->]]]; [|done|apply rtc_once, Hst].
  apply rtc_once. specialize (Hst s0). by rewrite <- Hv in Hst.
Qed.

Lemma stepping_frame {A} (op : S -> S * A) :
  (forall s, store_inv s -> store_inv (op s).1 /\ steps (view s) (view (op s).1)) -> stepping (on_store op).
Proof.
  intros Hf w w' r Hok. unfold on_store. specialize (Hf _ Hok).
  destruct (op (w_store w)) as [s' a]. by intros [= <- <-].
Qed.

Lemma stepping_ConsumeAuthCode c f tm : stepping (on_store (ConsumeAuthCode c f tm)).
Proof. eapply stepping_refines; [apply ConsumeAuthCode_refines|]. intros s. apply step_consume_code. Qed.
Lemma stepping_SaveRefresh r : stepping (on_store (SaveRefresh r)).
Proof. eapply stepping_refines; [apply SaveRefresh_refines|]. intros s. apply step_save. Qed.
Lemma stepping_ConsumeRefresh tok c tm : stepping (on_store (ConsumeRefresh tok c tm)).
Proof. eapply stepping_refines; [apply ConsumeRefresh_refines|]. intros s. apply step_consume_refresh. Qed.
Lemma stepping_Revoke f tm : stepping (on_store (RevokeRefreshFamily f tm)).
Proof. apply stepping_frame, RevokeRefreshFamily_keeps. Qed.
Lemma stepping_lookup c : stepping (on_store (LookupDeviceCodeByDeviceCode c)).
Proof. apply stepping_frame, frame_lookup. Qed.
Lemma stepping_poll c tm : stepping (on_store (PollDeviceCode c tm)).
Proof. apply stepping_frame, frame_poll. Qed.
Lemma stepping_consume c : stepping (on_store (ConsumeDeviceCode c)).
Proof. apply stepping_frame, frame_consume. Qed.

End TokenFacts.

#[export] Hint Resolve stepping_ret stepping_throw stepping_now stepping_emit stepping_rand stepping_lift
  stepping_Mint stepping_MintIDToken stepping_ConsumeAuthCode stepping_SaveRefresh stepping_ConsumeRefresh
  stepping_Revoke stepping_lookup stepping_poll stepping_consume : tg.

(** Walk a handler: split its branches and binds down to the store operations. *)
Ltac stepping :=
  repeat first
    [ progress intros
    | solve [auto with tg]
    | apply stepping_bind
    | apply stepping_attempt
    | match goal with |- stepping (match ?x with _ => _ end) => destruct x end
    | match goal with |- stepping (let '(_, _) := ?x in _) => destruct x end ].

Section TokenSteps.
Context `{Unicode} `{JWX} `{UUIDGen} `{Env} {S : Type} `{DeviceStoreFrame S}.
Implicit Types (t : Token) (w : World S).

Abbreviation vw w := (view (w_store w)).
Abbreviation ok w := (store_inv (w_store w)).

Lemma stepping_randomFamilyID : stepping randomFamilyID.
Proof. unfold randomFamilyID. stepping. Qed.
Lemma stepping_randomRefresh : stepping randomRefresh.
Proof. unfold randomRefresh. stepping. Qed.
Lemma stepping_revokeFamily rt tm ev msg : stepping (revokeFamily rt tm ev msg).
Proof. unfold revokeFamily, or_throw. stepping. Qed.

Hint Resolve stepping_randomFamilyID stepping_randomRefresh stepping_revokeFamily : tg.

Lemma stepping_issue t id c n l : stepping (issue t id c n l).
Proof. unfold issue, declareIdentity, declare. stepping. Qed.
Hint Resolve stepping_issue : tg.

Lemma stepping_refuse g id c code : stepping (refuseNoPermissions g id c code).
Proof. unfold refuseNoPermissions. stepping. Qed.
Hint Resolve stepping_refuse : tg.

Lemma stepping_Redeem t rq : stepping (RedeemAuthorizationCode t rq).
Proof. unfold RedeemAuthorizationCode, declare. stepping. Qed.
Hint Resolve stepping_Redeem : tg.

Lemma stepping_codeGrant t form a : stepping (authorizationCodeGrant t form a).
Proof. unfold authorizationCodeGrant, on_no_permissions. stepping. Qed.
Lemma stepping_refreshGrant t form a : stepping (refreshTokenGrant t form a).
Proof. unfold refreshTokenGrant, on_no_permissions. stepping. Qed.
Lemma stepping_deviceGrant t form a : stepping (deviceCodeGrant t form a).
Proof. unfold deviceCodeGrant, on_no_permissions. stepping. Qed.
Hint Resolve stepping_codeGrant stepping_refreshGrant stepping_deviceGrant : tg.

Lemma stepping_grant t rq : stepping (grant t rq).
Proof. unfold grant, telemetry_token, dispatch, declare. stepping. Qed.

Lemma handle_steps t rq w w' r : ok w -> handle t rq w = (w', r) -> ok w' /\ steps (vw w) (vw w').
Proof.
  intros Hok. unfold handle. destruct (grant t rq w) as [w1 r1] eqn:E. intros [= <- _].
  by eapply stepping_grant.
Qed.

(** ** Successful runs *)

Lemma on_store_inr {A} (op : S -> S * A) w w' r :
  on_store op w = (w', r) ->
  exists a, r = inr a /\ op (w_store w) = (w_store w', a) /\ w_tick w' = w_tick w.
Proof. unfold on_store. destruct (op (w_store w)) as [s a]. intros [= <- <-]. eauto. Qed.

(** An operation that reported no error did what its specification says. *)
Lemma linearizes_served {A} (err : A -> option error) (op : S -> S * A) spec w w' a :
  linearizes view err op spec (w_store w) ->
  on_store op w = (w', inr a) -> ~ failed (err a) ->
  exists s0 s1, steps (vw w) s0 /\ spec s0 = (s1, a) /\ steps s1 (vw w').
Proof.
  intros Hr Hop Hnf. apply on_store_inr in Hop as (a' & [= ->] & Hop & Htk).
  destruct Hr as (s0 & s1 & Hs0 & Hs1 & [Hv|[Hf _]]); rewrite Hop in *; cbn in *; [|done]. eauto 10.
Qed.

Lemma refines_served {A} (err : A -> option error) (op : S -> S * A) spec w w' a :
  refines store_inv view err op spec -> ok w ->
  on_store op w = (w', inr a) -> ~ failed (err a) ->
  ok w' /\ w_tick w' = w_tick w /\
  exists s0 s1, steps (vw w) s0 /\ spec s0 = (s1, a) /\ steps s1 (vw w').
Proof.
  intros Hr Hok Hop Hnf. destruct (Hr _ Hok) as [Hok' Hl].
  pose proof (linearizes_served _ _ _ _ _ _ Hl Hop Hnf).
  apply on_store_inr in Hop as (a' & _ & Hop & Htk). rewrite Hop in Hok'. eauto.
Qed.

Lemma not_failed_None : ~ failed None.
Proof. by intros (x & ? & _). Qed.

Lemma not_failed_sentinel e s : is_err e s = true -> ~ failed e.
Proof.
  destruct e as [x|]; [|done]. cbn. intros Hs (y & [= <-] & Hd). revert Hs Hd.
  induction x; cbn; auto; done.
Qed.

Lemma authenticateClient_inr t id secret g c :
  authenticateClient t id secret g = inr c ->
  tc_Lookup (t_clients t) id = Some c /\ g ∈ GrantTypes c /\
  (Secret c <> "" \/ secret <> "" -> tc_Authenticate (t_clients t) id secret = true).
Proof.
  unfold authenticateClient. destruct (tc_Lookup _ id) as [c'|]; [|done].
  destruct (_ && _) eqn:E; [done|]. destruct (negb (Allows c' g)) eqn:Ha; [done|]. intros [= ->].
  split; [done|]. apply negb_false_iff in Ha. unfold Allows in Ha. apply bool_decide_eq_true in Ha.
  split; [done|]. intros Hs. apply andb_false_iff in E as [E|E%negb_false_iff]; [|done].
  apply orb_false_iff in E as [E1%negb_false_iff E2%negb_false_iff].
  apply String.eqb_eq in E1, E2. naive_solver.
Qed.

(** A redeemed code was issued, unused and unexpired; the request was its
    client's and carried the PKCE proof the code demands. *)
Lemma Redeem_inr t rq w w' rd :
  ok w -> RedeemAuthorizationCode t rq w = (w', inr rd) ->
  exists c row s0,
    authenticateClient t (rr_ClientID rq) (rr_ClientSecret rq) GrantTypeAuthorizationCode = inr c /\
    steps (vw w) s0 /\ codes s0 !! Hash (rr_Code rq) = Some row /\ cr_consumed row = None /\
    clock (w_tick w) <= ac_ExpiresAt (cr_code row) /\ ac_Subject (cr_code row) <> "" /\
    ac_ClientID (cr_code row) = rr_ClientID rq /\ ac_RedirectURI (cr_code row) = rr_RedirectURI rq /\
    rd = mkRedemption (mkIdentity (ac_ConnectorID (cr_code row)) (ac_Subject (cr_code row))
           (ac_Email (cr_code row))) (ac_ClientID (cr_code row)) (ac_Nonce (cr_code row)) (rd_FamilyID rd) /\
    (if (ac_CodeChallenge (cr_code row) =? "")%string then Secret c <> ""
     else rr_CodeVerifier rq <> "" /\ validCodeVerifier (rr_CodeVerifier rq) = true /\
          RawURL_Encode (sha256_Sum256 (rr_CodeVerifier rq)) = ac_CodeChallenge (cr_code row)) /\
    code_used (Hash (rr_Code rq)) (vw w').
Proof.
  intros Hok Hr. unfold RedeemAuthorizationCode in Hr.
  apply bind_inr in Hr as (w1 & [] & Hd & Hr).
  assert (w_store w1 = w_store w /\ w_tick w1 = w_tick w) as [Hw1 Ht1] by (by injection Hd as <-). clear Hd.
  destruct (rr_Code rq =? "")%string; [done|].
  apply bind_inr in Hr as (w2 & c & Hc & Hr).
  destruct (authenticateClient t _ _ _) as [e|c'] eqn:Hac; run_in Hc.
  destruct (_ && _) eqn:Hpub; [done|]. destruct (negb (rr_CodeVerifier rq =? "")%string && _) eqn:Hver; [done|].
  apply bind_inr in Hr as (w3 & fam & Hf & Hr).
  assert (w_store w3 = w_store w /\ w_tick w3 = w_tick w) as [Hw3 Ht3].
  { unfold randomFamilyID in Hf. run_in Hf. rewrite <- Hw1, <- Ht1. by destruct (entropy _ _); run_in Hf. }
  apply bind_inr in Hr as (w4 & now_ & Hn & Hr). run_in Hn.
  apply bind_inr in Hr as (w5 & [ac err] & Hop & Hr).
  destruct (is_err err ErrAuthCodeReused) eqn:E1.
  { apply bind_inr in Hr as (w6 & [] & _ & Hr). done. }
  destruct (is_err err ErrAuthCodeNotFound) eqn:E2; [done|]. destruct err as [e|]; [done|].
  eapply refines_served in Hop as (Hok5 & Htk & s0 & s1 & Hs0 & Hspec & Hs1);
    [|apply ConsumeAuthCode_refines|cbn; by rewrite Hw3|apply not_failed_None].
  cbn in Hs0. rewrite Hw3 in Hs0. unfold Spec.ConsumeAuthCode in Hspec.
  destruct (codes s0 !! Hash (rr_Code rq)) as [row|] eqn:Hrow; [|done].
  destruct (cr_consumed row) eqn:Hcons; [done|]. injection Hspec as Hv <-.
  assert (code_used (Hash (rr_Code rq)) (vw w5)) as Hused.
  { eapply code_used_steps; [exact Hs1|]. rewrite <- Hv. eexists. cbn. by rewrite lookup_insert_eq. }
  cbn in Hr. destruct (time_After _ _) eqn:Hexp; [done|].
  destruct (ac_Subject (cr_code row) =? "")%string eqn:Hsub; [done|].
  destruct (negb (rr_ClientID rq =? _)%string) eqn:Hcl; [done|].
  destruct (negb (rr_RedirectURI rq =? _)%string) eqn:Hred; [done|].
  apply bind_inr in Hr as (w7 & [] & Hpk & Hr). run_in Hr. solve_bool.
  exists c, row, s0. do 4 (split; [done|]).
  split; [unfold time_After in Hexp; rewrite <- Ht3; lia|]. split; [done|]. split; [done|]. split; [done|].
  split; [done|].
  destruct (ac_CodeChallenge (cr_code row) =? "")%string eqn:Hch; cbn [negb] in Hpk.
  - destruct (Secret c =? "")%string eqn:Hs; [done|]. run_in Hpk. apply String.eqb_neq in Hs.
    done.
  - destruct (rr_CodeVerifier rq =? "")%string eqn:Hve; [done|].
    destruct (negb (verifyPKCE _ _)) eqn:Hvp; [done|]. run_in Hpk. apply negb_false_iff in Hvp.
    apply ConstantTimeCompare_true in Hvp. cbn in Hver. apply negb_false_iff in Hver.
    by apply String.eqb_neq in Hve.
Qed.

(** The refresh token [issue] stores. *)
Definition issued_row t (id : Identity) (clientID jti fam : string) (authTime now_ : time) : Refresh :=
  mkRefresh "" jti clientID (id_ConnectorID id) (id_Subject id) (id_Email id) fam authTime now_
    (Z.min (now_ + t_refreshTTL t) (authTime + t_refreshMaxLifetime t)).

(** A token is issued only to someone granted something, and its refresh token
    joins a family that is not revoked. *)
Lemma issue_inr t id clientID nonce l w w' out :
  ok w -> issue t id clientID nonce l w = (w', inr out) ->
  exists g jti fam authTime now_ s0,
    steps (vw w) s0 /\ t_authorizer t (id_Email id) = inr g /\ Empty g = false /\
    (if (l_familyID l =? "")%string then authTime = now_ else fam = l_familyID l /\ authTime = l_authTime l) /\
    family_revoked fam (tokens s0) = false /\
    tokens s0 !! Hash (RefreshToken (Body out)) = None /\
    steps (mkSessions (codes s0)
             (<[Hash (RefreshToken (Body out)) :=
                  mkTokenRow (issued_row t id clientID jti fam authTime now_) None None]> (tokens s0)))
      (vw w').
Proof.
  intros Hok Hi. unfold issue in Hi.
  apply bind_inr in Hi as (w1 & [] & Hd & Hi). unfold declareIdentity, declare in Hd. run_in Hd.
  unfold permitted in Hi. destruct (t_authorizer t (id_Email id)) as [e|g] eqn:Hg; [done|].
  destruct (negb (Empty g)) eqn:He; [|done]. apply negb_true_iff in He.
  apply bind_inr in Hi as (w2 & now_ & Hn & Hi). run_in Hn.
  apply bind_inr in Hi as (w3 & l3 & Hl & Hi).
  assert (w_store w3 = w_store w /\
          if (l_familyID l =? "")%string then l_authTime l3 = clock (w_tick w) else l3 = l) as [Hw3 Hl3].
  { destruct (l_familyID l =? "")%string; [|by run_in Hl].
    unfold randomFamilyID in Hl. run_in Hl. by destruct (entropy _ _); run_in Hl. }
  apply bind_inr in Hi as (w4 & m & Hm & Hi). unfold attempt in Hm.
  destruct (Mint _ _ w3) as [w4' m'] eqn:Hmint. injection Hm as <- <-.
  apply keeps_Mint in Hmint as [Hw4 _]. destruct m' as [e|[signed jti]]; [done|].
  apply bind_inr in Hi as (w5 & i & Hm & Hi). unfold attempt in Hm.
  destruct (MintIDToken _ _ w4') as [w5' i'] eqn:Hmint. injection Hm as <- <-.
  apply keeps_MintIDToken in Hmint as [Hw5 _]. destruct i' as [e|idToken]; [done|].
  apply bind_inr in Hi as (w6 & tok & Hr & Hi).
  assert (w_store w6 = w_store w5') as Hw6.
  { unfold randomRefresh in Hr. run_in Hr. by destruct (entropy _ _); run_in Hr. }
  apply bind_inr in Hi as (w7 & [] & Hd & Hi). unfold declare in Hd. run_in Hd.
  apply bind_inr in Hi as (w8 & err & Hop & Hi).
  destruct (is_err err ErrRefreshFamilyRevoked) eqn:E1; [done|]. destruct err as [e|]; run_in Hi.
  eapply refines_served in Hop as (Hok8 & _ & s0 & s1 & Hs0 & Hspec & Hs1);
    [|apply SaveRefresh_refines|cbn; congruence|apply not_failed_None].
  cbn in Hs0. rewrite Hw6, Hw5, Hw4, Hw3 in Hs0. unfold Spec.SaveRefresh in Hspec.
  cbn [rt_FamilyID rt_Token] in Hspec.
  destruct (family_revoked (l_familyID l3) (tokens s0)) eqn:Hf; [done|].
  destruct (tokens s0 !! Hash tok) eqn:Ht; [done|]. injection Hspec as Hspec.
  exists g, jti, (l_familyID l3), (l_authTime l3), (clock (w_tick w)), s0.
  do 3 (split; [done|]).
  split; [destruct (l_familyID l =? "")%string; [done|by subst l3]|].
  split; [done|]. split; [done|]. rewrite <- Hspec in Hs1.
  match goal with |- steps ?x _ => replace x with s1; [by rewrite <- Hspec|rewrite <- Hspec] end.
  unfold issued_row, with_token. cbn. unfold time_Before, time_Add. do 3 f_equal.
  destruct (_ <? _) eqn:Hlt; [apply Z.ltb_lt in Hlt|apply Z.ltb_ge in Hlt]; by f_equal; f_equal; lia.
Qed.

Definition row_identity (row : TokenRow) : Identity :=
  mkIdentity (rt_ConnectorID (tr_refresh row)) (rt_Subject (tr_refresh row)) (rt_Email (tr_refresh row)).

(** [on_no_permissions] only succeeds with what [issue] returned. *)
Lemma on_no_permissions_inr r refuse w w' out :
  on_no_permissions r refuse w = (w', inr out) -> r = inr out /\ w' = w.
Proof.
  unfold on_no_permissions. destruct r as [e|o]; [|by intros [= <- <-]].
  destruct (errors_Is e _); [|done]. intros (w1 & e' & _ & He)%bind_inr. done.
Qed.

(** A successful refresh consumed a live token of the authenticated client and
    replaced it by one that inherits its identity, family and sign-in time. *)
Lemma refresh_inr t form a w w' out :
  ok w -> refreshTokenGrant t form a w = (w', inr out) ->
  let h := Hash (Get form "refresh_token") in
  let h' := Hash (RefreshToken (Body out)) in
  exists row g jti fam authTime now_ now2 s0 s1,
    (exists c, authenticateClient t (clientCredentials form a).1 (clientCredentials form a).2
                 GrantTypeRefreshToken = inr c) /\
    steps (vw w) s0 /\ tokens s0 !! h = Some row /\ live row = true /\
    rt_ClientID (tr_refresh row) = (clientCredentials form a).1 /\
    now_ = clock (w_tick w) /\
    now_ <= rt_ExpiresAt (tr_refresh row) /\
    now_ < rt_AuthTime (tr_refresh row) + t_refreshMaxLifetime t /\
    connectorConfigured t (rt_ConnectorID (tr_refresh row)) = true /\
    emailDomainAllowed (t_allowedDomains t) (rt_Email (tr_refresh row)) = true /\
    t_authorizer t (rt_Email (tr_refresh row)) = inr g /\ Empty g = false /\
    (if (row_family row =? "")%string then authTime = now2
     else fam = row_family row /\ authTime = rt_AuthTime (tr_refresh row)) /\
    steps (mkSessions (codes s0)
             (<[h := mkTokenRow (tr_refresh row) (Some now_) (tr_revoked row)]> (tokens s0))) s1 /\
    family_revoked fam (tokens s1) = false /\ tokens s1 !! h' = None /\
    steps (mkSessions (codes s1)
      (<[h' := mkTokenRow (issued_row t (row_identity row) (rt_ClientID (tr_refresh row)) jti fam authTime now2)
                None None]> (tokens s1))) (vw w').
Proof.
  intros Hok Hr. cbv zeta. unfold refreshTokenGrant in Hr.
  set (tok := Get form "refresh_token") in *.
  destruct (tok =? "")%string; [done|]. destruct (clientCredentials form a) as [cid sec]. cbn [fst snd].
  apply bind_inr in Hr as (w1 & c & Hc & Hr).
  destruct (authenticateClient t cid sec _) as [e|c'] eqn:Hac; run_in Hc.
  apply bind_inr in Hr as (w2 & now_ & Hn & Hr). run_in Hn.
  apply bind_inr in Hr as (w3 & [rt err] & Hop & Hr).
  destruct (is_err err ErrRefreshReused) eqn:E1.
  { apply bind_inr in Hr as (w4 & [] & _ & Hr). done. }
  destruct (is_err err ErrRefreshNotFound) eqn:E2; [done|]. destruct err as [e|]; [done|].
  eapply refines_served in Hop as (Hok3 & Htk & s0 & s' & Hs0 & Hspec & Hs');
    [|apply ConsumeRefresh_refines|done|apply not_failed_None].
  cbn in Hs0. unfold Spec.ConsumeRefresh in Hspec.
  destruct (tokens s0 !! Hash tok) as [row|] eqn:Hrow; [|done].
  destruct (negb (rt_ClientID (tr_refresh row) =? cid)%string) eqn:Hcl; [done|]. destruct (live row) eqn:Hl; [|by destruct (consumed row)].
  injection Hspec as Hv <-. cbn in Hr.
  destruct (time_After _ _) eqn:Hexp; [done|]. destruct (negb (time_Before _ _)) eqn:Hmax; [done|].
  destruct (rt_Subject (tr_refresh row) =? "")%string; [done|].
  destruct (negb (connectorConfigured _ _)) eqn:Hcon.
  { apply bind_inr in Hr as (w4 & [] & _ & Hr). done. }
  destruct (negb (emailDomainAllowed _ _)) eqn:Hdom.
  { apply bind_inr in Hr as (w4 & [] & _ & Hr). done. }
  apply bind_inr in Hr as (w4 & o & Ha & Hr). apply on_no_permissions_inr in Hr as [-> ->].
  unfold attempt in Ha. destruct (issue _ _ _ _ _ w3) as [w5 o5] eqn:Hiss. injection Ha as <- ->.
  apply issue_inr in Hiss as (g & jti & fam & authTime & now2 & s1 & Hs1 & Hg & He & Hlin & Hfr & Hnone & Hv');
    [|done].
  rewrite <- Hv in Hs'.
  solve_bool. unfold time_After, time_Before, time_Add in *. solve_bool.
  exists row, g, jti, fam, authTime, (clock (w_tick w1)), now2, s0, s1.
  split; [by exists c|]. do 11 (split; [done || lia|]). split; [done|]. split; [by etrans|done].
Qed.

(** Replaying a consumed token kills its family, or the store failed. *)
Lemma refresh_replayed t form a w w' r row c :
  ok w -> refreshTokenGrant t form a w = (w', r) ->
  Get form "refresh_token" <> "" ->
  authenticateClient t (clientCredentials form a).1 (clientCredentials form a).2 GrantTypeRefreshToken = inr c ->
  tokens (vw w) !! Hash (Get form "refresh_token") = Some row -> consumed row = true ->
  rt_ClientID (tr_refresh row) = (clientCredentials form a).1 ->
  (r = inl (bad_grant "refresh token already used; the session has been revoked") /\
   family_dead (row_family row) (vw w')) \/
  (exists e, r = inl e /\ driver_error e = true).
Proof.
  intros Hok Hr Htok Hac Hrow Hcons Hcl. unfold refreshTokenGrant in Hr.
  set (tok := Get form "refresh_token") in *. apply String.eqb_neq in Htok. rewrite Htok in Hr.
  destruct (clientCredentials form a) as [cid sec]. cbn [fst snd] in *. rewrite Hac in Hr.
  apply bind_cases in Hr as [(e & He & ->)|(w1 & c1 & Hc & Hr)]; [by run_in He|]. run_in Hc.
  apply bind_cases in Hr as [(e & He & ->)|(w2 & now_ & Hn & Hr)]; [by run_in He|]. run_in Hn.
  apply bind_cases in Hr as [(e & He & ->)|(w3 & [rt err] & Hop & Hr)].
  { apply on_store_inr in He as (? & ? & _). done. }
  assert (failed err \/ (ok w3 /\ steps (vw w1) (vw w3) /\ err = Some (Sentinel ErrRefreshReused) /\
            exists row', rt = with_token tok (tr_refresh row') /\ tr_refresh row' = tr_refresh row))
    as [Hf|(Hok3 & Hv3 & -> & row' & -> & Hrr)].
  { apply on_store_inr in Hop as (p & [= <-] & Hop & _).
    destruct (ConsumeRefresh_refines tok (rt_ClientID (tr_refresh row)) (clock (w_tick w1)) _ Hok)
      as [Hok3 (s0 & s1 & Hs0 & Hs1 & [Hv|[Hf _]])]; cbn in Hop; rewrite Hop in *; cbn in *; [right|by left].
    destruct (steps_tokens _ _ _ _ Hs0 Hrow) as (row' & Hrow' & Hd & Hc' & _).
    unfold Spec.ConsumeRefresh in Hv. rewrite Hrow', Hd, String.eqb_refl in Hv. cbn in Hv.
    assert (consumed row' = true) as Hcons' by (unfold consumed in *; by rewrite Hc').
    assert (live row' = false) as Hl by (unfold live; by rewrite Hcons'). rewrite Hl, Hcons' in Hv.
    injection Hv as -> -> ->. split; [done|]. split; [by etrans|]. split; [done|]. exists row'. by rewrite Hd. }
  { right. destruct Hf as (x & -> & Hx).
    assert (is_err (Some x) ErrRefreshReused = false /\ is_err (Some x) ErrRefreshNotFound = false) as [E1 E2].
    { clear -Hx. cbn. induction x; cbn in *; auto; done. }
    rewrite E1, E2 in Hr. injection Hr as <- <-. exists (Errorf "oidc: consume refresh token" x). done. }
  clear Hop. cbn in Hr. unfold revokeFamily in Hr.
  assert (forall s, steps (vw w1) s -> family_exists (row_family row) (tokens s) = true) as Hex.
  { intros s Hs. assert (token_in (row_family row) (Hash tok) s) as (rx & Hrx & Hfx).
    { eapply token_in_steps; [exact Hs|]. by exists row. }
    apply family_exists_true. eauto. }
  pose proof (RevokeRefreshFamily_linearizes (row_family row) (clock (w_tick w1)) _ Hok3 (Hex _ Hv3)) as Hlin.
  apply bind_cases in Hr as [(e & He & ->)|(w4 & [] & Hrev & Hr)].
  - apply bind_cases in He as [(e' & He & [= ->])|(w5 & [n err] & Hop & He)].
    { apply on_store_inr in He as (? & ? & _). done. }
    destruct err as [x|]; [|by run_in He]. right. injection He as <- <-. eexists. split; [done|]. cbn.
    apply on_store_inr in Hop as (p & [= <-] & Hop & _).
    destruct Hlin
      as (s0 & s1 & Hs0 & _ & [Hv|[(y & Hy & Hd) _]]); cbn in Hop; rewrite Hrr in Hop;
      unfold row_family in *; rewrite Hop in *; cbn in *.
    + exfalso. unfold Spec.RevokeRefreshFamily in Hv.
      rewrite Hex in Hv by (etrans; [exact Hv3|exact Hs0]). done.
    + by injection Hy as ->.
  - left. run_in Hr. split; [done|].
    apply bind_inr in Hrev as (w5 & [n err] & Hop & Hrev).
    destruct err as [x|]; [by run_in Hrev|]. run_in Hrev.
    cbn in Hop. rewrite Hrr in Hop. eapply linearizes_served in Hop as (s0 & s1 & _ & Hspec & Hs1);
      [|exact Hlin|apply not_failed_None].
    pose proof (revoke_kills (row_family row) (clock (w_tick w1)) s0) as Hk.
    rewrite Hspec in Hk. eapply family_dead_steps; [exact Hs1|]. by apply Hk.
Qed.

(** ** From the endpoint to a grant *)

Lemma handle_inr t rq w w' out :
  handle t rq w = (w', inr out) ->
  exists form w1 w2, ParseQuery (in_RawBody rq) = Some form /\
    w_store w1 = w_store w /\ w_store w2 = w_store w' /\ w_tick w1 = w_tick w /\
    ((Get form "grant_type" = grantAuthorizationCode /\
      authorizationCodeGrant t form (in_Authorization rq) w1 = (w2, inr out)) \/
     (Get form "grant_type" = grantRefreshToken /\
      refreshTokenGrant t form (in_Authorization rq) w1 = (w2, inr out)) \/
     (Get form "grant_type" = grantDeviceCode /\
      deviceCodeGrant t form (in_Authorization rq) w1 = (w2, inr out))).
Proof.
  unfold handle. destruct (grant t rq w) as [wg [e|o]] eqn:Hg; intros [= <- ?]; simplify_eq.
  unfold grant in Hg. destruct (ParseQuery _) as [form|];
    [|apply bind_inr in Hg as (? & [] & _ & ?); done].
  apply bind_inr in Hg as (wa & r & Ha & Hg). unfold attempt in Ha.
  destruct (dispatch t form _ w) as [wd rd] eqn:Hd. injection Ha as <- <-.
  apply bind_inr in Hg as (wb & [] & Ht & Hg).
  assert (w_store wb = w_store wd) as Hwb.
  { unfold telemetry_token in Ht. destruct (_ =? _)%string; by run_in Ht. }
  destruct rd as [e|o]; run_in Hg.
  unfold dispatch, declare in Hd.
  apply bind_inr in Hd as (w1 & [] & He1 & Hd). run_in He1.
  apply bind_inr in Hd as (w2 & [] & He2 & Hd). run_in He2.
  apply bind_inr in Hd as (w3 & [] & He3 & Hd).
  assert (w_store w3 = w_store w /\ w_tick w3 = w_tick w) as [Hw3 Ht3].
  { destruct (parseBasicAuth _) as [[id sec]|]; by run_in He3. }
  destruct (checkParamLengths _); [done|].
  exists form, w3, wd. split; [done|]. split; [done|]. split; [done|]. split; [done|].
  destruct (_ =? grantAuthorizationCode)%string eqn:G1.
  { left. split; [by apply String.eqb_eq|done]. }
  destruct (_ =? grantRefreshToken)%string eqn:G2.
  { right; left. split; [by apply String.eqb_eq|done]. }
  destruct (_ =? grantDeviceCode)%string eqn:G3.
  { right; right. split; [by apply String.eqb_eq|done]. }
  by destruct (_ =? "")%string.
Qed.

Lemma codeGrant_inr t form a w w' out :
  ok w -> authorizationCodeGrant t form a w = (w', inr out) ->
  exists w1 rd w2 authTime,
    RedeemAuthorizationCode t
      (mkRedemptionRequest (Get form "code") (clientCredentials form a).1 (Get form "redirect_uri")
         (Get form "code_verifier") (clientCredentials form a).2) w = (w1, inr rd) /\
    w_store w2 = w_store w1 /\ authTime = clock (w_tick w1) /\
    issue t (rd_Identity rd) (rd_ClientID rd) (rd_Nonce rd) (mkLineage (rd_FamilyID rd) authTime) w2
      = (w', inr out).
Proof.
  intros Hok Hg. unfold authorizationCodeGrant in Hg.
  destruct (clientCredentials form a) as [cid sec]. cbn [fst snd].
  apply bind_inr in Hg as (w1 & rd & Hr & Hg). apply bind_inr in Hg as (w2 & authTime & Hn & Hg).
  apply bind_inr in Hg as (w3 & o & Ha & Hg). apply on_no_permissions_inr in Hg as [-> ->].
  unfold attempt in Ha. destruct (issue _ _ _ _ _ w2) as [wi oi] eqn:Hi. injection Ha as <- ->.
  exists w1, rd, w2, authTime. split; [done|]. by run_in Hn.
Qed.

Lemma codeGrant_uses t form a w w' out :
  ok w -> authorizationCodeGrant t form a w = (w', inr out) ->
  ~ code_used (Hash (Get form "code")) (vw w) /\ code_used (Hash (Get form "code")) (vw w').
Proof.
  intros Hok Hg. apply codeGrant_inr in Hg as (w1 & rd & w2 & at_ & Hr & Hw2 & _ & Hi); [|done].
  pose proof (stepping_Redeem _ _ _ _ _ Hok Hr) as [Hok1 _].
  apply Redeem_inr in Hr as (c & row & s0 & _ & Hs0 & Hrow & Hcons & _ & _ & _ & _ & _ & _ & Hused); [|done].
  cbn in *. split.
  - intros Hu. apply (code_used_steps _ _ _ Hs0) in Hu as (row' & Hrow' & Hc'). congruence.
  - assert (ok w2) as Hok2 by (by rewrite Hw2).
    pose proof (stepping_issue _ _ _ _ _ _ _ _ Hok2 Hi) as [_ Hst]. rewrite Hw2 in Hst.
    by eapply code_used_steps.
Qed.

Lemma refreshGrant_uses t form a w w' out :
  ok w -> refreshTokenGrant t form a w = (w', inr out) ->
  ~ token_used (Hash (Get form "refresh_token")) (vw w) /\
  token_used (Hash (Get form "refresh_token")) (vw w').
Proof.
  intros Hok Hg.
  apply refresh_inr in Hg as (row & g & jti & fam & at_ & n & n2 & s0 & s1 & _ & Hs0 & Hrow & Hl & _ & _ &
    _ & _ & _ & _ & _ & _ & _ & Hs1 & _ & Hnone & Hv); [|done].
  split.
  - intros Hu. apply (token_used_steps _ _ _ Hs0) in Hu as (row' & Hrow' & Hc').
    unfold live in Hl. simplify_eq. by rewrite Hc' in Hl.
  - assert (token_used (Hash (Get form "refresh_token")) s1) as (r1 & Hr1 & Hc1).
    { eapply token_used_steps; [exact Hs1|]. eexists. cbn. rewrite lookup_insert_eq. done. }
    eapply token_used_steps; [exact Hv|].
    exists r1. cbn. rewrite lookup_insert_ne by congruence. done.
Qed.

(** ** Sequences of requests *)

(** A request, and the configuration it is served under: keys rotate, domains
    and rules change between requests. *)
Record call := mkCall { call_cfg : Token; call_in : tokenInput }.

Fixpoint serve (calls : list call) w : World S * list ((error * option string) + tokenOutput) :=
  match calls with
  | [] => (w, [])
  | c :: cs =>
      let (w1, r) := handle (call_cfg c) (call_in c) w in
      let (w2, rs) := serve cs w1 in
      (w2, r :: rs)
  end.

(** The request presents the secret with hash [h] in [param] for [grant_type]. *)
Definition presents (grant_type param : string) (h : string) (c : call) : Prop :=
  exists form, ParseQuery (in_RawBody (call_in c)) = Some form /\
    Get form "grant_type" = grant_type /\ Hash (Get form param) = h.

Definition succeeded (r : (error * option string) + tokenOutput) : Prop := exists out, r = inr out.

Lemma serve_steps calls w w' rs :
  ok w -> serve calls w = (w', rs) -> ok w' /\ steps (vw w) (vw w').
Proof.
  revert w rs. induction calls as [|c cs IH]; intros w rs Hok; cbn; [by intros [= <- <-]|].
  destruct (handle _ _ w) as [w1 r] eqn:Hh. destruct (serve cs w1) as [w2 rs2] eqn:Hs. intros [= <- <-].
  destruct (handle_steps _ _ _ _ _ Hok Hh) as [Hok1 Hst1]. destruct (IH _ _ Hok1 Hs) as [Hok2 Hst2].
  split; [done|]. by etrans.
Qed.

(** A secret whose use is permanent is used at most once. *)
Section SingleUse.
Context (P : call -> Prop) (used : Sessions -> Prop).
Context (used_steps : forall s s', steps s s' -> used s -> used s').
Context (use_unused : forall c w w' out, ok w -> P c ->
  handle (call_cfg c) (call_in c) w = (w', inr out) -> ~ used (vw w)).

Lemma used_never_succeeds calls w w' rs i c r :
  ok w -> used (vw w) -> serve calls w = (w', rs) ->
  calls !! i = Some c -> rs !! i = Some r -> P c -> ~ succeeded r.
Proof.
  revert w rs i. induction calls as [|c0 cs IH]; intros w rs i Hok Hu; cbn; [done|].
  destruct (handle _ _ w) as [w1 r1] eqn:Hh. destruct (serve cs w1) as [w2 rs2] eqn:Hs. intros [= <- <-].
  destruct (handle_steps _ _ _ _ _ Hok Hh) as [Hok1 Hst1].
  destruct i as [|i]; cbn.
  - intros [= ->] [= ->] HP [out ->]. by destruct (use_unused _ _ _ _ Hok HP Hh).
  - intros Hc Hr. by eapply (IH w1 rs2 i); eauto.
Qed.

Context (use_marks : forall c w w' out, ok w -> P c ->
  handle (call_cfg c) (call_in c) w = (w', inr out) -> used (vw w')).

Lemma single_use calls w w' rs i j ci cj ri rj :
  ok w -> serve calls w = (w', rs) -> (i < j)%nat ->
  calls !! i = Some ci -> calls !! j = Some cj -> rs !! i = Some ri -> rs !! j = Some rj ->
  P ci -> P cj -> succeeded ri -> ~ succeeded rj.
Proof.
  revert w rs i j. induction calls as [|c0 cs IH]; intros w rs i j Hok; cbn; [done|].
  destruct (handle _ _ w) as [w1 r1] eqn:Hh. destruct (serve cs w1) as [w2 rs2] eqn:Hs. intros [= <- <-].
  destruct (handle_steps _ _ _ _ _ Hok Hh) as [Hok1 Hst1].
  destruct j as [|j]; [lia|]. destruct i as [|i]; cbn.
  - intros _ [= ->] Hcj [= ->] Hrj HPi HPj [out ->].
    pose proof (use_marks _ _ _ _ Hok HPi Hh) as Hu. eapply (used_never_succeeds cs w1); eauto.
  - intros Hlt Hci Hcj Hri Hrj. eapply (IH w1 rs2 i j); eauto. lia.
Qed.

End SingleUse.

(** ** The guarantees *)

Lemma presents_code_uses h c w w' out :
  ok w -> presents grantAuthorizationCode "code" h c -> handle (call_cfg c) (call_in c) w = (w', inr out) ->
  ~ code_used h (vw w) /\ code_used h (vw w').
Proof.
  intros Hok (form & Hq & Hg & <-) Hh.
  apply handle_inr in Hh as (form' & wa & wb & Hq' & Hwa & Hwb & _ & Hc). simplify_eq.
  destruct Hc as [[_ Hc]|[[Hg' _]|[Hg' _]]]; [|by rewrite Hg in Hg'..].
  apply codeGrant_uses in Hc; [|by rewrite Hwa]. by rewrite Hwa, Hwb in Hc.
Qed.

Lemma presents_refresh_inr h c w w' out :
  ok w -> presents grantRefreshToken "refresh_token" h c -> handle (call_cfg c) (call_in c) w = (w', inr out) ->
  exists form wa wb, h = Hash (Get form "refresh_token") /\ w_store wa = w_store w /\ w_store wb = w_store w' /\
    w_tick wa = w_tick w /\ ParseQuery (in_RawBody (call_in c)) = Some form /\
    refreshTokenGrant (call_cfg c) form (in_Authorization (call_in c)) wa = (wb, inr out).
Proof.
  intros Hok (form & Hq & Hg & <-) Hh.
  apply handle_inr in Hh as (form' & wa & wb & Hq' & Hwa & Hwb & Htk & Hc). simplify_eq.
  destruct Hc as [[Hg' _]|[[_ Hc]|[Hg' _]]]; [by rewrite Hg in Hg'| |by rewrite Hg in Hg']. eauto 10.
Qed.

Lemma presents_refresh_uses h c w w' out :
  ok w -> presents grantRefreshToken "refresh_token" h c -> handle (call_cfg c) (call_in c) w = (w', inr out) ->
  ~ token_used h (vw w) /\ token_used h (vw w').
Proof.
  intros Hok Hp Hh. destruct (presents_refresh_inr _ _ _ _ _ Hok Hp Hh) as (form & wa & wb & -> & Hwa & Hwb & _ & _ & Hc).
  apply refreshGrant_uses in Hc; [|by rewrite Hwa]. by rewrite Hwa, Hwb in Hc.
Qed.

(** A token of a dead family is never exchanged. *)
Lemma presents_dead_fails f h c w w' out :
  ok w -> presents grantRefreshToken "refresh_token" h c -> handle (call_cfg c) (call_in c) w = (w', inr out) ->
  ~ (family_dead f (vw w) /\ token_in f h (vw w)).
Proof.
  intros Hok Hp Hh [Hd Hin].
  destruct (presents_refresh_inr _ _ _ _ _ Hok Hp Hh) as (form & wa & wb & -> & Hwa & Hwb & _ & _ & Hc).
  assert (ok wa) as Hoka by (by rewrite Hwa).
  apply refresh_inr in Hc as (row & g & jti & fam & at_ & n & n2 & s0 & s1 & _ & Hs0 & Hrow & Hl & _); [|done].
  rewrite Hwa in Hs0. apply (family_dead_steps _ _ _ Hs0) in Hd.
  apply (token_in_steps _ _ _ _ Hs0) in Hin as (row' & Hrow' & Hf).
  assert (row' = row) as -> by congruence.
  by rewrite (family_dead_not_live _ _ _ _ Hd Hrow' Hf) in Hl.
Qed.

(** C1. An authorization code is redeemed at most once: in any sequence of /token
    requests, under any configurations, on any backend and with any other
    requests taking steps in between, two requests that present the same code
    never both get tokens. *)
Theorem auth_code_single_use (h : string) calls w w' rs i j ci cj ri rj :
  ok w -> serve calls w = (w', rs) -> (i < j)%nat ->
  calls !! i = Some ci -> calls !! j = Some cj -> rs !! i = Some ri -> rs !! j = Some rj ->
  presents grantAuthorizationCode "code" h ci -> presents grantAuthorizationCode "code" h cj ->
  succeeded ri -> ~ succeeded rj.
Proof.
  apply (single_use _ (code_used h)); [by intros s s'; apply code_used_steps|..].
  all: intros c w0 w1 out Hok Hp Hh; by destruct (presents_code_uses _ _ _ _ _ Hok Hp Hh).
Qed.

(** C2. A refresh token is exchanged at most once, over any sequence of /token
    requests, under any configurations and interleaving: rotation always
    replaces it. *)
Theorem refresh_token_single_use (h : string) calls w w' rs i j ci cj ri rj :
  ok w -> serve calls w = (w', rs) -> (i < j)%nat ->
  calls !! i = Some ci -> calls !! j = Some cj -> rs !! i = Some ri -> rs !! j = Some rj ->
  presents grantRefreshToken "refresh_token" h ci -> presents grantRefreshToken "refresh_token" h cj ->
  succeeded ri -> ~ succeeded rj.
Proof.
  apply (single_use _ (token_used h)); [by intros s s'; apply token_used_steps|..].
  all: intros c w0 w1 out Hok Hp Hh; by destruct (presents_refresh_uses _ _ _ _ _ Hok Hp Hh).
Qed.

(** The endpoint hands a request within the parameter caps to its grant, and
    answers with what the grant returned. *)
Lemma handle_run t rq w w' r form :
  ParseQuery (in_RawBody rq) = Some form -> checkParamLengths (token_caps form) = None ->
  handle t rq w = (w', r) ->
  exists wa wb ra, w_store wa = w_store w /\ w_store w' = w_store wb /\
    match ra with inr out => r = inr out | inl e => exists ch, r = inl (e, ch) end /\
    (Get form "grant_type" = grantAuthorizationCode ->
       authorizationCodeGrant t form (in_Authorization rq) wa = (wb, ra)) /\
    (Get form "grant_type" = grantRefreshToken ->
       refreshTokenGrant t form (in_Authorization rq) wa = (wb, ra)) /\
    (Get form "grant_type" = grantDeviceCode ->
       deviceCodeGrant t form (in_Authorization rq) wa = (wb, ra)).
Proof.
  intros Hq Hcap. unfold handle, grant. rewrite Hq.
  destruct (dispatch t form (in_Authorization rq) w) as [wd rd] eqn:Hd.
  destruct ((attempt _ ≫= _) w) as [wg rg] eqn:Hg. intros [= <- <-].
  unfold attempt in Hg. run_in Hg. rewrite Hd in Hg.
  assert (w_store wg = w_store wd /\ rg = rd) as [Hwg ->].
  { unfold telemetry_token in Hg. destruct (_ =? _)%string; destruct rd; by run_in Hg. }
  unfold dispatch, declare in Hd.
  apply bind_cases in Hd as [(e & He & _)|(w1 & [] & He1 & Hd)]; [by run_in He|]. run_in He1.
  apply bind_cases in Hd as [(e & He & _)|(w2 & [] & He2 & Hd)]; [by run_in He|]. run_in He2.
  apply bind_cases in Hd as [(e & He & _)|(w3 & [] & He3 & Hd)].
  { destruct (parseBasicAuth _) as [[id sec]|]; by run_in He. }
  assert (w_store w3 = w_store w) as Hw3 by (destruct (parseBasicAuth _) as [[id sec]|]; by run_in He3).
  rewrite Hcap in Hd. exists w3, wd, rd. split; [done|]. split; [done|]. split.
  { destruct rd as [e|o]; [|done]. exists (withBasicChallenge e (in_Authorization rq)).2.
    unfold withBasicChallenge. destruct (errors_As_oauth e) as [[[? ?] ?]|]; [by destruct (_ && _)|done]. }
  repeat split; intros Hgt; by rewrite Hgt in Hd.
Qed.

(** C3. Reuse detection: when an authenticated client presents a refresh token
    that was already exchanged, the request fails, and either the store itself
    failed (reported as such) or from then on the whole family is dead: none of
    its tokens is ever exchanged again, whatever follows, and no token joins it. *)
Theorem refresh_reuse_kills_family t rq form row c w w1 r calls w2 rs :
  ok w -> ParseQuery (in_RawBody rq) = Some form -> Get form "grant_type" = grantRefreshToken ->
  checkParamLengths (token_caps form) = None -> Get form "refresh_token" <> "" ->
  authenticateClient t (clientCredentials form (in_Authorization rq)).1
    (clientCredentials form (in_Authorization rq)).2 GrantTypeRefreshToken = inr c ->
  tokens (vw w) !! Hash (Get form "refresh_token") = Some row -> consumed row = true ->
  rt_ClientID (tr_refresh row) = (clientCredentials form (in_Authorization rq)).1 ->
  handle t rq w = (w1, r) -> serve calls w1 = (w2, rs) ->
  ~ succeeded r /\
  ((exists e ch, r = inl (e, ch) /\ driver_error e = true) \/
   (family_dead (row_family row) (vw w2) /\
    forall h i ci ri, token_in (row_family row) h (vw w1) -> calls !! i = Some ci -> rs !! i = Some ri ->
      presents grantRefreshToken "refresh_token" h ci -> ~ succeeded ri)).
Proof.
  intros Hok Hq Hgt Hcaps Htok Hac Hrow Hcons Hcl Hh Hs.
  pose proof (handle_steps _ _ _ _ _ Hok Hh) as [Hok1 _].
  pose proof (serve_steps _ _ _ _ Hok1 Hs) as [_ Hst].
  destruct (handle_run _ _ _ _ _ _ Hq Hcaps Hh) as (wa & wb & ra & Hwa & Hwb & Hra & _ & Href & _).
  specialize (Href Hgt). rewrite <- Hwa in Hrow, Hok.
  destruct (refresh_replayed _ _ _ _ _ _ _ _ Hok Href Htok Hac Hrow Hcons Hcl) as [[-> Hd]|(e & -> & He)].
  - destruct Hra as [ch ->]. split; [by intros [? ?]|]. right. rewrite <- Hwb in Hd.
    split; [by eapply family_dead_steps|]. intros h i ci ri Hin Hci Hri Hp.
    eapply (used_never_succeeds _ (fun s => family_dead (row_family row) s /\ token_in (row_family row) h s));
      [| |exact Hok1|split; [exact Hd|exact Hin]|exact Hs|exact Hci|exact Hri|exact Hp].
    + intros s s' Hss [? ?]. eauto using family_dead_steps, token_in_steps.
    + intros c' wx wy out Hokx Hp' Hhx. by eapply presents_dead_fails.
  - destruct Hra as [ch ->]. split; [by intros [? ?]|]. left. eauto.
Qed.

End TokenSteps.
