(* ===== verification/TokenGrants.v ===== *)
(** * What a successful /token response proves

    For each grant of Token.v, what must have held for the request to succeed
    and what the response and the stored refresh token then are; that a request
    that fails client authentication changes nothing; and that every request is
    counted exactly once. *)

From S2P Require Import Prelude GoStrings GoErrors GoEncoding GoCrypto GoURL Perms Oidc Client Keys.
From S2P Require Import Signer Sessions Token TokenFacts.

Section Grants.
Context `{Unicode} `{JWX} `{UUIDGen} `{Env} {S : Type} `{DeviceStoreFrame S}.
Implicit Types (t : Token) (w : World S).

Abbreviation vw w := (view (w_store w)).
Abbreviation ok w := (store_inv (w_store w)).

(** ** Minting *)

(** The access token of a response is one [Mint] made for the identity with the
    claim of its non-empty grant. *)
Definition minted_for t (id : Identity) (clientID : string) (out : tokenOutput) : Prop :=
  exists g wa wb jti,
    t_authorizer t (id_Email id) = inr g /\ ToClaim g <> [] /\
    Mint (S := S) (t_signer t)
      (mkMintRequest (TokenSubject (id_ConnectorID id) (id_Subject id)) (ToClaim g) (t_accessTTL t)
         (id_Email id) (id_ConnectorID id) clientID) wa = (wb, inr (AccessToken (Body out), jti)).

Lemma issue_minted t id clientID nonce l w w' out :
  issue t id clientID nonce l w = (w', inr out) -> minted_for t id clientID out.
Proof.
  intros Hi. unfold issue in Hi.
  apply bind_inr in Hi as (w1 & [] & _ & Hi).
  unfold permitted in Hi. destruct (t_authorizer t (id_Email id)) as [e|g] eqn:Hg; [done|].
  destruct (negb (Empty g)) eqn:He; [|done]. apply negb_true_iff in He.
  apply bind_inr in Hi as (w2 & now_ & _ & Hi). apply bind_inr in Hi as (w3 & l3 & _ & Hi).
  apply bind_inr in Hi as (w4 & m & Hm & Hi). unfold attempt in Hm.
  destruct (Mint _ _ w3) as [w4' m'] eqn:Hmint. injection Hm as <- <-.
  destruct m' as [e|[signed jti]]; [done|].
  apply bind_inr in Hi as (w5 & i & _ & Hi). destruct i as [e|idToken]; [done|].
  apply bind_inr in Hi as (w6 & tok & _ & Hi). apply bind_inr in Hi as (w7 & [] & _ & Hi).
  apply bind_inr in Hi as (w8 & err & _ & Hi).
  destruct (is_err err ErrRefreshFamilyRevoked); [done|]. destruct err; [done|]. run_in Hi.
  exists g, w3, w4', jti. split; [done|]. split; [by apply ToClaim_nonempty|done].
Qed.

Lemma deviceGrant_inr t form a w w' out :
  deviceCodeGrant t form a w = (w', inr out) ->
  exists wa wb wc we wf dc final now_,
    t_devices t = true /\
    (exists c, authenticateClient t (clientCredentials form a).1 (clientCredentials form a).2
                 GrantTypeDeviceCode = inr c) /\
    LookupDeviceCodeByDeviceCode (Get form "device_code") (w_store w) = (w_store wa, (dc, None)) /\
    dc_ClientID dc = (clientCredentials form a).1 /\
    now_ = clock (w_tick w) /\
    PollDeviceCode (Get form "device_code") now_ (w_store wa) = (w_store wb, (false, None)) /\
    now_ <= dc_ExpiresAt dc /\ dc_DeniedAt dc = None /\ is_Some (dc_ApprovedAt dc) /\
    ConsumeDeviceCode (Get form "device_code") (w_store wb) = (w_store wc, (final, None)) /\
    dc_Subject final <> "" /\ w_store we = w_store wc /\
    issue t (mkIdentity (dc_ConnectorID final) (dc_Subject final) (dc_Email final)) (dc_ClientID final) ""
      (mkLineage "" zeroTime) we = (wf, inr out) /\ wf = w'.
Proof.
  intros Hd. unfold deviceCodeGrant in Hd.
  destruct (t_devices t); [|done]. cbn [negb] in Hd.
  destruct (Get form "device_code" =? "")%string; [done|].
  destruct (clientCredentials form a) as [cid sec]. cbn [fst snd].
  destruct (cid =? "")%string; [done|].
  apply bind_inr in Hd as (w1 & c & Hc & Hd).
  destruct (authenticateClient t cid sec _) as [e|c'] eqn:Hac; run_in Hc.
  apply bind_inr in Hd as (w2 & [dc err] & Hl & Hd).
  destruct (is_err err ErrDeviceCodeNotFound); [done|]. destruct err; [done|].
  apply on_store_inr in Hl as (p & [= <-] & Hl & Htk2).
  destruct (negb (cid =? dc_ClientID dc)%string) eqn:Hcl; [done|].
  apply bind_inr in Hd as (w3 & now_ & Hn & Hd). run_in Hn.
  apply bind_inr in Hd as (w4 & [slow err] & Hp & Hd).
  destruct (is_err err ErrDeviceCodeNotFound); [done|]. destruct err; [done|].
  apply on_store_inr in Hp as (p & [= <-] & Hp & _). cbn in Hp.
  destruct slow; [done|]. destruct (time_After _ _) eqn:Hexp.
  { apply bind_inr in Hd as (? & ? & _ & Hd). done. }
  destruct (dc_DeniedAt dc) eqn:Hden.
  { apply bind_inr in Hd as (? & ? & _ & Hd). done. }
  destruct (dc_ApprovedAt dc) as [ap|] eqn:Hap; [|done].
  apply bind_inr in Hd as (w5 & [final err] & Hf & Hd).
  destruct (is_err err ErrDeviceCodeNotFound); [done|]. destruct err; [done|].
  apply on_store_inr in Hf as (p & [= <-] & Hf & _).
  destruct (dc_Subject final =? "")%string eqn:Hsub; [done|].
  apply bind_inr in Hd as (w6 & o & Ha & Hd). apply on_no_permissions_inr in Hd as [-> ->].
  unfold attempt in Ha. destruct (issue _ _ _ _ _ w5) as [wi oi] eqn:Hi. injection Ha as <- ->.
  solve_bool. unfold time_After in Hexp. apply Z.ltb_ge in Hexp. rewrite Htk2 in *.
  eexists w2, w4, w5, w5, wi, dc, final, _. repeat split; eauto.
Qed.

(** C9. No token without permissions: whatever the grant, a response carries an
    access token only if the resolver granted the identity something at that
    very request, and the token's permissions claim is exactly that (non-empty)
    grant. *)
Theorem success_has_permissions t rq w w' out :
  ok w -> handle t rq w = (w', inr out) ->
  exists id clientID, minted_for t id clientID out.
Proof.
  intros Hok Hh. apply handle_inr in Hh as (form & wa & wb & _ & Hwa & _ & _ & [[_ Hc]|[[_ Hc]|[_ Hc]]]).
  - apply codeGrant_inr in Hc as (w1 & rd & w2 & at_ & _ & _ & _ & Hi); [|by rewrite Hwa].
    eauto using issue_minted.
  - unfold refreshTokenGrant in Hc. destruct (_ =? _)%string; [done|].
    destruct (clientCredentials form _) as [cid sec].
    apply bind_inr in Hc as (w1 & c & _ & Hc). apply bind_inr in Hc as (w2 & now_ & _ & Hc).
    apply bind_inr in Hc as (w3 & [rt err] & _ & Hc).
    destruct (is_err err ErrRefreshReused); [by apply bind_inr in Hc as (? & ? & _ & ?)|].
    destruct (is_err err ErrRefreshNotFound); [done|]. destruct err; [done|].
    destruct (time_After _ _); [done|]. destruct (negb (time_Before _ _)); [done|].
    destruct (_ =? _)%string; [done|].
    destruct (negb (connectorConfigured _ _)); [by apply bind_inr in Hc as (? & ? & _ & ?)|].
    destruct (negb (emailDomainAllowed _ _)); [by apply bind_inr in Hc as (? & ? & _ & ?)|].
    apply bind_inr in Hc as (w4 & o & Ha & Hc). apply on_no_permissions_inr in Hc as [-> ->].
    unfold attempt in Ha. destruct (issue _ _ _ _ _ w3) as [wi oi] eqn:Hi. injection Ha as <- ->.
    eauto using issue_minted.
  - apply deviceGrant_inr in Hc as (? & ? & ? & ? & ? & dc & fin & ? & _ & _ & _ & _ & _ & _ & _ & _ & _ & _ &
      _ & _ & Hi & _). eauto using issue_minted.
Qed.

(** C10. What redeeming a code proves: the code was issued, not yet used and not
    expired; the request came from the client the code was issued to
    (authenticated, and registered for the grant), with the redirect URI of the
    authorization request; a code bound to a PKCE challenge was presented with
    a well-formed verifier whose S256 digest is the challenge, and one without
    only by a confidential client. *)
Theorem code_grant_sound t form a w w' out :
  ok w -> authorizationCodeGrant t form a w = (w', inr out) ->
  exists c row s0,
    authenticateClient t (clientCredentials form a).1 (clientCredentials form a).2
      GrantTypeAuthorizationCode = inr c /\
    steps (vw w) s0 /\ codes s0 !! Hash (Get form "code") = Some row /\ cr_consumed row = None /\
    clock (w_tick w) <= ac_ExpiresAt (cr_code row) /\
    ac_ClientID (cr_code row) = (clientCredentials form a).1 /\
    ac_RedirectURI (cr_code row) = Get form "redirect_uri" /\
    (if (ac_CodeChallenge (cr_code row) =? "")%string then Secret c <> ""
     else validCodeVerifier (Get form "code_verifier") = true /\
          RawURL_Encode (sha256_Sum256 (Get form "code_verifier")) = ac_CodeChallenge (cr_code row)) /\
    minted_for t (mkIdentity (ac_ConnectorID (cr_code row)) (ac_Subject (cr_code row))
                    (ac_Email (cr_code row))) (ac_ClientID (cr_code row)) out.
Proof.
  intros Hok Hg. apply codeGrant_inr in Hg as (w1 & rd & w2 & at_ & Hr & _ & _ & Hi); [|done].
  apply Redeem_inr in Hr
    as (c & row & s0 & Hac & Hs0 & Hrow & Hcons & Hexp & _ & Hcl & Hred & Hrd & Hpk & _); [|done].
  cbn in *. exists c, row, s0. rewrite Hrd in Hi. cbn in Hi. apply issue_minted in Hi.
  repeat (split; [done|]). split; [|done].
  destruct (ac_CodeChallenge (cr_code row) =? "")%string; [done|]. naive_solver.
Qed.

(** C11. Rotation never extends a session: a successful refresh consumed a live,
    unexpired token of the authenticated client, before the session's absolute
    end; the connector and the email domain are still admitted; and the token
    that replaces it, live when stored, keeps the identity and client of the old
    one and, of a token that has a family, as every stored one does, the family
    and the sign-in time, and expires no later than that absolute end. *)
Theorem refresh_rotation t form a w w' out :
  ok w -> refreshTokenGrant t form a w = (w', inr out) ->
  exists row s0,
    steps (vw w) s0 /\ tokens s0 !! Hash (Get form "refresh_token") = Some row /\ live row = true /\
    rt_ClientID (tr_refresh row) = (clientCredentials form a).1 /\
    clock (w_tick w) <= rt_ExpiresAt (tr_refresh row) /\
    clock (w_tick w) < rt_AuthTime (tr_refresh row) + t_refreshMaxLifetime t /\
    connectorConfigured t (rt_ConnectorID (tr_refresh row)) = true /\
    emailDomainAllowed (t_allowedDomains t) (rt_Email (tr_refresh row)) = true /\
    exists row' s1, tokens s1 !! Hash (RefreshToken (Body out)) = Some row' /\ live row' = true /\
      steps s1 (vw w') /\
      row_identity row' = row_identity row /\
      rt_ClientID (tr_refresh row') = rt_ClientID (tr_refresh row) /\
      (row_family row <> "" ->
         row_family row' = row_family row /\
         rt_AuthTime (tr_refresh row') = rt_AuthTime (tr_refresh row)) /\
      rt_ExpiresAt (tr_refresh row') <= rt_AuthTime (tr_refresh row') + t_refreshMaxLifetime t /\
      rt_ExpiresAt (tr_refresh row') <= rt_CreatedAt (tr_refresh row') + t_refreshTTL t.
Proof.
  intros Hok Hg.
  apply refresh_inr in Hg as (row & g & jti & fam & at_ & n & n2 & s0 & s1 & _ & Hs0 & Hrow & Hl & Hcl & -> &
    Hexp & Hmax & Hcon & Hdom & _ & _ & Hlin & _ & _ & _ & Hv); [|done].
  exists row, s0. repeat (split; [done|]).
  match type of Hv with steps ?x _ => eexists _, x end. cbn. rewrite lookup_insert_eq. split; [done|]. split; [done|]. split; [exact Hv|]. cbn.
  repeat (split; [done|]). split; [|lia].
  intros Hne%String.eqb_neq. rewrite Hne in Hlin. done.
Qed.

End Grants.

(** ** Observability *)

(** The two counters of /token outcomes. *)
Definition outcome_event (ev : event) : bool :=
  match ev with
  | Counted m _ => (m =? "tempogate.tokens_issued")%string || (m =? "tempogate.token_errors")%string
  | _ => false
  end.

Lemma silent_Mint `{JWX} `{UUIDGen} `{Env} {S} s req : respects (silent outcome_event) (Mint (S := S) s req).
Proof. apply silent_same. intros w w' r Hm. by apply keeps_Mint in Hm as [_ ?]. Qed.
Lemma silent_MintIDToken `{JWX} `{UUIDGen} `{Env} {S} s req : respects (silent outcome_event) (MintIDToken (S := S) s req).
Proof. apply silent_same. intros w w' r Hm. by apply keeps_MintIDToken in Hm as [_ ?]. Qed.

#[export] Hint Resolve silent_Mint silent_MintIDToken : tg.

Section Counting.
Context `{Unicode} `{JWX} `{UUIDGen} `{Env} {S : Type} `{TokenStore S} `{DeviceCodeStore S}.
Implicit Types (t : Token) (w : World S).

Lemma silent_revokeFamily rt tm ev msg : respects (silent outcome_event) (revokeFamily (S := S) rt tm ev msg).
Proof. unfold revokeFamily, or_throw. respects. Qed.
Lemma silent_issue t id c n l : respects (silent outcome_event) (issue (S := S) t id c n l).
Proof. unfold issue, declareIdentity, declare, randomFamilyID, randomRefresh. respects. Qed.
Hint Resolve silent_revokeFamily silent_issue : tg.

Lemma silent_dispatch t form a : respects (silent outcome_event) (dispatch (S := S) t form a).
Proof.
  unfold dispatch, authorizationCodeGrant, refreshTokenGrant, deviceCodeGrant, on_no_permissions,
    RedeemAuthorizationCode, refuseNoPermissions, randomFamilyID, declare, lift. respects.
Qed.

(** Every /token request is counted exactly once, last, and under its true
    outcome: as an issued token when the response carries one, and otherwise
    under the OAuth2 error code of the response (server_error when it is not an
    OAuth2 error; an OAuth2 error with an empty code would count as issued),
    with a fixed grant label. *)
Theorem token_counted_once t rq w w' r :
  handle t rq w = (w', r) ->
  exists evs label,
    label ∈ ["authorization_code"; "refresh_token"; "device_code"; "other"] /\
    Forall (fun ev => outcome_event ev = false) evs /\
    w_trace w' = w_trace w ++ evs ++
      [match r with
       | inr _ => Counted "tempogate.tokens_issued" [label]
       | inl (e, _) =>
           if (tokenErrorCode (A := tokenOutput) (inl e) =? "")%string
           then Counted "tempogate.tokens_issued" [label]
           else Counted "tempogate.token_errors" [label; tokenErrorCode (A := tokenOutput) (inl e)]
       end].
Proof.
  unfold handle. destruct (grant t rq w) as [wg rg] eqn:Hg. intros [= <- <-]. unfold grant in Hg.
  destruct (ParseQuery _) as [form|].
  - destruct (dispatch t form (in_Authorization rq) w) as [wd rd] eqn:Hd.
    unfold attempt in Hg. run_in Hg. rewrite Hd in Hg.
    apply silent_dispatch in Hd as (evs & Hev & Hf).
    exists evs, (grantLabel (Get form "grant_type")). split.
    { unfold grantLabel. repeat (destruct (_ =? _)%string; [set_solver|]). set_solver. }
    split; [done|]. rewrite app_assoc, <- Hev. unfold telemetry_token in Hg. destruct rd as [e|o].
    + assert ((withBasicChallenge e (in_Authorization rq)).1 = e) as Hw.
      { unfold withBasicChallenge. destruct (errors_As_oauth e) as [[[? ?] ?]|]; [by destruct (_ && _)|done]. }
      destruct (tokenErrorCode _ =? "")%string eqn:Hc in Hg; run_in Hg;
        destruct (withBasicChallenge _ _) as [e' ch]; cbn in Hw; subst e'; cbn in Hc |- *; by rewrite Hc.
    + by run_in Hg.
  - run_in Hg. exists [], "other". split; [set_solver|]. split; [constructor|]. done.
Qed.

Lemma authenticateClient_error t cid sec g e :
  authenticateClient t cid sec g = inl e ->
  exists st c d, e = OAuthError st c d /\ (st = StatusUnauthorized -> c = "invalid_client").
Proof.
  unfold authenticateClient. destruct (tc_Lookup _ _); [|intros [= <-]; by eexists _, _, _].
  destruct (_ && _); [intros [= <-]; by eexists _, _, _|].
  destruct (negb _); [intros [= <-]; by eexists _, _, _|done].
Qed.

(** The form names a grant whose client authentication fails with [e]. *)
Definition unauthenticated t (form : Values) (a : string) (e : error) : Prop :=
  Get form "grant_type" = grantAuthorizationCode /\
  authenticateClient t (clientCredentials form a).1 (clientCredentials form a).2 GrantTypeAuthorizationCode = inl e \/
  Get form "grant_type" = grantRefreshToken /\
  authenticateClient t (clientCredentials form a).1 (clientCredentials form a).2 GrantTypeRefreshToken = inl e \/
  Get form "grant_type" = grantDeviceCode /\
  authenticateClient t (clientCredentials form a).1 (clientCredentials form a).2 GrantTypeDeviceCode = inl e.

(** It is refused, with an OAuth error, and the store is as it was. *)
Definition refused {A} w w' (r : error + A) : Prop :=
  w_store w' = w_store w /\
  exists st c d, r = inl (OAuthError st c d) /\ (st = StatusUnauthorized -> c = "invalid_client").

Lemma refused_throw {A} st c d w w' :
  w_store w' = w_store w -> (st = StatusUnauthorized -> c = "invalid_client") ->
  refused w w' (A := A) (inl (OAuthError st c d)).
Proof. intros Hw Hc. split; [done|]. by exists st, c, d. Qed.

Lemma unauthenticated_dispatch t form a e w w' r :
  unauthenticated t form a e -> dispatch t form a w = (w', r) -> refused w w' r.
Proof.
  intros Hg Hd. unfold dispatch, declare in Hd.
  apply bind_cases in Hd as [(e0 & He & _)|(w1 & [] & He1 & Hd)]; [by run_in He|]. run_in He1.
  apply bind_cases in Hd as [(e0 & He & _)|(w2 & [] & He2 & Hd)]; [by run_in He|]. run_in He2.
  apply bind_cases in Hd as [(e0 & He & _)|(w3 & [] & He3 & Hd)].
  { destruct (parseBasicAuth _) as [[id sec]|]; by run_in He. }
  assert (w_store w3 = w_store w) as Hw3 by (destruct (parseBasicAuth _) as [[id sec]|]; by run_in He3).
  unfold refused. rewrite <- Hw3. change (refused w3 w' r).
  destruct (checkParamLengths _) as [ep|] eqn:Hcap.
  { injection Hd as <- <-. split; [done|]. clear -Hcap. cbn in Hcap.
    repeat (destruct (_ <? _); [injection Hcap as <-; by eexists _, _, _|]). done. }
  destruct Hg as [[Hgt Hac]|[[Hgt Hac]|[Hgt Hac]]]; rewrite Hgt in Hd; cbn in Hd;
    pose proof (authenticateClient_error _ _ _ _ _ Hac) as (st & c & d & -> & Hoa).
  - unfold authorizationCodeGrant, RedeemAuthorizationCode, declare in Hd.
    destruct (clientCredentials form _) as [cid sec]. cbn in Hac. run_in Hd.
    destruct (Get form "code" =? "")%string; run_in Hd; [by apply refused_throw|].
    rewrite Hac in Hd. run_in Hd. by apply refused_throw.
  - unfold refreshTokenGrant in Hd. destruct (Get form "refresh_token" =? "")%string; run_in Hd; [by apply refused_throw|].
    destruct (clientCredentials form _) as [cid sec]. cbn in Hac. rewrite Hac in Hd. run_in Hd. by apply refused_throw.
  - unfold deviceCodeGrant in Hd. destruct (negb (t_devices t)); run_in Hd; [by apply refused_throw|].
    destruct (Get form "device_code" =? "")%string; run_in Hd; [by apply refused_throw|].
    destruct (clientCredentials form _) as [cid sec]. cbn in Hac.
    destruct (cid =? "")%string; run_in Hd; [by apply refused_throw|].
    rewrite Hac in Hd. run_in Hd. by apply refused_throw.
Qed.

(** A request that fails client authentication changes nothing: an unknown
    client, a wrong or missing secret, or a client not registered for the grant
    is refused before any store operation, so it can neither burn another
    client's code or token nor revoke a session; and when the credentials came
    by HTTP Basic the 401 carries the challenge. *)
Theorem unauthenticated_changes_nothing t rq form e w w' r :
  ParseQuery (in_RawBody rq) = Some form -> unauthenticated t form (in_Authorization rq) e ->
  handle t rq w = (w', r) ->
  w_store w' = w_store w /\ exists e' ch, r = inl (e', ch) /\
    (http_status e' = StatusUnauthorized -> hasBasicScheme (in_Authorization rq) = true ->
     ch = Some ("Basic realm=" +:+ dquote +:+ "tempogate" +:+ dquote)).
Proof.
  intros Hq Hg Hh. unfold handle in Hh. destruct (grant t rq w) as [wg rg] eqn:Hgr.
  injection Hh as <- <-. unfold grant in Hgr. rewrite Hq in Hgr.
  destruct (dispatch t form (in_Authorization rq) w) as [wd rd] eqn:Hd.
  unfold attempt in Hgr. run_in Hgr. rewrite Hd in Hgr.
  assert (w_store wg = w_store wd /\ rg = rd) as [Hwg ->].
  { unfold telemetry_token in Hgr. destruct (_ =? _)%string; destruct rd; by run_in Hgr. }
  apply unauthenticated_dispatch with (e := e) in Hd as [Hs (st & c & d & -> & Hst)]; [|done].
  split; [congruence|]. cbn [withBasicChallenge errors_As_oauth].
  destruct ((st =? StatusUnauthorized) && (c =? "invalid_client")%string && hasBasicScheme (in_Authorization rq)) eqn:E;
    eexists _, _; (split; [reflexivity|]); cbn; [done|].
  intros Hst' Hb. unfold http_status in Hst'. cbn in Hst'. rewrite (Hst Hst'), Hst', Hb in E. done.
Qed.

End Counting.

(** The startup check of the token lifetimes accepts exactly the coherent
    ones: all positive, the access token shorter than the idle window, the idle
    window within the absolute lifetime; the defaults pass. *)
Theorem ValidateTokenLifetimes_spec (access idle max : duration) :
  (ValidateTokenLifetimes access idle max = None <-> 0 < access /\ access < idle /\ idle <= max) /\
  ValidateTokenLifetimes DefaultAccessTokenTTL DefaultRefreshTokenTTL DefaultRefreshMaxLifetime = None.
Proof.
  split; [|reflexivity]. unfold ValidateTokenLifetimes.
  destruct (access <=? 0) eqn:E1, (idle <=? 0) eqn:E2, (max <=? 0) eqn:E3; cbn [orb];
    try (destruct (idle <=? access) eqn:E4; [|destruct (max <? idle) eqn:E5]); solve_bool;
    split; try done; lia.
Qed.
