(* ===== verification/SqlSessions.v ===== *)
(** * Linearizability of store methods

    What the proofs that a backend keeps the session contract share: how a
    method made of statements linearizes, for any tables with a view as abstract
    sessions, and the facts about the SQL statements both backends run. *)

From S2P Require Import Prelude GoStrings GoErrors Oidc Keys Sessions Sql Sqlite.

(** ** The view of the shared tables *)

Definition tview (t : Tables) : Sessions := mkSessions (auth_codes t) (refresh_tokens t).

Lemma driver_failed msg : failed (Some (Errorf msg driver)).
Proof. by eexists. Qed.

(** A run of a method: where it linearizes, or how it fails. *)
Lemma linearize {A} (err : A -> option error) (spec : Sessions -> Sessions * A) s s' s0 s1 r :
  steps s s0 -> steps s1 s' ->
  ((s1, r) = spec s0 \/ failed (err r) /\ (s1 = s0 \/ s1 = (spec s0).1)) ->
  exists s0 s1, steps s s0 /\ steps s1 s' /\
    ((s1, r) = spec s0 \/ failed (err r) /\ (s1 = s0 \/ s1 = (spec s0).1)).
Proof. eauto 10. Qed.

(** ** Methods of one or two statements *)

Section Linearize.
Context {T : Type} (tv : T -> Sessions) (inv : T -> Prop) (R : relation T) `{!PreOrder R}.
Context (R_steps : forall t t', R t t' -> steps (tv t) (tv t')).
Context (R_inv : forall t t', R t t' -> inv t -> inv t').

(** Other requests keep to [R], and the tables are well formed. *)
Definition db_inv (db : Database T) : Prop := rely R db /\ inv (tables db).

(** Updates and returns a row, and when no row qualified looks for the tombstone
    that explains it, as the two statements interleave with others. *)
Section Consume.
Context {X Y A : Type} (zero : A) (msg1 msg2 : string).
Context (upd : T -> T * option X) (look : T -> T * Y).
Context (hit : X -> A * option error) (miss : Y -> A * option error).
Context (spec : Sessions -> Sessions * (A * option error)).
Context (upd_inv : forall t, inv t -> inv (upd t).1).
Context (upd_spec : forall t,
  match upd t with
  | (t', Some x) => (tv t', hit x) = spec (tv t)
  | (t', None) => t' = t
  end).
Context (look_pure : forall t, (look t).1 = t).
Context (look_spec : forall t1 t2, (upd t1).2 = None -> steps (tv t1) (tv t2) ->
  (tv t2, miss (look t2).2) = spec (tv t2) \/ (tv t1, miss (look t2).2) = spec (tv t1)).

Lemma upd_failed t : tv (upd t).1 = tv t \/ tv (upd t).1 = (spec (tv t)).1.
Proof.
  specialize (upd_spec t). destruct (upd t) as [t' [x|]]; [right; by rewrite <- upd_spec|left; by subst].
Qed.

Lemma consume_refines :
  refines db_inv (fun db => tv (tables db)) snd
    (method zero (row ← stmt msg1 upd;
                  match row with
                  | Some x => mret (hit x)
                  | None => tomb ← stmt msg2 look; mret (miss tomb)
                  end)) spec.
Proof.
  intros db [Hok Hi]. unfold db_inv, linearizes, method. destruct (@mbind (Q T) _ _ _ _ _ db) as [db' r] eqn:E.
  apply Q_bind_cases in E as [(e & E & ->)|(db1 & row & E & E')];
    apply (stmt_run R) in E as (Hok1 & t1 & Ht1 & Hc); try done; pose proof (R_inv _ _ Ht1 Hi) as Hi1;
    pose proof (upd_inv _ Hi1) as Hu1.
  { destruct Hc as [(a & ? & _)|([= ->] & Hc)]; [done|]. cbn [fst snd].
    split; [split; [done|]; by destruct Hc as [->| ->]|]. eapply (linearize snd); [exact (R_steps _ _ Ht1)|reflexivity|]. right. split; [exact (driver_failed _)|].
    destruct Hc as [->| ->]; [by left|apply upd_failed]. }
  destruct Hc as [(a & [= ->] & Hc)|([=] & _)]. pose proof (upd_spec t1) as Hu. rewrite Hc in Hu, Hu1.
  destruct a as [x|].
  { injection E' as <- <-. split; [done|]. eapply (linearize snd); [exact (R_steps _ _ Ht1)|reflexivity|by left]. }
  rewrite Hu in Hc.
  apply Q_bind_cases in E' as [(e & E & ->)|(db2 & tomb & E & E')];
    apply (stmt_run R) in E as (Hok2 & t2 & Ht2 & Hc2); try done; rewrite Hu in Ht2;
    pose proof (R_inv _ _ Ht2 Hi1) as Hi2; apply R_steps in Ht1, Ht2.
  - destruct Hc2 as [(a & ? & _)|([= ->] & Hc2)]; [done|]. rewrite look_pure in Hc2. cbn [fst snd].
    split; [split; [done|]; by destruct Hc2 as [->| ->]|].
    eapply (linearize snd); [etrans; [exact Ht1|exact Ht2]|reflexivity|]. right.
    split; [exact (driver_failed _)|left]. by destruct Hc2 as [->| ->].
  - injection E' as <- <-. cbn [fst snd]. destruct Hc2 as [(a & [= ->] & Hc2)|([=] & _)].
    pose proof (look_pure t2) as Hp. rewrite Hc2 in Hp. cbn in Hp. rewrite Hp in *. split; [done|].
    assert ((upd t1).2 = None) as Hn by (by rewrite Hc).
    specialize (look_spec t1 t2 Hn). rewrite Hc2 in look_spec.
    destruct look_spec as [Hl|Hl]; [exact Ht2|..].
    + eapply (linearize snd); [etrans; [exact Ht1|exact Ht2]|reflexivity|by left].
    + eapply (linearize snd); [exact Ht1|exact Ht2|by left].
Qed.

End Consume.

(** A transaction, which commits as a whole or not at all. *)
Section Transaction.
Context {A : Type} (zero : A) (body : Q T (A * option error)) (spec : Sessions -> Sessions * (A * option error)).
Context (body_suffix : suffixing body).
Context (body_spec : forall db db' r, inv (tables db) -> body db = (db', r) ->
  match r with
  | inl e => driver_error e = true
  | inr (a, None) => spec (tv (tables db)) = (tv (tables db'), (a, None)) /\ inv (tables db')
  | inr (a, Some e) => spec (tv (tables db)) = (tv (tables db), (a, Some e))
  end).

(** The method's own message wraps what the driver reports. *)
Definition tx_method (begin_msg commit_msg msg : string) : storeOp (Database T) (A * option error) := fun db =>
  match transaction begin_msg commit_msg body db with
  | (db', inr r) => (db', r)
  | (db', inl e) => (db', (zero, Some (Errorf msg e)))
  end.

Lemma tx_guarantees b c m db db' r :
  (forall db db' a, body db = (db', inr (a, None)) -> R (tables db) (tables db')) ->
  rely R db -> tx_method b c m db = (db', r) -> rely R db' /\ R (tables db) (tables db').
Proof.
  intros Hb Hok. unfold tx_method, transaction.
  destruct (@mbind (Q T) _ _ _ _ _ db) as [db1 r1] eqn:E.
  intros Hr. assert (db1 = db') as -> by (destruct r1; by injection Hr). clear Hr.
  apply Q_bind_cases in E as [(e & E & ->)|(dba & [] & E & E')];
    destruct (after_run R _ _ _ _ _ Hok E) as (Hok1 & Ht1 & _); [done|].
  destruct (suffixing_in_tx c body body_suffix _ _ _ E') as [n Hn].
  pose proof (rely_suffix R _ _ _ Hok1 Hn) as Hok'. split; [done|].
  apply in_tx_run in E' as [(-> & _)|(a & dbq & Hq & -> & _)]; [done|]. etrans; [done|]. by eapply Hb.
Qed.

Lemma tx_refines b c m :
  refines db_inv (fun db => tv (tables db)) snd (tx_method b c m) spec.
Proof.
  intros db [Hok Hi]. unfold db_inv, linearizes, tx_method, transaction.
  destruct (@mbind (Q T) _ _ _ _ _ db) as [db' r] eqn:E.
  apply Q_bind_cases in E as [(e & E & ->)|(db1 & [] & E & E')];
    destruct (after_run R _ _ _ _ _ Hok E) as (Hok1 & Ht1 & Hr);
    pose proof (R_inv _ _ Ht1 Hi) as Hi1; apply R_steps in Ht1.
  { destruct Hr as [?|[= ->]]; [done|]. split; [done|].
    eapply (linearize snd); [exact Ht1|reflexivity|right]. split; [by eexists|by left]. }
  clear E Hr. destruct (suffixing_in_tx c body body_suffix _ _ _ E') as [n Hn].
  pose proof (rely_suffix R _ _ _ Hok1 Hn) as Hok'.
  apply in_tx_run in E' as [(Ht & Hne & Hb)|(a & dbq & Hq & Ht & Hr)].
  - destruct Hb as [->|[dbq Hq]].
    { split; [split; [done|]; cbn; by rewrite Ht|]. eapply (linearize snd); [exact Ht1|reflexivity|right].
      split; [by eexists|left]. cbn. by rewrite Ht. }
    specialize (body_spec _ _ _ Hi1 Hq). destruct r as [e|[a [e|]]]; [| |by destruct (Hne a)].
    + split; [split; [done|]; cbn; by rewrite Ht|]. eapply (linearize snd); [exact Ht1|reflexivity|right].
      split; [by eexists|left]. cbn. by rewrite Ht.
    + split; [split; [done|]; cbn; by rewrite Ht|]. eapply (linearize snd); [exact Ht1|reflexivity|left].
      cbn. by rewrite Ht, body_spec.
  - destruct (body_spec _ _ _ Hi1 Hq) as [Hs Hi']. rewrite <- Ht in Hs, Hi'.
    destruct Hr as [->| ->]; (split; [done|]); (eapply (linearize snd); [exact Ht1|reflexivity|]); cbn.
    + left. by rewrite Hs.
    + right. split; [by eexists|right]. by rewrite Hs.
Qed.

End Transaction.

End Linearize.

(** ** The statements both backends run *)

Lemma consume_code_spec c f at_ t :
  match sql_consume_code c f at_ t with
  | (t', Some ac) => (tview t', (with_code c ac, None)) = Spec.ConsumeAuthCode c f at_ (tview t)
  | (t', None) => t' = t
  end.
Proof.
  unfold sql_consume_code, Spec.ConsumeAuthCode. cbn. destruct (auth_codes t !! Hash c) as [row|]; [|done].
  by destruct (cr_consumed row).
Qed.

Definition code_miss (c : string) (tomb : option AuthCode) : AuthCode * option error :=
  match tomb with
  | None => (zeroAuthCode, Some (Sentinel ErrAuthCodeNotFound))
  | Some ac => (tombstone_code c ac, Some (Sentinel ErrAuthCodeReused))
  end.

Lemma code_tombstone_spec c f at_ t1 t2 :
  (sql_consume_code c f at_ t1).2 = None -> steps (tview t1) (tview t2) ->
  (tview t2, code_miss c (sql_code_tombstone c t2).2) = Spec.ConsumeAuthCode c f at_ (tview t2) \/
  (tview t1, code_miss c (sql_code_tombstone c t2).2) = Spec.ConsumeAuthCode c f at_ (tview t1).
Proof.
  unfold sql_consume_code, sql_code_tombstone, Spec.ConsumeAuthCode. cbn. intros Hn Hst.
  destruct (auth_codes t1 !! Hash c) as [row|] eqn:Hrow.
  - destruct (cr_consumed row) eqn:Hcons; [|done]. left.
    destruct (steps_codes _ _ _ _ Hst Hrow) as (row2 & Hrow2 & [->|(Hn' & _)]); [|congruence].
    cbn in Hrow2. by rewrite Hrow2, Hcons.
  - destruct (auth_codes t2 !! Hash c) as [row2|] eqn:Hrow2; [|by left].
    cbn. destruct (cr_consumed row2); [by left|by right].
Qed.

Lemma consume_refresh_spec tok c at_ t :
  match sql_consume_refresh tok c at_ t with
  | (t', Some r) => (tview t', (with_token tok r, None)) = Spec.ConsumeRefresh tok c at_ (tview t)
  | (t', None) => t' = t
  end.
Proof.
  unfold sql_consume_refresh, Spec.ConsumeRefresh. cbn.
  destruct (refresh_tokens t !! Hash tok) as [row|]; [|done].
  destruct (_ =? _)%string; [|done]. by destruct (live row).
Qed.

Definition refresh_miss (tok : string) (tomb : option Refresh) : Refresh * option error :=
  match tomb with
  | None => (zeroRefresh, Some (Sentinel ErrRefreshNotFound))
  | Some r => (with_token tok r, Some (Sentinel ErrRefreshReused))
  end.

Lemma row_le_not_live row row2 : row_le row row2 -> live row = false -> live row2 = false.
Proof.
  intros (_ & Hc & Hr). unfold live, consumed, revoked in *.
  destruct (bool_decide (is_Some (tr_consumed row))) eqn:E1.
  - intros _. by rewrite Hc, E1.
  - destruct (bool_decide (is_Some (tr_revoked row))) eqn:E2; [|done].
    intros _. rewrite Hr, E2 by done. apply andb_false_r.
Qed.

Lemma refresh_tombstone_spec tok c at_ t1 t2 :
  (sql_consume_refresh tok c at_ t1).2 = None -> steps (tview t1) (tview t2) ->
  (tview t2, refresh_miss tok (sql_refresh_tombstone tok c t2).2) = Spec.ConsumeRefresh tok c at_ (tview t2) \/
  (tview t1, refresh_miss tok (sql_refresh_tombstone tok c t2).2) = Spec.ConsumeRefresh tok c at_ (tview t1).
Proof.
  unfold sql_consume_refresh, sql_refresh_tombstone, Spec.ConsumeRefresh. cbn. intros Hn Hst.
  destruct (refresh_tokens t1 !! Hash tok) as [row|] eqn:Hrow.
  - destruct (steps_tokens _ _ _ _ Hst Hrow) as (row2 & Hrow2 & Hle). pose proof Hle as (Hd & _).
    cbn in Hrow2. rewrite Hrow2, Hd. destruct (_ =? c)%string; [|by left]. cbn in *.
    destruct (live row) eqn:Hl; [done|]. left. rewrite (row_le_not_live _ _ Hle Hl).
    by destruct (consumed row2).
  - destruct (refresh_tokens t2 !! Hash tok) as [row2|] eqn:Hrow2; [|by left]. cbn.
    destruct (_ =? c)%string; cbn; [|by left]. destruct (consumed row2) eqn:Hc; [|by right]. left.
    unfold live. by rewrite Hc.
Qed.

Lemma tombstones_pure c tok cl t :
  (sql_code_tombstone c t).1 = t /\ (sql_refresh_tombstone tok cl t).1 = t.
Proof.
  unfold sql_code_tombstone, sql_refresh_tombstone. split; [by destruct (_ !! _)|by destruct (_ !! _)].
Qed.
