(* ===== verification/SqliteSessions.v ===== *)
(** * SQLite keeps the session contract

    The token store methods of Sqlite.v are linearizable implementations of the
    abstract session machine of Sessions.v, statement by statement interleaved
    with whatever other requests do to sessions; the device-code methods leave
    sessions alone; the operators' bulk revocations are steps of the machine. *)

From S2P Require Import Prelude GoStrings GoErrors Oidc Keys Sessions Sql Sqlite SqlSessions Token TokenFacts.

(** ** The view *)

(** Sessions change only by steps of the machine. *)
Definition sessions_rely (t t' : Tables) : Prop := steps (tview t) (tview t').

#[export] Instance sessions_rely_preorder : PreOrder sessions_rely.
Proof. unfold sessions_rely. split; [intros t; apply rtc_refl|intros t1 t2 t3 H1 H2; by etrans]. Qed.

Abbreviation db_ok := (rely sessions_rely).
Abbreviation db_view db := (tview (tables db)).

(** The database invariant of the shared lemmas, when the tables need none. *)
Lemma db_inv_ok {A} (err : A -> option error) op spec :
  refines (db_inv (fun _ => True) sessions_rely) (fun db => db_view db) err op spec ->
  refines db_ok (fun db => db_view db) err op spec.
Proof. intros Hr db Hok. destruct (Hr db) as [[? _] ?]; done. Qed.

Lemma sqlite_ConsumeAuthCode_refines c f t :
  refines db_ok (fun db => db_view db) snd (sqlite_ConsumeAuthCode c f t) (Spec.ConsumeAuthCode c f t).
Proof.
  apply db_inv_ok. apply (consume_refines tview _ sessions_rely) with (miss := code_miss c); try done.
  - intros t1. apply consume_code_spec.
  - intros t1. apply (tombstones_pure c "" "").
  - intros t1 t2. apply code_tombstone_spec.
Qed.

Lemma sqlite_ConsumeRefresh_refines tok c t :
  refines db_ok (fun db => db_view db) snd (sqlite_ConsumeRefresh tok c t) (Spec.ConsumeRefresh tok c t).
Proof.
  apply db_inv_ok. apply (consume_refines tview _ sessions_rely) with (miss := refresh_miss tok); try done.
  - intros t1. apply consume_refresh_spec.
  - intros t1. apply (tombstones_pure "" tok c).
  - intros t1 t2. apply refresh_tombstone_spec.
Qed.

Lemma sqlite_SaveRefresh_refines r :
  refines db_ok (fun db => db_view db) id (sqlite_SaveRefresh r) (Spec.SaveRefresh r).
Proof.
  intros db Hok. unfold linearizes, sqlite_SaveRefresh, method_. destruct (@mbind (Q Tables) _ _ _ _ _ db) as [db' res] eqn:E.
  apply Q_bind_cases in E as [(e & E & ->)|(db1 & row & E & E')];
    apply (stmt_run sessions_rely) in E as (Hok1 & t1 & Ht1 & Hc); try done.
  { destruct Hc as [(a & ? & _)|([= ->] & Hc)]; [done|]. split; [done|].
    eapply (linearize id); [exact Ht1|reflexivity|]. right. split; [exact (driver_failed _)|cbn [fst snd]].
    destruct Hc as [->| ->]; [by left|right]. unfold Spec.SaveRefresh. cbn.
    destruct (family_revoked _ _); [done|]. by destruct (refresh_tokens t1 !! _). }
  destruct Hc as [(a & [= ->] & Hc)|([=] & _)].
  assert (tview (tables db1) = (Spec.SaveRefresh r (tview t1)).1 /\
          (a = PrimaryKeyConflict -> (Spec.SaveRefresh r (tview t1)).2 = Some (Sentinel ErrDuplicateRefreshToken)) /\
          (a = NoRow -> (Spec.SaveRefresh r (tview t1)).2 = Some (Errorf (rt_FamilyID r) (Sentinel ErrRefreshFamilyRevoked))) /\
          (a = Inserted -> (Spec.SaveRefresh r (tview t1)).2 = None)) as (Hv & H1 & H2 & H3).
  { unfold Spec.SaveRefresh. cbn. destruct (family_revoked _ _); [by injection Hc as <- <-|].
    destruct (refresh_tokens t1 !! _); by injection Hc as <- <-. }
  assert (a = PrimaryKeyConflict \/ a <> PrimaryKeyConflict) as [->|Ha] by (destruct a; [right|right|left]; done).
  { injection E' as <- <-. split; [done|]. eapply (linearize id); [exact Ht1|reflexivity|left].
    cbn. by rewrite Hv, <- H1, <- surjective_pairing. }
  assert (exists q, (n ← after "sqlite: save refresh token" q;
     mret (if (n : Z) =? 0 then Some (Errorf (rt_FamilyID r) (Sentinel ErrRefreshFamilyRevoked)) else None) : Q Tables _) db1
     = (db', res) /\ (Spec.SaveRefresh r (tview t1)).2 =
        if q =? 0 then Some (Errorf (rt_FamilyID r) (Sentinel ErrRefreshFamilyRevoked)) else None) as (q & Eq & Hq).
  { destruct a; [exists 1|exists 0|done]; (split; [exact E'|]); [by rewrite H3|by rewrite H2]. }
  clear E'. apply Q_bind_cases in Eq as [(e & E & ->)|(db2 & n & E & E')];
    apply (after_run sessions_rely) in E as (Hok2 & Ht2 & Hn); try done.
  - destruct Hn as [?|[= ->]]; [done|]. split; [done|].
    eapply (linearize id); [exact Ht1|exact Ht2|right]. split; [exact (driver_failed _)|by right].
  - destruct Hn as [[= ->]|?]; [|done]. injection E' as <- <-. split; [done|].
    eapply (linearize id); [exact Ht1|exact Ht2|left]. cbn. by rewrite Hv, <- Hq, <- surjective_pairing.
Qed.

(** *** Revocation *)

Lemma revoke_where_step p at_ t :
  sessions_rely t (set_tokens (revoke_where p at_ (refresh_tokens t)) t).
Proof. apply rtc_once. apply (step_revoke_where p at_ (tview t)). Qed.

Lemma count_live_nonneg p t : 0 <= count_live p t.
Proof. unfold count_live. lia. Qed.

Lemma sqlite_RevokeRefreshFamily_keeps f t db :
  db_ok db ->
  db_ok (sqlite_RevokeRefreshFamily f t db).1 /\
  steps (db_view db) (db_view (sqlite_RevokeRefreshFamily f t db).1).
Proof.
  intros Hok. destruct (sqlite_RevokeRefreshFamily f t db) as [db' r] eqn:E.
  unfold sqlite_RevokeRefreshFamily in E. revert Hok E. apply (guarantees_method sessions_rely). unfold revokeRefresh.
  guarantees. apply revoke_where_step.
Qed.

Lemma sqlite_RevokeRefreshFamily_linearizes f t db :
  db_ok db -> family_exists f (tokens (db_view db)) = true ->
  linearizes (fun db => db_view db) snd (sqlite_RevokeRefreshFamily f t) (Spec.RevokeRefreshFamily f t) db.
Proof.
  intros Hok Hex. unfold linearizes, sqlite_RevokeRefreshFamily, method.
  assert (forall s, steps (db_view db) s -> family_exists f (tokens s) = true) as Hex'.
  { intros s Hs. apply family_exists_true in Hex as (h & row & Hrow & Hf).
    destruct (steps_tokens _ _ _ _ Hs Hrow) as (row' & Hrow' & Hd & _). apply family_exists_true.
    exists h, row'. unfold row_family in *. by rewrite Hd. }
  assert (forall t1, steps (db_view db) (tview t1) -> Spec.RevokeRefreshFamily f t (tview t1) =
    (tview (set_tokens (revoke_where (in_family f) t (refresh_tokens t1)) t1),
     (count_live (in_family f) (refresh_tokens t1), None))) as Hspec.
  { intros t1 Ht1. unfold Spec.RevokeRefreshFamily. by rewrite Hex'. }
  destruct (@mbind (Q Tables) _ _ _ _ _ db) as [db' r] eqn:E. unfold revokeRefresh in E.
  apply Q_bind_cases in E as [(e & E & ->)|(db1 & n & E & E')].
  { apply Q_bind_cases in E as [(e' & E & [= ->])|(db1 & n & E & E')];
      apply (stmt_run sessions_rely) in E as (Hok1 & t1 & Ht1 & Hc); try done.
    - destruct Hc as [(a & ? & _)|([= ->] & Hc)]; [done|].
      eapply (linearize snd); [exact Ht1|reflexivity|right]. split; [exact (driver_failed _)|]. cbn [fst snd].
      destruct Hc as [->| ->]; [by left|right]. by rewrite Hspec.
    - destruct Hc as [(a & [= ->] & Hc)|([=] & _)]. injection Hc as Ht <-.
      destruct (after_run sessions_rely _ _ _ _ _ Hok1 E') as (_ & Ht2 & [?|[= ->]]); [done|].
      eapply (linearize snd); [exact Ht1|exact Ht2|right]. split; [exact (driver_failed _)|right].
      by rewrite Hspec, <- Ht. }
  apply Q_bind_cases in E as [(e' & E & ?)|(db0 & n0 & E & E1)]; [done|].
  apply (stmt_run sessions_rely) in E as (Hok1 & t1 & Ht1 & Hc); [|done].
  destruct Hc as [(a & [= ->] & Hc)|([=] & _)]. injection Hc as Ht <-.
  destruct (after_run sessions_rely _ _ _ _ _ Hok1 E1) as (Hok2 & Ht2 & [[= ->]|?]); [|done].
  destruct (0 <? _) eqn:Hn.
  { injection E' as <- <-. eapply (linearize snd); [exact Ht1|exact Ht2|left]. by rewrite Hspec, <- Ht. }
  assert (count_live (in_family f) (refresh_tokens t1) = 0) as Hz.
  { pose proof (count_live_nonneg (in_family f) (refresh_tokens t1)). apply Z.ltb_ge in Hn. lia. }
  apply Q_bind_cases in E' as [(e' & E & ->)|(db2 & ex & E & E')];
    apply (stmt_run sessions_rely) in E as (Hok3 & t3 & Ht3 & Hc); try done.
  - destruct Hc as [(a & ? & _)|([= ->] & Hc)]; [done|].
    eapply (linearize snd); [exact Ht1|etrans; [exact Ht2|]; etrans; [exact Ht3|]|right].
    { cbn [fst snd]. by destruct Hc as [->| ->]. }
    split; [exact (driver_failed _)|right]. by rewrite Hspec, <- Ht.
  - injection E' as <- <-. destruct Hc as [(a & [= ->] & Hc)|([=] & _)]. injection Hc as Ht' <-.
    assert (steps (tview t1) (tview t3)) as Ht13.
    { etrans; [apply (revoke_where_step (in_family f) t)|].
      etrans; [|exact Ht3]. etrans; [|exact Ht2]. by rewrite <- Ht. }
    eapply (linearize snd); [exact Ht1|etrans; [exact Ht2|]; cbn [fst snd]; by rewrite <- Ht'|left].
    assert (family_exists f (refresh_tokens t3) = true) as -> by (apply (Hex' (tview t3)); by etrans).
    by rewrite Hspec, <- Ht, Hz.
Qed.

(** ** The contract, discharged *)

#[export] Instance sqlite_TokenStoreSpec : TokenStoreSpec DB := {
  view := fun db => db_view db;
  store_inv := db_ok;
  ConsumeAuthCode_refines := sqlite_ConsumeAuthCode_refines;
  SaveRefresh_refines := sqlite_SaveRefresh_refines;
  ConsumeRefresh_refines := sqlite_ConsumeRefresh_refines;
  RevokeRefreshFamily_keeps := sqlite_RevokeRefreshFamily_keeps;
  RevokeRefreshFamily_linearizes := sqlite_RevokeRefreshFamily_linearizes
}.

(** A statement on another table. *)
Lemma same_view t t' : tview t' = tview t -> sessions_rely t t'.
Proof. unfold sessions_rely. by intros ->. Qed.

Lemma guarantees_op {A} (op : storeOp DB A) :
  (forall db db' r, db_ok db -> op db = (db', r) -> db_ok db' /\ sessions_rely (tables db) (tables db')) ->
  forall db, db_ok db -> db_ok (op db).1 /\ steps (db_view db) (db_view (op db).1).
Proof. intros Hg db Hok. destruct (op db) as [db' r] eqn:E. by eapply Hg. Qed.

#[export] Instance sqlite_DeviceStoreFrame : DeviceStoreFrame DB.
Proof.
  split; intros; revert s H; apply guarantees_op; intros db db' r Hok E; revert Hok E;
    apply (guarantees_method sessions_rely).
  - guarantees.
  - unfold slow_down. guarantees.
    + apply same_view. unfold poll_swap. destruct (_ !! _); [|done]. by case_bool_decide.
    + apply same_view. unfold poll_slow. by destruct (_ !! _).
    + apply same_view. unfold poll_slow. by destruct (_ !! _).
  - guarantees. apply same_view. unfold sql_delete_device. by destruct (_ !! _).
Qed.

(** C4. SQLite keeps the contract: redeeming a code, storing, consuming and
    revoking refresh tokens each act as one step of the abstract session
    machine, at some point between their first and last statement, however the
    statements of other requests interleave, and a driver failure at any
    statement leaves that step done or not done (revocation: of a family that
    exists when it starts). *)
Theorem sqlite_linearizable c f t tok cl r :
  refines db_ok (fun db => db_view db) snd (sqlite_ConsumeAuthCode c f t) (Spec.ConsumeAuthCode c f t) /\
  refines db_ok (fun db => db_view db) id (sqlite_SaveRefresh r) (Spec.SaveRefresh r) /\
  refines db_ok (fun db => db_view db) snd (sqlite_ConsumeRefresh tok cl t) (Spec.ConsumeRefresh tok cl t) /\
  (forall db, db_ok db -> family_exists f (tokens (db_view db)) = true ->
     linearizes (fun db => db_view db) snd (sqlite_RevokeRefreshFamily f t) (Spec.RevokeRefreshFamily f t) db).
Proof.
  split_and!; [apply sqlite_ConsumeAuthCode_refines|apply sqlite_SaveRefresh_refines|
    apply sqlite_ConsumeRefresh_refines|apply sqlite_RevokeRefreshFamily_linearizes].
Qed.

(** *** An operator ends an account's sessions *)

Lemma bulk_revoked p at_ db db' n :
  db_ok db -> method 0 (n ← revokeRefresh p at_; mret (n, None)) db = (db', (n, None)) ->
  (forall r, p r = p (mkTokenRow (tr_refresh r) None None)) ->
  db_ok db' /\ steps (db_view db) (db_view db') /\
  forall h row, refresh_tokens (tables db) !! h = Some row -> p row = true ->
    exists row', refresh_tokens (tables db') !! h = Some row' /\ tr_refresh row' = tr_refresh row /\ revoked row' = true.
Proof.
  intros Hok Hm Hp. assert (guarantees sessions_rely (n ← revokeRefresh p at_; mret (n, @None error))) as Hg.
  { unfold revokeRefresh. guarantees. apply revoke_where_step. }
  destruct (guarantees_method _ _ _ _ _ _ Hg Hok Hm) as [Hok' Hst]. split; [done|]. split; [done|].
  intros h row Hrow Hprow. unfold method in Hm. destruct (@mbind (Q Tables) _ _ _ _ _ db) as [db1 r] eqn:E.
  destruct r as [e|r]; [done|]. injection Hm as -> ->.
  apply Q_bind_cases in E as [(e & _ & ?)|(dba & m & E & E')]; [done|]. injection E' as -> ->.
  apply Q_bind_cases in E as [(e & _ & ?)|(dbb & k & E & E')]; [done|].
  apply (stmt_run sessions_rely) in E as (Hokb & t1 & Ht1 & [(a & [= ->] & Hc)|([=] & _)]); [|done].
  injection Hc as Hb _. destruct (after_run sessions_rely _ _ _ _ _ Hokb E') as (_ & Ht2 & _).
  destruct (steps_tokens _ _ _ _ Ht1 Hrow) as (row1 & Hrow1 & Hd1 & _). cbn in Hrow1.
  assert (p row1 = true) as Hp1 by (by rewrite Hp, Hd1, <- Hp).
  assert (refresh_tokens (tables dbb) !! h = Some (revoke_row p at_ row1)) as Hrow2.
  { rewrite <- Hb. cbn. apply lookup_revoke_where. eauto. }
  destruct (steps_tokens _ _ _ _ Ht2 Hrow2) as (row3 & Hrow3 & Hd3 & _ & Hr3). cbn in Hrow3.
  exists row3. split; [done|]. rewrite Hd3, revoke_row_refresh. split; [done|].
  assert (revoked (revoke_row p at_ row1) = true) as Hrev by (by rewrite revoke_row_revoked, Hp1, orb_true_r).
  unfold revoked in *. by rewrite Hr3.
Qed.

Lemma bulk_revocation sel at_ db db' n :
  db_ok db ->
  (match sel with
   | inl email => sqlite_RevokeRefreshByEmail email at_ db
   | inr (connectorID, subject) => sqlite_RevokeRefreshBySubject connectorID subject at_ db
   end) = (db', (n, None)) ->
  db_ok db' /\ steps (db_view db) (db_view db') /\
  forall h row, refresh_tokens (tables db) !! h = Some row ->
    (match sel with
     | inl email => email_matches email row
     | inr (connectorID, subject) => subject_matches connectorID subject row
     end) = true ->
    (exists row', refresh_tokens (tables db') !! h = Some row' /\ revoked row' = true) /\
    family_revoked (row_family row) (refresh_tokens (tables db')) = true.
Proof.
  intros Hok Hm.
  assert (forall p, (forall r, p r = p (mkTokenRow (tr_refresh r) None None)) ->
    method 0 (n ← revokeRefresh p at_; mret (n, None)) db = (db', (n, None)) ->
    db_ok db' /\ steps (db_view db) (db_view db') /\
    forall h row, refresh_tokens (tables db) !! h = Some row -> p row = true ->
    (exists row', refresh_tokens (tables db') !! h = Some row' /\ revoked row' = true) /\
    family_revoked (row_family row) (refresh_tokens (tables db')) = true) as Hgen.
  { intros p Hp Hm'. destruct (bulk_revoked _ _ _ _ _ Hok Hm' Hp) as (Hok' & Hst & Hall).
    split; [done|]. split; [done|]. intros h row Hrow Hpr.
    destruct (Hall _ _ Hrow Hpr) as (row' & Hrow' & Hd & Hrev). split; [eauto|].
    apply family_revoked_true. exists h, row'. unfold row_family. by rewrite Hd. }
  destruct sel as [email|[c s]]; apply Hgen; done.
Qed.

(** Ending an account's sessions works under load: when a revocation by email
    or by connector and subject reports success, every refresh token of the
    account that existed when it started, consumed or live, is revoked
    afterwards, whatever interleaved, so none of their families admits a
    further token. *)
Theorem bulk_revocation_complete sel at_ db db' n :
  db_ok db ->
  (match sel with
   | inl email => sqlite_RevokeRefreshByEmail email at_ db
   | inr (connectorID, subject) => sqlite_RevokeRefreshBySubject connectorID subject at_ db
   end) = (db', (n, None)) ->
  db_ok db' /\ steps (db_view db) (db_view db') /\
  forall h row, refresh_tokens (tables db) !! h = Some row ->
    (match sel with
     | inl email => email_matches email row
     | inr (connectorID, subject) => subject_matches connectorID subject row
     end) = true ->
    (exists row', refresh_tokens (tables db') !! h = Some row' /\ revoked row' = true) /\
    family_revoked (row_family row) (refresh_tokens (tables db')) = true.
Proof. apply bulk_revocation. Qed.

Module SqliteSessionsExample.

Definition row1 : TokenRow :=
  mkTokenRow (mkRefresh "" "j" "cli" "google" "1" "A@x.io" "fam" 0 0 9) None None.
Definition db1 : DB := mkDB (set_tokens {["h" := row1]} emptyTables) [].
Definition revoke1 := sqlite_RevokeRefreshByEmail "a@x.io" 5 db1.

Lemma bulk_revocation_complete_witness :
  db_ok revoke1.1 /\ steps (db_view db1) (db_view revoke1.1) /\
  forall h row, refresh_tokens (tables db1) !! h = Some row -> email_matches "a@x.io" row = true ->
    (exists row', refresh_tokens (tables revoke1.1) !! h = Some row' /\ revoked row' = true) /\
    family_revoked (row_family row) (refresh_tokens (tables revoke1.1)) = true.
Proof.
  refine (bulk_revocation_complete (inl "a@x.io") 5 db1 revoke1.1 1 _ _); [constructor|vm_compute; reflexivity].
Defined.

End SqliteSessionsExample.
