(* ===== verification/SqliteFacts.v ===== *)
(** * What the SQLite backend guarantees beyond sessions

    Keypairs: no interleaving of store methods leaves a signer without an active
    keypair, and a retirement is final. Device codes: a decision is taken once,
    on a pending and unexpired code; polling is paced even when polls race.
    Denylist: revoking an integration key and denylisting its jti happen
    together or not at all. *)

From S2P Require Import Prelude GoStrings GoErrors Oidc Keys Sessions Sql Sqlite.

(** ** Keypairs *)

Definition has_active (m : gmap string Keypair) : Prop :=
  exists kid kp, m !! kid = Some kp /\ Retired kp = false.

Definition keys_wf (m : gmap string Keypair) : Prop :=
  forall kid kp, m !! kid = Some kp -> Kid kp = kid.

(** How the keypair table evolves: rows stay, a retirement keeps its instant,
    and an active keypair always remains. *)
Definition keys_rely (t t' : Tables) : Prop :=
  keys_wf (keypairs t) ->
  keys_wf (keypairs t') /\
  (has_active (keypairs t) -> has_active (keypairs t')) /\
  (forall kid kp, keypairs t !! kid = Some kp ->
     exists kp', keypairs t' !! kid = Some kp' /\ CreatedAt kp' = CreatedAt kp /\ PublicPEM kp' = PublicPEM kp /\
       (Retired kp = true -> RetiredAt kp' = RetiredAt kp)).

#[export] Instance keys_rely_preorder : PreOrder keys_rely.
Proof.
  split.
  - intros t Hwf. split; [done|]. split; [done|]. eauto 10.
  - intros t1 t2 t3 H12 H23 Hwf. destruct (H12 Hwf) as (Hwf2 & Ha2 & Hr2).
    destruct (H23 Hwf2) as (Hwf3 & Ha3 & Hr3). split; [done|]. split; [auto|].
    intros kid kp Hk. destruct (Hr2 _ _ Hk) as (kp2 & Hk2 & Hc2 & Hp2 & Hret2).
    destruct (Hr3 _ _ Hk2) as (kp3 & Hk3 & Hc3 & Hp3 & Hret3). exists kp3.
    split; [done|]. split; [congruence|]. split; [congruence|]. intros Hr.
    rewrite <- Hret2 by done. apply Hret3. unfold Retired in *. by rewrite Hret2.
Qed.

Lemma keys_rely_insert t kid kp kp' :
  keypairs t !! kid = Some kp -> Kid kp' = Kid kp -> CreatedAt kp' = CreatedAt kp -> PublicPEM kp' = PublicPEM kp ->
  (Retired kp = true -> RetiredAt kp' = RetiredAt kp) ->
  (keys_wf (keypairs t) -> Retired kp' = false \/ exists k x, k <> kid /\ keypairs t !! k = Some x /\ Retired x = false) ->
  keys_rely t (set_keypairs (<[kid := kp']> (keypairs t)) t).
Proof.
  intros Hk Hkid Hc Hp Hret Hact Hwf. specialize (Hact Hwf). cbn. split; [|split].
  - intros k x [[<- <-]|[? Hx]]%lookup_insert_Some; [rewrite Hkid|]; auto.
  - intros _. destruct Hact as [Ha|(k & x & Hne & Hx & Hrx)].
    + exists kid, kp'. by rewrite lookup_insert_eq.
    + exists k, x. by rewrite lookup_insert_ne.
  - intros k x Hx. destruct (decide (kid = k)) as [<-|Hne].
    + simplify_eq. exists kp'. rewrite lookup_insert_eq. by auto.
    + exists x. rewrite lookup_insert_ne by done. auto.
Qed.

Lemma other_active_true kid m :
  keys_wf m -> other_active kid m = true -> exists k x, k <> kid /\ m !! k = Some x /\ Retired x = false.
Proof.
  intros Hwf. unfold other_active. rewrite existsb_exists. intros (x & [k Hk]%in_snd_map & [H1 H2]%andb_true_iff).
  apply negb_true_iff, String.eqb_neq in H1. apply negb_true_iff in H2. exists k, x.
  by rewrite <- (Hwf _ _ Hk) at 1.
Qed.

Lemma keys_rely_save kp t :
  keypairs t !! Kid kp = None ->
  keys_rely t (set_keypairs (<[Kid kp := mkKeypair (Kid kp) (Alg kp) (PrivatePEM kp) (PublicPEM kp) (CreatedAt kp) None]>
                               (keypairs t)) t).
Proof.
  intros Hn Hwf. cbn. split; [|split].
  - intros k x [[<- <-]|[? Hx]]%lookup_insert_Some; auto.
  - intros _. eexists (Kid kp), _. by rewrite lookup_insert_eq.
  - intros k x Hx. exists x. rewrite lookup_insert_ne by congruence. auto.
Qed.

Lemma keys_rely_retire kid at_ kp t :
  keypairs t !! kid = Some kp -> Retired kp = false -> other_active kid (keypairs t) = true ->
  keys_rely t (set_keypairs (<[kid := set_retired at_ kp]> (keypairs t)) t).
Proof.
  intros Hk Hr Ho. eapply keys_rely_insert; [done..| |].
  - by rewrite Hr.
  - intros Hwf. right. by apply other_active_true.
Qed.

Lemma keys_rely_update kid pem kp t :
  keypairs t !! kid = Some kp -> keys_rely t (set_keypairs (<[kid := set_PrivatePEM kp pem]> (keypairs t)) t).
Proof.
  intros Hk Hwf. cbn. split; [|split].
  - intros k x [[<- <-]|[? Hx]]%lookup_insert_Some; [cbn|]; auto.
  - intros (k & x & Hx & Hr). destruct (decide (kid = k)) as [<-|Hne].
    + simplify_eq. eexists kid, _. by rewrite lookup_insert_eq.
    + exists k, x. by rewrite lookup_insert_ne.
  - intros k x Hx. destruct (decide (kid = k)) as [<-|Hne].
    + simplify_eq. eexists. rewrite lookup_insert_eq. by auto.
    + exists x. rewrite lookup_insert_ne by done. auto.
Qed.

(** C39. An active keypair always remains: every keypair method of the store, its
    statements interleaved in any way with other processes doing the same,
    failing or not, keeps every row and every earlier retirement instant, and
    never takes the table from some active keypair to none, even when two
    processes retire the last two at once. *)
Theorem keypair_methods_keep_active (kid pem : string) (kp : Keypair) (at_ : time) :
  guarantees_all keys_rely (sqlite_SaveKeypair kp) /\
  guarantees_all keys_rely (sqlite_UpdateKeypairPrivatePEM kid pem) /\
  guarantees_all keys_rely (sqlite_RetireKeypair kid at_) /\
  guarantees_all keys_rely sqlite_LoadKeypairs.
Proof.
  split_and!; intros db db' r Hok E; revert Hok E;
    (apply guarantees_method_ || apply guarantees_method); guarantees.
  - unfold sql_insert_keypair. destruct (_ !! _) eqn:E; [done|]. by apply keys_rely_save.
  - unfold sql_update_pem. destruct (_ !! _) eqn:E; [|done]. by apply keys_rely_update.
  - destruct (_ !! _) as [k|] eqn:E; [|done].
    destruct (_ && _) eqn:Ha; [|done]. apply andb_true_iff in Ha as [Hr%negb_true_iff Ho].
    by apply keys_rely_retire.
Qed.

(** ** Polling a device code *)

(** The code's row, while it exists, was last polled at [n] or later and asks
    for at least [i] seconds between polls; [capped]: for no more seconds than
    fit a Duration. *)
Definition polled_since (h : string) (n i : Z) (t : Tables) : Prop :=
  forall dc, device_codes t !! h = Some dc ->
    (exists l, dc_LastPolledAt dc = Some l /\ n <= l) /\ 0 <= i <= dc_IntervalSeconds dc.

Definition capped (h : string) (t : Tables) : Prop :=
  forall dc, device_codes t !! h = Some dc -> dc_IntervalSeconds dc * Second <= int64_max.

Definition poll_rely (h : string) (n i : Z) (t t' : Tables) : Prop :=
  polled_since h n i t -> polled_since h n i t'.

Definition capped_rely (h : string) (t t' : Tables) : Prop := capped h t -> capped h t'.

#[export] Instance poll_rely_preorder h n i : PreOrder (poll_rely h n i).
Proof. split; [by intros t H|intros t1 t2 t3 H1 H2 H; by apply H2, H1]. Qed.

#[export] Instance capped_rely_preorder h : PreOrder (capped_rely h).
Proof. split; [by intros t H|intros t1 t2 t3 H1 H2 H; by apply H2, H1]. Qed.

Lemma well_paced_spec l i now_ :
  0 <= i -> i * Second <= int64_max -> well_paced (Some l) i now_ = true <-> l + i * Second <= now_.
Proof.
  intros Hi Hmax. unfold well_paced. rewrite Z.leb_le. rewrite wrap64_id.
  - apply time_Sub_ge. unfold Second, Microsecond in *. lia.
  - unfold in_int64, int64_min, Second, Microsecond in *. lia.
Qed.

Lemma well_paced_mono l n j i now_ :
  n <= l -> 0 <= i <= j -> j * Second <= int64_max -> well_paced (Some l) j now_ = true ->
  n + i * Second <= now_.
Proof.
  intros Hl Hi Hj Hw. apply well_paced_spec in Hw; [|lia|done]. unfold Second, Microsecond in *. nia.
Qed.

(** What an accepted poll did: at some point between the steps of others the
    row was well paced, and the compare-and-swap stamped it. *)
Lemma poll_accepted (R : relation Tables) `{!PreOrder R} c now_ db db' :
  rely R db -> sqlite_PollDeviceCode c now_ db = (db', (false, None)) ->
  exists t1 t2 t3 dc dc2, R (tables db) t1 /\ device_codes t1 !! Hash c = Some dc /\ R t1 t2 /\
    device_codes t2 !! Hash c = Some dc2 /\ dc_LastPolledAt dc2 = dc_LastPolledAt dc /\
    well_paced (dc_LastPolledAt dc) (dc_IntervalSeconds dc) now_ = true /\
    t3 = set_devices (<[Hash c := set_polled now_ 0 dc2]> (device_codes t2)) t2 /\ R t3 (tables db').
Proof.
  intros Hr. unfold sqlite_PollDeviceCode, method. destruct (@mbind (Q Tables) _ _ _ _ _ db) as [db1 r] eqn:E.
  destruct r as [e|r]; [done|]. intros [= -> ->].
  apply Q_bind_cases in E as [(e & _ & ?)|(dba & row & E & E')]; [done|].
  apply (stmt_run R) in E as (Hra & t1 & Ht1 & [(a & [= ->] & Hc)|([=] & _)]); [|done].
  unfold poll_read in Hc. injection Hc as Hda <-.
  destruct (device_codes t1 !! Hash c) as [dc|] eqn:Hdc; [|done].
  assert (forall dbx, slow_down (Hash c) now_ dbx <> (db', inr (false, None))) as Hslow.
  { intros dbx Hs. unfold slow_down in Hs. apply Q_bind_cases in Hs as [(e & _ & ?)|(? & ? & _ & ?)]; done. }
  destruct (well_paced _ _ now_) eqn:Hw; [|by destruct (Hslow _ E')].
  apply Q_bind_cases in E' as [(e & _ & ?)|(dbb & n & E & E')]; [done|].
  apply (stmt_run R) in E as (Hrb & t2 & Ht2 & [(a & [= ->] & Hc)|([=] & _)]); [|done]. rewrite <- Hda in Ht2.
  apply Q_bind_cases in E' as [(e & _ & ?)|(dbc & n & E & E')]; [done|].
  destruct (after_run R _ _ _ _ _ Hrb E) as (Hrc & Ht3 & [[= ->]|?]); [|done].
  destruct (a =? 1) eqn:Ha; [|by destruct (Hslow _ E')]. injection E' as ->.
  unfold poll_swap in Hc. destruct (device_codes t2 !! Hash c) as [dc2|] eqn:Hdc2;
    [|injection Hc as _ <-; done].
  case_bool_decide as Heq; [|injection Hc as _ <-; done]. injection Hc as Hc _.
  exists t1, t2, (tables dbb), dc, dc2. split_and!; try done.
Qed.

Lemma poll_guarantee c n i now_ : n <= now_ -> guarantees_all (poll_rely (Hash c) n i) (sqlite_PollDeviceCode c now_).
Proof.
  intros Hn. assert (forall t dc bump, device_codes t !! Hash c = Some dc -> 0 <= bump ->
    poll_rely (Hash c) n i t (set_devices (<[Hash c := set_polled now_ bump dc]> (device_codes t)) t)) as Hset.
  { intros t dc bump Hdc Hb Ht dc' Hdc'. cbn in Hdc'. rewrite lookup_insert_eq in Hdc'. injection Hdc' as <-.
    destruct (Ht _ Hdc) as (_ & Hi). cbn. split; [eauto|lia]. }
  intros db1 db2 r1 Hr1 E. revert Hr1 E. apply guarantees_method. unfold slow_down. guarantees.
  - unfold poll_swap. destruct (_ !! _) eqn:Hdc; [|done]. case_bool_decide; [|done]. by apply Hset.
  - unfold poll_slow. destruct (_ !! _) eqn:Hdc; [|done]. by apply Hset.
  - unfold poll_slow. destruct (_ !! _) eqn:Hdc; [|done]. by apply Hset.
Qed.

(** Polling is paced, even when polls race: once a poll at [n] was accepted
    under an interval of [i] seconds, a later one is accepted only a full
    interval after it, however the statements of other polls (none stamped
    before [n], none lowering the interval) interleave with its read and its
    compare-and-swap; and whatever its outcome it keeps that true for the polls
    after it. *)
Theorem poll_paced (c : string) (n i now_ : Z) db db' r :
  rely (both (poll_rely (Hash c) n i) (capped_rely (Hash c))) db ->
  polled_since (Hash c) n i (tables db) -> capped (Hash c) (tables db) -> n <= now_ ->
  sqlite_PollDeviceCode c now_ db = (db', r) ->
  polled_since (Hash c) n i (tables db') /\ (r = (false, None) -> n + i * Second <= now_).
Proof.
  intros Hr Hp Hcap Hn E. split.
  - eapply (poll_guarantee c n i now_ Hn db); [|exact E|done].
    eapply Forall_impl; [exact Hr|]. intros sl Hsl t. by destruct (Hsl t).
  - intros ->. destruct (poll_accepted _ _ _ _ _ Hr E)
      as (t1 & t2 & t3 & dc & dc2 & [H1 H2] & Hdc & _ & _ & _ & Hw & _).
    destruct (H1 Hp _ Hdc) as ((l & Hl & Hnl) & Hi). rewrite Hl in Hw.
    eapply well_paced_mono; [exact Hnl|exact Hi|by apply (H2 Hcap)|done].
Qed.


(** ** Deciding a device code *)

(** The user's decision on a device code. *)
Definition decision (dc : DeviceCode) : option time * option time * Identity :=
  (dc_ApprovedAt dc, dc_DeniedAt dc, mkIdentity (dc_ConnectorID dc) (dc_Subject dc) (dc_Email dc)).

(** The code, while it exists, carries this decision. *)
Definition settled (h : string) (d : option time * option time * Identity) (t : Tables) : Prop :=
  forall dc, device_codes t !! h = Some dc -> decision dc = d /\ is_pending dc = false.

Definition settled_rely h d (t t' : Tables) : Prop := settled h d t -> settled h d t'.

#[export] Instance settled_rely_preorder h d : PreOrder (settled_rely h d).
Proof. split; [by intros t H|intros t1 t2 t3 H1 H2 H; by apply H2, H1]. Qed.

Lemma settled_update h d t h' dc f :
  (forall dc, is_pending (f dc) = is_pending dc /\ decision (f dc) = decision dc) ->
  device_codes t !! h' = Some dc -> settled_rely h d t (set_devices (<[h' := f dc]> (device_codes t)) t).
Proof.
  intros Hf Hdc Hs dc'. cbn. intros [[<- <-]|[_ Hd]]%lookup_insert_Some; [|by apply Hs].
  destruct (Hf dc) as [-> ->]. by apply Hs.
Qed.

Lemma settled_decide h d now_ stamp uc :
  guarantees (settled_rely h d) (decideDeviceCode now_ stamp uc).
Proof.
  unfold decideDeviceCode. guarantees. intros Hs dc. cbn. rewrite lookup_fmap.
  intros (dc0 & Hdc & ->)%fmap_Some. destruct (Hs _ Hdc) as [Hd Hp]. by rewrite Hp, andb_false_r.
Qed.

(** A decision on a device code is final: once the user approved or denied
    it, no approval, denial or poll, interleaved in any way, changes who
    approved it, when, or that it was denied; it can only be consumed. *)
Theorem device_decision_final (h uc c : string) (id : Identity) (now_ : time) d :
  guarantees_all (settled_rely h d) (sqlite_ApproveDeviceCode uc id now_) /\
  guarantees_all (settled_rely h d) (sqlite_DenyDeviceCode uc now_) /\
  guarantees_all (settled_rely h d) (sqlite_PollDeviceCode c now_) /\
  guarantees_all (settled_rely h d) (sqlite_ConsumeDeviceCode c).
Proof.
  split_and!; intros db db' r Hr E; revert Hr E; (apply guarantees_method_ || apply guarantees_method).
  - apply settled_decide.
  - apply settled_decide.
  - unfold slow_down. guarantees.
    + unfold poll_swap. destruct (_ !! _) eqn:Hdc; [|done]. case_bool_decide; [|done]. by apply settled_update.
    + unfold poll_slow. destruct (_ !! _) eqn:Hdc; [|done]. by apply settled_update.
    + unfold poll_slow. destruct (_ !! _) eqn:Hdc; [|done]. by apply settled_update.
  - guarantees. unfold sql_delete_device. destruct (_ !! _) eqn:Hdc; [|done]. intros Hs dc. cbn. intros [_ Hd]%lookup_delete_Some. by apply Hs.
Qed.

Lemma find_user_code_Some uc m dc :
  find_user_code uc m = Some dc -> dc_UserCode dc = uc /\ exists h, m !! h = Some dc.
Proof.
  unfold find_user_code. intros [Hin Hu]%find_some. apply in_snd_map in Hin. by apply String.eqb_eq in Hu.
Qed.

(** An approval that reports success was given to a code that existed,
    unexpired at that moment, and stamped a row with that user code that was
    still pending: never one already decided. *)
Theorem approve_pending_only (R : relation Tables) `{!PreOrder R} uc id now_ db db' :
  rely R db -> sqlite_ApproveDeviceCode uc id now_ db = (db', None) ->
  exists t1 dc1 t2 h dc2,
    R (tables db) t1 /\ (exists h1, device_codes t1 !! h1 = Some dc1) /\ dc_UserCode dc1 = uc /\
    now_ < dc_ExpiresAt dc1 /\
    R t1 t2 /\ device_codes t2 !! h = Some dc2 /\ dc_UserCode dc2 = uc /\ is_pending dc2 = true /\
    exists t3, device_codes t3 !! h = Some (approve_stamp id now_ dc2) /\ R t3 (tables db').
Proof.
  intros Hr. unfold sqlite_ApproveDeviceCode, method_, decideDeviceCode.
  destruct (@mbind (Q Tables) _ _ _ _ _ db) as [db1 r] eqn:E. destruct r as [e|r]; [done|]. intros [= -> ->].
  apply Q_bind_cases in E as [(e & _ & ?)|(dba & exp & E & E')]; [done|].
  apply (stmt_run R) in E as (Hra & t1 & Ht1 & [(a & [= ->] & Hc)|([=] & _)]); [|done].
  injection Hc as Hda <-. destruct (find_user_code uc (device_codes t1)) as [dc1|] eqn:Hf; [|done].
  apply find_user_code_Some in Hf as [Hu [h1 Hh1]]. cbn [option_map] in E'.
  destruct (negb (time_Before _ _)) eqn:Hexp; [done|]. apply negb_false_iff, Z.ltb_lt in Hexp.
  apply Q_bind_cases in E' as [(e & _ & ?)|(dbb & n & E & E')]; [done|].
  apply (stmt_run R) in E as (Hrb & t2 & Ht2 & [(a & [= ->] & Hc)|([=] & _)]); [|done]. rewrite <- Hda in Ht2.
  apply Q_bind_cases in E' as [(e & _ & ?)|(dbc & n & E & E')]; [done|].
  destruct (after_run R _ _ _ _ _ Hrb E) as (Hrc & Ht3 & [[= ->]|?]); [|done].
  destruct (a =? 0) eqn:Ha; [done|]. injection E' as ->. injection Hc as Htb Hn.
  destruct (List.filter _ _) as [|dc2 l] eqn:Hfil; [cbn in Hn; subst a; done|].
  assert (In dc2 (dc2 :: l)) as Hin by (by left). rewrite <- Hfil in Hin.
  apply filter_In in Hin as [[h Hh]%in_snd_map [Hu2%String.eqb_eq Hp]%andb_true_iff].
  exists t1, dc1, t2, h, dc2. split_and!; eauto. exists (tables dbb). split; [|done].
  rewrite <- Htb. cbn. rewrite lookup_fmap, Hh. cbn. unfold user_code_is. by rewrite Hu2, String.eqb_refl, Hp.
Qed.

(** ** Revoking an integration key *)

(** A revoked key's jti is denylisted. *)
Definition denylisted (t : Tables) : Prop :=
  forall id k, integration_keys t !! id = Some k -> ik_RevokedAt k <> None -> is_Some (jti_denylist t !! ik_JTI k).

Definition deny_rely (t t' : Tables) : Prop :=
  (denylisted t -> denylisted t') /\
  (forall j, is_Some (jti_denylist t !! j) -> is_Some (jti_denylist t' !! j)).

#[export] Instance deny_rely_preorder : PreOrder deny_rely.
Proof. split; [by split|]. intros t1 t2 t3 [? ?] [? ?]. split; auto. Qed.

Lemma deny_rely_mark id at_ k t :
  integration_keys t !! id = Some k ->
  deny_rely t (set_denylist (match jti_denylist t !! ik_JTI k with
                             | Some _ => jti_denylist t
                             | None => <[ik_JTI k := at_]> (jti_denylist t)
                             end)
                 (set_ikeys (alter (set_revoked at_) id (integration_keys t)) t)).
Proof.
  intros Hk.
  assert (forall j, is_Some (jti_denylist t !! j) -> is_Some ((match jti_denylist t !! ik_JTI k with
     | Some _ => jti_denylist t | None => <[ik_JTI k := at_]> (jti_denylist t) end) !! j)) as Hm.
  { intros j Hj. destruct (jti_denylist t !! ik_JTI k) eqn:E; [done|]. rewrite lookup_insert_ne; [done|].
    intros <-. rewrite E in Hj. by destruct Hj. }
  split; [|exact Hm]. intros Hd id' k'. cbn. destruct (decide (id = id')) as [<-|Hne].
  - rewrite lookup_alter_eq, Hk. cbn. intros [= <-] _. cbn.
    destruct (jti_denylist t !! ik_JTI k) eqn:E; [by rewrite E|]. by rewrite lookup_insert_eq.
  - rewrite lookup_alter_ne by done. intros Hk' Hr. apply Hm. by eapply Hd.
Qed.

Lemma mark_revoked_atomic id at_ db db' jti e :
  rely deny_rely db -> sqlite_MarkIntegrationKeyRevoked id at_ db = (db', (jti, e)) ->
  deny_rely (tables db) (tables db') /\
  ((exists k, is_Some (jti_denylist (tables db') !! ik_JTI k) /\
      integration_keys (tables db') !! id = Some k /\ ik_RevokedAt k <> None /\
      (e = None /\ jti = ik_JTI k \/ failed e)) \/
   (e <> None /\ tables db' = slot_others (next_slot db) (tables db))).
Proof.
  intros Hr. pose proof (rely_next _ _ Hr) as Hn. unfold sqlite_MarkIntegrationKeyRevoked, method, transaction.
  destruct (@mbind (Q Tables) _ _ _ _ _ db) as [db1 r] eqn:E.
  apply Q_bind_cases in E as [(x & E & ->)|(dba & [] & E & E')]; apply after_outcome in E.
  { intros [= <- _ <-]. rewrite E. split; [done|]. by right. }
  rewrite <- E in *. clear E. apply in_tx_run in E' as [(Ht & Hne & _)|(a & dbq & Hq & Ht & Hres)].
  { destruct r as [x|[a [x|]]]; [| |by destruct (Hne a)]; intros [= <- <- <-]; rewrite Ht;
      (split; [done|]); by right. }
  intros Hout. assert (tables db' = tables dbq /\ (e = None /\ jti = a \/ failed e)) as [Ht' He].
  { destruct Hres as [->| ->]; injection Hout as <- <- <-; (split; [done|]); [by left|right].
    by eexists. }
  clear Hout Hres Ht db1. rewrite Ht'.
  apply Q_bind_cases in Hq as [(x & _ & ?)|(db2 & j & H1 & Hq)]; [done|].
  apply tx_stmt_inr in H1. injection H1 as H1 <-.
  destruct (integration_keys (tables dba) !! id) as [k|] eqn:Hk; [|done]. cbn in Hq.
  apply Q_bind_cases in Hq as [(x & _ & ?)|(db3 & [] & H2 & Hq)]; [done|].
  apply tx_stmt_inr in H2. injection H2 as H2.
  apply Q_bind_cases in Hq as [(x & _ & ?)|(db4 & [] & H3 & Hq)]; [done|].
  apply tx_stmt_inr in H3. injection Hq as <- <-.
  rewrite <- H1 in H2. pose proof (deny_rely_mark id at_ k (tables dba) Hk) as Hd.
  assert (tables db4 = set_denylist (match jti_denylist (tables dba) !! ik_JTI k with
      | Some _ => jti_denylist (tables dba) | None => <[ik_JTI k := at_]> (jti_denylist (tables dba)) end)
      (set_ikeys (alter (set_revoked at_) id (integration_keys (tables dba))) (tables dba))) as H4.
  { rewrite <- H2 in H3. unfold sql_denylist in H3. cbn in H3. destruct (jti_denylist (tables dba) !! ik_JTI k); by injection H3 as <-. }
  rewrite H4. split; [by etrans|]. left. exists (set_revoked at_ k). cbn. split; [|split; [|split]].
  - destruct (jti_denylist (tables dba) !! ik_JTI k) eqn:Hj; [by rewrite Hj|by rewrite lookup_insert_eq].
  - by rewrite lookup_alter_eq, Hk.
  - by destruct (ik_RevokedAt k).
  - done.
Qed.

(** Revoking an integration key is all or nothing: the row is stamped and its
    jti denylisted in one transaction, or, on an unknown id or a failure, the
    call changes nothing (only a commit whose outcome the driver does not know
    may have done both and reported an error); so a key that reads as revoked
    is always denylisted, and success returns the jti that now is. *)
Theorem revoke_key_atomic id at_ db db' jti e :
  rely deny_rely db -> sqlite_MarkIntegrationKeyRevoked id at_ db = (db', (jti, e)) ->
  deny_rely (tables db) (tables db') /\
  ((exists k, is_Some (jti_denylist (tables db') !! ik_JTI k) /\
      integration_keys (tables db') !! id = Some k /\ ik_RevokedAt k <> None /\
      (e = None /\ jti = ik_JTI k \/ failed e)) \/
   (e <> None /\ tables db' = slot_others (next_slot db) (tables db))).
Proof. apply mark_revoked_atomic. Qed.

(** ** Runs *)

Module SqliteExample.

Definition dev : DeviceCode :=
  mkDeviceCode "" "BCDFGHJK" "cli" "openid" "" "" "" None None (Some (100 * Second)) 5 0 (900 * Second).
Definition db_dev : DB := mkDB (set_devices {[Hash "dc" := dev]} emptyTables) [].
Definition poll1 := sqlite_PollDeviceCode "dc" (106 * Second) db_dev.

Lemma dev_row dc : device_codes (tables db_dev) !! Hash "dc" = Some dc -> dc = dev.
Proof. cbn [tables db_dev device_codes set_devices]. rewrite lookup_singleton_eq. by intros [= <-]. Qed.

Lemma poll_paced_witness :
  polled_since (Hash "dc") (100 * Second) 5 (tables poll1.1) /\
  (poll1.2 = (false, None) -> 100 * Second + 5 * Second <= 106 * Second).
Proof.
  refine (poll_paced "dc" (100 * Second) 5 (106 * Second) db_dev poll1.1 poll1.2 _ _ _ _ _).
  - constructor.
  - intros dc ->%dev_row. split; [exists (100 * Second); done|cbn; lia].
  - intros dc ->%dev_row. cbn. unfold Second, Microsecond, int64_max. lia.
  - unfold Second, Microsecond. lia.
  - apply surjective_pairing.
Defined.

Definition approve1 := sqlite_ApproveDeviceCode "BCDFGHJK" (mkIdentity "google" "1" "a@x.io") (200 * Second) db_dev.

Lemma approve_pending_only_witness :
  exists t1 dc1 t2 h dc2,
    eq (tables db_dev) t1 /\ (exists h1, device_codes t1 !! h1 = Some dc1) /\ dc_UserCode dc1 = "BCDFGHJK" /\
    200 * Second < dc_ExpiresAt dc1 /\
    eq t1 t2 /\ device_codes t2 !! h = Some dc2 /\ dc_UserCode dc2 = "BCDFGHJK" /\ is_pending dc2 = true /\
    exists t3, device_codes t3 !! h = Some (approve_stamp (mkIdentity "google" "1" "a@x.io") (200 * Second) dc2) /\
      eq t3 (tables approve1.1).
Proof.
  refine (approve_pending_only eq "BCDFGHJK" (mkIdentity "google" "1" "a@x.io") (200 * Second) db_dev approve1.1 _ _);
    [constructor|vm_compute; reflexivity].
Defined.

Definition key1 : IntegrationKey := mkIntegrationKey "id1" "default" "write" "ci" "jti1" 0 None None.
Definition db_key : DB := mkDB (set_ikeys {["id1" := key1]} emptyTables) [].
Definition mark1 := sqlite_MarkIntegrationKeyRevoked "id1" 7 db_key.

Lemma revoke_key_atomic_witness :
  deny_rely (tables db_key) (tables mark1.1) /\
  ((exists k, is_Some (jti_denylist (tables mark1.1) !! ik_JTI k) /\
      integration_keys (tables mark1.1) !! "id1" = Some k /\ ik_RevokedAt k <> None /\
      (@None error = None /\ "jti1" = ik_JTI k \/ failed None)) \/
   (@None error <> None /\ tables mark1.1 = slot_others (next_slot db_key) (tables db_key))).
Proof.
  refine (revoke_key_atomic "id1" 7 db_key mark1.1 "jti1" None _ _); [constructor|vm_compute; reflexivity].
Defined.

End SqliteExample.
