(* ===== verification/Postgres.v ===== *)
(** * The PostgreSQL backend (state/postgres)

    The same tables as SQLite plus [refresh_families], whose row a rotation
    share-locks and a revocation updates first, and the change notifications a
    transaction queues. A single statement is atomic; a transaction takes the
    locks of the rows it decides on before it reads them, and is modelled as
    isolated (PgLocks.v justifies this for families, the case the code argues).
    The refinement of the session contract is in PostgresSessions.v. *)

From S2P Require Import Prelude GoStrings GoErrors Oidc Keys Sessions Sql Sqlite SqlSessions.

(** keys.Change: what the feed tells the other replicas. *)
Inductive Change := ChangeKeys | ChangeJTIRevoked (jti : string).

Record PgTables := mkPgTables {
  pg_base : Tables;
  (** refresh_families: revoked_at by family_id. *)
  pg_families : gmap string (option time);
  pg_notices : list Change
}.

Abbreviation PgDB := (Database PgTables).

Definition emptyPgDB : PgDB := mkDB (mkPgTables emptyTables ∅ []) [].

Definition set_base b t := mkPgTables b (pg_families t) (pg_notices t).
Definition set_families f t := mkPgTables (pg_base t) f (pg_notices t).

(** A statement on the shared tables. *)
Definition on_base {A} (f : Tables -> Tables * A) (t : PgTables) : PgTables * A :=
  let (b, a) := f (pg_base t) in (set_base b t, a).

(** [notify(ctx, tx, change)]: delivered if the transaction commits. *)
Definition notify (c : Change) : Q PgTables unit :=
  tx_stmt "postgres: notify" (fun t => (mkPgTables (pg_base t) (pg_families t) (pg_notices t ++ [c]), tt)).

(** [s.inTx(ctx, fn)], with the method's message around what fails. *)
Definition inTx {A} (zero : A) (msg : string) (body : Q PgTables (A * option error)) :
    storeOp PgDB (A * option error) :=
  tx_method zero body "postgres: begin" "postgres: commit" msg.

Definition only_error (op : storeOp PgDB (unit * option error)) : storeOp PgDB (option error) := fun db =>
  let (db', r) := op db in (db', snd r).

(** ** Authorization requests and codes (authrequest.go, authcode.go) *)

Definition pg_SaveAuthRequest (ar : AuthRequest) : storeOp PgDB (option error) := method_ (
  dup ← stmt "postgres: save auth request" (on_base (sql_insert_request ar));
  mret (if (dup : bool) then Some (Sentinel ErrDuplicateInternalState) else None)).

Definition pg_ConsumeAuthRequest (st : string) : storeOp PgDB (AuthRequest * option error) :=
  method zeroAuthRequest (
    row ← stmt "postgres: consume auth request" (on_base (sql_delete_request st));
    mret (match row with
          | Some ar => (ar, None)
          | None => (zeroAuthRequest, Some (Sentinel ErrAuthRequestNotFound))
          end)).

Definition pg_SaveAuthCode (ac : AuthCode) : storeOp PgDB (option error) := method_ (
  dup ← stmt "postgres: save auth code" (on_base (sql_insert_code ac));
  mret (if (dup : bool) then Some (Sentinel ErrDuplicateAuthCode) else None)).

Definition pg_ConsumeAuthCode (c familyID : string) (at_ : time) :
    storeOp PgDB (AuthCode * option error) :=
  method zeroAuthCode (
    row ← stmt "postgres: consume auth code" (on_base (sql_consume_code c familyID at_));
    match row with
    | Some ac => mret (with_code c ac, None)
    | None =>
        tomb ← stmt "postgres: look up consumed auth code" (on_base (sql_code_tombstone c));
        mret (code_miss c tomb)
    end).

(** ** Refresh tokens (refresh.go) *)

(** [SELECT revoked_at IS NOT NULL FROM refresh_families ... FOR SHARE]. *)
Definition sql_family_revoked (f : string) (t : PgTables) : PgTables * option bool :=
  (t, option_map (fun r => bool_decide (is_Some r)) (pg_families t !! f)).

(** [INSERT ... ON CONFLICT (family_id) DO NOTHING]. *)
Definition sql_insert_family (f : string) (t : PgTables) : PgTables * unit :=
  (match pg_families t !! f with
   | Some _ => t
   | None => set_families (<[f := None]> (pg_families t)) t
   end, tt).

(** The loop of [lockFamily]: the lock or the insert, then again; [None] when the
    rounds are used up, which PostgresSessions.v shows never happens from two on
    and does not depend on their number: the run is that of the unbounded loop. *)
Fixpoint lockFamily (fuel : nat) (f : string) : Q PgTables (option bool) :=
  match fuel with
  | O => mret None
  | S fuel =>
      r ← tx_stmt "postgres: lock family" (sql_family_revoked f);
      match r with
      | Some b => mret (Some b)
      | None => tx_stmt "postgres: insert family" (sql_insert_family f) ≫= fun _ => lockFamily fuel f
      end
  end.

(** The row is there once this transaction inserted it. *)
Definition lock_rounds : nat := 2.

Definition sql_insert_token (r : Refresh) (t : Tables) : Tables * bool :=
  match refresh_tokens t !! Hash (rt_Token r) with
  | Some _ => (t, true)
  | None =>
      (set_tokens (<[Hash (rt_Token r) := mkTokenRow (with_token "" r) None None]> (refresh_tokens t)) t, false)
  end.

(** Not a failure of the driver: no contract of a store admits it. *)
Definition loop_runs_on : error := StatusError 0 "lockFamily runs on".

Definition save_refresh_tx (r : Refresh) : Q PgTables (unit * option error) :=
  revoked ← lockFamily lock_rounds (rt_FamilyID r);
  match revoked with
  | None => mret (tt, Some loop_runs_on)
  | Some true => mret (tt, Some (Errorf (rt_FamilyID r) (Sentinel ErrRefreshFamilyRevoked)))
  | Some false =>
      dup ← tx_stmt "postgres: insert refresh token" (on_base (sql_insert_token r));
      mret (tt, if (dup : bool) then Some (Sentinel ErrDuplicateRefreshToken) else None)
  end.

Definition pg_SaveRefresh (r : Refresh) : storeOp PgDB (option error) :=
  only_error (inTx tt "postgres: save refresh token" (save_refresh_tx r)).

Definition pg_ConsumeRefresh (token clientID : string) (at_ : time) :
    storeOp PgDB (Refresh * option error) :=
  method zeroRefresh (
    r ← stmt "postgres: consume refresh token" (on_base (sql_consume_refresh token clientID at_));
    match r with
    | Some r => mret (with_token token r, None)
    | None =>
        tomb ← stmt "postgres: look up consumed refresh token" (on_base (sql_refresh_tombstone token clientID));
        mret (refresh_miss token tomb)
    end).

(** [UPDATE refresh_families SET revoked_at = coalesce(revoked_at, $2) WHERE
    family_id = $1]: rows affected. *)
Definition revoke_stamp (at_ : time) (r : option time) : option time :=
  match r with Some x => Some x | None => Some at_ end.

Definition sql_revoke_family (f : string) (at_ : time) (t : PgTables) : PgTables * Z :=
  match pg_families t !! f with
  | Some r => (set_families (<[f := revoke_stamp at_ r]> (pg_families t)) t, 1)
  | None => (t, 0)
  end.

(** [revokeTokens]: stamps every unrevoked token of the families, counts those
    not yet consumed. *)
Definition in_families (fs : list string) (r : TokenRow) : bool := bool_decide (row_family r ∈ fs).

Definition revokeTokens (fs : list string) (at_ : time) : Q PgTables Z :=
  tx_stmt "postgres: revoke tokens" (on_base (fun t =>
    (set_tokens (revoke_where (in_families fs) at_ (refresh_tokens t)) t,
     count_live (in_families fs) (refresh_tokens t)))).

Definition revoke_family_tx (f : string) (at_ : time) : Q PgTables (Z * option error) :=
  n ← tx_stmt "postgres: revoke family" (sql_revoke_family f at_);
  if (n : Z) =? 0 then mret (0, Some (Errorf f (Sentinel ErrSessionNotFound)))
  else live ← revokeTokens [f] at_; mret (live, None).

Definition pg_RevokeRefreshFamily (f : string) (at_ : time) : storeOp PgDB (Z * option error) :=
  inTx 0 "postgres: revoke refresh tokens" (revoke_family_tx f at_).

(** The families with a token matching [p], locked in family_id order, stamped. *)
Definition matching_families (p : TokenRow -> bool) (t : PgTables) : list string :=
  List.filter (fun f => existsb (fun r => in_family f r && p r) (map_to_list (refresh_tokens (pg_base t))).*2)
    (map_to_list (pg_families t)).*1.

Definition sql_revoke_families (p : TokenRow -> bool) (at_ : time) (t : PgTables) : PgTables * list string :=
  let fs := matching_families p t in
  (set_families (map_imap (fun f r => Some (if bool_decide (f ∈ fs) then revoke_stamp at_ r else r))
                   (pg_families t)) t, fs).

Definition revokeFamiliesWhere (p : TokenRow -> bool) (at_ : time) : storeOp PgDB (Z * option error) :=
  inTx 0 "postgres: revoke refresh tokens" (
    families ← tx_stmt "postgres: revoke families" (sql_revoke_families p at_);
    live ← revokeTokens families at_;
    mret (live, None)).

Definition pg_RevokeRefreshByEmail (email : string) (at_ : time) : storeOp PgDB (Z * option error) :=
  revokeFamiliesWhere (email_matches email) at_.

Definition pg_RevokeRefreshBySubject (connectorID subject : string) (at_ : time) : storeOp PgDB (Z * option error) :=
  revokeFamiliesWhere (subject_matches connectorID subject) at_.

Definition pg_ListRefreshSessions (f : RefreshSessionFilter) (now_ : time) :
    storeOp PgDB (list RefreshSession * option error) :=
  method [] (
    rows ← stmt "postgres: list refresh sessions" (fun t =>
      (t, merge_sort session_le
            (refresh_session <$> List.filter (fun r => filter_matches f r && time_After (rt_ExpiresAt (tr_refresh r)) now_)
               (map_to_list (refresh_tokens (pg_base t))).*2)));
    rows ← after "postgres: list refresh sessions" rows;
    mret (rows, None)).

(** ** Device codes (device_codes.go) *)

Definition pg_ErrDuplicateDeviceCode : error := Errorf "postgres duplicate" (Sentinel ErrDuplicateDeviceCode).
Definition pg_ErrDeviceCodeNotFound : error := Errorf "postgres" (Sentinel ErrDeviceCodeNotFound).
Definition pg_ErrDeviceCodeNotPending : error := Errorf "postgres" (Sentinel ErrDeviceCodeNotPending).

Definition pg_SaveDeviceCode (dc : DeviceCode) : storeOp PgDB (option error) := method_ (
  dup ← stmt "postgres: save device code" (on_base (sql_insert_device dc));
  mret (if (dup : bool) then Some pg_ErrDuplicateDeviceCode else None)).

Definition pg_lookupDeviceCode (sel : gmap string DeviceCode -> option DeviceCode) (c : string) :
    storeOp PgDB (DeviceCode * option error) :=
  method zeroDeviceCode (
    row ← stmt "postgres: lookup device code" (fun t => (t, sel (device_codes (pg_base t))));
    mret (match row with
          | None => (zeroDeviceCode, Some pg_ErrDeviceCodeNotFound)
          | Some dc => (with_device_code c dc, None)
          end)).

Definition pg_LookupDeviceCodeByDeviceCode (c : string) : storeOp PgDB (DeviceCode * option error) :=
  pg_lookupDeviceCode (fun m => m !! Hash c) c.

Definition pg_LookupDeviceCodeByUserCode (uc : string) : storeOp PgDB (DeviceCode * option error) :=
  pg_lookupDeviceCode (find_user_code uc) "".

(** [UPDATE device_codes SET last_polled_at = $1, interval_seconds =
    interval_seconds + $2 WHERE device_code_hash = $3]. *)
Definition sql_polled (h : string) (now_ : time) (bump : Z) (t : Tables) : Tables * unit :=
  (match device_codes t !! h with
   | Some dc => set_devices (<[h := set_polled now_ bump dc]> (device_codes t)) t
   | None => t
   end, tt).

Definition pg_PollDeviceCode (c : string) (now_ : time) : storeOp PgDB (bool * option error) :=
  inTx false "postgres: poll device code" (
    row ← tx_stmt "postgres: poll device code" (on_base (poll_read (Hash c)));
    match row with
    | None => mret (false, Some pg_ErrDeviceCodeNotFound)
    | Some (lastPolled, interval) =>
        let slowDown := negb (well_paced lastPolled interval now_) in
        tx_stmt "postgres: poll device code" (on_base (sql_polled (Hash c) now_ (if slowDown then 5 else 0)))
        ≫= fun _ => mret (slowDown, None)
    end).

(** One conditional UPDATE: pending and unexpired. *)
Definition pg_decideDeviceCode (uc : string) (now_ : time) (stamp : DeviceCode -> DeviceCode) : storeOp PgDB (option error) :=
  method_ (
    n ← stmt "postgres: decide device code" (on_base (sql_stamp_devices
          (fun dc => user_code_is uc dc && is_pending dc && time_After (dc_ExpiresAt dc) now_) stamp));
    mret (if (n : Z) =? 0 then Some pg_ErrDeviceCodeNotPending else None)).

Definition pg_ApproveDeviceCode (uc : string) (id : Identity) (now_ : time) : storeOp PgDB (option error) :=
  pg_decideDeviceCode uc now_ (approve_stamp id now_).

Definition pg_DenyDeviceCode (uc : string) (now_ : time) : storeOp PgDB (option error) :=
  pg_decideDeviceCode uc now_ (deny_stamp now_).

Definition pg_ConsumeDeviceCode (c : string) : storeOp PgDB (DeviceCode * option error) :=
  method zeroDeviceCode (
    row ← stmt "postgres: consume device code" (on_base (sql_delete_device c));
    mret (match row with
          | None => (zeroDeviceCode, Some pg_ErrDeviceCodeNotFound)
          | Some dc => (with_device_code c dc, None)
          end)).

(** ** Browser sessions (browser_sessions.go) *)

Definition pg_SaveBrowserSession (bs : BrowserSession) : storeOp PgDB (option error) := method_ (
  dup ← stmt "postgres: save browser session" (on_base (sql_insert_session bs));
  mret (if (dup : bool) then Some (Sentinel ErrDuplicateBrowserSession) else None)).

Definition pg_LookupBrowserSession (sid : string) : storeOp PgDB (BrowserSession * option error) :=
  method zeroBrowserSession (
    row ← stmt "postgres: lookup browser session" (fun t => (t, browser_sessions (pg_base t) !! Hash sid));
    mret (match row with
          | None => (zeroBrowserSession, Some (Sentinel ErrBrowserSessionNotFound))
          | Some bs => (with_sid sid bs, None)
          end)).

Definition pg_DeleteBrowserSession (sid : string) : storeOp PgDB (option error) := method_ (
  stmt "postgres: delete browser session" (on_base (sql_delete_session sid)) ≫= fun _ => mret None).

(** ** Keypairs (keypair.go) *)

Definition pg_SaveKeypair (kp : Keypair) : storeOp PgDB (option error) :=
  only_error (inTx tt "postgres: save keypair" (
    dup ← tx_stmt "postgres: insert keypair" (on_base (sql_insert_keypair kp));
    if (dup : bool) then mret (tt, Some (Errorf (Kid kp) (Sentinel ErrDuplicateKid)))
    else notify ChangeKeys ≫= fun _ => mret (tt, None))).

Definition pg_LoadKeypairs : storeOp PgDB (list Keypair * option error) :=
  method [] (
    rows ← stmt "postgres: load keypairs" (fun t => (t, sortByCreatedAt (map_to_list (keypairs (pg_base t))).*2));
    rows ← after "postgres: load keypairs" rows;
    mret (rows, None)).

Definition pg_UpdateKeypairPrivatePEM (kid pem : string) : storeOp PgDB (option error) :=
  only_error (inTx tt "postgres: update keypair" (
    n ← tx_stmt "postgres: update keypair" (on_base (sql_update_pem kid pem));
    if (n : Z) =? 0 then mret (tt, Some (Opaque "postgres: update keypair: no keypair with this kid"))
    else notify ChangeKeys ≫= fun _ => mret (tt, None))).

(** [SELECT kid FROM keypairs WHERE retired_at IS NULL ORDER BY kid FOR UPDATE]. *)
Definition active_kids (m : gmap string Keypair) : list string :=
  Kid <$> List.filter (fun kp => negb (Retired kp)) (map_to_list m).*2.

Definition sql_retire (kid : string) (at_ : time) (t : Tables) : Tables * unit :=
  (set_keypairs (alter (set_retired at_) kid (keypairs t)) t, tt).

(** The transaction of [RetireKeypair]: whether it stamped the row, and the row
    it then reads. *)
Definition retire_tx (kid : string) (at_ : time) : Q PgTables ((bool * Keypair) * option error) :=
  active ← tx_stmt "postgres: lock keypairs" (fun t => (t, active_kids (keypairs (pg_base t))));
  changed ← (if (1 <? length active)%nat && bool_decide (kid ∈ active)
             then tx_stmt "postgres: retire keypair" (on_base (sql_retire kid at_)) ≫= fun _ =>
                  notify ChangeKeys ≫= fun _ => mret true
             else mret false);
  row ← tx_stmt "postgres: read keypair" (fun t => (t, keypairs (pg_base t) !! kid));
  mret (match row with
        | None => ((changed, zeroKeypair), Some (Errorf kid (Sentinel ErrKeypairNotFound)))
        | Some kp => ((changed, kp), None)
        end).

Definition pg_RetireKeypair (kid : string) (at_ : time) : storeOp PgDB (Keypair * option error) := fun db =>
  let (db', r) := inTx (false, zeroKeypair) "postgres: retire keypair" (retire_tx kid at_) db in
  (db', match r with
        | (_, Some e) => (zeroKeypair, Some e)
        | ((changed, kp), None) =>
            if negb changed && negb (Retired kp)
            then (zeroKeypair, Some (Errorf kid (Sentinel ErrLastActiveKeypair))) else (kp, None)
        end).

(** ** Integration keys and the denylist (integration_keys.go, jti_denylist.go) *)

Definition pg_SaveIntegrationKey (k : IntegrationKey) : storeOp PgDB (option error) := method_ (
  dup ← stmt "postgres: save integration key" (on_base (sql_insert_ikey k));
  mret (if (dup : bool) then Some (Errorf "postgres: save integration key" driver) else None)).

Definition pg_IntegrationKeyByID (id : string) : storeOp PgDB (IntegrationKey * option error) :=
  method zeroIntegrationKey (
    row ← stmt "postgres: integration key by id" (fun t => (t, integration_keys (pg_base t) !! id));
    mret (match row with
          | None => (zeroIntegrationKey, Some (Errorf id (Sentinel ErrIntegrationKeyNotFound)))
          | Some k => (k, None)
          end)).

Definition pg_ListIntegrationKeys (f : ListFilter) : storeOp PgDB (list IntegrationKey * option error) :=
  let limit := if lf_Limit f <=? 0 then defaultListLimit else lf_Limit f in
  method [] (
    rows ← stmt "postgres: list integration keys" (on_base (sql_list_ikeys f limit));
    rows ← after "postgres: list integration keys" rows;
    mret (rows, None)).

(** [UPDATE integration_keys SET revoked_at = coalesce(revoked_at, $1) WHERE id =
    $2 RETURNING jti]. *)
Definition sql_mark_revoked (id : string) (at_ : time) (t : Tables) : Tables * option string :=
  match integration_keys t !! id with
  | Some k => (set_ikeys (<[id := set_revoked at_ k]> (integration_keys t)) t, Some (ik_JTI k))
  | None => (t, None)
  end.

Definition pg_MarkIntegrationKeyRevoked (id : string) (at_ : time) : storeOp PgDB (string * option error) :=
  inTx "" "postgres: mark revoked" (
    jti ← tx_stmt "postgres: mark revoked" (on_base (sql_mark_revoked id at_));
    match jti with
    | None => mret ("", Some (Errorf id (Sentinel ErrIntegrationKeyNotFound)))
    | Some jti =>
        tx_stmt "postgres: denylist" (on_base (sql_denylist jti at_)) ≫= fun _ =>
        notify (ChangeJTIRevoked jti) ≫= fun _ =>
        mret (jti, None)
    end).

Definition pg_IsRevoked (jti : string) : storeOp PgDB (bool * option error) :=
  method false (
    row ← stmt "postgres: is jti revoked"
            (fun t => (t, bool_decide (is_Some (jti_denylist (pg_base t) !! jti))));
    mret (row, None)).

(** ** The interfaces it implements *)

#[export] Instance pg_AuthRequestStore : AuthRequestStore PgDB := { SaveAuthRequest := pg_SaveAuthRequest }.
#[export] Instance pg_CallbackStore : CallbackStore PgDB := {
  ConsumeAuthRequest := pg_ConsumeAuthRequest;
  SaveAuthCode := pg_SaveAuthCode
}.
#[export] Instance pg_TokenStore : TokenStore PgDB := {
  ConsumeAuthCode := pg_ConsumeAuthCode;
  SaveRefresh := pg_SaveRefresh;
  ConsumeRefresh := pg_ConsumeRefresh;
  RevokeRefreshFamily := pg_RevokeRefreshFamily
}.
#[export] Instance pg_DeviceCodeStore : DeviceCodeStore PgDB := {
  SaveDeviceCode := pg_SaveDeviceCode;
  LookupDeviceCodeByDeviceCode := pg_LookupDeviceCodeByDeviceCode;
  LookupDeviceCodeByUserCode := pg_LookupDeviceCodeByUserCode;
  PollDeviceCode := pg_PollDeviceCode;
  ApproveDeviceCode := pg_ApproveDeviceCode;
  DenyDeviceCode := pg_DenyDeviceCode;
  ConsumeDeviceCode := pg_ConsumeDeviceCode
}.
#[export] Instance pg_BrowserSessionStore : BrowserSessionStore PgDB := {
  SaveBrowserSession := pg_SaveBrowserSession;
  LookupBrowserSession := pg_LookupBrowserSession;
  DeleteBrowserSession := pg_DeleteBrowserSession
}.
#[export] Instance pg_KeyStore : KeyStore PgDB := {
  SaveKeypair := pg_SaveKeypair;
  LoadKeypairs := pg_LoadKeypairs;
  RetireKeypair := pg_RetireKeypair
}.
