(* ===== verification/PgReaper.v ===== *)
(** * Reaping expired state in PostgreSQL (state/postgres/reaper.go)

    Each batch is one statement: it picks dead rows that nobody has locked, up to
    the batch size, and deletes them. Which rows are locked, and in which order a
    scan meets the others, is the database's; other requests run between the
    statements. *)

From S2P Require Import Prelude GoStrings GoErrors Oidc Keys Sessions Sql Sqlite SqlSessions Reaper ReaperFacts Postgres.

(** [... FOR UPDATE SKIP LOCKED]: of the rows that qualify, those statement [n]
    of a loop over a table gets, in the order it meets them. *)
Class SkipLocked := {
  unlocked : string -> nat -> list string -> list string;
  unlocked_sub table n l : forall k, k ∈ unlocked table n l -> k ∈ l;
  unlocked_NoDup table n l : NoDup l -> NoDup (unlocked table n l)
}.

(** The rows a batch has deleted, until a batch is not full. *)
Fixpoint batches (fuel : nat) (limit : Z) (statement : nat -> PgTables -> PgTables * Z) (n : nat) (deleted : Z) (db : PgDB) :
    PgDB * (Z * option error) :=
  match fuel with
  | O => (db, (deleted, Some (Opaque "fuel")))
  | S fuel =>
      match stmt "exec" (statement n) db with
      | (db, inl e) => (db, (deleted, Some e))
      | (db, inr k) => if k <? limit then (db, (deleted + k, None)) else batches fuel limit statement (S n) (deleted + k) db
      end
  end.

Section PgSweep.
Context `{SkipLocked}.

(** [DELETE FROM table WHERE key IN (SELECT key FROM table WHERE expires_at < $1
    LIMIT $2 FOR UPDATE SKIP LOCKED)]; for the denylist the deadline is the
    key's expiry and the grace. *)
Definition expired_rows (tb : Table) (now_ : time) (t : Tables) : list string :=
  expired_keys now_ (map_to_list (tb_deadlines tb t)).

Definition reap_batch (tb : Table) (now_ : time) (limit : Z) (n : nat) (t : PgTables) : PgTables * Z :=
  let keys := firstn (Z.to_nat limit) (unlocked (tb_name tb) n (expired_rows tb now_ (pg_base t))) in
  (set_base (drop_keys tb keys (pg_base t)) t, count_keys tb keys (pg_base t)).

(** [NOT (coalesce(t.auth_time <= $3, false) OR ((t.consumed_at IS NOT NULL OR
    t.revoked_at IS NOT NULL) AND t.expires_at < $1))] negated. *)
Definition pg_dead_token (r : Reaper) (now_ : time) (row : TokenRow) : bool :=
  let ended := if 0 <? rp_maxLifetime r then Some (time_Add now_ (- rp_maxLifetime r)) else None in
  match ended with Some e => rt_AuthTime (tr_refresh row) <=? e | None => false end
  || ((consumed row || revoked row) && (rt_ExpiresAt (tr_refresh row) <? now_)).

(** The families no token of which matters. *)
Definition pg_alive_family (r : Reaper) (now_ : time) (m : gmap string TokenRow) (f : string) : bool :=
  existsb (fun kv => in_family f kv.2 && negb (pg_dead_token r now_ kv.2)) (map_to_list m).

Definition pg_dead_families (r : Reaper) (now_ : time) (t : PgTables) : list string :=
  List.filter (fun f => negb (pg_alive_family r now_ (refresh_tokens (pg_base t)) f)) (map_to_list (pg_families t)).*1.

(** [WITH dead AS (...), families AS (DELETE FROM refresh_families ...) DELETE
    FROM refresh_tokens ...]: one statement, which counts tokens. *)
Definition family_batch (r : Reaper) (now_ : time) (n : nat) (t : PgTables) : PgTables * Z :=
  let dead := firstn (Z.to_nat (rp_batch r)) (unlocked "refresh_families" n (pg_dead_families r now_ t)) in
  (set_families (filter (fun kv => bool_decide (kv.1 ∈ dead) = false) (pg_families t)) (set_base (drop_families dead (pg_base t)) t),
   count_families dead (pg_base t)).

Definition pg_reapRefreshFamilies (r : Reaper) (fuel : nat) (now_ : time) (db : PgDB) : PgDB * (Z * option error) :=
  batches fuel (rp_batch r) (family_batch r now_) 0 0 db.

Definition pg_reapTable (r : Reaper) (fuel : nat) (now_ : time) (tb : Table) (db : PgDB) : PgDB * (Z * option error) :=
  batches fuel (rp_batch r) (reap_batch tb now_ (rp_batch r)) 0 0 db.

Definition pg_count_of (table : string) (res : PgDB * (Z * option error)) (counts : list (string * Z)) (errs : list error) :
    PgDB * (list (string * Z) * list error) :=
  let '(db, (n, e)) := res in
  (db, (counts ++ [(table, n)], match e with Some e => errs ++ [Errorf ("postgres: reap " +:+ table) e] | None => errs end)).

Fixpoint pg_reap_tables (r : Reaper) (fuel : nat) (now_ : time) (tbs : list Table) (counts : list (string * Z)) (errs : list error) (db : PgDB) :
    PgDB * (list (string * Z) * list error) :=
  match tbs with
  | [] => (db, (counts, errs))
  | tb :: tbs =>
      let '(db, (counts, errs)) := pg_count_of (tb_name tb) (pg_reapTable r fuel now_ tb db) counts errs in
      pg_reap_tables r fuel now_ tbs counts errs db
  end.

Definition pg_Reap (r : Reaper) (fuel : nat) (now_ : time) (db : PgDB) : PgDB * (list (string * Z) * list error) :=
  let '(db, (counts, errs)) := pg_reap_tables r fuel now_ expiringTables [] [] db in
  let '(db, (counts, errs)) := pg_count_of "refresh_tokens" (pg_reapRefreshFamilies r fuel now_ db) counts errs in
  pg_count_of "jti_denylist" (pg_reapTable r fuel now_ jti_denylist_table db) counts errs.

(** ** What a sweep keeps *)

(** What others do between the statements keeps [I]. *)
Definition undisturbed (I : PgTables -> Prop) (db : PgDB) : Prop :=
  forall s, s ∈ sched db -> forall t, I t -> I (slot_others s t).

Lemma stmt_keeps {A} msg (f : PgTables -> PgTables * A) (I : PgTables -> Prop) db db' r :
  (forall t, I t -> I (f t).1) -> undisturbed I db -> I (tables db) -> stmt msg f db = (db', r) -> I (tables db') /\ undisturbed I db'.
Proof.
  intros Hf Ho Hi. unfold stmt, run_stmt. assert (I (slot_others (next_slot db) (tables db))) as Hi'.
  { unfold next_slot. destruct (sched db) as [|s l] eqn:E; [done|]. apply Ho; [rewrite E; cbn; set_solver|done]. }
  assert (undisturbed I (later (tables db) db)) as Ho'.
  { intros s Hs. apply Ho. unfold later in Hs. cbn in Hs. destruct (sched db); [done|]. set_solver. }
  destruct (slot_outcome (next_slot db)).
  - destruct (f (slot_others (next_slot db) (tables db))) as [t' a] eqn:E. intros [= <- <-].
    split; [|exact Ho']. specialize (Hf _ Hi'). by rewrite E in Hf.
  - intros [= <- <-]. split; [done|exact Ho'].
  - intros [= <- <-]. split; [by apply Hf|exact Ho'].
Qed.

Lemma batches_keep (I : PgTables -> Prop) limit statement fuel n deleted db db' r :
  (forall n t, I t -> I (statement n t).1) -> undisturbed I db -> I (tables db) ->
  batches fuel limit statement n deleted db = (db', r) -> I (tables db') /\ undisturbed I db'.
Proof.
  intros Hf. revert n deleted db. induction fuel as [|fuel IH]; intros n deleted db Ho Hi; cbn [batches]; [by intros [= <- <-]|].
  destruct (stmt "exec" (statement n) db) as [db1 [e|k]] eqn:E; destruct (stmt_keeps _ _ I _ _ _ (Hf n) Ho Hi E) as [Hi1 Ho1].
  - by intros [= <- <-].
  - destruct (k <? limit); [by intros [= <- <-]|]. by apply IH.
Qed.

(** A sweep keeps what all its statements keep. *)
Lemma pg_Reap_keeps (I : PgTables -> Prop) r fuel now_ db :
  (forall tb n t, tb ∈ jti_denylist_table :: expiringTables -> I t -> I (reap_batch tb now_ (rp_batch r) n t).1) ->
  (forall n t, I t -> I (family_batch r now_ n t).1) ->
  undisturbed I db -> I (tables db) -> I (tables (pg_Reap r fuel now_ db).1).
Proof.
  intros Ht Hf Ho Hi.
  assert (forall tbs counts errs db db' x, (forall tb, tb ∈ tbs -> tb ∈ jti_denylist_table :: expiringTables) -> undisturbed I db -> I (tables db) ->
    pg_reap_tables r fuel now_ tbs counts errs db = (db', x) -> I (tables db') /\ undisturbed I db') as Htbs.
  { induction tbs as [|tb tbs IH]; intros counts errs db0 db' x Hin Ho0 Hi0; cbn [pg_reap_tables]; [by intros [= <- <-]|].
    destruct (pg_reapTable r fuel now_ tb db0) as [db1 [k e]] eqn:E. cbn [pg_count_of].
    destruct (batches_keep I _ _ _ _ _ _ _ _ (fun n t => Ht tb n t (Hin tb (proj2 (elem_of_cons _ _ _) (or_introl eq_refl)))) Ho0 Hi0 E) as [Hi1 Ho1].
    apply IH; [|done..]. intros tb' Hin'. apply Hin, elem_of_cons. by right. }
  unfold pg_Reap. destruct (pg_reap_tables r fuel now_ expiringTables [] [] db) as [db1 [counts errs]] eqn:E1.
  destruct (Htbs _ _ _ _ _ _ (fun tb Hin => proj2 (elem_of_cons _ _ _) (or_intror Hin)) Ho Hi E1) as [Hi1 Ho1].
  destruct (pg_reapRefreshFamilies r fuel now_ db1) as [db2 [k2 e2]] eqn:E2. cbn [pg_count_of].
  destruct (batches_keep I _ _ _ _ _ _ _ _ Hf Ho1 Hi1 E2) as [Hi2 Ho2].
  destruct (pg_reapTable r fuel now_ jti_denylist_table db2) as [db3 [k3 e3]] eqn:E3. cbn [pg_count_of fst].
  by destruct (batches_keep I _ _ _ _ _ _ _ _ (fun n t => Ht _ n t (proj2 (elem_of_cons _ _ _) (or_introl eq_refl))) Ho2 Hi2 E3).
Qed.

(** The row [k] of a table is there, with its deadline. *)
Definition holds_row (tb : Table) (k : string) (e : time) (t : PgTables) : Prop := tb_deadlines tb (pg_base t) !! k = Some e.

(** The token [k] is there, and one of its family, and the family itself. *)
Definition holds_family (k : string) (row : TokenRow) (k' : string) (row' : TokenRow) (t : PgTables) : Prop :=
  refresh_tokens (pg_base t) !! k = Some row /\ refresh_tokens (pg_base t) !! k' = Some row' /\ is_Some (pg_families t !! row_family row).

Lemma five_tables (P : Table -> Prop) :
  P auth_requests_table -> P auth_codes_table -> P device_codes_table -> P browser_sessions_table -> P jti_denylist_table ->
  forall tb, tb ∈ jti_denylist_table :: expiringTables -> P tb.
Proof.
  intros H1 H2 H3 H4 H5 tb Hin. unfold expiringTables in Hin. rewrite !elem_of_cons, elem_of_nil in Hin.
  by destruct Hin as [->|[->|[->|[->|[->|[]]]]]].
Qed.

Lemma elem_of_take_sub {A} (x : A) n l : x ∈ take n l -> x ∈ l.
Proof. intros (i & Hi & _)%elem_of_take. by eapply list_elem_of_lookup_2. Qed.

Lemma picked_expired tb now_ limit n t k :
  k ∈ take limit (unlocked (tb_name tb) n (expired_rows tb now_ t)) -> exists e, tb_deadlines tb t !! k = Some e /\ e < now_.
Proof.
  intros Hk%elem_of_take_sub%unlocked_sub. unfold expired_rows in Hk. apply elem_expired_keys in Hk as (e & Hin & He).
  exists e. split; [by apply elem_of_map_to_list|]. unfold time_After in He. by apply Z.ltb_lt in He.
Qed.

(** The deadlines of a table after a deletion from one. *)
Lemma deadlines_drop tb tb' keys t :
  tb ∈ jti_denylist_table :: expiringTables -> tb' ∈ jti_denylist_table :: expiringTables ->
  tb_deadlines tb (drop_keys tb' keys t) = tb_deadlines tb t \/
  tb' = tb /\ forall k, k ∉ keys -> tb_deadlines tb (drop_keys tb' keys t) !! k = tb_deadlines tb t !! k.
Proof.
  assert (forall tb0, TableLaws tb0 -> tb0 = tb0 /\ forall k, k ∉ keys -> tb_deadlines tb0 (drop_keys tb0 keys t) !! k = tb_deadlines tb0 t !! k) as Hown.
  { intros tb0 Hl. split; [done|]. intros k Hk. unfold drop_keys. rewrite deadlines_keep, keep_rows_lookup. by rewrite bool_decide_eq_false_2. }
  intros Htb Htb'. refine (five_tables (fun tb => _) _ _ _ _ _ tb Htb); refine (five_tables (fun tb' => _) _ _ _ _ _ tb' Htb');
    try (left; done); right; apply Hown; apply _.
Qed.

Lemma batch_keeps_row tb tb' now_ limit n t k e :
  tb ∈ jti_denylist_table :: expiringTables -> tb' ∈ jti_denylist_table :: expiringTables -> now_ <= e ->
  holds_row tb k e t -> holds_row tb k e (reap_batch tb' now_ limit n t).1.
Proof.
  intros Htb Htb' He Hr. unfold holds_row, reap_batch in *. cbn [fst pg_base set_base].
  set (keys := take _ _). destruct (deadlines_drop tb tb' keys (pg_base t) Htb Htb') as [->|[-> Hk]]; [done|]. rewrite Hk; [done|].
  intros (e' & He' & Hlt)%picked_expired. rewrite Hr in He'. injection He' as <-. lia.
Qed.

Lemma families_keep_row tb r now_ n t k e :
  tb ∈ jti_denylist_table :: expiringTables -> holds_row tb k e t -> holds_row tb k e (family_batch r now_ n t).1.
Proof. intros Htb. by refine (five_tables (fun tb => _) _ _ _ _ _ tb Htb). Qed.

Lemma tables_keep_family tb now_ limit n t k row k' row' :
  tb ∈ jti_denylist_table :: expiringTables -> holds_family k row k' row' t -> holds_family k row k' row' (reap_batch tb now_ limit n t).1.
Proof. intros Htb. by refine (five_tables (fun tb => _) _ _ _ _ _ tb Htb). Qed.

Lemma family_kept r now_ n t k row k' row' :
  row_family row = row_family row' -> pg_dead_token r now_ row' = false ->
  holds_family k row k' row' t -> holds_family k row k' row' (family_batch r now_ n t).1.
Proof.
  intros Hf Hd (Hk & Hk' & Hfam). unfold family_batch. cbn [fst]. set (dead := take _ _). assert (row_family row ∉ dead) as Hnot.
  { intros Hin%elem_of_take_sub%unlocked_sub. unfold pg_dead_families in Hin. rewrite list_elem_of_In, filter_In in Hin. destruct Hin as [_ Hin].
    apply negb_true_iff, not_true_iff_false in Hin. apply Hin. unfold pg_alive_family. apply existsb_exists. exists (k', row').
    split; [by apply list_elem_of_In, elem_of_map_to_list|]. cbn [snd]. rewrite Hd. unfold in_family. by rewrite Hf, String.eqb_refl. }
  unfold holds_family. cbn. rewrite !map_lookup_filter_Some. cbn. split_and!; try done.
  - by apply bool_decide_eq_false_2.
  - apply bool_decide_eq_false_2. by rewrite <- Hf.
  - destruct Hfam as [v Hv]. exists v. apply map_lookup_filter_Some. split; [done|]. by apply bool_decide_eq_false_2.
Qed.

(** C27. The PostgreSQL sweeps of any number of replicas delete dead state only.
    Whatever else runs between its batches, whichever rows are locked and
    whichever statement fails, a sweep leaves in place a row whose deadline has
    not passed, and every token, rotated ones included, of a family some token
    of which still matters, as long as nobody else takes them. *)
Theorem pg_sweep_spares r fuel now_ (db : PgDB) :
  (forall tb k e, tb ∈ jti_denylist_table :: expiringTables -> now_ <= e -> undisturbed (holds_row tb k e) db ->
     holds_row tb k e (tables db) -> holds_row tb k e (tables (pg_Reap r fuel now_ db).1)) /\
  (forall k row k' row', row_family row = row_family row' -> pg_dead_token r now_ row' = false -> undisturbed (holds_family k row k' row') db ->
     holds_family k row k' row' (tables db) -> holds_family k row k' row' (tables (pg_Reap r fuel now_ db).1)).
Proof.
  split.
  - intros tb k e Htb He Ho Hr. apply pg_Reap_keeps; [|by intros; apply families_keep_row|done..]. intros. by apply batch_keeps_row.
  - intros k row k' row' Hf Hd Ho Hh. apply pg_Reap_keeps; [by intros; apply tables_keep_family|by intros; apply family_kept|done..].
Qed.

(** ** What a sweep leaves *)

(** Run alone, the loop ends in a state its last, partial batch leaves. *)
Lemma batches_run (J D : PgTables -> Prop) (weight : PgTables -> nat) limit statement :
  (forall n t, J t -> J (statement n t).1) ->
  (forall n t, J t -> (statement n t).2 < limit -> D (statement n t).1) ->
  (forall n t, J t -> limit <= (statement n t).2 -> (weight (statement n t).1 < weight t)%nat) ->
  forall fuel n deleted t, J t -> (weight t < fuel)%nat ->
  exists t' d, batches fuel limit statement n deleted (mkDB t []) = (mkDB t' [], (d, None)) /\ J t' /\ D t'.
Proof.
  intros HJ HD Hw. induction fuel as [|fuel IH]; intros n deleted t Ht Hf; [lia|]. cbn [batches]. rewrite stmt_quiet.
  destruct (Z.ltb_spec (statement n t).2 limit) as [Hlt|Hge].
  - do 2 eexists. split; [reflexivity|]. split; [by apply HJ|by apply HD].
  - apply IH; [by apply HJ|]. specialize (Hw n t Ht Hge). lia.
Qed.

(** Distinct keys of a table are that many rows of it. *)
Lemma distinct_counted {A} (keys : list string) (f : A -> string) (l : list A) :
  NoDup keys -> (forall k, k ∈ keys -> exists x, x ∈ l /\ f x = k) ->
  (length keys <= length (List.filter (fun x => bool_decide (f x ∈ keys)) l))%nat.
Proof.
  intros Hnd Hin. rewrite <- (length_map f). apply submseteq_length, NoDup_submseteq; [done|]. intros k Hk.
  destruct (Hin k Hk) as (x & Hx & <-). apply list_elem_of_fmap. exists x. split; [done|]. apply list_elem_of_In, filter_In.
  split; [by apply list_elem_of_In|by apply bool_decide_eq_true_2].
Qed.

(** Nothing else runs, and no row is locked. *)
Context (all_free : forall table n l, unlocked table n l ≡ₚ l).

Definition swept_clean (now_ : time) (tb : Table) (t : PgTables) : Prop :=
  forall k e, tb_deadlines tb (pg_base t) !! k = Some e -> now_ <= e.

(** Every family has a token. *)
Definition families_inhabited (t : PgTables) : Prop :=
  forall f, is_Some (pg_families t !! f) -> exists k row, refresh_tokens (pg_base t) !! k = Some row /\ row_family row = f.

(** A loop's fuel exceeds the rows it may meet. *)
Definition fits (fuel : nat) (t : PgTables) : Prop :=
  (forall tb, tb ∈ jti_denylist_table :: expiringTables -> (size (tb_deadlines tb (pg_base t)) < fuel)%nat) /\
  (size (refresh_tokens (pg_base t)) < fuel)%nat /\ families_inhabited t.

Lemma table_laws_of tb : tb ∈ jti_denylist_table :: expiringTables -> TableLaws tb.
Proof. intros Htb. refine (five_tables TableLaws _ _ _ _ _ tb Htb); apply _. Qed.

Lemma NoDup_filter_fst {A} (p : string * A -> bool) (m : gmap string A) : NoDup (List.filter p (map_to_list m)).*1.
Proof.
  pose proof (NoDup_fst_map_to_list m) as Hnd. induction (map_to_list m) as [|kv l IH]; [constructor|].
  cbn in Hnd. apply NoDup_cons in Hnd as [Hn Hnd]. cbn. destruct (p kv); [|by apply IH]. cbn. apply NoDup_cons. split; [|by apply IH].
  intros (x & Ex & Hx)%list_elem_of_fmap. apply Hn. rewrite Ex. apply list_elem_of_fmap. exists x. split; [done|].
  apply list_elem_of_In, filter_In in Hx as [Hx _]. by apply list_elem_of_In.
Qed.

Lemma take_all_or {A} (limit : Z) (l : list A) : Z.of_nat (length (take (Z.to_nat limit) l)) < limit -> take (Z.to_nat limit) l = l.
Proof. intros Hl. apply take_ge. rewrite length_take in Hl. lia. Qed.

(** A partial batch of a table was its last. *)
Lemma table_batch_done tb now_ limit n t :
  tb ∈ jti_denylist_table :: expiringTables -> (reap_batch tb now_ limit n t).2 < limit -> swept_clean now_ tb (reap_batch tb now_ limit n t).1.
Proof.
  intros Htb. pose proof (table_laws_of tb Htb). unfold reap_batch. cbn [fst snd]. set (l := unlocked _ _ _). set (keys := take _ l).
  assert (NoDup keys) as Hnd. { apply sublist_NoDup with l; [apply unlocked_NoDup, NoDup_filter_fst|apply sublist_take]. }
  intros Hlt. assert (keys = l) as El.
  { apply take_all_or. fold keys. enough (Z.of_nat (length keys) <= count_keys tb keys (pg_base t)) by lia. unfold count_keys.
    apply inj_le, (distinct_counted keys fst); [done|]. intros k (e & He & _)%picked_expired. exists (k, e). split; [by apply elem_of_map_to_list|done]. }
  intros k e. cbn [pg_base set_base]. unfold drop_keys. rewrite deadlines_keep, keep_rows_lookup. case_bool_decide as Hk; [done|]. cbn [negb]. intros He.
  destruct (Z.le_gt_cases now_ e) as [|Hlate]; [done|]. destruct Hk. rewrite El. subst l. rewrite all_free. unfold expired_rows.
  apply elem_expired_keys. exists e. split; [by apply elem_of_map_to_list|]. by apply Z.ltb_lt.
Qed.

(** A full batch makes progress. *)
Lemma table_batch_shrinks tb now_ limit n t :
  tb ∈ jti_denylist_table :: expiringTables -> 0 < limit -> limit <= (reap_batch tb now_ limit n t).2 ->
  (size (tb_deadlines tb (pg_base (reap_batch tb now_ limit n t).1)) < size (tb_deadlines tb (pg_base t)))%nat.
Proof.
  intros Htb Hl. pose proof (table_laws_of tb Htb). unfold reap_batch. cbn [fst snd pg_base set_base]. rewrite (count_keys_deleted tb) by done. unfold deleted_rows. lia.
Qed.

Lemma elem_pg_dead_families r now_ t f :
  f ∈ pg_dead_families r now_ t <->
  is_Some (pg_families t !! f) /\ forall k row, refresh_tokens (pg_base t) !! k = Some row -> row_family row = f -> pg_dead_token r now_ row = true.
Proof.
  unfold pg_dead_families. rewrite list_elem_of_In, filter_In, <- list_elem_of_In, negb_true_iff. f_equiv.
  - rewrite list_elem_of_fmap. split; [|by intros [v Hv]; exists (f, v); rewrite elem_of_map_to_list].
    intros ([k v] & -> & Hv%elem_of_map_to_list). by exists v.
  - unfold pg_alive_family, in_family. rewrite <- not_true_iff_false, existsb_exists. split.
    + intros Hn k row Hk Hf. destruct (pg_dead_token r now_ row) eqn:E; [done|]. destruct Hn. exists (k, row).
      cbn [snd]. rewrite E, Hf, String.eqb_refl, <- list_elem_of_In, elem_of_map_to_list. done.
    + intros Hd ([k row] & Hk & [Hf%String.eqb_eq Hnd%negb_true_iff]%andb_true_iff). apply list_elem_of_In, elem_of_map_to_list in Hk.
      cbn [snd] in *. by rewrite (Hd k row Hk Hf) in Hnd.
Qed.

Lemma family_batch_tokens r now_ n t k :
  refresh_tokens (pg_base (family_batch r now_ n t).1) !! k =
  row ← refresh_tokens (pg_base t) !! k;
  if bool_decide (row_family row ∈ take (Z.to_nat (rp_batch r)) (unlocked "refresh_families" n (pg_dead_families r now_ t))) then None else Some row.
Proof.
  unfold family_batch. cbn. rewrite map_lookup_filter. destruct (refresh_tokens (pg_base t) !! k) as [row|]; [|done]. cbn.
  by case_bool_decide.
Qed.

Lemma family_batch_families r now_ n t f :
  is_Some (pg_families (family_batch r now_ n t).1 !! f) <->
  is_Some (pg_families t !! f) /\ f ∉ take (Z.to_nat (rp_batch r)) (unlocked "refresh_families" n (pg_dead_families r now_ t)).
Proof.
  unfold family_batch. cbn. unfold is_Some. setoid_rewrite map_lookup_filter_Some. cbn. setoid_rewrite bool_decide_eq_false. naive_solver.
Qed.

Lemma family_batch_shrinks r now_ n t :
  0 < rp_batch r -> rp_batch r <= (family_batch r now_ n t).2 ->
  (size (refresh_tokens (pg_base (family_batch r now_ n t).1)) < size (refresh_tokens (pg_base t)))%nat.
Proof. intros Hb. unfold family_batch, count_families, drop_families. cbn. rewrite count_filter. lia. Qed.

Lemma family_batch_done r now_ n t :
  families_inhabited t -> (family_batch r now_ n t).2 < rp_batch r -> pg_dead_families r now_ (family_batch r now_ n t).1 = [].
Proof.
  intros Hi Hlt. set (l := unlocked "refresh_families" n (pg_dead_families r now_ t)). set (dead := take (Z.to_nat (rp_batch r)) l).
  assert (NoDup dead) as Hnd.
  { apply sublist_NoDup with l; [|apply sublist_take]. apply unlocked_NoDup. apply NoDup_ListNoDup, List.NoDup_filter, NoDup_ListNoDup, NoDup_fst_map_to_list. }
  assert (dead = l) as El.
  { apply take_all_or. fold dead. enough (Z.of_nat (length dead) <= (family_batch r now_ n t).2) by lia. unfold family_batch, count_families.
    apply inj_le, (distinct_counted dead (fun kv => row_family kv.2)); [done|]. intros f Hf%elem_of_take_sub%unlocked_sub.
    apply elem_pg_dead_families in Hf as [(k & row & Hk & <-)%Hi _]. exists (k, row). by rewrite elem_of_map_to_list. }
  apply elem_of_nil_inv. intros f Hf. apply elem_pg_dead_families in Hf as [[Hfam Hnot]%family_batch_families Hdead].
  apply Hnot. fold l dead. rewrite El. subst l. rewrite all_free. apply elem_pg_dead_families. split; [done|]. intros k row Hk Hf.
  apply (Hdead k row); [|done]. rewrite family_batch_tokens, Hk. cbn. rewrite bool_decide_eq_false_2; [done|]. by rewrite Hf.
Qed.

(** ** The sweep as a whole *)

(** Deletions keep what a deletion has achieved, and the fuel sufficient. *)
Lemma deadlines_shrink tb tb' keys t :
  tb ∈ jti_denylist_table :: expiringTables -> tb' ∈ jti_denylist_table :: expiringTables ->
  tb_deadlines tb (drop_keys tb' keys t) ⊆ tb_deadlines tb t.
Proof.
  intros Htb Htb'. destruct (deadlines_drop tb tb' keys t Htb Htb') as [->|[-> _]]; [done|]. pose proof (table_laws_of tb Htb).
  unfold drop_keys. rewrite (deadlines_keep). apply map_filter_subseteq.
Qed.

Lemma reap_batch_fits fuel tb now_ limit n t :
  tb ∈ jti_denylist_table :: expiringTables -> fits fuel t -> fits fuel (reap_batch tb now_ limit n t).1.
Proof.
  intros Htb (Hs & Hrest). split.
  - intros tb' Htb'. eapply Nat.le_lt_trans; [|exact (Hs tb' Htb')]. apply map_subseteq_size. by apply deadlines_shrink.
  - revert Hrest. by refine (five_tables (fun tb => _) _ _ _ _ _ tb Htb).
Qed.

Lemma family_batch_fits fuel r now_ n t : fits fuel t -> fits fuel (family_batch r now_ n t).1.
Proof.
  intros (Hs & Ht & Hi). split_and!.
  - intros tb Htb. specialize (Hs tb Htb). revert Hs. by refine (five_tables (fun tb => _) _ _ _ _ _ tb Htb).
  - eapply Nat.le_lt_trans; [|exact Ht]. apply map_subseteq_size. unfold family_batch. cbn. apply map_filter_subseteq.
  - intros f [(k & row & Hk & Hf)%Hi Hn]%family_batch_families. exists k, row. split; [|done].
    rewrite family_batch_tokens, Hk. cbn. rewrite bool_decide_eq_false_2; [done|]. by rewrite Hf.
Qed.

Lemma reap_batch_clean tb tb' now_ limit n t :
  tb ∈ jti_denylist_table :: expiringTables -> tb' ∈ jti_denylist_table :: expiringTables ->
  swept_clean now_ tb t -> swept_clean now_ tb (reap_batch tb' now_ limit n t).1.
Proof. intros Htb Htb' Hc k e He. apply (Hc k e). eapply lookup_weaken; [exact He|]. by apply deadlines_shrink. Qed.

Lemma family_batch_clean tb r now_ n t :
  tb ∈ jti_denylist_table :: expiringTables -> swept_clean now_ tb t -> swept_clean now_ tb (family_batch r now_ n t).1.
Proof. intros Htb. by refine (five_tables (fun tb => _) _ _ _ _ _ tb Htb). Qed.

(** One table's loop, and the families', run alone. *)
Lemma pg_reapTable_run (J : PgTables -> Prop) r fuel now_ tb t :
  0 < rp_batch r -> tb ∈ jti_denylist_table :: expiringTables -> fits fuel t -> J t ->
  (forall n t, J t -> J (reap_batch tb now_ (rp_batch r) n t).1) ->
  exists t' d, pg_reapTable r fuel now_ tb (mkDB t []) = (mkDB t' [], (d, None)) /\ fits fuel t' /\ J t' /\ swept_clean now_ tb t'.
Proof.
  intros Hb Htb Hf Hj HJ.
  destruct (batches_run (fun t => fits fuel t /\ J t) (swept_clean now_ tb) (fun t => size (tb_deadlines tb (pg_base t)))
    (rp_batch r) (reap_batch tb now_ (rp_batch r))) with (fuel := fuel) (n := 0%nat) (deleted := 0) (t := t) as (t' & d & E & [? ?] & ?).
  - intros n t0 [? ?]. split; [by apply reap_batch_fits|by apply HJ].
  - intros n t0 _. by apply table_batch_done.
  - intros n t0 _. by apply table_batch_shrinks.
  - done.
  - by apply Hf.
  - by exists t', d.
Qed.

Lemma pg_reapRefreshFamilies_run (J : PgTables -> Prop) r fuel now_ t :
  0 < rp_batch r -> fits fuel t -> J t -> (forall n t, J t -> J (family_batch r now_ n t).1) ->
  exists t' d, pg_reapRefreshFamilies r fuel now_ (mkDB t []) = (mkDB t' [], (d, None)) /\ fits fuel t' /\ J t' /\ pg_dead_families r now_ t' = [].
Proof.
  intros Hb Hf Hj HJ.
  destruct (batches_run (fun t => fits fuel t /\ J t) (fun t => pg_dead_families r now_ t = []) (fun t => size (refresh_tokens (pg_base t)))
    (rp_batch r) (family_batch r now_)) with (fuel := fuel) (n := 0%nat) (deleted := 0) (t := t) as (t' & d & E & [? ?] & ?).
  - intros n t0 [? ?]. split; [by apply family_batch_fits|by apply HJ].
  - intros n t0 [[_ [_ ?]] _]. by apply family_batch_done.
  - intros n t0 _. by apply family_batch_shrinks.
  - done.
  - by apply Hf.
  - by exists t', d.
Qed.

Lemma pg_reap_tables_run r fuel now_ tbs swept : forall counts t,
  0 < rp_batch r -> swept ++ tbs ⊆ jti_denylist_table :: expiringTables -> fits fuel t -> Forall (fun tb => swept_clean now_ tb t) swept ->
  exists t' counts', pg_reap_tables r fuel now_ tbs counts [] (mkDB t []) = (mkDB t' [], (counts', [])) /\
    fits fuel t' /\ Forall (fun tb => swept_clean now_ tb t') (swept ++ tbs).
Proof.
  revert swept. induction tbs as [|tb tbs IH]; intros swept counts t Hb Hsub Hf Hc; cbn [pg_reap_tables].
  - do 2 eexists. by rewrite app_nil_r.
  - assert (tb ∈ jti_denylist_table :: expiringTables) as Htb by (apply Hsub; set_solver).
    destruct (pg_reapTable_run (fun t => Forall (fun tb => swept_clean now_ tb t) swept) r fuel now_ tb t Hb Htb Hf Hc) as (t1 & d & -> & Hf1 & Hc1 & Hd).
    { intros n t0. rewrite !Forall_forall. intros Hall tb0 Htb0. apply reap_batch_clean; [apply Hsub; set_solver|done|by apply Hall]. }
    cbn [pg_count_of]. destruct (IH (swept ++ [tb]) (counts ++ [(tb_name tb, d)]) t1 Hb) as (t2 & c2 & E2 & Hf2 & Hc2).
    + by rewrite <- app_assoc.
    + done.
    + apply Forall_app. split; [done|]. by apply Forall_singleton.
    + exists t2, c2. split_and!; [done..|]. by rewrite <- app_assoc in Hc2.
Qed.

(** C28. Run while nothing else does, a PostgreSQL sweep finishes, reports no
    error, and leaves nothing dead: no row past its deadline in any of the five
    tables, no refresh-token family none of whose tokens matters. The loops end
    as every full batch deletes a row; a batch of refresh tokens counts tokens,
    of which every family has one. *)
Theorem pg_sweep_complete r fuel now_ t :
  0 < rp_batch r -> fits fuel t ->
  exists t' counts, pg_Reap r fuel now_ (mkDB t []) = (mkDB t' [], (counts, [])) /\
    (forall tb, tb ∈ jti_denylist_table :: expiringTables -> swept_clean now_ tb t') /\ pg_dead_families r now_ t' = [].
Proof.
  intros Hb Hf. unfold pg_Reap.
  destruct (pg_reap_tables_run r fuel now_ expiringTables [] [] t Hb) as (t1 & c1 & -> & Hf1 & Hc1); [set_solver|done|done|]. cbn [app] in Hc1.
  destruct (pg_reapRefreshFamilies_run (fun t => Forall (fun tb => swept_clean now_ tb t) expiringTables) r fuel now_ t1 Hb Hf1 Hc1)
    as (t2 & d2 & -> & Hf2 & Hc2 & Hd2).
  { intros n t0. rewrite !Forall_forall. intros Hall tb Htb. apply family_batch_clean; [set_solver|by apply Hall]. }
  cbn [pg_count_of]. destruct (pg_reapTable_run (fun t => Forall (fun tb => swept_clean now_ tb t) expiringTables /\ pg_dead_families r now_ t = [])
    r fuel now_ jti_denylist_table t2 Hb) as (t3 & d3 & -> & _ & [Hc3 Hd3] & Hj); [set_solver|done|done| |].
  { intros n t0 [Hall Hd]. split; [|done]. rewrite Forall_forall in Hall |- *. intros tb Htb.
    apply reap_batch_clean; [set_solver|set_solver|by apply Hall]. }
  cbn [pg_count_of]. do 2 eexists. split; [reflexivity|]. split; [|done]. intros tb [->|Htb]%elem_of_cons; [done|].
  rewrite Forall_forall in Hc3. by apply Hc3.
Qed.
End PgSweep.

(** ** Witnesses *)

Module PgReaperExample.
Import ReaperExample.

(** Nobody holds a row. *)
#[local] Instance unlocked_rows : SkipLocked := {
  unlocked _ _ l := l;
  unlocked_sub _ _ _ _ Hk := Hk;
  unlocked_NoDup _ _ _ Hnd := Hnd
}.

(** The families and requests of [ReaperExample], in PostgreSQL. *)
Definition pt1 : PgTables := mkPgTables t1 (<["F" := None]> (<["G" := None]> ∅)) [].

Lemma pt1_fits : fits 10 pt1.
Proof.
  split_and!.
  - intros tb Htb. refine (five_tables (fun tb => _) _ _ _ _ _ tb Htb); vm_compute; lia.
  - vm_compute. lia.
  - intros f Hf. cbn in Hf. destruct (decide (f = "F")) as [->|HF]; [by exists (Hash "B"), (token_row "F" 90 None)|].
    destruct (decide (f = "G")) as [->|HG]; [by exists (Hash "C"), (token_row "G" 20 (Some 15))|].
    rewrite !lookup_insert_ne, lookup_empty in Hf by done. by destruct Hf.
Qed.

Lemma pt1_counts : (pg_Reap reaper 10 50 (mkDB pt1 [])).2 =
  ([("auth_requests", 1); ("auth_codes", 0); ("device_codes", 0); ("browser_sessions", 0); ("refresh_tokens", 1); ("jti_denylist", 0)], []).
Proof. vm_compute. reflexivity. Qed.

Lemma pg_sweep_complete_witness :
  exists t' counts, pg_Reap reaper 10 50 (mkDB pt1 []) = (mkDB t' [], (counts, [])) /\
    (forall tb, tb ∈ jti_denylist_table :: expiringTables -> swept_clean 50 tb t') /\ pg_dead_families reaper 50 t' = [].
Proof. apply (@pg_sweep_complete unlocked_rows (fun _ _ l => Permutation_refl l) reaper 10 50 pt1); [vm_compute; reflexivity|apply pt1_fits]. Defined.

(** A replica redeems a code between two batches; the rotated token A, whose
    successor is usable, and the request that has not expired stay. *)
Definition busy_db : PgDB :=
  mkDB pt1 [free_slot; mkSlot (fun t => set_base (set_codes (<["c" := mkCodeRow spent_code (Some 15)]> (auth_codes (pg_base t))) (pg_base t)) t) Served; free_slot].

Lemma pg_sweep_spares_witness :
  holds_row auth_requests_table "r2" 90 (tables (pg_Reap reaper 10 50 busy_db).1) /\
  holds_family (Hash "A") (token_row "F" 20 (Some 15)) (Hash "B") (token_row "F" 90 None) (tables (pg_Reap reaper 10 50 busy_db).1).
Proof.
  assert (forall s, s ∈ sched busy_db -> s = free_slot \/ forall t, refresh_tokens (pg_base (slot_others s t)) = refresh_tokens (pg_base t) /\
    pg_families (slot_others s t) = pg_families t /\ auth_requests (pg_base (slot_others s t)) = auth_requests (pg_base t)) as Hs.
  { intros s. cbn. rewrite !elem_of_cons, elem_of_nil. intros [->|[->|[->|[]]]]; auto. }
  destruct (pg_sweep_spares reaper 10 50 busy_db) as [H1 H2]. split.
  - apply (H1 auth_requests_table "r2" 90); [do 2 constructor|lia| |vm_compute; reflexivity].
    intros s Hin t. destruct (Hs s Hin) as [->|Hk]; [done|]. destruct (Hk t) as (_ & _ & E). unfold holds_row. cbn. by rewrite E.
  - apply (H2 (Hash "A") _ (Hash "B") _); [done|vm_compute; reflexivity| |split_and!; [vm_compute; reflexivity..|by eexists]].
    intros s Hin t. destruct (Hs s Hin) as [->|Hk]; [done|]. destruct (Hk t) as (E1 & E2 & _). unfold holds_family. by rewrite E1, E2.
Defined.
(** A rotation consumes token A before it expires; the sweep, after that, takes
    the family; the rotation then stores its successor, in the family again,
    without the tombstone that recognises A. *)
Definition pt3 : PgTables := mkPgTables t3 (<["F" := None]> ∅) [].

Lemma pg_sweep_races_rotation :
  let db := (pg_Reap reaper 10 50 (mkDB pt3 [])).1 in
  pg_families (tables db) = ∅ /\
  (pg_SaveRefresh successor db).2 = None /\
  map_to_list (row_family <$> refresh_tokens (pg_base (tables (pg_SaveRefresh successor db).1))) = [(Hash "B", "F")] /\
  (pg_ConsumeRefresh "A" "cli" 60 (pg_SaveRefresh successor db).1).2.2 = Some (Sentinel ErrRefreshNotFound).
Proof. split_and!; vm_compute; reflexivity. Qed.
End PgReaperExample.
