(* ===== verification/PostgresSessions.v ===== *)
(** * PostgreSQL keeps the session contract

    The invariant that ties [refresh_families] to the tokens, that every method
    keeps it, and that the token-store methods of Postgres.v are linearizable
    implementations of the abstract session machine of Sessions.v: here the
    revocation of any family, existing or not. *)

From S2P Require Import Prelude GoStrings GoErrors Oidc Keys Sessions Sql Sqlite SqlSessions Postgres.
From S2P Require Import Token TokenFacts.

Definition pview (t : PgTables) : Sessions := tview (pg_base t).

Abbreviation pg_tokens t := (refresh_tokens (pg_base t)).

(** A family has a row exactly when it has tokens, and the row says for all of
    them whether they are revoked. *)
Definition fam_ok (t : PgTables) : Prop :=
  (forall h row, pg_tokens t !! h = Some row -> is_Some (pg_families t !! row_family row)) /\
  (forall f x, pg_families t !! f = Some x ->
     (exists h row, pg_tokens t !! h = Some row /\ row_family row = f) /\
     (forall h row, pg_tokens t !! h = Some row -> row_family row = f -> revoked row = bool_decide (is_Some x))).

(** What other requests may do: steps of the machine that keep the invariant. *)
Definition pg_rely (t t' : PgTables) : Prop := steps (pview t) (pview t') /\ (fam_ok t -> fam_ok t').

#[export] Instance pg_rely_preorder : PreOrder pg_rely.
Proof.
  split; [by split|]. intros t1 t2 t3 [H1 H2] [H3 H4]. split; [by etrans|auto].
Qed.

Abbreviation pg_ok := (db_inv fam_ok pg_rely).
Abbreviation pg_view db := (pview (tables db)).

(** ** The two tables agree *)

Lemma fam_exists f t : fam_ok t -> family_exists f (pg_tokens t) = bool_decide (is_Some (pg_families t !! f)).
Proof.
  intros [H1 H2]. case_bool_decide as Hf.
  - destruct Hf as [x Hx]. destruct (H2 _ _ Hx) as [(h & row & Hr & Hrf) _]. apply family_exists_true. eauto.
  - destruct (family_exists f (pg_tokens t)) eqn:E; [|done].
    apply family_exists_true in E as (h & row & Hr & <-). destruct Hf. eauto.
Qed.

Lemma fam_revoked f t x : fam_ok t -> pg_families t !! f = Some x ->
  family_revoked f (pg_tokens t) = bool_decide (is_Some x).
Proof.
  intros [_ H2] Hx. destruct (H2 _ _ Hx) as [(h & row & Hr & Hrf) Hall]. case_bool_decide as Hs.
  - apply family_revoked_true. exists h, row. split_and!; [done..|]. by apply (Hall _ _ Hr Hrf).
  - destruct (family_revoked f (pg_tokens t)) eqn:E; [|done].
    apply family_revoked_true in E as (h' & r' & Hr' & Hf' & Hv). by rewrite (Hall _ _ Hr' Hf') in Hv.
Qed.

Lemma fam_absent f t : fam_ok t -> pg_families t !! f = None -> family_revoked f (pg_tokens t) = false.
Proof.
  intros [H1 _] Hn. destruct (family_revoked f (pg_tokens t)) eqn:E; [|done].
  apply family_revoked_true in E as (h & r & Hr & <- & _). destruct (H1 _ _ Hr) as [x Hx]. congruence.
Qed.

(** ** Statements that keep the invariant *)

(** Consuming changes neither families nor revocation. *)
Lemma fam_ok_tokens t m :
  fam_ok t ->
  (forall h row', m !! h = Some row' -> exists row, pg_tokens t !! h = Some row /\
     row_family row' = row_family row /\ revoked row' = revoked row) ->
  (forall h row, pg_tokens t !! h = Some row -> exists row', m !! h = Some row' /\ row_family row' = row_family row) ->
  fam_ok (set_base (set_tokens m (pg_base t)) t).
Proof.
  intros [H1 H2] Hback Hfwd. split; cbn.
  - intros h row' Hr'. destruct (Hback _ _ Hr') as (row & Hr & -> & _). eauto.
  - intros f x Hx. destruct (H2 _ _ Hx) as [(h & row & Hr & Hrf) Hall]. split.
    + destruct (Hfwd _ _ Hr) as (row' & Hr' & Hf'). exists h, row'. split; [done|congruence].
    + intros h' row' Hr' Hf'. destruct (Hback _ _ Hr') as (row0 & Hr0 & Hf0 & ->). apply (Hall _ _ Hr0). congruence.
Qed.

Lemma fam_ok_same t t' :
  pg_tokens t' = pg_tokens t -> pg_families t' = pg_families t -> fam_ok t -> fam_ok t'.
Proof. unfold fam_ok. by intros -> ->. Qed.

Lemma fam_ok_consume_code c f at_ t : fam_ok t -> fam_ok (on_base (sql_consume_code c f at_) t).1.
Proof.
  apply fam_ok_same; unfold on_base, sql_consume_code;
    destruct (auth_codes (pg_base t) !! Hash c) as [row|]; try done; by destruct (cr_consumed row).
Qed.

Lemma fam_ok_consume_refresh tok c at_ t : fam_ok t -> fam_ok (on_base (sql_consume_refresh tok c at_) t).1.
Proof.
  intros Hok. unfold on_base, sql_consume_refresh.
  destruct (refresh_tokens (pg_base t) !! Hash tok) as [row|] eqn:Hrow; [|by destruct t].
  destruct (_ && _) eqn:Hl; [|by destruct t]. cbn. apply fam_ok_tokens; [done|..].
  - intros h row' [[<- <-]|[_ Hr]]%lookup_insert_Some; eauto.
  - intros h row0 Hr0. destruct (decide (Hash tok = h)) as [<-|Hne].
    + rewrite lookup_insert_eq. eexists. split; [done|]. cbn. by simplify_eq.
    + rewrite lookup_insert_ne by done. eauto.
Qed.

(** ** Codes and tokens *)

Lemma on_base_fst {A} (g : Tables -> Tables * A) t : (on_base g t).1 = set_base (g (pg_base t)).1 t.
Proof. unfold on_base. by destruct (g (pg_base t)). Qed.

Lemma on_base_snd {A} (g : Tables -> Tables * A) t : (on_base g t).2 = (g (pg_base t)).2.
Proof. unfold on_base. by destruct (g (pg_base t)). Qed.

Lemma set_base_id t : set_base (pg_base t) t = t.
Proof. by destruct t. Qed.

Lemma pg_ConsumeAuthCode_refines c f at_ :
  refines pg_ok (fun db => pg_view db) snd (pg_ConsumeAuthCode c f at_) (Spec.ConsumeAuthCode c f at_).
Proof.
  apply (consume_refines pview fam_ok pg_rely); [by intros ? ? [? _]|by intros ? ? [_ ?]; auto|..].
  - intros t. apply fam_ok_consume_code.
  - intros t. pose proof (consume_code_spec c f at_ (pg_base t)) as Hs. unfold on_base.
    destruct (sql_consume_code c f at_ (pg_base t)) as [b [ac|]]; [exact Hs|]. subst b. apply set_base_id.
  - intros t. rewrite on_base_fst, (proj1 (tombstones_pure c "" "" (pg_base t))). apply set_base_id.
  - intros t1 t2. rewrite !on_base_snd. apply code_tombstone_spec.
Qed.

Lemma pg_ConsumeRefresh_refines tok c at_ :
  refines pg_ok (fun db => pg_view db) snd (pg_ConsumeRefresh tok c at_) (Spec.ConsumeRefresh tok c at_).
Proof.
  apply (consume_refines pview fam_ok pg_rely); [by intros ? ? [? _]|by intros ? ? [_ ?]; auto|..].
  - intros t. apply fam_ok_consume_refresh.
  - intros t. pose proof (consume_refresh_spec tok c at_ (pg_base t)) as Hs. unfold on_base.
    destruct (sql_consume_refresh tok c at_ (pg_base t)) as [b [r|]]; [exact Hs|]. subst b. apply set_base_id.
  - intros t. rewrite on_base_fst, (proj2 (tombstones_pure "" tok c (pg_base t))). apply set_base_id.
  - intros t1 t2. rewrite !on_base_snd. apply refresh_tombstone_spec.
Qed.

(** ** Rotation *)

(** Two rounds always end [lockFamily], with the family's row in place. *)
Lemma lockFamily_run f db db' r :
  lockFamily lock_rounds f db = (db', r) ->
  match r with
  | inl e => driver_error e = true
  | inr b =>
      (exists x, pg_families (tables db) !! f = Some x /\ tables db' = tables db /\
                 b = Some (bool_decide (is_Some x))) \/
      (pg_families (tables db) !! f = None /\ b = Some false /\
       tables db' = set_families (<[f := None]> (pg_families (tables db))) (tables db))
  end.
Proof.
  unfold lock_rounds. cbn [lockFamily]. intros E.
  apply Q_bind_cases in E as [(e & E & ->)|(db1 & b & E & E')]; [by apply tx_stmt_inl in E as ->|].
  apply tx_stmt_inr in E. injection E as Ht1 <-.
  destruct (pg_families (tables db) !! f) as [x|] eqn:Hx; cbn [option_map] in E'.
  { injection E' as <- <-. left. eauto. }
  apply Q_bind_cases in E' as [(e & E & ->)|(db2 & [] & E & E')]; [by apply tx_stmt_inl in E as ->|].
  apply tx_stmt_inr in E. injection E as Ht2. rewrite <- Ht1, Hx in Ht2.
  apply Q_bind_cases in E' as [(e & E & ->)|(db3 & b & E & E')]; [by apply tx_stmt_inl in E as ->|].
  apply tx_stmt_inr in E. injection E as Ht3 <-. rewrite <- Ht2 in E'. cbn in E'.
  rewrite lookup_insert_eq in E'. cbn in E'. injection E' as <- <-. right.
  split_and!; [done|done|]. by rewrite <- Ht3, <- Ht2.
Qed.

(** More rounds change nothing. *)
Lemma lockFamily_ends n f db :
  (lock_rounds <= n)%nat -> lockFamily n f db = lockFamily lock_rounds f db /\ (lockFamily n f db).2 <> inr None.
Proof.
  intros Hn. assert (lockFamily n f db = lockFamily lock_rounds f db) as ->.
  - destruct n as [|[|n]]; unfold lock_rounds in *; try lia. cbn [lockFamily]. unfold mbind, Q_bind.
    destruct (tx_stmt _ (sql_family_revoked f) db) as [db1 [e|[b|]]] eqn:E1; [done..|].
    destruct (tx_stmt _ (sql_insert_family f) db1) as [db2 [e|[]]] eqn:E2; [done|]. apply tx_stmt_inr in E2. injection E2 as E2.
    destruct (tx_stmt _ (sql_family_revoked f) db2) as [db3 [e|[b|]]] eqn:E3; [done..|]. exfalso.
    apply tx_stmt_inr in E3. injection E3 as _ E3. revert E3. rewrite <- E2.
    destruct (pg_families (tables db1) !! f) eqn:Hf; cbn; [by rewrite Hf|by rewrite lookup_insert_eq].
  - split; [done|]. destruct (lockFamily lock_rounds f db) as [db' r] eqn:E. apply lockFamily_run in E. cbn. intros ->.
    destruct E as [(x & _ & _ & ?)|(_ & ? & _)]; done.
Qed.

Lemma lockFamily_suffix n f : suffixing (lockFamily n f).
Proof.
  induction n as [|n IH]; cbn; [apply suffixing_ret|]. apply suffixing_bind; [apply suffixing_tx_stmt|].
  intros [b|]; [apply suffixing_ret|]. apply suffixing_bind; [apply suffixing_tx_stmt|done].
Qed.

(** Storing the first or a further token of an unrevoked family. *)
Lemma fam_ok_insert h r t x :
  fam_ok t -> pg_tokens t !! h = None ->
  (pg_families t !! rt_FamilyID r = x) -> (x = None \/ x = Some None) ->
  fam_ok (set_base (set_tokens (<[h := mkTokenRow (with_token "" r) None None]> (pg_tokens t)) (pg_base t))
            (set_families (<[rt_FamilyID r := None]> (pg_families t)) t)).
Proof.
  intros [H1 H2] Hn Hx Hcase. split; cbn.
  - intros h' row [[<- <-]|[_ Hr]]%lookup_insert_Some; [by rewrite lookup_insert_eq|].
    destruct (decide (rt_FamilyID r = row_family row)) as [->|Hne]; [by rewrite lookup_insert_eq|].
    rewrite lookup_insert_ne by done. eauto.
  - intros f y [[<- <-]|[Hne Hy]]%lookup_insert_Some.
    + split.
      * exists h. eexists. rewrite lookup_insert_eq. done.
      * intros h' row [[<- <-]|[_ Hr]]%lookup_insert_Some Hf; [done|].
        destruct Hcase as [->| ->].
        -- destruct (H1 _ _ Hr) as [z Hz]. congruence.
        -- by apply (proj2 (H2 _ _ Hx) _ _ Hr).
    + destruct (H2 _ _ Hy) as [(h0 & row0 & Hr0 & Hf0) Hall]. split.
      * exists h0, row0. rewrite lookup_insert_ne by congruence. done.
      * intros h' row [[<- <-]|[_ Hr]]%lookup_insert_Some Hf; [done|eauto].
Qed.

Lemma save_refresh_spec r db db' res :
  fam_ok (tables db) -> save_refresh_tx r db = (db', res) ->
  match res with
  | inl e => driver_error e = true
  | inr (u, None) =>
      Spec.SaveRefresh r (pview (tables db)) = (pview (tables db'), None) /\ fam_ok (tables db')
  | inr (u, Some e) => Spec.SaveRefresh r (pview (tables db)) = (pview (tables db), Some e)
  end.
Proof.
  intros Hok E. unfold save_refresh_tx in E.
  apply Q_bind_cases in E as [(e & E & ->)|(db1 & b & E & E')]; apply lockFamily_run in E; [done|].
  set (t := tables db) in *. set (f := rt_FamilyID r) in *.
  assert (b = Some true /\ family_revoked f (pg_tokens t) = true \/
          b = Some false /\ family_revoked f (pg_tokens t) = false /\
          (pg_families t !! f = None \/ pg_families t !! f = Some None) /\
          pg_base (tables db1) = pg_base t /\ pg_notices (tables db1) = pg_notices t /\
          pg_families (tables db1) = <[f := None]> (pg_families t)) as [[-> Hf]|(-> & Hf & Hfam & Hb & Hnot & Hfs)].
  { destruct E as [(x & Hx & Ht & ->)|(Hx & -> & Ht)].
    - rewrite (fam_revoked _ _ _ Hok Hx). destruct x as [x|]; [by left|right]. rewrite Ht. split_and!; auto.
      by rewrite insert_id.
    - right. rewrite (fam_absent _ _ Hok Hx), Ht. split_and!; auto. }
  { injection E' as <- <-. unfold Spec.SaveRefresh. cbn. fold f. by rewrite Hf. }
  apply Q_bind_cases in E' as [(e & E1 & ->)|(db2 & dup & E1 & E')]; [by apply tx_stmt_inl in E1 as ->|].
  apply tx_stmt_inr in E1. unfold on_base, sql_insert_token in E1. rewrite Hb in E1.
  unfold Spec.SaveRefresh. cbn. fold f. rewrite Hf.
  destruct (refresh_tokens (pg_base t) !! Hash (rt_Token r)) eqn:Hd; injection E1 as E1 <-; injection E' as <- <-.
  { done. }
  assert (tables db2 = set_base (set_tokens (<[Hash (rt_Token r) := mkTokenRow (with_token "" r) None None]> (pg_tokens t)) (pg_base t))
            (set_families (<[f := None]> (pg_families t)) t)) as ->.
  { rewrite <- E1. unfold set_base, set_families. cbn. by rewrite Hfs, Hnot. }
  split; [done|]. by eapply fam_ok_insert.
Qed.

Lemma pg_SaveRefresh_refines r :
  refines pg_ok (fun db => pg_view db) id (pg_SaveRefresh r) (Spec.SaveRefresh r).
Proof.
  assert (refines pg_ok (fun db => pg_view db) snd
            (inTx tt "postgres: save refresh token" (save_refresh_tx r))
            (fun s => let (s', e) := Spec.SaveRefresh r s in (s', (tt, e)))) as Hr.
  { apply (tx_refines pview fam_ok pg_rely); [by intros ? ? [? _]|by intros ? ? [_ ?]; auto|..].
    - unfold save_refresh_tx. apply suffixing_bind; [apply lockFamily_suffix|].
      intros [[]|]; [apply suffixing_ret| |apply suffixing_ret].
      apply suffixing_bind; [apply suffixing_tx_stmt|]. intros x. apply suffixing_ret.
    - intros db db' res Hok E. pose proof (save_refresh_spec _ _ _ _ Hok E) as Hs.
      destruct res as [e|[[] [e|]]]; [done|by rewrite Hs|]. destruct Hs as [-> ?]. done. }
  intros db Hok. destruct (Hr db Hok) as [Hok' Hl]. unfold linearizes, pg_SaveRefresh, only_error in *.
  destruct (inTx _ _ _ db) as [db' [[] e]]. cbn [fst snd] in *. split; [done|].
  destruct Hl as (s0 & s1 & H0 & H1 & Hc). exists s0, s1. split_and!; [done..|].
  destruct (Spec.SaveRefresh r s0) as [s e']. destruct Hc as [[= -> ->]|[Hf Hc]]; [by left|by right].
Qed.

(** ** Revocation *)

Lemma revoke_families_ok fs at_ t fam' :
  fam_ok t ->
  (forall f, is_Some (fam' !! f) <-> is_Some (pg_families t !! f)) ->
  (forall f x, fam' !! f = Some x -> exists y, pg_families t !! f = Some y /\
     x = if bool_decide (f ∈ fs) then revoke_stamp at_ y else y) ->
  fam_ok (set_base (set_tokens (revoke_where (in_families fs) at_ (pg_tokens t)) (pg_base t)) (set_families fam' t)).
Proof.
  intros [H1 H2] Hdom Hfam. split; cbn.
  - intros h row (r0 & Hr0 & ->)%lookup_revoke_where. rewrite revoke_row_family. apply Hdom. eauto.
  - intros f x Hx. destruct (Hfam _ _ Hx) as (y & Hy & ->).
    destruct (H2 _ _ Hy) as [(h & row & Hr & Hf) Hall]. split.
    + exists h, (revoke_row (in_families fs) at_ row). split; [apply lookup_revoke_where; eauto|].
      by rewrite revoke_row_family.
    + intros h' row' (r0 & Hr0 & ->)%lookup_revoke_where. rewrite revoke_row_family. intros Hf'.
      rewrite revoke_row_revoked, (Hall _ _ Hr0 Hf'). unfold in_families. rewrite Hf'.
      destruct (bool_decide (f ∈ fs)); [|by rewrite orb_false_r]. by destruct y.
Qed.

Lemma revoke_where_ext p q at_ m : (forall r, p r = q r) -> revoke_where p at_ m = revoke_where q at_ m.
Proof. intros Hpq. unfold revoke_where. apply map_fmap_ext. intros h r _. unfold revoke_row. by rewrite Hpq. Qed.

Lemma count_live_ext p q m : (forall r, p r = q r) -> count_live p m = count_live q m.
Proof.
  intros Hpq. unfold count_live. do 2 f_equal. apply List.filter_ext. intros r. by rewrite Hpq.
Qed.

Lemma in_families_single f r : in_families [f] r = in_family f r.
Proof.
  unfold in_families, in_family. destruct (String.eqb_spec (row_family r) f) as [->|Hne].
  - apply bool_decide_eq_true. set_solver.
  - apply bool_decide_eq_false. set_solver.
Qed.

Lemma revoke_family_spec f at_ db db' res :
  fam_ok (tables db) -> revoke_family_tx f at_ db = (db', res) ->
  match res with
  | inl e => driver_error e = true
  | inr (n, None) =>
      Spec.RevokeRefreshFamily f at_ (pview (tables db)) = (pview (tables db'), (n, None)) /\ fam_ok (tables db')
  | inr (n, Some e) => Spec.RevokeRefreshFamily f at_ (pview (tables db)) = (pview (tables db), (n, Some e))
  end.
Proof.
  intros Hok E. unfold revoke_family_tx in E.
  apply Q_bind_cases in E as [(e & E & ->)|(db1 & n & E & E')]; [by apply tx_stmt_inl in E as ->|].
  apply tx_stmt_inr in E. unfold sql_revoke_family in E. set (t := tables db) in *.
  unfold Spec.RevokeRefreshFamily. cbn. rewrite (fam_exists _ _ Hok).
  destruct (pg_families t !! f) as [x|] eqn:Hx; injection E as E <-; cbn in E'; [|by injection E' as <- <-].
  apply Q_bind_cases in E' as [(e & E1 & ->)|(db2 & m & E1 & E')]; [by apply tx_stmt_inl in E1 as ->|].
  injection E' as <- <-. apply tx_stmt_inr in E1. rewrite <- E in E1. unfold on_base in E1. cbn in E1.
  injection E1 as <- <-. cbn. split.
  - unfold pview, tview. cbn. rewrite (revoke_where_ext _ _ _ _ (in_families_single f)).
    by rewrite (count_live_ext _ _ _ (in_families_single f)).
  - apply revoke_families_ok; [done|..].
    + intros f'. destruct (decide (f = f')) as [<-|Hne]; [rewrite lookup_insert_eq, Hx|by rewrite lookup_insert_ne].
      split; eauto.
    + intros f' y [[<- <-]|[Hne Hy]]%lookup_insert_Some.
      * exists x. split; [done|]. rewrite bool_decide_true by set_solver. done.
      * exists y. split; [done|]. rewrite bool_decide_false by set_solver. done.
Qed.

Lemma suffixing_revokeTokens fs at_ : suffixing (revokeTokens fs at_).
Proof. apply suffixing_tx_stmt. Qed.

Lemma pg_RevokeRefreshFamily_refines f at_ :
  refines pg_ok (fun db => pg_view db) snd (pg_RevokeRefreshFamily f at_) (Spec.RevokeRefreshFamily f at_).
Proof.
  apply (tx_refines pview fam_ok pg_rely); [by intros ? ? [? _]|by intros ? ? [_ ?]; auto|..].
  - unfold revoke_family_tx. apply suffixing_bind; [apply suffixing_tx_stmt|]. intros n.
    destruct (n =? 0); [apply suffixing_ret|]. apply suffixing_bind; [apply suffixing_revokeTokens|].
    intros m. apply suffixing_ret.
  - intros db db' res Hok E. exact (revoke_family_spec _ _ _ _ _ Hok E).
Qed.

(** *** All families of an account *)

Definition family_matches (p : TokenRow -> bool) (m : gmap string TokenRow) (r : TokenRow) : bool :=
  existsb (fun r' => in_family (row_family r) r' && p r') (map_to_list m).*2.

Lemma matching_families_in p t r h :
  fam_ok t -> pg_tokens t !! h = Some r ->
  in_families (matching_families p t) r = family_matches p (pg_tokens t) r.
Proof.
  intros [H1 _] Hr. unfold in_families, matching_families, family_matches.
  destruct (existsb _ _) eqn:E; [apply bool_decide_eq_true|apply bool_decide_eq_false].
  - apply list_elem_of_In, filter_In. split; [|done]. apply list_elem_of_In, list_elem_of_fmap.
    destruct (H1 _ _ Hr) as [x Hx]. exists (row_family r, x). split; [done|]. by apply elem_of_map_to_list.
  - intros [_ Hf]%list_elem_of_In%filter_In. congruence.
Qed.

Lemma revoke_families_view p at_ t :
  fam_ok t ->
  revoke_where (in_families (matching_families p t)) at_ (pg_tokens t)
    = revoke_where (family_matches p (pg_tokens t)) at_ (pg_tokens t) /\
  count_live (in_families (matching_families p t)) (pg_tokens t)
    = count_live (family_matches p (pg_tokens t)) (pg_tokens t).
Proof.
  intros Hok. split.
  - unfold revoke_where. apply map_fmap_ext. intros h r Hr. unfold revoke_row. by erewrite matching_families_in.
  - unfold count_live. do 2 f_equal. apply filter_ext_in. intros r [h Hr]%in_snd_map.
    by erewrite matching_families_in.
Qed.

Lemma revokeFamiliesWhere_refines p at_ :
  refines pg_ok (fun db => pg_view db) snd (revokeFamiliesWhere p at_)
    (fun s => let (s', n) := Spec.RevokeFamiliesWhere p at_ s in (s', (n, None))).
Proof.
  apply (tx_refines pview fam_ok pg_rely); [by intros ? ? [? _]|by intros ? ? [_ ?]; auto|..].
  - apply suffixing_bind; [apply suffixing_tx_stmt|]. intros fs.
    apply suffixing_bind; [apply suffixing_revokeTokens|]. intros m. apply suffixing_ret.
  - intros db db' res Hok E.
    apply Q_bind_cases in E as [(e & E & ->)|(db1 & fs & E & E')]; [by apply tx_stmt_inl in E as ->|].
    apply tx_stmt_inr in E. injection E as E <-.
    apply Q_bind_cases in E' as [(e & E1 & ->)|(db2 & m & E1 & E')]; [by apply tx_stmt_inl in E1 as ->|].
    injection E' as <- <-. apply tx_stmt_inr in E1. rewrite <- E in E1. unfold on_base in E1. cbn in E1.
    injection E1 as <- <-. destruct (revoke_families_view p at_ _ Hok) as [Hv Hc]. split.
    + cbn. unfold Spec.RevokeFamiliesWhere, Spec.RevokeWhere, pview, tview. cbn.
      rewrite Hv, Hc. done.
    + apply revoke_families_ok; [done|..].
      * intros f. rewrite map_lookup_imap. destruct (pg_families (tables db) !! f); cbn; split; eauto.
      * intros f x. rewrite map_lookup_imap. destruct (pg_families (tables db) !! f) as [y|]; [|done].
        cbn. intros [= <-]. eauto.
Qed.

(** C5. PostgreSQL keeps the contract: redeeming, storing, consuming and revoking
    act as one step of the abstract session machine at some point, whatever
    other requests do before and after, and a driver failure (an unknown
    commit included) leaves it done or not done; the family table agrees with
    the tokens throughout, revoking an account's sessions revokes every token of
    every family it has a token in. The loop that locks a family is never cut
    short: with two rounds or more it ends, as it does with any larger number. *)
Theorem postgres_linearizable c f t tok cl r p :
  refines pg_ok (fun db => pg_view db) snd (pg_ConsumeAuthCode c f t) (Spec.ConsumeAuthCode c f t) /\
  refines pg_ok (fun db => pg_view db) id (pg_SaveRefresh r) (Spec.SaveRefresh r) /\
  refines pg_ok (fun db => pg_view db) snd (pg_ConsumeRefresh tok cl t) (Spec.ConsumeRefresh tok cl t) /\
  refines pg_ok (fun db => pg_view db) snd (pg_RevokeRefreshFamily f t) (Spec.RevokeRefreshFamily f t) /\
  refines pg_ok (fun db => pg_view db) snd (revokeFamiliesWhere p t)
    (fun s => let (s', n) := Spec.RevokeFamiliesWhere p t s in (s', (n, None))) /\
  (forall n db, (lock_rounds <= n)%nat -> lockFamily n f db = lockFamily lock_rounds f db /\ (lockFamily n f db).2 <> inr None).
Proof.
  split_and!; [apply pg_ConsumeAuthCode_refines|apply pg_SaveRefresh_refines|apply pg_ConsumeRefresh_refines|
    apply pg_RevokeRefreshFamily_refines|apply revokeFamiliesWhere_refines|intros n db; apply lockFamily_ends].
Qed.

(** ** The contract, discharged *)

Lemma pg_Revoke_keeps f t db : pg_ok db ->
  pg_ok (pg_RevokeRefreshFamily f t db).1 /\ steps (pg_view db) (pg_view (pg_RevokeRefreshFamily f t db).1).
Proof.
  intros Hok. destruct (pg_RevokeRefreshFamily_refines f t db Hok) as [Hok' (s0 & s1 & H0 & H1 & Hc)].
  split; [done|]. etrans; [exact H0|]. etrans; [|exact H1].
  destruct Hc as [Hc|[_ [->| ->]]]; [|done|apply rtc_once, step_revoke].
  apply rtc_once. pose proof (step_revoke f t s0) as Hst. by rewrite <- Hc in Hst.
Qed.

#[export] Instance pg_TokenStoreSpec : TokenStoreSpec PgDB := {
  view := fun db => pg_view db;
  store_inv := pg_ok;
  ConsumeAuthCode_refines := pg_ConsumeAuthCode_refines;
  SaveRefresh_refines := pg_SaveRefresh_refines;
  ConsumeRefresh_refines := pg_ConsumeRefresh_refines;
  RevokeRefreshFamily_keeps := pg_Revoke_keeps;
  RevokeRefreshFamily_linearizes := fun f t db Hok _ => proj2 (pg_RevokeRefreshFamily_refines f t db Hok)
}.

Lemma pg_rely_same t t' :
  pview t' = pview t -> pg_families t' = pg_families t -> pg_rely t t'.
Proof.
  intros Hv Hf. split; [by rewrite Hv|]. injection Hv as _ Ht. by apply fam_ok_same.
Qed.

Lemma pg_frame_op {A} (op : storeOp PgDB A) :
  (forall db db' r, rely pg_rely db -> op db = (db', r) -> rely pg_rely db' /\ pg_rely (tables db) (tables db')) ->
  forall db, pg_ok db -> pg_ok (op db).1 /\ steps (pg_view db) (pg_view (op db).1).
Proof.
  intros Hg db [Hok Hi]. destruct (op db) as [db' r] eqn:E. destruct (Hg _ _ _ Hok E) as [? [? ?]].
  split; [split; auto|done].
Qed.

Lemma poll_same h now_ bump t : pg_rely t (on_base (sql_polled h now_ bump) t).1.
Proof. apply pg_rely_same; unfold on_base, sql_polled; by destruct (_ !! _). Qed.

#[export] Instance pg_DeviceStoreFrame : DeviceStoreFrame PgDB.
Proof.
  split; intros; revert s H; apply pg_frame_op; intros db db' r Hok E; revert Hok E.
  - apply (guarantees_method pg_rely). guarantees.
  - apply (tx_guarantees pg_rely).
    + apply suffixing_bind; [apply suffixing_tx_stmt|]. intros [[l i]|]; [|apply suffixing_ret].
      apply suffixing_bind; [apply suffixing_tx_stmt|]. intros x. apply suffixing_ret.
    + intros db1 db2 a Hq. apply Q_bind_cases in Hq as [(e & _ & ?)|(dba & row & E & E')]; [done|].
      apply tx_stmt_inr in E. unfold on_base, poll_read in E. injection E as E <-.
      rewrite set_base_id in E. rewrite E.
      destruct (_ !! _) as [dc|]; [|done].
      apply Q_bind_cases in E' as [(e & _ & ?)|(dbb & x & E1 & E')]; [done|]. injection E' as <- _.
      apply tx_stmt_inr in E1. pose proof (poll_same (Hash c) t
        (if negb (well_paced (dc_LastPolledAt dc) (dc_IntervalSeconds dc) t) then 5 else 0) (tables dba)) as Hp.
      by rewrite E1 in Hp.
  - apply (guarantees_method pg_rely). guarantees.
    rewrite on_base_fst. apply pg_rely_same; unfold sql_delete_device; by destruct (_ !! _).
Qed.
