(* ===== verification/Transfer.v ===== *)
(** * Moving the state to PostgreSQL (state/sqlite/dump.go,
    state/postgres/import.go)

    `tempogate state copy` reads every table of the SQLite store in one snapshot
    and writes it into PostgreSQL in one transaction. Here tables are what the
    code sees of them: named columns, and rows of values as a driver returns
    them. A transaction is atomic and isolated (Sql.v): it locks every table
    exclusively before it writes. *)

From stdpp Require Import pretty.
From S2P Require Import Prelude GoStrings GoErrors GoUtf8 Oidc Keys Sessions Sql Sqlite SqlSessions Postgres.

(** ** Values and tables *)

(** A value as a driver returns it, and as COPY takes it; [VOther] is of a Go
    type that neither expects. *)
Inductive value :=
  | VNull
  | VText (s : string)
  | VBytes (b : string)
  | VInt (n : Z)
  | VTime (t : time)
  | VOther (gotype : string).

#[export] Instance value_eq_dec : EqDecision value.
Proof. solve_decision. Defined.

(** A table as [DumpTables] visits it. *)
Record dumped := mkDumped { d_table : string; d_columns : list string; d_rows : list (list value) }.

(** A stored row, its values by column. *)
Definition row := gmap string value.

(** What a table's migration demands of its rows: NOT NULL, UNIQUE (a PRIMARY KEY
    is both) and [CHECK (column IN (...))]. *)
Inductive constraint := NotNull (column : string) | Unique (column : string) | OneOf (column : string) (vs : list value).

Record RawDB := mkRawDB {
  (** column types by table and column: information_schema, less
      schema_migrations. *)
  rd_schema : gmap string (gmap string string);
  rd_constraints : gmap string (list constraint);
  rd_rows : gmap string (list row);
  rd_notices : list Change
}.

Definition rows_of (t : string) (db : RawDB) : list row := default [] (rd_rows db !! t).
Definition set_rows (t : string) (rs : list row) (db : RawDB) : RawDB :=
  mkRawDB (rd_schema db) (rd_constraints db) (<[t := rs]> (rd_rows db)) (rd_notices db).

(** [return err] of a function that runs statements. *)
Definition fail {T A} (e : error) : Q T A := fun db => (db, inl e).

(** ** The source (dump.go) *)

(** The statements of a dump. *)
Inductive dump_read := BeginDump | ListTables | ReadTable (name : string).

(** The SQLite schema: columns and rows by table. *)
Definition Source := gmap string (list string * list (list value)).

(** [name LIKE 'sqlite_%']: an underscore stands for any byte, ASCII letters
    match in either case. *)
Definition like_sqlite (name : string) : bool :=
  HasPrefix (ascii_lower name) "sqlite" && (6 <? String.length name)%nat.

Definition dump_names (src : Source) : list string :=
  merge_sort string_le
    (List.filter (fun name => negb (like_sqlite name) && negb (name =? "schema_migrations")%string) (map_to_list src).*1).

Section Importing.
(** [time.Parse(layout, s)]; the source's statements that fail. *)
Context (time_Parse : string -> string -> option time) (read_fails : dump_read -> option error).

(** The loop of [s.DumpTables(ctx, visit)]. *)
Fixpoint visit_tables {T Acc} (src : Source) (names : list string) (visit : Acc -> dumped -> Q T Acc) (acc : Acc) : Q T Acc :=
  match names with
  | [] => mret acc
  | name :: names =>
      match read_fails (ReadTable name) with
      | Some e => fail (Errorf ("sqlite: read " +:+ name) e)
      | None =>
          let '(columns, rs) := default ([], []) (src !! name) in
          acc ← visit acc (mkDumped name columns rs);
          visit_tables src names visit acc
      end
  end.

Definition DumpTables {T Acc} (src : Source) (visit : Acc -> dumped -> Q T Acc) (acc : Acc) : Q T Acc :=
  match read_fails BeginDump, read_fails ListTables with
  | Some e, _ => fail (Errorf "sqlite: begin dump" e)
  | None, Some e => fail (Errorf "sqlite: list tables" e)
  | None, None => visit_tables src (dump_names src) visit acc
  end.

(** ** Values (import.go) *)

(** [t.UTC().Truncate(time.Microsecond)]. *)
Definition truncate_us (t : time) : time := time_Truncate t Microsecond.

Definition sqliteTimeLayouts : list string := [
  "2006-01-02 15:04:05.999999999 -0700 MST";
  "2006-01-02 15:04:05.999999999-07:00";
  "2006-01-02T15:04:05.999999999-07:00";
  "2006-01-02 15:04:05.999999999";
  "2006-01-02T15:04:05.999999999";
  "2006-01-02 15:04:05";
  "2006-01-02T15:04:05";
  "2006-01-02"].

(** [strings.Cut(s, " m=")], what comes before. *)
Fixpoint before_monotonic (s : string) : string :=
  if HasPrefix s " m=" then ""
  else match s with "" => "" | String c s' => String c (before_monotonic s') end.

Fixpoint parse_layouts (layouts : list string) (s : string) : option time :=
  match layouts with
  | [] => None
  | l :: layouts => match time_Parse l s with Some t => Some t | None => parse_layouts layouts s end
  end.

Definition gotype (v : value) : string :=
  match v with
  | VNull => "nil" | VText _ => "string" | VBytes _ => "[]uint8" | VInt _ => "int64" | VTime _ => "time.Time" | VOther t => t
  end.

Definition importValue (v : value) (dataType : string) : error + value :=
  let cannot := inl (Opaque ("cannot store a " +:+ gotype v +:+ " in a column of type " +:+ dataType)) in
  match v with
  | VNull => inr VNull
  | _ =>
      if (dataType =? "text")%string then
        match v with VText s => inr (VText s) | VBytes b => inr (VText b) | _ => cannot end
      else if (dataType =? "bytea")%string then
        match v with VBytes b => inr (VBytes b) | VText s => inr (VBytes s) | _ => cannot end
      else if (dataType =? "integer")%string || (dataType =? "bigint")%string || (dataType =? "smallint")%string then
        match v with VInt n => inr (VInt n) | _ => cannot end
      else if (dataType =? "timestamp with time zone")%string then
        match v with
        | VTime t => inr (VTime (truncate_us t))
        | VText x =>
            match parse_layouts sqliteTimeLayouts (before_monotonic x) with
            | Some t => inr (VTime (truncate_us t))
            | None => inl (Opaque "text value is not a timestamp")
            end
        | _ => cannot
        end
      else inl (Opaque ("no conversion for column type " +:+ String dquote (dataType +:+ String dquote "")))
  end.

(** ** Tables (import.go) *)

Definition importErr (msg : string) : error := Opaque ("postgres: import: " +:+ msg).

Definition targetColumns : Q RawDB (gmap string (gmap string string)) :=
  schema ← tx_stmt "postgres: import: read schema" (fun db => (db, rd_schema db));
  if bool_decide (schema = ∅) then fail (importErr "the database has no tables; migrate it first") else mret schema.

Definition lockForImport : Q RawDB unit :=
  tx_stmt "postgres: import: lock tables (stop every replica first)" (fun db => (db, tt)).

Fixpoint clearForImport (tbs : list string) (force : bool) : Q RawDB unit :=
  match tbs with
  | [] => mret tt
  | table :: tbs =>
      if force then
        tx_stmt ("postgres: import: clear " +:+ table) (fun db => (set_rows table [] db, tt)) ≫= fun _ => clearForImport tbs force
      else
        held ← tx_stmt ("postgres: import: check " +:+ table) (fun db => (db, negb (bool_decide (rows_of table db = []))));
        if (held : bool) then fail (Errorf ("table " +:+ table +:+ " has rows") (Sentinel ErrTargetNotEmpty))
        else clearForImport tbs force
  end.

(** The checks of [copyTable] on the columns. *)
Definition check_columns (table : string) (columns : list string) (types : gmap string string) : option error :=
  match List.find (fun c => bool_decide (types !! c = None)) columns with
  | Some c => Some (importErr ("source column " +:+ table +:+ "." +:+ c +:+ " has no counterpart here; migrate both to the same release"))
  | None =>
      if negb (length columns =? size types)%nat then
        match List.find (fun c => negb (bool_decide (c ∈ columns))) (map_to_list types).*1 with
        | Some c => Some (importErr ("column " +:+ table +:+ "." +:+ c +:+ " is missing from the source; migrate both to the same release"))
        | None => None
        end
      else None
  end.

Fixpoint convert_row (table : string) (columns : list string) (types : gmap string string) (r : list value) : error + list value :=
  match r, columns with
  | v :: r, c :: columns =>
      match importValue v (default "" (types !! c)) with
      | inl e => inl (Errorf ("postgres: import: " +:+ table +:+ "." +:+ c) e)
      | inr v' =>
          match convert_row table columns types r with
          | inl e => inl e
          | inr r' => inr (v' :: r')
          end
      end
  | _, _ => inr []
  end.

Fixpoint convert_rows (table : string) (columns : list string) (types : gmap string string) (rs : list (list value)) :
    error + list (list value) :=
  match rs with
  | [] => inr []
  | r :: rs =>
      if negb (length r =? length columns)%nat then inl (importErr ("a " +:+ table +:+ " row has " +:+ pretty (length r) +:+ " values for " +:+ pretty (length columns) +:+ " columns"))
      else
        match convert_row table columns types r with
        | inl e => inl e
        | inr r' =>
            match convert_rows table columns types rs with
            | inl e => inl e
            | inr rs' => inr (r' :: rs')
            end
        end
  end.

Definition as_row (columns : list string) (r : list value) : row := list_to_map (zip columns r).

(** Whether a column of a UTF-8 database takes a value: text that is valid UTF-8
    with no NUL, an integer of the column's width, an instant from 24 November
    4714 BC until the year 294277. *)
Definition storable (dataType : string) (v : value) : bool :=
  let width n bits := (- 2 ^ (bits - 1) <=? n) && (n <? 2 ^ (bits - 1)) in
  match v with
  | VNull | VBytes _ => true
  | VText s => ValidString s && negb (ContainsByte s Ascii.zero)
  | VInt n => width n (if (dataType =? "smallint")%string then 16 else if (dataType =? "integer")%string then 32 else 64)
  | VTime t => (- 210866803200 * Second <=? t) && (t <? 9224318016000 * Second)
  | VOther _ => false
  end.

Definition row_storable (columns : list string) (types : gmap string string) (r : list value) : bool :=
  forallb (fun cv => storable (default "" (types !! cv.1)) cv.2) (zip columns r).

(** Rows that are all of a table meet a constraint; NULLs are distinct to UNIQUE
    and pass a CHECK. *)
Definition admits (rs : list row) (k : constraint) : bool :=
  let at_ c := (fun r : row => default VNull (r !! c)) <$> rs in
  match k with
  | NotNull c => bool_decide (VNull ∉ at_ c)
  | Unique c => bool_decide (NoDup (List.filter (fun v => negb (bool_decide (v = VNull))) (at_ c)))
  | OneOf c vs => forallb (fun v => bool_decide (v ∈ VNull :: vs)) (at_ c)
  end.

(** PostgreSQL takes the rows of a COPY. *)
Definition can_copy (table : string) (columns : list string) (types : gmap string string) (rs : list (list value)) (db : RawDB) : bool :=
  forallb (row_storable columns types) rs &&
  forallb (admits (rows_of table db ++ (as_row columns <$> rs))) (default [] (rd_constraints db !! table)).

Definition copyTable (table : string) (columns : list string) (types : gmap string string) (rs : list (list value)) : Q RawDB Z :=
  match check_columns table columns types with
  | Some e => fail e
  | None =>
      match convert_rows table columns types rs with
      | inl e => fail e
      | inr rs' =>
          let msg := "postgres: import: copy " +:+ table in
          ok ← tx_stmt msg (fun db =>
            if can_copy table columns types rs' db
            then (set_rows table (rows_of table db ++ (as_row columns <$> rs')) db, true) else (db, false));
          if (ok : bool) then mret (Z.of_nat (length rs')) else fail (Errorf msg driver)
      end
  end.

(** ** The import *)

Definition derivedTable : string := "refresh_families".

Definition family_of (r : row) : option string :=
  match r !! "family_id" with Some (VText f) => Some f | _ => None end.

(** [SELECT family_id, min(revoked_at) FROM refresh_tokens GROUP BY family_id];
    [min] passes over NULLs. *)
Definition min_time (a b : value) : value :=
  match a, b with
  | VTime x, VTime y => VTime (Z.min x y)
  | VTime x, _ => VTime x
  | _, b => b
  end.

Definition group_families (tokens : list row) : gmap string value :=
  foldr (fun r m =>
           match family_of r with
           | Some f => <[f := min_time (default VNull (r !! "revoked_at")) (default VNull (m !! f))]> m
           | None => m
           end) ∅ tokens.

Definition family_row (fv : string * value) : row := {["family_id" := VText fv.1; "revoked_at" := fv.2]}.

Definition rebuild_families (db : RawDB) : RawDB * Z :=
  let fams := family_row <$> map_to_list (group_families (rows_of "refresh_tokens" db)) in
  (set_rows derivedTable (rows_of derivedTable db ++ fams) db, Z.of_nat (length fams)).

(** The insert fails where a table it names is missing, or on a token without a
    family: [family_id] is the key. *)
Definition can_rebuild (db : RawDB) : bool :=
  bool_decide (is_Some (rd_schema db !! derivedTable)) && bool_decide (is_Some (rd_schema db !! "refresh_tokens")) &&
  forallb (fun r => bool_decide (is_Some (family_of r))) (rows_of "refresh_tokens" db).

Definition rebuild_derived : Q RawDB Z :=
  let msg := "postgres: import: rebuild " +:+ derivedTable in
  ok ← tx_stmt msg (fun db => let (db', n) := rebuild_families db in if can_rebuild db then (db', Some n) else (db, None));
  match ok with
  | Some n => mret n
  | None => fail (Errorf msg driver)
  end.

(** What [Import] does with a table the source visits. *)
Definition import_visit (target : gmap string (gmap string string)) (copied : gmap string Z) (d : dumped) : Q RawDB (gmap string Z) :=
  if (d_table d =? derivedTable)%string then fail (importErr ("source table " +:+ d_table d +:+ " is one this database derives"))
  else
    match target !! d_table d with
    | None => fail (importErr ("source table " +:+ d_table d +:+ " has no counterpart here; migrate both to the same release"))
    | Some types => n ← copyTable (d_table d) (d_columns d) types (d_rows d); mret (<[d_table d := n]> copied)
    end.

Definition missing_table (tbs : list string) (copied : gmap string Z) : option string :=
  List.find (fun table => negb (table =? derivedTable)%string && bool_decide (copied !! table = None)) tbs.

Definition import_body (src : Source) (force : bool) : Q RawDB (gmap string Z) :=
  target ← targetColumns;
  let tbs := merge_sort string_le (map_to_list target).*1 in
  lockForImport ≫= fun _ =>
  clearForImport tbs force ≫= fun _ =>
  copied ← DumpTables src (import_visit target) ∅;
  match missing_table tbs copied with
  | Some table => fail (importErr ("table " +:+ table +:+ " is missing from the source; migrate both to the same release"))
  | None =>
      rebuild_derived ≫= fun n =>
      tx_stmt "postgres: notify" (fun db => (mkRawDB (rd_schema db) (rd_constraints db) (rd_rows db) (rd_notices db ++ [ChangeKeys]), tt)) ≫= fun _ =>
      mret (<[derivedTable := n]> copied)
  end.

(** [s.Import(ctx, src, opts...)]. *)
Definition Import (src : Source) (force : bool) : storeOp (Database RawDB) (gmap string Z * option error) :=
  method ∅ (transaction "postgres: begin" "postgres: commit" (c ← import_body src force; mret (c, None))).

End Importing.
