(* ===== verification/TransferFacts.v ===== *)
(** * Moving the state to PostgreSQL: what a copy holds

    An import is all or nothing and leaves nothing out. The rows of Transfer.v are
    the rows of the migrated schemas: for each table, the columns in the order
    SQLite's [SELECT *] returns them with their PostgreSQL types, how SQLite's
    driver returns a row and how PostgreSQL's scans it; encoding and scanning are
    inverse. *)

From S2P Require Import Prelude GoStrings GoErrors Oidc Keys Sessions Sql Sqlite SqlSessions Postgres PostgresSessions Transfer.

(** ** Tables *)

Lemma rows_of_set t t' rs db :
  rows_of t' (set_rows t rs db) = if decide (t' = t) then rs else rows_of t' db.
Proof.
  unfold rows_of, set_rows. cbn. case_decide as H; [subst; by rewrite lookup_insert_eq|by rewrite lookup_insert_ne].
Qed.

Lemma elem_of_keys {A} (m : gmap string A) n : n ∈ (map_to_list m).*1 <-> is_Some (m !! n).
Proof.
  rewrite list_elem_of_fmap. split.
  - intros ([k x] & -> & H). apply elem_of_map_to_list in H. cbn. eauto.
  - intros [x H]. exists (n, x). by rewrite elem_of_map_to_list.
Qed.

Lemma dump_names_spec src n :
  n ∈ dump_names src <-> is_Some (src !! n) /\ like_sqlite n = false /\ n <> "schema_migrations".
Proof.
  unfold dump_names. rewrite merge_sort_Permutation, list_elem_of_In, filter_In, <-list_elem_of_In, elem_of_keys.
  rewrite andb_true_iff, !negb_true_iff, String.eqb_neq. tauto.
Qed.

Lemma dump_names_nodup src : NoDup (dump_names src).
Proof.
  unfold dump_names. rewrite merge_sort_Permutation.
  apply NoDup_ListNoDup, List.NoDup_filter, NoDup_ListNoDup, NoDup_fst_map_to_list.
Qed.

Definition only_rows (db db' : RawDB) : Prop := 
  (rd_schema db' = rd_schema db /\ rd_constraints db' = rd_constraints db) /\ rd_notices db' = rd_notices db.

Lemma clear_ok tbs force db db' u :
  clearForImport tbs force db = (db', inr u) ->
  only_rows (tables db) (tables db') /\
  (forall n, n ∈ tbs -> rows_of n (tables db') = []) /\
  (forall n, n ∉ tbs -> rows_of n (tables db') = rows_of n (tables db)) /\
  (force = false -> tables db' = tables db).
Proof.
  revert db. induction tbs as [|n tbs IH]; cbn; intros db.
  - intros [= <- <-]. split_and!; [done|by intros ? ?%not_elem_of_nil|done..].
  - destruct force.
    + intros [(? & _ & ?)|(db1 & [] & Hs%tx_stmt_inr & H)]%Q_bind_cases; [done|].
      injection Hs as Hs. apply IH in H as ([H1 H2] & H3 & H4 & _). rewrite <-Hs in *. split_and!; try done.
      * intros m Hm. destruct (decide (m ∈ tbs)) as [|Hn]; [auto|]. rewrite (H4 m Hn), rows_of_set.
        apply elem_of_cons in Hm as [->|]; [by rewrite decide_True|done].
      * intros m Hm. rewrite not_elem_of_cons in Hm. rewrite H4, rows_of_set by tauto. by destruct (decide (m = n)) as [->|]; [destruct Hm|].
    + intros [(? & _ & ?)|(db1 & held & Hs%tx_stmt_inr & H)]%Q_bind_cases; [done|].
      injection Hs as Hs Hh. destruct held; [done|]. apply negb_false_iff, bool_decide_eq_true in Hh.
      apply IH in H as (H1 & H3 & H4 & H5). rewrite <-Hs in *. split_and!; try done.
      * intros m [->|]%elem_of_cons; [by rewrite (H5 eq_refl)|auto].
      * intros m Hm%not_elem_of_cons. by rewrite (H5 eq_refl).
Qed.

(** ** What the import leaves *)

Section Importing.
Context (time_Parse : string -> string -> option time) (read_fails : dump_read -> option error).

Abbreviation convert_rows := (Transfer.convert_rows time_Parse).
Abbreviation copyTable := (Transfer.copyTable time_Parse).
Abbreviation import_visit := (Transfer.import_visit time_Parse).
Abbreviation visit_tables := (Transfer.visit_tables read_fails).
Abbreviation Import := (Transfer.Import time_Parse read_fails).

(** Table [n] of [db] holds the rows of the source, each value converted to the
    type of its column, and nothing else. *)
Definition table_copied (src : Source) (types : gmap string string) (n : string) (rows : list row) (count : option Z) : Prop :=
  exists columns rs rs',
    src !! n = Some (columns, rs) /\
    columns ⊆ (map_to_list types).*1 /\ (map_to_list types).*1 ⊆ columns /\
    convert_rows n columns types rs = inr rs' /\ forallb (row_storable columns types) rs' = true /\
    rows = as_row columns <$> rs' /\ count = Some (Z.of_nat (length rs)).

Lemma check_columns_ok table columns types :
  NoDup columns ->
  check_columns table columns types = None ->
  columns ⊆ (map_to_list types).*1 /\ (map_to_list types).*1 ⊆ columns.
Proof.
  unfold check_columns. intros Hnd H.
  destruct (List.find _ columns) eqn:E1; [done|].
  assert (Hs : columns ⊆ (map_to_list types).*1).
  { intros c Hc%list_elem_of_In. apply elem_of_keys, not_eq_None_Some.
    by pose proof (find_none _ _ E1 c Hc) as ?%bool_decide_eq_false. }
  split; [done|]. destruct (negb _) eqn:E2 in H.
  - destruct (List.find _ _) eqn:E3 in H; [done|]. intros c Hc%list_elem_of_In.
    by pose proof (find_none _ _ E3 c Hc) as ?%negb_false_iff%bool_decide_eq_true.
  - apply negb_false_iff, Nat.eqb_eq in E2. intros c.
    rewrite <-(submseteq_length_Permutation columns (map_to_list types).*1);
      [done|by apply NoDup_submseteq|by rewrite length_fmap, length_map_to_list, E2].
Qed.

Lemma convert_rows_length table columns types rs rs' :
  convert_rows table columns types rs = inr rs' -> length rs' = length rs.
Proof.
  revert rs'. induction rs as [|r rs IH]; cbn; intros rs'; [by intros [= <-]|].
  repeat case_match; try done. intros [= <-]. cbn. f_equal. auto.
Qed.

Lemma fail_inr {T A} e (db db' : Database T) (a : A) : fail e db = (db', inr a) -> False.
Proof. done. Qed.

(** Rows of one table are added, converted; nothing else changes. *)
Lemma copyTable_ok table columns types rs db db' n :
  copyTable table columns types rs db = (db', inr n) ->
  exists rs', check_columns table columns types = None /\
    convert_rows table columns types rs = inr rs' /\ can_copy table columns types rs' (tables db) = true /\ n = Z.of_nat (length rs) /\
    tables db' = set_rows table (rows_of table (tables db) ++ (as_row columns <$> rs')) (tables db).
Proof.
  unfold Transfer.copyTable. destruct (check_columns _ _ _) eqn:E1; [done|].
  destruct (convert_rows _ _ _ _) as [|rs'] eqn:E2; [done|].
  intros [(? & _ & ?)|(db1 & ok & Hs%tx_stmt_inr & H)]%Q_bind_cases; [done|].
  destruct (can_copy _ _ _ _ _) eqn:E3; injection Hs as Hs <-; [|done].
  injection H as <- <-. exists rs'. by rewrite (convert_rows_length _ _ _ _ _ E2).
Qed.

Definition columns_distinct (src : Source) : Prop := forall n columns rs, src !! n = Some (columns, rs) -> NoDup columns.

Lemma visit_ok src target names acc db db' copied :
  columns_distinct src -> NoDup names -> (forall n, n ∈ names -> is_Some (src !! n)) ->
  (forall n, n ∈ names -> is_Some (target !! n) -> rows_of n (tables db) = []) ->
  visit_tables src names (import_visit target) acc db = (db', inr copied) ->
  only_rows (tables db) (tables db') /\
  (forall n, n ∈ names -> n <> derivedTable /\
     exists types, target !! n = Some types /\ table_copied src types n (rows_of n (tables db')) (copied !! n)) /\
  (forall n, n ∉ names -> rows_of n (tables db') = rows_of n (tables db) /\ copied !! n = acc !! n).
Proof.
  intros Hcd. revert acc db. induction names as [|n names IH]; intros acc db Hnd Hin Hempty; cbn.
  { intros [= <- <-]. split_and!; [done|by intros ? ?%not_elem_of_nil|done]. }
  apply NoDup_cons in Hnd as [Hn Hnd]. destruct (Hin n) as [[columns rs] Hsrc]; [by left|].
  destruct (read_fails _); [done|]. rewrite Hsrc. cbn.
  intros [(? & _ & ?)|(db1 & acc1 & Hv & H)]%Q_bind_cases; [done|].
  unfold Transfer.import_visit in Hv. cbn in Hv. destruct (n =? derivedTable)%string eqn:Hd; [done|].
  apply String.eqb_neq in Hd. destruct (target !! n) as [types|] eqn:Ht; [|done].
  apply Q_bind_cases in Hv as [(? & _ & ?)|(db2 & k & (rs' & Hcc & Hcr & Hcan & -> & Hdb)%copyTable_ok & [= <- <-])]; [done|].
  rewrite (Hempty n) in Hdb by (by left || eauto).
  apply IH in H as (Ho & Hall & Hrest); [|done|intros; apply Hin; by right|].
  2:{ intros m Hm Hs. rewrite Hdb, rows_of_set. destruct (decide (m = n)) as [->|]; [done|]. apply Hempty; [by right|done]. }
  rewrite Hdb in Ho, Hrest. split_and!; [done|..].
  - intros m [->|Hm]%elem_of_cons; [|by apply Hall]. split; [done|]. exists types. split; [done|].
    destruct (Hrest n Hn) as [-> ->]. rewrite rows_of_set, lookup_insert_eq. destruct (decide (n = n)); [|done].
    destruct (check_columns_ok n columns types (Hcd _ _ _ Hsrc) Hcc). exists columns, rs, rs'.
    apply andb_true_iff in Hcan as [? _]. done.
  - intros m [Hmn Hm]%not_elem_of_cons. destruct (Hrest m Hm) as [-> ->].
    rewrite rows_of_set, lookup_insert_ne by done. by destruct (decide (m = n)).
Qed.

(** ** The whole import *)

(** What a committed import leaves in place of [t]. *)
Definition import_done (src : Source) (force : bool) (t t' : RawDB) (copied : gmap string Z) : Prop :=
  (* every table of the target holds exactly the source's, *)
  (forall n types, rd_schema t !! n = Some types -> n <> derivedTable ->
     n ∈ dump_names src /\ table_copied src types n (rows_of n t') (copied !! n)) /\
  (* no table of the source was left behind, *)
  (forall n, n ∈ dump_names src -> is_Some (rd_schema t !! n) /\ n <> derivedTable) /\
  (* the families are those of the tokens, *)
  rows_of derivedTable t' = family_row <$> map_to_list (group_families (rows_of "refresh_tokens" t')) /\
  copied !! derivedTable = Some (Z.of_nat (length (rows_of derivedTable t'))) /\
  (* nothing was overwritten without being told to, *)
  (force = false -> forall n, is_Some (rd_schema t !! n) -> rows_of n t = []) /\
  (* and the replicas are told once. *)
  rd_schema t' = rd_schema t /\ rd_notices t' = rd_notices t ++ [ChangeKeys].

Lemma rebuild_ok db db' n :
  rebuild_derived db = (db', inr n) ->
  can_rebuild (tables db) = true /\ (tables db', n) = rebuild_families (tables db).
Proof.
  unfold rebuild_derived. intros [(? & _ & ?)|(db1 & k & Hs%tx_stmt_inr & H)]%Q_bind_cases; [done|].
  destruct (rebuild_families (tables db)) as [t1 m] eqn:E. destruct (can_rebuild _); injection Hs as Hs Hk; subst k; [|done].
  injection H as -> <-. by rewrite <-Hs.
Qed.

Lemma missing_table_none tbs copied n :
  missing_table tbs copied = None -> n ∈ tbs -> n <> derivedTable -> is_Some (copied !! n).
Proof.
  unfold missing_table. intros H Hn%list_elem_of_In Hd. pose proof (find_none _ _ H n Hn) as Hf. cbn in Hf.
  apply String.eqb_neq in Hd. rewrite Hd in Hf. by apply bool_decide_eq_false, not_eq_None_Some in Hf.
Qed.

Lemma import_body_ok src force db db' copied :
  columns_distinct src ->
  import_body time_Parse read_fails src force db = (db', inr copied) ->
  import_done src force (tables db) (tables db') copied.
Proof.
  intros Hcd. unfold import_body.
  intros [(? & _ & ?)|(db1 & target & Ht & H)]%Q_bind_cases; [done|].
  unfold targetColumns in Ht. apply Q_bind_cases in Ht as [(? & _ & ?)|(db1' & schema & Hs%tx_stmt_inr & Ht)]; [done|].
  destruct (bool_decide _); [done|]. injection Ht as -> ->. injection Hs as Hs Hsch.
  set (tbs := merge_sort _ _) in H.
  assert (Htbs : forall n, n ∈ tbs <-> is_Some (target !! n)).
  { intros n. unfold tbs. rewrite merge_sort_Permutation. apply elem_of_keys. }
  apply Q_bind_cases in H as [(? & _ & ?)|(db2 & [] & Hl%tx_stmt_inr & H)]; [done|]. injection Hl as Hl.
  apply Q_bind_cases in H as [(? & _ & ?)|(db3 & [] & (Ho3 & Hc & _ & Hforce)%clear_ok & H)]; [done|].
  apply Q_bind_cases in H as [(? & _ & ?)|(db4 & cp & Hd & H)]; [done|].
  unfold DumpTables in Hd. destruct (read_fails BeginDump), (read_fails ListTables); try done.
  apply visit_ok in Hd as (Ho4 & Hall & Hrest); [|done|apply dump_names_nodup|intros n; rewrite dump_names_spec; tauto|].
  2:{ intros n _ Hn. by apply Hc, Htbs. }
  destruct (missing_table _ _) eqn:Hm; [done|].
  apply Q_bind_cases in H as [(? & _ & ?)|(db5 & n & [Hcan Hr]%rebuild_ok & H)]; [done|].
  apply Q_bind_cases in H as [(? & _ & ?)|(db6 & [] & Hn%tx_stmt_inr & H)]; [done|].
  injection H as <- <-. injection Hn as Hn. injection Hr as Hr5 Hrn.
  assert (Hsch4 : rd_schema (tables db4) = target) by (destruct Ho3 as [[? _] _], Ho4 as [[? _] _]; congruence).
  assert (Hnot4 : rd_notices (tables db4) = rd_notices (tables db)) by (destruct Ho3 as [_ ?], Ho4 as [_ ?]; congruence).
  assert (Hder : derivedTable ∉ dump_names src) by (intros Hin; by apply Hall in Hin as [? _]).
  assert (Hd4 : rows_of derivedTable (tables db4) = []).
  { rewrite (proj1 (Hrest _ Hder)). apply Hc, Htbs. unfold can_rebuild in Hcan. rewrite Hsch4, !andb_true_iff in Hcan.
    by destruct Hcan as [[?%bool_decide_eq_true _] _]. }
  assert (Hrows : forall n, rows_of n (tables db6) = rows_of n (tables db5)) by (intros; by rewrite <-Hn).
  assert (Hkeep : forall n, n <> derivedTable -> rows_of n (tables db6) = rows_of n (tables db4)).
  { intros m Hmd. rewrite Hrows, Hr5, rows_of_set. by destruct (decide _). }
  assert (Hfam : rows_of derivedTable (tables db6) = family_row <$> map_to_list (group_families (rows_of "refresh_tokens" (tables db4)))).
  { rewrite Hrows, Hr5, rows_of_set, Hd4. by destruct (decide _). }
  unfold import_done. rewrite Hsch. split_and!.
  - intros m types Hm2 Hmd. assert (Hin : m ∈ dump_names src).
    { destruct (decide (m ∈ dump_names src)) as [|Hni]; [done|]. destruct (missing_table_none _ _ m Hm) as [? Hx]; [by apply Htbs|done|].
      by rewrite (proj2 (Hrest _ Hni)) in Hx. }
    split; [done|]. apply Hall in Hin as (_ & types' & Ht' & Hcopy). rewrite Ht' in Hm2. injection Hm2 as ->.
    by rewrite Hkeep, lookup_insert_ne by done.
  - intros m (Hmd & types & Ht & _)%Hall. eauto.
  - by rewrite Hfam, (Hkeep "refresh_tokens") by done.
  - by rewrite lookup_insert_eq, Hfam, Hrn.
  - intros Hf m Hmt%Htbs. rewrite <-(Hc m Hmt), (Hforce Hf). by rewrite <-Hl, <-Hs.
  - rewrite <-Hn, Hr5. cbn. congruence.
  - rewrite <-Hn, Hr5. cbn. by rewrite Hnot4.
Qed.

Lemma import_run (src : Source) (force : bool) (db db' : Database RawDB) (copied : gmap string Z) (e : option error) :
  columns_distinct src ->
  Import src force db = (db', (copied, e)) ->
  let t := slot_others (next_slot db) (tables db) in
  (e = None -> import_done src force t (tables db') copied) /\
  (e <> None -> copied = ∅ /\ (tables db' = t \/ exists counts, import_done src force t (tables db') counts)).
Proof.
  intros Hcd Hres t. unfold Transfer.Import, method, transaction in Hres.
  destruct ((after _ _ ≫= _) db) as [db1 r] eqn:H.
  apply Q_bind_cases in H as [(err & Ha & ->)|(db0 & [] & Ha & H)]; pose proof (after_outcome _ _ _ _ _ Ha) as Ht.
  { injection Hres as <- <- <-. split; [done|]. intros _. split; [done|]. by left. }
  fold t in Ht. rewrite <-Ht.
  assert (Hbody : forall db2 a, (import_body time_Parse read_fails src force ≫= fun c => mret (c, None : option error)) db0 = (db2, inr a) ->
            a.2 = None /\ import_done src force (tables db0) (tables db2) a.1).
  { intros db2 a [(? & _ & ?)|(db3 & c & Hi & [= <- <-])]%Q_bind_cases; [done|]. split; [done|]. by apply import_body_ok. }
  apply in_tx_run in H as [(Hsame & Hno & Hr)|(a & db2 & Hq & Hsame & [-> | ->])].
  - destruct r as [err|[c [err|]]]; [|exfalso|by destruct (Hno c)].
    + injection Hres as <- <- <-. split; [done|]. intros _. split; [done|]. by left.
    + destruct Hr as [|[dbq [? _]%Hbody]]; done.
  - injection Hres as <- <- <-. split; [|done]. intros _. rewrite Hsame. by apply (Hbody db2 (a, None)).
  - injection Hres as <- <- <-. split; [done|]. intros _. split; [done|]. right. exists a. rewrite Hsame. by apply (Hbody db2 (a, None)).
Qed.

(** A state copy is all or nothing, and leaves nothing out. When [Import]
    answers without an error, every table of the target but the derived one
    holds exactly the rows of the source's table of that name, each value
    converted to the type of its column, every table and column of either side
    has its counterpart on the other, refresh_families holds what migration
    0015 would compute from the tokens, the counts it returns are right, without
    force the target was empty before, and the replicas are told to reload
    their keys. When it answers with an error the target holds what it held, or
    the whole copy where only the commit's answer was lost. *)
Theorem import_exact (src : Source) (force : bool) (db db' : Database RawDB) (copied : gmap string Z) (e : option error) :
  columns_distinct src ->
  Import src force db = (db', (copied, e)) ->
  let t := slot_others (next_slot db) (tables db) in
  (e = None -> import_done src force t (tables db') copied) /\
  (e <> None -> copied = ∅ /\ (tables db' = t \/ exists counts, import_done src force t (tables db') counts)).
Proof. apply import_run. Qed.

End Importing.

(** ** Rows *)

Definition text := "text".
Definition timestamptz := "timestamp with time zone".

Definition opt_time (t : option time) : value := match t with Some x => VTime x | None => VNull end.
(** [nullString(s)]. *)
Definition null_text (s : string) : value := if (s =? "")%string then VNull else VText s.

(** [rows.Scan] into a string, a byte slice, an integer, a time, a
    [sql.NullString] and a [*time.Time]. *)
Definition scan_text (v : option value) : option string := match v with Some (VText s) => Some s | _ => None end.
Definition scan_bytes (v : option value) : option string := match v with Some (VBytes s) => Some s | _ => None end.
Definition scan_int (v : option value) : option Z := match v with Some (VInt n) => Some n | _ => None end.
Definition scan_time (v : option value) : option time := match v with Some (VTime t) => Some t | _ => None end.
Definition scan_null_text (v : option value) : option string :=
  match v with Some (VText s) => Some s | Some VNull => Some "" | _ => None end.
Definition scan_opt_time (v : option value) : option (option time) :=
  match v with Some (VTime t) => Some (Some t) | Some VNull => Some None | _ => None end.

Lemma scan_opt_time_ok t : scan_opt_time (Some (opt_time t)) = Some t.
Proof. by destruct t. Qed.

Lemma scan_null_text_ok s : scan_null_text (Some (null_text s)) = Some s.
Proof. unfold null_text. by destruct (String.eqb_spec s ""); subst. Qed.

(** Times of the application's clock are whole microseconds. *)
Definition whole_us (t : time) : Prop := t mod Microsecond = 0.
Definition whole_us_opt (t : option time) : Prop := match t with Some x => whole_us x | None => True end.

(** A value a column of type [ty] stores as it is. *)
Definition fits (ty : string) (v : value) : Prop :=
  match v with
  | VNull => True
  | VText _ => ty = text
  | VBytes _ => ty = "bytea"
  | VInt _ => ty = "integer"
  | VTime t => ty = timestamptz /\ whole_us t
  | VOther _ => False
  end.

(** How the rows of a table of [R] are stored: its columns with their types, the
    row the driver returns for [r] under key [k], how a row is scanned, and which
    rows the store holds. *)
Class RowCodec (R : Type) := {
  rc_columns : list (string * string);
  rc_enc : string -> R -> list value;
  rc_dec : row -> option (string * R);
  rc_wf : string -> R -> Prop
}.

(** What SQLite returns fits the columns as it is and scans back. *)
Class RowCodecOk (R : Type) `{RowCodec R} : Prop := {
  rc_fits : forall k r, rc_wf k r -> Forall2 (fun c v => fits c.2 v) rc_columns (rc_enc k r);
  rc_left_inverse : forall k r, rc_wf k r -> rc_dec (as_row rc_columns.*1 (rc_enc k r)) = Some (k, r);
  rc_distinct : NoDup rc_columns.*1
}.

Lemma fits_importValue time_Parse ty v : fits ty v -> importValue time_Parse v ty = inr v.
Proof.
  destruct v as [|s|s|n|t|g]; cbn; try done; try (by intros ->).
  intros [-> Ht]. unfold importValue, truncate_us, time_Truncate. cbn -[Z.modulo]. rewrite Ht. do 2 f_equal. lia.
Qed.

(** The value of a column. *)
Fixpoint column (c : string) (cs : list string) (vs : list value) : option value :=
  match cs, vs with
  | c' :: cs, v :: vs => if (c' =? c)%string then Some v else column c cs vs
  | _, _ => None
  end.

Lemma as_row_column c cs vs : as_row cs vs !! c = column c cs vs.
Proof.
  revert vs. induction cs as [|c' cs IH]; intros [|v vs]; try done.
  change (as_row (c' :: cs) (v :: vs)) with (<[c' := v]> (as_row cs vs)). cbn [column].
  destruct (String.eqb_spec c' c) as [->|]; [unfold row; by rewrite lookup_insert_eq|unfold row; by rewrite lookup_insert_ne].
Qed.

Lemma fits_opt_time t : whole_us_opt t -> fits timestamptz (opt_time t).
Proof. by destruct t. Qed.

Lemma fits_null_text s : fits text (null_text s).
Proof. unfold null_text. by case_match. Qed.

Create HintDb codec.
#[export] Hint Resolve fits_opt_time fits_null_text : codec.

Ltac codec_ok :=
  split;
  [intros ? r Hwf; cbn in *; destruct_and?; repeat apply Forall2_cons_2; cbn; try apply Forall2_nil_2; auto with codec
  |intros ? r Hwf; unfold rc_dec, rc_wf in *; cbn -[lookup as_row] in *; destruct_and?;
     rewrite !as_row_column; cbn -[opt_time null_text scan_opt_time scan_null_text];
     rewrite ?scan_opt_time_ok, ?scan_null_text_ok; cbn; destruct r;
     repeat match goal with
            | x : AuthCode |- _ => destruct x
            | x : Refresh |- _ => destruct x
            end; cbn in *; by subst
  |by apply (bool_decide_unpack _); vm_compute].

#[export] Instance request_codec : RowCodec AuthRequest := {
  rc_columns := [("internal_state", text); ("client_id", text); ("redirect_uri", text); ("scope", text);
    ("client_state", text); ("code_challenge", text); ("code_challenge_method", text);
    ("created_at", timestamptz); ("expires_at", timestamptz); ("nonce", text); ("connector_id", text)];
  rc_enc := fun k r => [VText k; VText (ar_ClientID r); VText (ar_RedirectURI r); VText (ar_Scope r);
    VText (ar_ClientState r); VText (ar_CodeChallenge r); VText (ar_CodeChallengeMethod r);
    VTime (ar_CreatedAt r); VTime (ar_ExpiresAt r); VText (ar_Nonce r); VText (ar_ConnectorID r)];
  rc_dec := fun r =>
    k ← scan_text (r !! "internal_state"); conn ← scan_text (r !! "connector_id"); client ← scan_text (r !! "client_id");
    uri ← scan_text (r !! "redirect_uri"); scope ← scan_text (r !! "scope"); state ← scan_text (r !! "client_state");
    chal ← scan_text (r !! "code_challenge"); meth ← scan_text (r !! "code_challenge_method"); nonce ← scan_text (r !! "nonce");
    cr ← scan_time (r !! "created_at"); ex ← scan_time (r !! "expires_at");
    Some (k, mkAuthRequest k conn client uri scope state chal meth nonce cr ex);
  rc_wf := fun k r => ar_InternalState r = k /\ whole_us (ar_CreatedAt r) /\ whole_us (ar_ExpiresAt r)
}.
#[export] Instance request_codec_ok : RowCodecOk AuthRequest.
Proof. codec_ok. Qed.

#[export] Instance code_codec : RowCodec CodeRow := {
  rc_columns := [("code_hash", text); ("client_id", text); ("redirect_uri", text); ("email", text); ("scope", text);
    ("code_challenge", text); ("code_challenge_method", text); ("created_at", timestamptz); ("expires_at", timestamptz);
    ("nonce", text); ("subject", text); ("consumed_at", timestamptz); ("family_id", text); ("connector_id", text)];
  rc_enc := fun k r => let ac := cr_code r in
    [VText k; VText (ac_ClientID ac); VText (ac_RedirectURI ac); VText (ac_Email ac); VText (ac_Scope ac);
     VText (ac_CodeChallenge ac); VText (ac_CodeChallengeMethod ac); VTime (ac_CreatedAt ac); VTime (ac_ExpiresAt ac);
     VText (ac_Nonce ac); VText (ac_Subject ac); opt_time (cr_consumed r); VText (ac_FamilyID ac); VText (ac_ConnectorID ac)];
  rc_dec := fun r =>
    k ← scan_text (r !! "code_hash"); client ← scan_text (r !! "client_id"); uri ← scan_text (r !! "redirect_uri");
    conn ← scan_text (r !! "connector_id"); sub ← scan_text (r !! "subject"); email ← scan_text (r !! "email");
    scope ← scan_text (r !! "scope"); chal ← scan_text (r !! "code_challenge"); meth ← scan_text (r !! "code_challenge_method");
    nonce ← scan_text (r !! "nonce"); fam ← scan_text (r !! "family_id"); cr ← scan_time (r !! "created_at"); ex ← scan_time (r !! "expires_at");
    used ← scan_opt_time (r !! "consumed_at");
    Some (k, mkCodeRow (mkAuthCode "" client uri conn sub email scope chal meth nonce fam cr ex) used);
  rc_wf := fun _ r => ac_Code (cr_code r) = "" /\ whole_us (ac_CreatedAt (cr_code r)) /\
    whole_us (ac_ExpiresAt (cr_code r)) /\ whole_us_opt (cr_consumed r)
}.

#[export] Instance code_codec_ok : RowCodecOk CodeRow.
Proof. codec_ok. Qed.

#[export] Instance token_codec : RowCodec TokenRow := {
  rc_columns := [("token_hash", text); ("jti", text); ("client_id", text); ("email", text);
    ("created_at", timestamptz); ("expires_at", timestamptz); ("subject", text); ("auth_time", timestamptz);
    ("family_id", text); ("consumed_at", timestamptz); ("revoked_at", timestamptz); ("connector_id", text)];
  rc_enc := fun k r => let rt := tr_refresh r in
    [VText k; VText (rt_JTI rt); VText (rt_ClientID rt); VText (rt_Email rt);
     VTime (rt_CreatedAt rt); VTime (rt_ExpiresAt rt); VText (rt_Subject rt); VTime (rt_AuthTime rt);
     VText (rt_FamilyID rt); opt_time (tr_consumed r); opt_time (tr_revoked r); VText (rt_ConnectorID rt)];
  rc_dec := fun r =>
    k ← scan_text (r !! "token_hash"); jti ← scan_text (r !! "jti"); client ← scan_text (r !! "client_id");
    conn ← scan_text (r !! "connector_id"); sub ← scan_text (r !! "subject"); email ← scan_text (r !! "email");
    fam ← scan_text (r !! "family_id"); auth ← scan_time (r !! "auth_time"); cr ← scan_time (r !! "created_at");
    ex ← scan_time (r !! "expires_at"); used ← scan_opt_time (r !! "consumed_at"); rev ← scan_opt_time (r !! "revoked_at");
    Some (k, mkTokenRow (mkRefresh "" jti client conn sub email fam auth cr ex) used rev);
  rc_wf := fun _ r => rt_Token (tr_refresh r) = "" /\ whole_us (rt_AuthTime (tr_refresh r)) /\
    whole_us (rt_CreatedAt (tr_refresh r)) /\ whole_us (rt_ExpiresAt (tr_refresh r)) /\
    whole_us_opt (tr_consumed r) /\ whole_us_opt (tr_revoked r)
}.

#[export] Instance token_codec_ok : RowCodecOk TokenRow.
Proof. codec_ok. Qed.

#[export] Instance device_codec : RowCodec DeviceCode := {
  rc_columns := [("device_code_hash", text); ("user_code", text); ("client_id", text); ("scope", text); ("email", text);
    ("approved_at", timestamptz); ("denied_at", timestamptz); ("last_polled_at", timestamptz);
    ("interval_seconds", "integer"); ("created_at", timestamptz); ("expires_at", timestamptz);
    ("subject", text); ("connector_id", text)];
  rc_enc := fun k r =>
    [VText k; VText (dc_UserCode r); VText (dc_ClientID r); VText (dc_Scope r); null_text (dc_Email r);
     opt_time (dc_ApprovedAt r); opt_time (dc_DeniedAt r); opt_time (dc_LastPolledAt r);
     VInt (dc_IntervalSeconds r); VTime (dc_CreatedAt r); VTime (dc_ExpiresAt r);
     null_text (dc_Subject r); null_text (dc_ConnectorID r)];
  rc_dec := fun r =>
    k ← scan_text (r !! "device_code_hash"); user ← scan_text (r !! "user_code"); client ← scan_text (r !! "client_id");
    scope ← scan_text (r !! "scope"); conn ← scan_null_text (r !! "connector_id"); sub ← scan_null_text (r !! "subject");
    email ← scan_null_text (r !! "email"); app ← scan_opt_time (r !! "approved_at"); den ← scan_opt_time (r !! "denied_at");
    poll ← scan_opt_time (r !! "last_polled_at"); n ← scan_int (r !! "interval_seconds");
    cr ← scan_time (r !! "created_at"); ex ← scan_time (r !! "expires_at");
    Some (k, mkDeviceCode "" user client scope conn sub email app den poll n cr ex);
  rc_wf := fun _ r => dc_Code r = "" /\ whole_us (dc_CreatedAt r) /\ whole_us (dc_ExpiresAt r) /\
    whole_us_opt (dc_ApprovedAt r) /\ whole_us_opt (dc_DeniedAt r) /\ whole_us_opt (dc_LastPolledAt r)
}.

#[export] Instance device_codec_ok : RowCodecOk DeviceCode.
Proof. codec_ok. Qed.

#[export] Instance session_codec : RowCodec BrowserSession := {
  rc_columns := [("sid_hash", text); ("email", text); ("created_at", timestamptz); ("expires_at", timestamptz);
    ("subject", text); ("connector_id", text)];
  rc_enc := fun k r =>
    [VText k; VText (bs_Email r); VTime (bs_CreatedAt r); VTime (bs_ExpiresAt r); VText (bs_Subject r); VText (bs_ConnectorID r)];
  rc_dec := fun r =>
    k ← scan_text (r !! "sid_hash"); conn ← scan_text (r !! "connector_id"); sub ← scan_text (r !! "subject"); email ← scan_text (r !! "email");
    cr ← scan_time (r !! "created_at"); ex ← scan_time (r !! "expires_at");
    Some (k, mkBrowserSession "" conn sub email cr ex);
  rc_wf := fun _ r => bs_SID r = "" /\ whole_us (bs_CreatedAt r) /\ whole_us (bs_ExpiresAt r)
}.

#[export] Instance session_codec_ok : RowCodecOk BrowserSession.
Proof. codec_ok. Qed.

#[export] Instance keypair_codec : RowCodec Keypair := {
  rc_columns := [("kid", text); ("alg", text); ("private_pem", "bytea"); ("public_pem", "bytea");
    ("created_at", timestamptz); ("retired_at", timestamptz)];
  rc_enc := fun k r =>
    [VText k; VText (Alg r); VBytes (PrivatePEM r); VBytes (PublicPEM r); VTime (CreatedAt r); opt_time (RetiredAt r)];
  rc_dec := fun r =>
    k ← scan_text (r !! "kid"); alg ← scan_text (r !! "alg"); priv ← scan_bytes (r !! "private_pem"); pub ← scan_bytes (r !! "public_pem");
    cr ← scan_time (r !! "created_at"); ret ← scan_opt_time (r !! "retired_at");
    Some (k, mkKeypair k alg priv pub cr ret);
  rc_wf := fun k r => Kid r = k /\ whole_us (CreatedAt r) /\ whole_us_opt (RetiredAt r)
}.

#[export] Instance keypair_codec_ok : RowCodecOk Keypair.
Proof. codec_ok. Qed.

#[export] Instance ikey_codec : RowCodec IntegrationKey := {
  rc_columns := [("id", text); ("namespace", text); ("role", text); ("owner", text); ("jti", text);
    ("created_at", timestamptz); ("expires_at", timestamptz); ("revoked_at", timestamptz)];
  rc_enc := fun k r =>
    [VText k; VText (ik_Namespace r); VText (ik_Role r); VText (ik_Owner r); VText (ik_JTI r);
     VTime (ik_CreatedAt r); opt_time (ik_ExpiresAt r); opt_time (ik_RevokedAt r)];
  rc_dec := fun r =>
    k ← scan_text (r !! "id"); ns ← scan_text (r !! "namespace"); role ← scan_text (r !! "role"); owner ← scan_text (r !! "owner");
    jti ← scan_text (r !! "jti"); cr ← scan_time (r !! "created_at"); ex ← scan_opt_time (r !! "expires_at"); rev ← scan_opt_time (r !! "revoked_at");
    Some (k, mkIntegrationKey k ns role owner jti cr ex rev);
  rc_wf := fun k r => ik_ID r = k /\ whole_us (ik_CreatedAt r) /\ whole_us_opt (ik_ExpiresAt r) /\ whole_us_opt (ik_RevokedAt r)
}.

#[export] Instance ikey_codec_ok : RowCodecOk IntegrationKey.
Proof. codec_ok. Qed.

#[export] Instance denylist_codec : RowCodec time := {
  rc_columns := [("jti", text); ("revoked_at", timestamptz)];
  rc_enc := fun k t => [VText k; VTime t];
  rc_dec := fun r => k ← scan_text (r !! "jti"); t ← scan_time (r !! "revoked_at"); Some (k, t);
  rc_wf := fun _ t => whole_us t
}.

#[export] Instance denylist_codec_ok : RowCodecOk time.
Proof.
  split; [by repeat constructor|done|by apply (bool_decide_unpack _); vm_compute].
Qed.

(** ** Tables *)

Section Tables.
Context {R : Type} `{RowCodecOk R}.

Definition enc_rows (m : gmap string R) : list (list value) := (fun kr => rc_enc kr.1 kr.2) <$> map_to_list m.
Definition dec_rows (rs : list row) : option (gmap string R) := list_to_map <$> mapM rc_dec rs.
Definition table_wf (m : gmap string R) : Prop := map_Forall rc_wf m.
Definition table_types : gmap string string := list_to_map rc_columns.

Lemma enc_length k r : rc_wf k r -> length (rc_enc k r) = length rc_columns.*1.
Proof. intros Hwf. apply rc_fits, Forall2_length in Hwf. by rewrite length_fmap. Qed.

Lemma convert_fits time_Parse n cs vs :
  Forall2 (fun c v => fits c.2 v) cs vs -> (forall c, c ∈ cs -> table_types !! c.1 = Some c.2) ->
  convert_row time_Parse n cs.*1 table_types vs = inr vs.
Proof.
  induction 1 as [|c v cs vs Hf _ IH]; intros Hc; [done|]. cbn. rewrite (Hc c) by (by left). cbn.
  rewrite (fits_importValue _ _ _ Hf), IH by (intros; apply Hc; by right). done.
Qed.

Lemma convert_enc time_Parse n k r : rc_wf k r -> convert_row time_Parse n rc_columns.*1 table_types (rc_enc k r) = inr (rc_enc k r).
Proof.
  intros Hwf. apply convert_fits; [by apply rc_fits|]. intros [c ty] Hc. apply elem_of_list_to_map; [apply rc_distinct|done].
Qed.

(** Every row of the source is stored as it is, *)
Lemma convert_enc_rows time_Parse n m :
  table_wf m -> convert_rows time_Parse n rc_columns.*1 table_types (enc_rows m) = inr (enc_rows m).
Proof.
  intros Hwf. unfold enc_rows. assert (Hall : Forall (fun kr => rc_wf kr.1 kr.2) (map_to_list m)).
  { apply Forall_forall. intros [k r] Hkr%elem_of_map_to_list. by apply Hwf. }
  induction Hall as [|[k r] l Hkr _ IH]; [done|]. cbn [fmap list_fmap convert_rows fst snd].
  rewrite enc_length, Nat.eqb_refl by done. cbn [negb]. by rewrite convert_enc, IH.
Qed.

(** and the table scans back. *)
Lemma dec_enc_rows m : table_wf m -> dec_rows (as_row rc_columns.*1 <$> enc_rows m) = Some m.
Proof.
  intros Hwf. unfold dec_rows, enc_rows. rewrite <-list_fmap_compose.
  assert (Hm : mapM rc_dec ((fun kr => as_row rc_columns.*1 (rc_enc kr.1 kr.2)) <$> map_to_list m) = Some (map_to_list m)).
  { apply mapM_Some. rewrite Forall2_fmap_l. apply Forall_Forall2_diag, Forall_forall. intros [k r] Hkr%elem_of_map_to_list.
    by apply rc_left_inverse, Hwf. }
  change (as_row rc_columns.*1 ∘ _) with (fun kr : string * R => as_row rc_columns.*1 (rc_enc kr.1 kr.2)).
  rewrite Hm. cbn. f_equal. apply list_to_map_to_list.
Qed.

Lemma check_columns_table n : check_columns n rc_columns.*1 table_types = None.
Proof.
  unfold check_columns. destruct (List.find _ _) as [c|] eqn:E.
  - apply find_some in E as [Hc%list_elem_of_In Hn%bool_decide_eq_true].
    apply list_elem_of_fmap in Hc as ([c' ty] & -> & Hc). cbn in Hn.
    unfold table_types in Hn. apply (elem_of_list_to_map_1 (M := gmap string)) in Hc; [|apply rc_distinct]. congruence.
  - unfold table_types. rewrite map_size_list_to_map by apply rc_distinct. by rewrite length_fmap, Nat.eqb_refl.
Qed.

End Tables.

(** ** Families *)

(** A token row's family and whether it is revoked, as the statement reads them. *)
Definition revoked_of (r : row) : value := default VNull (r !! "revoked_at").
Definition is_time (v : value) : bool := match v with VTime _ => true | _ => false end.
Definition null_or_time (v : value) : Prop := v = VNull \/ is_time v = true.

Lemma min_time_spec a b :
  null_or_time a -> null_or_time b -> null_or_time (min_time a b) /\ is_time (min_time a b) = is_time a || is_time b.
Proof. unfold null_or_time. destruct a, b; cbn; intros [|] [|]; try done; auto. Qed.

Lemma group_spec rows f :
  Forall (fun r => null_or_time (revoked_of r)) rows ->
  (is_Some (group_families rows !! f) <-> Exists (fun r => family_of r = Some f) rows) /\
  (forall v, group_families rows !! f = Some v -> null_or_time v /\
     (is_time v = true <-> Exists (fun r => family_of r = Some f /\ is_time (revoked_of r) = true) rows)).
Proof.
  induction 1 as [|r rows Hr _ [IH1 IH2]].
  { split; [|done]. rewrite Exists_nil. split; [by intros []|done]. }
  assert (Hcons : forall P : row -> Prop, Exists P (r :: rows) <-> P r \/ Exists P rows) by (intros; apply Exists_cons).
  assert (Hskip : family_of r <> Some f -> group_families (r :: rows) !! f = group_families rows !! f).
  { cbn [group_families foldr]. fold (group_families rows). intros Hf. destruct (family_of r); [|done].
    apply lookup_insert_ne. congruence. }
  destruct (decide (family_of r = Some f)) as [Hf|Hf].
  2:{ rewrite (Hskip Hf), Hcons. split; [rewrite IH1; clear -Hf; tauto|].
      intros v Hv. rewrite Hcons. destruct (IH2 v Hv) as [Hn ->]. split; [done|]. clear -Hf. tauto. }
  clear Hskip. rewrite Hcons. cbn [group_families foldr]. fold (group_families rows). rewrite Hf, lookup_insert_eq.
  split; [split; [by left|by eexists]|].
  intros v [= <-]. rewrite Hcons. fold (revoked_of r). destruct (group_families rows !! f) as [w|] eqn:Ew; cbn.
  - destruct (IH2 w eq_refl) as [Hw <-]. destruct (min_time_spec _ _ Hr Hw) as [? ->].
    split; [done|]. rewrite orb_true_iff. clear -Hf. tauto.
  - destruct IH1 as [_ IH1].
    assert (Hno : ~ Exists (fun r => family_of r = Some f /\ is_time (revoked_of r) = true) rows).
    { intros Hx. destruct IH1 as [? [=]]. eapply Exists_impl; [done|]. by intros ? []. }
    destruct (min_time_spec (revoked_of r) VNull Hr) as [? ->]; [by left|].
    split; [done|]. rewrite orb_false_r. clear -Hno Hf. tauto.
Qed.

Definition token_columns : list string := (rc_columns (R := TokenRow)).*1.

(** The families PostgreSQL derives from the tokens. *)
Definition token_rows (m : gmap string TokenRow) : list row := as_row token_columns <$> enc_rows m.
Definition when_revoked (v : value) : option time := match v with VTime t => Some t | _ => None end.
Definition families_of (m : gmap string TokenRow) : gmap string (option time) := when_revoked <$> group_families (token_rows m).

Definition dec_families (rs : list row) : option (gmap string (option time)) :=
  list_to_map <$> mapM (fun r => f ← scan_text (r !! "family_id"); x ← scan_opt_time (r !! "revoked_at"); Some (f, x)) rs.

Lemma token_row_family k (r : TokenRow) : family_of (as_row token_columns (rc_enc k r)) = Some (row_family r).
Proof. unfold family_of. by rewrite as_row_column. Qed.

Lemma token_row_revoked k (r : TokenRow) : revoked_of (as_row token_columns (rc_enc k r)) = opt_time (tr_revoked r).
Proof. unfold revoked_of. by rewrite as_row_column. Qed.

Lemma token_rows_exists (P : row -> Prop) m :
  Exists P (token_rows m) <-> exists k r, m !! k = Some r /\ P (as_row token_columns (rc_enc k r)).
Proof.
  unfold token_rows, enc_rows. rewrite !Exists_fmap, Exists_exists. split.
  - intros ([k r] & Hkr%elem_of_map_to_list & HP). eauto.
  - intros (k & r & Hkr & HP). exists (k, r). by rewrite elem_of_map_to_list.
Qed.

Lemma token_rows_null_or_time m : Forall (fun r => null_or_time (revoked_of r)) (token_rows m).
Proof.
  unfold token_rows, enc_rows. rewrite !Forall_fmap. apply Forall_true. intros [k r]. cbn -[as_row rc_enc].
  rewrite token_row_revoked. destruct (tr_revoked r); [by right|by left].
Qed.

Lemma families_of_spec m f :
  (is_Some (families_of m !! f) <-> family_exists f m = true) /\
  (forall x, families_of m !! f = Some x -> bool_decide (is_Some x) = family_revoked f m).
Proof.
  destruct (group_spec (token_rows m) f (token_rows_null_or_time m)) as [H1 H2]. unfold families_of. rewrite lookup_fmap. split.
  - rewrite fmap_is_Some, H1, token_rows_exists, family_exists_true. setoid_rewrite token_row_family.
    split; intros (k & r & Hk & Hf); exists k, r; split; congruence.
  - intros x (v & Hv & ->)%fmap_Some. destruct (H2 v Hv) as [_ Ht]. rewrite token_rows_exists in Ht.
    apply eq_true_iff_eq. rewrite bool_decide_eq_true, family_revoked_true. trans (is_time v = true).
    { destruct v; cbn; split; try done; by intros []. }
    rewrite Ht. setoid_rewrite token_row_family. setoid_rewrite token_row_revoked.
    split; intros (k & r & Hk & Hf & Hr); exists k, r; (split_and!; [done|congruence|]).
    + unfold revoked. by destruct (tr_revoked r).
    + apply bool_decide_eq_true in Hr as [t ->]. done.
Qed.

Lemma dec_families_ok G :
  map_Forall (fun _ v => null_or_time v) G -> dec_families (family_row <$> map_to_list G) = Some (when_revoked <$> G).
Proof.
  intros HG. unfold dec_families.
  enough (Hm : mapM (fun r : row => f ← scan_text (r !! "family_id"); x ← scan_opt_time (r !! "revoked_at"); Some (f, x))
            (family_row <$> map_to_list G) = Some (prod_map id when_revoked <$> map_to_list G)).
  { rewrite Hm. cbn. f_equal. by rewrite list_to_map_fmap, list_to_map_to_list. }
  apply mapM_Some. rewrite Forall2_fmap. apply Forall_Forall2_diag, Forall_forall. intros [f v] Hfv%elem_of_map_to_list.
  apply HG in Hfv. unfold family_row. cbn -[lookup]. change ({["family_id" := VText f; "revoked_at" := v]} !! "family_id") with (Some (VText f)).
  change ({["family_id" := VText f; "revoked_at" := v]} !! "revoked_at") with (Some v). destruct v, Hfv as [|]; try done.
Qed.
