(* ===== verification/StateCopy.v ===== *)
(** * Copying a migrated store (cmd/servercmd/statecopy.go)

    The state copy between the two migrated schemas: what PostgreSQL then serves
    is the state SQLite served, and a copy that nothing disturbs goes through. *)

From stdpp Require Import pretty.
From S2P Require Import Prelude GoStrings GoErrors Oidc Keys Sessions Sql Sqlite SqlSessions Postgres PostgresSessions.
From S2P Require Import Transfer TransferFacts.

(** ** The migrated schemas *)

Definition table_of {R} `{RowCodec R} (m : gmap string R) : list string * list (list value) :=
  ((rc_columns (R := R)).*1, enc_rows m).

(** The SQLite database of a store, with its migrations' history. *)
Definition source_of (t : Tables) (history : list string * list (list value)) : Source := list_to_map [
  ("auth_codes", table_of (auth_codes t));
  ("auth_requests", table_of (auth_requests t));
  ("browser_sessions", table_of (browser_sessions t));
  ("device_codes", table_of (device_codes t));
  ("integration_keys", table_of (integration_keys t));
  ("jti_denylist", table_of (jti_denylist t));
  ("keypairs", table_of (keypairs t));
  ("refresh_tokens", table_of (refresh_tokens t));
  ("schema_migrations", history)].

(** The tables of PostgreSQL's migrations and their column types: the baseline,
    [refresh_families] of 0015 and the [connector_id] columns of 0016. *)
Definition pg_schema : gmap string (gmap string string) := list_to_map [
  ("auth_codes", table_types (R := CodeRow));
  ("auth_requests", table_types (R := AuthRequest));
  ("browser_sessions", table_types (R := BrowserSession));
  ("device_codes", table_types (R := DeviceCode));
  ("integration_keys", table_types (R := IntegrationKey));
  ("jti_denylist", table_types (R := time));
  ("keypairs", table_types (R := Keypair));
  ("refresh_tokens", table_types (R := TokenRow));
  ("refresh_families", {["family_id" := text; "revoked_at" := timestamptz]})].

(** And their constraints. *)
Definition primary (c : string) : list constraint := [NotNull c; Unique c].
Definition not_null (cs : list string) : list constraint := NotNull <$> cs.
Definition pg_constraints : gmap string (list constraint) := list_to_map [
  ("auth_codes", primary "code_hash" ++ not_null ["client_id"; "redirect_uri"; "subject"; "email"; "scope"; "code_challenge";
     "code_challenge_method"; "nonce"; "created_at"; "expires_at"; "family_id"; "connector_id"]);
  ("auth_requests", primary "internal_state" ++ not_null ["client_id"; "redirect_uri"; "scope"; "client_state"; "code_challenge";
     "code_challenge_method"; "nonce"; "created_at"; "expires_at"; "connector_id"]);
  ("browser_sessions", primary "sid_hash" ++ not_null ["subject"; "email"; "created_at"; "expires_at"; "connector_id"]);
  ("device_codes", primary "device_code_hash" ++ Unique "user_code" ::
     not_null ["user_code"; "client_id"; "scope"; "interval_seconds"; "created_at"; "expires_at"]);
  ("integration_keys", primary "id" ++ Unique "jti" :: OneOf "role" (VText <$> ["read"; "write"; "worker"; "admin"]) ::
     not_null ["namespace"; "role"; "owner"; "jti"; "created_at"]);
  ("jti_denylist", primary "jti" ++ not_null ["revoked_at"]);
  ("keypairs", primary "kid" ++ not_null ["alg"; "private_pem"; "public_pem"; "created_at"]);
  ("refresh_tokens", primary "token_hash" ++ not_null ["jti"; "client_id"; "subject"; "email"; "family_id"; "auth_time";
     "created_at"; "expires_at"; "connector_id"]);
  ("refresh_families", primary "family_id")].

(** What the PostgreSQL store reads. *)
Definition read_back (db : RawDB) : option PgTables :=
  reqs ← dec_rows (rows_of "auth_requests" db);
  cods ← dec_rows (rows_of "auth_codes" db);
  toks ← dec_rows (rows_of "refresh_tokens" db);
  devs ← dec_rows (rows_of "device_codes" db);
  sess ← dec_rows (rows_of "browser_sessions" db);
  kps ← dec_rows (rows_of "keypairs" db);
  iks ← dec_rows (rows_of "integration_keys" db);
  den ← dec_rows (rows_of "jti_denylist" db);
  fams ← dec_families (rows_of derivedTable db);
  Some (mkPgTables (mkTables reqs cods toks devs sess kps iks den) fams (rd_notices db)).

(** What the SQLite store keeps: keys agree with the rows, secrets are not
    stored, times are those of the application's clock. *)
Definition store_wf (t : Tables) : Prop :=
  table_wf (auth_requests t) /\ table_wf (auth_codes t) /\ table_wf (refresh_tokens t) /\ table_wf (device_codes t) /\
  table_wf (browser_sessions t) /\ table_wf (keypairs t) /\ table_wf (integration_keys t) /\ table_wf (jti_denylist t).

Definition state_tables : list string := ["auth_codes"; "auth_requests"; "browser_sessions"; "device_codes";
  "integration_keys"; "jti_denylist"; "keypairs"; "refresh_tokens"].

(** PostgreSQL takes every row of the source. *)
Definition pg_holds (src : Source) : bool :=
  forallb (fun n =>
    let '(columns, rs) := default ([], []) (src !! n) in
    can_copy n columns (default ∅ (pg_schema !! n)) rs (mkRawDB pg_schema pg_constraints ∅ [])) state_tables.

(** Every text, number and time of the source is one PostgreSQL can store. *)
Definition all_storable (src : Source) : bool :=
  forallb (fun n =>
    let '(columns, rs) := default ([], []) (src !! n) in
    forallb (row_storable columns (default ∅ (pg_schema !! n))) rs) state_tables.

Lemma dump_names_source t h : dump_names (source_of t h) = state_tables.
Proof. vm_compute. reflexivity. Qed.

Lemma pg_tables_sorted : merge_sort string_le (map_to_list pg_schema).*1 =
  ["auth_codes"; "auth_requests"; "browser_sessions"; "device_codes"; "integration_keys"; "jti_denylist"; "keypairs";
   "refresh_families"; "refresh_tokens"].
Proof. vm_compute. reflexivity. Qed.

Lemma source_tokens t h : source_of t h !! "refresh_tokens" = Some (table_of (refresh_tokens t)).
Proof. reflexivity. Qed.

Lemma schema_tokens : pg_schema !! "refresh_tokens" = Some (table_types (R := TokenRow)).
Proof. reflexivity. Qed.

Lemma copied_rows {R} `{RowCodecOk R} time_Parse src n (m : gmap string R) rows c :
  src !! n = Some (table_of m) -> table_wf m -> table_copied time_Parse src (table_types (R := R)) n rows c ->
  rows = as_row (rc_columns (R := R)).*1 <$> enc_rows m.
Proof.
  intros Hn Hwf (cols & rs & rs' & Hsrc & _ & _ & Hc & _ & -> & _). rewrite Hn in Hsrc. injection Hsrc as <- <-.
  rewrite convert_enc_rows in Hc by done. by injection Hc as <-.
Qed.

Lemma copied_dec {R} `{RowCodecOk R} time_Parse src n (m : gmap string R) rows c :
  src !! n = Some (table_of m) -> table_wf m -> table_copied time_Parse src (table_types (R := R)) n rows c ->
  dec_rows rows = Some m.
Proof. intros Hn Hwf Hc. rewrite (copied_rows _ _ _ _ _ _ Hn Hwf Hc). by apply dec_enc_rows. Qed.

Lemma source_distinct t h : NoDup h.1 -> columns_distinct (source_of t h).
Proof.
  intros Hh n cols rs Hn. unfold source_of, table_of in Hn. apply elem_of_list_to_map_2 in Hn.
  repeat (apply elem_of_cons in Hn as [[= -> -> ->]|Hn]; [by apply (bool_decide_unpack _); vm_compute|]).
  apply elem_of_cons in Hn as [[= -> Hn]|Hn%not_elem_of_nil]; [|done]. by subst.
Qed.

(** Reading back a finished import of a store. *)
Lemma read_back_done time_Parse t h force (s s' : RawDB) copied :
  store_wf t -> rd_schema s = pg_schema ->
  import_done time_Parse (source_of t h) force s s' copied ->
  read_back s' = Some (mkPgTables t (families_of (refresh_tokens t)) (rd_notices s ++ [ChangeKeys])).
Proof.
  intros (W1 & W2 & W3 & W4 & W5 & W6 & W7 & W8) Hs (Hall & _ & Hfam & _ & _ & _ & Hnot).
  assert (Hat : forall n types, pg_schema !! n = Some types -> n <> derivedTable ->
            table_copied time_Parse (source_of t h) types n (rows_of n s') (copied !! n)).
  { intros n types Hn Hd. apply Hall; [by rewrite Hs|done]. }
  assert (Htok : rows_of "refresh_tokens" s' = token_rows (refresh_tokens t)).
  { eapply copied_rows; [|done|apply Hat; [|done]; reflexivity]. reflexivity. }
  assert (Hread : forall {R} `{RowCodecOk R} n (m : gmap string R), source_of t h !! n = Some (table_of m) -> table_wf m ->
            pg_schema !! n = Some (table_types (R := R)) -> n <> derivedTable -> dec_rows (rows_of n s') = Some m).
  { intros R ? ? n m H1 H2 H3 H4. eapply copied_dec; eauto. }
  unfold read_back.
  rewrite (Hread AuthRequest _ _ _ (auth_requests t)), (Hread CodeRow _ _ _ (auth_codes t)), (Hread TokenRow _ _ _ (refresh_tokens t)),
    (Hread DeviceCode _ _ _ (device_codes t)), (Hread BrowserSession _ _ _ (browser_sessions t)), (Hread Keypair _ _ _ (keypairs t)),
    (Hread IntegrationKey _ _ _ (integration_keys t)), (Hread time _ _ _ (jti_denylist t)) by (done || reflexivity).
  cbn -[dec_families rows_of]. rewrite Hfam, Htok, dec_families_ok.
  - cbn. rewrite Hnot. by destruct t.
  - intros f v Hv. by apply (group_spec _ _ (token_rows_null_or_time _)) in Hv as [? _].
Qed.

(** ** A copy nothing disturbs *)

Lemma tx_stmt_quiet {T A} msg (f : T -> T * A) db :
  sched db = [] -> tx_stmt msg f db = (mkDB (f (tables db)).1 [], inr (f (tables db)).2).
Proof.
  unfold tx_stmt, run_stmt, next_slot, later. intros ->. cbn. by destruct (f (tables db)).
Qed.

Lemma Q_bind_inr {T A B} (q : Q T A) (f : A -> Q T B) db db1 a : q db = (db1, inr a) -> (q ≫= f) db = f a db1.
Proof. unfold mbind, Q_bind. by intros ->. Qed.

Definition all_empty (db : RawDB) : Prop := forall n, is_Some (rd_schema db !! n) -> rows_of n db = [].

Lemma clear_quiet tbs force db :
  sched db = [] -> (force = false -> forall n, n ∈ tbs -> rows_of n (tables db) = []) ->
  exists db', clearForImport tbs force db = (db', inr tt) /\ sched db' = [].
Proof.
  revert db. induction tbs as [|n tbs IH]; intros db Hs Hf; cbn; [by exists db|].
  destruct force; unfold mbind, Q_bind; rewrite tx_stmt_quiet by done; cbn.
  - by apply IH.
  - rewrite (Hf eq_refl n) by (by left). cbn. apply IH; [done|]. intros _ m Hm. by apply Hf; [|right].
Qed.

Section Copy.
Context (time_Parse : string -> string -> option time) (read_fails : dump_read -> option error).
Hypothesis reads_served : forall r, read_fails r = None.

(** The copy of one table goes through. *)
Definition copies (src : Source) (target : gmap string (gmap string string)) (n : string) : Prop :=
  n <> derivedTable /\ exists types columns rs rs',
    target !! n = Some types /\ src !! n = Some (columns, rs) /\
    check_columns n columns types = None /\ convert_rows time_Parse n columns types rs = inr rs' /\
    can_copy n columns types rs' (mkRawDB pg_schema pg_constraints ∅ []) = true.

(** Only the table's constraints and rows matter. *)
Lemma can_copy_ext n columns types rs db db' :
  rd_constraints db = rd_constraints db' -> rows_of n db = rows_of n db' -> can_copy n columns types rs db = can_copy n columns types rs db'.
Proof. unfold can_copy. by intros -> ->. Qed.

Lemma visit_quiet src target names acc db :
  sched db = [] -> rd_constraints (tables db) = pg_constraints ->
  NoDup names -> (forall n, n ∈ names -> rows_of n (tables db) = []) -> Forall (copies src target) names ->
  exists db' copied, visit_tables read_fails src names (import_visit time_Parse target) acc db = (db', inr copied) /\ sched db' = [].
Proof.
  intros Hs Hk Hnd Hempty Hall. revert acc db Hs Hk Hnd Hempty.
  induction Hall as [|n names (Hd & types & cols & rs & rs' & Ht & Hsrc & Hc & Hr & Hcan) _ IH]; intros acc db Hs Hk Hnd Hempty; cbn; [by exists db, acc|].
  apply NoDup_cons in Hnd as [Hn Hnd]. rewrite reads_served, Hsrc. cbn. unfold mbind, Q_bind, import_visit. cbn.
  apply String.eqb_neq in Hd. rewrite Hd, Ht. unfold copyTable. rewrite Hc, Hr. unfold mbind, Q_bind.
  rewrite tx_stmt_quiet by done. rewrite (can_copy_ext _ _ _ _ _ (mkRawDB pg_schema pg_constraints ∅ []) Hk), Hcan by (apply Hempty; by left).
  cbn. apply IH; [done..|]. intros m Hm. cbn. rewrite rows_of_set. destruct (decide (m = n)) as [->|]; [done|]. apply Hempty. by right.
Qed.

Lemma source_copies t h : store_wf t -> pg_holds (source_of t h) = true -> Forall (copies (source_of t h) pg_schema) state_tables.
Proof.
  intros (W1 & W2 & W3 & W4 & W5 & W6 & W7 & W8) Hp. unfold pg_holds in Hp. rewrite forallb_forall in Hp.
  assert (Hc : forall {R} `{RowCodecOk R} n (m : gmap string R), source_of t h !! n = Some (table_of m) -> table_wf m ->
            pg_schema !! n = Some (table_types (R := R)) -> n <> derivedTable -> n ∈ state_tables -> copies (source_of t h) pg_schema n).
  { intros R ? ? n m H1 H2 H3 H4 H5%list_elem_of_In. split; [done|]. do 4 eexists. split; [done|]. split; [done|].
    split; [apply check_columns_table|]. split; [by apply convert_enc_rows|].
    apply Hp in H5. rewrite H1, H3 in H5. exact H5. }
  repeat apply Forall_cons_2; try apply Forall_nil_2.
  - apply (Hc CodeRow _ _ _ (auth_codes t)); by (done || apply (bool_decide_unpack _); vm_compute).
  - apply (Hc AuthRequest _ _ _ (auth_requests t)); by (done || apply (bool_decide_unpack _); vm_compute).
  - apply (Hc BrowserSession _ _ _ (browser_sessions t)); by (done || apply (bool_decide_unpack _); vm_compute).
  - apply (Hc DeviceCode _ _ _ (device_codes t)); by (done || apply (bool_decide_unpack _); vm_compute).
  - apply (Hc IntegrationKey _ _ _ (integration_keys t)); by (done || apply (bool_decide_unpack _); vm_compute).
  - apply (Hc time _ _ _ (jti_denylist t)); by (done || apply (bool_decide_unpack _); vm_compute).
  - apply (Hc Keypair _ _ _ (keypairs t)); by (done || apply (bool_decide_unpack _); vm_compute).
  - apply (Hc TokenRow _ _ _ (refresh_tokens t)); by (done || apply (bool_decide_unpack _); vm_compute).
Qed.
Lemma import_body_quiet t h force db :
  store_wf t -> pg_holds (source_of t h) = true -> NoDup h.1 ->
  rd_schema (tables db) = pg_schema -> rd_constraints (tables db) = pg_constraints -> sched db = [] ->
  (force = false -> all_empty (tables db)) ->
  exists db' copied, import_body time_Parse read_fails (source_of t h) force db = (db', inr copied) /\ sched db' = [].
Proof.
  intros Hwf Hp Hh Hsch Hk Hs He. unfold import_body.
  rewrite (Q_bind_inr _ _ _ (mkDB (tables db) []) pg_schema).
  2:{ unfold targetColumns. rewrite (Q_bind_inr _ _ _ _ _ (tx_stmt_quiet _ _ _ Hs)). cbn [fst snd]. rewrite Hsch.
      by rewrite bool_decide_eq_false_2 by (intros H; by apply (f_equal (.!! "keypairs")) in H). }
  rewrite pg_tables_sorted. set (tbs := _ :: _).
  assert (Htbs : forall n, n ∈ tbs <-> is_Some (pg_schema !! n)).
  { intros n. unfold tbs. rewrite <-pg_tables_sorted, merge_sort_Permutation. apply elem_of_keys. }
  unfold lockForImport. rewrite (Q_bind_inr _ _ _ _ _ (tx_stmt_quiet _ _ _ (eq_refl : sched (mkDB (tables db) []) = []))). cbn [fst snd tables].
  destruct (clear_quiet tbs force (mkDB (tables db) [])) as (db3 & Hc & Hs3); [done|..].
  { intros Hf n Hn. apply He; [done|]. by rewrite Hsch, <-Htbs. }
  rewrite (Q_bind_inr _ _ _ _ _ Hc). apply clear_ok in Hc as ([[Hsch3 Hk3] _] & Hempty & _ & _). cbn in Hsch3, Hk3.
  unfold DumpTables. rewrite !reads_served, dump_names_source.
  destruct (visit_quiet (source_of t h) pg_schema state_tables ∅ db3) as (db4 & cp & Hv & Hs4); [done|congruence|..|by apply source_copies|].
  { by apply (bool_decide_unpack _); vm_compute. }
  { intros n Hn. apply Hempty. unfold tbs. unfold state_tables in Hn. rewrite !elem_of_cons in *. tauto. }
  rewrite (Q_bind_inr _ _ _ _ _ Hv).
  apply visit_ok in Hv as ([[Hsch4 _] _] & Hall & _); [|by apply source_distinct|by apply (bool_decide_unpack _); vm_compute|..].
  2:{ intros n Hn. rewrite <-(dump_names_source t h), dump_names_spec in Hn. tauto. }
  2:{ intros n _ Hn. by apply Hempty, Htbs. }
  destruct (missing_table tbs cp) as [n|] eqn:Hm.
  { apply find_some in Hm as [Hn%list_elem_of_In Hb]. apply andb_true_iff in Hb as [Hd%negb_true_iff%String.eqb_neq Hb%bool_decide_eq_true].
    assert (Hst : n ∈ state_tables). { unfold tbs in Hn. rewrite !elem_of_cons in Hn. unfold state_tables. rewrite !elem_of_cons. tauto. }
    apply Hall in Hst as (_ & types & _ & cols & rs & rs' & _ & _ & _ & _ & _ & _ & Hcount). congruence. }
  assert (Hcan : can_rebuild (tables db4) = true).
  { unfold can_rebuild. rewrite Hsch4, Hsch3, Hsch. apply andb_true_iff. split; [by vm_compute|].
    destruct (Hall "refresh_tokens") as (_ & types & Ht & Hcp); [by apply (bool_decide_unpack _); vm_compute|].
    rewrite schema_tokens in Ht. apply Some_inj in Ht as <-. destruct Hwf as (_ & _ & Hwf & _).
    rewrite (copied_rows _ _ _ _ _ _ (source_tokens t h) Hwf Hcp). apply forallb_forall. intros r Hr%list_elem_of_In.
    apply bool_decide_eq_true. unfold enc_rows in Hr. rewrite <-list_fmap_compose in Hr.
    apply list_elem_of_fmap in Hr as ([k x] & -> & _). change (is_Some (family_of (as_row token_columns (rc_enc k x)))).
    by rewrite token_row_family. }
  destruct (rebuild_families (tables db4)) as [t5 k] eqn:Hr.
  rewrite (Q_bind_inr _ _ _ (mkDB t5 []) k).
  2:{ unfold rebuild_derived. rewrite (Q_bind_inr _ _ _ _ _ (tx_stmt_quiet _ _ _ Hs4)). by rewrite Hr, Hcan. }
  rewrite (Q_bind_inr _ _ _ _ _ (tx_stmt_quiet _ _ _ (eq_refl : sched (mkDB t5 []) = []))). cbn. eauto.
Qed.

Lemma import_quiet t h force db :
  store_wf t -> pg_holds (source_of t h) = true -> NoDup h.1 ->
  rd_schema (tables db) = pg_schema -> rd_constraints (tables db) = pg_constraints -> sched db = [] ->
  (force = false -> all_empty (tables db)) ->
  exists db' copied, Import time_Parse read_fails (source_of t h) force db = (db', (copied, None)).
Proof.
  intros Hwf Hp Hh Hsch Hk Hs He. unfold Import, method, transaction.
  destruct (import_body_quiet t h force (mkDB (tables db) [])) as (db' & copied & Hb & Hs'); [done..|].
  rewrite (Q_bind_inr _ _ _ (mkDB (tables db) []) tt).
  2:{ unfold after, stmt, run_stmt, next_slot, later. by rewrite Hs. }
  unfold in_tx. rewrite (Q_bind_inr _ _ _ _ _ Hb). cbn. unfold next_slot. rewrite Hs'. cbn. eauto.
Qed.

End Copy.

(** ** The command *)

Inductive stat_result := StatOK | StatNotExist | StatErr (e : error).

(** What [copyState] meets: the file system, the SQLite store it opens and
    whether that is migrated, the PostgreSQL server and its migrations. *)
Record CopyWorld := mkCopyWorld {
  cw_Stat : string -> stat_result;
  cw_New : string -> error + Source;
  cw_storeReady : Source -> option error;
  cw_Ping : option error;
  cw_Migrate : RawDB -> RawDB * option error
}.

Section Command.
Context (time_Parse : string -> string -> option time) (read_fails : dump_read -> option error).

Definition count_line (copied : gmap string Z) (table : string) : string :=
  table +:+ ": " +:+ pretty (default 0 (copied !! table)) +:+ " rows".

Definition copy_lines (from : string) (copied : gmap string Z) : list string :=
  (count_line copied <$> merge_sort string_le (map_to_list copied).*1) ++
  ["copied " +:+ from +:+ " into Postgres; set STATE_DRIVER=postgres to serve from it"].

(** [copyState(ctx, cmd, p, from, force)]: the database after it, what it prints
    and its error. *)
Definition copyState (w : CopyWorld) (from : string) (force : bool) (db : Database RawDB) :
    Database RawDB * (list string * option error) :=
  let refuse e := (db, ([], Some e)) in
  match cw_Stat w from with
  | StatNotExist => refuse (Opaque ("source " +:+ from +:+ " does not exist; pass --from or set STATE_SQLITE_PATH"))
  | StatErr e => refuse (Errorf "source" e)
  | StatOK =>
      match cw_New w from with
      | inl e => refuse e
      | inr src =>
          match cw_storeReady w src with
          | Some e => refuse (Errorf ("source " +:+ from) e)
          | None =>
              match cw_Ping w with
              | Some e => refuse (Errorf "target unreachable" e)
              | None =>
                  match cw_Migrate w (tables db) with
                  | (t, Some e) => (mkDB t (sched db), ([], Some (Errorf "target" e)))
                  | (t, None) =>
                      match Import time_Parse read_fails src force (mkDB t (sched db)) with
                      | (db', (_, Some e)) =>
                          (db', ([], Some (if errors_Is e ErrTargetNotEmpty then Errorf "pass --force to replace it" e else e)))
                      | (db', (copied, None)) => (db', (copy_lines from copied, None))
                      end
                  end
              end
          end
      end
  end.

(** The command's [--from], or the configured path. *)
Definition state_copy (w : CopyWorld) (sqlite_path from : string) (force : bool) : Database RawDB -> Database RawDB * (list string * option error) :=
  copyState w (if (from =? "")%string then sqlite_path else from) force.

End Command.

(** The tokens of a family are revoked together. *)
Definition family_uniform (m : gmap string TokenRow) : Prop := forall h1 r1 h2 r2,
  m !! h1 = Some r1 -> m !! h2 = Some r2 -> row_family r1 = row_family r2 -> revoked r1 = revoked r2.

(** PostgreSQL holds what SQLite held: the same tables, so the same view of the
    sessions; a family exists and is revoked exactly where SQLite says so, and
    the invariant of the PostgreSQL store holds. *)
Definition same_state (t : Tables) (p : PgTables) : Prop :=
  pg_base p = t /\ pview p = tview t /\
  (forall f, is_Some (pg_families p !! f) <-> family_exists f (refresh_tokens t) = true) /\
  (forall f x, pg_families p !! f = Some x -> bool_decide (is_Some x) = family_revoked f (refresh_tokens t)) /\
  (family_uniform (refresh_tokens t) -> fam_ok p).

Lemma families_fam_ok t notices :
  family_uniform (refresh_tokens t) -> fam_ok (mkPgTables t (families_of (refresh_tokens t)) notices).
Proof.
  intros Hu. split; cbn.
  - intros h row Hr. apply families_of_spec, family_exists_true. eauto.
  - intros f x Hx. destruct (families_of_spec (refresh_tokens t) f) as [He Hv]. specialize (Hv x Hx).
    destruct (proj1 (family_exists_true _ _) (proj1 He (mk_is_Some _ _ Hx))) as (h & row & Hr & Hf).
    split; [eauto|]. intros h' row' Hr' Hf'. rewrite Hv. apply eq_true_iff_eq. rewrite family_revoked_true. split; [eauto 6|].
    intros (h2 & r2 & Hr2 & Hf2 & Hrev). rewrite <-Hrev. apply (Hu _ _ _ _ Hr' Hr2). congruence.
Qed.

Lemma done_storable time_Parse t h force (s s' : RawDB) copied :
  store_wf t -> rd_schema s = pg_schema -> import_done time_Parse (source_of t h) force s s' copied -> all_storable (source_of t h) = true.
Proof.
  intros (W1 & W2 & W3 & W4 & W5 & W6 & W7 & W8) Hs (Hall & _).
  assert (Hat : forall {R} `{RowCodecOk R} n (m : gmap string R), source_of t h !! n = Some (table_of m) -> table_wf m ->
            pg_schema !! n = Some (table_types (R := R)) -> n <> derivedTable ->
            forallb (row_storable (rc_columns (R := R)).*1 (table_types (R := R))) (enc_rows m) = true).
  { intros R ? ? n m H1 H2 H3 H4. rewrite <-Hs in H3. destruct (Hall _ _ H3 H4) as (_ & cols & rs & rs' & Hsrc & _ & _ & Hc & Hst & _).
    rewrite H1 in Hsrc. injection Hsrc as <- <-. rewrite convert_enc_rows in Hc by done. by injection Hc as <-. }
  unfold all_storable. apply forallb_forall. intros n Hn%list_elem_of_In. unfold state_tables in Hn. rewrite !elem_of_cons in Hn.
  destruct Hn as [->|[->|[->|[->|[->|[->|[->|[->|Hn%not_elem_of_nil]]]]]]]]; [..|done].
  - by apply (Hat CodeRow _ _ "auth_codes" (auth_codes t)).
  - by apply (Hat AuthRequest _ _ "auth_requests" (auth_requests t)).
  - by apply (Hat BrowserSession _ _ "browser_sessions" (browser_sessions t)).
  - by apply (Hat DeviceCode _ _ "device_codes" (device_codes t)).
  - by apply (Hat IntegrationKey _ _ "integration_keys" (integration_keys t)).
  - by apply (Hat time _ _ "jti_denylist" (jti_denylist t)).
  - by apply (Hat Keypair _ _ "keypairs" (keypairs t)).
  - by apply (Hat TokenRow _ _ "refresh_tokens" (refresh_tokens t)).
Qed.

(** C18. `tempogate state copy` carries a deployment over to PostgreSQL whole. Take
    a SQLite store whose keys agree with its rows and whose times are whole
    microseconds, and migrations that leave PostgreSQL with the schema of 0014
    to 0016. When the command reports success, the source existed and was
    migrated, every text, number and time in it is one PostgreSQL can store, and
    the PostgreSQL store reads back every request, code, token, device code,
    browser session, signing key, integration key and revocation as SQLite held
    it; a token family exists and is revoked exactly where SQLite reads it so,
    and where SQLite revoked the tokens of a family together the invariant
    under which the PostgreSQL store refines the session contract holds. And it
    does succeed where PostgreSQL can store the values and they meet its
    constraints, with no failing read and nothing else running, into an empty
    database or with --force. *)
Theorem state_copy_faithful time_Parse read_fails (w : CopyWorld) (from : string) (force : bool)
    (t : Tables) (history : list string * list (list value)) (db : Database RawDB) :
  cw_New w from = inr (source_of t history) -> store_wf t -> NoDup history.1 ->
  (forall s s', cw_Migrate w s = (s', None) ->
     let s'' := slot_others (next_slot db) s' in rd_schema s'' = pg_schema /\ rd_constraints s'' = pg_constraints) ->
  (forall db' lines, copyState time_Parse read_fails w from force db = (db', (lines, None)) ->
     cw_Stat w from = StatOK /\ cw_storeReady w (source_of t history) = None /\ all_storable (source_of t history) = true /\
     exists p, read_back (tables db') = Some p /\ same_state t p) /\
  (cw_Stat w from = StatOK -> cw_storeReady w (source_of t history) = None -> cw_Ping w = None ->
   pg_holds (source_of t history) = true -> (forall r, read_fails r = None) -> sched db = [] ->
   (exists s, cw_Migrate w (tables db) = (s, None) /\ (force = false -> all_empty s)) ->
   exists db' lines, copyState time_Parse read_fails w from force db = (db', (lines, None))).
Proof.
  intros Hnew Hwf Hh Hmig. unfold copyState. rewrite Hnew. split.
  - intros db' lines. destruct (cw_Stat w from); [|done..]. destruct (cw_storeReady _ _); [done|]. destruct (cw_Ping w); [done|].
    destruct (cw_Migrate _ _) as [s [|]] eqn:Hs; [done|]. apply Hmig in Hs as [Hs _].
    destruct (Import _ _ _ _ _) as [db1 [copied [|]]] eqn:Hi; [done|]. intros [= <- _]. do 2 (split; [done|]).
    apply import_run in Hi as [Hi _]; [|by apply source_distinct]. specialize (Hi eq_refl).
    split; [by eapply done_storable|]. eexists. split; [by eapply read_back_done|].
    split_and!; [done|done|intros f; apply families_of_spec|intros f x; apply families_of_spec|apply families_fam_ok].
  - intros -> -> -> Hp Hr Hq (s & Hs & He). rewrite Hs. apply Hmig in Hs as [Hs Hk].
    unfold next_slot in Hs, Hk. rewrite Hq in Hs, Hk.
    destruct (import_quiet time_Parse read_fails Hr t history force (mkDB s (sched db))) as (db' & copied & ->); [done..|]. eauto.
Qed.

(** ** A store and its copy *)

Definition us (n : Z) : time := n * Microsecond.

Lemma us_whole n : whole_us (us n).
Proof. unfold whole_us, us. apply Z_mod_mult. Qed.

Definition ex_refresh (fam : string) : Refresh := mkRefresh "" "j" "cli" "google" "1" "a@x.io" fam (us 5) (us 5) (us 90).

(** Two families, one of them revoked with a token to spare, a retired key, and
    a device code nobody has decided. *)
Definition ex_store : Tables := mkTables
  ∅ ∅
  {["h1" := mkTokenRow (ex_refresh "f1") (Some (us 7)) None; "h2" := mkTokenRow (ex_refresh "f1") None None;
    "h3" := mkTokenRow (ex_refresh "f2") None (Some (us 8))]}
  {["d1" := mkDeviceCode "" "BCDF-GHJK" "cli" "openid" "" "" "" None None None 5 (us 1) (us 60)]}
  ∅ {["k1" := mkKeypair "k1" AlgRS256 "priv" "pub" (us 1) (Some (us 3))]} ∅ {["jti1" := us 4]}.

Definition ex_history : list string * list (list value) := (["version"], [[VInt 16]]).
Definition ex_world : CopyWorld := mkCopyWorld (fun p => if (p =? "state.db")%string then StatOK else StatNotExist)
  (fun _ => inr (source_of ex_store ex_history)) (fun _ => None) None (fun s => (mkRawDB pg_schema pg_constraints (rd_rows s) (rd_notices s), None)).
Definition ex_target (rows : gmap string (list row)) : Database RawDB := mkDB (mkRawDB ∅ ∅ rows []) [].
Definition no_parse (_ _ : string) : option time := None.
Definition served (_ : dump_read) : option error := None.

Lemma ex_store_wf : store_wf ex_store.
Proof.
  unfold store_wf, table_wf, ex_store; cbn -[map_Forall].
  repeat match goal with
         | |- _ /\ _ => split
         | |- map_Forall _ ∅ => apply map_Forall_empty
         | |- map_Forall _ (<[_ := _]> _) => apply map_Forall_insert_2
         | |- map_Forall _ {[_ := _]} => apply map_Forall_singleton
         end; cbn; split_and?; by (reflexivity || apply us_whole).
Qed.

Lemma state_copy_faithful_witness : exists db' lines p,
  copyState no_parse served ex_world "state.db" false (ex_target ∅) = (db', (lines, None)) /\
  read_back (tables db') = Some p /\ same_state ex_store p.
Proof.
  destruct (state_copy_faithful no_parse served ex_world "state.db" false ex_store ex_history (ex_target ∅)) as [H1 H2].
  - reflexivity.
  - apply ex_store_wf.
  - by apply (bool_decide_unpack _); vm_compute.
  - by intros s s' [= <-].
  - destruct H2 as (db' & lines & Hc); [reflexivity..|by vm_compute|done|reflexivity| |].
    { eexists. split; [reflexivity|]. by intros _ n _. }
    destruct (H1 db' lines Hc) as (_ & _ & _ & p & Hp & Hs). exists db', lines, p. exact (conj Hc (conj Hp Hs)).
Defined.

Lemma import_exact_witness : exists copied,
  import_done no_parse (source_of ex_store ex_history) true (mkRawDB pg_schema pg_constraints ∅ [])
    (tables (Import no_parse served (source_of ex_store ex_history) true (mkDB (mkRawDB pg_schema pg_constraints ∅ []) [])).1) copied.
Proof.
  destruct (Import no_parse served (source_of ex_store ex_history) true (mkDB (mkRawDB pg_schema pg_constraints ∅ []) [])) as [db' [copied e]] eqn:E.
  exists copied. refine (proj1 (import_exact no_parse served _ _ _ _ _ _ (source_distinct ex_store ex_history _) E) _).
  - by apply (bool_decide_unpack _); vm_compute.
  - apply (f_equal (fun r => r.2.2)) in E. vm_compute in E. by rewrite <-E.
Defined.

(** A target that holds a row is refused and left alone; --force replaces it. *)
Example copy_refused :
  let db := ex_target {["keypairs" := [∅]]} in
  let '(db', (lines, e)) := copyState no_parse served ex_world "state.db" false db in
  lines = [] /\ rows_of "keypairs" (tables db') = [∅] /\
  match e with Some e => errors_Is e ErrTargetNotEmpty = true | None => False end.
Proof. vm_compute. auto. Qed.

Example copy_prints :
  (copyState no_parse served ex_world "state.db" true (ex_target {["keypairs" := [∅]]})).2.1 =
  ["auth_codes: 0 rows"; "auth_requests: 0 rows"; "browser_sessions: 0 rows"; "device_codes: 1 rows";
   "integration_keys: 0 rows"; "jti_denylist: 1 rows"; "keypairs: 1 rows"; "refresh_families: 2 rows"; "refresh_tokens: 3 rows";
   "copied state.db into Postgres; set STATE_DRIVER=postgres to serve from it"].
Proof. vm_compute. reflexivity. Qed.

(** A login request whose [state] holds a NUL, which the authorize endpoint only
    caps in length, is one SQLite stores and PostgreSQL does not: the copy stops
    there and leaves the target as it was. *)
Definition ex_nul_request : AuthRequest :=
  mkAuthRequest "s1" "google" "cli" "http://127.0.0.1/" "openid" (String Ascii.zero "") "c" "S256" "" (us 1) (us 60).
Definition ex_nul_store : Tables := mkTables {["s1" := ex_nul_request]} ∅ ∅ ∅ ∅ ∅ ∅ ∅.

Example copy_stops_at_nul :
  let w := mkCopyWorld (cw_Stat ex_world) (fun _ => inr (source_of ex_nul_store ex_history)) (cw_storeReady ex_world) None (cw_Migrate ex_world) in
  let '(db', (lines, e)) := copyState no_parse served w "state.db" false (ex_target ∅) in
  pg_holds (source_of ex_nul_store ex_history) = false /\ lines = [] /\ rows_of "auth_requests" (tables db') = [] /\
  e = Some (Errorf "postgres: import: copy auth_requests" driver).
Proof. vm_compute. auto. Qed.
