(* ===== verification/Migrate.v ===== *)
(** * Schema migrations (state/internal/migration, state/sqlite/migrate.go,
    state/postgres/migrate.go)

    The embedded NNNN_name.sql files are read and ordered, and a runner applies
    those a database has not recorded: SQLite's one transaction per file,
    PostgreSQL's all of them in one transaction under an advisory lock. Runs may
    interleave, and any statement may fail. What a file's SQL does to the schema
    is an argument ([exec]); the table of applied versions is not reached by it. *)

From stdpp Require Import pretty.
From S2P Require Import Prelude GoStrings GoErrors GoUtf8 Pretty GoNetip Oidc Sql Transfer.

(** ** Reading the files (migration.go) *)

Record Migration := mkMigration { Version : Z; Name : string; SQL : string }.

(** An entry of the embedded directory: its name, and its text unless it is a
    directory or cannot be read. *)
Inductive entry_body := IsDir | Unreadable (e : error) | Body (text : string).
Record entry := mkEntry { e_name : string; e_body : entry_body }.

(** [strconv.Atoi(s)]. *)
Definition Atoi (s : string) : option Z :=
  let n := match s with
           | String "-" s => Z.opp <$> parse_decimal s
           | String "+" s => parse_decimal s
           | _ => parse_decimal s
           end in
  match n with
  | Some n => if (- 2 ^ 63 <=? n) && (n <? 2 ^ 63) then Some n else None
  | None => None
  end.

Definition TrimSuffix (s suffix : string) : string := default s (CutSuffix s suffix).

Definition parse (fname backend : string) : error + Migration :=
  match Cut (TrimSuffix fname ".sql") "_" with
  | None | Some ("", _) => inl (Opaque (backend +:+ ": invalid migration filename " +:+ fname +:+ " (want NNNN_name.sql)"))
  | Some (v, name) =>
      match Atoi v with
      | None => inl (Errorf (backend +:+ ": invalid version in " +:+ fname) (Opaque "strconv.Atoi"))
      | Some v => inr (mkMigration v name "")
      end
  end.

Definition version_le (a b : Migration) : Prop := Version a <= Version b.
#[export] Instance version_le_dec a b : Decision (version_le a b).
Proof. unfold version_le. apply _. Defined.

Fixpoint load_entries (es : list entry) (backend : string) : error + list Migration :=
  match es with
  | [] => inr []
  | e :: es =>
      match e_body e, CutSuffix (e_name e) ".sql" with
      | IsDir, _ | _, None => load_entries es backend
      | body, Some _ =>
          match parse (e_name e) backend, body with
          | inl err, _ => inl err
          | inr m, Body text =>
              match load_entries es backend with
              | inl err => inl err
              | inr ms => inr (mkMigration (Version m) (Name m) text :: ms)
              end
          | inr _, Unreadable err => inl (Errorf (backend +:+ ": read " +:+ e_name e) err)
          | inr _, IsDir => load_entries es backend
          end
      end
  end.

(** [Load(fsys, dir, backend)]. *)
Definition Load (dir : error + list entry) (backend : string) : error + list Migration :=
  match dir with
  | inl err => inl (Errorf (backend +:+ ": read embed") err)
  | inr es => match load_entries es backend with inl err => inl err | inr ms => inr (merge_sort version_le ms) end
  end.

Definition Pending (migs : list Migration) (applied : list Z) : list Migration :=
  List.filter (fun m => negb (bool_decide (Version m ∈ applied))) migs.

Definition migration_Check (migs : list Migration) (applied : list Z) : option error :=
  let dbMax := foldr Z.max 0 applied in
  let missing := Pending migs applied in
  match missing with
  | [] => None
  | _ =>
      if existsb (fun m => Version m <? dbMax) missing
      then Some (Opaque ("schema is missing migrations " +:+ String.concat ", " ((fun m => pretty (Version m)) <$> missing) +:+ "; run `tempogate migrate`"))
      else Some (Opaque ("schema version " +:+ pretty dbMax +:+ ", expected " +:+ pretty (from_option Version 0 (last migs)) +:+ "; run `tempogate migrate`"))
  end.

(** ** The runners *)

Section Runners.
Context {S : Type} (exec : string -> S -> option S).

(** The database as a runner sees it: its schema, and schema_migrations once it
    exists, version and name by row. *)
Record MigDB := mkMigDB { md_schema : S; md_rows : option (list (Z * string)) }.

(** [CREATE TABLE IF NOT EXISTS schema_migrations (...)]. *)
Definition ensure_table (d : MigDB) : MigDB := mkMigDB (md_schema d) (Some (default [] (md_rows d))).

Definition loaded (msg : string) (rows : option (list (Z * string))) : Q MigDB (list Z) :=
  match rows with Some rows => mret rows.*1 | None => fail (Errorf msg driver) end.

Definition file_name (m : Migration) : string := pretty (Version m) +:+ "_" +:+ Name m.

(** A file's statements, and its row in schema_migrations, whose key is the
    version. *)
Definition run_file (backend : string) (m : Migration) : Q MigDB unit :=
  let msg := backend +:+ ": apply " +:+ file_name m in
  ok ← tx_stmt msg (fun d => match exec (SQL m) (md_schema d) with Some s => (mkMigDB s (md_rows d), true) | None => (d, false) end);
  if (ok : bool) then mret tt else fail (Errorf msg driver).

Definition record_file (backend : string) (m : Migration) : Q MigDB unit :=
  let msg := backend +:+ ": record " +:+ file_name m in
  ok ← tx_stmt msg (fun d =>
         match md_rows d with
         | Some rows => if bool_decide (Version m ∈ rows.*1) then (d, false)
                        else (mkMigDB (md_schema d) (Some (rows ++ [(Version m, Name m)])), true)
         | None => (d, false)
         end);
  if (ok : bool) then mret tt else fail (Errorf msg driver).

Definition apply_file (backend : string) (m : Migration) : Q MigDB unit :=
  run_file backend m ≫= fun _ => record_file backend m.

(** *** SQLite *)

Definition sqlite_applyMigration (m : Migration) : Q MigDB (unit * option error) :=
  transaction ("sqlite: begin tx for " +:+ file_name m) ("sqlite: commit " +:+ file_name m)
    (apply_file "sqlite" m ≫= fun _ => mret (tt, None)).

Fixpoint sqlite_apply_all (ms : list Migration) : Q MigDB (option error) :=
  match ms with
  | [] => mret None
  | m :: ms => sqlite_applyMigration m ≫= fun _ => sqlite_apply_all ms
  end.

Definition sqlite_load : Q MigDB (list Z) :=
  rows ← stmt "sqlite: read schema_migrations" (fun d => (d, md_rows d));
  loaded "sqlite: read schema_migrations" rows.

(** [s.Migrate(ctx)], the files already loaded. *)
Definition sqlite_Migrate (migs : list Migration) : storeOp (Database MigDB) (option error) := method_ (
  stmt "sqlite: create schema_migrations" (fun d => (ensure_table d, tt)) ≫= fun _ =>
  applied ← sqlite_load;
  sqlite_apply_all (Pending migs applied)).

Definition sqlite_IsCurrent (migs : list Migration) : storeOp (Database MigDB) (option error) := method_ (
  stmt "sqlite: ensure schema_migrations" (fun d => (ensure_table d, tt)) ≫= fun _ =>
  applied ← sqlite_load;
  mret (migration_Check migs applied)).

(** *** PostgreSQL *)

Fixpoint pg_apply_all (ms : list Migration) : Q MigDB unit :=
  match ms with
  | [] => mret tt
  | m :: ms => apply_file "postgres" m ≫= fun _ => pg_apply_all ms
  end.

(** The transaction from the advisory lock on; it has written nothing before. *)
Definition pg_locked (migs : list Migration) : Q MigDB (unit * option error) :=
  tx_stmt "postgres: set lock_timeout" (fun d => (d, tt)) ≫= fun _ =>
  tx_stmt "postgres: create schema_migrations" (fun d => (ensure_table d, tt)) ≫= fun _ =>
  rows ← tx_stmt "postgres: read schema_migrations" (fun d => (d, md_rows d));
  applied ← loaded "postgres: read schema_migrations" rows;
  pg_apply_all (Pending migs applied) ≫= fun _ => mret (tt, None).

Definition pg_Migrate (migs : list Migration) : storeOp (Database MigDB) (option error) := method_ (
  after "postgres: begin migrations" tt ≫= fun _ : unit =>
  after "postgres: lock migrations" tt ≫= fun _ : unit =>
  r ← in_tx "postgres: commit migrations" (pg_locked migs);
  mret (snd r)).

(** A database never migrated, [undefined_table], reads as version 0. *)
Definition pg_IsCurrent (migs : list Migration) : storeOp (Database MigDB) (option error) := method_ (
  rows ← stmt "postgres: read schema_migrations" (fun d => (d, md_rows d));
  mret (migration_Check migs (default [] rows).*1)).

End Runners.
Arguments MigDB : clear implicits.
Arguments mkMigDB {S}.

(** ** Once each, in the order recorded *)

Section Facts.
(** [released]: the migration files of every release whose runners meet at the
    database. *)
Context {S : Type} (exec : string -> S -> option S) (released : list Migration).

(** The file of a version. *)
Definition file_of (v : Z) : option Migration := List.find (fun m => bool_decide (Version m = v)) released.
Definition is_file (m : Migration) : Prop := file_of (Version m) = Some m.

Lemma released_is_file m : NoDup (Version <$> released) -> m ∈ released -> is_file m.
Proof.
  unfold is_file, file_of. induction released as [|m' l IH]; [by intros _ ?%not_elem_of_nil|]. cbn [fmap list_fmap List.find].
  intros [Hn Hnd]%NoDup_cons [->|Hm]%elem_of_cons; [by rewrite bool_decide_eq_true_2|].
  rewrite bool_decide_eq_false_2; [by apply IH|]. intros Hv. apply Hn. rewrite Hv. by apply list_elem_of_fmap_2.
Qed.

(** What runners do to a database: create the table, or apply and record a file
    it has not recorded. *)
Inductive mig_step : MigDB S -> MigDB S -> Prop :=
  | ms_create d : mig_step d (ensure_table d)
  | ms_apply m rows s s' :
      is_file m -> Version m ∉ rows.*1 -> exec (SQL m) s = Some s' ->
      mig_step (mkMigDB s (Some rows)) (mkMigDB s' (Some (rows ++ [(Version m, Name m)]))).

Abbreviation mig_steps := (rtc mig_step).

Fixpoint run_all (ms : list Migration) (s : S) : option S :=
  match ms with [] => Some s | m :: ms => exec (SQL m) s ≫= run_all ms end.

(** The schema is what the files of the recorded versions made of [s0], each run
    once and in the order recorded, and nothing else. *)
Definition consistent (s0 : S) (d : MigDB S) : Prop :=
  let rows := default [] (md_rows d) in
  exists ms, mapM file_of rows.*1 = Some ms /\ rows = (fun m => (Version m, Name m)) <$> ms /\
    NoDup rows.*1 /\ run_all ms s0 = Some (md_schema d).

Definition recorded (d : MigDB S) (v : Z) : Prop := v ∈ (default [] (md_rows d)).*1.

Lemma run_all_app ms1 ms2 s : run_all (ms1 ++ ms2) s = run_all ms1 s ≫= run_all ms2.
Proof. revert s. induction ms1 as [|m ms1 IH]; intros s; cbn; [done|]. destruct (exec (SQL m) s); cbn; [apply IH|done]. Qed.

Lemma mig_step_consistent s0 d d' : mig_step d d' -> consistent s0 d -> consistent s0 d'.
Proof.
  destruct 1 as [d|m rows s s' Hf Hn Hx]; intros (ms & Hm & Hr & Hnd & Hs); cbn in *; [by exists ms|].
  exists (ms ++ [m]). cbn -[fmap]. rewrite !fmap_app. split_and!.
  - apply mapM_Some, Forall2_app; [by apply mapM_Some|]. by repeat constructor.
  - by rewrite Hr.
  - apply NoDup_app. split_and!; [done| |apply NoDup_singleton]. by intros v Hv ->%list_elem_of_singleton.
  - rewrite run_all_app, Hs. cbn. by rewrite Hx.
Qed.

Lemma mig_steps_consistent s0 d d' : mig_steps d d' -> consistent s0 d -> consistent s0 d'.
Proof. induction 1; eauto using mig_step_consistent. Qed.

Lemma mig_steps_recorded d d' v : mig_steps d d' -> recorded d v -> recorded d' v.
Proof.
  induction 1 as [|d1 d2 d3 Hs _ IH]; [done|]. intros Hv. apply IH. destruct Hs; [done|].
  unfold recorded in *. cbn in *. rewrite fmap_app. by apply elem_of_app; left.
Qed.

Lemma mig_steps_rows d d' : mig_steps d d' -> is_Some (md_rows d) -> is_Some (md_rows d').
Proof. induction 1 as [|d1 d2 d3 Hs _ IH]; [done|]. intros H. apply IH. by destruct Hs. Qed.

Lemma pending_spec migs applied m : m ∈ Pending migs applied <-> m ∈ migs /\ Version m ∉ applied.
Proof. unfold Pending. rewrite list_elem_of_In, filter_In, <-list_elem_of_In, negb_true_iff, bool_decide_eq_false. done. Qed.

(** The check passes exactly when every embedded version is recorded. *)
Lemma check_spec migs applied : migration_Check migs applied = None <-> Forall (fun m => Version m ∈ applied) migs.
Proof.
  unfold migration_Check. rewrite Forall_forall. split.
  - destruct (Pending migs applied) eqn:E; [|by destruct (existsb _ _)]. intros _ m Hm.
    destruct (decide (Version m ∈ applied)) as [|Hn]; [done|].
    assert (Hp : m ∈ Pending migs applied) by by apply pending_spec. by rewrite E in Hp; apply not_elem_of_nil in Hp.
  - intros Hall. destruct (Pending migs applied) as [|m ms] eqn:E; [done|].
    assert (Hp : m ∈ Pending migs applied) by (rewrite E; by left). apply pending_spec in Hp as [Hm Hn]. by destruct (Hn (Hall m Hm)).
Qed.

(** A file that goes through is one step. *)
Lemma apply_file_ok backend m db db' u :
  is_file m -> apply_file exec backend m db = (db', inr u) ->
  mig_step (tables db) (tables db') /\ recorded (tables db') (Version m).
Proof.
  intros Hf [(? & _ & ?)|(db1 & [] & Hr & H)]%Q_bind_cases; [done|].
  apply Q_bind_cases in Hr as [(? & _ & ?)|(db2 & ok & Hs%tx_stmt_inr & Hr)]; [done|].
  destruct ok; [|done]. injection Hr as <-.
  destruct (exec _ _) as [s|] eqn:Hx; [|done]. injection Hs as Hs.
  apply Q_bind_cases in H as [(? & _ & ?)|(db3 & ok & Hs'%tx_stmt_inr & H)]; [done|].
  destruct ok; [|done]. injection H as <- _. rewrite <-Hs in Hs'. cbn in Hs'.
  destruct (tables db) as [s1 [rows|]] eqn:Ed; cbn in *; [|done].
  destruct (bool_decide _) eqn:Hb; [done|]. injection Hs' as <-. apply bool_decide_eq_false in Hb. split; [by apply ms_apply|].
  unfold recorded. cbn. rewrite fmap_app. apply elem_of_app. right. by left.
Qed.

Lemma pg_apply_all_ok ms db db' u :
  Forall is_file ms -> pg_apply_all exec ms db = (db', inr u) ->
  mig_steps (tables db) (tables db') /\ Forall (fun m => recorded (tables db') (Version m)) ms.
Proof.
  intros Hf. revert db. induction Hf as [|m ms Hf _ IH]; cbn; intros db.
  - intros [= <- <-]. by split.
  - intros [(? & _ & ?)|(db1 & [] & [Hs Hm]%apply_file_ok & H)]%Q_bind_cases; [done| |done].
    apply IH in H as [Hr Hall]. split; [by eapply rtc_l|]. constructor; [by eapply mig_steps_recorded|done].
Qed.

Lemma loaded_ok msg rows (db db' : Database (MigDB S)) applied :
  loaded msg rows db = (db', inr applied) -> db' = db /\ exists rs, rows = Some rs /\ applied = rs.*1.
Proof. destruct rows; cbn; [|done]. intros [= <- <-]. eauto. Qed.

Lemma all_recorded migs rows d :
  (forall v, v ∈ rows -> recorded d v) -> Forall (fun m => recorded d (Version m)) (Pending migs rows) ->
  Forall (fun m => recorded d (Version m)) migs.
Proof.
  rewrite !Forall_forall. intros Hold Hnew m Hm. destruct (decide (Version m ∈ rows)); [auto|]. apply Hnew. by apply pending_spec.
Qed.

Lemma pending_files migs applied : Forall is_file migs -> Forall is_file (Pending migs applied).
Proof. rewrite !Forall_forall. intros H m [Hm _]%pending_spec. auto. Qed.

Lemma pg_locked_ok migs db db' r :
  Forall is_file migs -> pg_locked exec migs db = (db', inr r) ->
  r.2 = None /\ mig_steps (tables db) (tables db') /\ Forall (fun m => recorded (tables db') (Version m)) migs.
Proof.
  unfold pg_locked. intros Hf.
  intros [(? & _ & ?)|(db1 & [] & H1%tx_stmt_inr & H)]%Q_bind_cases; [done|]. injection H1 as H1.
  apply Q_bind_cases in H as [(? & _ & ?)|(db2 & [] & H2%tx_stmt_inr & H)]; [done|]. injection H2 as H2.
  apply Q_bind_cases in H as [(? & _ & ?)|(db3 & rows & H3%tx_stmt_inr & H)]; [done|]. injection H3 as H3 Hrows.
  apply Q_bind_cases in H as [(? & _ & ?)|(db4 & applied & (-> & rs & -> & ->)%loaded_ok & H)]; [done|].
  apply Q_bind_cases in H as [(? & _ & ?)|(db5 & [] & [Hs Hall]%pg_apply_all_ok & [= <- <-])]; [done| |by apply pending_files].
  assert (Hpre : mig_step (tables db) (tables db3)). { rewrite <-H3, <-H2, <-H1. apply ms_create. }
  split_and!; [done|by eapply rtc_l|]. eapply all_recorded; [|done].
  intros v Hv. eapply mig_steps_recorded; [done|]. unfold recorded. by rewrite <-H3, Hrows.
Qed.
(** *** Under interleaving *)

#[local] Abbreviation rely := (rely mig_steps).

Lemma suffixing_fail {T A} e : suffixing (fail (T := T) (A := A) e).
Proof. intros db db' r [= <- <-]. by exists 0%nat. Qed.

Lemma suffixing_apply backend m : suffixing (apply_file exec backend m).
Proof.
  apply suffixing_bind; [|intros _]; (apply suffixing_bind; [apply suffixing_tx_stmt|]);
    intros []; (apply suffixing_ret || apply suffixing_fail).
Qed.

Lemma method_run {T} (q : Q T (option error)) db db' e :
  method_ q db = (db', e) -> exists r, q db = (db', r) /\ e = match r with inl err => Some err | inr x => x end.
Proof. unfold method_. destruct (q db) as [db1 [|]]; intros [= <- <-]; eauto. Qed.

Lemma sqlite_apply_run m db db' r :
  is_file m -> rely db -> sqlite_applyMigration exec m db = (db', r) ->
  rely db' /\ mig_steps (tables db) (tables db') /\ (forall x, r = inr x -> recorded (tables db') (Version m)).
Proof.
  intros Hf Hr [(err & Ha & ->)|(db1 & [] & Ha & H)]%Q_bind_cases; apply (after_run mig_steps) in Ha as (Hr1 & Hs1 & _); try done.
  assert (Hr' : rely db').
  { destruct (suffixing_in_tx _ _ (suffixing_bind _ _ (suffixing_apply "sqlite" m) (fun _ => suffixing_ret _)) _ _ _ H) as [n Hn].
    by eapply rely_suffix. }
  split; [done|]. apply in_tx_run in H as [(Hsame & Hno & Hc)|(a & db2 & Hq & Hsame & Hc)].
  - rewrite Hsame. split; [done|]. intros [u [err|]] ->; [exfalso|by destruct (Hno u)].
    destruct Hc as [|[dbq Hq]]; [done|]. by apply Q_bind_cases in Hq as [(? & _ & ?)|(? & ? & _ & ?)].
  - apply Q_bind_cases in Hq as [(? & _ & ?)|(db3 & [] & [Hs Hm]%apply_file_ok & [= <- <-])]; [done| |done].
    rewrite Hsame. split; [by eapply rtc_r|]. by intros.
Qed.

Lemma sqlite_apply_all_run ms db db' r :
  Forall is_file ms -> rely db -> sqlite_apply_all exec ms db = (db', r) ->
  mig_steps (tables db) (tables db') /\
  (forall x, r = inr x -> x = None /\ Forall (fun m => recorded (tables db') (Version m)) ms).
Proof.
  intros Hf. revert db. induction Hf as [|m ms Hf _ IH]; cbn; intros db Hr.
  - intros [= <- <-]. split; [done|]. intros x [= <-]. by split.
  - intros [(err & H & ->)|(db1 & u & H & Hrest)]%Q_bind_cases;
      apply sqlite_apply_run in H as (Hr1 & Hs1 & Hm); try done.
    apply IH in Hrest as [Hs2 Hall]; [|done]. split; [by etrans|]. intros x Hx. destruct (Hall x Hx) as [-> Hms].
    split; [done|]. constructor; [|done]. eapply mig_steps_recorded; [done|by eapply Hm].
Qed.

Lemma sqlite_migrate_run migs db db' e :
  Forall is_file migs -> rely db -> sqlite_Migrate exec migs db = (db', e) ->
  mig_steps (tables db) (tables db') /\ (e = None -> Forall (fun m => recorded (tables db') (Version m)) migs).
Proof.
  intros Hf Hr (r & H & He)%method_run.
  assert (Hcreate : forall d : MigDB S, mig_steps d (ensure_table d)) by (intros d; apply rtc_once, ms_create).
  apply Q_bind_cases in H as [(err & H & ->)|(db1 & [] & H & Hrest)];
    apply (stmt_run mig_steps) in H as (Hr1 & t & Ht & H); try done; cbn in H.
  { split; [|by rewrite He]. destruct H as [(? & ? & _)|[_ [-> | ->]]]; [done|done|by etrans]. }
  destruct H as [(? & _ & H)|(? & _)]; [|done]. injection H as H. assert (H1 : mig_steps (tables db) (tables db1)) by (rewrite <-H; by etrans).
  unfold sqlite_load in Hrest. apply Q_bind_cases in Hrest as [(err & Hl & ->)|(db2 & applied & Hl & Hrest)].
  - split; [|by rewrite He]. apply Q_bind_cases in Hl as [(? & Hl & _)|(db3 & rows & Hl & Hl2)];
      apply (stmt_run mig_steps) in Hl as (_ & t2 & Ht2 & Hl); try done; cbn in Hl.
    + destruct Hl as [(? & ? & _)|[_ [-> | ->]]]; [done|by etrans..].
    + destruct Hl as [(? & _ & [= Hd _])|[? _]]; [|done]. destruct rows; [done|]. injection Hl2 as Hd' _.
      rewrite <-Hd', <-Hd. by etrans.
  - apply Q_bind_cases in Hl as [(? & Hl & ?)|(db3 & rows & Hl & (-> & rs & -> & ->)%loaded_ok)]; [done|].
    apply (stmt_run mig_steps) in Hl as (Hr3 & t2 & Ht2 & Hl); try done. destruct Hl as [(? & [= <-] & Hl)|[? _]]; [|done].
    injection Hl as -> Hrows. apply sqlite_apply_all_run in Hrest as [Hs Hall]; [|by apply pending_files|done].
    split; [by do 2 (etrans; [done|])|]. intros ->. destruct r as [|res]; [done|]. cbn in He. subst res. destruct (Hall _ eq_refl) as [_ Hp].
    eapply all_recorded; [|done]. intros v Hv. eapply mig_steps_recorded; [done|]. unfold recorded. by rewrite Hrows.
Qed.

(** What other runs did before the first [n] statements. *)
Definition others (n : nat) (db : Database (MigDB S)) : MigDB S :=
  foldl (fun t sl => slot_others sl t) (tables db) (take n (sched db)).

Lemma others_S n db : others (Datatypes.S n) db = others n (later (slot_others (next_slot db) (tables db)) db).
Proof. unfold others, later, next_slot. destruct (sched db); cbn; by rewrite ?take_nil. Qed.

Lemma others_rely n db : rely db -> mig_steps (tables db) (others n db).
Proof.
  revert db. induction n as [|n IH]; intros db Hr; [unfold others; by rewrite take_0|]. rewrite others_S.
  etrans; [apply (rely_next mig_steps db Hr)|]. apply (IH (later (slot_others (next_slot db) (tables db)) db)). by apply rely_later.
Qed.

Lemma pg_migrate_run migs db db' e :
  Forall is_file migs -> pg_Migrate exec migs db = (db', e) ->
  exists n, (n <= 2)%nat /\
    (e <> None /\ tables db' = others n db \/
     mig_steps (others n db) (tables db') /\ Forall (fun m => recorded (tables db') (Version m)) migs).
Proof.
  intros Hf (r & H & He)%method_run.
  assert (Hafter : forall msg (d d' : Database (MigDB S)) r, after msg tt d = (d', r) -> d' = later (slot_others (next_slot d) (tables d)) d).
  { intros msg d d' r' Ha. unfold after, stmt, run_stmt in Ha. by destruct (slot_outcome _); injection Ha as <-. }
  assert (H0 : forall d : Database (MigDB S), tables d = others 0 d) by (intros d; unfold others; by rewrite take_0).
  apply Q_bind_cases in H as [(err & H & ->)|(db1 & [] & H & Hrest)]; apply Hafter in H.
  { exists 1%nat. split; [lia|]. left. split; [by rewrite He|]. by rewrite others_S, <-H. }
  apply Q_bind_cases in Hrest as [(err & H2 & ->)|(db2 & [] & H2 & Hrest)]; apply Hafter in H2.
  { exists 2%nat. split; [lia|]. left. split; [by rewrite He|]. by rewrite !others_S, <-H, <-H2. }
  exists 2%nat. split; [lia|]. rewrite !others_S, <-H, <-H2, <-H0.
  apply Q_bind_cases in Hrest as [(err & H3 & ->)|(db3 & a & H3 & [= <- <-])].
  - subst e. apply in_tx_run in H3 as [(Hsame & _ & _)|(a & db4 & Hq & Hsame & _)]; [left; by split|right].
    rewrite Hsame. by apply pg_locked_ok in Hq as (_ & ? & ?).
  - subst e. apply in_tx_run in H3 as [(Hsame & Hno & Hc)|(u & db4 & Hq & Hsame & _)].
    + left. split; [|done]. destruct a as [u [err|]]; [done|by destruct (Hno u)].
    + right. rewrite Hsame. by apply pg_locked_ok in Hq as (_ & ? & ?).
Qed.

(** What [IsCurrent] judges. *)
Definition applied_of (d : MigDB S) : list Z := (default [] (md_rows d)).*1.

(** C19. Every migration runs once. Let the releases whose replicas meet at a
    database have one file per version. However their runs of `migrate`
    interleave, and whichever statement fails, the schema is always what the
    files of the recorded versions made of the database it started as, each
    file's SQL run exactly once and in the order recorded, and nothing else; a
    recorded version stays recorded. A run that reports success leaves a
    database [IsCurrent] accepts. A failed PostgreSQL run leaves what the other
    runs made of it, unless the commit went through and only its answer was
    lost. *)
Theorem migrations_once (s0 : S) (migs : list Migration) (db db' : Database (MigDB S)) (e : option error) (pg : bool) :
  NoDup (Version <$> released) -> migs ⊆ released ->
  consistent s0 (tables db) -> rely db ->
  (if pg then pg_Migrate exec migs else sqlite_Migrate exec migs) db = (db', e) ->
  consistent s0 (tables db') /\
  (forall v, recorded (tables db) v -> recorded (tables db') v) /\
  (e = None -> migration_Check migs (applied_of (tables db')) = None) /\
  (pg = true -> e <> None ->
   (exists n, (n <= 2)%nat /\ tables db' = others n db) \/ migration_Check migs (applied_of (tables db')) = None).
Proof.
  intros Hnd Hsub Hc Hr Hrun.
  assert (Hf : Forall is_file migs) by (apply Forall_forall; intros m Hm; by apply released_is_file, Hsub).
  assert (Hcheck : forall d, Forall (fun m => recorded d (Version m)) migs -> migration_Check migs (applied_of d) = None)
    by (intros d; apply check_spec).
  enough (mig_steps (tables db) (tables db') /\ (e = None -> Forall (fun m => recorded (tables db') (Version m)) migs) /\
          (pg = true -> e <> None -> (exists n, (n <= 2)%nat /\ tables db' = others n db) \/
                         migration_Check migs (applied_of (tables db')) = None)) as (Hs & Hall & Hpg).
  { split_and!; [by eapply mig_steps_consistent|intros v; by apply mig_steps_recorded|auto|done]. }
  destruct pg; [|by apply sqlite_migrate_run in Hrun as [Hs Hall]].
  apply pg_migrate_run in Hrun as (n & Hn & [[He Ht]|[Hs Hall]]); [| |done]; pose proof (others_rely n db Hr) as Ho.
  - rewrite Ht. split_and!; [done|done|eauto].
  - split_and!; [by etrans|done|auto].
Qed.

(** Migrating again changes nothing: nothing is pending. *)
Lemma pending_none migs applied : migration_Check migs applied = None -> Pending migs applied = [].
Proof.
  unfold migration_Check. by destruct (Pending migs applied); [|destruct (existsb _ _)].
Qed.
End Facts.

(** ** Loading *)

(** What [Load] returns is ordered by version. *)
Lemma Load_sorted dir backend ms : Load dir backend = inr ms -> StronglySorted version_le ms.
Proof.
  unfold Load. destruct dir; [done|]. destruct (load_entries _ _); [done|]. intros [= <-].
  apply StronglySorted_merge_sort; [intros a b c; unfold version_le; lia|intros a b; unfold version_le; lia].
Qed.

Definition ex_dir : error + list entry := inr [
  mkEntry "0015_refresh_families.sql" (Body "fams"); mkEntry "0014_baseline.sql" (Body "base");
  mkEntry "0016_connector_id.sql" (Body "conn"); mkEntry "README" (Body ""); mkEntry "old" IsDir].

Example load_ex :
  Load ex_dir "postgres" = inr [mkMigration 14 "baseline" "base"; mkMigration 15 "refresh_families" "fams"; mkMigration 16 "connector_id" "conn"].
Proof. vm_compute. reflexivity. Qed.

Example load_bad : Load (inr [mkEntry "_x.sql" (Body "")]) "sqlite" =
  inl (Opaque "sqlite: invalid migration filename _x.sql (want NNNN_name.sql)").
Proof. vm_compute. reflexivity. Qed.

Example check_ex :
  let migs := match Load ex_dir "postgres" with inr ms => ms | inl _ => [] end in
  migration_Check migs [14; 15] = Some (Opaque "schema version 15, expected 16; run `tempogate migrate`") /\
  migration_Check migs [16] = Some (Opaque "schema is missing migrations 14, 15; run `tempogate migrate`") /\
  migration_Check migs [14; 15; 16; 99] = None.
Proof. vm_compute. auto. Qed.

(** A schema that is the list of the files it was made by. *)
Definition ex_exec (sql : string) (s : list string) : option (list string) := if (sql =? "bad")%string then None else Some (s ++ [sql]).
Definition ex_migs : list Migration := [mkMigration 14 "baseline" "base"; mkMigration 15 "refresh_families" "fams"].

(** Another replica, of an older release, migrates while this one waits for the lock. *)
Definition ex_raced : Database (MigDB (list string)) :=
  mkDB (mkMigDB [] None)
    [mkSlot (fun d => d) Served; mkSlot (fun d => match d with mkMigDB [] None => mkMigDB ["base"] (Some [(14, "baseline")]) | d => d end) Served].

Lemma migrations_once_witness :
  let r := pg_Migrate ex_exec ex_migs ex_raced in
  md_schema (tables r.1) = ["base"; "fams"] /\ consistent ex_exec ex_migs [] (tables r.1) /\
  migration_Check ex_migs (applied_of (tables r.1)) = None.
Proof.
  destruct (migrations_once ex_exec ex_migs [] ex_migs ex_raced (pg_Migrate ex_exec ex_migs ex_raced).1
              (pg_Migrate ex_exec ex_migs ex_raced).2 true) as (H1 & H2 & H3 & H4).
  - by apply (bool_decide_unpack _); vm_compute.
  - done.
  - exists []. split_and!; [done|done|constructor|done].
  - apply Forall_cons_2; [intros d; apply rtc_refl|apply Forall_cons_2; [|apply Forall_nil_2]].
    intros [[|] [|]]; try apply rtc_refl.
    apply (rtc_l _ _ (mkMigDB [] (Some []))); [apply (ms_create ex_exec ex_migs (mkMigDB [] None))|].
    apply rtc_once, (ms_apply ex_exec ex_migs (mkMigration 14 "baseline" "base") []); [reflexivity|apply not_elem_of_nil|reflexivity].
  - apply surjective_pairing.
  - split_and!; [reflexivity|exact H1|by apply H3].
Defined.
