(* ===== verification/ChangeFeed.v ===== *)
(** * The change feed (state/internal/changefeed/hub.go,
    state/postgres/changes.go, keys/changes.go, keys/retire.go)

    How a write on one replica reaches what another caches: the notification and
    its payload, the listener that reconnects with backoff and resyncs, the
    in-process fan-out to subscribers, and the two subscribers, the denylist
    cache and the loop that reloads the signing keys. Changes are hints: the
    theorems say what arrives, and that losing them costs only time. *)

From S2P Require Import Prelude GoStrings GoErrors Oidc Denylist Keys Postgres.

#[export] Instance Change_eq_dec : EqDecision Change.
Proof. solve_decision. Defined.

(** ** Payloads (changes.go) *)

Definition changeChannel : string := "tempogate_changes".

Definition encodeChange (c : Change) : string :=
  match c with ChangeJTIRevoked jti => "jti:" +:+ jti | ChangeKeys => "keys" end.

Definition CutPrefix (s prefix : string) : option string :=
  if HasPrefix s prefix then Some (drop_bytes (String.length prefix) s) else None.

Definition decodeChange (payload : string) : option Change :=
  match CutPrefix payload "jti:" with
  | Some jti => if negb (jti =? "")%string then Some (ChangeJTIRevoked jti)
                else if (payload =? "keys")%string then Some ChangeKeys else None
  | None => if (payload =? "keys")%string then Some ChangeKeys else None
  end.

(** ** The hub (hub.go) *)

Definition buffer : nat := 16.

(** A subscriber: what waits in its channel. Beside it, for the theorems, what
    it has received, what was published since it subscribed and how much of that
    it missed. *)
Record Sub := mkSub { sb_queue : list Change; sb_got : list Change; sb_published : list Change; sb_missed : nat }.

Definition Hub := gmap nat Sub.

Definition Subscribe (ch : nat) (h : Hub) : Hub := <[ch := mkSub [] [] [] 0]> h.

(** [select { case ch <- c: default: }]. *)
Definition offer (c : Change) (s : Sub) : Sub :=
  if (length (sb_queue s) <? buffer)%nat
  then mkSub (sb_queue s ++ [c]) (sb_got s) (sb_published s ++ [c]) (sb_missed s)
  else mkSub (sb_queue s) (sb_got s) (sb_published s ++ [c]) (S (sb_missed s)).

Definition Publish (c : Change) (h : Hub) : Hub := offer c <$> h.

(** The context of a subscriber is done. *)
Definition Unsubscribe (ch : nat) (h : Hub) : Hub := delete ch h.

(** A subscriber receives. *)
Definition receive (ch : nat) (h : Hub) : Hub :=
  match h !! ch with
  | Some (mkSub (c :: q) got pub missed) => <[ch := mkSub q (got ++ [c]) pub missed]> h
  | _ => h
  end.

Inductive hub_step : Hub -> Hub -> Prop :=
  | hub_subscribe ch h : h !! ch = None -> hub_step h (Subscribe ch h)
  | hub_publish c h : hub_step h (Publish c h)
  | hub_unsubscribe ch h : hub_step h (Unsubscribe ch h)
  | hub_receive ch h : hub_step h (receive ch h).

Abbreviation hub_reachable := (rtc hub_step ∅).

(** At most [buffer] wait. What was received and what waits are published
    changes in the order they were published, all but the missed ones. *)
Definition sub_ok (s : Sub) : Prop :=
  (length (sb_queue s) <= buffer)%nat /\
  sb_got s ++ sb_queue s `sublist_of` sb_published s /\
  length (sb_published s) = (length (sb_got s ++ sb_queue s) + sb_missed s)%nat.

(** ** The listener (changes.go) *)

Definition feedRetryMin : duration := Second.
Definition feedRetryMax : duration := 30 * Second.
Definition resyncSkew : duration := Minute.

(** One attempt: why it could not connect and listen, if so; the denylist its
    resync reads, or the failure of that query; the payloads delivered before the
    connection is lost, and when that is. *)
Record connection := mkConnection {
  at_listen : option error;
  at_denylist : error + list (string * time);
  at_payloads : list string;
  at_lost : time
}.

(** [s.resync(ctx, conn, since)]: what it publishes. *)
Definition resync (denylist : list (string * time)) (since : time) : list Change :=
  ChangeKeys :: ((fun jr => ChangeJTIRevoked jr.1) <$> List.filter (fun jr => negb (time_Before jr.2 since)) denylist).

(** [s.listenOnce(ctx, since, up)]: whether [up] was called, and what was
    published. *)
Definition listenOnce (since : time) (a : connection) : bool * list Change :=
  match at_listen a with
  | Some _ => (false, [])
  | None =>
      match at_denylist a with
      | inl _ => (true, [])
      | inr denylist => (true, resync denylist (time_Add since (- resyncSkew)) ++ omap decodeChange (at_payloads a))
      end
  end.

(** [s.runFeed(ctx)] over the attempts it makes: what each publishes and how
    long it waits after it. *)
Fixpoint runFeed (since : time) (retry : duration) (attempts : list connection) : list (list Change * duration) :=
  match attempts with
  | [] => []
  | a :: attempts =>
      let (connected, published) := listenOnce since a in
      let since := if connected then at_lost a else since in
      let retry := if connected then feedRetryMin else retry in
      (published, retry) :: runFeed since (Z.min (2 * retry) feedRetryMax) attempts
  end.

(** ** The subscribers (keys) *)

(** [c.Follow(ctx)] over what its channel delivers, each with the clock's
    reading. *)
Definition Follow `{MapOrder} (c : DenylistCache) (delivered : list (Change * time)) : DenylistCache :=
  foldl (fun c ct => match ct.1 with ChangeJTIRevoked jti => Hydrate c jti ct.2 | ChangeKeys => c end) c delivered.

(** What wakes [k.Watch]. *)
Inductive wake := Tick | Received (c : Change) | FeedClosed | CtxDone.

Section Watch.
Context {S : Type} `{KeyStore S} `{AEAD}.

(** A reload, its failure handed to [onErr]. *)
Definition reload_or_report (cfg : KeysCfg) : M (KeyState S) unit :=
  r ← attempt (Reload cfg);
  match r with
  | inl e => emit (Logged "signing keys reload failed; keeping the loaded set" [])
  | inr _ => mret tt
  end.

(** [k.Watch(ctx, interval, onErr)]; a closed feed never wakes it again. *)
Fixpoint Watch (cfg : KeysCfg) (feed_open : bool) (wakes : list wake) : M (KeyState S) unit :=
  match wakes with
  | [] | CtxDone :: _ => mret tt
  | Tick :: wakes => reload_or_report cfg ≫= fun _ => Watch cfg feed_open wakes
  | FeedClosed :: wakes => Watch cfg false wakes
  | Received ChangeKeys :: wakes =>
      if feed_open then reload_or_report cfg ≫= fun _ => Watch cfg feed_open wakes else Watch cfg feed_open wakes
  | Received (ChangeJTIRevoked _) :: wakes => Watch cfg feed_open wakes
  end.
End Watch.

(** ** What arrives *)

Lemma sublist_full {A} (l k : list A) : l `sublist_of` k -> length l = length k -> l = k.
Proof.
  induction 1 as [|x l k Hs IH|x l k Hs IH]; cbn; intros Hl; [done|f_equal; auto|].
  apply sublist_length in Hs. lia.
Qed.

(** A notification decodes to the change that was sent; only a revocation of no
    jti is lost. *)
Lemma decode_encode c : decodeChange (encodeChange c) = if bool_decide (c = ChangeJTIRevoked "") then None else Some c.
Proof.
  destruct c as [|jti]; [done|]. unfold decodeChange, encodeChange, CutPrefix. rewrite HasPrefix_append.
  change (drop_bytes (String.length "jti:") ("jti:" +:+ jti)) with jti. destruct jti as [|a jti]; [done|].
  by rewrite bool_decide_eq_false_2.
Qed.

Lemma sub_ok_new : sub_ok (mkSub [] [] [] 0).
Proof. split_and!; cbn; [lia|done|done]. Qed.

Lemma sub_ok_offer c s : sub_ok s -> sub_ok (offer c s).
Proof.
  intros (Hq & Hs & Hl). unfold offer. destruct (Nat.ltb_spec (length (sb_queue s)) buffer) as [Hlt|Hge]; split_and!; cbn.
  - rewrite length_app. cbn. lia.
  - rewrite app_assoc. by apply sublist_app.
  - rewrite !length_app in *. cbn. lia.
  - done.
  - by apply sublist_inserts_r.
  - rewrite !length_app in *. cbn. lia.
Qed.

Lemma sub_ok_receive c q got pub missed : sub_ok (mkSub (c :: q) got pub missed) -> sub_ok (mkSub q (got ++ [c]) pub missed).
Proof.
  intros (Hq & Hs & Hl). cbn in *. split_and!; cbn.
  - lia.
  - by rewrite <-app_assoc.
  - by rewrite <-app_assoc.
Qed.

Lemma hub_step_ok h h' : hub_step h h' -> map_Forall (fun _ => sub_ok) h -> map_Forall (fun _ => sub_ok) h'.
Proof.
  destruct 1 as [ch h Hn|c h|ch h|ch h]; intros Hok.
  - by apply map_Forall_insert_2; [apply sub_ok_new|].
  - intros ch s (s' & <- & Hs)%lookup_fmap_Some. by apply sub_ok_offer, (Hok ch).
  - by apply map_Forall_delete.
  - unfold receive. destruct (h !! ch) as [[[|c q] got pub missed]|] eqn:E; [done| |done].
    apply map_Forall_insert_2; [|done]. by apply sub_ok_receive, (Hok ch).
Qed.

(** The fan-out keeps its promise under every interleaving of subscribing,
    publishing, receiving and cancelling: publishing never waits, no subscriber
    has more than its buffer outstanding, what it receives is what was published
    after it subscribed, in that order, and it misses a change only when that
    change was published while its buffer was full. *)
Theorem hub_delivers (h : Hub) (ch : nat) (s : Sub) (c : Change) :
  hub_reachable h -> h !! ch = Some s ->
  sub_ok s /\ (sb_missed s = 0%nat -> sb_got s ++ sb_queue s = sb_published s) /\
  exists s', Publish c h !! ch = Some s' /\ sb_published s' = sb_published s ++ [c] /\
    ((length (sb_queue s) < buffer)%nat -> sb_queue s' = sb_queue s ++ [c] /\ sb_missed s' = sb_missed s).
Proof.
  intros Hr Hs. assert (Hok : map_Forall (fun _ => sub_ok) h).
  { clear Hs. revert Hr. apply (rtc_ind_r (fun h => map_Forall (fun _ => sub_ok) h)); [apply map_Forall_empty|].
    intros h1 h2 _ Hs. by apply hub_step_ok. }
  pose proof (Hok ch s Hs) as Hsub. split; [done|]. destruct Hsub as (Hq & Hsl & Hl). split.
  - intros Hm. apply sublist_full; [done|]. lia.
  - exists (offer c s). split; [apply lookup_fmap_Some; eauto|]. unfold offer.
    destruct (Nat.ltb_spec (length (sb_queue s)) buffer); split; try done. lia.
Qed.

(** ** What a listener that was away reports *)

(** Since when the listener has to catch up, after some attempts. *)
Definition catch_up (since : time) (attempts : list connection) : time :=
  foldl (fun since a => if bool_decide (at_listen a = None) then at_lost a else since) since attempts.

Lemma listenOnce_connected since a : (listenOnce since a).1 = bool_decide (at_listen a = None).
Proof. unfold listenOnce. destruct (at_listen a); [done|]. by destruct (at_denylist a). Qed.

Lemma runFeed_last since retry attempts a :
  exists wait, last (runFeed since retry (attempts ++ [a])) = Some ((listenOnce (catch_up since attempts) a).2, wait).
Proof.
  revert since retry. induction attempts as [|b attempts IH]; intros since retry; cbn.
  - destruct (listenOnce since a). by eexists.
  - pose proof (listenOnce_connected since b) as Hb. destruct (listenOnce since b) as [connected published]. cbn in Hb. subst connected.
    destruct (IH (if bool_decide (at_listen b = None) then at_lost b else since)
                (Z.min (2 * (if bool_decide (at_listen b = None) then feedRetryMin else retry)) feedRetryMax)) as [wait Hw].
    exists wait. rewrite last_cons. by rewrite Hw.
Qed.

Lemma runFeed_waits since retry attempts :
  feedRetryMin <= retry <= feedRetryMax -> Forall (fun pw => feedRetryMin <= pw.2 <= feedRetryMax) (runFeed since retry attempts).
Proof.
  revert since retry. induction attempts as [|a attempts IH]; intros since retry Hr; cbn; [constructor|].
  destruct (listenOnce since a) as [[] published]; constructor; cbn; unfold feedRetryMin, feedRetryMax, Second, Microsecond in *; try lia;
    apply IH; lia.
Qed.

(** C23. A listener that comes back reports what it missed. Once an attempt
    listens and its resync reads the denylist, it publishes that the keys may
    have changed and every revocation in the table that was committed after the
    last attempt to get as far as listening was lost, or after the feed started
    if there was none, as long as the stamp, taken by another replica's clock, is
    at most a minute behind the commit; and it publishes every change it is then
    notified of. Between attempts it waits at least a second and at most thirty.
    What was committed while an earlier attempt listened is that attempt's to
    report, and is not part of the claim. *)
Theorem feed_reports_missed (since : time) (attempts : list connection) (a : connection) (denylist : list (string * time)) :
  at_listen a = None -> at_denylist a = inr denylist ->
  exists published wait, last (runFeed since feedRetryMin (attempts ++ [a])) = Some (published, wait) /\
    ChangeKeys ∈ published /\
    (forall jti revoked_at committed, (jti, revoked_at) ∈ denylist ->
       catch_up since attempts <= committed -> committed - resyncSkew <= revoked_at -> ChangeJTIRevoked jti ∈ published) /\
    (forall c, encodeChange c ∈ at_payloads a -> c <> ChangeJTIRevoked "" -> c ∈ published) /\
    Forall (fun pw => feedRetryMin <= pw.2 <= feedRetryMax) (runFeed since feedRetryMin (attempts ++ [a])).
Proof.
  intros Hl Hd. destruct (runFeed_last since feedRetryMin attempts a) as [wait Hw].
  unfold listenOnce in Hw. rewrite Hl, Hd in Hw. cbn [snd] in Hw. eexists _, wait. split; [exact Hw|]. split_and!.
  - apply elem_of_app. left. by left.
  - intros jti r cm Hin Hc Hr. apply elem_of_app. left. right. apply list_elem_of_fmap. exists (jti, r). split; [done|].
    apply list_elem_of_In, filter_In. split; [by apply list_elem_of_In|]. cbn. unfold time_Before, time_Add.
    apply negb_true_iff, Z.ltb_ge. lia.
  - intros c Hc Hne. apply elem_of_app. right. apply list_elem_of_omap. exists (encodeChange c). split; [done|].
    rewrite decode_encode. by rewrite bool_decide_eq_false_2.
  - apply runFeed_waits. unfold feedRetryMin, feedRetryMax, Second, Microsecond. lia.
Qed.

(** An attempt that listens but whose resync fails moves the point to catch up
    from all the same: a revocation of the first outage is then reported by
    neither. *)
Example failed_resync_loses :
  let outage := mkConnection (Some (Opaque "refused")) (inr []) [] 0 in
  let half := mkConnection None (inl (Opaque "timeout")) [] (600 * Second) in
  let back := mkConnection None (inr [("j", 10 * Second)]) [] (900 * Second) in
  catch_up 0 [outage] = 0 /\ ((runFeed 0 feedRetryMin [outage; half; back]).*1) = [[]; []; [ChangeKeys]].
Proof. vm_compute. auto. Qed.

(** ** The subscribers *)

(** Following the feed is a run of the cache's machine, so the bounds on its
    memory and its staleness hold. *)
Lemma Follow_steps `{MapOrder} (delta : duration) delivered c d n f :
  Forall (fun ct => ct.2 <= n) delivered ->
  exists ls, dsteps delta (mkShared c d n f) ls (mkShared (Follow c delivered) d n f) /\ Forall (fun l => l = None) ls.
Proof.
  intros Hall. revert c. induction Hall as [|[ch t] delivered Ht _ IH]; intros c; [by exists []; split; constructor|].
  destruct ch as [|jti]; [apply IH|]. destruct (IH (Hydrate c jti t)) as (ls & Hs & Hn).
  exists (None :: ls). split; [|by constructor]. eapply ds_cons; [by apply d_hydrate|done].
Qed.

Section WatchFacts.
Context {S : Type} `{KeyStore S} `{AEAD}.
Implicit Types (w : World (KeyState S)).

Lemma Reload_inl cfg w w' e : Reload cfg w = (w', inl e) -> ks_keypairs (w_store w') = ks_keypairs (w_store w).
Proof.
  unfold Reload, on_keystore, on_store, mbind, M_bind.
  destruct (LoadKeypairs (ks_store (w_store w))) as [s1 [kps [e'|]]]; cbn; [by intros [= <- _]|].
  destruct (openStored cfg kps) as [e'|q]; cbn; [by intros [= <- _]|done].
Qed.

(** The served set is the one before, or one a reload installed. *)
Definition served_from cfg w w' : Prop :=
  ks_keypairs (w_store w') = ks_keypairs (w_store w) \/
  exists w1 w2, Reload cfg w1 = (w2, inr tt) /\ ks_keypairs (w_store w') = ks_keypairs (w_store w2).

Lemma served_from_trans cfg w1 w2 w3 : served_from cfg w1 w2 -> served_from cfg w2 w3 -> served_from cfg w1 w3.
Proof.
  intros H1 [H2|(wa & wb & Hr & H2)]; [|right; by exists wa, wb].
  destruct H1 as [H1|(wa & wb & Hr & H1)]; [left; congruence|right; exists wa, wb; split; [done|congruence]].
Qed.

Lemma reload_or_report_ok cfg w w' r : reload_or_report cfg w = (w', r) -> r = inr tt /\ served_from cfg w w'.
Proof.
  unfold reload_or_report, mbind, M_bind, attempt. destruct (Reload cfg w) as [w1 [e|[]]] eqn:E; cbn.
  - unfold emit. intros [= <- <-]. split; [done|]. left. cbn. by apply Reload_inl in E.
  - intros [= <- <-]. split; [done|]. right. by exists w, w1.
Qed.

(** C24. The key watcher never drops a signing key. However ticks, changes and the
    end of the feed interleave and whichever reloads fail, the loop goes on to
    the end, and the keys in service are those it started with or those a
    successful reload read: a failed reload keeps the set it has. *)
Theorem watch_keeps_serving (cfg : KeysCfg) (feed_open : bool) (wakes : list wake) (w w' : World (KeyState S)) r :
  Watch cfg feed_open wakes w = (w', r) -> r = inr tt /\ served_from cfg w w'.
Proof.
  revert feed_open w. induction wakes as [|k wakes IH]; cbn; intros feed_open w.
  { intros [= <- <-]. split; [done|by left]. }
  assert (Hreload : (reload_or_report cfg ≫= fun _ => Watch cfg feed_open wakes) w = (w', r) -> r = inr tt /\ served_from cfg w w').
  { unfold mbind, M_bind. destruct (reload_or_report cfg w) as [w1 r1] eqn:E. apply reload_or_report_ok in E as [-> H1].
    intros [-> H2]%IH. split; [done|]. by eapply served_from_trans. }
  destruct k as [|[|jti]| |]; [done|by destruct feed_open; eauto|apply IH|apply IH|].
  intros [= <- <-]. split; [done|by left].
Qed.
End WatchFacts.

(** ** Examples *)

Definition ex_hub : Hub := receive 1 (Publish (ChangeJTIRevoked "j") (Publish ChangeKeys (Subscribe 1 ∅))).

Lemma hub_delivers_witness : exists s s', ex_hub !! 1%nat = Some s /\ sb_got s ++ sb_queue s = [ChangeKeys; ChangeJTIRevoked "j"] /\
  Publish ChangeKeys ex_hub !! 1%nat = Some s' /\ sb_queue s' = [ChangeJTIRevoked "j"; ChangeKeys].
Proof.
  assert (Hr : hub_reachable ex_hub).
  { unfold ex_hub. eapply rtc_r; [|apply hub_receive]. do 2 (eapply rtc_r; [|apply hub_publish]).
    apply rtc_once, hub_subscribe. reflexivity. }
  destruct (hub_delivers ex_hub 1 (mkSub [ChangeJTIRevoked "j"] [ChangeKeys] [ChangeKeys; ChangeJTIRevoked "j"] 0) ChangeKeys Hr eq_refl)
    as (_ & H2 & s' & H3 & _ & H4).
  eexists _, s'. split; [reflexivity|]. split; [by apply H2|]. split; [exact H3|]. apply H4. cbn. unfold buffer. lia.
Defined.

Lemma feed_reports_missed_witness : exists published wait,
  last (runFeed 0 feedRetryMin ([mkConnection (Some (Opaque "refused")) (inr []) [] 0] ++ [mkConnection None (inr [("j", 10 * Second)]) ["keys"] (99 * Second)])) =
    Some (published, wait) /\ ChangeJTIRevoked "j" ∈ published.
Proof.
  destruct (feed_reports_missed 0 [mkConnection (Some (Opaque "refused")) (inr []) [] 0] (mkConnection None (inr [("j", 10 * Second)]) ["keys"] (99 * Second))
              [("j", 10 * Second)] eq_refl eq_refl) as (published & wait & Hl & _ & Hj & _).
  exists published, wait. split; [exact Hl|]. apply (Hj "j" (10 * Second) (10 * Second)); [by left| |]; vm_compute; discriminate.
Defined.

(** A store that is away, then back with one key. *)
#[local] Instance flaky_store : KeyStore (list (option (list Keypair))) := {
  SaveKeypair _ s := (s, None);
  LoadKeypairs s := match s with
                    | Some kps :: s => (s, (kps, None))
                    | None :: s => (s, ([], Some (Opaque "store down")))
                    | [] => ([], ([], Some (Opaque "store down")))
                    end;
  RetireKeypair _ _ s := (s, (zeroKeypair, None))
}.

#[local] Instance no_aead : AEAD := { aead_Seal _ _ _ p := p; aead_Open _ _ _ c := Some c }.

Definition ex_watched : World (KeyState (list (option (list Keypair)))) :=
  mkWorld (mkKeyState [None; Some [mkKeypair "k2" AlgRS256 "p" "q" 5 None]; None] [mkKeypair "k1" AlgRS256 "p" "q" 1 None] []) 0 0 [] None.

Lemma watch_keeps_serving_witness :
  let '(w', r) := Watch defaultKeysCfg true [Tick; Received ChangeKeys; FeedClosed; Tick; CtxDone] ex_watched in
  r = inr tt /\ served_from defaultKeysCfg ex_watched w' /\ (Kid <$> ks_keypairs (w_store w')) = ["k2"].
Proof.
  destruct (Watch _ _ _ _) as [w' r] eqn:E. destruct (watch_keeps_serving defaultKeysCfg true _ ex_watched w' r E) as [H1 H2].
  split; [exact H1|]. split; [exact H2|]. change w' with (w', r).1. rewrite <-E. reflexivity.
Defined.
