(* ===== verification/StoreOpen.v ===== *)
(** * Opening the state store (state/postgres/dsn.go, state/postgres/store.go,
    state/sqlite/store.go)

    The PostgreSQL store's connection strings and the TLS policy on every
    connection it makes, at start and later from a rotated file; and the file
    permissions the SQLite store sets before it opens its database. The
    connection-string parser (pgx) is an argument. *)

From stdpp Require Import pretty.
From S2P Require Import Prelude GoStrings GoErrors GoNetip Oidc Cli.

(** ** Connection strings (dsn.go) *)

(** A host pgx may try: its TLS configuration, if any, by [InsecureSkipVerify]. *)
Record FallbackConfig := mkFallback { fb_Host : string; fb_Port : Z; fb_TLS : option bool }.

Record pgConfig := mkPgConfig { pc_Main : FallbackConfig; pc_Fallbacks : list FallbackConfig; pc_Password : string }.

(** [pgxpool.ParseConfig(dsn)]. *)
Class Pgx := { ParseConfig : string -> error + pgConfig }.

(** [os.ReadFile], now. *)
Definition Files := string -> error + string.

Record connSource := mkConnSource {
  cs_dsn : string; cs_file : string; cs_setting : string; cs_allowInsecure : bool;
  (** whether warnings go anywhere. *)
  cs_logging : bool
}.

Definition cs_read (fs : Files) (c : connSource) : error + string :=
  if (cs_file c =? "")%string then inr (cs_dsn c)
  else match fs (cs_file c) with
       | inl e => inl (Errorf ("postgres: read " +:+ cs_setting c) e)
       | inr b => inr (TrimSpace b)
       end.

Definition isLocalHost (host : string) : bool :=
  if HasPrefix host "/" || EqualFold host "localhost" then true
  else match ParseIP host with Some ip => IsLoopback ip | None => false end.

(** A connection that authenticates the server or stays on the machine. *)
Definition authenticated (a : FallbackConfig) : bool := isLocalHost (fb_Host a) || bool_decide (fb_TLS a = Some false).

Definition attempts_of (cfg : pgConfig) : list FallbackConfig := pc_Main cfg :: pc_Fallbacks cfg.

Fixpoint checkTLS_loop (c : connSource) (attempts : list FallbackConfig) : list event * option error :=
  match attempts with
  | [] => ([], None)
  | a :: attempts =>
      if authenticated a then checkTLS_loop c attempts
      else if cs_allowInsecure c then
        let (l, e) := checkTLS_loop c attempts in
        ((if cs_logging c
          then [Logged "Postgres connection without sslmode=verify-full allowed by STATE_POSTGRES_ALLOW_INSECURE_SSLMODE; do not use in production"
                  [("setting", cs_setting c); ("host", fb_Host a)]]
          else []) ++ l, e)
      else ([], Some (Opaque ("postgres: " +:+ cs_setting c +:+ " host " +:+ fb_Host a +:+ " must use sslmode=verify-full")))
  end.

Definition checkTLS (c : connSource) (cfg : pgConfig) : list event * option error := checkTLS_loop c (attempts_of cfg).

Section Postgres.
Context `{Pgx}.

Definition poolConfig (fs : Files) (c : connSource) : list event * (error + pgConfig) :=
  match cs_read fs c with
  | inl e => ([], inl e)
  | inr dsn =>
      match ParseConfig dsn with
      | inl e => ([], inl (Errorf ("postgres: parse " +:+ cs_setting c) e))
      | inr cfg =>
          let declared := Declared "secret" [pc_Password cfg] in
          let (l, e) := checkTLS c cfg in
          (declared :: l, match e with Some e => inl e | None => inr cfg end)
      end
  end.

Definition silenced (c : connSource) : connSource := mkConnSource (cs_dsn c) (cs_file c) (cs_setting c) (cs_allowInsecure c) false.

(** [c.beforeConnect(ctx, cc)]: the configuration of the new connection. *)
Definition beforeConnect (fs : Files) (c : connSource) : list event * (error + pgConfig) := poolConfig fs (silenced c).

(** ** The store (store.go) *)

Record pgOptions := mkPgOptions {
  o_dsn : string; o_dsnFile : string; o_listenDSN : string; o_maxConns : Z; o_connMaxIdleTime : duration; o_allowInsecure : bool
}.

Definition defaultOptions : pgOptions := mkPgOptions "" "" "" 10 (30 * Minute) false.

Record pgStore := mkPgStore {
  ps_config : pgConfig; ps_MaxConns : Z; ps_MaxConnIdleTime : duration; ps_beforeConnect : option connSource; ps_listen : connSource
}.

Definition bind_events {A B} (r : list event * (error + A)) (f : A -> list event * (error + B)) : list event * (error + B) :=
  match r with
  | (l, inl e) => (l, inl e)
  | (l, inr a) => let (l', r') := f a in (l ++ l', r')
  end.

Definition pg_New (fs : Files) (o : pgOptions) : list event * (error + pgStore) :=
  if Bool.eqb (o_dsn o =? "")%string (o_dsnFile o =? "")%string
  then ([], inl (Opaque "postgres: set exactly one of STATE_POSTGRES_DSN and STATE_POSTGRES_DSN_FILE"))
  else if o_maxConns o <? 2 then ([], inl (Opaque ("postgres: STATE_POSTGRES_MAX_CONNS must be at least 2, got " +:+ pretty (o_maxConns o))))
  else if o_connMaxIdleTime o <? 0 then ([], inl (Opaque "postgres: STATE_POSTGRES_CONN_MAX_IDLE_TIME must not be negative"))
  else
    let serving := mkConnSource (o_dsn o) (o_dsnFile o)
      (if (o_dsnFile o =? "")%string then "STATE_POSTGRES_DSN" else "STATE_POSTGRES_DSN_FILE") (o_allowInsecure o) true in
    bind_events (poolConfig fs serving) (fun cfg =>
      let st listen := mkPgStore cfg (Z.min (o_maxConns o) (2 ^ 20)) (o_connMaxIdleTime o)
        (if (o_dsnFile o =? "")%string then None else Some serving) listen in
      if (o_listenDSN o =? "")%string then ([], inr (st serving))
      else
        let listen := mkConnSource (o_listenDSN o) "" "STATE_POSTGRES_LISTEN_DSN" (o_allowInsecure o) true in
        bind_events (poolConfig fs listen) (fun _ => ([], inr (st listen)))).

(** The configuration of a connection the store makes later: for its pool, and
    for the change feed ([listenOnce]). *)
Definition dial_pool (fs : Files) (st : pgStore) : list event * (error + pgConfig) :=
  match ps_beforeConnect st with Some c => beforeConnect fs c | None => ([], inr (ps_config st)) end.
Definition dial_listen (fs : Files) (st : pgStore) : list event * (error + pgConfig) := poolConfig fs (silenced (ps_listen st)).

(** ** Every connection is authenticated *)

Lemma checkTLS_loop_ok c l :
  (checkTLS_loop c l).2 = None -> cs_allowInsecure c = false -> Forall (fun a => authenticated a = true) l.
Proof.
  induction l as [|a l IH]; cbn; [constructor|]. destruct (authenticated a) eqn:Ha; [by intros; constructor; auto|].
  intros Hn Hi. by rewrite Hi in Hn.
Qed.

Lemma checkTLS_loop_warns c l a :
  (checkTLS_loop c l).2 = None -> cs_logging c = true -> a ∈ l -> authenticated a = false ->
  exists msg, Logged msg [("setting", cs_setting c); ("host", fb_Host a)] ∈ (checkTLS_loop c l).1.
Proof.
  induction l as [|b l IH]; cbn; [by intros _ _ ?%not_elem_of_nil|]. intros Hn Hl [->|Hin]%elem_of_cons Ha.
  - rewrite Ha in *. destruct (cs_allowInsecure c); [|done]. destruct (checkTLS_loop c l). cbn in *. rewrite Hl. eexists. by left.
  - destruct (authenticated b); [by apply IH|]. destruct (cs_allowInsecure c); [|done].
    destruct (checkTLS_loop c l) as [ev e]. cbn in *. destruct (IH Hn Hl Hin Ha) as [msg Hm].
    exists msg. apply elem_of_app. by right.
Qed.

Lemma checkTLS_loop_silent c l : cs_logging c = false -> (checkTLS_loop c l).1 = [].
Proof.
  intros Hl. induction l as [|a l IH]; cbn; [done|]. destruct (authenticated a); [done|].
  destruct (cs_allowInsecure c); [|done]. rewrite Hl. by destruct (checkTLS_loop c l).
Qed.

Lemma poolConfig_ok fs c l cfg :
  poolConfig fs c = (l, inr cfg) ->
  Declared "secret" [pc_Password cfg] ∈ l /\ (checkTLS c cfg).2 = None /\ l = Declared "secret" [pc_Password cfg] :: (checkTLS c cfg).1.
Proof.
  unfold poolConfig. destruct (cs_read fs c) as [|dsn]; [done|]. destruct (ParseConfig dsn) as [|cfg']; [done|].
  destruct (checkTLS c cfg') as [ev [e|]] eqn:E; intros [= <- <-]. rewrite E. split_and!; [by left|done|done].
Qed.

Lemma bind_events_inr {A B} (r : list event * (error + A)) (f : A -> list event * (error + B)) l b :
  bind_events r f = (l, inr b) -> exists l1 a l2, r = (l1, inr a) /\ f a = (l2, inr b) /\ l = l1 ++ l2.
Proof.
  unfold bind_events. destruct r as [l1 [|a]]; [done|]. destruct (f a) as [l2 r2] eqn:E. intros [= <- ->]. eauto 10.
Qed.

Lemma pg_New_ok fs o l st :
  pg_New fs o = (l, inr st) ->
  exists serving l1 l2, poolConfig fs serving = (l1, inr (ps_config st)) /\ l = l1 ++ l2 /\
    cs_allowInsecure serving = o_allowInsecure o /\ cs_logging serving = true /\
    (ps_beforeConnect st = None \/ ps_beforeConnect st = Some serving) /\
    cs_allowInsecure (ps_listen st) = o_allowInsecure o /\ 2 <= ps_MaxConns st <= 2 ^ 20.
Proof.
  unfold pg_New. destruct (Bool.eqb _ _); [done|]. destruct (Z.ltb_spec (o_maxConns o) 2) as [|Hm]; [done|]. destruct (_ <? 0); [done|].
  intros (l1 & cfg & l2 & Hp & Hrest & ->)%bind_events_inr. eexists _, l1, l2.
  destruct (o_listenDSN o =? "")%string; [injection Hrest as <- <-|apply bind_events_inr in Hrest as (? & ? & ? & _ & [= <- <-] & ->)]; cbn;
    (split; [exact Hp|]); (split_and!; [done..| |done|lia|lia]); destruct (o_dsnFile o =? "")%string; auto.
Qed.

(** C20. The PostgreSQL store never talks to a server it has not authenticated.
    Once it opens, every host of every connection it makes, the pool's at start,
    one opened later from a file that has changed, and the change feed's, is on
    this machine or verified by certificate and name, fallbacks included, unless
    the operator allowed otherwise. Each host of the pool's connection string as
    read at start that is neither is warned about then; a string read again later
    is checked in silence. The password of every string it connects with is
    declared for redaction. *)
Theorem pg_connections_authenticated (fs fs' : Files) (o : pgOptions) (l l' : list event) (st : pgStore) (cfg : pgConfig) :
  pg_New fs o = (l, inr st) ->
  (dial_pool fs' st = (l', inr cfg) \/ dial_listen fs' st = (l', inr cfg)) ->
  (o_allowInsecure o = false -> Forall (fun a => authenticated a = true) (attempts_of cfg)) /\
  (forall a, a ∈ attempts_of (ps_config st) -> authenticated a = false ->
     exists msg setting, Logged msg [("setting", setting); ("host", fb_Host a)] ∈ l) /\
  (forall msg fields, Logged msg fields ∉ l') /\
  Declared "secret" [pc_Password cfg] ∈ l ++ l'.
Proof.
  intros (serving & l1 & l2 & Hp & -> & Ha & Hlog & Hb & Hli & _)%pg_New_ok Hd.
  assert (Hok : forall c, cs_allowInsecure c = o_allowInsecure o -> poolConfig fs' (silenced c) = (l', inr cfg) ->
            (o_allowInsecure o = false -> Forall (fun a => authenticated a = true) (attempts_of cfg)) /\
            (forall msg fields, Logged msg fields ∉ l') /\ Declared "secret" [pc_Password cfg] ∈ l').
  { intros c Hc (H1 & H2 & ->)%poolConfig_ok. split_and!; [|unfold checkTLS; rewrite checkTLS_loop_silent by done; set_solver|done].
    intros Hi. eapply checkTLS_loop_ok; [exact H2|]. cbn. by rewrite Hc. }
  destruct (poolConfig_ok _ _ _ _ Hp) as (Hdecl & Hnone & Hl1).
  assert (Hwarn : forall a, a ∈ attempts_of (ps_config st) -> authenticated a = false ->
            exists msg setting, Logged msg [("setting", setting); ("host", fb_Host a)] ∈ l1 ++ l2).
  { intros a Hin Hau. destruct (checkTLS_loop_warns serving _ a Hnone Hlog Hin Hau) as [msg Hm]. exists msg, (cs_setting serving).
    rewrite Hl1. apply elem_of_app. left. by right. }
  destruct Hd as [Hd|Hd].
  - unfold dial_pool in Hd. destruct Hb as [-> | ->] in Hd.
    + injection Hd as <- <-. split_and!; [|done|set_solver|].
      * intros Hi. eapply checkTLS_loop_ok; [exact Hnone|]. by rewrite Ha.
      * apply elem_of_app. left. apply elem_of_app. by left.
    + destruct (Hok serving Ha Hd) as (H1 & H2 & H3). split_and!; [done..|]. apply elem_of_app. by right.
  - destruct (Hok (ps_listen st) Hli Hd) as (H1 & H2 & H3). split_and!; [done..|]. apply elem_of_app. by right.
Qed.
End Postgres.

(** ** The database's files (state/sqlite/store.go) *)

(** A file or directory: its permission bits, and whether this user owns it. *)
Record node := mkNode { nd_mode : Z; nd_ours : bool }.
Abbreviation FS := (gmap string node).

Inductive syscall := SysStat | SysMkdirAll | SysOpen | SysClose | SysChmod.

Section Sqlite.
(** System calls that fail for another reason than the model has; the mask of
    a file this process creates. *)
Context (sys : syscall -> string -> option error) (umask : Z).

(** [filepath.Dir(path)] of a clean path. *)
Definition filepath_Dir (path : string) : string :=
  match CutLast path "/" with None => "." | Some ("", _) => "/" | Some (d, _) => d end.

Definition other_access (mode : Z) : bool := negb (Z.land mode 0x7 =? 0).

Definition dir_warning (dir : string) (mode : Z) : event :=
  Logged "state directory is accessible to other users; restrict it to the tempogate user" [("dir", dir); ("mode", pretty mode)].
Definition file_warning (p : string) : event := Logged "could not restrict state file to owner-only" [("file", p)].

(** 0o700 and 0o600. *)
Definition owner_dir : Z := 0x1c0.
Definition owner_file : Z := 0x180.

Definition restrict_dir (dir : string) (fs : FS) : FS * list event * option error :=
  match sys SysStat dir with
  | Some e => (fs, [], Some (Errorf "sqlite: stat state directory" e))
  | None =>
      match fs !! dir with
      | None =>
          match sys SysMkdirAll dir with
          | Some e => (fs, [], Some (Errorf "sqlite: create state directory" e))
          | None => (<[dir := mkNode (Z.land owner_dir (Z.lnot umask)) true]> fs, [], None)
          end
      | Some d => (fs, if other_access (nd_mode d) then [dir_warning dir (nd_mode d)] else [], None)
      end
  end.

(** [os.Chmod(p, 0o600)], which only the owner may do; [None] is success, also
    of a file that is not there. *)
Definition chmod_owner (p : string) (fs : FS) : FS * list event :=
  match fs !! p with
  | None => (fs, [])
  | Some n =>
      if bool_decide (sys SysChmod p = None) && nd_ours n then (<[p := mkNode owner_file true]> fs, [])
      else (fs, [file_warning p])
  end.

Fixpoint chmod_all (ps : list string) (fs : FS) : FS * list event :=
  match ps with
  | [] => (fs, [])
  | p :: ps => let (fs1, l1) := chmod_owner p fs in let (fs2, l2) := chmod_all ps fs1 in (fs2, l1 ++ l2)
  end.

Definition state_files (path : string) : list string := [path; path +:+ "-wal"; path +:+ "-shm"].

Definition restrictFiles (path : string) (fs : FS) : FS * list event * option error :=
  match restrict_dir (filepath_Dir path) fs with
  | (fs, l, Some e) => (fs, l, Some e)
  | (fs, l, None) =>
      match sys SysOpen path with
      | Some e => (fs, l, Some (Errorf "sqlite: create database file" e))
      | None =>
          let fs := match fs !! path with Some _ => fs | None => <[path := mkNode (Z.land owner_file (Z.lnot umask)) true]> fs end in
          match sys SysClose path with
          | Some e => (fs, l, Some (Errorf "sqlite: create database file" e))
          | None => let (fs', l') := chmod_all (state_files path) fs in (fs', l ++ l', None)
          end
      end
  end.

(** [New] up to the handles it opens, which do not touch the file yet. *)
Definition sqlite_New (path : string) (fs : FS) : FS * list event * option error :=
  if (path =? "")%string then (fs, [], Some (Opaque "sqlite: empty path")) else restrictFiles path fs.

Lemma chmod_all_spec ps fs fs' l :
  chmod_all ps fs = (fs', l) ->
  (forall p n, p ∈ ps -> fs' !! p = Some n -> nd_mode n = owner_file \/ file_warning p ∈ l) /\
  (forall p, p ∉ ps -> fs' !! p = fs !! p) /\ (forall p, is_Some (fs !! p) <-> is_Some (fs' !! p)).
Proof.
  revert fs fs' l. induction ps as [|q ps IH]; cbn; intros fs fs' l.
  { intros [= <- <-]. split_and!; [by intros ? ? ?%not_elem_of_nil|done|done]. }
  destruct (chmod_owner q fs) as [fs1 l1] eqn:E1. destruct (chmod_all ps fs1) as [fs2 l2] eqn:E2. intros [= <- <-].
  destruct (IH _ _ _ E2) as (Hin & Hout & Hdom).
  assert (Hq : (forall n, fs1 !! q = Some n -> nd_mode n = owner_file \/ file_warning q ∈ l1) /\
               (forall p, p <> q -> fs1 !! p = fs !! p) /\ (forall p, is_Some (fs !! p) <-> is_Some (fs1 !! p))).
  { unfold chmod_owner in E1. destruct (fs !! q) as [n|] eqn:Eq; [destruct (_ && _)|]; injection E1 as <- <-.
    - split_and!; [rewrite lookup_insert_eq; intros ? [= <-]; by left|intros; by rewrite lookup_insert_ne|].
      intros p. rewrite lookup_insert_is_Some'. naive_solver.
    - split_and!; [intros ? _; right; by left|done|done].
    - split_and!; [congruence|done|done]. }
  destruct Hq as (Hq & Hq' & Hqd). split_and!.
  - intros p n [->|Hp]%elem_of_cons Hn.
    + destruct (decide (q ∈ ps)) as [Hp|Hp].
      * destruct (Hin q n Hp Hn) as [|]; [by left|right; apply elem_of_app; by right].
      * rewrite (Hout q Hp) in Hn. destruct (Hq n Hn) as [|]; [by left|right; apply elem_of_app; by left].
    + destruct (Hin p n Hp Hn) as [|]; [by left|right; apply elem_of_app; by right].
  - intros p [Hpq Hp]%not_elem_of_cons. rewrite (Hout p Hp). by apply Hq'.
  - intros p. by rewrite Hqd, Hdom.
Qed.

(** The SQLite store keeps its files to itself. When it opens, the database
    exists and each of it, its write-ahead log and its shared memory that exists
    is readable and writable by its owner alone, or a warning names it; no other
    file changed, a directory the operator made included, and a directory it
    makes is the owner's alone. *)
Theorem sqlite_files_private (path : string) (fs fs' : FS) (l : list event) :
  sqlite_New path fs = (fs', l, None) ->
  is_Some (fs' !! path) /\
  (forall p n, p ∈ state_files path -> fs' !! p = Some n -> nd_mode n = owner_file \/ file_warning p ∈ l) /\
  (forall p n, p ∉ state_files path -> fs !! p = Some n -> fs' !! p = Some n) /\
  (forall p n, fs !! p = None -> p ∉ state_files path -> fs' !! p = Some n ->
     p = filepath_Dir path /\ nd_mode n = Z.land owner_dir (Z.lnot umask)).
Proof.
  unfold sqlite_New. destruct (path =? "")%string; [done|]. unfold restrictFiles.
  destruct (restrict_dir _ fs) as [[fs1 l1] [e|]] eqn:Ed; [done|].
  assert (Hd : (forall p n, fs !! p = Some n -> fs1 !! p = Some n) /\
               (forall p n, fs !! p = None -> fs1 !! p = Some n -> p = filepath_Dir path /\ nd_mode n = Z.land owner_dir (Z.lnot umask))).
  { unfold restrict_dir in Ed. destruct (sys SysStat _); [done|]. destruct (fs !! filepath_Dir path) as [d|] eqn:Edir.
    - injection Ed as <- _. split; [done|congruence].
    - destruct (sys SysMkdirAll _); [done|]. injection Ed as <- _. split.
      + intros p n Hp. rewrite lookup_insert_ne; [done|congruence].
      + intros p n Hp Hn. destruct (decide (p = filepath_Dir path)) as [->|]; [|rewrite lookup_insert_ne in Hn by done; congruence].
        rewrite lookup_insert_eq in Hn. by injection Hn as <-. }
  destruct (sys SysOpen path); [done|]. set (fs2 := match fs1 !! path with Some _ => fs1 | None => _ end).
  destruct (sys SysClose path); [done|]. destruct (chmod_all _ fs2) as [fs3 l3] eqn:Ec. intros [= <- <-].
  destruct (chmod_all_spec _ _ _ _ Ec) as (Hin & Hout & Hdom). destruct Hd as [Hd1 Hd2].
  assert (H2 : is_Some (fs2 !! path) /\ forall p, p <> path -> fs2 !! p = fs1 !! p).
  { unfold fs2. destruct (fs1 !! path) eqn:E; [by split|]. split; [by rewrite lookup_insert_eq|intros; by rewrite lookup_insert_ne]. }
  destruct H2 as [H2 H2'].
  assert (Hne : forall p, p ∉ state_files path -> p <> path) by (intros p Hp ->; apply Hp; by left).
  split_and!.
  - by apply Hdom.
  - intros p n Hp Hn. destruct (Hin p n Hp Hn) as [|]; [by left|right; apply elem_of_app; by right].
  - intros p n Hp Hn. rewrite (Hout p Hp), (H2' p (Hne p Hp)). by apply Hd1.
  - intros p n Hno Hp Hn. rewrite (Hout p Hp), (H2' p (Hne p Hp)) in Hn. by apply (Hd2 p n).
Qed.
End Sqlite.

(** ** Examples *)

#[local] Instance toy_pgx : Pgx := {
  ParseConfig dsn := if (dsn =? "verified")%string then inr (mkPgConfig (mkFallback "db.internal" 5432 (Some false)) [] "pw")
                     else if (dsn =? "rotated")%string then inr (mkPgConfig (mkFallback "db.internal" 5432 (Some false)) [] "pw2")
                     else if (dsn =? "prefer")%string then inr (mkPgConfig (mkFallback "db.internal" 5432 (Some true)) [mkFallback "db.internal" 5432 None] "pw")
                     else inl (Opaque "cannot parse")
}.

Definition one_file (text : string) : Files := fun _ => inr text.
Definition file_options : pgOptions := mkPgOptions "" "/run/dsn" "" 10 (30 * Minute) false.

Lemma pg_connections_authenticated_witness : exists l st l' cfg,
  pg_New (one_file "verified") file_options = (l, inr st) /\ dial_pool (one_file "rotated") st = (l', inr cfg) /\
  Forall (fun a => authenticated a = true) (attempts_of cfg) /\ Declared "secret" ["pw2"] ∈ l ++ l'.
Proof.
  eexists _, _, _, _. split; [reflexivity|]. split; [reflexivity|].
  edestruct (pg_connections_authenticated (one_file "verified") (one_file "rotated") file_options) as (H1 & _ & _ & H3); [reflexivity|left; reflexivity|].
  split; [by apply H1|exact H3].
Defined.

(** A file rotated to a string that would fall back to plain text stops new
    connections instead. *)
Example rotated_to_prefer :
  match pg_New (one_file "verified") file_options with
  | (_, inr st) => match dial_pool (one_file "prefer") st with (_, inl _) => true | _ => false end
  | _ => false
  end = true.
Proof. reflexivity. Qed.

Definition shared_volume : FS := {["/data" := mkNode 0x1ed false; "/data/state.db" := mkNode 0x1a4 true; "/data/state.db-wal" := mkNode 0x1a4 false]}.

Lemma sqlite_files_private_witness : exists fs' l,
  sqlite_New (fun _ _ => None) 0x12 "/data/state.db" shared_volume = (fs', l, None) /\
  (forall n, fs' !! "/data/state.db" = Some n -> nd_mode n = owner_file \/ file_warning "/data/state.db" ∈ l).
Proof.
  eexists _, _. split; [reflexivity|].
  edestruct (sqlite_files_private (fun _ _ => None) 0x12 "/data/state.db" shared_volume) as (_ & H2 & _); [reflexivity|].
  intros n Hn. apply (H2 _ n); [by left|exact Hn].
Defined.
