(* ===== verification/AdminFacts.v ===== *)
(** * The admin API: theorems

    The guard lets through exactly the configured tokens on the configured
    hosts; what a minted integration key is; a revoked key is refused by the
    verifier of the same process; listing enumerates every key once; every
    attempt that passed the guard leaves one audit line. *)

From S2P Require Import Prelude GoStrings GoErrors GoEncoding GoCrypto Perms Oidc Denylist Keys Signer Verifier Sqlite Token Admin.

(** ** The guard *)

Section GuardFacts.
Import Guard.
Context `{Unicode} {S A : Type}.

(** A request the guard is there for: an allowed host, and a bearer token whose
    SHA-256 is configured. *)
Definition authorized (g : Guard) (rq : Request) (d : string) : Prop :=
  hostAllowed g (rq_Host rq) = true /\
  exists tok, admin_bearerToken (rq_Authorization rq) = (tok, true) /\ sha256_Sum256 tok = d /\ d ∈ gd_digests g.

Lemma match_loop_Some sum ds d : match_loop sum ds (Some d) = Some d.
Proof. induction ds as [|d' ds IH]; [done|]. cbn [match_loop]. rewrite bool_decide_false by done. by rewrite andb_false_r. Qed.

Lemma match_loop_spec sum ds :
  match_loop sum ds None = if bool_decide (sum ∈ ds) then Some sum else None.
Proof.
  induction ds as [|d ds IH]; [done|]. cbn [match_loop]. destruct (sum =? d)%string eqn:E; cbn [andb].
  - apply String.eqb_eq in E as <-. rewrite (bool_decide_true (None = None)) by done. rewrite match_loop_Some.
    by rewrite bool_decide_true by left.
  - rewrite IH. apply String.eqb_neq in E. by rewrite (bool_decide_ext (sum ∈ d :: ds) (sum ∈ ds)) by set_solver.
Qed.

(** C14. The guard: a request reaches a handler if and only if its Host is
    allowed and it carries a bearer token whose SHA-256 is one of the configured
    digests, and the handler is told that digest's fingerprint; every other
    request is answered 421 (host) or 401 (token), whatever the handler, without
    running it; with no digests configured nothing passes. *)
Theorem guard_sound (g : Guard) (rq : Request) (next : caller -> M S A) (w w' : World S) r :
  middleware g rq next w = (w', r) ->
  (exists d evs, authorized g rq d /\ gd_digests g <> [] /\
     let w1 := mkWorld (w_store w) (w_tick w) (w_draw w) (w_trace w ++ evs) (w_memo w) in
     (a ← next (mkCaller (String.substring 0 fingerprintLen (hex_Encode d)) (rq_RemoteAddr rq)); mret (inr a)) w1
       = (w', r)) \/
  ((forall d, ~ authorized g rq d) /\ w_store w' = w_store w /\ w_tick w' = w_tick w /\
   exists rj, r = inr (inl rj) /\ rj_Status rj = (if hostAllowed g (rq_Host rq) then 401 else 421)).
Proof.
  assert (Hrej : forall status reason msg (w1 : World S), reject rq status reason msg w1 = (w', r) ->
    w_store w' = w_store w1 /\ w_tick w' = w_tick w1 /\ exists rj, r = inr (inl rj) /\ rj_Status rj = status).
  { intros status reason msg w1 Hr. unfold reject in Hr. run_in Hr. split; [done|]. split; [done|]. eexists. done. }
  intros Hm. unfold middleware in Hm. destruct (hostAllowed g (rq_Host rq)) eqn:Hh; cbn [negb] in Hm.
  2:{ right. apply Hrej in Hm. split; [|done]. intros d [Hd _]. congruence. }
  destruct (admin_bearerToken (rq_Authorization rq)) as [tok ok] eqn:Hb.
  unfold mbind, M_bind, emit in Hm. cbn [w_store w_tick w_draw w_trace w_memo] in Hm.
  destruct (bool_decide (gd_digests g = [])) eqn:Hd.
  { apply bool_decide_eq_true in Hd. right. apply Hrej in Hm as (E1 & E2 & E3). split; [|done].
    intros d (_ & t & _ & _ & Hin). rewrite Hd in Hin. by apply not_elem_of_nil in Hin. }
  apply bool_decide_eq_false in Hd. destruct ok; cbn [negb] in Hm.
  2:{ right. apply Hrej in Hm as (E1 & E2 & E3). split; [|done]. intros d (_ & t & Ht & _). rewrite Hb in Ht. done. }
  unfold match_ in Hm. rewrite match_loop_spec in Hm. destruct (bool_decide _) eqn:Hin.
  - apply bool_decide_eq_true in Hin. left. exists (sha256_Sum256 tok), ([Declared "secret" [rq_Authorization rq]] ++ [Declared "secret" [tok]]).
    split. { split; [done|]. exists tok. done. } split; [done|]. rewrite app_assoc. exact Hm.
  - apply bool_decide_eq_false in Hin. right. apply Hrej in Hm as (E1 & E2 & E3). split; [|done].
    intros d (_ & t & Ht & Hs & Hd'). rewrite Hb in Ht. injection Ht as <-. by rewrite <- Hs in Hd'.
Qed.

End GuardFacts.

(** ** Minting an integration key *)

Lemma ToClaim_one ns role : ToClaim (Some (New [AddNamespace ns role])) = [ns +:+ ":" +:+ role].
Proof.
  unfold ToClaim, Namespaces, New, AddNamespace, grant_add. cbn [foldl]. rewrite lookup_empty, insert_empty.
  by rewrite map_to_list_singleton.
Qed.

Section KeysFacts.
Import AdminKeys.
Context `{Unicode} `{JWX} `{UUIDGen} `{UUIDParse} `{Env} `{MapOrder} {R : Type} `{KeyRegistry R}.
Implicit Types (h : AdminKeys) (w : World (Cached R)).

Lemma IKValidate_None k :
  IntegrationKey_Validate k = None ->
  ik_Namespace k <> "" /\ ik_Owner k <> "" /\ Role_Valid (ik_Role k) = true /\ ik_Role k <> RoleWorker.
Proof.
  unfold IntegrationKey_Validate. destruct (_ =? "")%string eqn:E1; [done|]. destruct (ik_Owner k =? "")%string eqn:E2; [done|].
  destruct (Role_Valid _) eqn:E3; [|done]. cbn. destruct (_ =? RoleWorker)%string eqn:E4; [done|].
  intros _. by apply String.eqb_neq in E1, E2, E4.
Qed.

(** What a 201 of POST /admin/keys gives: a namespace and an owner, a role
    that is read, write or admin, the system namespace only when the operator
    allowed it, and an expiry in the future within the cap; the JWT is signed
    by the signing rule's key, for the owner and exactly the one permission
    namespace:role, and expires the requested time-to-live after minting; and
    the key is saved, under the id returned, with that token's jti. *)
Theorem create_sound h c b w w' out cfg kps :
  sg_keys (ak_signer h) = Some (cfg, kps) -> memo_coherent kps w ->
  create h c b w = (w', inr out) ->
  exists exp jti kp priv, let t0 := clock (w_tick w) in let t1 := clock (Datatypes.S (w_tick w)) in
    let ttl := time_Sub exp t0 in
    (cb_Namespace b <> "" /\ cb_Owner b <> "" /\ (cb_Namespace b = SystemNamespace -> ak_systemGrants h = true) /\
     Role_Valid (cb_Role b) = true /\ cb_Role b <> RoleWorker) /\
    (cb_ExpiresAt b = Some exp /\ 0 < ttl <= ak_maxTTL h) /\
    (Signing kps (clock (Datatypes.S (Datatypes.S (w_tick w)))) (k_publishDelay cfg) = Some kp /\
     jwk_ParsePrivate (PrivatePEM kp) = Some priv /\
     jwt_Sign (mkHeader (Kid kp) AccessTokenType)
       (mkClaims (cb_Owner b) (nonempty (sg_issuer (ak_signer h)))
          (if (sg_audience (ak_signer h) =? "")%string then [] else [sg_audience (ak_signer h)]) t1 t1
          (Some (t1 + ttl)) jti (Some [cb_Namespace b +:+ ":" +:+ cb_Role b]) None None None None None None)
       priv = Some (co_JWT out)) /\
    (out = mkCreateOutput 201 (co_ID out) (co_JWT out) (Some exp) /\
     Save (mkIntegrationKey (co_ID out) (cb_Namespace b) (cb_Role b) (cb_Owner b) jti t0 (Some exp) None)
       (ca_store (w_store w)) = (ca_store (w_store w'), None)).
Proof.
  intros Hsk Hmemo Hc. unfold create in Hc. apply bind_inr in Hc as (w1 & [k r] & Hm & Hc).
  assert (w_store w1 = w_store w' /\ r = inr out) as [Hst ->].
  { unfold audit_key in Hc. destruct r; run_in Hc; done. }
  rewrite <- Hst. clear Hc Hst. unfold mint_key in Hm. cbn [ik_Owner ik_Namespace ik_ExpiresAt] in Hm.
  apply bind_inr in Hm as (w2 & [] & K2 & Hm). run_in K2.
  set (k0 := mkIntegrationKey "" _ _ _ _ _ _ _) in *.
  destruct (IntegrationKey_Validate k0) as [e|] eqn:Hv; [by run_in Hm|]. apply IKValidate_None in Hv as (Hns & Hown & Hrole & Hwork).
  destruct ((cb_Namespace b =? SystemNamespace)%string && negb (ak_systemGrants h)) eqn:Hsys; [by run_in Hm|].
  apply bind_inr in Hm as (w3 & i & K3 & Hm). unfold attempt, newID in K3. cbn [w_draw] in K3.
  destruct (uuid_NewV7 (w_draw w)) as [id|] eqn:Hid; injection K3 as <- <-; [|by run_in Hm].
  apply bind_inr in Hm as (w4 & t0 & K4 & Hm). cbn in K4. injection K4 as <- <-.
  destruct (cb_ExpiresAt b) as [exp|] eqn:Hexp; [|by run_in Hm]. cbv zeta in Hm.
  destruct (time_Sub exp (clock (w_tick w)) <=? 0) eqn:Hpos; [by run_in Hm|].
  destruct (ak_maxTTL h <? time_Sub exp (clock (w_tick w))) eqn:Hcap; [by run_in Hm|].
  apply bind_inr in Hm as (w5 & m & K5 & Hm). unfold attempt in K5.
  destruct (Mint _ _ _) as [w6 [e|[signed jti]]] eqn:Hmint; injection K5 as <- <-; [by run_in Hm|].
  pose proof Hmint as Hkeep. apply keeps_Mint in Hkeep as [Hkeep _]. cbn in Hkeep.
  eapply Mint_inr in Hmint as (kp & priv & t & t1 & -> & -> & Hsg & Hpr & Hsig);
    [|done|by unfold memo_coherent in *; cbn].
  cbn [w_tick mr_Subject mr_Permissions mr_TTL mr_Email mr_ClientID mr_IDP] in *.
  apply bind_inr in Hm as (w7 & [] & K7 & Hm). run_in K7.
  apply bind_inr in Hm as (w8 & e & K8 & Hm). unfold on_registry, on_store in K8. cbn [w_store] in K8. rewrite Hkeep in K8.
  destruct (Save _ _) as [s' e'] eqn:Hs. injection K8 as <- <-. destruct e' as [e|]; run_in Hm.
  exists exp, jti, kp, priv. unfold Grant_ in Hsig. rewrite ToClaim_one in Hsig. cbn in Hsig.
  split_and?; try done; try lia.
  - intros E. rewrite E in Hsys. cbn in Hsys. by destruct (ak_systemGrants h).
  - rewrite (proj2 (Z.ltb_lt 0 (time_Sub exp (clock (w_tick w))))) in Hsig by lia. exact Hsig.
Qed.

End KeysFacts.

(** ** Revoking one *)

(** What the verifier's side of the store sees of the registry: a revocation is
    in the denylist, and reading changes nothing it relies on. *)
Class RegistryLaws (R : Type) `{KeyRegistry R} `{DenylistStore R} := {
  MarkRevoked_denies id t s s' jti :
    steady s -> MarkRevoked id t s = (s', (jti, None)) -> is_Some (denied s' !! jti) /\ steady s';
  ByID_keeps id s s' r :
    steady s -> ByID id s = (s', r) ->
    steady s' /\ forall jti, is_Some (denied s !! jti) -> is_Some (denied s' !! jti)
}.

Section RevokeFacts.
Import AdminKeys.
Context `{Unicode} `{JOSELaws} `{UUIDGen} `{UUIDParse} `{Env} `{MapOrder} {R : Type} `{RegistryLaws R}.
Implicit Types (h : AdminKeys) (w : World (Cached R)).

Lemma revoke_marked h id w w' jti :
  revoke_key h id w = (w', inr jti) ->
  exists s', MarkRevoked id (clock (w_tick w)) (ca_store (w_store w)) = (s', (jti, None)) /\
    ((if ak_hydrator h then hydrate jti else mret tt) : M (Cached R) unit)
      (mkWorld (mkCached s' (ca_cache (w_store w))) (Datatypes.S (w_tick w)) (w_draw w) (w_trace w) (w_memo w))
    = (w', inr tt).
Proof.
  intros Hr. unfold revoke_key in Hr. apply bind_inr in Hr as (w1 & t & K1 & Hr). cbn in K1. injection K1 as <- <-.
  apply bind_inr in Hr as (w2 & r & K2 & Hr). unfold on_registry, on_store in K2. cbn [w_store] in K2.
  destruct (MarkRevoked _ _ _) as [s' r'] eqn:Hm. injection K2 as <- <-.
  apply bind_inr in Hr as (w3 & j & K3 & Hr). destruct r' as [j' [e|]]; [done|]. cbn in K3. injection K3 as <- <-.
  apply bind_inr in Hr as (w4 & [] & K4 & Hr). run_in Hr. eauto.
Qed.

Lemma revoke_inr h id w w' jti :
  ak_hydrator h = true -> dl_checker (ca_cache (w_store w)) = true -> steady (ca_store (w_store w)) ->
  revoke_key h id w = (w', inr jti) -> jti <> "" ->
  revoked_in jti (w_store w') /\ dl_checker (ca_cache (w_store w')) = true /\ steady (ca_store (w_store w')).
Proof.
  intros Hh Hck Hst Hr Hj. apply revoke_marked in Hr as (s' & Hm & Hr). rewrite Hh in Hr.
  unfold hydrate in Hr. rewrite (proj2 (String.eqb_neq _ _) Hj) in Hr.
  apply bind_inr in Hr as (w5 & t & K5 & K4). cbn in K5. injection K5 as <- <-. unfold on_cache, on_store in K4.
  cbn [w_store ca_cache ca_store] in K4. injection K4 as <-.
  destruct (MarkRevoked_denies _ _ _ _ _ Hst Hm) as [Hd Hs]. cbn [w_store ca_cache ca_store].
  unfold Hydrate. rewrite (proj2 (String.eqb_neq _ _) Hj). split; [split; [done|]|].
  - cbn. intros e. rewrite cache_store_self. by intros [= <-].
  - split; [by rewrite (proj2 (cache_store_params _ _ _ _))|]. done.
Qed.

(** C13. Revoking an integration key takes effect at once in this process. After a
    204 of DELETE /admin/keys/{id} through a handler with a hydrator, as long as
    nobody removes denylist rows and unless a lookup of that key's jti was in
    flight that had read the table before the revocation, the verifier behind the
    same cache accepts no token with that jti, even one it was accepting from its
    cache a moment ago, then or after any further lookups, revocations and
    hydrations by other requests. *)
Theorem revoked_key_refused (pem_of : string -> string) h c id w w' :
  ak_hydrator h = true -> dl_checker (ca_cache (w_store w)) = true -> steady (ca_store (w_store w)) ->
  delete_ h c id w = (w', inr 204) ->
  exists jti, (MarkRevoked id (clock (w_tick w)) (ca_store (w_store w))).2 = (jti, None) /\
  forall delta now_ flights ls s,
    (forall i f, flights !! i = Some f -> fl_jti f = jti -> fl_revoked f = true) ->
    dsteps delta (mkShared (ca_cache (w_store w')) (denied (ca_store (w_store w'))) now_ flights) ls s ->
  forall v cfg kps raw (wv wv' : World (VState (Cached R))) tok,
    ca_cache (vs_store (w_store wv)) = sh_cache s -> denied (ca_store (vs_store (w_store wv))) = sh_denied s ->
    steady (ca_store (vs_store (w_store wv))) -> vf_denylist v = true ->
    vf_keys v = Some (cfg, kps) -> immutable pem_of kps -> coherent pem_of wv -> jti <> "" ->
    Verify v raw wv = (wv', inr tok) -> cl_jti tok <> jti.
Proof.
  intros Hh Hck Hst Hd. unfold delete_ in Hd. apply bind_inr in Hd as (w1 & r & K1 & Hd).
  unfold attempt in K1. destruct (revoke_key h id w) as [w2 [e|jti]] eqn:Hr; injection K1 as <- <-.
  { apply bind_inr in Hd as (w3 & row & _ & Hd). apply bind_inr in Hd as (w4 & [] & _ & Hd).
    destruct (errors_Is e _); run_in Hd. }
  pose proof (revoke_marked _ _ _ _ _ Hr) as (s' & Hm & _).
  exists jti. split; [by rewrite Hm|]. intros delta now_ flights ls s Hfl Hls v cfg kps raw wv wv' tok Hvc Hvt Hvs Hvd Hk Him Hc Hj.
  destruct (revoke_inr h id w w2 jti Hh Hck Hst Hr Hj) as ([Hden He] & Hck2 & Hst2).
  apply bind_inr in Hd as (w3 & row & K3 & Hd). apply bind_inr in K3 as (w4 & got & K4 & K3). run_in K3.
  unfold on_registry, on_store in K4. destruct (ByID id (ca_store (w_store w2))) as [s4 r4] eqn:Hb. injection K4 as <- <-.
  destruct (ByID_keeps _ _ _ _ Hst2 Hb) as [Hst4 Hden4].
  apply bind_inr in Hd as (w5 & [] & K5 & Hd). unfold audit_key in K5. run_in K5. run_in Hd. cbn [w_store] in *.
  assert (settled jti (mkShared (ca_cache (w_store w2)) (denied s4) now_ flights)) as Hset by (split; [by apply Hden4|done]).
  destruct (dsteps_settled delta jti _ _ _ Hset Hls) as [(Hd' & He' & _) _].
  apply dsteps_checker in Hls. cbn in Hls.
  apply (revoked_refused pem_of v cfg kps raw wv wv' tok jti); try done; [by rewrite Hvc, Hls|].
  split; [by rewrite Hvt|by rewrite Hvc].
Qed.

End RevokeFacts.

(** ** Listing *)

Section ListFacts.
Import AdminKeys.
Context `{UUIDParse} {R : Type} `{KeyRegistry R}.
Implicit Types (h : AdminKeys) (w : World (Cached R)) (k : IntegrationKey).

(** Strictly id-descending. *)
Definition id_gt k1 k2 : Prop := String.ltb (ik_ID k2) (ik_ID k1) = true.

(** A registry that holds the rows [all], newest id first, and that nobody
    changes while the pages are read. *)
Definition holds (s : R) (all : list IntegrationKey) : Prop :=
  StronglySorted id_gt all /\
  forall f, 0 < lf_Limit f ->
    List_ f s = (s, (firstn (Z.to_nat (lf_Limit f + 1)) (List.filter (list_matches f) all), None)).

(** A client that follows [next_cursor] to the end. *)
Fixpoint fetch_all (fuel : nat) h (owner namespace : string) (limit : Z) (cursor : string) :
    M (Cached R) (list keyView) :=
  match fuel with
  | O => mret []
  | Datatypes.S fuel =>
      b ← list_keys h (mkListInput owner namespace limit cursor);
      if (lb_NextCursor b =? "")%string then mret (lb_Items b)
      else rest ← fetch_all fuel h owner namespace limit (lb_NextCursor b); mret (lb_Items b ++ rest)
  end.

Lemma ltb_irrefl s : String.ltb s s = false.
Proof. unfold String.ltb. pose proof (String.compare_antisym s s). by destruct (String.compare s s). Qed.

Lemma ltb_asym s t : String.ltb s t = true -> String.ltb t s = false.
Proof. unfold String.ltb. rewrite (String.compare_antisym t s). by destruct (String.compare s t). Qed.

Definition wanted (owner namespace : string) (all : list IntegrationKey) : list IntegrationKey :=
  List.filter (list_matches (mkListFilter owner namespace 0 "")) all.

(** What a cursor leaves: the rows after the one it names. *)
Definition after_cursor (cursor : string) (done_ : list IntegrationKey) : Prop :=
  match last done_ with None => cursor = "" | Some k => cursor = ik_ID k /\ cursor <> "" end.

Lemma sorted_app_inv k l1 l2 : StronglySorted id_gt (l1 ++ k :: l2) ->
  Forall (fun x => id_gt x k) l1 /\ Forall (fun x => id_gt k x) l2.
Proof.
  induction l1 as [|y l1 IH]; cbn; intros Hs; inversion Hs as [|a b Hs' Hall]; subst; [done|].
  destruct (IH Hs') as [E1 E2]. split; [|done]. constructor; [|done].
  rewrite List.Forall_forall in Hall. apply Hall. apply in_or_app. right. by left.
Qed.

Lemma filter_all {A} (p : A -> bool) l : Forall (fun x => p x = true) l -> List.filter p l = l.
Proof. induction 1 as [|x l Hx Hl IH]; [done|]. cbn. by rewrite Hx, IH. Qed.

Lemma filter_none {A} (p : A -> bool) l : Forall (fun x => p x = false) l -> List.filter p l = [].
Proof. induction 1 as [|x l Hx Hl IH]; [done|]. cbn. by rewrite Hx, IH. Qed.

Lemma cursor_rest cursor done_ rest :
  StronglySorted id_gt (done_ ++ rest) -> after_cursor cursor done_ ->
  List.filter (fun k => (cursor =? "")%string || String.ltb (ik_ID k) cursor) (done_ ++ rest) = rest.
Proof.
  intros Hs Hc. unfold after_cursor in Hc. destruct done_ as [|k l _] using rev_ind; [cbn in Hc; subst; by apply filter_all, Forall_true|].
  rewrite last_snoc in Hc. destruct Hc as [-> Hne]. rewrite <- app_assoc in Hs |- *. cbn in Hs |- *.
  apply sorted_app_inv in Hs as [H1 H2]. rewrite List.filter_app, filter_none; [|].
  - cbn. rewrite (proj2 (String.eqb_neq _ _) Hne), ltb_irrefl. cbn. apply filter_all.
    eapply Forall_impl; [exact H2|]. intros x Hx. exact Hx.
  - eapply Forall_impl; [exact H1|]. intros x Hx. cbn. rewrite (proj2 (String.eqb_neq _ _) Hne). by apply ltb_asym.
Qed.

Lemma list_matches_split owner ns limit cursor all :
  List.filter (list_matches (mkListFilter owner ns limit cursor)) all =
  List.filter (fun k => (cursor =? "")%string || String.ltb (ik_ID k) cursor) (wanted owner ns all).
Proof.
  assert (forall k, list_matches (mkListFilter owner ns limit cursor) k =
    list_matches (mkListFilter owner ns 0 "") k && ((cursor =? "")%string || String.ltb (ik_ID k) cursor)) as E.
  { intros k. unfold list_matches. cbn [lf_Owner lf_Namespace lf_Cursor]. by rewrite String.eqb_refl, orb_true_l, andb_true_r. }
  unfold wanted. induction all as [|k all IH]; [done|]. cbn [List.filter]. rewrite E.
  destruct (list_matches _ k); cbn [andb]; [|done]. cbn [List.filter]. by rewrite IH.
Qed.

Lemma sorted_bfilter (p : IntegrationKey -> bool) l : StronglySorted id_gt l -> StronglySorted id_gt (List.filter p l).
Proof.
  induction 1 as [|x l Hl IH Hx]; [constructor|]. cbn. destruct (p x); [|done]. constructor; [done|].
  rewrite List.Forall_forall in *. intros y [Hy _]%filter_In. auto.
Qed.

(** The extra row only tells whether there is more. *)
Lemma page_firstn limit rest :
  0 < limit ->
  list_page limit (firstn (Z.to_nat (limit + 1)) rest) =
  if limit <? Z.of_nat (length rest)
  then mkListBody (map viewOf (firstn (Z.to_nat limit) rest)) (ik_ID (nth (Z.to_nat (limit - 1)) rest zeroIntegrationKey))
  else mkListBody (map viewOf rest) "".
Proof.
  intros Hl. unfold list_page. rewrite length_firstn. destruct (limit <? Z.of_nat (length rest)) eqn:E.
  - rewrite (proj2 (Z.ltb_lt _ _)) by lia. rewrite List.firstn_firstn, Nat.min_l by lia. f_equal.
    rewrite <- (firstn_skipn (Z.to_nat (limit + 1)) rest) at 2. rewrite app_nth1; [done|].
    rewrite length_firstn. lia.
  - rewrite (proj2 (Z.ltb_ge _ _)) by lia. by rewrite firstn_all2 by lia.
Qed.

(** The cursor of a page names its last row. *)
Lemma next_after n done_ rest :
  (n < length rest)%nat -> Forall (fun k => ik_ID k <> "") rest ->
  after_cursor (ik_ID (nth n rest zeroIntegrationKey)) (done_ ++ firstn (Datatypes.S n) rest) /\
  ik_ID (nth n rest zeroIntegrationKey) <> "".
Proof.
  intros Hn Hne. assert (firstn (Datatypes.S n) rest = firstn n rest ++ [nth n rest zeroIntegrationKey]) as ->.
  { revert rest Hn Hne. induction n as [|n IH]; intros [|x rest] Hn Hne; cbn in *; try lia; [done|].
    f_equal. apply IH; [lia|]. by inversion Hne. }
  assert (ik_ID (nth n rest zeroIntegrationKey) <> "").
  { rewrite List.Forall_forall in Hne. by apply Hne, nth_In. }
  split; [|done]. unfold after_cursor. rewrite app_assoc, last_snoc. done.
Qed.

(** Paging loses nothing and repeats nothing: a client that starts without a
    cursor and follows [next_cursor] until it is empty has, after finitely many
    requests, exactly the keys of its filter, each once, in descending id
    order, whatever page size it asks for. *)
Theorem pages_complete h owner ns limit all w :
  0 < ak_defaultLimit h -> 0 < ak_maxLimit h -> holds (ca_store (w_store w)) all ->
  Forall (fun k => ik_ID k <> "" /\ uuid_Parse (ik_ID k) = true) all ->
  fetch_all (Datatypes.S (length all)) h owner ns limit "" w = (w, inr (map viewOf (wanted owner ns all))).
Proof.
  intros Hd Hmx [Hsort Hlist] Hids.
  assert (length (wanted owner ns all) <= length all)%nat as Hlen by apply List.filter_length_le.
  cut (forall fuel done_ rest cursor, wanted owner ns all = done_ ++ rest -> (length rest < fuel)%nat ->
    after_cursor cursor done_ -> fetch_all fuel h owner ns limit cursor w = (w, inr (map viewOf rest))).
  { intros Hc. apply (Hc _ []); [done|lia|done]. }
  assert (Hws : StronglySorted id_gt (wanted owner ns all)) by by apply sorted_bfilter.
  assert (Hwi : Forall (fun k => ik_ID k <> "" /\ uuid_Parse (ik_ID k) = true) (wanted owner ns all)).
  { apply List.Forall_forall. intros k [Hin _]%filter_In. rewrite List.Forall_forall in Hids. auto. }
  assert (0 < page_limit h limit) as Hpl.
  { unfold page_limit. destruct (limit <=? 0) eqn:E1; [done|]. destruct (ak_maxLimit h <? limit) eqn:E2; lia. }
  induction fuel as [|fuel IH]; intros done_ rest cursor Hw Hf Hc; [lia|]. cbn [fetch_all].
  unfold list_keys. cbn [li_Owner li_Namespace li_Limit li_Cursor].
  assert (negb (cursor =? "")%string && negb (uuid_Parse cursor) = false) as Hok.
  { unfold after_cursor in Hc. destruct (last done_) as [k|] eqn:E; [|by subst].
    destruct Hc as [-> _]. apply last_Some in E as [l ->].
    rewrite Hw in Hwi. apply Forall_app in Hwi as [[_ [[_ ->] _]%Forall_cons]%Forall_app _]. by rewrite andb_false_r. }
  rewrite Hok. unfold mbind, M_bind, on_registry, on_store. rewrite Hlist by done. cbn [ca_store ca_cache].
  rewrite list_matches_split, Hw, cursor_rest; [|by rewrite <- Hw|done]. cbn [lf_Limit].
  set (n := page_limit h limit) in *. rewrite page_firstn by done.
  destruct (n <? Z.of_nat (length rest)) eqn:E; cbn [lb_NextCursor lb_Items]; [|destruct w as [[? ?] ? ? ? ?]; done].
  destruct (next_after (Z.to_nat (n - 1)) done_ rest) as [Ha Hne].
  { lia. }
  { rewrite Hw in Hwi. apply Forall_app in Hwi as [_ Hwi]. eapply Forall_impl; [exact Hwi|]. by intros k [? _]. }
  cbn [mret M_ret]. unfold mret, M_ret. cbn [lb_NextCursor lb_Items]. rewrite (proj2 (String.eqb_neq _ _) Hne).
  replace (Datatypes.S (Z.to_nat (n - 1))) with (Z.to_nat n) in Ha by lia.
  replace (mkWorld _ _ _ _ _) with w by (by destruct w as [[? ?] ? ? ? ?]).
  rewrite (IH (done_ ++ firstn (Z.to_nat n) rest) (skipn (Z.to_nat n) rest)); [|..|done].
  - by rewrite <- map_app, firstn_skipn.
  - by rewrite <- app_assoc, firstn_skipn.
  - rewrite length_skipn. lia.
Qed.

End ListFacts.

(** ** The audit trail *)

Section AuditFacts.
Import Guard.
Context `{Unicode} `{JWX} `{UUIDGen} `{UUIDParse} `{Env} `{MapOrder} {R : Type} `{KeyRegistry R} `{SessionStore R}.
Context `{AEAD} `{RSAKeyGen} {T : Type} `{KeyStore T}.

Definition is_audit (ev : event) : bool :=
  match ev with Logged msg _ => (msg =? "admin audit")%string | _ => false end.

(** One audit line, the last thing the handler does: it says who, and
    "success" exactly for a successful response. *)
Definition audited {St A} (c : caller) (action : string) (m : M St A) : Prop :=
  forall w w' r, m w = (w', r) ->
  exists pre outcome attrs,
    w_trace w' = w_trace w ++ pre ++ [Logged "admin audit" (("action", action) :: ("outcome", outcome) :: attrs)] /\
    Forall (fun ev => is_audit ev = false) pre /\ ("caller", c_fingerprint c) ∈ attrs /\
    ("remote_addr", c_remoteAddr c) ∈ attrs /\ (outcome = "success" <-> exists x, r = inr x).

(** A silent part that answers its failures itself goes before; nothing after. *)
Lemma audited_bind {St A B} c action (m : M St A) (f : A -> M St B) :
  respects (silent is_audit) m -> always (fun _ => True) m -> (forall x, audited c action (f x)) ->
  audited c action (m ≫= f).
Proof.
  intros Hm Ha Hf w w' r [(e & K & _)|(w1 & x & K & Hr)]%bind_cases; [by destruct (Ha _ _ _ K) as (? & [=] & _)|].
  destruct (Hm _ _ _ K) as (evs & Htr & Hevs). destruct (Hf x _ _ _ Hr) as (pre & o & attrs & Ht & Hpre & Hrest).
  exists (evs ++ pre), o, attrs. rewrite Ht, Htr, <- !app_assoc. split; [done|]. split; [by apply Forall_app|done].
Qed.

Lemma audited_line {St B} c action outcome attrs (k : M St B) :
  ("caller", c_fingerprint c) ∈ attrs -> ("remote_addr", c_remoteAddr c) ∈ attrs ->
  (forall w, exists r, k w = (w, r) /\ (outcome = "success" <-> exists y, r = inr y)) ->
  audited c action (emit (Logged "admin audit" (("action", action) :: ("outcome", outcome) :: attrs)) ≫= fun _ => k).
Proof.
  intros Hc Hr Hk w w' r. unfold mbind, M_bind, emit. set (w1 := mkWorld _ _ _ _ _). intros Hw.
  destruct (Hk w1) as (r' & Hk' & Ho). rewrite Hk' in Hw. injection Hw as <- <-.
  exists [], outcome, attrs. by split_and?.
Qed.

Lemma always_attempt {St A} (m : M St A) : always (fun _ => True) (attempt m).
Proof. intros w w' r. unfold attempt. destruct (m w). intros [= <- <-]. eauto. Qed.

Lemma auditOutcome_success e : auditOutcome e = "success" <-> e = None.
Proof.
  split; [|by intros ->]. destruct e as [e|]; [|done]. unfold auditOutcome.
  destruct (_ || _); [done|]. destruct (bool_decide _); [done|]. by destruct (bool_decide _).
Qed.

Lemma audit_silent_Mint sg req : respects (silent is_audit) (Mint (S := Cached R) sg req).
Proof. apply silent_same. intros w w' r Hm. by apply keeps_Mint in Hm as [_ ?]. Qed.

Lemma silent_newID : respects (silent is_audit) (AdminKeys.newID (R := R)).
Proof.
  apply silent_same. intros w w' r. unfold AdminKeys.newID. destruct (uuid_NewV7 _); by intros [= <- <-].
Qed.

Lemma silent_mint h k : respects (silent is_audit) (AdminKeys.mint_key (R := R) h k).
Proof.
  unfold AdminKeys.mint_key, AdminKeys.on_registry. cbv zeta. pose proof audit_silent_Mint. pose proof silent_newID. respects.
Qed.

#[local] Hint Extern 1 (always _ (attempt _)) => apply always_attempt : tg.

Lemma always_mint h k : always (fun _ => True) (AdminKeys.mint_key (R := R) h k).
Proof. unfold AdminKeys.mint_key, AdminKeys.on_registry. cbv zeta. always. Qed.

Lemma err_of_None {A} (r : error + A) : err_of r = None <-> exists y, r = inr y.
Proof. destruct r; cbn; split; [done|by intros (y & [=])|eauto|done]. Qed.

Lemma audited_create c h b : audited c "create" (AdminKeys.create (R := R) h c b).
Proof.
  apply audited_bind; [apply silent_mint|apply always_mint|]. intros [k r]. unfold AdminKeys.audit_key.
  apply audited_line; [set_solver|set_solver|]. intros w. setoid_rewrite auditOutcome_success. setoid_rewrite err_of_None.
  destruct r as [e|out]; eexists; (split; [reflexivity|]); [|done]. split; by intros (y & [=]).
Qed.

Lemma audited_delete c h id : audited c "revoke" (AdminKeys.delete_ (R := R) h c id).
Proof.
  apply audited_bind; [unfold AdminKeys.revoke_key, AdminKeys.on_registry, AdminKeys.hydrate, on_cache, or_throw; respects|
    apply always_attempt|]. intros r.
  apply audited_bind; [unfold AdminKeys.on_registry; respects|unfold AdminKeys.on_registry; always|]. intros row.
  unfold AdminKeys.audit_key. apply audited_line; [set_solver|set_solver|]. intros w.
  setoid_rewrite auditOutcome_success. setoid_rewrite err_of_None. destruct r as [e|jti]; [destruct (errors_Is e _)|];
    eexists; (split; [reflexivity|]); split; try (by intros (y & [=])); eauto.
Qed.

Lemma always_revokeBy sb : always (fun _ => True) (AdminSessions.revokeBy (R := R) sb).
Proof. unfold AdminSessions.revokeBy, AdminSessions.declare_pii. always. Qed.

Lemma audited_sessions c sb : audited c "revoke_sessions" (AdminSessions.revoke_sessions (R := R) c sb).
Proof.
  apply audited_bind.
  - unfold AdminSessions.revokeBy, AdminSessions.declare_pii, AdminSessions.parseSubject. respects.
  - apply always_revokeBy.
  - intros [n err]. unfold AdminSessions.audit_sessions. apply audited_line; [set_solver|set_solver|]. intros w.
    setoid_rewrite auditOutcome_success. destruct err as [e|]; [destruct (errors_Is e _); [|destruct (errors_As_status e)]|];
      eexists; (split; [reflexivity|]); split; try (by intros (y & [=])); try done; eauto.
Qed.

Lemma retire_outcome_success e : AdminSigningKeys.retire_outcome e = "success" <-> e = None.
Proof.
  split; [|by intros ->]. destruct e as [e|]; [|done]. unfold AdminSigningKeys.retire_outcome.
  by repeat (destruct (errors_Is e _); [done|]).
Qed.

Lemma audited_retire c cfg kid force : audited c "retire_signing_key" (AdminSigningKeys.retire_key (S := T) cfg c kid force).
Proof.
  apply audited_bind; [|apply always_attempt|].
  - unfold Retire, checkReplacementPublished, Reload, All, swap, Keys_Signing, on_keystore, or_throw, lift_sum. respects.
  - intros r. apply audited_line; [set_solver|set_solver|]. intros w. setoid_rewrite retire_outcome_success. setoid_rewrite err_of_None.
    destruct r as [e|kp]; [|eexists; split; [reflexivity|]; split; eauto].
    destruct (errors_Is e _); [|destruct (errors_Is e _); [|destruct (AdminSigningKeys.errors_As_pending e) as [[? ?]|]]];
      eexists; (split; [reflexivity|]); split; by intros (y & [=]).
Qed.

(** The audit trail is complete: every mint or revocation of an integration
    key, revocation of sessions and retirement of a signing key that passed the
    guard writes exactly one audit line, whatever the outcome and wherever it
    failed; the line names the caller's token fingerprint and address and says
    "success" if and only if the request succeeded. *)
Theorem admin_audited c h b id sb cfg kid force :
  audited c "create" (AdminKeys.create (R := R) h c b) /\
  audited c "revoke" (AdminKeys.delete_ (R := R) h c id) /\
  audited c "revoke_sessions" (AdminSessions.revoke_sessions (R := R) c sb) /\
  audited c "retire_signing_key" (AdminSigningKeys.retire_key (S := T) cfg c kid force).
Proof.
  split; [|split; [|split]].
  - apply audited_create.
  - apply audited_delete.
  - apply audited_sessions.
  - apply audited_retire.
Qed.

End AuditFacts.
