(* ===== verification/AdminStores.v ===== *)
(** * The admin API over the stores (state/sqlite/admin_adapter.go,
    state/postgres/admin_adapter.go)

    The adapters from the store methods to the interfaces of package admin and
    of the denylist, the laws the admin theorems need of them, and what
    POST /admin/sessions/revoke leaves of an account's refresh tokens. *)

From S2P Require Import Prelude GoStrings GoErrors Oidc Denylist Sessions Sql Sqlite Postgres SqlSessions SqliteSessions SqliteFacts Token Admin AdminFacts.

(** ** The adapters *)

Definition sqlite_KeyRegistry : KeyRegistry DB := {|
  Save := sqlite_SaveIntegrationKey;
  ByID := sqlite_IntegrationKeyByID;
  List_ := sqlite_ListIntegrationKeys;
  MarkRevoked := sqlite_MarkIntegrationKeyRevoked
|}.

Definition sqlite_SessionStore : SessionStore DB := {|
  ListSessions := sqlite_ListRefreshSessions;
  RevokeFamily := sqlite_RevokeRefreshFamily;
  RevokeEmail := sqlite_RevokeRefreshByEmail;
  RevokeSubject := sqlite_RevokeRefreshBySubject
|}.

Definition pg_KeyRegistry : KeyRegistry PgDB := {|
  Save := pg_SaveIntegrationKey;
  ByID := pg_IntegrationKeyByID;
  List_ := pg_ListIntegrationKeys;
  MarkRevoked := pg_MarkIntegrationKeyRevoked
|}.

Definition pg_SessionStore : SessionStore PgDB := {|
  ListSessions := pg_ListRefreshSessions;
  RevokeFamily := pg_RevokeRefreshFamily;
  RevokeEmail := pg_RevokeRefreshByEmail;
  RevokeSubject := pg_RevokeRefreshBySubject
|}.

#[export] Existing Instances sqlite_KeyRegistry sqlite_SessionStore pg_KeyRegistry pg_SessionStore.

(** A store method as a checker: its error is returned. *)
Definition checker_of {S} (op : string -> storeOp S (bool * option error)) (jti : string) : M S bool :=
  r ← on_store (op jti); or_throw (fun e => e) r.

#[export] Instance sqlite_DenylistChecker : DenylistChecker DB := {| IsRevoked := checker_of sqlite_IsRevoked |}.
#[export] Instance pg_DenylistChecker : DenylistChecker PgDB := {| IsRevoked := checker_of pg_IsRevoked |}.

(** ** Their laws *)

Lemma checker_of_inr {S} op jti (w w' : World S) b :
  checker_of op jti w = (w', inr b) ->
  exists s', op jti (w_store w) = (s', (b, None)) /\ w_store w' = s'.
Proof.
  unfold checker_of. intros (w1 & r & K & Hr)%bind_inr. unfold on_store in K.
  destruct (op jti (w_store w)) as [s' r'] eqn:E. injection K as <- <-. destruct r' as [x [e|]]; [done|].
  cbn in Hr. injection Hr as <- <-. eauto.
Qed.

Lemma sqlite_active jti db db' :
  rely deny_rely db -> sqlite_IsRevoked jti db = (db', (false, None)) -> jti_denylist (tables db) !! jti = None.
Proof.
  intros Hr Hi. pose proof (rely_next _ _ Hr) as [_ Hn]. unfold sqlite_IsRevoked, method in Hi.
  destruct (@mbind (Q Tables) _ _ _ _ _ db) as [db1 r] eqn:E.
  destruct r as [e|[b o]]; [done|]. simplify_eq.
  apply Q_bind_cases in E as [(x & _ & [=])|(db2 & row & Hs & E)]. injection E as <- ->.
  unfold stmt, run_stmt in Hs. destruct (slot_outcome _); try done. cbn in Hs. injection Hs as _ Hb.
  apply bool_decide_eq_false in Hb. apply eq_None_not_Some. intros Hd. by apply Hb, Hn.
Qed.

#[export] Instance sqlite_DenylistStore : DenylistStore DB.
Proof.
  refine {| denied db := jti_denylist (tables db); steady := rely deny_rely |}.
  intros w w' jti Hs (s' & Hi & _)%checker_of_inr. by eapply sqlite_active.
Defined.

Lemma suffixing_method {T A} zero (q : Q T (A * option error)) db db' r :
  suffixing q -> method zero q db = (db', r) -> exists n, sched db' = drop n (sched db).
Proof.
  intros Hq. unfold method. destruct (q db) as [db1 r1] eqn:E. apply Hq in E. by destruct r1; intros [= <- <-].
Qed.

Lemma suffixing_stmt {T A} msg (f : T -> T * A) : suffixing (stmt msg f).
Proof.
  intros db db' r E. exists 1%nat. revert E. unfold stmt, run_stmt.
  destruct (slot_outcome _); [destruct (f _)|..]; intros [= <- <-]; cbn; by destruct (sched db).
Qed.

Lemma sqlite_Mark_suffix id t db db' r :
  sqlite_MarkIntegrationKeyRevoked id t db = (db', r) -> exists n, sched db' = drop n (sched db).
Proof.
  apply suffixing_method. unfold transaction. apply suffixing_bind; [apply suffixing_stmt|]. intros _.
  apply suffixing_in_tx, suffixing_bind; [apply suffixing_tx_stmt|]. intros [jti|]; [|apply suffixing_ret].
  apply suffixing_bind; [apply suffixing_tx_stmt|]. intros _.
  apply suffixing_bind; [apply suffixing_tx_stmt|]. intros _. apply suffixing_ret.
Qed.

#[export] Instance sqlite_RegistryLaws : RegistryLaws DB.
Proof.
  constructor.
  - intros id t s s' jti Hs Hm. pose proof (sqlite_Mark_suffix _ _ _ _ _ Hm) as [n Hn].
    split; [|exact (rely_suffix _ _ _ _ Hs Hn)].
    destruct (mark_revoked_atomic _ _ _ _ _ _ Hs Hm) as [_ [(k & Hd & _ & _ & [[_ ->]|Hf])|[Hne _]]]; [exact Hd| |done].
    destruct Hf as (x & Hx & _). discriminate Hx.
  - intros id s s' r Hs Hb. cbn in Hb. unfold sqlite_IntegrationKeyByID in Hb.
    apply (guarantees_method deny_rely) in Hb as [Hs' [_ Hm]]; [split; [exact Hs'|exact Hm]|guarantees|exact Hs].
Qed.

(** ** Ending sessions *)

Section SessionFacts.
Import AdminSessions.
Context `{Unicode} `{Env}.

Lemma selectors_one b :
  selectors b = 1%nat ->
  (rb_Email b <> "" /\ rb_Subject b = "" /\ rb_FamilyID b = "") \/
  (rb_Email b = "" /\ rb_Subject b <> "" /\ rb_FamilyID b = "") \/
  (rb_Email b = "" /\ rb_Subject b = "" /\ rb_FamilyID b <> "").
Proof.
  destruct b as [e s f]. unfold selectors. cbn [rb_Email rb_Subject rb_FamilyID List.filter].
  destruct (e =? "")%string eqn:E1; destruct (s =? "")%string eqn:E2; destruct (f =? "")%string eqn:E3; cbn;
    intros ?; try lia; solve_bool; tauto.
Qed.

(** A selector mistake: not exactly one is given, or the subject is not a token's
    sub. *)
Definition malformed (b : sessionRevokeBody) : Prop :=
  selectors b <> 1%nat \/ rb_Subject b <> "" /\ exists e, ParseTokenSubject (rb_Subject b) = inl e.

(** The tokens a revocation asks for. *)
Definition selected (b : sessionRevokeBody) (row : TokenRow) : Prop :=
  rb_Email b <> "" /\ email_matches (rb_Email b) row = true \/
  (exists cid sub, rb_Subject b <> "" /\ ParseTokenSubject (rb_Subject b) = inr (cid, sub) /\ subject_matches cid sub row = true) \/
  rb_FamilyID b <> "" /\ in_family (rb_FamilyID b) row = true.

(** From [db] on, by whatever steps of the session machine, the token with hash [h] is never
    exchanged and no token joins its family [f]. *)
Definition ended (h f : string) (db : DB) : Prop := forall db',
  db_ok db' -> steps (db_view db) (db_view db') ->
  (forall tok client at_, Hash tok = h -> (sqlite_ConsumeRefresh tok client at_ db').2.2 <> None) /\
  (forall rt, rt_FamilyID rt = f -> (sqlite_SaveRefresh rt db').2 <> None).

Lemma revoked_steps h row s s' :
  steps s s' -> tokens s !! h = Some row -> revoked row = true ->
  exists row', tokens s' !! h = Some row' /\ row_family row' = row_family row /\ revoked row' = true.
Proof.
  intros Hs Hr Hv. destruct (steps_tokens _ _ _ _ Hs Hr) as (row' & Hr' & Hd & _ & Hk). exists row'.
  unfold row_family. rewrite Hd. unfold revoked in *. by rewrite Hk.
Qed.

Lemma revoked_ended h row (db : DB) :
  refresh_tokens (tables db) !! h = Some row -> revoked row = true -> ended h (row_family row) db.
Proof.
  intros Hr Hv db' Hok Hs. split.
  - intros tok client at_ Hh Hnone. destruct (sqlite_ConsumeRefresh_refines tok client at_ db' Hok) as (_ & s0 & s1 & Ha & _ & Hc).
    destruct (revoked_steps h row (db_view db) _ (transitivity Hs Ha) Hr Hv) as (row0 & Hr0 & _ & Hv0).
    destruct Hc as [Hc|[(x & Hx & _) _]]; [|congruence]. apply (f_equal (fun q => q.2.2)) in Hc. cbn in Hc. rewrite Hnone in Hc.
    unfold Spec.ConsumeRefresh in Hc. rewrite Hh, Hr0 in Hc. unfold live in Hc. rewrite Hv0, andb_false_r in Hc.
    by destruct (negb _), (consumed row0).
  - intros rt Hf Hnone. destruct (sqlite_SaveRefresh_refines rt db' Hok) as (_ & s0 & s1 & Ha & _ & Hc).
    destruct (revoked_steps h row (db_view db) _ (transitivity Hs Ha) Hr Hv) as (row0 & Hr0 & Hf0 & Hv0).
    destruct Hc as [Hc|[(x & Hx & _) _]]; [|unfold id in Hx; congruence]. apply (f_equal snd) in Hc. cbn in Hc. rewrite Hnone in Hc.
    unfold Spec.SaveRefresh in Hc. rewrite Hf in Hc.
    by rewrite (proj2 (family_revoked_true _ _) (ex_intro _ _ (ex_intro _ _ (conj Hr0 (conj Hf0 Hv0))))) in Hc.
Qed.

(** Revoking a family revokes the tokens it had. *)
Lemma family_revocation f at_ db db' n h row :
  db_ok db -> sqlite_RevokeRefreshFamily f at_ db = (db', (n, None)) ->
  refresh_tokens (tables db) !! h = Some row -> row_family row = f ->
  exists row', refresh_tokens (tables db') !! h = Some row' /\ row_family row' = f /\ revoked row' = true.
Proof.
  intros Hok Hm Hr <-.
  destruct (sqlite_RevokeRefreshFamily_linearizes (row_family row) at_ db Hok) as (s0 & s1 & Ha & Hz & Hc).
  { apply family_exists_true. eauto. }
  rewrite Hm in Hz, Hc. destruct Hc as [Hc|[(x & Hx & _) _]]; [|done].
  destruct (steps_tokens _ _ _ _ Ha Hr) as (row0 & Hr0 & Hd & _).
  unfold Spec.RevokeRefreshFamily in Hc. destruct (family_exists _ _); [|done]. injection Hc as -> _.
  assert (Hf0 : row_family row0 = row_family row) by (unfold row_family; by rewrite Hd).
  destruct (revoked_steps h (revoke_row (in_family (row_family row)) at_ row0) _ _ Hz) as (row' & Hr' & Hf & Hv).
  - cbn. apply lookup_revoke_where. eauto.
  - rewrite revoke_row_revoked. unfold in_family. by rewrite Hf0, String.eqb_refl, orb_true_r.
  - exists row'. rewrite Hf, revoke_row_family. auto.
Qed.

(** Revoking an account revokes the tokens it had. *)
Lemma bulk_revoked_rows sel at_ db db' n :
  db_ok db ->
  (match sel with
   | inl email => sqlite_RevokeRefreshByEmail email at_ db
   | inr (connectorID, subject) => sqlite_RevokeRefreshBySubject connectorID subject at_ db
   end) = (db', (n, None)) ->
  db_ok db' /\ forall h row, refresh_tokens (tables db) !! h = Some row ->
    (match sel with
     | inl email => email_matches email row
     | inr (connectorID, subject) => subject_matches connectorID subject row
     end) = true ->
    exists row', refresh_tokens (tables db') !! h = Some row' /\ row_family row' = row_family row /\ revoked row' = true.
Proof.
  intros Hok Hm. destruct (bulk_revocation sel _ _ _ _ Hok Hm) as (Hok' & Hs & Hall). split; [done|].
  intros h row Hr Hsel. destruct (Hall _ _ Hr Hsel) as [(row' & Hr' & Hv) _]. exists row'. split; [done|]. split; [|done].
  destruct (steps_tokens _ _ _ _ Hs Hr) as (row2 & Hr2 & Hd & _). cbn in Hr2. rewrite Hr' in Hr2. injection Hr2 as <-.
  unfold row_family. by rewrite Hd.
Qed.

(** What [revokeBy] answers and leaves. *)
Lemma revokeBy_spec b (w w' : World DB) n err :
  db_ok (w_store w) -> revokeBy b w = (w', inr (n, err)) ->
  (malformed b -> exists m, err = Some (StatusError 400 m) /\ w_store w' = w_store w) /\
  (err = None -> db_ok (w_store w') /\
   forall h row, refresh_tokens (tables (w_store w)) !! h = Some row -> selected b row ->
     exists row', refresh_tokens (tables (w_store w')) !! h = Some row' /\ row_family row' = row_family row /\ revoked row' = true).
Proof.
  intros Hok Hb. unfold revokeBy, declare_pii in Hb. apply bind_inr in Hb as (w2 & [] & K2 & Hb). run_in K2.
  destruct (selectors b =? 1)%nat eqn:Hsel; cbn [negb] in Hb.
  2:{ apply Nat.eqb_neq in Hsel. run_in Hb. split; [eauto|done]. }
  apply Nat.eqb_eq in Hsel. apply bind_inr in Hb as (w3 & t & K3 & Hb). cbn in K3. injection K3 as <- <-.
  destruct (selectors_one b Hsel) as [(E1 & E2 & E3)|[(E1 & E2 & E3)|(E1 & E2 & E3)]].
  - rewrite (proj2 (String.eqb_neq _ _) E1) in Hb. cbn [negb] in Hb. unfold on_store in Hb. cbn [w_store] in Hb.
    destruct (RevokeEmail _ _ _) as [db' q] eqn:Hm. injection Hb as <- ->. cbn [w_store].
    split; [by intros [|[? _]]|]. intros ->. destruct (bulk_revoked_rows (inl (rb_Email b)) _ _ _ _ Hok Hm) as (Hok' & Hall).
    split; [done|]. intros h row Hrow [[_ Hmt]|[(? & ? & ? & _)|[? _]]]; [by eapply Hall|congruence..].
  - rewrite (proj2 (String.eqb_eq _ _) E1), (proj2 (String.eqb_neq _ _) E2) in Hb. cbn [negb] in Hb.
    apply bind_inr in Hb as (w4 & q & K4 & Hb). unfold attempt, parseSubject in K4.
    destruct (ParseTokenSubject (rb_Subject b)) as [e|[cid sub]] eqn:Hp; injection K4 as <- <-.
    { run_in Hb. split; [eauto|done]. }
    unfold on_store in Hb. cbn [w_store] in Hb.
    destruct (RevokeSubject _ _ _ _) as [db' q] eqn:Hm. injection Hb as <- ->. cbn [w_store].
    split; [intros [|(_ & ? & ?)]; congruence|]. intros ->.
    destruct (bulk_revoked_rows (inr (cid, sub)) _ _ _ _ Hok Hm) as (Hok' & Hall).
    split; [done|]. intros h row Hrow [[? _]|[(cid' & sub' & _ & Hp' & Hmt)|[? _]]]; [congruence| |congruence].
    rewrite Hp in Hp'. injection Hp' as <- <-. by eapply Hall.
  - rewrite (proj2 (String.eqb_eq _ _) E1), (proj2 (String.eqb_eq _ _) E2) in Hb. cbn [negb] in Hb.
    unfold on_store in Hb. cbn [w_store] in Hb.
    destruct (RevokeFamily _ _ _) as [db' q] eqn:Hm. injection Hb as <- ->. cbn [w_store].
    split; [by intros [|[? _]]|]. intros ->. split.
    + pose proof (sqlite_RevokeRefreshFamily_keeps (rb_FamilyID b) (clock (w_tick w)) _ Hok) as [Hk _].
      cbn in Hm. by rewrite Hm in Hk.
    + intros h row Hrow [[? _]|[(? & ? & ? & _)|[_ Hf]]]; [congruence..|]. apply String.eqb_eq in Hf. rewrite Hf.
      by eapply family_revocation.
Qed.

(** C25. POST /admin/sessions/revoke on SQLite. A success means that exactly one
    selector was given, well formed, and that every refresh token it selects, by
    email, by subject or by family, of those that existed when the store call
    began and whatever other requests interleaved, is revoked: however codes
    and tokens are then redeemed, rotated and revoked, it is never exchanged
    again, and no token joins its family.
    A selector mistake, a count other than one or a subject that does not
    parse, is never a success: it answers 400 and changes nothing. *)
Theorem sessions_revoke_complete c b (w w' : World DB) r :
  db_ok (w_store w) -> revoke_sessions c b w = (w', r) ->
  match r with
  | inl e => malformed b -> http_status e = 400 /\ w_store w' = w_store w
  | inr n =>
      ~ malformed b /\ selectors b = 1%nat /\ db_ok (w_store w') /\
      forall h row, refresh_tokens (tables (w_store w)) !! h = Some row -> selected b row ->
        (exists row', refresh_tokens (tables (w_store w')) !! h = Some row' /\ revoked row' = true) /\
        family_revoked (row_family row) (refresh_tokens (tables (w_store w'))) = true /\
        ended h (row_family row) (w_store w')
  end.
Proof.
  intros Hok Hr. unfold revoke_sessions in Hr. apply bind_cases in Hr as [(e & K & _)|(w1 & [n err] & Hb & Hr)].
  { by destruct (always_revokeBy b _ _ _ K) as (? & [=] & _). }
  assert (w_store w' = w_store w1) as Hst.
  { unfold audit_sessions in Hr. destruct err as [e|]; [destruct (errors_Is e _); [|destruct (errors_As_status e)]|]; by run_in Hr. }
  apply revokeBy_spec in Hb as Hspec; [|done]. rewrite Hst. destruct Hspec as [Hbad Hgood].
  assert (Hlog : forall e, err = Some (StatusError 400 e) -> r = inl (StatusError 400 e)).
  { intros e ->. unfold audit_sessions in Hr. by run_in Hr. }
  destruct r as [e|n'].
  - intros (m & -> & Hw)%Hbad. specialize (Hlog m eq_refl). by injection Hlog as ->.
  - assert (err = None) as ->.
    { unfold audit_sessions in Hr. destruct err as [e|]; [destruct (errors_Is e _); [|destruct (errors_As_status e)]|]; by run_in Hr. }
    destruct (Hgood eq_refl) as (Hok' & Hall). split; [by intros (m & ? & _)%Hbad|].
    split. { destruct (decide (selectors b = 1%nat)); [done|]. by destruct Hbad as (? & ? & _); [left|]. }
    split; [done|]. intros h row Hrow Hsel. destruct (Hall h row Hrow Hsel) as (row' & Hr' & Hf & Hv).
    split; [eauto|]. split; [apply family_revoked_true; eauto|]. rewrite <-Hf. by eapply revoked_ended.
Qed.

End SessionFacts.

(** ** Listing over SQLite *)

Section ListSqlite.

#[local] Instance id_gt_antisym : AntiSymm eq id_gt.
Proof. intros a b Hab Hba. unfold id_gt in *. by rewrite (ltb_asym _ _ Hab) in Hba. Qed.

#[local] Instance id_ge_trans : Transitive id_ge.
Proof.
  intros a b c Hab Hbc. unfold id_ge in *. apply Is_true_true. apply Is_true_true in Hab, Hbc.
  change (String.le (ik_ID c) (ik_ID a)). by etrans.
Qed.

#[local] Instance id_ge_total : Total id_ge.
Proof. intros a b. unfold id_ge. destruct (String.leb_total (ik_ID a) (ik_ID b)); auto. Qed.

Lemma id_ge_strict a b : id_ge a b -> ik_ID a <> ik_ID b -> id_gt a b.
Proof.
  unfold id_ge, id_gt, String.leb, String.ltb. intros Hle Hne.
  destruct (String.compare (ik_ID b) (ik_ID a)) eqn:E; try done. by apply String.compare_eq_iff in E.
Qed.

Lemma sorted_strict l : StronglySorted id_ge l -> NoDup (map ik_ID l) -> StronglySorted id_gt l.
Proof.
  induction 1 as [|k l Hl IH Hk]; [constructor|]. cbn. intros [Hn Hnd]%NoDup_cons. constructor; [auto|].
  rewrite List.Forall_forall in *. intros x Hx. apply id_ge_strict; [auto|]. intros E. apply Hn. rewrite E.
  by apply list_elem_of_In, in_map.
Qed.

Lemma sort_strict l : NoDup (map ik_ID l) -> StronglySorted id_gt (merge_sort id_ge l).
Proof.
  intros Hnd. apply sorted_strict; [apply StronglySorted_merge_sort; apply _|].
  by rewrite merge_sort_Permutation.
Qed.

Lemma NoDup_map_bfilter (p : IntegrationKey -> bool) l : NoDup (map ik_ID l) -> NoDup (map ik_ID (List.filter p l)).
Proof.
  induction l as [|k l IH]; [done|]. cbn. intros [Hn Hnd]%NoDup_cons. destruct (p k); [|auto]. cbn. constructor; [|auto].
  intros Hin. apply Hn. apply list_elem_of_In, in_map_iff in Hin as (x & Hx & [Hin _]%filter_In).
  apply list_elem_of_In, in_map_iff. eauto.
Qed.

Lemma filter_Permutation (p : IntegrationKey -> bool) l l' : l ≡ₚ l' -> List.filter p l ≡ₚ List.filter p l'.
Proof.
  induction 1 as [|x l l' Hl IH|x y l|l1 l2 l3 Hz IH1 H2 IH2]; cbn; [done| | |by etrans].
  - destruct (p x); [by f_equiv|done].
  - destruct (p x), (p y); try done. apply perm_swap.
Qed.

Lemma merge_sort_filter p l :
  NoDup (map ik_ID l) -> merge_sort id_ge (List.filter p l) = List.filter p (merge_sort id_ge l).
Proof.
  intros Hnd. apply (StronglySorted_unique id_gt).
  - by apply sort_strict, NoDup_map_bfilter.
  - by apply sorted_bfilter, sort_strict.
  - rewrite merge_sort_Permutation. apply filter_Permutation. by rewrite merge_sort_Permutation.
Qed.

(** The rows of a table whose primary key is the id. *)
Definition keyed (m : gmap string IntegrationKey) : Prop := forall id k, m !! id = Some k -> ik_ID k = id.

Lemma keyed_NoDup m : keyed m -> NoDup (map ik_ID (map_to_list m).*2).
Proof.
  intros Hk. assert (map ik_ID (map_to_list m).*2 = (map_to_list m).*1) as ->; [|apply NoDup_fst_map_to_list].
  assert (forall l, (forall kv, In kv l -> m !! kv.1 = Some kv.2) -> map ik_ID l.*2 = l.*1) as Hl.
  { induction l as [|[id k] l IH]; intros Hin; [done|]. cbn. f_equal; [apply Hk, (Hin (id, k)); by left|].
    apply IH. intros kv Hkv. apply Hin. by right. }
  apply Hl. intros [id k] Hin. by apply elem_of_map_to_list, list_elem_of_In.
Qed.

(** SQLite lists what [pages_complete] asks of a registry, while no other request
    writes. *)
Lemma sqlite_holds (t : Tables) :
  keyed (integration_keys t) -> holds (mkDB t []) (merge_sort id_ge (map_to_list (integration_keys t)).*2).
Proof.
  intros Hk. apply keyed_NoDup in Hk. split; [by apply sort_strict|]. intros f Hf.
  rewrite <- merge_sort_filter by done. change (List_ f) with (sqlite_ListIntegrationKeys f).
  unfold sqlite_ListIntegrationKeys. rewrite (proj2 (Z.leb_gt _ _) Hf). reflexivity.
Qed.

End ListSqlite.
