(* ===== verification/PgLocks.v ===== *)
(** * Rotation against revocation under PostgreSQL's row locks

    The argument of state/postgres/refresh.go at statement granularity, for one
    family: any number of [SaveRefresh] and revocation transactions interleave
    under READ COMMITTED, with [FOR SHARE] and update locks on the family's row,
    uncommitted inserts, and rollbacks at any point. A transaction that would
    wait for a lock simply has no step. This is what lets Postgres.v treat the
    two transactions as isolated. *)

From S2P Require Import Prelude.

(** Where a transaction stands. *)
Inductive phase :=
  | Idle
  (** [lockFamily] found no row. *)
  | SaveWantsRow
  (** its own uncommitted row is in place; it selects it next. *)
  | SaveInserted
  (** it holds the row [FOR SHARE] (or owns it) and read it unrevoked. *)
  | SaveLocked
  (** it inserted token [t]. *)
  | SavePending (t : nat)
  (** it updated the family's row. *)
  | RevokeUpdated
  (** its token UPDATE ran and stamped the tokens [s]. *)
  | RevokeStamped (s : gset nat).

(** Committed state, locks and transactions of one family. *)
Record Locks := mkLocks {
  (** the family's row, and whether it is revoked. *)
  fam : option bool;
  (** its committed tokens, and whether each is revoked. *)
  toks : gmap nat bool;
  (** who has an uncommitted insert of the row. *)
  inserter : option nat;
  sharers : gset nat;
  updater : option nat;
  procs : gmap nat phase
}.

Definition phase_of (s : Locks) (p : nat) : phase := default Idle (procs s !! p).

Definition go (p : nat) (ph : phase) (s : Locks) : Locks :=
  mkLocks (fam s) (toks s) (inserter s) (sharers s) (updater s) (<[p := ph]> (procs s)).

(** Ending a transaction drops its locks and its uncommitted row. *)
Definition release (p : nat) (s : Locks) : Locks :=
  mkLocks (fam s) (toks s)
    (if bool_decide (inserter s = Some p) then None else inserter s) (sharers s ∖ {[p]})
    (if bool_decide (updater s = Some p) then None else updater s) (<[p := Idle]> (procs s)).

Definition stamp_tokens (st : gset nat) (m : gmap nat bool) : gmap nat bool :=
  map_imap (fun t r => Some (if bool_decide (t ∈ st) then true else r)) m.

Inductive pg_step : Locks -> Locks -> Prop :=
  (** [SELECT ... FOR SHARE] finds no committed row. *)
  | select_missing p s : phase_of s p = Idle -> fam s = None -> pg_step s (go p SaveWantsRow s)
  (** [INSERT ... ON CONFLICT DO NOTHING], once no other insert is in flight. *)
  | insert_family p s : phase_of s p = SaveWantsRow -> inserter s = None -> fam s = None ->
      pg_step s (mkLocks (fam s) (toks s) (Some p) (sharers s) (updater s) (<[p := SaveInserted]> (procs s)))
  | insert_conflict p s : phase_of s p = SaveWantsRow -> inserter s = None -> fam s <> None ->
      pg_step s (go p Idle s)
  (** [SELECT ... FOR SHARE] of an unrevoked row no revocation holds. A revoked
      row ends the transaction, which changes nothing. *)
  | lock_share p s : phase_of s p = Idle -> fam s = Some false -> updater s = None ->
      pg_step s (mkLocks (fam s) (toks s) (inserter s) (sharers s ∪ {[p]}) (updater s) (<[p := SaveLocked]> (procs s)))
  | lock_own p s : phase_of s p = SaveInserted -> pg_step s (go p SaveLocked s)
  | insert_token p t s : phase_of s p = SaveLocked -> toks s !! t = None -> pg_step s (go p (SavePending t) s)
  | commit_save p t s : phase_of s p = SavePending t ->
      pg_step s (release p (mkLocks (if bool_decide (inserter s = Some p) then Some false else fam s)
                              (<[t := false]> (toks s)) (inserter s) (sharers s) (updater s) (procs s)))
  (** [UPDATE refresh_families ...] waits for every share lock. *)
  | revoke_update q s : phase_of s q = Idle -> fam s <> None -> updater s = None -> sharers s = ∅ ->
      pg_step s (mkLocks (fam s) (toks s) (inserter s) (sharers s) (Some q) (<[q := RevokeUpdated]> (procs s)))
  (** [revokeTokens] stamps the tokens committed when it runs. *)
  | revoke_tokens q s : phase_of s q = RevokeUpdated -> pg_step s (go q (RevokeStamped (dom (toks s))) s)
  | commit_revoke q st s : phase_of s q = RevokeStamped st ->
      pg_step s (release q (mkLocks (Some true) (stamp_tokens st (toks s)) (inserter s) (sharers s) (updater s) (procs s)))
  (** a rollback, or a transaction that ends without changing anything. *)
  | abort p s : pg_step s (release p s).

Definition fresh_family : Locks := mkLocks None ∅ None ∅ None ∅.

(** ** The invariant *)

Record lock_inv (s : Locks) : Prop := {
  inv_revoked : fam s = Some true -> forall t b, toks s !! t = Some b -> b = true;
  inv_absent : fam s = None -> toks s = ∅;
  inv_inserter p : inserter s = Some p -> fam s = None;
  inv_sharers p : p ∈ sharers s -> fam s = Some false;
  inv_updater q : updater s = Some q -> sharers s = ∅ /\ fam s <> None;
  inv_inserted p : phase_of s p = SaveInserted -> inserter s = Some p;
  inv_locked p : phase_of s p = SaveLocked -> p ∈ sharers s \/ inserter s = Some p;
  inv_pending p t : phase_of s p = SavePending t -> p ∈ sharers s \/ inserter s = Some p;
  inv_updated q : phase_of s q = RevokeUpdated -> updater s = Some q;
  inv_stamped q st : phase_of s q = RevokeStamped st -> updater s = Some q /\ dom (toks s) = st
}.

Lemma phase_insert (p : nat) ph (m : gmap nat phase) q :
  default Idle (<[p := ph]> m !! q) = if bool_decide (p = q) then ph else default Idle (m !! q).
Proof. case_bool_decide as E; [subst; by rewrite lookup_insert_eq|by rewrite lookup_insert_ne]. Qed.

(** What a transaction's phase says about its locks. *)
Lemma phase_locks s p :
  lock_inv s -> (p ∈ sharers s \/ inserter s = Some p) -> updater s = None /\ fam s <> Some true.
Proof.
  intros Hi [Hp|Hp].
  - pose proof (inv_sharers _ Hi _ Hp) as Hf. split; [|by rewrite Hf].
    destruct (updater s) as [q|] eqn:E; [|done]. destruct (inv_updater _ Hi _ E). set_solver.
  - pose proof (inv_inserter _ Hi _ Hp) as Hf. split; [|by rewrite Hf].
    destruct (updater s) as [q|] eqn:E; [|done]. by destruct (inv_updater _ Hi _ E).
Qed.

(** A step that only moves one transaction to a phase without obligations, or
    with the ones it already had. *)
Lemma inv_go p ph s :
  lock_inv s ->
  (ph = SaveInserted -> inserter s = Some p) ->
  (ph = SaveLocked -> p ∈ sharers s \/ inserter s = Some p) ->
  (forall t, ph = SavePending t -> p ∈ sharers s \/ inserter s = Some p) ->
  (ph = RevokeUpdated -> updater s = Some p) ->
  (forall st, ph = RevokeStamped st -> updater s = Some p /\ dom (toks s) = st) ->
  lock_inv (go p ph s).
Proof.
  intros [] H1 H2 H3 H4 H5. unfold phase_of in *.
  constructor; unfold phase_of; cbn; try done; intros; rewrite phase_insert in *; case_bool_decide; subst; eauto.
Qed.

Lemma inv_release p s : lock_inv s -> lock_inv (release p s).
Proof.
  intros []. unfold phase_of in *. constructor; unfold phase_of, release; cbn; try done.
  - intros q. case_bool_decide; [done|]. eauto.
  - intros q Hq. apply (inv_sharers0 q). set_solver.
  - intros q. case_bool_decide; [done|]. intros Hq. destruct (inv_updater0 _ Hq). split; [set_solver|done].
  - intros q. rewrite phase_insert. case_bool_decide; [done|]. intros Hq. pose proof (inv_inserted0 _ Hq) as Hi.
    rewrite Hi, bool_decide_false by congruence. done.
  - intros q. rewrite phase_insert. case_bool_decide; [done|]. intros Hq.
    destruct (inv_locked0 _ Hq) as [Hi|Hi]; [left; set_solver|right].
    rewrite Hi, bool_decide_false by congruence. done.
  - intros q t. rewrite phase_insert. case_bool_decide; [done|]. intros Hq.
    destruct (inv_pending0 _ _ Hq) as [Hi|Hi]; [left; set_solver|right].
    rewrite Hi, bool_decide_false by congruence. done.
  - intros q. rewrite phase_insert. case_bool_decide; [done|]. intros Hq. pose proof (inv_updated0 _ Hq) as Hi.
    rewrite Hi, bool_decide_false by congruence. done.
  - intros q st. rewrite phase_insert. case_bool_decide; [done|]. intros Hq. destruct (inv_stamped0 _ _ Hq) as [Hi Hd].
    rewrite Hi, bool_decide_false by congruence. done.
Qed.

(** Committing a rotation: its transaction held the row, so none revokes. *)
Lemma inv_commit_save p t s :
  lock_inv s -> phase_of s p = SavePending t ->
  lock_inv (mkLocks (if bool_decide (inserter s = Some p) then Some false else fam s)
              (<[t := false]> (toks s)) (inserter s) (sharers s) (updater s) (procs s)) \/
  inserter s = Some p.
Proof.
  intros Hi Hp. destruct (decide (inserter s = Some p)) as [|Hne]; [by right|left].
  rewrite bool_decide_false by done. pose proof (inv_pending _ Hi _ _ Hp) as Hl.
  destruct (phase_locks _ _ Hi Hl) as [Hu Hf]. destruct Hl as [Hsh|]; [|done].
  pose proof (inv_sharers _ Hi _ Hsh) as Hff. destruct Hi. unfold phase_of in *.
  constructor; unfold phase_of; cbn; try done; try congruence.
  intros q st Hq. destruct (inv_stamped0 _ _ Hq). congruence.
Qed.

Lemma inv_commit_first p t s :
  lock_inv s -> inserter s = Some p ->
  lock_inv (release p (mkLocks (Some false) (<[t := false]> (toks s)) (inserter s) (sharers s) (updater s) (procs s))).
Proof.
  intros Hi Hins. pose proof (inv_inserter _ Hi _ Hins) as Hf.
  assert (sharers s = ∅) as Hsh.
  { apply set_eq. intros x. split; [|set_solver]. intros Hx. pose proof (inv_sharers _ Hi _ Hx). congruence. }
  assert (updater s = None) as Hu.
  { destruct (updater s) as [q|] eqn:E; [|done]. by destruct (inv_updater _ Hi _ E). }
  destruct Hi. unfold phase_of in *. constructor; unfold phase_of, release; cbn; try done.
  - rewrite Hins, bool_decide_true by done. done.
  - intros q. rewrite Hu. by case_bool_decide.
  - intros q. rewrite phase_insert. case_bool_decide; [done|]. intros Hq. pose proof (inv_inserted0 _ Hq). congruence.
  - intros q. rewrite phase_insert. case_bool_decide; [done|]. intros Hq. destruct (inv_locked0 _ Hq); [set_solver|congruence].
  - intros q t'. rewrite phase_insert. case_bool_decide; [done|]. intros Hq. destruct (inv_pending0 _ _ Hq); [set_solver|congruence].
  - intros q. rewrite phase_insert. case_bool_decide; [done|]. intros Hq. pose proof (inv_updated0 _ Hq). congruence.
  - intros q st. rewrite phase_insert. case_bool_decide; [done|]. intros Hq. destruct (inv_stamped0 _ _ Hq). congruence.
Qed.

Lemma stamp_tokens_all st m t b :
  dom m = st -> stamp_tokens st m !! t = Some b -> b = true.
Proof.
  intros Hd. unfold stamp_tokens. rewrite map_lookup_imap. destruct (m !! t) eqn:E; [|done]. cbn.
  rewrite bool_decide_true; [congruence|]. rewrite <- Hd. apply elem_of_dom. eauto.
Qed.

(** Committing a revocation: no rotation committed a token since its stamp. *)
Lemma inv_commit_revoke q st s :
  lock_inv s -> phase_of s q = RevokeStamped st ->
  lock_inv (release q (mkLocks (Some true) (stamp_tokens st (toks s)) (inserter s) (sharers s) (updater s) (procs s))).
Proof.
  intros Hi Hq. destruct (inv_stamped _ Hi _ _ Hq) as [Hu Hd]. destruct (inv_updater _ Hi _ Hu) as [Hsh Hf].
  assert (inserter s = None) as Hins.
  { destruct (inserter s) as [p|] eqn:E; [|done]. by rewrite (inv_inserter _ Hi _ E) in Hf. }
  destruct Hi. unfold phase_of in *. constructor; unfold phase_of, release; cbn; try done.
  - intros _ t b. by apply stamp_tokens_all.
  - intros p. rewrite Hins. by case_bool_decide.
  - intros p. set_solver.
  - intros p. rewrite Hu, bool_decide_true by done. done.
  - intros p. rewrite phase_insert. case_bool_decide; [done|]. intros Hp. pose proof (inv_inserted0 _ Hp). congruence.
  - intros p. rewrite phase_insert. case_bool_decide; [done|]. intros Hp. destruct (inv_locked0 _ Hp); [set_solver|congruence].
  - intros p t. rewrite phase_insert. case_bool_decide; [done|]. intros Hp. destruct (inv_pending0 _ _ Hp); [set_solver|congruence].
  - intros p. rewrite phase_insert. case_bool_decide; [done|]. intros Hp. pose proof (inv_updated0 _ Hp). congruence.
  - intros p st'. rewrite phase_insert. case_bool_decide; [done|]. intros Hp. destruct (inv_stamped0 _ _ Hp). congruence.
Qed.

Lemma lock_inv_step s s' : pg_step s s' -> lock_inv s -> lock_inv s'.
Proof.
  intros Hst Hi. destruct Hst as [p s Hp Hf|p s Hp Hn Hf|p s Hp Hn Hf|p s Hp Hf Hu|p s Hp|p t s Hp Ht|p t s Hp|
    q s Hq Hf Hu Hsh|q s Hq|q st s Hq|p s].
  - by apply inv_go.
  - assert (lock_inv (mkLocks (fam s) (toks s) (Some p) (sharers s) (updater s) (procs s))) as Hi'.
    { destruct Hi. unfold phase_of in *. constructor; unfold phase_of; cbn; try done; try congruence.
      - intros r Hr. pose proof (inv_inserted0 _ Hr). congruence.
      - intros r Hr. destruct (inv_locked0 _ Hr); [by left|congruence].
      - intros r t Hr. destruct (inv_pending0 _ _ Hr); [by left|congruence]. }
    by apply (inv_go p SaveInserted _ Hi').
  - by apply inv_go.
  - assert (lock_inv (mkLocks (fam s) (toks s) (inserter s) (sharers s ∪ {[p]}) (updater s) (procs s))) as Hi'.
    { destruct Hi. unfold phase_of in *. constructor; unfold phase_of; cbn; try done; try congruence.
      - intros r Hr. destruct (inv_locked0 _ Hr); [left; set_solver|by right].
      - intros r t Hr. destruct (inv_pending0 _ _ Hr); [left; set_solver|by right]. }
    apply (inv_go p SaveLocked _ Hi'); try done. intros _. left. cbn. set_solver.
  - apply inv_go; try done. intros _. right. by apply (inv_inserted _ Hi).
  - apply inv_go; try done. intros t' _. by apply (inv_locked _ Hi).
  - destruct (inv_commit_save _ _ _ Hi Hp) as [Hi'|Hins]; [by apply inv_release|].
    rewrite bool_decide_true by done. by apply inv_commit_first.
  - assert (lock_inv (mkLocks (fam s) (toks s) (inserter s) (sharers s) (Some q) (procs s))) as Hi'.
    { destruct Hi. unfold phase_of in *. constructor; unfold phase_of; cbn; try done; try congruence.
      - intros r Hr. pose proof (inv_updated0 _ Hr). congruence.
      - intros r st Hr. destruct (inv_stamped0 _ _ Hr). congruence. }
    by apply (inv_go q RevokeUpdated _ Hi').
  - apply inv_go; try done. intros st [= <-]. split; [|done]. by apply (inv_updated _ Hi).
  - by apply inv_commit_revoke.
  - by apply inv_release.
Qed.

(** C6. A rotation racing a revocation never escapes it: however any number of
    SaveRefresh and revocation transactions on a family interleave, statement
    by statement, blocked by the row locks the code takes and rolled back at
    any point, whenever the family is revoked in the committed state every
    committed token of it is revoked too. *)
Theorem revoked_family_has_no_live_token s t b :
  rtc pg_step fresh_family s -> fam s = Some true -> toks s !! t = Some b -> b = true.
Proof.
  intros Hr. assert (lock_inv s) as Hi; [|by intros; eapply inv_revoked].
  assert (lock_inv fresh_family) as H0 by (constructor; unfold phase_of; cbn; intros; try done; set_solver).
  induction Hr as [|s1 s2 s3 H1 _ IH]; [done|]. apply IH. by eapply lock_inv_step.
Qed.

(** A rotation and a revocation of a fresh family, one after the other. *)
Lemma revoked_family_has_no_live_token_witness :
  exists s, rtc pg_step fresh_family s /\ fam s = Some true /\ toks s !! 7%nat = Some true /\ true = true.
Proof.
  set (s1 := go 1 SaveWantsRow fresh_family).
  set (s2 := mkLocks (fam s1) (toks s1) (Some 1%nat) (sharers s1) (updater s1) (<[1%nat := SaveInserted]> (procs s1))).
  set (s3 := go 1 SaveLocked s2). set (s4 := go 1 (SavePending 7) s3).
  set (s5 := release 1 (mkLocks (Some false) (<[7%nat := false]> (toks s4)) (inserter s4) (sharers s4) (updater s4) (procs s4))).
  set (s6 := mkLocks (fam s5) (toks s5) (inserter s5) (sharers s5) (Some 2%nat) (<[2%nat := RevokeUpdated]> (procs s5))).
  set (s7 := go 2 (RevokeStamped (dom (toks s6))) s6).
  set (s8 := release 2 (mkLocks (Some true) (stamp_tokens (dom (toks s6)) (toks s7)) (inserter s7) (sharers s7) (updater s7) (procs s7))).
  assert (rtc pg_step fresh_family s8) as Hr.
  { eapply rtc_l; [by apply (select_missing 1)|]. eapply rtc_l; [by apply (insert_family 1)|].
    eapply rtc_l; [by apply (lock_own 1)|]. eapply rtc_l; [by apply (insert_token 1 7)|].
    eapply rtc_l; [by apply (commit_save 1 7)|]. eapply rtc_l; [by apply (revoke_update 2)|].
    eapply rtc_l; [by apply (revoke_tokens 2)|]. eapply rtc_l; [|apply rtc_refl].
    by apply (commit_revoke 2). }
  exists s8. split_and!; [exact Hr|reflexivity|reflexivity|].
  exact (revoked_family_has_no_live_token s8 7 true Hr eq_refl eq_refl).
Defined.
