(* ===== verification/LoginFacts.v ===== *)
(** * What the browser leg guarantees

    The theorems about Login.v: an authorization response delivers its
    parameters to the client's own URI and nothing else; /authorize redirects
    only to a validated URI or to the connector, with PKCE enforced; a callback
    outside the browser that started the login is inert; a callback yields a
    code only when every gate passed; each sign-in is counted once; and a login
    state is good for one code. *)

From S2P Require Import Prelude GoStrings GoErrors GoEncoding GoCrypto GoURL GoHttp Perms Oidc Client.
From S2P Require Import Binding Token Login Sql Sqlite Postgres.

(** ** Authorization responses *)

Lemma length_Split s c : (length (Split s c) <= S (String.length s))%nat.
Proof.
  induction s as [|d s IH]; [done|]. cbn [Split String.length].
  destruct (Split s c) as [|x xs]; cbn in *; [lia|]. destruct (Ascii.eqb d c); cbn; lia.
Qed.

Lemma length_omap {A B} (f : A -> option B) (l : list A) : (length (omap f l) <= length l)%nat.
Proof. induction l as [|x l IH]; cbn; [done|]. destruct (f x); cbn; lia. Qed.

Lemma length_Query q : (length (Query q) <= S (String.length q))%nat.
Proof.
  unfold Query. destruct (_ <? _); [cbn; lia|]. etrans; [apply length_omap|]. apply length_Split.
Qed.

Lemma length_set_all params q :
  (length (foldl (fun q kv => Set_ q kv.1 kv.2) q params) <= length q + length params)%nat.
Proof.
  revert q. induction params as [|[k x] params IH]; intros q; cbn [foldl length]; [lia|].
  etrans; [apply IH|]. pose proof (length_Set q k x). cbn [fst snd]. lia.
Qed.

Lemma Get_set_absent params q k :
  k ∉ params.*1 -> Get (foldl (fun q kv => Set_ q kv.1 kv.2) q params) k = Get q k.
Proof.
  revert q. induction params as [|[k0 x] params IH]; intros q; cbn; [done|].
  intros [Hk Hp]%not_elem_of_cons. rewrite (IH _ Hp), Get_Set, (proj2 (String.eqb_neq _ _)); done.
Qed.

Lemma Get_set_all params q k x :
  NoDup params.*1 -> (k, x) ∈ params -> Get (foldl (fun q kv => Set_ q kv.1 kv.2) q params) k = x.
Proof.
  revert q. induction params as [|[k0 x0] params IH]; intros q; [by intros _ Hn%elem_of_nil|].
  cbn [fmap list_fmap fst foldl]. intros [Hk0 Hnd]%NoDup_cons [[= -> ->]|Hin]%elem_of_cons; [|by apply IH].
  rewrite Get_set_absent by done. by rewrite Get_Set, String.eqb_refl.
Qed.

Lemma set_all_nonempty params q :
  params <> [] -> foldl (fun q kv => Set_ q kv.1 kv.2) q params <> [].
Proof.
  destruct params as [|[k x] params] using rev_ind; [done|]. intros _. rewrite foldl_snoc. apply Set_nonempty.
Qed.

Lemma Encode_nonempty v : v <> [] -> Encode v <> "".
Proof.
  intros Hv E. unfold Encode in E. pose proof (sort_keys_length v) as Hl.
  destruct (sort_keys v) as [|[k x] l]; [by destruct v|]. cbn [List.map join_amp] in E.
  assert (escape_pair (k, x) <> "") as He by (unfold escape_pair; cbn [fst snd]; by destruct (QueryEscape k)).
  destruct (List.map escape_pair l); [done|]. by destruct (escape_pair (k, x)).
Qed.

(** An authorization response says to the client exactly what the server
    means, at the client's own URI: the Location is the redirect URI's scheme,
    authority and path followed by one query, in which every parameter of the
    response, the client's state and the issuer decode to their exact values,
    whatever bytes they contain, and every other parameter of the registered
    URI's query keeps its value. *)
Theorem authorizationResponse_delivers `{URLParser} (uri issuer state : string) (params : Values) (u : URL) :
  url_Parse uri = Some u -> len (u_RawQuery u) <= maxRedirectURILen ->
  params <> [] -> (length params <= 100)%nat -> NoDup params.*1 -> "state" ∉ params.*1 -> "iss" ∉ params.*1 ->
  exists qs vs,
    authorizationResponse uri issuer state params = inr (base_String u +:+ "?" +:+ qs +:+ fragment_String u) /\
    ParseQuery qs = Some vs /\
    (forall k x, (k, x) ∈ params -> Get vs k = x) /\
    (state <> "" -> Get vs "state" = state) /\ (issuer <> "" -> Get vs "iss" = issuer) /\
    (forall k, k ∉ params.*1 -> k <> "state" -> k <> "iss" -> Get vs k = Get (Query (u_RawQuery u)) k).
Proof.
  intros Hu Hlen Hne Hlp Hnd Hs Hi. unfold authorizationResponse. rewrite Hu.
  set (q0 := foldl _ _ params).
  set (q1 := if (state =? "")%string then q0 else Set_ q0 "state" state).
  set (q2 := if (issuer =? "")%string then q1 else Set_ q1 "iss" issuer).
  assert (Hne2 : q2 <> []).
  { unfold q2, q1. repeat destruct (_ =? _)%string; try apply Set_nonempty. by apply set_all_nonempty. }
  assert (Hl2 : Z.of_nat (length q2) <= maxQueryParams).
  { pose proof (length_set_all params (Query (u_RawQuery u))) as H0. fold q0 in H0.
    pose proof (length_Query (u_RawQuery u)) as Hq. unfold len, maxRedirectURILen, maxQueryParams in *.
    pose proof (length_Set q0 "state" state). pose proof (length_Set q1 "iss" issuer).
    unfold q2, q1 in *. repeat destruct (_ =? _)%string; lia. }
  assert (Hget : forall k, k <> "state" -> k <> "iss" -> Get q2 k = Get q0 k).
  { intros k Hk1 Hk2. unfold q2, q1. repeat destruct (_ =? _)%string; rewrite ?Get_Set;
      rewrite ?(proj2 (String.eqb_neq _ _)) by done; done. }
  eexists (Encode q2), (sort_keys q2). rewrite URL_String_query by (by apply Encode_nonempty). split; [done|].
  split; [by apply ParseQuery_Encode|]. setoid_rewrite Get_sort_keys.
  split; [|split; [|split]].
  - intros k x Hin. pose proof (list_elem_of_fmap_2 fst _ _ Hin) as Hk. cbn in Hk.
    rewrite Hget by (by intros ->). by apply Get_set_all.
  - intros Hst%String.eqb_neq. unfold q2, q1. rewrite Hst. by destruct (issuer =? "")%string; rewrite ?Get_Set.
  - intros Hst%String.eqb_neq. unfold q2. rewrite Hst, Get_Set. done.
  - intros k Hk H1 H2. rewrite Hget by done. by apply Get_set_absent.
Qed.

(** ** /authorize *)

(** What is recorded and where the browser goes when a request passes [check]. *)
Section Authorize.
Context `{URLParser} `{Env} {S : Type} `{AuthRequestStore S}.
Implicit Types (a : Authorizer) (i : authorizeInput) (w : World S).

Lemma check_pkce a i :
  check a i = None ->
  (validCodeChallenge (ai_CodeChallenge i) = true /\ ai_CodeChallengeMethod i = "S256") \/
  (ai_CodeChallenge i = "" /\ exists c, a_clients a !! ai_ClientID i = Some c /\ Secret c <> "").
Proof.
  unfold check, IsConfidential. destruct (negb _); [done|]. destruct (negb _); [done|].
  destruct (ai_CodeChallenge i =? "")%string eqn:Ec.
  - destruct (a_clients a !! ai_ClientID i) as [c|]; [|done].
    destruct (Secret c =? "")%string eqn:Es; [done|]. intros _. solve_bool. eauto 10.
  - destruct (validCodeChallenge _); [|done]. cbn. destruct (_ =? "S256")%string eqn:Em; [|done]. solve_bool. auto.
Qed.

(** The login that /authorize opened: its state is fresh randomness, the pending
    row is what the client asked for, the upstream was started with the values
    derived from that state, and the browser gets the state's binding cookie. *)
Definition login_opened a i w w' (out : authorizeOutput) : Prop :=
  exists b,
    let conn := Active (a_connectors a) in
    let st := RawURL_Encode b in
    entropy (w_draw w) stateEntropyBytes = Some b /\
    SaveAuthRequest (pending i (c_ID conn) st (clock (w_tick w))) (w_store w) = (w_store w', None) /\
    c_Begin conn (Datatypes.S (w_draw w)) (begin_params a (c_ID conn) st) = inr (ao_Location out) /\
    ao_SetCookie out = Cookie_String (Binding_Cookie (a_binding a) (c_ID conn) st).

(** C33. /authorize redirects only to the client's validated URI or to the
    connector: every redirect has a registered client and redirect URI and
    parameters within their caps; it is either an error response to that very
    URI, with nothing stored, or the start of a login for a request that asked
    for a code, has the openid scope and, unless the client is confidential and
    sent no challenge, carries a well-formed S256 PKCE challenge. A refusal
    before that point stores nothing. *)
Theorem authorize_sound a i w w' r :
  Authorize_handle a i w = (w', r) ->
  match r with
  | inr out =>
      ao_Status out = StatusFound /\ checkParamLengths (authorize_caps i) = None /\
      Validate (a_clients a) (ai_ClientID i) (ai_RedirectURI i) = None /\
      ((exists oauth_code desc,
          check a i = Some (oauth_code, desc) /\ w_store w' = w_store w /\ ao_SetCookie out = "" /\
          authorizationResponse (ai_RedirectURI i) (a_issuer a) (ai_State i)
            [("error", oauth_code); ("error_description", desc)] = inr (ao_Location out)) \/
       (ai_ResponseType i = "code" /\ "openid" ∈ Fields (ai_Scope i) /\
        ((validCodeChallenge (ai_CodeChallenge i) = true /\ ai_CodeChallengeMethod i = "S256") \/
         (ai_CodeChallenge i = "" /\ exists c, a_clients a !! ai_ClientID i = Some c /\ Secret c <> "")) /\
        login_opened a i w w' out))
  | inl e =>
      w_store w' = w_store w \/
      (check a i = None /\ Validate (a_clients a) (ai_ClientID i) (ai_RedirectURI i) = None)
  end.
Proof.
  intros Ha. unfold Authorize_handle in Ha. destruct (checkParamLengths _) as [e|] eqn:Hcap.
  { injection Ha as <- <-. by left. }
  unfold declare in Ha. apply bind_cases in Ha as [(e & He & _)|(w1 & [] & K1 & Ha)]; [by run_in He|]. run_in K1.
  apply bind_cases in Ha as [(e & He & _)|(w2 & [] & K2 & Ha)]; [by run_in He|]. run_in K2.
  destruct (Validate (a_clients a) (ai_ClientID i) (ai_RedirectURI i)) as [e|] eqn:Hval; [injection Ha as <- <-; by left|].
  destruct (check a i) as [[oc desc]|] eqn:Hchk.
  - destruct (authorizationResponse _ _ _ _) as [e|loc] eqn:Hloc; run_in Ha; [by left|]. eauto 15.
  - assert (Hrt : ai_ResponseType i = "code" /\ "openid" ∈ Fields (ai_Scope i)).
    { unfold check in Hchk. destruct (_ =? "code")%string eqn:E1; [|done]. cbn [negb] in Hchk.
      destruct (scopeContains _ _) eqn:E2; [|done]. solve_bool. split; [done|].
      apply existsb_exists in E2 as (s & Hs & ->%String.eqb_eq). by apply list_elem_of_In. }
    pose proof (check_pkce _ _ Hchk) as Hpk.
    destruct r as [e|out]; [by right|].
    apply bind_inr in Ha as (w3 & st & Hst & Ha). unfold randomState in Hst. run_in Hst.
    destruct (entropy (w_draw w) stateEntropyBytes) as [b|] eqn:Hb; run_in Hst.
    apply bind_inr in Ha as (w4 & [] & K4 & Ha). run_in K4.
    apply bind_inr in Ha as (w5 & now_ & K5 & Ha). run_in K5.
    apply bind_inr in Ha as (w6 & err & K6 & Ha). unfold on_store in K6. cbn in K6.
    destruct (SaveAuthRequest _ (w_store w)) as [s6 e6] eqn:Hsave. injection K6 as <- ->.
    destruct err as [e|]; [done|].
    apply bind_inr in Ha as (w7 & start & K7 & Ha). unfold upstream in K7. cbn in K7. injection K7 as <- <-.
    apply bind_inr in Ha as (w8 & url & K8 & Ha). unfold or_fail in K8.
    destruct (c_Begin _ _ _) as [e|url'] eqn:Hbeg; [done|]. run_in K8. run_in Ha.
    split; [done|]. split; [done|]. split; [done|]. right. destruct Hrt. repeat (split; [done|]).
    exists b. cbn. eauto.
Qed.

End Authorize.

(** ** /callback *)

Section Callback.
Context `{Unicode} `{URLParser} `{Env} {S : Type} `{CallbackStore S}.
Implicit Types (c : Callback) (conn : Connector) (i : callbackInput) (w : World S).

(** What the connector answered for this login, the server's own values in hand. *)
Definition upstream_said c conn i w (res : error + Completion) : Prop :=
  with_subject (c_Complete conn (w_draw w)
    (complete_params c (c_ID conn) (ci_params i) (Get (ci_params i) (StateParam (c_Flow conn))))).1 = res.

(** Every gate of the server and of the connector admits the identity. *)
Definition admitted c (co : Completion) : Prop :=
  ui_Subject (co_Identity co) <> "" /\ ui_EmailVerified (co_Identity co) = true /\
  emailDomainAllowed (cb_allowedDomains c) (ui_Email (co_Identity co)) = true /\ co_Refusal co = "".

Definition callback_state conn i : string := Get (ci_params i) (StateParam (c_Flow conn)).

(** The request of this browser, consumed for this connector, in time. *)
Definition login_resumed c conn i w (ar : AuthRequest) (s1 : S) : Prop :=
  let st := callback_state conn i in
  st <> "" /\ boundToBrowser (cb_binding c) (ci_Cookie i) (c_ID conn) st = true /\
  ConsumeAuthRequest st (w_store w) = (s1, (ar, None)) /\
  clock (w_tick w) <= ar_ExpiresAt ar /\ ar_ConnectorID ar = c_ID conn.

(** The response is an authorization response to the client of the request. *)
Definition answers c (ar : AuthRequest) (params : Values) (out : callbackOutput) : Prop :=
  co_Status out = StatusFound /\
  authorizationResponse (ar_RedirectURI ar) (cb_issuer c) (ar_ClientState ar) params = inr (co_Location out).

Definition denied_upstream c conn i ar w (s1 s' : S) (out : callbackOutput) : Prop :=
  exists e d_code d_desc, upstream_said c conn i w (inl e) /\
    errors_As_denied e = Some (d_code, d_desc) /\ s' = s1 /\
    answers c ar [("error", d_code); ("error_description", d_desc)] out.

Definition refused_identity c conn i w (s1 s' : S) (out : callbackOutput) (reason : string) : Prop :=
  exists co, upstream_said c conn i w (inr co) /\ ~ admitted c co /\
    reason = refusal c (co_Identity co) (co_Refusal co) /\ s' = s1 /\ co_Status out = StatusForbidden /\ co_Location out = "".

Definition denied_permissions c conn i ar w (s1 s' : S) (out : callbackOutput) : Prop :=
  exists co g, upstream_said c conn i w (inr co) /\ admitted c co /\
    cb_authorizer c (ui_Email (co_Identity co)) = inr g /\ Empty g = true /\ s' = s1 /\
    answers c ar [("error", "access_denied"); ("error_description", msgNoAccess)] out.

Definition code_minted c conn i ar w (s1 s' : S) (out : callbackOutput) : Prop :=
  exists co g b, upstream_said c conn i w (inr co) /\ admitted c co /\
    cb_authorizer c (ui_Email (co_Identity co)) = inr g /\ Empty g = false /\
    entropy (Datatypes.S (w_draw w)) codeEntropyBytes = Some b /\
    SaveAuthCode (minted c (co_Identity co) (c_ID conn) ar (RawURL_Encode b) (clock (Datatypes.S (w_tick w)))) s1 = (s', None) /\
    answers c ar [("code", RawURL_Encode b)] out.

Lemma redirect_inr c ar ck params out :
  redirect c ar ck params = inr out -> answers c ar params out /\ co_SetCookie out = ck.
Proof.
  unfold redirect. destruct (authorizationResponse _ _ _ _) as [e|loc] eqn:E; [done|]. intros [= <-]. done.
Qed.

Lemma refusal_admitted c co e :
  with_subject e = inr co -> refusal c (co_Identity co) (co_Refusal co) = "" <-> admitted c co.
Proof.
  intros Hs. unfold refusal, admitted.
  assert (ui_Subject (co_Identity co) <> "").
  { unfold with_subject in Hs. destruct e as [e|co']; [done|].
    destruct (_ =? "")%string eqn:E; [done|]. injection Hs as ->. by apply String.eqb_neq. }
  destruct (ui_EmailVerified _); cbn; [|naive_solver]. destruct (emailDomainAllowed _ _); cbn; naive_solver.
Qed.

(** The four ways a callback gets an answer, with the reason it is counted under. *)
Definition login_answered c conn i ar w (s1 s' : S) (out : callbackOutput) (reason : string) : Prop :=
  (denied_upstream c conn i ar w s1 s' out /\ reason = reasonUpstreamDenied) \/
  (refused_identity c conn i w s1 s' out reason) \/
  (denied_permissions c conn i ar w s1 s' out /\ reason = reasonAuthzDenied) \/
  (code_minted c conn i ar w s1 s' out /\ reason = reasonNone).

Lemma admission_outcome c conn i ar ck co e w0 w w' reason out :
  (with_subject e = inr co) -> upstream_said c conn i w0 (inr co) ->
  w_draw w = Datatypes.S (w_draw w0) -> w_tick w = Datatypes.S (w_tick w0) ->
  admission c conn ar ck co w = (w', inr (reason, inr out)) ->
  co_SetCookie out = ck /\ login_answered c conn i ar w0 (w_store w) (w_store w') out reason.
Proof.
  intros Hws Hup Hdraw Htick Ha. pose proof (refusal_admitted c _ _ Hws) as Hra. unfold admission in Ha.
  apply bind_inr in Ha as (w1 & [] & K1 & Ha). unfold declareIdentity, declare in K1. run_in K1.
  destruct (refusal _ _ _ =? "")%string eqn:Href; cbn [negb] in Ha.
  2: { unfold outcome_of in Ha. run_in Ha. apply String.eqb_neq in Href. split; [done|]. right. left.
       exists co. rewrite <- Hra. done. }
  apply String.eqb_eq in Href. pose proof (proj1 Hra Href) as Had. clear Hra.
  unfold permitted in Ha. destruct (cb_authorizer c _) as [e1|g] eqn:Hg; [done|].
  destruct (Empty g) eqn:Hem; cbn [negb] in Ha.
  { run_in Ha. unfold outcome_of in Ha. run_in Ha.
    destruct (redirect_inr _ _ _ _ _ ltac:(eassumption)) as [Hans Hck]. split; [done|].
    right. right. left. split; [|done]. exists co, g. done. }
  apply bind_inr in Ha as (w2 & code & K2 & Ha). unfold randomCode in K2. run_in K2.
  destruct (entropy (w_draw w) codeEntropyBytes) as [b|] eqn:Hb; [|done]. cbn [fmap option_fmap option_map] in Ha.
  apply bind_inr in Ha as (w3 & [] & K3 & Ha). unfold declare in K3. run_in K3.
  apply bind_inr in Ha as (w4 & now_ & K4 & Ha). run_in K4.
  apply bind_inr in Ha as (w5 & err & K5 & Ha). unfold on_store in K5. cbn in K5.
  destruct (SaveAuthCode _ (w_store w)) as [s5 e5] eqn:Hsave. injection K5 as <- ->.
  destruct err as [e2|]; [done|].
  destruct (redirect c ar ck _) as [e3|o] eqn:Hred; unfold outcome_of in Ha; run_in Ha.
  apply redirect_inr in Hred as [Hans Hck]. split; [done|]. right. right. right. split; [|done].
  rewrite Hdraw in Hb. rewrite Htick in Hsave. exists co, g, b. done.
Qed.

Lemma completeUpstream_run c conn params st w w' r :
  completeUpstream c conn params st w = (w', r) ->
  w_store w' = w_store w /\ w_tick w' = w_tick w /\ w_draw w' = Datatypes.S (w_draw w) /\
  r = inr (with_subject (c_Complete conn (w_draw w) (complete_params c (c_ID conn) params st)).1).
Proof.
  unfold completeUpstream, declare, upstream. intros Hc.
  apply bind_cases in Hc as [(e & He & _)|(w1 & [] & K1 & Hc)]; [by run_in He|]. run_in K1.
  apply bind_cases in Hc as [(e & He & _)|(w2 & ans & K2 & Hc)]; [by run_in He|]. cbn in K2. injection K2 as <- <-.
  destruct (c_Complete conn _ _) as [res ob]. cbn [fst]. destruct (with_subject res) as [e|co]; [|by run_in Hc].
  unfold logUpstreamFailure in Hc. destruct (_ && _); [|by run_in Hc].
  destruct (errors_As_upstream e) as [[[? ?] ?]|]; by run_in Hc.
Qed.

Lemma complete_outcome c conn i w w' reason out :
  complete c conn i w = (w', inr (reason, inr out)) ->
  exists ar s1, login_resumed c conn i w ar s1 /\
    co_SetCookie out = Cookie_String (clearCookie (cb_binding c) (c_ID conn) (callback_state conn i)) /\
    login_answered c conn i ar w s1 (w_store w') out reason.
Proof.
  intros Hc. unfold complete, outcome_of in Hc. fold (callback_state conn i) in Hc.
  apply bind_inr in Hc as (w1 & [] & K1 & Hc). unfold declare in K1. run_in K1.
  destruct (callback_state conn i =? "")%string eqn:Hst; [done|].
  destruct (boundToBrowser _ _ _ _) eqn:Hb; cbn [negb] in Hc; [|by run_in Hc].
  apply bind_inr in Hc as (w2 & [ar err] & K2 & Hc). unfold on_store in K2. cbn in K2.
  destruct (ConsumeAuthRequest _ (w_store w)) as [s1 p] eqn:Hcons. injection K2 as <- ->.
  destruct (is_err err _); [by run_in Hc|]. destruct err as [e|]; [by run_in Hc|].
  apply bind_inr in Hc as (w3 & now_ & K3 & Hc). run_in K3.
  destruct (time_After _ _) eqn:Hexp; [by run_in Hc|]. destruct (_ =? c_ID conn)%string eqn:Hid; [|by run_in Hc].
  cbn [negb] in Hc. unfold time_After in Hexp. solve_bool.
  exists ar, s1. split; [done|].
  apply bind_inr in Hc as (w4 & comp & K4 & Hc). apply completeUpstream_run in K4 as (Hw4 & Ht4 & Hd4 & [= Hcomp]).
  cbn in Hw4, Ht4, Hd4. symmetry in Hcomp. rewrite <- Hw4.
  assert (Hup : upstream_said c conn i w comp) by exact Hcomp.
  destruct comp as [e|co].
  - destruct (errors_As_denied e) as [[dc dd]|] eqn:Hd.
    + run_in Hc. destruct (redirect_inr _ _ _ _ _ ltac:(eassumption)) as [Hans Hck]. split; [done|].
      left. split; [|done]. exists e, dc, dd. done.
    + destruct (errors_Is e _); by run_in Hc.
  - exact (admission_outcome _ _ i _ _ _ _ _ _ _ _ _ Hcomp Hup Hd4 Ht4 Hc).
Qed.

(** C7. What a callback response proves. Every response that is not an error
    came from a configured connector's callback carrying, in the browser that
    called /authorize, an unused state of that connector within its lifetime;
    it clears the binding cookie, and is one of: the upstream's own refusal or
    a lack of permissions, reported to the client that made the request, with
    nothing minted; a 403 page, when the verified identity fails a gate; or a
    code, stored for exactly the client, redirect URI, scope, PKCE challenge
    and nonce of the request and the identity the upstream proved, only when
    the email is verified and in an allowed domain, the connector admits it and
    the rules grant it something. *)
Theorem callback_sound c i w w' out :
  Callback_handle c i w = (w', inr out) ->
  exists conn ar s1 reason,
    Connectors_Lookup (cb_connectors c) (ci_Connector i) = Some conn /\
    login_resumed c conn i w ar s1 /\
    co_SetCookie out = Cookie_String (clearCookie (cb_binding c) (c_ID conn) (callback_state conn i)) /\
    login_answered c conn i ar w s1 (w_store w') out reason.
Proof.
  unfold Callback_handle. destruct (Connectors_Lookup _ _) as [conn|]; [|done]. intros Hh.
  apply bind_inr in Hh as (w1 & [reason res] & K1 & Hh). destruct res as [e|o]; [by run_in Hh|]. run_in Hh.
  apply complete_outcome in K1 as (ar & s1 & K). by exists conn, ar, s1, reason.
Qed.

(** A callback from another browser is inert: without the binding cookie of
    the state for this connector, whatever else the request carries, the
    pending login is not consumed, the upstream is not called, no code is
    minted, and the answer is a 400. *)
Theorem unbound_callback_inert c conn i w w' r :
  Connectors_Lookup (cb_connectors c) (ci_Connector i) = Some conn ->
  boundToBrowser (cb_binding c) (ci_Cookie i) (c_ID conn) (callback_state conn i) = false ->
  Callback_handle c i w = (w', r) ->
  w_store w' = w_store w /\ w_draw w' = w_draw w /\ exists e, r = inl e /\ http_status e = StatusBadRequest.
Proof.
  intros Hl Hb. unfold Callback_handle. rewrite Hl. intros Hh.
  unfold complete, outcome_of, declare in Hh. fold (callback_state conn i) in Hh. rewrite Hb in Hh. cbn [negb] in Hh.
  destruct (callback_state conn i =? "")%string; run_in Hh; run_in Hh; (split; [done|]); (split; [done|]); by eexists.
Qed.

(** The counter of sign-ins. *)
Definition login_event (ev : event) : bool :=
  match ev with Counted m _ => (m =? "tempogate.logins")%string | _ => false end.

Lemma silent_upstream {A} (f : nat -> A) : respects (silent login_event) (upstream (S := S) f).
Proof. apply silent_same. by intros w w' r [= <- <-]. Qed.
Hint Resolve silent_upstream : tg.

Lemma silent_completeUpstream c conn params st : respects (silent login_event) (completeUpstream (S := S) c conn params st).
Proof. unfold completeUpstream, declare, logUpstreamFailure. respects. Qed.
Hint Resolve silent_completeUpstream : tg.

Lemma silent_admission c conn ar ck co : respects (silent login_event) (admission (S := S) c conn ar ck co).
Proof. unfold admission, outcome_of, declareIdentity, declare, randomCode. respects. Qed.
Hint Resolve silent_admission : tg.

Lemma silent_complete c conn i : respects (silent login_event) (complete (S := S) c conn i).
Proof. unfold complete, outcome_of, declare. respects. Qed.

(** The reasons under which a callback that ends in an error is counted. *)
Definition failure_reasons : list string :=
  [reasonMissingState; reasonStateNotBound; reasonUnknownState; reasonExpiredRequest; reasonConnectorMismatch;
   reasonUpstreamDenied; reasonMissingCode; reasonUpstreamError; reasonAuthzDenied; reasonInternal].

Definition fails_with_reason (x : string * (error + callbackOutput)) : Prop :=
  match x.2 with inl _ => x.1 ∈ failure_reasons | inr _ => True end.

Lemma always_outcome reason r :
  (forall e, r = inl e -> reason ∈ failure_reasons) -> always (S := S) fails_with_reason (outcome_of reason r).
Proof. intros Hr. apply always_ret. destruct r; cbn; eauto. Qed.

Lemma always_upstream {A} (f : nat -> A) : always (fun _ => True) (upstream (S := S) f).
Proof. intros w w' r [= <- <-]. eauto. Qed.
Hint Resolve always_upstream : tg.

Lemma always_complete c conn i : always (S := S) fails_with_reason (complete c conn i).
Proof.
  unfold complete, admission, completeUpstream, declareIdentity, declare, randomCode, logUpstreamFailure.
  always; apply always_outcome; intros; try done; vm_dec.
Qed.

(** Every sign-in attempt at a configured connector is counted exactly once,
    last, under its true outcome: as a success with reason none when the
    response carries a code, as a failure under one of the fixed reasons when it
    is an error, and under the reason of its refusal otherwise. *)
Theorem login_counted_once c conn i w w' r :
  Connectors_Lookup (cb_connectors c) (ci_Connector i) = Some conn ->
  Callback_handle c i w = (w', r) ->
  exists evs reason,
    Forall (fun ev => login_event ev = false) evs /\
    w_trace w' = w_trace w ++ evs ++
      [Counted "tempogate.logins" [if (reason =? reasonNone)%string then "success" else "failure"; reason]] /\
    match r with
    | inl _ => reason ∈ failure_reasons
    | inr out => exists ar s1, login_answered c conn i ar w s1 (w_store w') out reason
    end.
Proof.
  intros Hl. unfold Callback_handle. rewrite Hl. intros Hh.
  destruct (complete c conn i w) as [w1 r1] eqn:Hc. destruct (always_complete _ _ _ _ _ _ Hc) as ([reason res] & -> & Hf).
  destruct (silent_complete _ _ _ _ _ _ Hc) as (evs & Hev & Hs). run_in Hh. rewrite Hc in Hh.
  exists evs, reason. split; [done|]. rewrite app_assoc, <- Hev. destruct res as [e|o]; run_in Hh.
  - done.
  - split; [done|]. apply complete_outcome in Hc as (ar & s1 & _ & _ & K). eauto.
Qed.

End Callback.

(** ** One login state, one answer *)

(** What the callback needs of a store: consuming a state takes it, and nothing
    the callback does brings a state back; [unrenewed st s] says that the other
    requests do not store a new login under [st] (a state is 256 random bits). *)
Class LoginStore (S : Type) `{CallbackStore S} := {
  pending_in : string -> S -> Prop;
  unrenewed : string -> S -> Prop;
  consume_frame st st' s s' r : unrenewed st s -> ConsumeAuthRequest st' s = (s', r) ->
    unrenewed st s' /\ (pending_in st s' -> pending_in st s);
  consume_takes st s s' ar : unrenewed st s -> ConsumeAuthRequest st s = (s', (ar, None)) ->
    pending_in st s /\ ~ pending_in st s';
  code_frame st ac s s' e : unrenewed st s -> SaveAuthCode ac s = (s', e) ->
    unrenewed st s' /\ (pending_in st s' -> pending_in st s)
}.

(** Both backends. [base] finds the shared tables. *)
Section Backend.
Context {T : Type} (base : T -> Tables).

Definition has_request (st : string) (t : T) : Prop := is_Some (auth_requests (base t) !! st).
Definition no_new_request (st : string) (t t' : T) : Prop := has_request st t' -> has_request st t.

#[export] Instance no_new_request_preorder st : PreOrder (no_new_request st).
Proof. split; [by intros t H|intros t1 t2 t3 H1 H2 H; by apply H1, H2]. Qed.

Lemma delete_only st st' t t' : base t' = (sql_delete_request st' (base t)).1 -> no_new_request st t t'.
Proof.
  unfold no_new_request, has_request, sql_delete_request. intros ->.
  destruct (_ !! st') eqn:E; [|done]. cbn. intros [x [_ Hx]%lookup_delete_Some]. eauto.
Qed.

Lemma code_only st ac t t' : base t' = (sql_insert_code ac (base t)).1 -> no_new_request st t t'.
Proof. unfold no_new_request, has_request, sql_insert_code. intros ->. by destruct (auth_codes _ !! _). Qed.

Definition consume_method (msg : string) (f : T -> T * option AuthRequest) : storeOp (Database T) (AuthRequest * option error) :=
  method zeroAuthRequest (
    row ← stmt msg f;
    mret (match row with
          | Some ar => (ar, None)
          | None => (zeroAuthRequest, Some (Sentinel ErrAuthRequestNotFound))
          end)).

Lemma consume_method_takes msg (f : T -> T * option AuthRequest) st db db' ar :
  (forall t, base (f t).1 = (sql_delete_request st (base t)).1 /\ (f t).2 = (sql_delete_request st (base t)).2) ->
  rely (no_new_request st) db -> consume_method msg f db = (db', (ar, None)) ->
  has_request st (tables db) /\ ~ has_request st (tables db').
Proof.
  intros Hf Hr. unfold consume_method, method, mbind, Q_bind.
  destruct (stmt msg f db) as [db1 r] eqn:E. apply (stmt_run (no_new_request st)) in E as (_ & t & Ht & Hc); [|done].
  destruct Hc as [(a & -> & Hft)|[-> _]]; [|done]. destruct (Hf t) as [H1 H2]. rewrite Hft in H1, H2. cbn in H1, H2.
  unfold sql_delete_request in H1, H2. destruct (auth_requests (base t) !! st) as [ar'|] eqn:Hl; subst a; [|done].
  intros [= <- _]. split; [apply Ht; by eexists|]. unfold has_request. rewrite H1. cbn. rewrite lookup_delete_eq. by intros [].
Qed.

End Backend.

#[export] Instance sqlite_LoginStore : LoginStore DB.
Proof.
  refine {| pending_in st (s : DB) := has_request (fun t : Tables => t) st (tables s);
            unrenewed st (s : DB) := rely (no_new_request (fun t : Tables => t) st) s |}.
  - intros st st' s s' r Hr E. revert E.
    eapply (guarantees_method (no_new_request (fun t : Tables => t) st)); [guarantees|done]. by eapply delete_only.
  - intros st s s' ar Hr E. by eapply (consume_method_takes (fun t : Tables => t)) in E.
  - intros st ac s s' e Hr E. revert E.
    eapply (guarantees_method_ (no_new_request (fun t : Tables => t) st)); [guarantees|done]. by eapply code_only.
Defined.

#[export] Instance pg_LoginStore : LoginStore PgDB.
Proof.
  refine {| pending_in st (s : PgDB) := has_request pg_base st (tables s);
            unrenewed st (s : PgDB) := rely (no_new_request pg_base st) s |}.
  - intros st st' s s' r Hr E. revert E.
    eapply (guarantees_method (no_new_request pg_base st)); [guarantees|done].
    eapply (delete_only _ _ st'). unfold on_base. by destruct (sql_delete_request _ _).
  - intros st s s' ar Hr E. eapply (consume_method_takes pg_base) in E; [done| |done].
    intros t. unfold on_base. by destruct (sql_delete_request _ _).
  - intros st ac s s' e Hr E. revert E.
    eapply (guarantees_method_ (no_new_request pg_base st)); [guarantees|done].
    eapply (code_only _ _ ac). unfold on_base. by destruct (sql_insert_code _ _).
Defined.

Section SingleUse.
Context `{Unicode} `{URLParser} `{Env} {S : Type} `{LoginStore S}.
Context (st : string).
Implicit Types (w : World S).

Abbreviation calm w := (unrenewed st (w_store w)).
Abbreviation waiting w := (pending_in st (w_store w)).

Definition forgets (w w' : World S) : Prop := calm w -> calm w' /\ (waiting w' -> waiting w).

#[local] Instance forgets_preorder : PreOrder forgets.
Proof.
  split; [by intros w K|]. intros w1 w2 w3 K1 K2 Kc. destruct (K1 Kc) as [Kc2 F1]. destruct (K2 Kc2) as [Kc3 F2]. auto.
Qed.

Lemma forgets_same {A} (m : M S A) :
  (forall w w' r, m w = (w', r) -> w_store w' = w_store w) -> respects forgets m.
Proof. intros Hm w w' r Hr Hc. by rewrite (Hm _ _ _ Hr). Qed.

Lemma forgets_emit ev : respects forgets (@emit S ev).
Proof. apply forgets_same. by intros w w' r [= <- <-]. Qed.
Lemma forgets_now : respects forgets (@now _ S).
Proof. apply forgets_same. by intros w w' r [= <- <-]. Qed.
Lemma forgets_rand n : respects forgets (@rand_Read _ S n).
Proof. apply forgets_same. by intros w w' r [= <- <-]. Qed.
Lemma forgets_upstream {A} (f : nat -> A) : respects forgets (@upstream S A f).
Proof. apply forgets_same. by intros w w' r [= <- <-]. Qed.

Lemma forgets_op {A} (op : S -> S * A) :
  (forall s s' r, unrenewed st s -> op s = (s', r) -> unrenewed st s' /\ (pending_in st s' -> pending_in st s)) ->
  respects forgets (on_store op).
Proof.
  intros Hop w w' r. unfold on_store. destruct (op (w_store w)) as [s' x] eqn:E. intros [= <- <-] Hc. by eapply Hop.
Qed.

Lemma forgets_consume st' : respects forgets (on_store (ConsumeAuthRequest st')).
Proof. apply forgets_op. intros. by eapply consume_frame. Qed.
Lemma forgets_code ac : respects forgets (on_store (SaveAuthCode ac)).
Proof. apply forgets_op. intros. by eapply code_frame. Qed.

Hint Resolve forgets_emit forgets_now forgets_rand forgets_upstream forgets_consume forgets_code : tg.

Lemma forgets_handle c i : respects forgets (Callback_handle (S := S) c i).
Proof.
  unfold Callback_handle, complete, admission, completeUpstream, logUpstreamFailure, outcome_of, declareIdentity, declare,
    randomCode, lift. respects.
Qed.

(** A callback request and the configuration it is served under. *)
Record cb_call := mkCbCall { cb_cfg : Callback; cb_in : callbackInput }.

Fixpoint serve_callbacks (calls : list cb_call) w : World S * list (error + callbackOutput) :=
  match calls with
  | [] => (w, [])
  | c :: cs =>
      let (w1, r) := Callback_handle (cb_cfg c) (cb_in c) w in
      let (w2, rs) := serve_callbacks cs w1 in
      (w2, r :: rs)
  end.

(** The request presents this login state to a configured connector. *)
Definition presents_state (c : cb_call) : Prop :=
  exists conn, Connectors_Lookup (cb_connectors (cb_cfg c)) (ci_Connector (cb_in c)) = Some conn /\
               callback_state conn (cb_in c) = st.

Definition answered (r : error + callbackOutput) : Prop := exists out, r = inr out.

Lemma answered_takes c w w' out :
  calm w -> presents_state c -> Callback_handle (cb_cfg c) (cb_in c) w = (w', inr out) -> waiting w /\ ~ waiting w'.
Proof.
  intros Hc (conn & Hl & Hst) Hh. apply callback_sound in Hh as (conn' & ar & s1 & reason & Hl' & Hres & _ & Hans).
  assert (conn' = conn) as -> by congruence. destruct Hres as (_ & _ & Hcons & _). rewrite Hst in Hcons.
  destruct (consume_takes _ _ _ _ Hc Hcons) as [Hw Hn]. split; [done|].
  destruct (consume_frame _ _ _ _ _ Hc Hcons) as [Hc1 _].
  destruct Hans as [[(e & ? & ? & _ & _ & -> & _) _]|[(co & _ & _ & _ & -> & _)|[[(co & g & _ & _ & _ & _ & -> & _) _]|[Hm _]]]];
    [done..|].
  destruct Hm as (co & g & b & _ & _ & _ & _ & _ & Hsave & _).
  destruct (code_frame _ _ _ _ _ Hc1 Hsave) as [_ Hf]. auto.
Qed.

Lemma taken_never_answered calls w w' rs j c r :
  calm w -> ~ waiting w -> serve_callbacks calls w = (w', rs) ->
  calls !! j = Some c -> rs !! j = Some r -> presents_state c -> ~ answered r.
Proof.
  revert w rs j. induction calls as [|c0 cs IH]; intros w rs j Hc Hn; cbn; [done|].
  destruct (Callback_handle _ _ w) as [w1 r1] eqn:Hh. destruct (serve_callbacks cs w1) as [w2 rs2] eqn:Hs.
  intros [= <- <-]. destruct (forgets_handle _ _ _ _ _ Hh Hc) as [Hc1 Hf1]. destruct j as [|j]; cbn.
  - intros [= ->] [= ->] Hp [out ->]. by destruct (answered_takes _ _ _ _ Hc Hp Hh).
  - intros Hcj Hrj. eapply (IH w1 rs2 j); eauto.
Qed.

(** C8. A login state is good for one answer: in any sequence of callbacks, under
    any configurations, on either backend and with other requests interleaved
    at statement granularity, two callbacks that present the same state never
    both get an answer, so one /authorize yields at most one code; other
    requests do not store that state, 32 random bytes, a second time. *)
Theorem login_state_single_use calls w w' rs i j ci cj ri rj :
  calm w -> serve_callbacks calls w = (w', rs) -> (i < j)%nat ->
  calls !! i = Some ci -> calls !! j = Some cj -> rs !! i = Some ri -> rs !! j = Some rj ->
  presents_state ci -> presents_state cj -> answered ri -> ~ answered rj.
Proof.
  revert w rs i j. induction calls as [|c0 cs IH]; intros w rs i j Hc; cbn; [done|].
  destruct (Callback_handle _ _ w) as [w1 r1] eqn:Hh. destruct (serve_callbacks cs w1) as [w2 rs2] eqn:Hs.
  intros [= <- <-]. destruct (forgets_handle _ _ _ _ _ Hh Hc) as [Hc1 Hf1].
  destruct j as [|j]; [lia|]. destruct i as [|i]; cbn.
  - intros _ [= ->] Hcj [= ->] Hrj Hpi Hpj [out ->].
    destruct (answered_takes _ _ _ _ Hc Hpi Hh) as [_ Hn]. eapply (taken_never_answered cs w1); eauto.
  - intros Hlt Hci Hcj Hri Hrj. eapply (IH w1 rs2 i j); eauto. lia.
Qed.

End SingleUse.
