(* ===== verification/GoogleFacts.v ===== *)
(** * The Google connector: theorems

    What a completed Google sign-in proves, alone and behind the callback
    endpoint; how failures are classified; and how discovery is paced while the
    upstream is down. *)

From S2P Require Import Prelude GoStrings GoErrors GoEncoding GoCrypto GoURL GoHttp Oidc Binding Token Login LoginFacts Google.

Section Facts.
Context `{GoogleAPI}.
Implicit Types (c : GoogleClient) (s : GState) (d : Discovery).

(** ** The discovery state *)

Definition is_upstream (e : error) : bool := match errors_As_upstream e with Some _ => true | None => false end.

(** A cached verifier is the configured issuer's, for this client; a cached
    failure is an upstream error whose backoff is in range. *)
Record discovery_ok c d : Prop := {
  ok_verifier : forall v, d_verifier d = Some v -> v.2 = gc_clientID c /\ exists n, NewProvider n (gc_issuerURL c) = inr v.1;
  ok_lastErr : forall e, d_lastErr d = Some e -> is_upstream e = true;
  ok_backoff : 0 <= d_backoff d <= discoveryMaxBackoff
}.

Lemma noDiscovery_ok c : discovery_ok c noDiscovery.
Proof. by split. Qed.

(** The backoff after one of [b]. *)
Definition next_backoff (b : duration) : duration := Z.min (Z.max (2 * b) discoveryInitialBackoff) discoveryMaxBackoff.

Lemma discover_run c now_ s s' r :
  discovery_ok c (g_discovery s) -> discover c now_ s = (s', r) ->
  discovery_ok c (g_discovery s') /\
  match r with
  | inr v => d_verifier (g_discovery s') = Some v
  | inl e => is_upstream e = true /\ d_verifier (g_discovery s') = None /\ d_lastErr (g_discovery s') = Some e /\
             d_backoff (g_discovery s') = next_backoff (d_backoff (g_discovery s)) /\
             d_retryAt (g_discovery s') = now_ + next_backoff (d_backoff (g_discovery s))
  end.
Proof.
  intros [Hv He Hb]. unfold discover. destruct (NewProvider _ _) as [f|p] eqn:Hp; intros [= <- <-]; cbn.
  - split; [|done]. split; [done|by intros e [= <-]|]. unfold discoveryInitialBackoff, discoveryMaxBackoff, Second in *. cbn in *. lia.
  - split; [|done]. split; [|done|done]. intros v [= <-]. cbn. eauto.
Qed.

(** When a sign-in tries discovery: the time it does. *)
Definition attempt_time s : option time :=
  let d := g_discovery s in
  match d_verifier d, d_lastErr d with
  | Some _, _ => None
  | None, None => Some (google_clock (g_call s))
  | None, Some _ => if time_Before (google_clock (g_call s)) (d_retryAt d) then None else Some (google_clock (g_call s))
  end.

Lemma idVerifier_run c s s' r :
  discovery_ok c (g_discovery s) -> idVerifier c s = (s', r) ->
  discovery_ok c (g_discovery s') /\
  (forall v, r = inr v -> d_verifier (g_discovery s') = Some v) /\ (forall e, r = inl e -> is_upstream e = true) /\
  match attempt_time s with
  | None => g_discovery s' = g_discovery s
  | Some t => (exists v, d_verifier (g_discovery s') = Some v) \/
              (d_verifier (g_discovery s') = None /\ is_Some (d_lastErr (g_discovery s')) /\
               d_backoff (g_discovery s') = next_backoff (d_backoff (g_discovery s)) /\
               d_retryAt (g_discovery s') = t + next_backoff (d_backoff (g_discovery s)))
  end.
Proof.
  intros Hok. unfold idVerifier, attempt_time. destruct (d_verifier (g_discovery s)) as [v|] eqn:Hv.
  { intros [= <- <-]. split_and!; [done| |done|done]. by intros v' [= <-]. }
  assert (discover c (google_clock (g_call s)) (tick s) = (s', r) -> discovery_ok c (g_discovery s') /\
    (forall v, r = inr v -> d_verifier (g_discovery s') = Some v) /\ (forall e, r = inl e -> is_upstream e = true) /\
    ((exists v, d_verifier (g_discovery s') = Some v) \/
     (d_verifier (g_discovery s') = None /\ is_Some (d_lastErr (g_discovery s')) /\
      d_backoff (g_discovery s') = next_backoff (d_backoff (g_discovery s)) /\
      d_retryAt (g_discovery s') = google_clock (g_call s) + next_backoff (d_backoff (g_discovery s))))) as Hd.
  { intros [Hok' Hr]%discover_run; [|done]. split; [done|]. destruct r as [e|v].
    - destruct Hr as (Hu & Hn & Hl & Hb & Ht). split_and!; [done|by intros ? [= <-]|]. right. eauto.
    - split_and!; [by intros ? [= <-]|done|eauto]. }
  destruct (d_lastErr (g_discovery s)) as [e|] eqn:He; [|exact Hd].
  destruct (time_Before _ _); [|exact Hd]. intros [= <- <-]. split_and!; [done|done| |done].
  intros e' [= <-]. by eapply ok_lastErr.
Qed.

(** ** Classified failures *)

Lemma exchange_run c code uri v s s' r :
  exchange c code uri v s = (s', r) ->
  g_discovery s' = g_discovery s /\
  match r with
  | inl e => is_upstream e = true
  | inr tok => oauth_Exchange (g_call s) (gc_oauth c) code uri v = inr tok
  end.
Proof. unfold exchange. destruct (oauth_Exchange _ _ _ _ _) as [f|tok]; by intros [= <- <-]. Qed.

Lemma verify_run v raw s s' r :
  verify v raw s = (s', r) ->
  g_discovery s' = g_discovery s /\
  match r with inl e => is_upstream e = true | inr tok => verifier_Verify (g_call s) v.1 v.2 raw = inr tok end.
Proof. unfold verify. destruct (verifier_Verify _ _ _ _) as [f|tok]; by intros [= <- <-]. Qed.

Lemma identity_of_run nonce tok :
  match identity_of nonce tok with
  | inl e => is_upstream e = true
  | inr id => it_Nonce tok = nonce /\ nonce <> "" /\ it_Subject tok <> "" /\
      exists cl, it_Claims tok = inr cl /\ cl_Email cl <> "" /\
        id = mkGoogleIdentity (it_Subject tok) (cl_Email cl) (cl_EmailVerified cl) (cl_HostedDomain cl)
  end.
Proof.
  unfold identity_of, ConstantTimeCompare. destruct (String.eqb_spec nonce "") as [|Hn]; [done|]. cbn [orb].
  destruct (String.eqb_spec (it_Nonce tok) nonce) as [->|]; [|done]. cbn [negb].
  destruct (it_Claims tok) as [e|cl]; [done|]. destruct (String.eqb_spec (it_Subject tok) ""); [done|].
  destruct (String.eqb_spec (cl_Email cl) ""); [done|]. split_and!; [done..|]. by exists cl.
Qed.

(** A sign-in, step by step: the discovery state stays sound, a failure is an
    upstream error, and a success is an id_token that was verified. *)
Lemma ExchangeAndVerify_run c code uri v nonce s s' r :
  discovery_ok c (g_discovery s) -> ExchangeAndVerify c code uri v nonce s = (s', r) ->
  discovery_ok c (g_discovery s') /\
  match r with
  | inl e => is_upstream e = true
  | inr id => exists n raw p n' n'' tok,
      oauth_Exchange n (gc_oauth c) code uri v = inr (Some raw) /\
      NewProvider n' (gc_issuerURL c) = inr p /\ verifier_Verify n'' p (gc_clientID c) raw = inr tok /\
      identity_of nonce tok = inr id
  end /\
  g_discovery s' = g_discovery (idVerifier c s).1.
Proof.
  intros Hok. unfold ExchangeAndVerify. destruct (idVerifier c s) as [s1 r1] eqn:E1.
  destruct (idVerifier_run _ _ _ _ Hok E1) as (Hok1 & Hv & He & _). cbn [fst].
  destruct r1 as [e|ver]; [intros [= <- <-]; eauto|]. specialize (Hv _ eq_refl).
  destruct (exchange c code uri v s1) as [s2 r2] eqn:E2. destruct (exchange_run _ _ _ _ _ _ _ E2) as (Hd2 & H2).
  destruct r2 as [e|tok]; [intros [= <- <-]; rewrite Hd2; eauto|].
  destruct (String.eqb_spec (default "" tok) "") as [|Hraw]; [intros [= <- <-]; rewrite Hd2; eauto|].
  destruct (verify ver (default "" tok) s2) as [s3 r3] eqn:E3. destruct (verify_run _ _ _ _ _ E3) as (Hd3 & H3).
  destruct r3 as [e|idt]; [intros [= <- <-]; rewrite Hd3, Hd2; eauto|].
  intros [= <- <-]. rewrite Hd3, Hd2. split; [done|]. split; [|done].
  pose proof (identity_of_run nonce idt) as Hid. destruct (identity_of nonce idt) as [e|id] eqn:Eid; [done|].
  destruct (ok_verifier _ _ Hok1 _ Hv) as [Ha [n Hp]]. rewrite Ha in H3. destruct tok as [raw|]; [|done].
  by exists (g_call s1), raw, ver.1, n, (g_call s2), idt.
Qed.

(** Every failed Google sign-in is a classified upstream error: for every
    state the client can be in, whatever the network, the token endpoint or the
    verifier answer, a failure of [ExchangeAndVerify] carries one of the five
    reasons, so that the callback logs a cause and never the upstream's text. *)
Theorem google_failures_classified c code uri v nonce s s' e :
  discovery_ok c (g_discovery s) -> ExchangeAndVerify c code uri v nonce s = (s', inl e) ->
  exists reason oauthCode timeout, errors_As_upstream e = Some (reason, oauthCode, timeout).
Proof.
  intros Hok Hr. destruct (ExchangeAndVerify_run _ _ _ _ _ _ _ _ Hok Hr) as (_ & Hu & _). unfold is_upstream in Hu.
  destruct (errors_As_upstream e) as [[[? ?] ?]|]; [eauto|done].
Qed.

(** ** The pace of discovery *)

Definition signin : Type := string * string * string * string.

(** The times at which a run of sign-ins tries discovery. *)
Fixpoint attempts c (reqs : list signin) s : list time :=
  match reqs with
  | [] => []
  | (code, uri, v, nonce) :: reqs =>
      option_list (attempt_time s) ++ attempts c reqs (ExchangeAndVerify c code uri v nonce s).1
  end.

(** Each attempt comes at least the current backoff after the one before. *)
Fixpoint paced (b : duration) (ts : list time) : Prop :=
  match ts with
  | t :: ((t' :: _) as ts') => t + b <= t' /\ paced (next_backoff b) ts'
  | _ => True
  end.

Lemma attempts_done c reqs s v : d_verifier (g_discovery s) = Some v -> discovery_ok c (g_discovery s) -> attempts c reqs s = [].
Proof.
  revert s. induction reqs as [|[[[code uri] cv] nonce] reqs IH]; intros s Hv Hok; [done|]. cbn.
  unfold attempt_time. rewrite Hv. cbn. destruct (ExchangeAndVerify c code uri cv nonce s) as [s' r] eqn:E.
  destruct (ExchangeAndVerify_run _ _ _ _ _ _ _ _ Hok E) as (Hok' & _ & Hd). cbn. apply IH; [|done].
  rewrite Hd. unfold idVerifier. rewrite Hv. done.
Qed.

Lemma attempts_paced c reqs s :
  discovery_ok c (g_discovery s) -> d_verifier (g_discovery s) = None ->
  paced (next_backoff (d_backoff (g_discovery s))) (attempts c reqs s) /\
  (forall t ts, attempts c reqs s = t :: ts -> is_Some (d_lastErr (g_discovery s)) -> d_retryAt (g_discovery s) <= t).
Proof.
  revert s. induction reqs as [|[[[code uri] cv] nonce] reqs IH]; intros s Hok Hv; [done|]. cbn [attempts].
  destruct (ExchangeAndVerify c code uri cv nonce s) as [s' r] eqn:E.
  destruct (ExchangeAndVerify_run _ _ _ _ _ _ _ _ Hok E) as (Hok' & _ & Hd). cbn [fst].
  destruct (idVerifier c s) as [s1 r1] eqn:E1. destruct (idVerifier_run _ _ _ _ Hok E1) as (_ & _ & _ & Ha).
  cbn [fst] in Hd. rewrite <- Hd in Ha. clear Hd E1.
  destruct (attempt_time s) as [t|] eqn:Eat; cbn [option_list app].
  - split.
    + destruct Ha as [[v Hv']|(Hv' & Hl & Hb & Hr)]; [by rewrite (attempts_done _ _ _ _ Hv' Hok')|].
      destruct (IH s' Hok' Hv') as [Hp Hh]. destruct (attempts c reqs s') as [|t' ts] eqn:Ets; [done|].
      cbn [paced]. rewrite <- Hb. split; [|done]. rewrite Hb, <- Hr. by eapply Hh.
    + intros t0 ts [= <- _] [e He]. unfold attempt_time in Eat. rewrite Hv, He in Eat. unfold time_Before in Eat.
      destruct (_ <? _) eqn:Elt; [done|]. injection Eat as <-. by apply Z.ltb_ge.
  - rewrite <- Ha in *. by apply IH.
Qed.

Definition span (ts : list time) : Z :=
  match head ts, last ts with Some a, Some b => b - a | _, _ => 0 end.

Lemma span_cons t t' ts : span (t :: t' :: ts) = (t' - t) + span (t' :: ts).
Proof. unfold span. cbn [head]. rewrite last_cons_cons. destruct (last (t' :: ts)) eqn:E; [lia|]. by apply last_None in E. Qed.

Lemma span_single t : span [t] = 0.
Proof. unfold span. cbn. lia. Qed.

(** From the bound on what is left after a gap of [b] to the bound before it. *)
Lemma paced_step b D D' :
  b <= discoveryMaxBackoff -> 0 <= D -> D' = D + (discoveryMaxBackoff - b) ->
  (forall ts, paced (next_backoff b) ts -> discoveryMaxBackoff * (Z.of_nat (length ts) - 1) - D <= span ts) ->
  forall ts, paced b ts -> discoveryMaxBackoff * (Z.of_nat (length ts) - 1) - D' <= span ts.
Proof.
  intros Hb HD -> Hn [|t [|t' ts]] Hp.
  - change (span []) with 0. change (Z.of_nat (length []) - 1) with (-1). assert (0 <= discoveryMaxBackoff) by done. lia.
  - rewrite span_single. cbn [length]. lia.
  - destruct Hp as [Hg Hp]. specialize (Hn _ Hp). rewrite span_cons. cbn [length] in *. nia.
Qed.

Lemma paced_max ts : paced discoveryMaxBackoff ts -> discoveryMaxBackoff * (Z.of_nat (length ts) - 1) <= span ts.
Proof.
  induction ts as [|t [|t' ts] IH]; intros Hp.
  - done.
  - rewrite span_single. cbn [length]. lia.
  - destruct Hp as [Hg Hp]. specialize (IH Hp). rewrite span_cons. cbn [length] in *. nia.
Qed.

Lemma paced_span ts : paced discoveryInitialBackoff ts -> discoveryMaxBackoff * (Z.of_nat (length ts) - 6) <= span ts.
Proof.
  intros Hp. enough (discoveryMaxBackoff * (Z.of_nat (length ts) - 1) - 119 * Second <= span ts).
  { change discoveryMaxBackoff with (30 * Second) in *. assert (0 < Second) by done. lia. }
  revert ts Hp. apply (paced_step _ (90 * Second)); [done..|].
  apply (paced_step (2 * Second) (62 * Second)); [done..|]. apply (paced_step (4 * Second) (36 * Second)); [done..|].
  apply (paced_step (8 * Second) (14 * Second)); [done..|]. apply (paced_step (16 * Second) 0); [done..|].
  intros ts Hp. rewrite Z.sub_0_r. by apply paced_max.
Qed.

(** A down upstream is not hammered: over any run of sign-ins of a new client,
    whatever each call answers, discovery attempts are spaced by a backoff that
    starts at one second and doubles up to thirty, so that at most six of them,
    and one more per thirty seconds, fall into any window; and none follows a
    successful one. *)
Theorem discovery_paced c reqs n evs :
  let ts := attempts c reqs (mkGState noDiscovery n evs) in
  paced discoveryInitialBackoff ts /\ discoveryMaxBackoff * (Z.of_nat (length ts) - 6) <= span ts.
Proof.
  cbv zeta. destruct (attempts_paced c reqs (mkGState noDiscovery n evs)) as [Hp _]; [apply noDiscovery_ok|done|].
  split; [exact Hp|]. by apply paced_span.
Qed.

End Facts.

(** ** Behind the callback endpoint *)

Section Login.
Context `{GoogleLaws} `{Unicode} `{URLParser} `{Env} {S : Type} `{CallbackStore S}.
Implicit Types (gn : GoogleConnector).

(** What a completed sign-in rests on: the token endpoint gave an id_token for
    the browser's code and this login's PKCE verifier; the configured issuer
    signed it for this client and with this login's nonce. *)
Definition attested gn (p : CompleteParams) (co : Completion) : Prop :=
  exists n raw tok cl,
    oauth_Exchange n (gc_oauth (gn_client gn)) (Get (cp_Params p) "code") (cp_RedirectURI p) (cp_CodeVerifier p) = inr (Some raw) /\
    issued (gc_issuerURL (gn_client gn)) (gc_clientID (gn_client gn)) raw tok /\
    it_Nonce tok = cp_Nonce p /\ cp_Nonce p <> "" /\ it_Claims tok = inr cl /\
    co_Identity co = mkUpstreamIdentity (it_Subject tok) (cl_Email cl) (cl_EmailVerified cl) [] /\
    (co_Refusal co = "" <-> gn_hostedDomains gn = ∅ \/ ToLower (cl_HostedDomain cl) ∈ gn_hostedDomains gn).

Lemma refusal_hosted gn hd :
  (if hostedDomainAllowed gn hd then "" else RefusalHostedDomainNotAllowed) = "" <->
  gn_hostedDomains gn = ∅ \/ ToLower hd ∈ gn_hostedDomains gn.
Proof. unfold hostedDomainAllowed. repeat case_bool_decide; naive_solver. Qed.

Lemma Complete_attested gn p s s' co :
  discovery_ok (gn_client gn) (g_discovery s) -> Complete gn p s = (s', inr co) ->
  attested gn p co /\ Get (cp_Params p) "error" = "" /\
  (Get (cp_Params p) "iss" = "" \/ Get (cp_Params p) "iss" = gn_issuer gn).
Proof.
  intros Hok. unfold Complete, ConstantTimeCompare. destruct (String.eqb_spec (Get (cp_Params p) "error") "") as [He|]; [|done].
  destruct (Get (cp_Params p) "code" =? "")%string; [done|]. cbn [negb].
  destruct (String.eqb_spec (Get (cp_Params p) "iss") "") as [Hi|Hi]; cbn [negb andb].
  2: destruct (String.eqb_spec (Get (cp_Params p) "iss") (gn_issuer gn)) as [Hi'|]; cbn [negb]; [|done].
  all: destruct (ExchangeAndVerify _ _ _ _ _ s) as [s1 [e|id]] eqn:E; [done|]; intros [= <- <-];
    destruct (ExchangeAndVerify_run _ _ _ _ _ _ _ _ Hok E) as (_ & (n & raw & pr & n' & n'' & tok & Hx & Hp & Hv & Hid) & _);
    pose proof (identity_of_run (cp_Nonce p) tok) as Hr; rewrite Hid in Hr;
    destruct Hr as (Hn & Hne & Hs & cl & Hcl & Hem & ->); cbn [gi_Subject gi_Email gi_EmailVerified gi_HostedDomain];
    (split; [|auto]); exists n, raw, tok, cl; split_and!; try done; try (by eapply verifier_sound); apply refusal_hosted.
Qed.

(** C34. A Google login end to end. When the callback of the Google connector
    answers, the pending request was consumed by the browser that started it,
    and either nothing was stored, or a code was, for that request and an
    identity that the configured issuer attested: in an id_token it signed for
    this client, which the token endpoint handed out for the browser's code and
    the PKCE verifier of this very state, with the nonce of this very state,
    with a verified email of an allowed domain, and, in Workspace mode, of an
    allowed hosted domain. *)
Theorem google_login_sound gn st late (c : Callback) i (w w' : World S) out :
  let conn := google_connector gn st late in
  (forall n, discovery_ok (gn_client gn) (g_discovery (st n))) ->
  Connectors_Lookup (cb_connectors c) (ci_Connector i) = Some conn ->
  Callback_handle c i w = (w', inr out) ->
  exists ar s1, login_resumed c conn i w ar s1 /\
    (w_store w' = s1 \/
     exists co code now_, attested gn (complete_params c GoogleID (ci_params i) (Get (ci_params i) "state")) co /\
       admitted c co /\ SaveAuthCode (minted c (co_Identity co) GoogleID ar code now_) s1 = (w_store w', None)).
Proof.
  cbv zeta. set (conn := google_connector gn st late). intros Hok Hl Hh. unfold Callback_handle in Hh. rewrite Hl in Hh.
  apply bind_inr in Hh as (w1 & [reason res] & K1 & Hh). destruct res as [e|o]; [by run_in Hh|]. run_in Hh.
  apply complete_outcome in K1 as (ar & s1 & Hres & _ & Hans). exists ar, s1. split; [done|].
  destruct Hans as [[(? & ? & ? & _ & _ & -> & _) _]|[(? & _ & _ & _ & -> & _)|[[(? & ? & _ & _ & _ & _ & -> & _) _]|[Hm _]]]]; [by left..|].
  destruct Hm as (co & g & b & Hsaid & Had & _ & _ & _ & Hsave & _). right. do 3 eexists. split_and!; [|exact Had|exact Hsave].
  unfold upstream_said in Hsaid. cbn [c_Complete c_ID c_Flow StateParam conn google_connector] in Hsaid.
  unfold with_subject in Hsaid. destruct (Complete gn _ (st (w_draw w))) as [s2 r] eqn:Ec. cbn [fst snd] in Hsaid.
  destruct r as [e|co']; [done|]. destruct (_ =? "")%string; [done|]. injection Hsaid as ->.
  by apply Complete_attested in Ec as [? _].
Qed.

(** ** Where the browser is sent *)

(** What the browser carries to Google is what the server chose: the redirect
    is the configured endpoint with one query, in which every parameter of the
    request, the state, nonce and PKCE challenge of this login among them,
    decodes to its exact value, and other parameters of the configured
    endpoint keep theirs. *)
Theorem google_begin_delivers gn p :
  len (u_RawQuery (gn_authEndpoint gn)) <= maxRedirectURILen ->
  exists qs vs,
    Begin gn p = inr (base_String (gn_authEndpoint gn) +:+ "?" +:+ qs +:+ fragment_String (gn_authEndpoint gn)) /\
    ParseQuery qs = Some vs /\ (forall k x, (k, x) ∈ begin_query gn p -> Get vs k = x) /\
    (forall k, k ∉ (begin_query gn p).*1 -> Get vs k = Get (Query (u_RawQuery (gn_authEndpoint gn))) k).
Proof.
  intros Hlen. unfold Begin. set (q := foldl _ _ (begin_query gn p)).
  assert (NoDup (begin_query gn p).*1) as Hnd.
  { unfold begin_query. destruct (_ =? "")%string; cbn; by apply (bool_decide_unpack _). }
  assert (begin_query gn p <> [] /\ (length (begin_query gn p) <= 9)%nat) as [Hne Hl9].
  { unfold begin_query. destruct (_ =? "")%string; cbn; split; [done|lia|done|lia]. }
  assert (q <> []) as Hq by (by apply set_all_nonempty).
  exists (Encode q), (sort_keys q). rewrite URL_String_query by (by apply Encode_nonempty). split; [done|].
  setoid_rewrite Get_sort_keys. split_and!.
  - apply ParseQuery_Encode; [done|]. pose proof (length_set_all (begin_query gn p) (Query (u_RawQuery (gn_authEndpoint gn)))) as Hla.
    fold q in Hla. pose proof (length_Query (u_RawQuery (gn_authEndpoint gn))). unfold len, maxRedirectURILen, maxQueryParams in *. lia.
  - intros k x Hin. by apply Get_set_all.
  - intros k Hk. by apply Get_set_absent.
Qed.

End Login.
