(* ===== verification/CliLoginFacts.v ===== *)
(** * Signing in from the command line: theorems

    Only the browser that carries this login's state decides a loopback login;
    what the client sends the server decodes to a matching PKCE pair; every
    request of the client stays with its issuer; polling for a device code ends
    and keeps its distance. *)

From S2P Require Import Prelude GoStrings GoErrors GoEncoding GoCrypto GoURL GoHttp GoNetip Oidc Client Cli CliFacts CliRefresh CliRefreshFacts.
From S2P Require Import Token Login LoginFacts CliLogin.

(** ** The loopback server *)

(** A request of the browser this login sent out. *)
Definition ours (wantState : string) (r : lbRequest) : bool :=
  (lr_path r =? callbackPath)%string && (Get (Query (lr_query r)) "state" =? wantState)%string.

(** What that request says. *)
Definition verdict (r : lbRequest) : error + string :=
  let q := Query (lr_query r) in
  if negb (Get q "error" =? "")%string
  then inl (Opaque ("cli: authorization failed: " +:+ Get q "error" +:+ ": " +:+ Get q "error_description"))
  else if (Get q "code" =? "")%string then inl (Opaque "cli: callback returned no authorization code")
  else inr (Get q "code").

Lemma handler_stranger st r l :
  ours st r = false -> (callbackHandler st r l).1 = l /\ (pg_status (callbackHandler st r l).2 = 404 \/ pg_status (callbackHandler st r l).2 = 400).
Proof.
  unfold ours, callbackHandler, ConstantTimeCompare. destruct (_ =? callbackPath)%string; cbn [andb negb]; [|auto].
  destruct (_ =? st)%string; [done|]. cbn. auto.
Qed.

Lemma handler_ours st r :
  ours st r = true -> forall es, awaitCode st es (callbackHandler st r (mkLoopback false None)).1 = verdict r.
Proof.
  unfold ours, callbackHandler, verdict, ConstantTimeCompare. destruct (_ =? callbackPath)%string; [|done]. cbn [andb negb].
  intros -> es. cbn. destruct (Get (Query (lr_query r)) "error" =? "")%string; cbn; [|by destruct es].
  destruct (Get (Query (lr_query r)) "code" =? "")%string; by destruct es.
Qed.

Definition stranger (st : string) (e : arrival) : Prop := exists r, e = Arrives r /\ ours st r = false.

(** Nobody else on the machine decides a login. Any local process or page
    may find the port: its requests are answered and change nothing, in any
    number and order. The outcome of the wait is the verdict of the first request
    that carries this login's state, and a code is only ever that request's. *)
Theorem loopback_decided_by_state st es code :
  (forall pre r post, es = pre ++ Arrives r :: post -> Forall (stranger st) pre -> ours st r = true ->
     awaitCode st es (mkLoopback false None) = verdict r) /\
  (awaitCode st es (mkLoopback false None) = inr code ->
     exists pre r post, es = pre ++ Arrives r :: post /\ Forall (stranger st) pre /\ ours st r = true /\ verdict r = inr code).
Proof.
  split.
  - intros pre r post -> Hpre Hr. induction Hpre as [|e pre (r0 & -> & Hs) _ IH]; cbn [app awaitCode lb_result]; [by apply handler_ours|].
    by rewrite (proj1 (handler_stranger st r0 _ Hs)).
  - induction es as [|[r| |e|e] es IH]; cbn [awaitCode lb_result]; try done; [|by destruct es].
    destruct (ours st r) eqn:Hr.
    + rewrite handler_ours by done. intros Hv. by exists [], r, es.
    + rewrite (proj1 (handler_stranger st r _ Hr)). intros (pre & r' & post & -> & Hp & Ho & Hv)%IH.
      exists (Arrives r :: pre), r', post. split_and!; try done. constructor; [|done]. by exists r.
Qed.

(** ** What the server reads *)

Lemma Get_sent params k x :
  NoDup params.*1 -> (k, x) ∈ params -> Get (foldl (fun q kv => Set_ q kv.1 kv.2) [] params) k = x.
Proof. apply Get_set_all. Qed.

Lemma parse_sent params :
  params <> [] -> (length params <= 100)%nat ->
  ParseQuery (Encode (foldl (fun q kv => Set_ q kv.1 kv.2) [] params)) = Some (sort_keys (foldl (fun q kv => Set_ q kv.1 kv.2) [] params)).
Proof.
  intros Hne Hl. apply ParseQuery_Encode; [by apply set_all_nonempty|]. pose proof (length_set_all params []). cbn in *.
  unfold maxQueryParams. lia.
Qed.

(** The client's two requests fit the server's checks: whatever the state,
    the redirect URI, the code and the PKCE verifier are, the server decodes
    from the authorization URL's query and the exchange's body exactly the
    values the client put there, the challenge is well formed, and the verifier
    it then receives proves it and, drawn as the client draws it, is well formed. *)
Theorem cli_pkce_accepted f redirectURI verifier state code :
  exists q form,
    ParseQuery (Encode (authorize_query f redirectURI verifier state)) = Some q /\
    ParseQuery (Encode (exchange_form f code verifier redirectURI)) = Some form /\
    Get q "state" = state /\ Get q "redirect_uri" = redirectURI /\ Get q "client_id" = fl_clientID f /\
    Get q "code_challenge_method" = "S256" /\ validCodeChallenge (Get q "code_challenge") = true /\
    Get form "code" = code /\ Get form "redirect_uri" = Get q "redirect_uri" /\ Get form "client_id" = Get q "client_id" /\
    verifyPKCE (Get form "code_verifier") (Get q "code_challenge") = true /\
    (forall b, verifier = RawURL_Encode b -> String.length b = pkceVerifierBytes -> validCodeVerifier (Get form "code_verifier") = true).
Proof.
  unfold authorize_query, exchange_form. rewrite !parse_sent by (done || (cbn; lia)). do 2 eexists. do 2 (split; [done|]).
  rewrite !Get_sort_keys. cbn [foldl fst snd]. rewrite !Get_Set. cbn. unfold codeChallengeOf.
  split_and!; try done.
  - unfold validCodeChallenge, len. rewrite RawURL_Encode_length, sha256_length. cbn. apply RawURL_Encode_chars.
  - unfold verifyPKCE, ConstantTimeCompare. apply String.eqb_refl.
  - intros b -> Hb. unfold validCodeVerifier, len. rewrite RawURL_Encode_length, Hb. cbn.
    eapply all_bytes_impl; [|apply RawURL_Encode_chars]. by intros x ->.
Qed.

(** ** Requests stay with the issuer *)

Section Confined.
Context `{Unicode} `{CaseFold} `{URLParser} `{Host} `{CliJSON} `{!EndpointURLs}.

#[local] Existing Instance sends_to_po.

Lemma sends_now ok : ckeeps (sends_to ok) time_Now.
Proof. apply sends_quiet_op. by intros n s s' r [= <- <-]. Qed.

Lemma sends_ctx ok : ckeeps (sends_to ok) ctx_err.
Proof. apply sends_quiet_op. by intros n s s' r [= <- <-]. Qed.

Lemma sends_print ok w x : ckeeps (sends_to ok) (Fprint w x).
Proof. apply sends_quiet_op. by intros n s s' r [= <- <-]. Qed.

Lemma sends_sleep ok d : ckeeps (sends_to ok) (defaultSleep d).
Proof. apply sends_quiet_op. intros n s s' r. destruct (ctx_Err n); [by intros [= <- <-]|]. destruct (_ <=? _); by intros [= <- <-]. Qed.

Lemma sends_random ok n : ckeeps (sends_to ok) (randomURLSafe n).
Proof.
  apply ckeeps_bind; [apply _| |intros b; apply ckeeps_ret, _]. apply sends_quiet_op. intros i s s' r. by destruct (draw i n); intros [= <- <-].
Qed.

Lemma sends_Load ok path : ckeeps (sends_to ok) (Load path).
Proof.
  apply ckeeps_bind; [apply _|apply ckeeps_wrapping, sends_os_op; by intros n s s' r [= <- <-]|].
  intros [[? d]|]; [apply ckeeps_of_result, _|apply ckeeps_fail, _].
Qed.

Lemma sends_Save ok path tok : ckeeps (sends_to ok) (Save path tok).
Proof.
  unfold Save. apply ckeeps_bind; [apply _|apply ckeeps_wrapping, sends_os_op; intros n s s' r [= <- <-]; by destruct (y_dirs s !! filepath_Dir path)|intros _].
  apply ckeeps_bind; [apply _|apply ckeeps_of_result, _|intros data].
  apply ckeeps_bind; [apply _|apply ckeeps_wrapping, sends_os_op; by intros n s s' r [= <- <-]|intros name].
  apply ckeeps_bind; [apply _|apply ckeeps_caught|intros rr].
  - apply ckeeps_bind; [apply _|apply ckeeps_wrapping, sends_os_op; by intros n s s' r [= <- <-]|intros _].
    apply ckeeps_bind; [apply _|apply ckeeps_wrapping, sends_quiet_op; intros n s s' r; by destruct (os_fails n); intros [= <- <-]|intros _].
    apply ckeeps_bind; [apply _|apply ckeeps_wrapping, sends_os_op; by intros n s s' r [= <- <-]|intros _].
    apply ckeeps_wrapping, sends_os_op. intros n s s' r [= <- <-]. by destruct (y_files s !! name).
  - apply ckeeps_bind; [apply _|apply ckeeps_caught, sends_os_op; by intros n s s' r [= <- <-]|intros _]. apply ckeeps_of_result, _.
Qed.

Hint Resolve sends_now sends_ctx sends_print sends_sleep sends_random sends_Load sends_Save : cli.

(** The refresh, phase by phase. *)
Lemma phase_sends cfg pid ph :
  checkIssuer (rf_issuer cfg) (rf_insecure cfg) = None ->
  ckeeps (sends_to (issuer_bound (rf_insecure cfg) (rf_issuer cfg))) (phase_body cfg pid ph).
Proof.
  intros Hc. destruct ph as [|d| |tok c|old tok|r]; cbn [phase_body].
  - rewrite Hc. apply ckeeps_bind; [apply _|apply sends_Load|intros tok]. apply ckeeps_bind; [apply _|apply sends_now|intros n].
    destruct (fresh_enough _ _ _); [apply ckeeps_ret, _|].
    apply ckeeps_bind; [apply _|apply ckeeps_wrapping, sends_os_op; intros k s s' r [= <- <-]; by destruct (y_files s !! _)|intros _].
    apply ckeeps_bind; [apply _|apply sends_now|intros n']. apply ckeeps_ret, _.
  - unfold lock_round. apply ckeeps_bind; [apply _|apply ckeeps_wrapping, sends_os_op; intros n s s' r; by destruct (y_lock s); intros [= <- <-]|].
    intros []; [apply ckeeps_ret, _|]. apply ckeeps_bind; [apply _|apply sends_now|intros n]. destruct (negb _); [apply ckeeps_fail, _|].
    apply ckeeps_bind; [apply _|apply sends_quiet_op; intros k s s' r; by destruct (ctx_Err k); intros [= <- <-]|intros _]. apply ckeeps_ret, _.
  - apply ckeeps_bind; [apply _|apply sends_Load|intros tok]. apply ckeeps_bind; [apply _|apply sends_now|intros n]. cbv zeta.
    repeat case_match; auto with cli typeclass_instances.
  - apply ckeeps_bind; [apply _|apply ckeeps_wrapping; by apply postTokenForm_sends|intros tr].
    apply ckeeps_bind; [apply _|apply sends_now|intros n]. apply ckeeps_ret, _.
  - apply ckeeps_bind; [apply _|apply sends_Save|intros _]. apply ckeeps_ret, _.
  - apply ckeeps_ret, _.
Qed.

Lemma release_sent pid s : y_sent (release pid s) = y_sent s.
Proof. unfold release. by case_bool_decide. Qed.

Lemma refresh_sends fuel cfg pid ph s s' r :
  checkIssuer (rf_issuer cfg) (rf_insecure cfg) = None -> run_phases fuel cfg pid ph s = (s', r) ->
  sends_to (issuer_bound (rf_insecure cfg) (rf_issuer cfg)) s s'.
Proof.
  intros Hc. revert ph s. induction fuel as [|fuel IH]; intros ph s; [by destruct ph; intros [= <- <-]|].
  assert (run_phases (S fuel) cfg pid ph s = match ph with Finished r => (s, Some r) | _ =>
    let (s, ph) := refresh_step cfg pid ph s in run_phases fuel cfg pid ph s end) as -> by (by destruct ph).
  destruct (refresh_step cfg pid ph s) as [s1 ph1] eqn:Hs. intros Hr.
  assert (ph = ph /\ (exists r0, ph = Finished r0 /\ s' = s) \/ run_phases fuel cfg pid ph1 s1 = (s', r)) as [[_ (r0 & -> & ->)]|Hrun].
  { destruct ph; try (by right). left. split; [done|]. injection Hr as <- <-. eauto. }
  { reflexivity. }
  etrans; [|by eapply IH]. unfold refresh_step in Hs. destruct (phase_body cfg pid ph s) as [s2 r2] eqn:Hb.
  pose proof (phase_sends _ _ _ Hc _ _ _ Hb) as (l & El & Hl). exists l. split; [|done].
  destruct r2 as [[]|e|]; injection Hs as <- <-; rewrite ?release_sent; done.
Qed.

Lemma loopback_sends raw id insecure listen openB es :
  ckeeps (sends_to (issuer_bound insecure (TrimRightByte raw "/"))) (Flow_Run (NewFlow raw id insecure) listen openB es).
Proof.
  unfold Flow_Run. cbn [fl_issuer fl_insecure NewFlow]. destruct (_ =? "")%string; [apply ckeeps_fail, _|].
  destruct (checkIssuer _ _) eqn:Hc; [apply ckeeps_fail, _|].
  apply ckeeps_bind; [apply _|apply ckeeps_wrapping, sends_random|intros v]. apply ckeeps_bind; [apply _|apply ckeeps_wrapping, sends_random|intros st].
  apply ckeeps_bind; [apply _|apply ckeeps_of_result, _|intros addr]. apply ckeeps_bind; [apply _|apply sends_print|intros _].
  apply ckeeps_bind; [apply _|destruct (openB _); [apply sends_print|apply ckeeps_ret, _]|intros _].
  apply ckeeps_bind; [apply _|apply ckeeps_of_result, _|intros code].
  unfold cli_exchange. cbn [fl_issuer fl_insecure NewFlow]. rewrite <- (TrimRightByte_idem raw "/") at 2.
  apply ckeeps_bind; [apply _|by apply postTokenForm_sends|intros tr]. apply ckeeps_bind; [apply _|apply sends_now|intros n]. apply ckeeps_ret, _.
Qed.

Lemma pollOnce_sends raw id deadline insecure code :
  checkIssuer (TrimRightByte raw "/") insecure = None ->
  ckeeps (sends_to (issuer_bound insecure (TrimRightByte raw "/"))) (pollOnce (NewDeviceFlow raw id deadline insecure) code).
Proof.
  intros Hc. unfold pollOnce. cbn [df_issuer df_insecure NewDeviceFlow]. destruct (url_Parse _) as [u|] eqn:Hu; [|apply ckeeps_fail, _].
  apply ckeeps_bind; [apply _|apply ckeeps_caught|].
  { apply (endpoint_sends _ _ "token"); [done|]. by rewrite TrimRightByte_idem. }
  intros [e|[st [e|body]]].
  - unfold poll_failed. apply ckeeps_bind; [apply _|apply sends_ctx|]. intros [ce|]; [apply ckeeps_fail, _|].
    destruct (errors_Is _ _); [apply ckeeps_fail, _|apply ckeeps_ret, _].
  - apply ckeeps_bind; [apply _|apply sends_ctx|]. intros [ce|]; [apply ckeeps_fail, _|apply ckeeps_ret, _].
  - destruct (_ && _); [apply ckeeps_ret, _|]. destruct (st =? 200).
    + destruct (unmarshal_token body); [apply ckeeps_fail, _|]. destruct (_ =? "")%string; [apply ckeeps_fail, _|].
      apply ckeeps_bind; [apply _|apply sends_now|intros n]. apply ckeeps_ret, _.
    + unfold poll_rejected. repeat case_match; auto with cli typeclass_instances.
Qed.

Lemma rounds_sends raw id deadline insecure fuel code start dl iv bo :
  checkIssuer (TrimRightByte raw "/") insecure = None ->
  ckeeps (sends_to (issuer_bound insecure (TrimRightByte raw "/"))) (poll_rounds fuel (NewDeviceFlow raw id deadline insecure) code start dl iv bo).
Proof.
  intros Hc. revert iv bo. induction fuel as [|fuel IH]; intros iv bo; cbn [poll_rounds]; [apply ckeeps_ret, _|].
  apply ckeeps_bind; [apply _|apply sends_ctx|]. intros [e|]; [apply ckeeps_fail, _|].
  apply ckeeps_bind; [apply _|apply sends_now|intros n]. destruct (_ <=? _); [apply ckeeps_fail, _|].
  apply ckeeps_bind; [apply _|by apply pollOnce_sends|]. intros action.
  assert (forall sl iv' bo', ckeeps (sends_to (issuer_bound insecure (TrimRightByte raw "/"))) (defaultSleep sl ≫= fun _ =>
    poll_rounds fuel (NewDeviceFlow raw id deadline insecure) code start dl iv' bo')) as Hs.
  { intros sl iv' bo'. apply ckeeps_bind; [apply _|apply sends_sleep|intros _]. apply IH. }
  destruct action; [apply ckeeps_ret, _|apply Hs..].
Qed.

Lemma device_sends raw id deadline insecure fuel :
  ckeeps (sends_to (issuer_bound insecure (TrimRightByte raw "/"))) (DeviceFlow_Run fuel (NewDeviceFlow raw id deadline insecure)).
Proof.
  unfold DeviceFlow_Run. cbn [df_issuer df_insecure NewDeviceFlow]. destruct (_ =? "")%string; [apply ckeeps_fail, _|].
  destruct (checkIssuer _ _) eqn:Hc; [apply ckeeps_fail, _|].
  apply ckeeps_bind; [apply _| |intros i].
  - unfold requestDeviceCode. cbn [df_issuer df_insecure NewDeviceFlow]. rewrite <- (TrimRightByte_idem raw "/") at 2.
    apply ckeeps_bind; [apply _|by apply (post_sends _ _ "device_authorization")|].
    intros [st [e|body]]; [apply ckeeps_fail, _|]. repeat case_match; auto with cli typeclass_instances.
  - unfold printPrompt. repeat (apply ckeeps_bind; [apply _| |intros ?]); try apply sends_print.
    + destruct (_ =? "")%string; [apply ckeeps_ret, _|apply sends_print].
    + unfold pollLoop. apply sends_now.
    + by apply rounds_sends.
Qed.

Context `{Shell}.

Lemma login_sends fuel o listen openB es issuer :
  resolve_issuer (lf_issuer o) = inr issuer ->
  ckeeps (sends_to (issuer_bound (lf_insecure o) (TrimRightByte issuer "/"))) (login fuel o listen openB es).
Proof.
  intros Hi. unfold login. rewrite Hi. apply ckeeps_ret_bind.
  apply ckeeps_bind; [apply _|apply ckeeps_of_result, _|intros path]. apply ckeeps_bind; [apply _| |intros [tok|]; [|apply ckeeps_ret, _]].
  - destruct (use_device o).
    + destruct (_ <? 0); [apply ckeeps_fail, _|apply device_sends].
    + apply ckeeps_bind; [apply _|apply loopback_sends|intros t]. apply ckeeps_ret, _.
  - apply ckeeps_bind; [apply _|apply sends_Save|intros ?]. apply ckeeps_bind; [apply _|apply sends_print|intros ?].
    apply ckeeps_bind; [apply _|apply sends_print|intros ?]. apply ckeeps_ret, _.
Qed.

Lemma token_sends fuel cfg pid s s' r :
  EnsureFresh fuel cfg pid s = (s', r) -> sends_to (issuer_bound (rf_insecure cfg) (rf_issuer cfg)) s s'.
Proof.
  intros Hr. destruct (checkIssuer (rf_issuer cfg) (rf_insecure cfg)) eqn:Hc; [|by eapply refresh_sends].
  exists []. rewrite app_nil_r. split; [|by intros x ?%elem_of_nil]. unfold EnsureFresh in Hr.
  destruct fuel as [|fuel]; [by injection Hr as <- <-|]. cbn [run_phases] in Hr. unfold refresh_step in Hr. cbn [phase_body] in Hr. rewrite Hc in Hr.
  cbn in Hr. destruct fuel; injection Hr as <- <-; apply release_sent.
Qed.

(** C37. Credentials go to the issuer only. Every request of `tempogate login`, by
    the browser or by a device code, and of `tempogate token`, with the refresh
    token, the code, the PKCE verifier or the device code in it, and every
    request the HTTP library makes to follow a redirect, goes to the host of the
    configured issuer, over https, or over plain http to this machine, or over
    plain http if the user asked for it. *)
Theorem cli_confined flag issuer s s' :
  resolve_issuer flag = inr issuer ->
  (forall fuel o listen openB es r, lf_issuer o = flag -> login fuel o listen openB es s = (s', r) ->
     sends_to (issuer_bound (lf_insecure o) (TrimRightByte issuer "/")) s s') /\
  (forall fuel pid file insecure r, token_cmd fuel pid flag file insecure s = (s', r) -> sends_to (issuer_bound insecure issuer) s s').
Proof.
  intros Hi. split.
  - intros fuel o listen openB es r <- Hr. by eapply login_sends.
  - intros fuel pid file insecure r Hr. unfold token_cmd in Hr. rewrite Hi in Hr.
    destruct (resolveTokenPath file) as [e|path]; [injection Hr as <- <-; reflexivity|].
    destruct (EnsureFresh fuel _ pid s) as [s1 r1] eqn:Hf. apply token_sends in Hf. cbn in Hf. etrans; [exact Hf|].
    destruct r1 as [[tok|e|]|]; [|injection Hr as <- <-; reflexivity..].
    destruct (Println _ s1) as [s2 r2] eqn:Hp. injection Hr as <- <-. by eapply sends_print.
Qed.

End Confined.

(** ** Polling *)

Section Polling.
Context `{Unicode} `{CaseFold} `{URLParser} `{Host} `{CliJSON}.

(** Time passes, but the client does not sleep. *)
Definition awake (s s' : Sys) : Prop := y_clock s <= y_clock s' /\ y_slept s' = y_slept s.

#[local] Instance awake_po : PreOrder awake.
Proof. split; [by intros s|]. intros s1 s2 s3 (E1 & E2) (F1 & F2). split; [lia|congruence]. Qed.

Lemma awake_op {A} (f : nat -> Sys -> Sys * res A) : (forall n, ckeeps awake (f n)) -> ckeeps awake (op f).
Proof.
  intros Hf s s' r (s1 & _ & _ & _ & _ & Hc & Hs & [[-> ->]|Hr])%op_cases; [done|]. apply Hf in Hr as [? ?]. split; [lia|congruence].
Qed.

Lemma awake_now : ckeeps awake time_Now.
Proof. apply awake_op. by intros n s s' r [= <- <-]. Qed.

Lemma awake_ctx : ckeeps awake ctx_err.
Proof. apply awake_op. by intros n s s' r [= <- <-]. Qed.

Lemma awake_follow fuel insecure from via method u body : ckeeps awake (follow fuel insecure from via method u body).
Proof.
  revert via method u body. induction fuel as [|fuel IH]; intros via method u body; cbn [follow]; [apply ckeeps_fail, _|].
  apply ckeeps_bind; [apply _|apply awake_op; by intros n s s' r [= <- <-]|].
  intros [e|st target|st b]; [apply ckeeps_fail, _| |apply ckeeps_ret, _].
  destruct (CheckRedirect _ _ _ _); [apply ckeeps_fail, _|]. destruct (_ || _); apply IH.
Qed.

Lemma awake_pollOnce f code : ckeeps awake (pollOnce f code).
Proof.
  unfold pollOnce. destruct (url_Parse _) as [u|]; [|apply ckeeps_fail, _].
  apply ckeeps_bind; [apply _|apply ckeeps_caught, awake_follow|]. intros [e|[st [e|body]]].
  - unfold poll_failed. apply ckeeps_bind; [apply _|apply awake_ctx|]. intros [ce|]; [apply ckeeps_fail, _|].
    destruct (errors_Is _ _); [apply ckeeps_fail, _|apply ckeeps_ret, _].
  - apply ckeeps_bind; [apply _|apply awake_ctx|]. intros [ce|]; [apply ckeeps_fail, _|apply ckeeps_ret, _].
  - destruct (_ && _); [apply ckeeps_ret, _|]. destruct (st =? 200).
    + destruct (unmarshal_token body); [apply ckeeps_fail, _|]. destruct (_ =? "")%string; [apply ckeeps_fail, _|].
      apply ckeeps_bind; [apply _|apply awake_now|intros n]. apply ckeeps_ret, _.
    + unfold poll_rejected. repeat case_match; auto with cli typeclass_instances.
Qed.

(** The interval never shrinks below [base], and the backoff stays within four
    times it, while the numbers stay away from the ends of their range. *)
Definition spaced (base iv bo : duration) (n : Z) : Prop :=
  base <= iv <= bo /\ bo <= 4 * iv /\ 0 <= base /\ iv + slowDownBump * n <= 2 ^ 59.

Lemma schedule_spaced action base iv bo n sl iv' bo' :
  spaced base iv bo n -> 1 <= n -> schedule action iv bo = (sl, iv', bo') -> base <= sl /\ spaced base iv' bo' (n - 1).
Proof.
  unfold spaced, schedule. change slowDownBump with 5000000000. change transientBackoffCap with 4. intros (H1' & H2' & H3' & H4') Hn.
  destruct action; intros [= <- <- <-]; try (split; [lia|]; lia).
  - rewrite wrap64_id by (unfold in_int64, int64_min, int64_max; lia). split; [lia|]. lia.
  - rewrite !wrap64_id by (unfold in_int64, int64_min, int64_max; lia). split; [lia|]. case Z.ltb_spec; lia.
Qed.

Lemma sleep_run d s s' r :
  0 < d -> defaultSleep d s = (s', r) ->
  (r = Ret tt /\ y_clock s + d <= y_clock s' /\ y_slept s' = y_slept s ++ [d]) \/ (r <> Ret tt /\ awake s s').
Proof.
  intros Hd (s1 & _ & _ & _ & _ & Hc & Hs & [[-> ->]|Hr])%op_cases; [right; split; [done|]; by split; [|]|].
  destruct (ctx_Err _); [injection Hr as <- <-; right; split; [done|]; by split|].
  destruct (Z.leb_spec d 0); [lia|]. injection Hr as <- <-. left. cbn. rewrite Hs. split_and!; [done|lia|done].
Qed.

(** One round's outcome [r] after [fuel] rounds with at most [n] sleeps to go:
    what was slept since, and that running out of rounds needs [fuel <= n]. *)
Definition paced (f : DeviceFlow) (n : Z) (fuel : nat) (iv bo : duration) (s s' : Sys) (r : res (option CliToken)) : Prop :=
  exists l, y_slept s' = y_slept s ++ l /\ Z.of_nat (length l) <= n /\ Forall (fun d => df_minSleep f <= d) l /\
    (n < Z.of_nat fuel -> r <> Ret None) /\ (forall base, spaced base iv bo n -> Forall (fun d => base <= d) l).

Lemma paced_stop f n fuel iv bo s s' r : 0 <= n -> awake s s' -> r <> Ret None -> paced f n fuel iv bo s s' r.
Proof. intros Hn [_ Hs] Hr. exists []. rewrite app_nil_r. by split_and!. Qed.

Lemma paced_sleep f n fuel iv bo iv' bo' action sl s s3 s4 s' r :
  1 <= n -> schedule action iv bo = (sl, iv', bo') -> awake s s3 -> y_slept s4 = y_slept s3 ++ [Z.max sl (df_minSleep f)] ->
  paced f (n - 1) fuel iv' bo' s4 s' r -> paced f n (S fuel) iv bo s s' r.
Proof.
  intros Hn Hsch [_ Hs] Hs4 (l & El & Hlen & Hall & Hend & Hsp). exists (Z.max sl (df_minSleep f) :: l). split_and!.
  - by rewrite El, Hs4, Hs, <- app_assoc.
  - cbn [length]. lia.
  - constructor; [lia|done].
  - intros Hf. apply Hend. lia.
  - intros base Hb. destruct (schedule_spaced _ _ _ _ _ _ _ _ Hb Hn Hsch) as [? ?]. constructor; [lia|by apply Hsp].
Qed.

Lemma now_reads s s' x : time_Now s = (s', Ret x) -> x = y_clock s'.
Proof. intros (s3 & _ & _ & _ & _ & _ & _ & [[? _]|K])%op_cases; [done|]. by injection K as <- <-. Qed.

Lemma cbind_awake {A B} (m : C A) (k : A -> C B) (P : res B -> Sys -> Prop) s s' r :
  ckeeps awake m -> (m ≫= k) s = (s', r) -> (forall e, awake s s' -> P (Err e) s') -> (awake s s' -> P Died s') ->
  (forall s1 x, m s = (s1, Ret x) -> awake s s1 -> k x s1 = (s', r) -> P r s') -> P r s'.
Proof. intros Hm [(s1 & x & K & Hr)|[(e & K & ->)|[K ->]]]%cbind_inv He Hd Hk; pose proof (Hm _ _ _ K); eauto. Qed.

Lemma rounds_run f code start dl (Hmin : 0 < df_minSleep f) (Hdl : 0 < dl <= int64_max) fuel iv bo s s' r n :
  0 <= n -> start + dl - y_clock s <= df_minSleep f * n ->
  poll_rounds fuel f code start dl iv bo s = (s', r) -> paced f n fuel iv bo s s' r.
Proof.
  revert iv bo s n. induction fuel as [|fuel IH]; intros iv bo s n Hn Hleft Hr; cbn [poll_rounds] in Hr.
  { injection Hr as <- <-. exists []. rewrite app_nil_r. split_and!; try done; lia. }
  apply (cbind_awake _ _ (fun r s' => paced f n (S fuel) iv bo s s' r) _ _ _ awake_ctx Hr);
    [intros; by apply paced_stop|intros; by apply paced_stop|clear Hr; intros s1 c _ A1 Hr].
  destruct c as [e|]; [injection Hr as <- <-; by apply paced_stop|].
  apply (cbind_awake _ _ (fun r s' => paced f n (S fuel) iv bo s s' r) _ _ _ awake_now Hr);
    [intros; apply paced_stop; by try etrans|intros; apply paced_stop; by try etrans|clear Hr; intros s2 x ->%now_reads A2 Hr].
  case_match eqn:Hd; [injection Hr as <- <-; apply paced_stop; by try etrans|apply Z.leb_gt in Hd].
  assert (y_clock s2 < start + dl) as Hearly.
  { apply Z.lt_nge. intros Hge. assert (dl <= time_Sub (y_clock s2) start) by (unfold time_Sub; lia). lia. }
  apply (cbind_awake _ _ (fun r s' => paced f n (S fuel) iv bo s s' r) _ _ _ (awake_pollOnce _ _) Hr);
    [intros; apply paced_stop; by try (etrans; [|etrans])|intros; apply paced_stop; by try (etrans; [|etrans])|clear Hr; intros s3 action _ A3 Hr].
  assert (awake s s3) as A by (by etrans; [|etrans]).
  assert (1 <= n) as Hn1 by (destruct A1, A2; nia).
  assert (r = Ret (match action with actionDone tok => Some tok | _ => None end) /\ awake s s' /\ r <> Ret None \/
    exists sl iv' bo', schedule action iv bo = (sl, iv', bo') /\
      (defaultSleep (Z.max sl (df_minSleep f)) ≫= fun _ => poll_rounds fuel f code start dl iv' bo') s3 = (s', r)) as Hcase.
  { destruct action as [tok| | |]; [left; by injection Hr as <- <-|..]; right; repeat eexists; exact Hr. }
  clear Hr. destruct Hcase as [(_ & ? & ?)|(sl & iv' & bo' & Hsch & Hr)]; [by apply paced_stop|].
  apply cbind_inv in Hr as [(s4 & [] & K & Hr)|[(e & K & ->)|[K ->]]]; apply sleep_run in K as [(? & Hc4 & Hs4)|[? A4]]; try done; try lia.
  - eapply paced_sleep; [done..|]. apply IH; [lia| |done]. destruct A. nia.
  - apply paced_stop; by try etrans.
  - apply paced_stop; by try etrans.
Qed.

Lemma poll_deadline_pos f i : df_pollDeadline f <= int64_max -> 0 < poll_deadline f i <= int64_max.
Proof.
  unfold poll_deadline. intros. pose proof (wrap64_range (da_ExpiresIn i * Second)) as Hw. unfold in_int64 in Hw.
  repeat case_match; rewrite ?Z.leb_le, ?Z.leb_gt, ?Z.ltb_lt, ?Z.ltb_ge in *; try lia. by split.
Qed.

(** A device sign-in polls at a polite rate and gives up. Whatever the
    server, the network and the clock do, the loop ends within one round per
    second of its deadline: it never runs out of rounds. It sleeps at least a
    second between polls, and, at any interval and deadline short of two years,
    at least as long as the server asked for, which slow_down answers only
    lengthen and transient failures only back off from. *)
Theorem device_polling_bounded raw id deadline insecure i fuel s s' r :
  let f := NewDeviceFlow raw id deadline insecure in
  let rounds := poll_deadline f i / Second + 1 in
  deadline <= int64_max ->
  rounds < Z.of_nat fuel ->
  pollLoop fuel f i s = (s', r) ->
  r <> Ret None /\
  exists l, y_slept s' = y_slept s ++ l /\ Z.of_nat (length l) <= rounds /\ Forall (fun d => Second <= d) l /\
    (poll_interval f i <= 2 ^ 56 -> poll_deadline f i <= 2 ^ 56 -> Forall (fun d => poll_interval f i <= d) l).
Proof.
  intros f rounds Hdl Hfuel Hr. pose proof (poll_deadline_pos f i Hdl) as Hpos.
  assert (0 <= rounds) as Hn by (apply Z.add_nonneg_nonneg; [apply Z.div_pos; [lia|done]|done]).
  assert (paced f rounds fuel (poll_interval f i) (poll_interval f i) s s' r) as (l & El & Hlen & Hall & Hend & Hsp).
  { apply (cbind_awake _ _ (fun r s' => paced f rounds fuel (poll_interval f i) (poll_interval f i) s s' r) _ _ _ awake_now Hr);
      [intros; by apply paced_stop|intros; by apply paced_stop|]. intros s1 x ->%now_reads [_ As] Hr1.
    eapply rounds_run in Hr1; [..|exact Hn|]; [|done|done|].
    - unfold paced in *. by rewrite <- As.
    - change (df_minSleep f) with Second. unfold rounds.
      pose proof (Z.mod_pos_bound (poll_deadline f i) Second). pose proof (Z.div_mod (poll_deadline f i) Second). assert (0 < Second) by done. nia. }
  split; [by apply Hend|]. exists l. split_and!; [done..|]. intros Hi Hd. apply Hsp. unfold spaced.
  assert (Second <= poll_interval f i) by (unfold poll_interval; change (df_minSleep f) with Second; lia).
  assert (0 < Second) as Hsec by done. pose proof (Z.div_le_mono _ _ Second Hsec Hd) as Hrounds.
  replace (2 ^ 56 / Second) with 72057594 in Hrounds by (by vm_compute).
  assert (rounds <= 72057595) by (unfold rounds; lia). clearbody rounds. clear Hrounds. change slowDownBump with 5000000000. split_and!; lia.
Qed.

End Polling.
