(* ===== verification/DeviceFacts.v ===== *)
(** * What the device flow guarantees

    The theorems about Device.v: user codes are unbiased, well formed and
    survive being displayed and typed; the device authorization response names
    exactly the row it stored; the bounce state comes back only as it was
    signed; the sign-in callback opens a session only for an identity the
    redeemed code names; and a device is approved only from the issuer's own
    page, by a live session with its CSRF token and some permissions. *)

From S2P Require Import Prelude GoStrings GoErrors GoEncoding GoCrypto GoURL GoHttp Perms Oidc Client.
From S2P Require Import Binding Signer Token Session Login Device TokenFacts.

(** ** User codes *)

Definition in_alphabet (c : ascii) : bool := ContainsByte userCodeAlphabet c.

Definition well_formed_code (s : string) : Prop :=
  String.length s = userCodeLen /\ all_bytes in_alphabet s = true.

Definition all_byte_values : list ascii := List.map (fun n => byte_of (N.of_nat n)) (seq 0 256).

(** How many of the 256 values of a random byte give [c]. *)
Definition chances (c : ascii) : nat :=
  length (List.filter (fun b => bool_decide (user_code_char b = Some c)) all_byte_values).

Lemma chances_uniform c : chances c = if in_alphabet c then 10%nat else 0%nat.
Proof. destruct c as [[][][][][][][][]]; vm_compute; reflexivity. Qed.

Lemma user_code_char_alphabet b c : user_code_char b = Some c -> in_alphabet c = true.
Proof. destruct b as [[][][][][][][][]]; vm_compute; intros [= <-]; reflexivity. Qed.

(** The code so far: at most eight characters, all of the alphabet. *)
Definition partial_code (s : string) : Prop :=
  (String.length s <= userCodeLen)%nat /\ all_bytes in_alphabet s = true.

(** A buffer with at least one byte the sampler accepts. *)
Fixpoint productive (buf : string) : bool :=
  match buf with
  | "" => false
  | String b buf => bool_decide (is_Some (user_code_char b)) || productive buf
  end.

Lemma take_codes_full out buf : (userCodeLen <=? String.length out)%nat = true -> take_codes out buf = out.
Proof. intros Hl. destruct buf; [done|]. cbn [take_codes]. by rewrite Hl. Qed.

Lemma partial_snoc out c :
  partial_code out -> (userCodeLen <=? String.length out)%nat = false -> in_alphabet c = true ->
  partial_code (out +:+ String c "").
Proof.
  intros [Hl Ha] Hf%Nat.leb_gt Hc. split; [rewrite length_append; cbn [String.length]; lia|].
  rewrite all_bytes_app, Ha. cbn [all_bytes]. by rewrite Hc.
Qed.

(** One buffer only adds, stays well formed, and adds at least one character
    when it is productive and there is room. *)
Lemma take_codes_grows buf out :
  partial_code out ->
  partial_code (take_codes out buf) /\ (String.length out <= String.length (take_codes out buf))%nat /\
  (productive buf = true -> (String.length out < userCodeLen)%nat ->
   (String.length out < String.length (take_codes out buf))%nat).
Proof.
  revert out. induction buf as [|b buf IH]; intros out Ho; cbn [take_codes productive]; [done|].
  destruct (userCodeLen <=? String.length out)%nat eqn:Hf.
  { apply Nat.leb_le in Hf. split; [done|]. split; lia. }
  destruct (user_code_char b) as [c|] eqn:Hc.
  - destruct (IH (out +:+ String c "")) as (H1 & H2 & _).
    { apply partial_snoc; [done..|]. by eapply user_code_char_alphabet. }
    rewrite length_append in H2. cbn [String.length] in H2. split; [done|]. split; lia.
  - destruct (IH out Ho) as (H1 & H2 & H3). split; [done|]. split; [done|].
    rewrite bool_decide_eq_false_2 by (by intros []). exact H3.
Qed.

Section Sampling.
Context `{Env} {S : Type}.
Implicit Types (w : World S).

Lemma partial_full out :
  partial_code out -> (userCodeLen <=? String.length out)%nat = true -> well_formed_code out.
Proof. intros [Hl Ha] Hf%Nat.leb_le. split; [lia|done]. Qed.

Lemma randomUserCode_wf rounds out w w' c :
  partial_code out -> randomUserCode rounds out w = (w', inr c) -> well_formed_code c /\ w_store w' = w_store w.
Proof.
  revert out w. induction rounds as [|rounds IH]; intros out w Ho; cbn [randomUserCode];
    destruct (userCodeLen <=? String.length out)%nat eqn:Hf; intros Hr;
    try (injection Hr as <- <-; split; [by apply partial_full|done]); [done|].
  apply bind_inr in Hr as (w1 & b & Hb & Hr). run_in Hb. destruct (entropy _ _) as [buf|]; [|done].
  apply IH in Hr; [done|]. by apply take_codes_grows.
Qed.

Lemma sampling_enough rounds out w :
  partial_code out ->
  (forall j, w_draw w <= j < w_draw w + rounds ->
     exists buf, entropy j 16 = Some buf /\ productive buf = true)%nat ->
  (userCodeLen <= String.length out + rounds)%nat ->
  exists w' c, forall more, randomUserCode (rounds + more) out w = (w', inr c).
Proof.
  revert out w. induction rounds as [|rounds IH]; intros out w Ho Hb Hn.
  { exists w, out. intros [|more]; cbn [randomUserCode Nat.add];
      rewrite (proj2 (Nat.leb_le _ _)) by lia; done. }
  destruct (userCodeLen <=? String.length out)%nat eqn:Hf.
  { exists w, out. intros more. cbn [randomUserCode Nat.add]. by rewrite Hf. }
  destruct (Hb (w_draw w)) as (buf & He & Hp); [lia|].
  destruct (take_codes_grows buf out Ho) as (Ho' & _ & Hg). apply Nat.leb_gt in Hf as Hf'.
  specialize (Hg Hp Hf').
  destruct (IH (take_codes out buf)
    (mkWorld (w_store w) (w_tick w) (Datatypes.S (w_draw w)) (w_trace w) (w_memo w))) as (w' & c & Hr);
    [done| |lia|].
  { intros j Hj. apply Hb. cbn in Hj. lia. }
  exists w', c. intros more. cbn [randomUserCode Nat.add]. rewrite Hf. unfold mbind, M_bind, rand_Read.
  rewrite He. apply Hr.
Qed.

(** User codes are drawn fairly and in bounded time: of the 256 values of a
    random byte exactly ten give each character of the alphabet and none gives
    any other; and as soon as the next eight reads of 16 bytes each succeed
    with at least one accepted byte, the sampler returns a code of exactly eight
    characters of the alphabet, the same for every number of rounds from eight
    on, and changes nothing in the store. *)
Theorem user_code_sampling w :
  (forall j, w_draw w <= j < w_draw w + userCodeLen ->
     exists buf, entropy j 16 = Some buf /\ productive buf = true)%nat ->
  (forall c, chances c = if in_alphabet c then 10%nat else 0%nat) /\
  exists w' uc,
    well_formed_code uc /\ w_store w' = w_store w /\
    forall rounds, (userCodeLen <= rounds)%nat -> randomUserCode rounds "" w = (w', inr uc).
Proof.
  intros Hb. split; [apply chances_uniform|].
  destruct (sampling_enough userCodeLen "" w) as (w' & c & Hr); [split; [cbn; lia|done]|done|cbn; lia|].
  pose proof (Hr 0%nat) as H0. apply randomUserCode_wf in H0 as [Hwf Hst]; [|split; [cbn; lia|done]].
  exists w', c. split; [done|]. split; [done|]. intros rounds Hrounds.
  replace rounds with (userCodeLen + (rounds - userCodeLen))%nat by lia. apply Hr.
Qed.

End Sampling.

(** *** Display and typing *)

Definition canonical_char (c : ascii) : bool :=
  ((65 <=? code c) && (code c <=? 90) || (48 <=? code c) && (code c <=? 57))%N.

Lemma canonical_char_not_lower c : canonical_char c = true -> ((97 <=? code c) && (code c <=? 122))%N = false.
Proof. destruct c as [[][][][][][][][]]; vm_compute; done. Qed.

Lemma canonical_id s : all_bytes canonical_char s = true -> canonicalUserCode s = s.
Proof.
  induction s as [|c s IH]; [done|]. cbn [all_bytes canonicalUserCode]. intros [Hc Hs]%andb_true_iff.
  rewrite canonical_char_not_lower by done. unfold canonical_char in Hc. rewrite Hc, IH; done.
Qed.

Lemma canonical_chars s : all_bytes canonical_char (canonicalUserCode s) = true.
Proof.
  induction s as [|c s IH]; [done|]. cbn [canonicalUserCode].
  destruct ((97 <=? code c) && (code c <=? 122))%N eqn:Hl.
  - cbn [all_bytes]. rewrite IH, andb_true_r. destruct c as [[][][][][][][][]]; vm_compute in Hl |- *; done.
  - destruct (_ || _)%N eqn:Hc; [|done]. cbn [all_bytes]. rewrite IH. unfold canonical_char. by rewrite Hc.
Qed.

Lemma canonical_app a b : canonicalUserCode (a +:+ b) = canonicalUserCode a +:+ canonicalUserCode b.
Proof.
  induction a as [|c a IH]; [done|]. rewrite append_cons. cbn [canonicalUserCode].
  rewrite IH. by destruct (_ && _)%N; [|destruct (_ || _)%N].
Qed.

Lemma canonical_lower s : canonicalUserCode (ascii_lower s) = canonicalUserCode s.
Proof.
  induction s as [|c s IH]; [done|]. cbn [ascii_lower map_bytes canonicalUserCode]. fold (ascii_lower s).
  rewrite IH. by destruct c as [[][][][][][][][]].
Qed.

Lemma substring_split n s : String.substring 0 n s +:+ drop_bytes n s = s.
Proof.
  revert s. induction n as [|n IH]; intros s; [by destruct s|]. destruct s as [|c s]; [done|].
  cbn [String.substring drop_bytes]. by rewrite append_cons, IH.
Qed.

Lemma canonical_format s : canonicalUserCode (formatUserCode s) = canonicalUserCode s.
Proof.
  unfold formatUserCode. destruct (_ <=? _)%nat; [done|].
  rewrite <- (substring_split (userCodeLen / 2) s) at 3. by rewrite !canonical_app.
Qed.

Lemma in_alphabet_canonical c : in_alphabet c = true -> canonical_char c = true.
Proof. destruct c as [[][][][][][][][]]; vm_compute; done. Qed.

Lemma well_formed_canonical uc : well_formed_code uc -> canonicalUserCode uc = uc.
Proof. intros [_ Ha]. apply canonical_id. by eapply all_bytes_impl; [apply in_alphabet_canonical|]. Qed.

Lemma format_typed_back uc typed :
  well_formed_code uc -> typed = formatUserCode uc \/ typed = ascii_lower (formatUserCode uc) \/ typed = uc ->
  canonicalUserCode typed = uc.
Proof.
  intros Hwf [->|[->| ->]]; rewrite ?canonical_lower, ?canonical_format; by apply well_formed_canonical.
Qed.

(** ** POST /device_authorization *)

Section AuthorizationFacts.
Context `{Env} {S : Type} `{DeviceCodeStore S}.
Implicit Types (w : World S).

(** The row a run of the mint left behind, and where its secrets came from. *)
Definition device_saved (clientID scope : string) (t : time) w w' (dc : DeviceCode) : Prop :=
  exists i b uc s,
    (w_draw w <= i)%nat /\ entropy i deviceCodeEntropyBytes = Some b /\ well_formed_code uc /\
    dc = fresh_device clientID scope (RawURL_Encode b) uc t /\ SaveDeviceCode dc s = (w_store w', None).

Definition draws_forward (w w' : World S) : Prop := (w_draw w <= w_draw w')%nat.

#[local] Instance draws_forward_preorder : PreOrder draws_forward.
Proof. split; unfold draws_forward; [intros w|intros w1 w2 w3]; lia. Qed.

Lemma randomUserCode_draws rounds out : respects draws_forward (randomUserCode (S := S) rounds out).
Proof.
  revert out. induction rounds as [|n IH]; intros out; cbn [randomUserCode]; respects;
    intros w w' r [= <- <-]; unfold draws_forward; cbn; lia.
Qed.

Lemma mint_attempts_inr n clientID scope t w w' dc :
  mint_attempts n clientID scope t w = (w', inr dc) -> device_saved clientID scope t w w' dc.
Proof.
  revert w. induction n as [|n IH]; intros w; cbn [mint_attempts]; [done|]. intros Hm.
  apply bind_inr in Hm as (w1 & dcode & Hd & Hm). apply bind_inr in Hd as (w0 & b & Hb & Hd). run_in Hb.
  destruct (entropy (w_draw w) _) as [b|] eqn:He; [|done]. run_in Hd.
  apply bind_inr in Hm as (w2 & uc & Hu & Hm). pose proof (randomUserCode_draws _ _ _ _ _ Hu) as Hdr.
  unfold draws_forward in Hdr. cbn in Hdr.
  apply randomUserCode_wf in Hu as [Hwf _]; [|split; [cbn; lia|done]].
  apply bind_inr in Hm as (w3 & [] & Hx & Hm). unfold declare in Hx. run_in Hx.
  apply bind_inr in Hm as (w4 & e & Hs & Hm). unfold on_store in Hs. cbn [w_store] in Hs.
  destruct (SaveDeviceCode _ _) as [s' e'] eqn:Hsave. injection Hs as <- <-. destruct e' as [e'|].
  - destruct (errors_Is e' _); [|done]. apply IH in Hm as (i & b' & uc' & s & Hi & K). cbn in Hi.
    exists i, b', uc', s. split; [lia|done].
  - run_in Hm. exists (w_draw w), b, uc, (w_store w2). split; [lia|]. repeat (split; [done|]). done.
Qed.

Lemma ParseQuery_one k x : QueryEscape k = k -> ParseQuery (k +:+ "=" +:+ QueryEscape x) = Some [(k, x)].
Proof.
  intros Hk. rewrite <- Hk at 1.
  change (QueryEscape k +:+ "=" +:+ QueryEscape x) with (Encode [(k, x)]).
  rewrite ParseQuery_Encode; done.
Qed.

(** The device authorization response names exactly the row it stored: an
    answer goes only to a registered public client allowed the device grant; a
    fresh row for that client and scope was saved, its device code 32 random
    bytes and its user code eight characters of the alphabet, expiring when the
    response's expires_in says; and the user code of the response, typed back
    with or without its dash in either case, or taken from
    verification_uri_complete, is the stored one. *)
Theorem device_authorization_sound h rawBody w w' out :
  DeviceAuthorization_handle h rawBody w = (w', inr out) ->
  let body := do_Body out in
  exists form c dc,
    ParseQuery rawBody = Some form /\ da_clients h !! Get form "client_id" = Some c /\ Secret c = "" /\
    Allows c GrantTypeDeviceCode = true /\
    device_saved (Get form "client_id") (Get form "scope") (clock (w_tick w)) w w' dc /\
    do_CacheControl out = "no-store" /\ db_DeviceCode body = dc_Code dc /\
    (forall typed, typed = db_UserCode body \/ typed = ascii_lower (db_UserCode body) \/ typed = dc_UserCode dc ->
       canonicalUserCode typed = dc_UserCode dc) /\
    (exists q vs, db_VerificationURIComplete body = db_VerificationURI body +:+ "?" +:+ q /\
       ParseQuery q = Some vs /\ Get vs "user_code" = db_UserCode body) /\
    dc_ExpiresAt dc = clock (w_tick w) + db_ExpiresIn body * Second /\ db_Interval body = dc_IntervalSeconds dc.
Proof.
  unfold DeviceAuthorization_handle. destruct (ParseQuery rawBody) as [form|] eqn:Hf; [|done].
  destruct (checkParamLengths _); [done|]. intros Hh.
  apply bind_inr in Hh as (w1 & [] & Hd & Hh). unfold declare in Hd. run_in Hd.
  destruct (Get form "client_id" =? "")%string; [done|].
  destruct (da_clients h !! _) as [c|] eqn:Hc; [|done].
  destruct (Secret c =? "")%string eqn:Hs; [|done]. destruct (Allows c _) eqn:Ha; [|done]. cbn [negb] in Hh.
  apply bind_inr in Hh as (w2 & dc & Hm & Hh). run_in Hh. unfold mint in Hm.
  apply bind_inr in Hm as (w3 & now_ & Hn & Hm). run_in Hn. apply mint_attempts_inr in Hm as Hsv.
  apply String.eqb_eq in Hs. exists form, c, dc. do 4 (split; [done|]). split; [exact Hsv|].
  destruct Hsv as (i & b & uc & s & _ & _ & Hwf & -> & _). split; [done|]. split; [done|].
  split; [intros typed; by apply format_typed_back|]. split; [|done].
  eexists _, [("user_code", formatUserCode uc)].
  split; [|split; [by apply ParseQuery_one|done]]. cbn [db_VerificationURIComplete db_VerificationURI device_response do_Body].
  by rewrite append_assoc.
Qed.

End AuthorizationFacts.

(** ** The bounce through the sign-in *)

Section BounceFacts.
Context `{BounceJSON} `{Env} {S : Type}.
Implicit Types (u : DeviceUI) (w : World S).

Lemma open_bounce_iff u st p :
  open_bounce u st = inr p <->
  exists raw, authentic (du_signingKey u) macLabelDeviceBounceState st raw /\ json_Unmarshal raw = Some p.
Proof.
  unfold open_bounce. split.
  - destruct (Cut st ".") as [[a b]|] eqn:Hc; [|done]. apply Cut_Some in Hc as [-> Ha].
    destruct (a =? "")%string eqn:Ea; [done|]. destruct (b =? "")%string eqn:Eb; [done|]. cbn [orb].
    destruct (RawURL_Decode a) as [raw|] eqn:Da; [|done]. destruct (RawURL_Decode b) as [m|] eqn:Db; [|done].
    destruct (ConstantTimeCompare _ _) eqn:Hm; [|done]. apply ConstantTimeCompare_true in Hm as ->.
    destruct (json_Unmarshal raw) as [p'|] eqn:Hj; [|done]. intros [= <-]. solve_bool.
    exists raw. split; [by exists a, b|done].
  - intros (raw & (a & b & -> & Ha & Hna & Hnb & Da & Db) & Hj).
    assert (Cut (a +:+ "." +:+ b) "." = Some (a, b)) as -> by (by apply Cut_Some).
    rewrite (proj2 (String.eqb_neq _ _) Hna), (proj2 (String.eqb_neq _ _) Hnb). cbn [orb].
    by rewrite Da, Db, (proj2 (ConstantTimeCompare_true _ _) eq_refl), Hj.
Qed.

(** What a verified state proves. *)
Definition bounce_vouches u st (t : time) (uc : string) : Prop :=
  exists raw p, authentic (du_signingKey u) macLabelDeviceBounceState st raw /\ json_Unmarshal raw = Some p /\
    Unix t <= bo_Exp p /\ uc = canonicalUserCode (bo_UserCode p) /\ uc <> "".

Lemma verifyBounceState_inr u st w w' uc :
  verifyBounceState u st w = (w', inr (inr uc)) ->
  bounce_vouches u st (clock (w_tick w)) uc /\ w_store w' = w_store w.
Proof.
  unfold verifyBounceState. destruct (open_bounce u st) as [e|p] eqn:Ho; [done|]. intros Hv.
  apply open_bounce_iff in Ho as (raw & Ha & Hj).
  apply bind_inr in Hv as (w1 & now_ & Hn & Hv). run_in Hn. destruct (bo_Exp p <? _) eqn:He; [done|].
  destruct (_ =? _)%string eqn:Hc; [done|]. run_in Hv. solve_bool. split; [|done]. by exists raw, p.
Qed.

Lemma all_ascii (p : ascii -> bool) s :
  (forall c, p c = true -> (code c <? 128)%N = true) -> all_bytes p s = true -> is_ascii s = true.
Proof.
  intros Hp. induction s as [|c s IH]; [done|]. cbn [all_bytes is_ascii]. intros [Hc Hs]%andb_true_iff.
  by rewrite (Hp _ Hc), IH.
Qed.

Lemma canonical_char_ascii c : canonical_char c = true -> (code c <? 128)%N = true.
Proof. destruct c as [[][][][][][][][]]; vm_compute; done. Qed.
Lemma url_char_ascii c : url_char c = true -> (code c <? 128)%N = true.
Proof. destruct c as [[][][][][][][][]]; vm_compute; done. Qed.

Context `{!BounceJSONSpec}.

(** The bounce state comes back as it was signed: what [signBounceState] made
    for a canonical user code verifies, at any later request and however often,
    to exactly that user code until ten minutes (to the second) have passed,
    and to an error afterwards. *)
Theorem bounce_state_roundtrip u uc w w1 st :
  canonicalUserCode uc = uc -> uc <> "" -> signBounceState u uc w = (w1, inr st) ->
  forall w2 : World S, exists w3,
    w_store w3 = w_store w2 /\
    verifyBounceState u st w2 =
      (w3, inr (if Unix (clock (w_tick w) + deviceStateTTL) <? Unix (clock (w_tick w2))
                then inl (Opaque "state expired") else inr uc)).
Proof.
  intros Hc Hne Hs w2. unfold signBounceState in Hs. apply bind_inr in Hs as (wa & b & Hb & Hs). run_in Hb.
  destruct (entropy (w_draw w) _) as [b|]; [|done]. apply bind_inr in Hs as (wb & t & Ht & Hs).
  run_in Ht. injection Hs as _ <-.
  set (p := mkBounce _ _ _).
  assert (open_bounce u (RawURL_Encode (json_Marshal p) +:+ "." +:+
    RawURL_Encode (labeledMAC (du_signingKey u) macLabelDeviceBounceState (json_Marshal p))) = inr p) as Ho.
  { apply open_bounce_iff. exists (json_Marshal p). split; [apply authentic_sign, json_nonempty|].
    apply json_roundtrip; cbn [bo_UserCode bo_Nonce p].
    - rewrite <- Hc. eapply all_ascii; [apply canonical_char_ascii|apply canonical_chars].
    - eapply all_ascii; [apply url_char_ascii|apply RawURL_Encode_chars]. }
  unfold verifyBounceState. rewrite Ho. unfold mbind, M_bind, now. cbn [bo_Exp bo_UserCode p].
  unfold time_Add. rewrite Hc, (proj2 (String.eqb_neq _ _) Hne).
  exists (mkWorld (w_store w2) (Datatypes.S (w_tick w2)) (w_draw w2) (w_trace w2) (w_memo w2)).
  split; [done|]. by destruct (_ <? _).
Qed.

End BounceFacts.

Section PageFacts.
Context `{Unicode} `{URLParser} `{BounceJSON} `{Env} {S : Type}.
Context `{TokenStore S} `{DeviceCodeStore S} `{BrowserSessionStore S} `{AttemptLimits S}.
Implicit Types (u : DeviceUI) (w : World S).

Lemma attempt_inr {A} (m : M S A) w w' r : attempt m w = (w', inr r) -> m w = (w', r).
Proof. unfold attempt. destruct (m w). by intros [= <- <-]. Qed.

Lemma IssueCookie_inr m id w w' sid ck :
  IssueCookie m id w = (w', inr (sid, ck)) ->
  exists b, entropy (w_draw w) sessionSIDEntropyBytes = Some b /\ sid = RawURL_Encode b /\
    ck = sessionCookie m (signCookie m sid) (Z.quot (sm_ttl m) Second) /\
    SaveBrowserSession (mkBrowserSession sid (id_ConnectorID id) (id_Subject id) (id_Email id) (clock (w_tick w))
      (time_Add (clock (w_tick w)) (sm_ttl m))) (w_store w) = (w_store w', None).
Proof.
  unfold IssueCookie. intros Hi. apply bind_inr in Hi as (w1 & sid' & Hs & Hi).
  unfold randomSID in Hs. apply bind_inr in Hs as (w0 & b & Hb & Hs). run_in Hb.
  destruct (entropy (w_draw w) _) as [b|]; [|done]. run_in Hs.
  apply bind_inr in Hi as (w2 & [] & Hd & Hi). unfold declare in Hd. run_in Hd.
  apply bind_inr in Hi as (w3 & [] & Hd & Hi). unfold declareIdentity, declare in Hd. run_in Hd.
  apply bind_inr in Hi as (w4 & t & Ht & Hi). run_in Ht.
  apply bind_inr in Hi as (w5 & e & Hs & Hi). apply on_store_inr in Hs as (e' & [= <-] & Hs & _).
  destruct e; [done|]. injection Hi as <- <- <-. by exists b.
Qed.

(** What the sign-in callback has established when it redirects to the confirm
    page with a session cookie. *)
Definition signed_in u c st w w' (loc ck : string) : Prop :=
  exists uc wr wi rd sid,
    bounce_vouches u st (clock (w_tick w)) uc /\ w_store wr = w_store w /\
    RedeemAuthorizationCode (du_redeemer u)
      (mkRedemptionRequest c (du_internalClientID u) (du_issuer u +:+ DeviceSSOCallbackPath) ""
         (du_internalClientSecret u)) wr = (wi, inr rd) /\
    (exists b, entropy (w_draw wi) sessionSIDEntropyBytes = Some b /\ sid = RawURL_Encode b) /\
    SaveBrowserSession
      (mkBrowserSession sid (id_ConnectorID (rd_Identity rd)) (id_Subject (rd_Identity rd))
         (id_Email (rd_Identity rd)) (clock (w_tick wi)) (time_Add (clock (w_tick wi)) (sm_ttl (du_sessions u))))
      (w_store wi) = (w_store w', None) /\
    ck = Cookie_String (sessionCookie (du_sessions u) (signCookie (du_sessions u) sid)
                          (Z.quot (sm_ttl (du_sessions u)) Second)) /\
    loc = confirmRedirect u uc.

(** A browser leaves the device sign-in with a session only after it really
    signed in: when the callback redirects, the state authenticates an
    unexpired bounce for some user code, the authorization code was redeemed as
    the internal client at the internal redirect URI, a fresh 256-bit session
    was stored for exactly the identity the redeemed code names, the cookie set
    is that session's, and the confirm page it leads to is for the user code of
    the state. *)
Theorem sso_callback_sound u c st err w w' loc ck :
  handleSSOCallback u c st err w = (w', inr (Redirect loc ck)) -> signed_in u c st w w' loc ck.
Proof.
  unfold handleSSOCallback. intros Hh. apply bind_inr in Hh as (w1 & [] & Hd & Hh). unfold declare in Hd. run_in Hd.
  destruct ((err =? "access_denied")%string && negb (st =? "")%string).
  { unfold handleSSODenied in Hh. apply bind_inr in Hh as (w2 & [e|uc] & _ & Hh).
    - unfold rejected_state in Hh. apply bind_inr in Hh as (w3 & [] & _ & Hh). done.
    - apply bind_inr in Hh as (w3 & p & _ & Hh). done. }
  destruct ((c =? "")%string || (st =? "")%string); [by apply bind_inr in Hh as (w2 & [] & _ & Hh)|].
  apply bind_inr in Hh as (w2 & v & Hv & Hh). apply bind_inr in Hh as (w3 & [] & Hd & Hh).
  unfold declareUserCode, declare in Hd. run_in Hd.
  destruct v as [e|uc].
  { unfold rejected_state in Hh. by apply bind_inr in Hh as (w3 & [] & _ & Hh). }
  apply verifyBounceState_inr in Hv as [Hv Hst]. cbn in Hv, Hst.
  apply bind_inr in Hh as (w4 & [e|id] & Hr%attempt_inr & Hh); [by apply bind_inr in Hh as (w5 & [] & _ & Hh)|].
  unfold redeemAuthCode in Hr. apply bind_inr in Hr as (w5 & [e|rd] & Hrd%attempt_inr & Hr); [done|].
  injection Hr as -> <-.
  apply bind_inr in Hh as (w6 & [e|[sid ck']] & Hi%attempt_inr & Hh); [done|]. injection Hh as -> <- <-.
  apply IssueCookie_inr in Hi as (b & Hb & Hsid & -> & Hsave).
  eexists uc, _, w4, rd, sid. split; [done|].
  split; [|split; [exact Hrd|]]; [exact Hst|]. split; [by exists b|]. done.
Qed.

(** ** Approve and deny *)

(** What stands behind a decision that took effect: the request came from the
    issuer's page, its session is live, and its CSRF token is the session's. *)
Definition decision_made u ip i (approve : bool) w : Prop :=
  originAllowed u (dd_Origin i) (dd_Referer i) = true /\
  exists form w1 bs w1' w2 s,
    ParseQuery (dd_RawBody i) = Some form /\
    Session_Get (du_sessions u) (dd_Cookie i) w = (w1, inr bs) /\ Get form "csrf_token" = bs_SID bs /\
    w_store w1' = w_store w1 /\ spendUserCodeAttempt ip (bs_SID bs) w1' = (w2, inr true) /\
    let canonical := canonicalUserCode (Get form "user_code") in
    canonical <> "" /\
    if approve
    then (exists g, du_authorizer u (bs_Email bs) = inr g /\ Empty g = false) /\
         ApproveDeviceCode canonical (session_identity bs) (clock (w_tick w2)) (w_store w2) = (s, None)
    else DenyDeviceCode canonical (clock (w_tick w2)) (w_store w2) = (s, None).

Lemma refuse_body u bs canonical w w' p :
  refuseIfNoAccess u bs canonical w = (w', inr (Some p)) -> ho_Body p = NoAccess.
Proof.
  unfold refuseIfNoAccess. destruct (permitted _ _) as [e|[g []]]; [done..|]. intros Hr.
  apply bind_inr in Hr as (w1 & [] & _ & Hr). apply bind_inr in Hr as (w2 & [] & _ & Hr).
  apply bind_inr in Hr as (w3 & p' & Hd & Hr). injection Hr as _ <-. unfold denyForNoAccess in Hd.
  apply bind_inr in Hd as (w4 & t & _ & Hd). apply bind_inr in Hd as (w5 & e & _ & Hd).
  destruct e as [e|]; [destruct (_ || _)|]; by run_in Hd.
Qed.

Lemma refuse_none u bs canonical w w' :
  refuseIfNoAccess u bs canonical w = (w', inr None) ->
  w' = w /\ exists g, du_authorizer u (bs_Email bs) = inr g /\ Empty g = false.
Proof.
  unfold refuseIfNoAccess, permitted. destruct (du_authorizer u _) as [e|g]; [done|].
  destruct (negb (Empty g)) eqn:He; [|intros Hr; by repeat (apply bind_inr in Hr as (? & ? & _ & Hr))].
  intros [= <-]. apply negb_true_iff in He. eauto.
Qed.

(** C31. A device is approved only by its user: when the approve (or deny) request
    is answered with the success page, it came from the issuer's own page, with
    the cookie of a live session and that session's CSRF token, an attempt was
    spent for it before the code was touched, and the store recorded the
    decision for the user code of the form; an approval records the session's
    own identity, and the resolver grants that identity something at that very
    moment. *)
Theorem device_decision_sound u ip i approve w w' out :
  handleDecision u ip i approve w = (w', inr out) -> ho_Body out = (if approve then Approved else Denied) ->
  decision_made u ip i approve w.
Proof.
  unfold handleDecision. destruct (originAllowed u _ _) eqn:Ho; cbn [negb].
  2:{ intros [= _ <-]. by destruct approve. }
  destruct (ParseQuery _) as [form|] eqn:Hf; [|intros [= _ <-]; by destruct approve].
  intros Hh Hb. apply bind_inr in Hh as (w1 & [e|bs] & Hg%attempt_inr & Hh).
  { destruct (errors_Is e _); [|done]. injection Hh as _ <-. by destruct approve. }
  destruct (ConstantTimeCompare _ _) eqn:Hc; cbn [negb] in Hh; [|injection Hh as _ <-; by destruct approve].
  apply ConstantTimeCompare_true in Hc.
  apply bind_inr in Hh as (w1' & [] & Hd & Hh). unfold declareUserCode, declare in Hd. injection Hd as <-.
  destruct (_ =? "")%string eqn:Hcan; [injection Hh as _ <-; by destruct approve|]. apply String.eqb_neq in Hcan.
  apply bind_inr in Hh as (w2 & [] & Hs & Hh); cbn [negb] in Hh; [|injection Hh as _ <-; by destruct approve].
  apply bind_inr in Hh as (w3 & [p|] & Hr & Hh).
  { injection Hh as _ <-. destruct approve; [|done]. apply refuse_body in Hr. cbn in Hb. congruence. }
  apply bind_inr in Hh as (w4 & t & Ht & Hh). injection Ht as <- <-.
  apply bind_inr in Hh as (w5 & e & He & Hh). split; [done|].
  destruct e as [e|]; [destruct (_ || _); [|done]; injection Hh as _ <-; by destruct approve|].
  eexists form, w1, bs, _, w2, (w_store w5). do 3 (split; [done|]). split; [|split; [exact Hs|]]; [done|].
  split; [done|]. destruct approve.
  - apply refuse_none in Hr as [-> Hg']. split; [done|]. by apply on_store_inr in He as (e & [= <-] & He & _).
  - injection Hr as <-. by apply on_store_inr in He as (e & [= <-] & He & _).
Qed.

(** A forged decision does nothing: a request that is not from the issuer's
    page, or is malformed, leaves the world untouched; one without a live
    session, or whose CSRF token is not its session's, stops at the session
    lookup, so no attempt is spent and no device code is read or changed; and
    none of them is answered with a success page. *)
Theorem forged_decision_inert u ip i approve w w' r :
  handleDecision u ip i approve w = (w', r) ->
  (originAllowed u (dd_Origin i) (dd_Referer i) = false \/ ParseQuery (dd_RawBody i) = None -> w' = w) /\
  (forall form w1 g,
     originAllowed u (dd_Origin i) (dd_Referer i) = true -> ParseQuery (dd_RawBody i) = Some form ->
     Session_Get (du_sessions u) (dd_Cookie i) w = (w1, g) ->
     (forall bs, g = inr bs -> Get form "csrf_token" <> bs_SID bs) ->
     w' = w1 /\ forall out, r = inr out -> exists reason, ho_Body out = ErrorPage reason).
Proof.
  unfold handleDecision. intros Hh. split.
  - intros Hbad. destruct (originAllowed u _ _); cbn [negb] in Hh; [|by injection Hh].
    destruct Hbad as [Hbad|Hbad]; [done|]. rewrite Hbad in Hh. by injection Hh.
  - intros form w1 g Ho Hf Hg Hcs. rewrite Ho, Hf in Hh. cbn [negb] in Hh.
    unfold mbind, M_bind, attempt in Hh. rewrite Hg in Hh. destruct g as [e|bs].
    + destruct (errors_Is e _); injection Hh as <- <-; (split; [done|]); intros out [= <-]. by eexists.
    + destruct (ConstantTimeCompare _ _) eqn:Hc; cbn [negb] in Hh.
      { apply ConstantTimeCompare_true in Hc. by destruct (Hcs bs eq_refl). }
      injection Hh as <- <-. split; [done|]. intros out [= <-]. by eexists.
Qed.

End PageFacts.
