(* ===== verification/DeviceBudget.v ===== *)
(** * Guessing user codes is bounded

    The verification pages together with the token-bucket limiter of Ratelimit.v:
    however requests to the entry form, the confirm page and the decision
    endpoint are mixed, the failed guesses a client address gets answers to stay
    within its budget. *)

From Stdlib Require Import Lqa.
From S2P Require Import Prelude GoStrings GoErrors GoEncoding GoFloat GoURL GoHttp Ratelimit Perms Oidc Client.
From S2P Require Import Binding Signer Token Session Login Device TokenFacts DeviceFacts.

#[local] Open Scope Z_scope.

(** ** Runs of the limiter, concatenated *)

Section RunFacts.
Context `{Codegen}.

Lemma run_ops_app ops ops' l :
  (run_ops (ops ++ ops') l).1 = (run_ops ops' (run_ops ops l).1).1 /\
  forall k, (run_ops (ops ++ ops') l).2 k = (run_ops ops l).2 k + (run_ops ops' (run_ops ops l).1).2 k.
Proof.
  revert l. induction ops as [|o ops IH]; intros l; [done|]. cbn [app run_ops].
  destruct (run_op o l) as [l1 g1]. destruct (IH l1) as [H1 H2]. destruct (run_ops (ops ++ ops') l1) as [l2 g2].
  destruct (run_ops ops l1) as [l3 g3]. cbn [fst snd] in *. split; [done|]. intros k. rewrite H2. lia.
Qed.

Lemma in_order_app t t' ops ops' :
  in_order t ops -> end_time t ops <= t' -> in_order t' ops' -> in_order t (ops ++ ops').
Proof.
  revert t. induction ops as [|o ops IH]; intros t; cbn [app].
  - unfold end_time. cbn. intros _ Hle Ho. destruct ops' as [|o' ops']; [done|]. destruct Ho. cbn. split; [lia|done].
  - intros [H1 H2] He Ho. split; [done|]. rewrite end_time_cons in He. by apply IH.
Qed.

Lemma end_time_app t t' ops ops' :
  in_order t ops -> end_time t ops <= t' -> end_time t (ops ++ ops') <= Z.max t' (end_time t' ops').
Proof.
  intros Ho He. unfold end_time in *. rewrite fmap_app. destruct ops' as [|o' ops'] using rev_ind.
  - rewrite app_nil_r. cbn. lia.
  - rewrite fmap_app. cbn [fmap list_fmap]. rewrite app_assoc, !last_snoc. cbn. lia.
Qed.

Lemma run_ops_other ops l key k :
  Forall (fun o => op_key o.2 = key) ops -> k <> key -> (run_ops ops l).2 k = 0.
Proof.
  revert l. induction ops as [|[t o] ops IH]; intros l HF Hk; [done|]. apply Forall_cons in HF as [Ho HF].
  cbn [run_ops]. destruct (run_op (t, o) l) as [l1 g1] eqn:E. specialize (IH l1 HF Hk).
  destruct (run_ops ops l1) as [l2 g2]. cbn [fst snd] in *. rewrite IH, Z.add_0_r.
  destruct o as [ka|ka]; cbn in Ho; subst ka; unfold run_op in E; cbn [snd fst] in E.
  - destruct (Limiter_Allow l key t) as [l' ok]. injection E as <- <-.
    rewrite (proj2 (String.eqb_neq key k)) by done. by rewrite andb_false_r.
  - injection E as <- <-. by rewrite (proj2 (String.eqb_neq key k)) by done.
Qed.

End RunFacts.

Section Budget.
Context `{Unicode} `{URLParser} `{BounceJSON} `{Codegen} `{Env} {S : Type}.
Context `{TokenStore S} `{DeviceCodeStore S} `{BrowserSessionStore S}.
Abbreviation W := (World (Server S)).
Implicit Types (u : DeviceUI) (w : W).

(** ** What a request does to the address limiter *)

Definition ipl w : Limiter := sv_ipAttempts (w_store w).

(** Between [w] and [w'] the limiter served exactly operations of key [ip], at
    the clock readings in between, and granted [n] net of refunds. *)
Definition charged (ip : string) (len : nat) (n : Z) w w' : Prop :=
  exists ops,
    ipl w' = (run_ops ops (ipl w)).1 /\ (run_ops ops (ipl w)).2 ip = n /\
    Forall (fun o => op_key o.2 = ip) ops /\ (length ops <= len)%nat /\ (w_tick w <= w_tick w')%nat /\
    in_order (clock (w_tick w)) ops /\ end_time (clock (w_tick w)) ops <= clock (w_tick w').

(** Nothing at the limiter. *)
Definition quiet w w' : Prop := ipl w' = ipl w /\ (w_tick w <= w_tick w')%nat.

#[local] Instance quiet_preorder : PreOrder quiet.
Proof.
  split; [intros w; split; [done|lia]|]. intros w1 w2 w3 [K1 K2] [K3 K4]. split; [congruence|lia].
Qed.

Lemma quiet_emit ev : respects quiet (@emit (Server S) ev).
Proof. intros w w' r [= <- <-]. split; [done|cbn; lia]. Qed.
Lemma quiet_now : respects quiet (@now _ (Server S)).
Proof. intros w w' r [= <- <-]. split; [done|]. cbn. lia. Qed.
Lemma quiet_rand n : respects quiet (@rand_Read _ (Server S) n).
Proof. intros w w' r [= <- <-]. split; [done|cbn; lia]. Qed.
Lemma quiet_store {A} (op : S -> S * A) : respects quiet (on_store (in_store op)).
Proof. intros w w' r. unfold on_store, in_store. destruct (op _). intros [= <- <-]. split; [done|cbn; lia]. Qed.
Lemma quiet_session {A} (op : Limiter -> Limiter * A) : respects quiet (on_store (on_session op)).
Proof. intros w w' r. unfold on_store, on_session. destruct (op _). intros [= <- <-]. split; [done|cbn; lia]. Qed.

Lemma quiet_session_allow sid t : respects quiet (on_store (session_Allow (S := Server S) sid t)).
Proof. apply quiet_session. Qed.
Lemma quiet_session_refund sid : respects quiet (on_store (session_Refund (S := Server S) sid)).
Proof. apply quiet_session. Qed.

Hint Resolve quiet_emit quiet_now quiet_rand : tg.
Hint Extern 1 (respects quiet (on_store _)) => apply quiet_store : tg.
Hint Extern 1 (respects quiet (on_store _)) => apply quiet_session : tg.

Lemma quiet_Session_Get m header : respects quiet (Session_Get (S := Server S) m header).
Proof. unfold Session_Get, declareIdentity, declare. respects. Qed.
Hint Resolve quiet_Session_Get : tg.

Lemma quiet_usable c : respects quiet (userCodeUsable (S := Server S) c).
Proof. unfold userCodeUsable. respects. Qed.
Lemma quiet_refuse u bs c : respects quiet (refuseIfNoAccess (S := Server S) u bs c).
Proof. unfold refuseIfNoAccess, denyForNoAccess. respects. Qed.
Lemma quiet_sign u c : respects quiet (signBounceState (S := Server S) u c).
Proof. unfold signBounceState. respects. Qed.
Lemma quiet_declare raw : respects quiet (declareUserCode (S := Server S) raw).
Proof. unfold declareUserCode, declare. respects. Qed.
Hint Resolve quiet_usable quiet_refuse quiet_sign quiet_declare : tg.

Context (Hclock : monotone_clock).

Lemma quiet_charged ip w w' : quiet w w' -> charged ip 0 0 w w'.
Proof.
  intros [Hq Ht]. exists []. cbn. unfold end_time. cbn. repeat (split; [done || constructor|]). by apply Hclock.
Qed.

Lemma charged_trans ip l1 l2 n1 n2 w1 w2 w3 :
  charged ip l1 n1 w1 w2 -> charged ip l2 n2 w2 w3 -> charged ip (l1 + l2) (n1 + n2) w1 w3.
Proof.
  intros (o1 & A1 & B1 & C1 & D1 & E1 & F1 & G1) (o2 & A2 & B2 & C2 & D2 & E2 & F2 & G2).
  exists (o1 ++ o2). destruct (run_ops_app o1 o2 (ipl w1)) as [R1 R2]. rewrite <- A1 in R1, R2.
  split; [congruence|]. split; [rewrite R2; lia|]. split; [by apply Forall_app|].
  split; [rewrite length_app; lia|]. split; [lia|]. split; [by eapply in_order_app|].
  pose proof (end_time_app _ _ o1 o2 F1 G1). pose proof (in_order_end _ _ F2). lia.
Qed.

Lemma charged_more ip l l' n w w' : charged ip l n w w' -> (l <= l')%nat -> charged ip l' n w w'.
Proof. intros (o & A & B & C & D & E) Hl. exists o. repeat (split; [done|]). split; [lia|done]. Qed.

Lemma charged_quiet_l ip l n w1 w2 w3 : quiet w1 w2 -> charged ip l n w2 w3 -> charged ip l n w1 w3.
Proof. intros Hq%(quiet_charged ip) Hc. by pose proof (charged_trans _ _ _ _ _ _ _ _ Hq Hc). Qed.

Lemma charged_quiet_r ip l n w1 w2 w3 : charged ip l n w1 w2 -> quiet w2 w3 -> charged ip l n w1 w3.
Proof.
  intros Hc Hq%(quiet_charged ip). pose proof (charged_trans _ _ _ _ _ _ _ _ Hc Hq) as Hx.
  by rewrite Z.add_0_r, Nat.add_0_r in Hx.
Qed.

Lemma charged_refund ip w w' r : on_store (ip_Refund ip) w = (w', r) -> charged ip 1 (-1) w w'.
Proof.
  intros [= <- _]. exists [(clock (w_tick w), OpRefund ip)]. cbn. rewrite String.eqb_refl. unfold end_time, ipl. cbn.
  repeat (split; [done || lia|]). repeat split; try lia. by repeat constructor.
Qed.

(** The world after reading the clock once. *)
Definition ticked w : W := mkWorld (w_store w) (Datatypes.S (w_tick w)) (w_draw w) (w_trace w) (w_memo w).

Lemma charged_allow ip w w' r :
  on_store (ip_Allow ip (clock (w_tick w))) (ticked w) = (w', r) ->
  exists ok : bool, r = inr ok /\ charged ip 1 (if ok then 1 else 0) w w'.
Proof.
  unfold on_store, ip_Allow. cbn. unfold on_ip. fold (ipl w).
  destruct (Limiter_Allow (ipl w) ip (clock (w_tick w))) as [l ok] eqn:E. intros [= <- <-]. exists ok. split; [done|].
  exists [(clock (w_tick w), OpAllow ip)]. cbn [run_ops run_op fst snd]. rewrite E. cbn [fst snd].
  rewrite String.eqb_refl, andb_true_r, Z.add_0_r. unfold end_time, ipl. cbn [w_store w_tick sv_ipAttempts].
  split; [done|]. split; [done|]. split; [by repeat constructor|]. cbn.
  pose proof (Hclock (w_tick w) (Datatypes.S (w_tick w)) ltac:(lia)). repeat split; lia.
Qed.

Lemma charged_spend ip sid w w' r :
  spendUserCodeAttempt ip sid w = (w', r) ->
  exists ok : bool, r = inr ok /\ charged ip 2 (if ok then 1 else 0) w w'.
Proof.
  unfold spendUserCodeAttempt. intros Hs. apply bind_cases in Hs as [(e & [=] & _)|(w1 & t & [= <- <-] & Hs)].
  apply bind_cases in Hs as [(e & Ha & ->)|(w2 & ok & Ha & Hs)]; apply charged_allow in Ha as (ok' & [= <-] & Ha).
  destruct ok; cbn [negb] in Hs; [|injection Hs as <- <-; exists false; split; [done|eapply charged_more; [exact Ha|lia]]].
  destruct (sid =? "")%string; [injection Hs as <- <-; exists true; split; [done|eapply charged_more; [exact Ha|lia]]|].
  apply bind_cases in Hs as [(e & [=] & _)|(w3 & t & Ht & Hs)]. apply quiet_now in Ht.
  apply bind_cases in Hs as [(e & Hse & ->)|(w4 & ok & Hse & Hs)].
  { apply on_store_inr in Hse as (? & [=] & _). }
  apply quiet_session_allow in Hse. destruct ok.
  - injection Hs as <- <-. exists true. split; [done|]. eapply charged_more; [|by apply Nat.le_succ_diag_r].
    eapply charged_quiet_r; [|exact Hse]. by eapply charged_quiet_r.
  - apply bind_cases in Hs as [(e & Hr & ->)|(w5 & [] & Hr & Hs)]; [apply on_store_inr in Hr as (? & [=] & _)|].
    apply charged_refund in Hr. injection Hs as <- <-. exists false. split; [done|].
    assert (charged ip 1 1 w w4) as Hw4 by (eapply charged_quiet_r; [|exact Hse]; by eapply charged_quiet_r).
    exact (charged_trans _ _ _ _ _ _ _ _ Hw4 Hr).
Qed.

Lemma charged_refunds ip sid w w' r : refundUserCodeAttempt ip sid w = (w', r) -> charged ip 1 (-1) w w'.
Proof.
  unfold refundUserCodeAttempt. intros [(e & Hr & ->)|(w1 & [] & Hr & Hs)]%bind_cases; apply charged_refund in Hr; [done|].
  eapply charged_quiet_r; [exact Hr|]. destruct (sid =? "")%string; [by injection Hs as <- <-|].
  by eapply quiet_session_refund.
Qed.

(** ** What each page charges

    [charges ip l k m]: with [k] attempts already taken for it, a run of [m] takes
    at least as many as its answer counts for ([cost]). *)
Section Charges.
Context {A : Type} (cost : A -> Z).

Definition answer_cost (r : error + A) : Z := match r with inl _ => 0 | inr x => cost x end.

Definition charges (ip : string) (l : nat) (k : Z) (m : M (Server S) A) : Prop :=
  forall w w' r, m w = (w', r) -> exists n, answer_cost r <= k + n /\ charged ip l n w w'.

Lemma charges_ret ip l k x : cost x <= k -> charges ip l k (mret x).
Proof.
  intros Hx w w' r [= <- <-]. exists 0. split; [cbn; lia|]. eapply charged_more; [by apply quiet_charged|lia].
Qed.

Lemma charges_throw ip l k e : 0 <= k -> charges ip l k (throw e).
Proof.
  intros Hk w w' r [= <- <-]. exists 0. split; [cbn; lia|]. eapply charged_more; [by apply quiet_charged|lia].
Qed.

Lemma charges_quiet {B} ip l k (m : M (Server S) B) (f : B -> M (Server S) A) :
  0 <= k -> respects quiet m -> (forall x, charges ip l k (f x)) -> charges ip l k (m ≫= f).
Proof.
  intros Hk Hm Hf w w' r [(e & He & ->)|(w1 & x & Hx & Hr)]%bind_cases.
  - exists 0. split; [cbn; lia|]. eapply charged_more; [apply quiet_charged; by eapply Hm|lia].
  - apply Hf in Hr as (n & Hn & Hr). exists n. split; [done|]. eapply charged_quiet_l; [by eapply Hm|done].
Qed.

Lemma charges_spend ip sid l f :
  charges ip l 1 (f true) -> charges ip l 0 (f false) -> charges ip (2 + l) 0 (spendUserCodeAttempt ip sid ≫= f).
Proof.
  intros Ht Hf w w' r [(e & He & ->)|(w1 & x & Hx & Hr)]%bind_cases.
  - apply charged_spend in He as (? & [=] & _).
  - apply charged_spend in Hx as (ok & [= ->] & Hx).
    destruct ok; [apply Ht in Hr as (n & Hn & Hr)|apply Hf in Hr as (n & Hn & Hr)]; eexists;
      (split; [|exact (charged_trans _ _ _ _ _ _ _ _ Hx Hr)]); lia.
Qed.

Lemma charges_refund ip sid l k f :
  charges ip l (k - 1) (f tt) -> charges ip (1 + l) k (refundUserCodeAttempt ip sid ≫= f).
Proof.
  intros Hf w w' r [(e & He & ->)|(w1 & [] & Hx & Hr)]%bind_cases.
  - unfold refundUserCodeAttempt in He. exfalso.
    apply bind_cases in He as [(e' & [=] & _)|(? & [] & _ & He)]. destruct (sid =? "")%string; done.
  - apply charged_refunds in Hx. apply Hf in Hr as (n & Hn & Hr). eexists.
    split; [|exact (charged_trans _ _ _ _ _ _ _ _ Hx Hr)]. lia.
Qed.

(** A refusal for lack of permissions shows the no-access page. *)
Lemma charges_refuse ip l k u bs c f :
  0 <= k -> (forall p, ho_Body p = NoAccess -> charges ip l k (f (Some p))) -> charges ip l k (f None) ->
  charges ip l k (refuseIfNoAccess u bs c ≫= f).
Proof.
  intros Hk Hp Hn w w' r [(e & He & ->)|(w1 & x & Hx & Hr)]%bind_cases.
  - exists 0. split; [cbn; lia|]. eapply charged_more; [apply quiet_charged; by eapply quiet_refuse|lia].
  - assert (charges ip l k (f x)) as Hf by (destruct x as [p|]; [apply Hp; by eapply refuse_body in Hx|exact Hn]).
    apply Hf in Hr as (n & Hn' & Hr). exists n. split; [done|]. eapply charged_quiet_l; [by eapply quiet_refuse|done].
Qed.

End Charges.

(** An answer costs an attempt when it says that the code is not usable. *)
Definition page_cost (p : page) : Z :=
  match p with ErrorPage reason => if (reason =? msgUnusableUserCode)%string then 1 else 0 | _ => 0 end.
Definition html_cost (o : htmlOutput) : Z := page_cost (ho_Body o).
Definition redirect_cost (o : deviceRedirectOrPage) : Z := match o with Redirect _ _ => 0 | Page p => html_cost p end.

Lemma page_cost_le p : page_cost p <= 1.
Proof. destruct p; cbn; try lia. destruct (_ =? _)%string; lia. Qed.

Ltac charge :=
  repeat first
    [ progress intros
    | apply charges_ret; vm_compute; discriminate
    | match goal with E : ho_Body _ = NoAccess |- charges _ _ _ _ (mret _) =>
        apply charges_ret; unfold redirect_cost, html_cost; cbn; rewrite ?E; cbn; lia end
    | apply charges_throw; lia
    | apply charges_spend
    | apply charges_refund
    | apply charges_refuse; [lia|..]
    | apply charges_quiet; [lia|solve [respects]|]
    | match goal with |- charges _ _ _ _ (match ?x with _ => _ end) => destruct x end
    | match goal with |- charges _ _ _ _ (let '(_, _) := ?x in _) => destruct x end ].

Lemma charges_EnterPost u ip cookie body : charges redirect_cost ip 3 0 (handleEnterPost u ip cookie body).
Proof. unfold handleEnterPost. charge. Qed.

Lemma charges_Confirm u ip code_ cookie : charges redirect_cost ip 3 0 (handleConfirm u ip code_ cookie).
Proof. unfold handleConfirm. charge. Qed.

Lemma charges_Decision u ip i approve : charges html_cost ip 3 0 (handleDecision u ip i approve).
Proof. unfold handleDecision. destruct approve; charge. apply charges_ret, page_cost_le. Qed.

(** ** Any mix of requests *)

Inductive page_request :=
  | EnterPost (ip cookie body : string)
  | GetConfirm (ip user_code cookie : string)
  | Decide (ip : string) (i : deviceDecisionInput) (approve : bool).

Definition request_ip (q : page_request) : string :=
  match q with EnterPost ip _ _ | GetConfirm ip _ _ | Decide ip _ _ => ip end.

Definition page_body (o : deviceRedirectOrPage) : option page :=
  match o with Redirect _ _ => None | Page p => Some (ho_Body p) end.

(** The page a request is answered with, if any. *)
Definition serve_page u (q : page_request) w : W * option page :=
  match q with
  | EnterPost ip cookie body =>
      let (w', r) := handleEnterPost u ip cookie body w in
      (w', match r with inr o => page_body o | inl _ => None end)
  | GetConfirm ip user_code cookie =>
      let (w', r) := handleConfirm u ip user_code cookie w in
      (w', match r with inr o => page_body o | inl _ => None end)
  | Decide ip i approve =>
      let (w', r) := handleDecision u ip i approve w in
      (w', match r with inr o => Some (ho_Body o) | inl _ => None end)
  end.

Definition failed_guess (p : option page) : Z := match p with Some p => page_cost p | None => 0 end.

(** A run, counting the failed guesses answered to [ip]. *)
Fixpoint serve_pages u (qs : list page_request) w (ip : string) : W * Z :=
  match qs with
  | [] => (w, 0)
  | q :: qs =>
      let (w1, p) := serve_page u q w in
      let (w2, n) := serve_pages u qs w1 ip in
      (w2, (if (request_ip q =? ip)%string then failed_guess p else 0) + n)
  end.

Lemma serve_page_charged u q w w' p :
  serve_page u q w = (w', p) -> exists n, failed_guess p <= n /\ charged (request_ip q) 3 n w w'.
Proof.
  destruct q as [ip cookie body|ip uc cookie|ip i approve]; cbn [serve_page request_ip].
  - destruct (handleEnterPost u ip cookie body w) as [w1 r] eqn:E. intros [= <- <-].
    apply charges_EnterPost in E as (n & Hn & Hc). exists n. split; [|done]. by destruct r as [e|[]].
  - destruct (handleConfirm u ip uc cookie w) as [w1 r] eqn:E. intros [= <- <-].
    apply charges_Confirm in E as (n & Hn & Hc). exists n. split; [|done]. by destruct r as [e|[]].
  - destruct (handleDecision u ip i approve w) as [w1 r] eqn:E. intros [= <- <-].
    apply charges_Decision in E as (n & Hn & Hc). exists n. split; [|done]. by destruct r as [e|o].
Qed.

(** The limiter's side of a run of requests. *)
Lemma serve_pages_ops u qs w ip (K : gset string) :
  Forall (fun q => request_ip q ∈ K) qs ->
  exists ops, let r := run_ops ops (ipl w) in
    (serve_pages u qs w ip).2 <= r.2 ip /\ Forall (fun o => op_key o.2 ∈ K) ops /\
    (length ops <= 3 * length qs)%nat /\ in_order (clock (w_tick w)) ops /\
    end_time (clock (w_tick w)) ops <= clock (w_tick (serve_pages u qs w ip).1) /\
    (w_tick w <= w_tick (serve_pages u qs w ip).1)%nat.
Proof.
  revert w. induction qs as [|q qs IH]; intros w HK.
  { exists []. cbn. unfold end_time. cbn. repeat split; try lia. constructor. }
  apply Forall_cons in HK as [Hq HK]. cbn [serve_pages].
  destruct (serve_page u q w) as [w1 p] eqn:E. apply serve_page_charged in E as (n & Hn & o1 & A1 & B1 & C1 & D1 & E1 & F1 & G1).
  destruct (IH w1 HK) as (o2 & A2 & B2 & D2 & F2 & G2 & E2).
  destruct (serve_pages u qs w1 ip) as [w2 m]. cbn [fst snd length] in *. cbn zeta in *.
  exists (o1 ++ o2). destruct (run_ops_app o1 o2 (ipl w)) as [R1 R2]. rewrite <- A1 in R2.
  split; [|split; [|split; [|split; [|split]]]].
  - rewrite R2. destruct (request_ip q =? ip)%string eqn:Eip.
    + apply String.eqb_eq in Eip as <-. lia.
    + apply String.eqb_neq in Eip. rewrite (run_ops_other o1 _ (request_ip q) ip); [lia|done|done].
  - apply Forall_app. split; [|done]. eapply Forall_impl; [exact C1|]. by intros o ->.
  - rewrite length_app. lia.
  - by eapply in_order_app.
  - pose proof (end_time_app _ _ o1 o2 F1 G1). pose proof (in_order_end _ _ F2). lia.
  - lia.
Qed.

#[local] Open Scope Q_scope.

(** C32. User codes cannot be guessed faster than the budget: over any sequence of
    requests to the entry form, the confirm page and the approve and deny
    endpoints, from no more addresses than the limiter tracks and with a clock
    that does not run backwards, the answers telling one address that a code is
    not usable number at most the burst (twenty) plus the refill over the time
    of the run, up to float64 rounding; refunds for codes that were usable
    included. *)
Theorem guesses_bounded u qs w ip (K : gset string) :
  limiter_ok (ipl w) ->
  (forall b, In b (l_order (ipl w)) -> b_key b ∈ K /\ (b_last b <= clock (w_tick w))%Z) ->
  (Z.of_nat (size K) <= l_maxKeys (ipl w))%Z -> Forall (fun q => request_ip q ∈ K) qs ->
  inject_Z (serve_pages u qs w ip).2 <=
    l_burst (ipl w)
    + seconds_of (clock (w_tick (serve_pages u qs w ip).1) - clock (w_tick w)) * l_rate (ipl w)
    + inject_Z (6 * Z.of_nat (length qs)) * slack (ipl w).
Proof.
  intros Hl Hb HK Hq. destruct (serve_pages_ops u qs w ip K Hq) as (ops & Hn & Hk & Hlen & Ho & He & _).
  destruct (run_budget K (ipl w) ops ip (clock (w_tick w)) Hl Hb HK Ho Hk) as (_ & _ & Hbound).
  cbn zeta in *. pose proof (slack_nonneg _ Hl). destruct (ok_rate _ Hl) as [Hr _].
  eapply Qle_trans; [|eapply Qle_trans; [exact Hbound|]].
  - by rewrite <- Zle_Qle.
  - assert (seconds_of (end_time (clock (w_tick w)) ops - clock (w_tick w)) * l_rate (ipl w) <=
      seconds_of (clock (w_tick (serve_pages u qs w ip).1) - clock (w_tick w)) * l_rate (ipl w)).
    { apply Qmult_le_compat_r; [|done]. apply seconds_of_mono. lia. }
    assert (inject_Z (2 * Z.of_nat (length ops)) * slack (ipl w) <= inject_Z (6 * Z.of_nat (length qs)) * slack (ipl w)).
    { apply Qmult_le_compat_r; [|done]. rewrite <- Zle_Qle. lia. }
    lra.
Qed.

End Budget.
