(* ===== verification/TokenExamples.v ===== *)
(** * Runs of the token endpoint on SQLite

    A sign-in's requests to /token on a concrete database, evaluated, with the
    theorems of TokenFacts.v and TokenGrants.v applied to them. *)

From S2P Require Import Prelude GoStrings GoErrors GoEncoding GoCrypto GoURL Perms Oidc Client Keys.
From S2P Require Import Signer Sessions Sql Sqlite Token TokenFacts TokenGrants SqliteSessions.

Module TokenExample.
Import SignerExample ClientExample.

#[local] Instance ascii_unicode : Unicode := { unicode_lower s := s }.

(** Ticks of one second; draw [i] is [n] times the letter number [i]. *)
Definition letter (i : nat) : ascii := Ascii.ascii_of_nat (97 + i).
#[local] Instance example_env : Env := {
  clock i := 1000 * Second + Z.of_nat i * Second;
  entropy i n := Some (String.concat "" (repeat (String (letter i) "") n))
}.

Definition everyone_reads : PermissionResolver := fun _ => inr (Some (New [AddNamespace "default" RoleRead])).

Definition cfg : Token :=
  mkToken true signer1 (registry_clients example_registry) (Some {["google"]}) {["x.io"]} everyone_reads
    DefaultAccessTokenTTL DefaultRefreshTokenTTL DefaultRefreshMaxLifetime.

(** ** A sign-in of the public client [cli] *)

Definition verifier : string := "the-quick-brown-fox-jumps-over-the-lazy-dog".

Definition code1 : AuthCode :=
  mkAuthCode "CODE" "cli" "http://127.0.0.1:4711/callback" "google" "1" "a@x.io" "openid"
    (RawURL_Encode (sha256_Sum256 verifier)) "S256" "n" "" (900 * Second) (1500 * Second).

Definition db1 : DB := (sqlite_SaveAuthCode code1 emptyDB).1.

Definition w1 : World DB := mkWorld db1 0 0 [] None.

Definition redeem : call := mkCall cfg
  (mkTokenInput ("grant_type=authorization_code&client_id=cli&code=CODE&redirect_uri=http%3A%2F%2F127.0.0.1%3A4711%2Fcallback&code_verifier="
                 +:+ verifier) "").

Definition rotate (token : string) : call := mkCall cfg
  (mkTokenInput ("grant_type=refresh_token&client_id=cli&refresh_token=" +:+ token) "").

Lemma ok1 : store_inv (w_store w1).
Proof. constructor. Qed.

(** What request [i] of a run was answered with. *)
Definition answer (rs : list ((error * option string) + tokenOutput)) (i : nat) :=
  default (inl (Opaque "", None)) (rs !! i).

Definition refresh1 : string := "ZGRkZGRkZGRkZGRkZGRkZGRkZGRkZGRkZGRkZGRkZGQ".

Definition form_of (c : call) : Values := default [] (ParseQuery (in_RawBody (call_in c))).

Lemma redeem_presents : presents grantAuthorizationCode "code" (Hash "CODE") redeem.
Proof. exists (form_of redeem). split_and!; vm_compute; reflexivity. Qed.

Lemma rotate_presents : presents grantRefreshToken "refresh_token" (Hash refresh1) (rotate refresh1).
Proof. exists (form_of (rotate refresh1)). split_and!; vm_compute; reflexivity. Qed.

Lemma auth_code_single_use_witness : ~ succeeded (answer (serve [redeem; redeem] w1).2 1).
Proof.
  refine (auth_code_single_use (Hash "CODE") [redeem; redeem] w1 (serve [redeem; redeem] w1).1
            (serve [redeem; redeem] w1).2 0 1 redeem redeem
            (answer (serve [redeem; redeem] w1).2 0) _ ok1 _ _ eq_refl eq_refl _ _
            redeem_presents redeem_presents _);
    [apply surjective_pairing|lia|vm_compute; reflexivity|vm_compute; reflexivity|].
  eexists. vm_compute. reflexivity.
Defined.

Definition run2 : list call := [redeem; rotate refresh1; rotate refresh1].

Lemma refresh_token_single_use_witness : ~ succeeded (answer (serve run2 w1).2 2).
Proof.
  refine (refresh_token_single_use (Hash refresh1) run2 w1 (serve run2 w1).1
            (serve run2 w1).2 1 2 (rotate refresh1) (rotate refresh1)
            (answer (serve run2 w1).2 1) _ ok1 _ _ eq_refl eq_refl _ _
            rotate_presents rotate_presents _);
    [apply surjective_pairing|lia|vm_compute; reflexivity|vm_compute; reflexivity|].
  eexists. vm_compute. reflexivity.
Defined.

(** The world after the sign-in and one rotation. *)
Definition w3 : World DB := (serve [redeem; rotate refresh1] w1).1.

Lemma ok3 : store_inv (w_store w3).
Proof. exact (proj1 (serve_steps _ _ _ _ ok1 (surjective_pairing (serve [redeem; rotate refresh1] w1)))). Qed.

Definition row3 : TokenRow :=
  default (mkTokenRow zeroRefresh None None) (refresh_tokens (tables (w_store w3)) !! Hash refresh1).
Definition cli : Client := default (mkClient [] [] "") (example_registry !! "cli").
Definition reuse := handle cfg (call_in (rotate refresh1)) w3.

Lemma refresh_reuse_kills_family_witness :
  ~ succeeded reuse.2 /\
  ((exists e ch, reuse.2 = inl (e, ch) /\ driver_error e = true) \/
   (family_dead (row_family row3) (view (w_store (serve [redeem] reuse.1).1)) /\
    forall h i ci ri, token_in (row_family row3) h (view (w_store reuse.1)) -> [redeem] !! i = Some ci ->
      (serve [redeem] reuse.1).2 !! i = Some ri ->
      presents grantRefreshToken "refresh_token" h ci -> ~ succeeded ri)).
Proof.
  refine (refresh_reuse_kills_family cfg (call_in (rotate refresh1)) (form_of (rotate refresh1)) row3 cli
            w3 reuse.1 reuse.2 [redeem] (serve [redeem] reuse.1).1 (serve [redeem] reuse.1).2
            ok3 _ _ _ _ _ _ _ _ _ _);
    [vm_compute; reflexivity..|discriminate| | | | | |].
  all: first [apply surjective_pairing | vm_compute; reflexivity].
Defined.

Definition out1 : tokenOutput := match (handle cfg (call_in redeem) w1).2 with inr o => o | inl _ =>
  mkTokenOutput "" "" (mkTokenResponse "" "" 0 "" "") end.

Lemma success_has_permissions_witness : exists id clientID, minted_for (S := DB) cfg id clientID out1.
Proof.
  refine (success_has_permissions cfg (call_in redeem) w1 (handle cfg (call_in redeem) w1).1 out1 ok1 _).
  vm_compute. reflexivity.
Defined.

Definition grant1 := authorizationCodeGrant cfg (form_of redeem) "" w1.
Definition gout (r : error + tokenOutput) : tokenOutput :=
  match r with inr o => o | inl _ => mkTokenOutput "" "" (mkTokenResponse "" "" 0 "" "") end.

Lemma code_grant_sound_witness :
  exists c row s0,
    authenticateClient cfg "cli" "" GrantTypeAuthorizationCode = inr c /\
    steps (view (w_store w1)) s0 /\ codes s0 !! Hash "CODE" = Some row /\ cr_consumed row = None /\
    clock (w_tick w1) <= ac_ExpiresAt (cr_code row) /\ ac_ClientID (cr_code row) = "cli" /\
    ac_RedirectURI (cr_code row) = "http://127.0.0.1:4711/callback" /\
    (if (ac_CodeChallenge (cr_code row) =? "")%string then Secret c <> ""
     else validCodeVerifier verifier = true /\
          RawURL_Encode (sha256_Sum256 verifier) = ac_CodeChallenge (cr_code row)) /\
    minted_for (S := DB) cfg (mkIdentity (ac_ConnectorID (cr_code row)) (ac_Subject (cr_code row))
                    (ac_Email (cr_code row))) (ac_ClientID (cr_code row)) (gout grant1.2).
Proof.
  refine (code_grant_sound cfg (form_of redeem) "" w1 grant1.1 (gout grant1.2) ok1 _).
  vm_compute. reflexivity.
Defined.

(** The world after the sign-in, and the rotation of its refresh token. *)
Definition w2 : World DB := (serve [redeem] w1).1.
Definition grant2 := refreshTokenGrant cfg (form_of (rotate refresh1)) "" w2.

Lemma ok2 : store_inv (w_store w2).
Proof. exact (proj1 (serve_steps _ _ _ _ ok1 (surjective_pairing (serve [redeem] w1)))). Qed.

Lemma refresh_rotation_witness :
  exists row s0,
    steps (view (w_store w2)) s0 /\ tokens s0 !! Hash refresh1 = Some row /\ live row = true /\
    rt_ClientID (tr_refresh row) = "cli" /\
    clock (w_tick w2) <= rt_ExpiresAt (tr_refresh row) /\
    clock (w_tick w2) < rt_AuthTime (tr_refresh row) + DefaultRefreshMaxLifetime /\
    connectorConfigured cfg (rt_ConnectorID (tr_refresh row)) = true /\
    emailDomainAllowed {["x.io"]} (rt_Email (tr_refresh row)) = true /\
    exists row' s1, tokens s1 !! Hash (RefreshToken (Body (gout grant2.2))) = Some row' /\ live row' = true /\
      steps s1 (view (w_store grant2.1)) /\
      row_identity row' = row_identity row /\
      rt_ClientID (tr_refresh row') = rt_ClientID (tr_refresh row) /\
      (row_family row <> "" ->
         row_family row' = row_family row /\
         rt_AuthTime (tr_refresh row') = rt_AuthTime (tr_refresh row)) /\
      rt_ExpiresAt (tr_refresh row') <= rt_AuthTime (tr_refresh row') + DefaultRefreshMaxLifetime /\
      rt_ExpiresAt (tr_refresh row') <= rt_CreatedAt (tr_refresh row') + DefaultRefreshTokenTTL.
Proof.
  refine (refresh_rotation cfg (form_of (rotate refresh1)) "" w2 grant2.1 (gout grant2.2) ok2 _).
  vm_compute. reflexivity.
Defined.

Lemma token_counted_once_witness :
  exists evs label,
    label ∈ ["authorization_code"; "refresh_token"; "device_code"; "other"] /\
    Forall (fun ev => outcome_event ev = false) evs /\
    w_trace (handle cfg (call_in redeem) w1).1 = [] ++ evs ++ [Counted "tempogate.tokens_issued" [label]].
Proof.
  refine (token_counted_once cfg (call_in redeem) w1 (handle cfg (call_in redeem) w1).1 (inr out1) _).
  vm_compute. reflexivity.
Defined.

(** An unknown client presenting the code. *)
Definition stranger : tokenInput :=
  mkTokenInput "grant_type=authorization_code&client_id=evil&code=CODE" "".
Definition stranger_form : Values := default [] (ParseQuery (in_RawBody stranger)).

Lemma unauthenticated_changes_nothing_witness :
  w_store (handle cfg stranger w1).1 = w_store w1 /\ exists e' ch, (handle cfg stranger w1).2 = inl (e', ch) /\
    (http_status e' = StatusUnauthorized -> hasBasicScheme "" = true ->
     ch = Some ("Basic realm=" +:+ dquote +:+ "tempogate" +:+ dquote)).
Proof.
  refine (unauthenticated_changes_nothing cfg stranger stranger_form
            (oauthErr StatusUnauthorized "invalid_client" "unknown client") w1 (handle cfg stranger w1).1
            (handle cfg stranger w1).2 _ (or_introl (conj _ _)) (surjective_pairing _));
    vm_compute; reflexivity.
Defined.

(** ** A replay that finds no session *)

(** The same deployment once no rule grants the account anything. *)
Definition cfg_denied : Token :=
  mkToken true signer1 (registry_clients example_registry) (Some {["google"]}) {["x.io"]} denyAll
    DefaultAccessTokenTTL DefaultRefreshTokenTTL DefaultRefreshMaxLifetime.

Definition denied_run := serve [mkCall cfg_denied (call_in redeem); redeem] w1.

(** The first presentation is refused for lack of permissions (400), having
    consumed the code but stored no refresh token; a second presentation then
    asks for the revocation of a family that has no rows and is answered 500
    rather than the invalid_grant of any other replay. *)
Theorem replay_after_refusal_is_500 :
  map (fun r => match r with inl (e, _) => http_status e | inr _ => 200 end) denied_run.2 = [400; 500].
Proof. vm_compute. reflexivity. Qed.

(** ** A replay that races the first redemption *)

(** The token the first redemption is about to store. *)
Definition family1 : string := "Z".
Definition pending_row : TokenRow :=
  mkTokenRow (mkRefresh "" "j" "cli" "google" "1" "a@x.io" family1 0 0 (2000 * Second)) None None.

(** The first redemption stores it after the revocation's UPDATE and before its
    EXISTS. *)
Definition racing_db : DB :=
  mkDB emptyTables
    [free_slot; free_slot;
     mkSlot (fun t => set_tokens (<["h" := pending_row]> (refresh_tokens t)) t) Served].

(** The revocation then reports success, while the family's token stays live. *)
Theorem racing_revocation_misses :
  let (db', r) := sqlite_RevokeRefreshFamily family1 5 racing_db in
  r = (0, None) /\ option_map live (refresh_tokens (tables db') !! "h") = Some true.
Proof. vm_compute. done. Qed.

End TokenExample.
