(* ===== verification/LoginExamples.v ===== *)
(** * A whole login on SQLite

    /authorize, the upstream's round trip to /callback, and /token, evaluated
    from the requests to the issued tokens, with the theorems of LoginFacts.v
    and Session.v applied to the run. *)

From S2P Require Import Prelude GoStrings GoErrors GoEncoding GoCrypto GoURL GoHttp Perms Oidc Client Keys.
From S2P Require Import Signer Binding Sessions Sql Sqlite Token Session Login LoginFacts.
From S2P Require Import TokenExamples.

Module LoginExample.
Import SignerExample ClientExample TokenExample.

#[local] Instance ascii_unicode : Unicode := { unicode_lower s := s }.
#[local] Existing Instance TokenExample.example_env.
#[local] Existing Instance ClientExample.example_parser.

Definition issuer : string := "https://auth.example".

(** A connector that signs everyone in as the same account. *)
Definition google : Connector :=
  mkConnector "google" "Google" (mkFlow "GET" "state")
    (fun _ p => inr ("https://idp.example/auth?state=" +:+ bp_State p))
    (fun _ p => if (Get (cp_Params p) "code" =? "")%string then (inl (Sentinel ErrMissingResponse), false)
                else (inr (mkCompletion (mkUpstreamIdentity "1" "a@x.io" true []) ""), false)).

Definition connectors : Connectors := mkConnectors {["google" := google]} google.

Example connectors_configured : NewConnectors [google] = inr connectors.
Proof. vm_compute. reflexivity. Qed.

Definition binding : UpstreamBinding := mkBinding BindingExample.example_key true "" "__Host-tempogate_upstream_".

Example binding_built : NewUpstreamBinding issuer BindingExample.example_key = inr binding.
Proof. vm_compute. reflexivity. Qed.

Definition authorizer : Authorizer := NewAuthorizer example_registry binding connectors issuer.
Definition callback : Callback := mkCallback issuer connectors binding {["x.io"]} everyone_reads.

(** ** The run *)

Definition ask : authorizeInput :=
  mkAuthorizeInput "code" "cli" "http://127.0.0.1:4711/callback" "openid email" "client state"
    (RawURL_Encode (sha256_Sum256 verifier)) "S256" "n".

Definition w0 : World DB := mkWorld emptyDB 0 0 [] None.

Definition authorized := Authorize_handle authorizer ask w0.
Definition st : string := RawURL_Encode (default "" (entropy 0 32)).

Definition binding_header : string :=
  let ck := Binding_Cookie binding "google" st in cookie_header [(ck_Name ck, ck_Value ck)].

Definition come_back : callbackInput := mkCallbackInput "google" binding_header [("state", st); ("code", "upstream")].
Definition called_back := Callback_handle callback come_back authorized.1.

Definition the_code : string := RawURL_Encode (default "" (entropy 3 32)).

Definition exchange : tokenInput :=
  mkTokenInput ("grant_type=authorization_code&client_id=cli&code=" +:+ the_code
    +:+ "&redirect_uri=http%3A%2F%2F127.0.0.1%3A4711%2Fcallback&code_verifier=" +:+ verifier) "".

Definition exchanged := handle cfg exchange called_back.1.

Definition response_location : string :=
  "http://127.0.0.1:4711/callback?code=" +:+ the_code +:+ "&iss=https%3A%2F%2Fauth.example&state=client+state".

(** The login goes through: the browser is sent upstream with the state, comes
    back to the client with the code, and the code buys tokens. *)
Example login_goes_through :
  ao_Location <$> (match authorized.2 with inr o => Some o | inl _ => None end)
    = Some ("https://idp.example/auth?state=" +:+ st) /\
  co_Location <$> (match called_back.2 with inr o => Some o | inl _ => None end) = Some response_location /\
  (match exchanged.2 with inr o => Some (TokenType (Body o)) | inl _ => None end) = Some "Bearer".
Proof. vm_compute. done. Qed.

(** ** The theorems on this run *)

Definition authorize_out : authorizeOutput :=
  match authorized.2 with inr o => o | inl _ => mkAuthorizeOutput 0 "" "" end.
Definition callback_out : callbackOutput :=
  match called_back.2 with inr o => o | inl _ => mkCallbackOutput 0 "" "" "" "" end.

Lemma authorized_run : Authorize_handle authorizer ask w0 = (authorized.1, inr authorize_out).
Proof. vm_compute. reflexivity. Qed.

Lemma called_back_run : Callback_handle callback come_back authorized.1 = (called_back.1, inr callback_out).
Proof. vm_compute. reflexivity. Qed.

Lemma authorize_sound_witness :
  ao_Status authorize_out = StatusFound /\ checkParamLengths (authorize_caps ask) = None /\
  Validate (a_clients authorizer) (ai_ClientID ask) (ai_RedirectURI ask) = None.
Proof.
  destruct (authorize_sound authorizer ask w0 _ _ authorized_run) as (H1 & H2 & H3 & _).
  exact (conj H1 (conj H2 H3)).
Defined.

Lemma callback_sound_witness :
  exists conn ar s1 reason, Connectors_Lookup (cb_connectors callback) (ci_Connector come_back) = Some conn /\
    login_resumed callback conn come_back authorized.1 ar s1 /\
    login_answered callback conn come_back ar authorized.1 s1 (w_store called_back.1) callback_out reason.
Proof.
  destruct (callback_sound callback come_back authorized.1 _ _ called_back_run) as (conn & ar & s1 & reason & H1 & H2 & _ & H3).
  exact (ex_intro _ conn (ex_intro _ ar (ex_intro _ s1 (ex_intro _ reason (conj H1 (conj H2 H3)))))).
Defined.

(** The same callback from a browser without the cookie. *)
Definition stolen : callbackInput := mkCallbackInput "google" "" [("state", st); ("code", "upstream")].

Lemma unbound_callback_inert_witness :
  let r := Callback_handle callback stolen authorized.1 in
  w_store r.1 = w_store authorized.1 /\ w_draw r.1 = w_draw authorized.1 /\
  exists e, r.2 = inl e /\ http_status e = StatusBadRequest.
Proof.
  apply (unbound_callback_inert callback google stolen authorized.1); [reflexivity| |apply surjective_pairing].
  vm_compute. reflexivity.
Defined.

Lemma login_counted_once_witness :
  exists evs reason, Forall (fun ev => login_event ev = false) evs /\
    w_trace called_back.1 = w_trace authorized.1 ++ evs ++
      [Counted "tempogate.logins" [if (reason =? reasonNone)%string then "success" else "failure"; reason]] /\
    exists ar s1, login_answered callback google come_back ar authorized.1 s1 (w_store called_back.1) callback_out reason.
Proof. apply (login_counted_once callback google come_back authorized.1 _ (inr callback_out)); [reflexivity|apply called_back_run]. Defined.

Definition cb1 : cb_call := mkCbCall callback come_back.
Definition twice := serve_callbacks (S := DB) [cb1; cb1] authorized.1.

Lemma login_state_single_use_witness : ~ answered (default (inl (Opaque "")) (twice.2 !! 1%nat)).
Proof.
  refine (login_state_single_use st [cb1; cb1] authorized.1 twice.1 twice.2 0 1 cb1 cb1
            (default (inl (Opaque "")) (twice.2 !! 0%nat)) _ _ (surjective_pairing _) _ eq_refl eq_refl _ _ _ _ _).
  - vm_compute. constructor.
  - lia.
  - vm_compute. reflexivity.
  - vm_compute. reflexivity.
  - exists google. split; vm_compute; reflexivity.
  - exists google. split; vm_compute; reflexivity.
  - eexists. vm_compute. reflexivity.
Defined.

Lemma authorizationResponse_delivers_witness :
  exists qs vs,
    authorizationResponse "http://127.0.0.1:4711/callback" issuer "client state" [("code", "c&d")]
      = inr (base_String (loopback_url ":4711" "/callback") +:+ "?" +:+ qs
             +:+ fragment_String (loopback_url ":4711" "/callback")) /\
    ParseQuery qs = Some vs /\
    (forall k x, (k, x) ∈ [("code", "c&d")] -> Get vs k = x) /\
    ("client state" <> "" -> Get vs "state" = "client state") /\ (issuer <> "" -> Get vs "iss" = issuer) /\
    (forall k, k ∉ ["code"] -> k <> "state" -> k <> "iss" ->
       Get vs k = Get (Query (u_RawQuery (loopback_url ":4711" "/callback"))) k).
Proof.
  apply (authorizationResponse_delivers "http://127.0.0.1:4711/callback" issuer "client state" [("code", "c&d")]).
  - vm_compute. reflexivity.
  - vm_compute. discriminate.
  - discriminate.
  - cbn. lia.
  - apply NoDup_singleton.
  - vm_dec.
  - vm_dec.
Defined.

(** ** A verification-page session *)

Definition manager : SessionManager :=
  mkSessionManager BindingExample.example_key defaultSessionTTL "tempogate_session" "/device" true.

Definition issued := IssueCookie (S := DB) manager (mkIdentity "google" "1" "a@x.io") w0.
Definition session_header : string :=
  match issued.2 with inr (_, ck) => cookie_header [(ck_Name ck, ck_Value ck)] | inl _ => "" end.
Definition seen := Session_Get (S := DB) manager session_header issued.1.
Definition the_session : BrowserSession := match seen.2 with inr bs => bs | inl _ => zeroBrowserSession end.

Lemma session_get_sound_witness :
  exists value sid s' t,
    Request_Cookie session_header "tempogate_session" = Some value /\ vouches manager value sid /\
    LookupBrowserSession sid (w_store issued.1) = (s', (the_session, None)) /\ w_store seen.1 = s' /\
    t = clock (w_tick issued.1) /\ t < bs_ExpiresAt the_session /\ bs_Subject the_session <> "".
Proof. apply (session_get_sound manager session_header issued.1 seen.1). vm_compute. reflexivity. Defined.

Lemma session_cookie_verified_witness :
  (verifyCookie manager "a.b" = Some "sid" <-> vouches manager "a.b" "sid") /\
  forall sid', verifyCookie manager (signCookie manager "sid") = Some sid' <-> sid' = "sid".
Proof. apply (session_cookie_verified manager "a.b" "sid"). discriminate. Defined.

End LoginExample.
