(* ===== verification/GoogleExamples.v ===== *)
(** * A Google login on SQLite

    The login of LoginExamples.v through the Google connector, evaluated against a
    Google that signs one id_token, and the theorems of GoogleFacts.v on it; a run of
    sign-ins while Google is down. *)

From S2P Require Import Prelude GoStrings GoErrors GoEncoding GoCrypto GoURL GoHttp Perms Oidc Client Keys.
From S2P Require Import Signer Binding Sessions Sql Sqlite Token Session Login LoginFacts Google GoogleFacts.
From S2P Require Import TokenExamples LoginExamples.

Module GoogleExample.
Import SignerExample ClientExample TokenExample LoginExample.

#[local] Existing Instance LoginExample.ascii_unicode.
#[local] Existing Instance TokenExample.example_env.
#[local] Existing Instance ClientExample.example_parser.

Definition google_issuer : string := "https://accounts.google.com".

(** The id_token Google signs for the login of state [st]: the member of the
    Workspace domain x.io with the nonce of that state. *)
Definition signed_token : IDToken :=
  mkIDToken "42" (nonce binding GoogleID st) (inr (mkClaims "a@x.io" true "X.IO")).

(** Discovery fails until call 8 and then answers; the code "upstream" is
    exchanged only with the verifier of state [st]. *)
#[local] Instance google_up : GoogleAPI := {
  Provider := string;
  NewProvider n iss := if (n <? 8)%nat then inl (mkFailure (Opaque "no route") false false false None) else inr iss;
  oauth_Exchange _ _ code _ v :=
    if (code =? "upstream")%string && (v =? codeVerifier binding GoogleID st)%string then inr (Some "RAW")
    else inl (mkFailure (Opaque "400") false false false (Some "invalid_grant"));
  verifier_Verify _ p aud raw :=
    if (p =? google_issuer)%string && (aud =? "client-1")%string && (raw =? "RAW")%string then inr signed_token
    else inl (mkFailure (Opaque "signature") false false false None);
  google_clock n := Z.of_nat n * Second
}.

Definition google_issued (iss aud raw : string) (tok : IDToken) : Prop :=
  iss = google_issuer /\ aud = "client-1" /\ raw = "RAW" /\ tok = signed_token.

Lemma google_verifies n n' iss (p : Provider) aud raw tok :
  NewProvider n iss = inr p -> verifier_Verify n' p aud raw = inr tok -> google_issued iss aud raw tok.
Proof.
  cbn -[Nat.ltb]. destruct (Nat.ltb n 8); [by intros|]. intros [= ->].
  destruct (String.eqb_spec p google_issuer), (String.eqb_spec aud "client-1"), (String.eqb_spec raw "RAW"); cbn; try done.
  by intros [= <-].
Qed.

#[local] Instance google_signs : GoogleLaws := { issued := google_issued; verifier_sound := google_verifies }.

Definition client : GoogleClient := NewGoogleClient "client-1" "secret" "https://oauth2.googleapis.com/token" "https://accounts.google.com/".

Definition auth_url : URL := mkURL "https" "" None "accounts.google.com" "accounts.google.com" "/o/oauth2/v2/auth" "/o/oauth2/v2/auth" false "" false "".

Definition connector : GoogleConnector :=
  mkGoogleConnector "client-1" auth_url google_issuer {["x.io"]} "x.io" client.

(** ** Google down, then up *)

Definition try_ : signin := ("upstream", "", codeVerifier binding GoogleID st, nonce binding GoogleID st).
Definition fresh : GState := mkGState noDiscovery 0 [].

(** Sign-ins while discovery fails, and the one that finds Google up again. *)
Lemma outage : attempts client (repeat try_ 9) fresh = [0; 2 * Second; 4 * Second; 8 * Second].
Proof. vm_compute. reflexivity. Qed.

Lemma google_failures_classified_witness :
  exists reason oauthCode timeout,
    errors_As_upstream (match (ExchangeAndVerify client "x" "" "" "" fresh).2 with inl e => e | inr _ => Opaque "" end)
      = Some (reason, oauthCode, timeout).
Proof.
  apply (google_failures_classified client "x" "" "" "" fresh (ExchangeAndVerify client "x" "" "" "" fresh).1).
  - apply noDiscovery_ok.
  - vm_compute. reflexivity.
Defined.

(** ** The login *)

(** The client as every callback finds it, once Google is up. *)
Definition client_at (n : nat) : GState := mkGState noDiscovery 10 [].

Definition google_conn : Connector := google_connector connector client_at (fun _ => false).
Definition google_callback : Callback :=
  mkCallback issuer (mkConnectors {[GoogleID := google_conn]} google_conn) binding {["x.io"]} everyone_reads.

Definition google_back := Callback_handle google_callback come_back authorized.1.
Definition google_out : callbackOutput :=
  match google_back.2 with inr o => o | inl _ => mkCallbackOutput 0 "" "" "" "" end.

(** The code is stored for Google's subject. *)
Lemma google_signed_in : (ac_Subject ∘ cr_code) <$> (map_to_list (auth_codes (tables (w_store google_back.1)))).*2 = ["42"].
Proof. vm_compute. reflexivity. Qed.

Lemma google_back_run : Callback_handle google_callback come_back authorized.1 = (google_back.1, inr google_out).
Proof. vm_compute. reflexivity. Qed.

Lemma google_login_sound_witness :
  exists ar s1, login_resumed google_callback google_conn come_back authorized.1 ar s1 /\
    (w_store google_back.1 = s1 \/
     exists co code now_, attested connector (complete_params google_callback GoogleID (ci_params come_back) (Get (ci_params come_back) "state")) co /\
       admitted google_callback co /\ SaveAuthCode (minted google_callback (co_Identity co) GoogleID ar code now_) s1 = (w_store google_back.1, None)).
Proof.
  apply (google_login_sound connector client_at (fun _ => false) google_callback come_back authorized.1 google_back.1 google_out).
  - intros n. apply noDiscovery_ok.
  - vm_compute. reflexivity.
  - exact google_back_run.
Defined.

(** An id_token minted for another login is refused. *)
Lemma other_nonce_refused :
  errors_As_upstream <$> (match (ExchangeAndVerify client "upstream" "" (codeVerifier binding GoogleID st) "other" (client_at 0)).2 with
                          | inl e => Some e | inr _ => None end) = Some (Some (UpstreamReasonNonce, "", false)).
Proof. vm_compute. reflexivity. Qed.

Definition begin_params_1 : BeginParams := mkBeginParams "https://auth.example/callback/google" "S&1" "C" "N" "_r".

Lemma google_begin_delivers_witness :
  exists qs vs, Begin connector begin_params_1 = inr ("https://accounts.google.com/o/oauth2/v2/auth?" +:+ qs) /\
    ParseQuery qs = Some vs /\ Get vs "state" = "S&1" /\ Get vs "hd" = "x.io".
Proof.
  destruct (google_begin_delivers connector begin_params_1) as (qs & vs & Hb & Hp & Hg & _); [vm_compute; discriminate|].
  exists qs, vs. split; [|split; [exact Hp|split; apply Hg; by apply (bool_decide_unpack _)]].
  rewrite Hb. change (fragment_String (gn_authEndpoint connector)) with "". rewrite append_nil_r.
  change (base_String (gn_authEndpoint connector)) with "https://accounts.google.com/o/oauth2/v2/auth". reflexivity.
Defined.

End GoogleExample.
