(* ===== verification/DeviceExamples.v ===== *)
(** * A whole device sign-in on SQLite

    /device_authorization, the entry form, the sign-in callback, the confirm page,
    the approval and the device's /token poll, evaluated end to end, with the
    theorems of DeviceFacts.v and DeviceBudget.v applied to the run. *)

From S2P Require Import Prelude GoStrings GoErrors GoEncoding GoCrypto GoFloat GoURL GoHttp Ratelimit Perms Oidc.
From S2P Require Import Client Keys Signer Binding Sessions Sql Sqlite Token Session Login Device.
From S2P Require Import DeviceFacts DeviceBudget TokenExamples.

#[local] Open Scope Z_scope.

Module DeviceExample.
Import SignerExample TokenExample.

#[local] Instance ascii_unicode : Unicode := { unicode_lower s := s }.
#[local] Existing Instance TokenExample.example_env.
#[local] Existing Instance RatelimitExample.amd64.

Definition issuer : string := "https://auth.example".

#[local] Instance issuer_parser : URLParser := {
  url_Parse raw :=
    if (raw =? issuer)%string
    then Some (mkURL "https" "" None "auth.example" "auth.example" "" "" false "" false "")
    else if (raw =? issuer +:+ DeviceSSOCallbackPath)%string
    then Some (mkURL "https" "" None "auth.example" "auth.example" DeviceSSOCallbackPath DeviceSSOCallbackPath
                 false "" false "")
    else None
}.

(** ** A text encoding of the bounce state

    Three fields separated by commas: the texts in hex, the expiry in binary. *)

Fixpoint bits_of (p : positive) : string :=
  match p with xH => "" | xO p => String "0" (bits_of p) | xI p => String "1" (bits_of p) end.

Fixpoint of_bits (s : string) : option positive :=
  match s with
  | "" => Some xH
  | String "0" s => xO <$> of_bits s
  | String "1" s => xI <$> of_bits s
  | _ => None
  end.

Lemma of_bits_of p : of_bits (bits_of p) = Some p.
Proof. induction p as [p IH|p IH|]; cbn; [by rewrite IH..|done]. Qed.

Definition show_Z (z : Z) : string :=
  match z with Z0 => "z" | Zpos p => String "+" (bits_of p) | Zneg p => String "-" (bits_of p) end.
Definition read_Z (s : string) : option Z :=
  match s with
  | "z" => Some 0
  | String "+" s => Zpos <$> of_bits s
  | String "-" s => Zneg <$> of_bits s
  | _ => None
  end.

Lemma read_show z : read_Z (show_Z z) = Some z.
Proof. destruct z; cbn; [done|by rewrite of_bits_of..]. Qed.

#[local] Instance text_json : BounceJSON := {
  json_Marshal p := hex_Encode (bo_UserCode p) +:+ "," +:+ hex_Encode (bo_Nonce p) +:+ "," +:+ show_Z (bo_Exp p);
  json_Unmarshal s :=
    match Cut s "," with
    | Some (a, rest) =>
        match Cut rest "," with
        | Some (b, c) =>
            match hex_Decode a, hex_Decode b, read_Z c with
            | Some uc, Some n, Some e => Some (mkBounce uc n e)
            | _, _, _ => None
            end
        | None => None
        end
    | None => None
    end
}.

Lemma hex_no_comma s : ContainsByte (hex_Encode s) "," = false.
Proof.
  apply (all_bytes_no_byte token_byte); [apply hex_token|vm_compute; reflexivity].
Qed.

#[local] Instance text_json_spec : BounceJSONSpec.
Proof.
  constructor.
  - intros p. cbn [json_Marshal text_json]. by destruct (hex_Encode (bo_UserCode p)).
  - intros p _ _. cbn [json_Marshal json_Unmarshal text_json].
    rewrite (proj2 (Cut_Some (hex_Encode (bo_UserCode p) +:+ "," +:+ _) "," _ _) (conj eq_refl (hex_no_comma _))).
    rewrite (proj2 (Cut_Some (hex_Encode (bo_Nonce p) +:+ "," +:+ _) "," _ _) (conj eq_refl (hex_no_comma _))).
    rewrite !hex_roundtrip, read_show. by destruct p.
Qed.

(** ** The configuration *)

Definition internal : Client := mkClient [issuer +:+ DeviceSSOCallbackPath] [GrantTypeAuthorizationCode] "s3cret".
Definition registry : ClientRegistry :=
  <[defaultInternalDeviceUIClientID := internal]> ClientExample.example_registry.

Definition token : Token :=
  mkToken true signer1 (registry_clients registry) (Some {["google"]}) {["x.io"]} everyone_reads
    DefaultAccessTokenTTL DefaultRefreshTokenTTL DefaultRefreshMaxLifetime.

Definition manager : SessionManager :=
  mkSessionManager BindingExample.example_key defaultSessionTTL "tempogate_session" "/device" true.

Definition ui : DeviceUI :=
  match NewDeviceUI manager registry token BindingExample.example_key issuer [] "'sha256-x'" everyone_reads with
  | inr u => u
  | inl _ => mkDeviceUI manager registry token "" "" (mkURL "" "" None "" "" "" "" false "" false "") "" "" "" "" denyAll
  end.

Definition da : DeviceAuthorization := NewDeviceAuthorization registry issuer.

(** ** The run *)

Definition w0 : World (Server DB) := mkWorld (NewServer emptyDB) 0 0 [] None.

Definition asked := DeviceAuthorization_handle da "client_id=dev&scope=openid" w0.
Definition answer1 : deviceAuthorizationOutput :=
  match asked.2 with inr o => o | inl _ => mkDeviceAuthorizationOutput "" (mkDeviceAuthorizationBody "" "" "" "" 0 0) end.
Definition uc : string := canonicalUserCode (db_UserCode (do_Body answer1)).

(** The user types the code in lower case; the browser has no session. *)
Definition entered := handleEnterPost ui "203.0.113.7" "" ("user_code=" +:+ ascii_lower (db_UserCode (do_Body answer1))) asked.1.

Definition st : string :=
  match signBounceState (S := Server DB) ui uc
          (mkWorld (w_store entered.1) (w_tick entered.1 - 1) (w_draw entered.1 - 1) [] None) with
  | (_, inr s) => s
  | _ => ""
  end.

(** The upstream leg leaves a code for the internal client. *)
Definition sso_code : AuthCode :=
  mkAuthCode "SSO" defaultInternalDeviceUIClientID (issuer +:+ DeviceSSOCallbackPath) "google" "1" "a@x.io" "openid email"
    "" "" "" "" (1000 * Second) (2000 * Second).
Definition after_login : World (Server DB) :=
  mkWorld (in_store (sqlite_SaveAuthCode sso_code) (w_store entered.1)).1 (w_tick entered.1) (w_draw entered.1)
    (w_trace entered.1) (w_memo entered.1).

Definition returned := handleSSOCallback ui "SSO" st "" after_login.

Example device_signin_so_far :
  (match entered.2 with inr (Redirect loc _) => Some loc | _ => None end) = Some (bounce_location ui st) /\
  (match returned.2 with inr (Redirect loc _) => Some loc | _ => None end)
    = Some ("/device/confirm?user_code=" +:+ formatUserCode uc).
Proof. vm_compute. done. Qed.

(** The cookie the redirect set, as the browser sends it back. *)
Definition sid : string := RawURL_Encode (default "" (entropy (w_draw returned.1 - 1) sessionSIDEntropyBytes)).
Definition header : string := cookie_header [("tempogate_session", signCookie manager sid)].

Definition confirmed := handleConfirm ui "203.0.113.7" (formatUserCode uc) header returned.1.

Definition approval : deviceDecisionInput :=
  mkDecision header issuer "" ("csrf_token=" +:+ sid +:+ "&user_code=" +:+ formatUserCode uc).
Definition forged : deviceDecisionInput :=
  mkDecision header "https://evil.example" "" ("csrf_token=" +:+ sid +:+ "&user_code=" +:+ formatUserCode uc).
Definition no_csrf : deviceDecisionInput :=
  mkDecision header issuer "" ("csrf_token=guess&user_code=" +:+ formatUserCode uc).

Definition approved := handleDecision ui "203.0.113.7" approval true confirmed.1.

(** The device polls. *)
Definition poll : tokenInput :=
  mkTokenInput ("grant_type=urn%3Aietf%3Aparams%3Aoauth%3Agrant-type%3Adevice_code&client_id=dev&device_code="
                +:+ db_DeviceCode (do_Body answer1)) "".
Definition polled := handle token poll approved.1.

Definition Confirm_page : page :=
  Confirm (formatUserCode uc) "a@x.io" "/device/approve" "/device/deny" sid.

Example device_signin_goes_through :
  (match confirmed.2 with inr (Page p) => Some (ho_Body p) | _ => None end) = Some Confirm_page /\
  (match approved.2 with inr p => Some (ho_Body p) | _ => None end) = Some Approved /\
  (match polled.2 with inr o => Some (TokenType (Body o)) | inl _ => None end) = Some "Bearer".
Proof. vm_compute. done. Qed.

(** ** The theorems on this run *)

Lemma asked_run : DeviceAuthorization_handle da "client_id=dev&scope=openid" w0 = (asked.1, inr answer1).
Proof. vm_compute. reflexivity. Qed.

Lemma device_authorization_sound_witness :
  exists form c dc,
    ParseQuery "client_id=dev&scope=openid" = Some form /\ da_clients da !! Get form "client_id" = Some c /\ Secret c = "" /\
    device_saved (Get form "client_id") (Get form "scope") (clock (w_tick w0)) w0 asked.1 dc /\
    db_DeviceCode (do_Body answer1) = dc_Code dc.
Proof.
  destruct (device_authorization_sound da "client_id=dev&scope=openid" w0 _ _ asked_run)
    as (form & c & dc & K1 & K2 & K3 & _ & K5 & _ & K7 & _).
  exact (ex_intro _ form (ex_intro _ c (ex_intro _ dc (conj K1 (conj K2 (conj K3 (conj K5 K7))))))).
Defined.

Lemma user_code_sampling_witness :
  (forall c, chances c = if in_alphabet c then 10%nat else 0%nat) /\
  exists w' uc, well_formed_code uc /\ w_store w' = w_store w0 /\
    forall rounds, (userCodeLen <= rounds)%nat -> randomUserCode rounds "" w0 = (w', inr uc).
Proof.
  apply (user_code_sampling w0). intros j Hj. eexists. split; [reflexivity|].
  do 8 (destruct j as [|j]; [vm_compute; reflexivity|]). exfalso. unfold w0, userCodeLen in Hj. cbn in Hj. lia.
Defined.

Definition signed := signBounceState (S := Server DB) ui "BCDFGHJK" w0.
Definition signed_state : string := match signed.2 with inr s => s | inl _ => "" end.

Lemma bounce_state_roundtrip_witness :
  exists w3, w_store w3 = w_store asked.1 /\
    verifyBounceState ui signed_state asked.1 =
      (w3, inr (if Unix (clock (w_tick w0) + deviceStateTTL) <? Unix (clock (w_tick asked.1))
                then inl (Opaque "state expired") else inr "BCDFGHJK")).
Proof.
  refine (bounce_state_roundtrip ui "BCDFGHJK" w0 signed.1 signed_state _ _ _ asked.1).
  - vm_compute. reflexivity.
  - discriminate.
  - vm_compute. reflexivity.
Defined.

Definition loc_ck : string * string := match returned.2 with inr (Redirect l c) => (l, c) | _ => ("", "") end.

Lemma sso_callback_sound_witness : signed_in ui "SSO" st after_login returned.1 loc_ck.1 loc_ck.2.
Proof. apply (sso_callback_sound ui "SSO" st ""). vm_compute. reflexivity. Defined.

Definition approved_page : htmlOutput := match approved.2 with inr p => p | inl _ => htmlPage ui Denied end.

Lemma device_decision_sound_witness : decision_made ui "203.0.113.7" approval true confirmed.1.
Proof.
  apply (device_decision_sound ui "203.0.113.7" approval true confirmed.1 approved.1 approved_page).
  - vm_compute. reflexivity.
  - vm_compute. reflexivity.
Defined.

Definition forgery := handleDecision ui "203.0.113.7" forged true confirmed.1.
Definition guess := handleDecision ui "203.0.113.7" no_csrf true confirmed.1.
Definition looked := Session_Get (du_sessions ui) (dd_Cookie no_csrf) confirmed.1.

Lemma forged_decision_inert_witness :
  forgery.1 = confirmed.1 /\ guess.1 = looked.1 /\ exists reason, ho_Body (match guess.2 with inr p => p | inl _ => approved_page end) = ErrorPage reason.
Proof.
  split.
  - refine (proj1 (forged_decision_inert ui "203.0.113.7" forged true confirmed.1 forgery.1 forgery.2 _) _).
    + apply surjective_pairing.
    + left. vm_compute. reflexivity.
  - destruct (proj2 (forged_decision_inert ui "203.0.113.7" no_csrf true confirmed.1 guess.1 guess.2 (surjective_pairing _))
      (default [] (ParseQuery (dd_RawBody no_csrf))) looked.1 looked.2) as [K1 K2].
    + vm_compute. reflexivity.
    + vm_compute. reflexivity.
    + exact (surjective_pairing looked).
    + intros bs Hbs. assert (bs_SID bs = sid) as ->.
      { vm_compute in Hbs. injection Hbs as <-. vm_compute. reflexivity. }
      vm_compute. discriminate.
    + split; [exact K1|]. apply K2. vm_compute. reflexivity.
Defined.

(** An attacker guesses three times. *)
Definition guesses : list page_request :=
  [EnterPost "198.51.100.9" "" "user_code=AAAA-AAAA"; EnterPost "198.51.100.9" "" "user_code=AAAA-AAAB";
   EnterPost "198.51.100.9" "" ("user_code=" +:+ uc); EnterPost "198.51.100.9" "" "user_code=AAAA-AAAC"].

Lemma guesses_bounded_witness :
  (serve_pages ui guesses asked.1 "198.51.100.9").2 = 3 /\
  (inject_Z (serve_pages ui guesses asked.1 "198.51.100.9").2 <=
    l_burst (ipl asked.1)
    + seconds_of (clock (w_tick (serve_pages ui guesses asked.1 "198.51.100.9").1) - clock (w_tick asked.1)) * l_rate (ipl asked.1)
    + inject_Z (6 * Z.of_nat (length guesses)) * slack (ipl asked.1))%Q.
Proof.
  split; [vm_compute; reflexivity|].
  refine (guesses_bounded _ ui guesses asked.1 "198.51.100.9" {["198.51.100.9"]} _ _ _ _).
  - intros i j Hij. cbn [clock example_env]. assert (0 < Second) by reflexivity. nia.
  - assert (ipl asked.1 = Ratelimit.New [WithLimit defaultUserCodeAttemptsPerIP userCodeAttemptWindow]) as ->
      by (vm_compute; reflexivity).
    apply New_ok; vm_compute; split; (discriminate || reflexivity).
  - assert (l_order (ipl asked.1) = []) as -> by (vm_compute; reflexivity). intros b [].
  - vm_compute. discriminate.
  - repeat constructor; vm_compute; reflexivity.
Defined.

End DeviceExample.
