(* ===== verification/AdminExamples.v ===== *)
(** * The admin API at concrete inputs

    The life of an integration key over SQLite: an operator with the configured
    token mints it, it verifies, the operator revokes it, and it verifies no
    more; then listing and sessions. *)

From S2P Require Import Prelude GoStrings GoErrors GoEncoding GoCrypto Oidc Denylist Keys Signer Verifier Sessions Sql Sqlite SqlSessions SqliteSessions SqliteFacts Token Admin AdminFacts AdminStores VerifierExamples.

Module AdminExample.
Import VerifierExample Guard.

#[local] Instance any_uuid : UUIDParse := {| uuid_Parse _ := true |}.

(** ** The guard *)

Definition guard : Guard := NewGuard [sha256_Sum256 "s3cret"] ["admin.internal:8443"; "[::1]"].
Definition ok_request : Request := mkRequest "ADMIN.internal:8443" "bearer s3cret" "10.0.0.9:1" "POST" "/admin/keys".

Example guard_hosts :
  map (hostAllowed guard) ["admin.internal:8443"; "admin.internal"; "[::1]:9000"; "::1"; "evil.example"] =
    [true; false; true; true; false].
Proof. vm_compute. reflexivity. Qed.

Definition hello (c : caller) : M unit string := mret (c_fingerprint c).
Definition w_unit : World unit := mkWorld tt 0 0 [] None.

Lemma guard_sound_witness :
  exists d evs, authorized guard ok_request d /\ gd_digests guard <> [] /\
    let w1 := mkWorld tt 0 0 ([] ++ evs) None in
    (a ← hello (mkCaller (String.substring 0 fingerprintLen (hex_Encode d)) "10.0.0.9:1"); mret (inr a)) w1
      = middleware guard ok_request hello w_unit.
Proof.
  destruct (guard_sound guard ok_request hello w_unit (middleware guard ok_request hello w_unit).1
    (middleware guard ok_request hello w_unit).2) as [H|(_ & _ & _ & rj & Hr & _)].
  - apply surjective_pairing.
  - rewrite <- surjective_pairing in H. exact H.
  - exfalso. vm_compute in Hr. discriminate Hr.
Defined.

(** ** An integration key *)

Definition handler : AdminKeys.AdminKeys := AdminKeys.NewKeys signer true false None.
Definition operator : caller := mkCaller "2bb80d53" "10.0.0.9:1".
Definition body : AdminKeys.createBody := AdminKeys.mkCreateBody "default" "write" "ci" (Some Hour).

Definition start : World (Cached DB) :=
  mkWorld (mkCached (mkDB emptyTables []) (NewDenylistCache true None 0)) 0 0 [] None.
Definition created := AdminKeys.create handler operator body start.

Example created_ok : created.2 = inr (AdminKeys.mkCreateOutput 201 "0198" "h.k.s" (Some Hour)).
Proof. vm_compute. reflexivity. Qed.

Lemma create_sound_witness :
  exists exp jti kp priv, let t0 := clock 0 in let t1 := clock 1 in let ttl := time_Sub exp t0 in
    ("default" <> "" /\ "ci" <> "" /\ ("default" = Perms.SystemNamespace -> false = true) /\
     Perms.Role_Valid "write" = true /\ "write" <> Perms.RoleWorker) /\
    (Some Hour = Some exp /\ 0 < ttl <= AdminKeys.DefaultMaxTTL) /\
    (Signing [key1] (clock 2) (k_publishDelay sg_cfg) = Some kp /\ jwk_ParsePrivate (PrivatePEM kp) = Some priv /\
     jwt_Sign (mkHeader (Kid kp) AccessTokenType)
       (mkClaims "ci" (Some "https://sso.example.com") ["temporal"] t1 t1 (Some (t1 + ttl)) jti
          (Some ["default:write"]) None None None None None None) priv = Some "h.k.s") /\
    (AdminKeys.mkCreateOutput 201 "0198" "h.k.s" (Some Hour) = AdminKeys.mkCreateOutput 201 "0198" "h.k.s" (Some exp) /\
     Save (mkIntegrationKey "0198" "default" "write" "ci" jti t0 (Some exp) None) (mkDB emptyTables []) =
       (ca_store (w_store created.1), None)).
Proof.
  apply (create_sound handler operator body start created.1
    (AdminKeys.mkCreateOutput 201 "0198" "h.k.s" (Some Hour)) sg_cfg [key1]).
  - reflexivity.
  - intros kid raw [=].
  - vm_compute. reflexivity.
Defined.

(** The verifier of the process, with its own key set memo. *)
Definition key_verifier : Verifier := mkVerifier (Some (sg_cfg, [key1])) "https://sso.example.com" "temporal" true.
Definition in_process (w : World (Cached DB)) : World (VState (Cached DB)) :=
  mkWorld (mkVState (w_store w) None) (w_tick w) (w_draw w) (w_trace w) (w_memo w).

(** It verifies, and its jti is now cached as active. *)
Definition used := Verify key_verifier "h.k.s" (in_process created.1).
Example used_ok : used.2 = inr (wire integration).
Proof. vm_compute. reflexivity. Qed.

Definition before_delete : World (Cached DB) :=
  mkWorld (vs_store (w_store used.1)) (w_tick used.1) (w_draw used.1) (w_trace used.1) (w_memo used.1).
Definition deleted := AdminKeys.delete_ handler operator "0198" before_delete.

Lemma revoked_key_refused_witness :
  exists jti, (MarkRevoked "0198" (clock (w_tick before_delete)) (ca_store (w_store before_delete))).2 = (jti, None) /\
  forall v cfg kps raw (wv wv' : World (VState (Cached DB))) tok,
    vs_store (w_store wv) = w_store deleted.1 -> steady (ca_store (vs_store (w_store wv))) -> vf_denylist v = true ->
    vf_keys v = Some (cfg, kps) -> immutable pem_of kps -> coherent pem_of wv -> jti <> "" ->
    Verify v raw wv = (wv', inr tok) -> cl_jti tok <> jti.
Proof.
  destruct (revoked_key_refused pem_of handler operator "0198" before_delete deleted.1) as (jti & Hm & Hlater).
  - reflexivity.
  - vm_compute. reflexivity.
  - vm_compute. constructor.
  - vm_compute. reflexivity.
  - exists jti. split; [exact Hm|]. intros v cfg kps raw wv wv' tok Hs Hst.
    eapply (Hlater 0 0 ∅ [] (mkShared (ca_cache (w_store deleted.1)) (denied (ca_store (w_store deleted.1))) 0 ∅)).
    + intros i f Hf. rewrite lookup_empty in Hf. discriminate Hf.
    + apply ds_nil.
    + by rewrite Hs.
    + by rewrite Hs.
    + exact Hst.
Defined.

Example refused_now : (Verify key_verifier "h.k.s" (in_process deleted.1)).2 = inl (Sentinel ErrTokenRevoked).
Proof. vm_compute. reflexivity. Qed.

(** ** Listing: five keys, two a page *)

Definition key_row (id owner : string) : string * IntegrationKey :=
  (id, mkIntegrationKey id "default" "read" owner id 0 None None).
Definition five : gmap string IntegrationKey :=
  list_to_map [key_row "a" "ci"; key_row "b" "ci"; key_row "c" "bob"; key_row "d" "ci"; key_row "e" "ci"].
Definition list_world : World (Cached DB) :=
  mkWorld (mkCached (mkDB (set_ikeys five emptyTables) []) (NewDenylistCache true None 0)) 0 0 [] None.
Definition all_rows : list IntegrationKey := merge_sort id_ge (map_to_list five).*2.

Lemma five_keyed : keyed five.
Proof.
  intros id k Hk. apply elem_of_list_to_map_2 in Hk. apply list_elem_of_In in Hk.
  repeat destruct Hk as [[= <- <-]|Hk]; done.
Qed.

Lemma pages_complete_witness :
  fetch_all 6 handler "ci" "" 2 "" list_world =
    (list_world, inr (map AdminKeys.viewOf (wanted "ci" "" all_rows))).
Proof.
  refine (pages_complete handler "ci" "" 2 all_rows list_world _ _ _ _).
  - reflexivity.
  - reflexivity.
  - exact (sqlite_holds (set_ikeys five emptyTables) five_keyed).
  - vm_compute. repeat constructor; discriminate.
Defined.

Example pages_ids :
  map ik_ID (wanted "ci" "" all_rows) = ["e"; "d"; "b"; "a"] /\
  option_map AdminKeys.lb_NextCursor
    (match (AdminKeys.list_keys handler (AdminKeys.mkListInput "ci" "" 2 "") list_world).2 with
     | inr b => Some b | inl _ => None end) = Some "d".
Proof. vm_compute. split; reflexivity. Qed.

(** ** Sessions *)

Definition session_world : World DB := mkWorld SqliteSessionsExample.db1 0 0 [] None.
Definition by_email : AdminSessions.sessionRevokeBody := AdminSessions.mkRevokeBody "a@x.io" "" "".
Definition revoked_sessions := AdminSessions.revoke_sessions operator by_email session_world.

Lemma sessions_revoke_complete_witness :
  ~ malformed by_email /\ AdminSessions.selectors by_email = 1%nat /\ db_ok (w_store revoked_sessions.1) /\
  forall h row, refresh_tokens (tables (w_store session_world)) !! h = Some row -> selected by_email row ->
    (exists row', refresh_tokens (tables (w_store revoked_sessions.1)) !! h = Some row' /\ revoked row' = true) /\
    family_revoked (row_family row) (refresh_tokens (tables (w_store revoked_sessions.1))) = true /\
    ended h (row_family row) (w_store revoked_sessions.1).
Proof.
  refine (sessions_revoke_complete operator by_email session_world revoked_sessions.1 (inr 1) _ _).
  - constructor.
  - vm_compute. reflexivity.
Defined.

Example two_selectors :
  (AdminSessions.revoke_sessions operator (AdminSessions.mkRevokeBody "a@x.io" "google:1" "") session_world).2 =
    inl (StatusError 400 "exactly one of email, subject or family_id must be non-empty").
Proof. vm_compute. reflexivity. Qed.

End AdminExample.
