(* ===== verification/CliExamples.v ===== *)
(** * The command line client at work

    One machine on which the issuer answers and the system works: a token saved,
    two processes that refresh it at once, and a device sign-in that is told to
    wait; the theorems of CliFacts.v, CliRefreshFacts.v and CliLoginFacts.v on
    them. *)

From S2P Require Import Prelude GoStrings GoErrors GoURL GoNetip GoTime Client Cli CliFacts CliRefresh CliRefreshFacts CliLogin CliLoginFacts.

Module CliExample.

(** ** The machine *)

#[local] Instance cli_unicode : Unicode := { unicode_lower s := s }.
#[local] Instance cli_fold : CaseFold := { unicode_fold s := s }.

Definition page_at (path : string) : URL := mkURL "https" "" None "id.example" "id.example" path path false "" false "".

#[local] Instance cli_parser : URLParser := {
  url_Parse s :=
    if (s =? "https://id.example")%string then Some (page_at "")
    else if (s =? "https://id.example/token")%string then Some (page_at "/token")
    else if (s =? "https://id.example/device_authorization")%string then Some (page_at "/device_authorization")
    else None
}.

Lemma parsed_page s u : url_Parse s = Some u -> u_Scheme u = "https" /\ u_Host u = "id.example".
Proof. cbn. repeat case_match; intros; by simplify_eq. Qed.

#[local] Instance cli_endpoints : EndpointURLs.
Proof. constructor. intros issuer path u u' [-> ->]%parsed_page _ [-> ->]%parsed_page. done. Qed.

(** The refresh token of the exchange at operation [n], and the answers: the
    token endpoint says "pending" to a device until operation 18. *)
Fixpoint marks (n : nat) : string := match n with O => "" | S n => String "i" (marks n) end.
Definition minted_token (n : nat) : string := String "t" (marks n).

Lemma marks_length n : String.length (marks n) = n.
Proof. induction n as [|n IH]; cbn; by rewrite ?IH. Qed.

Definition asks_device (body : string) : bool := bool_decide (body = Encode (poll_form (NewDeviceFlow "https://id.example" "" 0 false) "dc")).

Definition issuer_answers (n : nat) (u : URL) (body : string) : answer :=
  if (u_Path u =? "/device_authorization")%string then Responded 200 (inr "device")
  else if asks_device body && (n <? 18)%nat then Responded 400 (inr "pending")
  else Responded 200 (inr (minted_token n)).

#[local] Instance cli_host : Host.
Proof.
  refine {| elapse _ := 1000000; dies _ := false; ctx_Err _ := None; os_fails _ := None;
    temp_name n p := "/tmp" +:+ p +:+ marks n; torn _ _ := ""; draw _ n := Some (marks n); roundtrip n _ u body := issuer_answers n u body |}.
  done.
Defined.

(** The token file as the bits of its fields. *)
Fixpoint bits_of (p : positive) : string :=
  match p with xH => "" | xO p => String "0" (bits_of p) | xI p => String "1" (bits_of p) end.
Fixpoint of_bits (s : string) : positive :=
  match s with "" => xH | String c s => if Ascii.eqb c "0" then xO (of_bits s) else xI (of_bits s) end.

Lemma of_bits_of_bits p : of_bits (bits_of p) = p.
Proof. induction p as [p IH|p IH|]; cbn; by rewrite ?IH. Qed.

Definition token_fields (t : CliToken) := (ct_AccessToken t, ct_RefreshToken t, ct_ExpiresAt t, ct_ClientID t).

#[local] Instance cli_json : CliJSON.
Proof.
  refine {|
    unmarshal_token b := match b with
      | String "t" _ => inr (mkTokenResponse "access" b "Bearer" 3600)
      | _ => inl (Opaque "json")
      end;
    unmarshal_oauth_error b := if (b =? "pending")%string then Some (mkOauthErrorBody "authorization_pending" "") else None;
    unmarshal_device b := if (b =? "device")%string then inr (mkDeviceAuthResponse "dc" "BCDF-GHJK" "https://id.example/device" "" 600 5) else inl (Opaque "json");
    unmarshal_claims _ := None;
    marshal_file t := inr (bits_of (encode (token_fields t)));
    unmarshal_file d := match decode (of_bits d) with
      | Some (a, r, e, c) => inr (mkCliToken a r e c)
      | None => inl (Opaque "json")
      end
  |}.
  intros [a r e c] data [= <-]. by rewrite of_bits_of_bits, decode_encode.
Defined.

#[local] Instance cli_rotating : Rotating.
Proof.
  refine {| issued_at s := match s with String "t" m => Some (String.length m) | _ => None end |}.
  intros n method u body resp tr Hr Ht. assert (resp = "device" \/ resp = minted_token n) as [->| ->].
  { revert Hr. cbn. unfold issuer_answers. repeat case_match; intros [= <-]; auto. }
  - done.
  - injection Ht as <-. right. cbn. by rewrite marks_length.
Defined.

Definition now0 : time := 1700000000 * Second.
Definition old_token : CliToken := mkCliToken "stale" "login" (now0 + Second) "tempogate-cli".
Definition token_path : string := "/home/u/token.json".

Definition saved_file : string := match marshal_file old_token with inr d => d | inl _ => "" end.
Definition cli0 : Sys := mkSys now0 0 {[token_path := (tokenFilePerm, saved_file)]} {["/home/u" := tokenDirPerm]} None [] [] [].

Lemma temp_apart n p : temp_name n p <> token_path.
Proof. cbn. intros [=]. Qed.

(** ** A save *)

Definition new_token : CliToken := mkCliToken "new" "next" (now0 + 3600 * Second) "tempogate-cli".

Lemma save_atomic_witness :
  let '(s', r) := Save token_path new_token cli0 in
  r = Ret tt /\ stored token_path s' = Some (inr new_token) /\ option_map fst (y_files s' !! token_path) = Some 384.
Proof.
  destruct (Save token_path new_token cli0) as [s' r] eqn:E.
  assert (r = Ret tt) as -> by (vm_compute in E; congruence).
  destruct (save_atomic token_path new_token temp_apart cli0 s' (Ret tt) E) as [[_ Hr]|(Hs & Hp & _)]; [by destruct Hr|].
  split; [done|]. split; [exact Hs|exact Hp].
Defined.

(** ** Two refreshes at once *)

Definition refresh_cfg : refreshConfig :=
  mkRefreshConfig token_path "https://id.example" refreshSkew false defaultRefreshLockTimeout.

Lemma ensure_fresh_total_witness :
  exists s' r, EnsureFresh 1210 refresh_cfg 1 cli0 = (s', Some r) /\
    (forall tok, r = Ret tok -> stored token_path s' = Some (inr tok)) /\
    (forall e, r = Err e -> stored token_path s' = Some (inr old_token)).
Proof. apply (ensure_fresh_total refresh_cfg temp_apart (fun E => ltac:(discriminate E)) 1 1210 cli0). vm_compute. discriminate. Defined.

Example refreshed_run : (EnsureFresh 1210 refresh_cfg 1 cli0).2 =
  Some (Ret (mkCliToken "access" (minted_token 7) (now0 + 3600 * Second + 9000000) "tempogate-cli")).
Proof. vm_compute. reflexivity. Qed.

(** The processes run one phase each in the given order. *)
Fixpoint schedule_of (order : list nat) (m : Machine) : Machine :=
  match order with
  | [] => m
  | pid :: order =>
      match m_procs m !! pid with
      | None => schedule_of order (mkMachine (<[pid := Start]> (m_procs m)) (m_sys m) (m_log m))
      | Some ph =>
          let '(s, ph') := refresh_step refresh_cfg pid ph (m_sys m) in
          schedule_of order (mkMachine (<[pid := ph']> (m_procs m)) s (m_log m ++ logged ph ph'))
      end
  end.

Lemma schedule_steps order m : rtc (cstep issued_at refresh_cfg) m (schedule_of order m).
Proof.
  revert m. induction order as [|pid order IH]; intros [ps s l]; cbn [schedule_of m_procs m_sys m_log]; [done|].
  destruct (ps !! pid) as [ph|] eqn:Hp.
  - destruct (refresh_step refresh_cfg pid ph s) as [s' ph'] eqn:Hs. eapply rtc_l; [by eapply c_run|apply IH].
  - eapply rtc_l; [by eapply c_spawn|apply IH].
Qed.

Definition race : Machine := schedule_of [1; 2; 1; 2; 1; 2; 1; 2; 1; 2; 1; 2; 2]%nat (mkMachine ∅ cli0 []).

(** Both find the token stale; the second waits and then finds it fresh. *)
Example race_end :
  m_log race = [Posted "login"; Saved "login"] /\
  match m_procs race !! 1%nat, m_procs race !! 2%nat with
  | Some (Finished (Ret t1)), Some (Finished (Ret t2)) => bool_decide (token_fields t1 = token_fields t2)
  | _, _ => false
  end = true.
Proof. vm_compute. done. Qed.

Lemma refresh_exchanges_serialized_witness :
  m_log race = [Posted "login"; Saved "login"] /\
  (forall l1 l2 rt, m_log race = l1 ++ Saved rt :: l2 -> Posted rt ∉ l2) /\
  (forall l1 l2 l3 rt, m_log race = l1 ++ Posted rt :: l2 ++ Posted rt :: l3 -> Lost rt ∈ l2 \/ Unchanged rt ∈ l2).
Proof.
  split; [apply race_end|].
  apply (refresh_exchanges_serialized refresh_cfg temp_apart (fun E => ltac:(discriminate E)) (mkMachine ∅ cli0 []) race).
  - split; [done|]. split; [done|]. intros tok Ht. vm_compute in Ht. injection Ht as <-. exact I.
  - apply schedule_steps.
Defined.

(** A process killed between the exchange and the write leaves the spent token,
    and the next one presents it. *)
Definition killed : Machine :=
  let m := schedule_of [1; 1; 1; 1; 1]%nat (mkMachine ∅ cli0 []) in
  schedule_of [2; 2; 2; 2; 2]%nat (mkMachine (<[1%nat := Finished Died]> (m_procs m)) (release 1 (m_sys m)) (m_log m ++ [Lost "login"])).

Example killed_replays : m_log killed = [Posted "login"; Lost "login"; Posted "login"].
Proof. vm_compute. reflexivity. Qed.

(** ** A device sign-in *)

Definition device_flow : DeviceFlow := NewDeviceFlow "https://id.example/" "" 0 false.
Definition device_answer : deviceAuthResponse := mkDeviceAuthResponse "dc" "BCDF-GHJK" "https://id.example/device" "" 600 5.

Lemma device_polling_bounded_witness :
  exists s' r, pollLoop 602 device_flow device_answer cli0 = (s', r) /\ r <> Ret None /\ y_slept s' = repeat (5 * Second) 4.
Proof.
  destruct (pollLoop 602 device_flow device_answer cli0) as [s' r] eqn:E. exists s', r. split; [reflexivity|]. split.
  - apply (device_polling_bounded "https://id.example/" "" 0 false device_answer 602 cli0 s' r); [by vm_compute|by vm_compute|exact E].
  - assert (y_slept (pollLoop 602 device_flow device_answer cli0).1 = repeat (5 * Second) 4) as Hs by (vm_compute; reflexivity).
    by rewrite E in Hs.
Defined.

#[local] Instance cli_shell : Shell := {
  Getenv v := if (v =? "TEMPOGATE_LOGIN_MODE")%string then "device" else "";
  UserHomeDir := inr "/home/u/";
  println_stream := Stderr
}.

Definition login_flags : loginFlags := mkLoginFlags "https://id.example/" "" "" false false false 0.

(** TEMPOGATE_LOGIN_MODE=device tempogate login --issuer https://id.example/ *)
Definition signed_in := login 602 login_flags (inl (Opaque "")) (fun _ => None) [] cli0.

Example signed_in_out :
  signed_in.2 = Ret (Some tt) /\
  stored "/home/u/.tempogate/token.json" signed_in.1 = Some (inr (mkCliToken "access" (minted_token 18) 1700003615020000000 "tempogate-device")) /\
  List.map snd (drop 2 (y_out signed_in.1)) =
    ["Signed in. Token saved to /home/u/.tempogate/token.json, valid until 2023-11-14T23:13:35Z." +:+ nl; "access" +:+ nl].
Proof. vm_compute. done. Qed.

Example signed_in_sends : length (y_sent signed_in.1) = 5%nat.
Proof. vm_compute. reflexivity. Qed.

Lemma cli_confined_witness :
  exists s' r, login 602 login_flags (inl (Opaque "")) (fun _ => None) [] cli0 = (s', r) /\
    sends_to (issuer_bound false "https://id.example") cli0 s'.
Proof.
  destruct (login 602 login_flags (inl (Opaque "")) (fun _ => None) [] cli0) as [s' r] eqn:E. exists s', r. split; [reflexivity|].
  destruct (cli_confined "https://id.example/" "https://id.example/" cli0 s') as [Hlogin _]; [reflexivity|].
  exact (Hlogin _ login_flags _ _ _ _ eq_refl E).
Defined.

End CliExample.
