(* ===== verification/Surfaces.v ===== *)
(** * The HTTP surfaces (api/, cmd/servercmd/accesslog.go)

    The two handler trees the server listens on: which operation of which
    surface stands behind which middleware, the headers every response carries,
    what a client learns of a server error, readiness, the access log and the
    request's span.

    A handler is what it does to its response writer, in order: a list of
    actions. The HTTP framework (Huma) is an interface: an API binds the
    middleware chain it has when an operation is registered. *)

From stdpp Require Import pretty.
From S2P Require Import Prelude GoStrings GoErrors.

(** ** Requests, handlers, responses *)

Record HReq := mkHReq {
  hq_Method : string;
  hq_Path : string;
  hq_RawQuery : string;
  hq_Header : string -> string;
  hq_Body : string;
  hq_RemoteAddr : string;
  (** the request id in the context, [""] outside the middleware. *)
  hq_id : string
}.

Inductive action :=
  | SetHeader (k v : string)
  | WriteHeader (status : Z)
  | Write (b : string)
  | Log (level msg : string) (fields : list (string * string))
  | EndSpan (name : string) (attrs : list (string * string)) (failed : option (string * string))
  | Panic.

Definition Handler := HReq -> list action.
Definition Middleware := Handler -> Handler.

Definition is_panic (a : action) : bool := match a with Panic => true | _ => false end.
Fixpoint before_panic (l : list action) : list action :=
  match l with [] => [] | a :: l => if is_panic a then [] else a :: before_panic l end.

(** What a handler did that the client does not see. *)
Definition server_side (a : action) : bool := match a with Log _ _ _ | EndSpan _ _ _ => true | _ => false end.
Definition client_side (l : list action) : list action := List.filter (fun a => negb (server_side a)) l.

(** net/http's response writer: the header map, what the final header was sent
    with, and the bytes of the body it accepted. *)
Record reply := mkReply { rp_header : gmap string string; rp_sent : option (Z * gmap string string); rp_bytes : Z }.

Definition bodyAllowed (status : Z) : bool := negb ((100 <=? status) && (status <=? 199) || (status =? 204) || (status =? 304)).
Definition interim (status : Z) : bool := (100 <=? status) && (status <=? 199) && negb (status =? 101).

Definition send (status : Z) (r : reply) : reply :=
  match rp_sent r with
  | Some _ => r
  | None => if interim status then r else mkReply (rp_header r) (Some (status, rp_header r)) (rp_bytes r)
  end.

(** What [Write] returns of the bytes it was given. *)
Definition accepted (b : string) (r : reply) : Z :=
  match rp_sent (send 200 r) with
  | Some (status, _) => if bodyAllowed status then Z.of_nat (String.length b) else 0
  | None => 0
  end.

Definition reply_step (r : reply) (a : action) : reply :=
  match a with
  | SetHeader k v => mkReply (<[k := v]> (rp_header r)) (rp_sent r) (rp_bytes r)
  | WriteHeader status => send status r
  | Write b => let r' := send 200 r in mkReply (rp_header r') (rp_sent r') (rp_bytes r' + accepted b r)
  | _ => r
  end.

Definition new_reply : reply := mkReply ∅ None 0.

(** What the client gets of a handler that returns. *)
Definition respond (l : list action) : reply := send 200 (foldl reply_step new_reply l).
Definition status_of (l : list action) : Z := match rp_sent (respond l) with Some (st, _) => st | None => 0 end.
Definition header_of (k : string) (l : list action) : option string :=
  match rp_sent (respond l) with Some (_, h) => h !! k | None => None end.

(** ** The 5xx sanitizer (errors.go) *)

Definition StatusInternalServerError : Z := 500.

Record ErrorModel := mkErrorModel { em_Status : Z; em_Title : string; em_Detail : string; em_Errors : list (option string) }.

(** A body as a transformer sees it: Huma's error model, another status error
    with its text and what its [ClientSafe] reports, or a value. *)
Inductive body :=
  | BModel (em : ErrorModel)
  | BStatus (status : Z) (text : string) (client_safe : bool)
  | BValue (fields : list (string * string)).

Definition body_status (v : body) : option Z :=
  match v with BModel em => Some (em_Status em) | BStatus st _ _ => Some st | BValue _ => None end.
Definition ClientSafe (v : body) : bool := match v with BStatus _ _ cs => cs | _ => false end.

Definition errorDetail (v : body) : string :=
  match v with
  | BModel em => String.concat ": " (em_Detail em :: omap id (em_Errors em))
  | BStatus _ text _ => text
  | BValue _ => ""
  end.

Definition StatusText (status : Z) : string :=
  match status with
  | 500 => "Internal Server Error" | 501 => "Not Implemented" | 502 => "Bad Gateway"
  | 503 => "Service Unavailable" | 504 => "Gateway Timeout" | 505 => "HTTP Version Not Supported"
  | 506 => "Variant Also Negotiates" | 507 => "Insufficient Storage" | 508 => "Loop Detected"
  | 510 => "Not Extended" | 511 => "Network Authentication Required"
  | _ => ""
  end.

Definition Transformer := HReq -> body -> list action * body.

Definition sanitizeServerErrors : Transformer := fun rq v =>
  match body_status v with
  | None => ([], v)
  | Some status =>
      if status <? StatusInternalServerError then ([], v)
      else
        let log := Log "error" "request failed"
          [("request_id", hq_id rq); ("status", pretty status); ("method", hq_Method rq); ("path", hq_Path rq); ("error", errorDetail v)] in
        if ClientSafe v then ([log], v)
        else ([log], BModel (mkErrorModel status (StatusText status)
                (ascii_lower (StatusText status) +:+ " (request id " +:+ hq_id rq +:+ ")") []))
  end.

Fixpoint transform (ts : list Transformer) (rq : HReq) (v : body) : list action * body :=
  match ts with
  | [] => ([], v)
  | t :: ts => let (l1, v1) := t rq v in let (l2, v2) := transform ts rq v1 in (l1 ++ l2, v2)
  end.

(** ** The framework *)

(** An operation: what it answers, as a body and the actions that write it. *)
Record Operation := mkOperation { op_Method : string; op_Path : string; op_run : HReq -> Z * body }.

Record route := mkRoute { ro_Method : string; ro_Path : string; ro_handler : Handler }.

(** huma.Config as far as the code sets it. *)
Record HumaConfig := mkHumaConfig { hc_Transformers : list Transformer; hc_docs : bool }.

(** Write [v] with a status; how a body is encoded is the framework's. *)
Definition run_operation (encode : body -> string) (ts : list Transformer) (op : Operation) : Handler := fun rq =>
  let (status, v) := op_run op rq in
  let (logs, v') := transform ts rq v in
  logs ++ [SetHeader "Content-Type" "application/json"; WriteHeader status; Write (encode v')].

Definition chain (ms : list Middleware) (h : Handler) : Handler := foldr (fun m h => m h) h ms.

(** What tempogate relies on of Huma: an API adds its routes to a mux, an
    operation is bound to the middleware the API has when it is registered, and
    the documentation routes are there only where the configuration names their
    paths. *)
Class Huma (API : Type) := {
  huma_encode : body -> string;
  NewWithPrefix : string -> HumaConfig -> API;
  UseMiddleware : list Middleware -> API -> API;
  Register : Operation -> API -> API;
  huma_routes : API -> list route;
  huma_chain : API -> list Middleware;
  huma_prefix : API -> string;
  huma_transformers : API -> list Transformer
}.

Class HumaLaws (API : Type) `{Huma API} : Prop := {
  new_prefix p c : huma_prefix (NewWithPrefix p c) = p;
  new_chain p c : huma_chain (NewWithPrefix p c) = [];
  new_transformers p c : huma_transformers (NewWithPrefix p c) = hc_Transformers c;
  new_no_docs p c : hc_docs c = false -> huma_routes (NewWithPrefix p c) = [];
  use_routes ms a : huma_routes (UseMiddleware ms a) = huma_routes a;
  use_chain ms a : huma_chain (UseMiddleware ms a) = huma_chain a ++ ms;
  use_prefix ms a : huma_prefix (UseMiddleware ms a) = huma_prefix a;
  use_transformers ms a : huma_transformers (UseMiddleware ms a) = huma_transformers a;
  register_routes op a : huma_routes (Register op a) = huma_routes a ++
    [mkRoute (op_Method op) (huma_prefix a +:+ op_Path op)
       (chain (huma_chain a) (run_operation huma_encode (huma_transformers a) op))];
  register_chain op a : huma_chain (Register op a) = huma_chain a;
  register_prefix op a : huma_prefix (Register op a) = huma_prefix a;
  register_transformers op a : huma_transformers (Register op a) = huma_transformers a
}.

(** ** The mux (net/http) *)

(** A segment of a pattern, literal or wildcard. *)
Definition wildcard (seg : string) : bool := HasPrefix seg "{".
Fixpoint segments_match (pat path : list string) : bool :=
  match pat, path with
  | [], [] => true
  | p :: pat, s :: path => (if wildcard p then negb (s =? "")%string else (p =? s)%string) && segments_match pat path
  | _, _ => false
  end.

Definition path_matches (rq : HReq) (r : route) : bool := segments_match (Split (ro_Path r) "/") (Split (hq_Path rq) "/").
Definition method_matches (rq : HReq) (r : route) : bool :=
  (ro_Method r =? "")%string || (ro_Method r =? hq_Method rq)%string || ((ro_Method r =? "GET") && (hq_Method rq =? "HEAD"))%string.

(** The matching pattern with the fewest wildcards: the mux refuses patterns
    neither of which is more specific. *)
Definition wildcards (r : route) : nat := length (List.filter wildcard (Split (ro_Path r) "/")).
Definition better (best : option route) (r : route) : option route :=
  match best with Some b => if (wildcards r <? wildcards b)%nat then Some r else Some b | None => Some r end.
Definition mux_find (rs : list route) (rq : HReq) : option route :=
  foldl better None (List.filter (fun r => path_matches rq r && method_matches rq r) rs).

Definition http_Error (text : string) (status : Z) : list action :=
  [SetHeader "Content-Type" "text/plain; charset=utf-8"; SetHeader "X-Content-Type-Options" "nosniff"; WriteHeader status; Write text].

Definition allowed_methods (rs : list route) (rq : HReq) : list string :=
  let ms := List.map ro_Method (List.filter (path_matches rq) rs) in
  merge_sort string_le (remove_dups (if bool_decide ("GET" ∈ ms) then "HEAD" :: ms else ms)).

Definition serve_mux (rs : list route) : Handler := fun rq =>
  match mux_find rs rq with
  | Some r => ro_handler r rq
  | None =>
      if existsb (path_matches rq) rs
      then SetHeader "Allow" (String.concat ", " (allowed_methods rs rq)) :: http_Error "Method Not Allowed" 405
      else http_Error "404 page not found" 404
  end.

(** [r.Pattern] of a request the mux has served. *)
Definition mux_pattern (rs : list route) (rq : HReq) : string :=
  match mux_find rs rq with
  | Some r => if (ro_Method r =? "")%string then ro_Path r else ro_Method r +:+ " " +:+ ro_Path r
  | None => ""
  end.

(** ** Readiness and health (readiness.go, health.go) *)

(** The store's probe is [None] in a graph without one. *)
Record Readiness := mkReadiness { rd_ready : bool; rd_probe : option (option error) }.

Definition NewReadiness (probe : option (option error)) : Readiness := mkReadiness false probe.
Definition Mark (r : Readiness) : Readiness := mkReadiness true (rd_probe r).
Definition IsReady (r : Readiness) : bool := rd_ready r.

Definition errNotListening : string := "http listener not bound yet".
Definition errStoreUnavailable : string := "state store unavailable".

(** [r.Check(ctx)]: the text of its error. *)
Definition readiness_Check (r : Readiness) : option string :=
  if negb (IsReady r) then Some errNotListening
  else match rd_probe r with Some (Some _) => Some errStoreUnavailable | _ => None end.

(** [huma.ErrorNNN(msg)] with no wrapped errors. *)
Definition huma_error (status : Z) (msg : string) : Z * body := (status, BModel (mkErrorModel status (StatusText status) msg [])).

Definition healthz : Operation := mkOperation "GET" "/healthz" (fun _ => (200, BValue [("status", "ok")])).
Definition readyz (r : Readiness) : Operation := mkOperation "GET" "/readyz" (fun _ =>
  match readiness_Check r with
  | Some e => huma_error 503 ("not ready: " +:+ e)
  | None => (200, BValue [("status", "ready")])
  end).
Definition admin_healthz (version : string) : Operation :=
  mkOperation "GET" "/admin/healthz" (fun _ => (200, BValue [("status", "ok"); ("version", version)])).

(** ** Listener-wide middleware *)

Definition defaultContentSecurityPolicy : string :=
  "default-src 'none'; base-uri 'none'; form-action 'self'; frame-ancestors 'none'".

Definition security_headers : list (string * string) :=
  [("Content-Security-Policy", defaultContentSecurityPolicy); ("X-Frame-Options", "DENY");
   ("X-Content-Type-Options", "nosniff"); ("Referrer-Policy", "no-referrer")].

Definition withSecurityHeaders : Middleware := fun next rq =>
  ((fun kv => SetHeader kv.1 kv.2) <$> security_headers) ++ next rq.

Definition RequestIDHeader : string := "X-Request-Id".

Definition with_id (id : string) (rq : HReq) : HReq :=
  mkHReq (hq_Method rq) (hq_Path rq) (hq_RawQuery rq) (hq_Header rq) (hq_Body rq) (hq_RemoteAddr rq) id.

(** [requestid.Middleware(next)], its [rand.Text()] an argument. *)
Definition requestid_Middleware (fresh : string) : Middleware := fun next rq =>
  SetHeader RequestIDHeader fresh :: next (with_id fresh rq).

(** *** Status recorders (tracing.go, accesslog.go) *)

Record statusRecorder := mkRecorder { sr_status : Z; sr_wroteHeader : bool; sr_bytes : Z }.
Definition new_recorder : statusRecorder := mkRecorder 200 false 0.

(** One call on the recorder, over the writer it wraps. *)
Definition record_step (s : statusRecorder * reply) (a : action) : statusRecorder * reply :=
  let '(rec, r) := s in
  let rec' :=
    match a with
    | WriteHeader code => if negb (sr_wroteHeader rec) && (200 <=? code) then mkRecorder code true (sr_bytes rec) else rec
    | Write b => mkRecorder (sr_status rec) true (sr_bytes rec + accepted b r)
    | _ => rec
    end in
  (rec', reply_step r a).

Definition recorded_by (l : list action) : statusRecorder := (foldl record_step (new_recorder, new_reply) l).1.

(** *** Tracing (tracing.go) *)

Definition untracedPaths : list string := ["/healthz"; "/readyz"; "/admin/healthz"; "/metrics"].
Definition knownMethods : list string := ["CONNECT"; "DELETE"; "GET"; "HEAD"; "OPTIONS"; "PATCH"; "POST"; "PUT"; "TRACE"].

Definition knownMethod (method : string) : string * string :=
  if bool_decide (method ∈ knownMethods) then (method, method) else ("_OTHER", "HTTP").

Definition routePath (pattern : string) : string := match Cut pattern " " with Some (_, path) => path | None => pattern end.

(** The detail the sanitizer hands to the request's span beside its log line. *)
Definition requestFailure (l : list action) : option string :=
  foldl (fun acc a => match a with
                      | Log "error" "request failed" fields =>
                          match List.find (fun kv => (kv.1 =? "error")%string) fields with Some kv => Some kv.2 | None => acc end
                      | _ => acc
                      end) None l.

Definition traceRequests (surface : string) (rs : list route) : Handler := fun rq =>
  if bool_decide (hq_Path rq ∈ untracedPaths) then serve_mux rs rq
  else
    let (method, name) := knownMethod (hq_Method rq) in
    let l := serve_mux rs rq in
    let done := before_panic l in
    let panicked := existsb is_panic l in
    let status := if panicked then StatusInternalServerError else sr_status (recorded_by l) in
    let path := routePath (mux_pattern rs rq) in
    let attrs := [("http.request.method", method); ("tempogate.listener", surface); ("tempogate.request_id", hq_id rq)] ++
                 (if (path =? "")%string then [] else [("http.route", path)]) ++ [("http.response.status_code", pretty status)] in
    done ++ [EndSpan (if (path =? "")%string then name else name +:+ " " +:+ path) attrs
               (if StatusInternalServerError <=? status then Some (pretty status, default "" (requestFailure done)) else None)]
         ++ (if panicked then [Panic] else []).

(** ** The surfaces (api.go) *)

Section Surfaces.
Context {API : Type} `{Huma API}.
(** Huma's own transformers and the build's version. *)
Context (default_transformers : list Transformer) (version : string).

Definition Registrar := list Operation.
Definition run_registrar (a : API) (r : Registrar) : API := foldl (fun a op => Register op a) a r.

Record apiConfig := mkApiConfig {
  registrars : list Registrar;
  adminRegistrars : list Registrar;
  middlewares : list Middleware;
  adminMiddlewares : list Middleware;
  adminHandlers : list route;
  basePath : string;
  docs : bool;
  traced : bool
}.

Definition newHumaConfig (with_docs : bool) : HumaConfig := mkHumaConfig (sanitizeServerErrors :: default_transformers) with_docs.
Definition withoutDocs (hc : HumaConfig) : HumaConfig := mkHumaConfig (hc_Transformers hc) false.
Definition humaConfig (c : apiConfig) : HumaConfig :=
  let hc := newHumaConfig true in if negb (docs c) then withoutDocs hc else hc.

Definition registerHealth (readiness : Readiness) (a : API) : API := Register (readyz readiness) (Register healthz a).

Record Surface := mkSurface { sf_API : API; sf_routes : list route; sf_Prefix : string; sf_name : string }.

Definition newPublic (readiness : Readiness) (c : apiConfig) : Surface :=
  if (basePath c =? "")%string then
    let a := registerHealth readiness (UseMiddleware (middlewares c) (NewWithPrefix "" (humaConfig c))) in
    let a := foldl run_registrar a (registrars c) in
    mkSurface a (huma_routes a) "" "public"
  else
    let healthAPI := registerHealth readiness (NewWithPrefix "" (withoutDocs (newHumaConfig true))) in
    let oidcAPI := foldl run_registrar (UseMiddleware (middlewares c) (NewWithPrefix (basePath c) (humaConfig c))) (registrars c) in
    mkSurface oidcAPI (huma_routes healthAPI ++ huma_routes oidcAPI) (basePath c) "public".

Definition newAdmin (c : apiConfig) : Surface :=
  let a := Register (admin_healthz version) (NewWithPrefix "" (withoutDocs (newHumaConfig true))) in
  let a := foldl (fun a m => UseMiddleware [m] a) a (adminMiddlewares c) in
  let a := foldl run_registrar a (adminRegistrars c) in
  mkSurface a (huma_routes a ++ adminHandlers c) "" "admin".

(** [c.wrap(surface, mux)]. *)
Definition wrap (c : apiConfig) (fresh : string) (sf : Surface) : Handler :=
  requestid_Middleware fresh (withSecurityHeaders (if traced c then traceRequests (sf_name sf) (sf_routes sf) else serve_mux (sf_routes sf))).

Definition Option_ := apiConfig -> apiConfig.
Definition WithDocs (b : bool) : Option_ := fun c => mkApiConfig (registrars c) (adminRegistrars c) (middlewares c) (adminMiddlewares c) (adminHandlers c) (basePath c) b (traced c).
Definition WithRegistrar (r : Registrar) : Option_ := fun c => mkApiConfig (registrars c ++ [r]) (adminRegistrars c) (middlewares c) (adminMiddlewares c) (adminHandlers c) (basePath c) (docs c) (traced c).
Definition WithAdminRegistrar (r : Registrar) : Option_ := fun c => mkApiConfig (registrars c) (adminRegistrars c ++ [r]) (middlewares c) (adminMiddlewares c) (adminHandlers c) (basePath c) (docs c) (traced c).
Definition WithMiddleware (m : Middleware) : Option_ := fun c => mkApiConfig (registrars c) (adminRegistrars c) (middlewares c ++ [m]) (adminMiddlewares c) (adminHandlers c) (basePath c) (docs c) (traced c).
Definition WithAdminMiddleware (m : Middleware) : Option_ := fun c => mkApiConfig (registrars c) (adminRegistrars c) (middlewares c) (adminMiddlewares c ++ [m]) (adminHandlers c) (basePath c) (docs c) (traced c).
Definition WithAdminHandler (h : route) : Option_ := fun c => mkApiConfig (registrars c) (adminRegistrars c) (middlewares c) (adminMiddlewares c) (adminHandlers c ++ [h]) (basePath c) (docs c) (traced c).
Definition WithBasePath (p : string) : Option_ := fun c => mkApiConfig (registrars c) (adminRegistrars c) (middlewares c) (adminMiddlewares c) (adminHandlers c) p (docs c) (traced c).
Definition WithTracer (b : bool) : Option_ := fun c => mkApiConfig (registrars c) (adminRegistrars c) (middlewares c) (adminMiddlewares c) (adminHandlers c) (basePath c) (docs c) b.

(** [New(readiness, opts...)]: the public and the admin surface. *)
Definition configure (opts : list Option_) : apiConfig := foldl (fun c o => o c) (mkApiConfig [] [] [] [] [] "" false false) opts.
Definition New (readiness : Readiness) (opts : list Option_) : Surface * Surface :=
  let c := configure opts in (newPublic readiness c, newAdmin c).

(** What the graph hands to [newServers(p)] (fx.go). *)
Record serversParams := mkServersParams {
  sp_BasePath : string; sp_Docs : bool; sp_WellKnown : Registrar; sp_Traced : bool;
  sp_Registrars : list Registrar; sp_AdminRegistrars : list Registrar;
  sp_Middlewares : list Middleware; sp_AdminMiddlewares : list Middleware; sp_Metrics : option Handler
}.

Definition server_options (p : serversParams) : list Option_ :=
  [WithBasePath (sp_BasePath p); WithDocs (sp_Docs p); WithRegistrar (sp_WellKnown p); WithTracer (sp_Traced p)] ++
  (WithRegistrar <$> sp_Registrars p) ++ (WithAdminRegistrar <$> sp_AdminRegistrars p) ++
  (WithMiddleware <$> sp_Middlewares p) ++ (WithAdminMiddleware <$> sp_AdminMiddlewares p) ++
  (match sp_Metrics p with Some h => [WithAdminHandler (mkRoute "GET" "/metrics" h)] | None => [] end).

Definition newServers (readiness : Readiness) (p : serversParams) : Surface * Surface := New readiness (server_options p).

End Surfaces.

(** ** The access log (cmd/servercmd/accesslog.go) *)

Definition quietPaths : list string := ["/healthz"; "/readyz"; "/admin/healthz"; "/metrics"].

(** The line, given how long the request took; [None] where the level is off. *)
Definition access_line (enabled : string -> bool) (listener elapsed : string) (rq : HReq) (l : list action) : option action :=
  let level := if bool_decide (hq_Path rq ∈ quietPaths) then "debug" else "info" in
  if negb (enabled level) then None
  else
    let rec := recorded_by l in
    let id := default "" (rp_header (foldl reply_step new_reply l) !! RequestIDHeader) in
    Some (Log level "http request" (
      [("listener", listener); ("method", hq_Method rq); ("path", hq_Path rq); ("status", pretty (sr_status rec));
       ("duration", elapsed); ("bytes", pretty (sr_bytes rec)); ("remote_addr", hq_RemoteAddr rq);
       ("user_agent", hq_Header rq "User-Agent")] ++
      (if (id =? "")%string then [] else [("request_id", id)]))).

(** [accessLog(logger, listener, next)]; a handler that panics gets no line. *)
Definition accessLog (enabled : string -> bool) (listener elapsed : string) : Middleware := fun next rq =>
  let l := next rq in
  if existsb is_panic l then l else l ++ match access_line enabled listener elapsed rq l with Some line => [line] | None => [] end.
