(* ===== verification/SurfaceFacts.v ===== *)
(** * The HTTP surfaces: what they promise

    Every admin route but the liveness probe and the mounted handlers is behind
    the guard; the public surface has no admin route; a client learns nothing of
    a server error but its status and the request id; every response carries the
    security headers; the access log says what the client got. *)

From stdpp Require Import pretty.
From S2P Require Import Prelude GoStrings GoErrors Surfaces.

(** ** Routes *)

Section Routes.
Context {API : Type} `{HumaLaws API}.
Context (default_transformers : list Transformer) (version : string).

(** How an API serves an operation registered now. *)
Definition bound (a : API) (op : Operation) : route :=
  mkRoute (op_Method op) (huma_prefix a +:+ op_Path op) (chain (huma_chain a) (run_operation huma_encode (huma_transformers a) op)).

Definition same_binding (a b : API) : Prop :=
  huma_chain a = huma_chain b /\ huma_prefix a = huma_prefix b /\ huma_transformers a = huma_transformers b.

Lemma bound_same a b op : same_binding a b -> bound a op = bound b op.
Proof. unfold bound. by intros (-> & -> & ->). Qed.

Lemma run_registrar_spec a ops :
  huma_routes (run_registrar a ops) = huma_routes a ++ (bound a <$> ops) /\ same_binding (run_registrar a ops) a.
Proof.
  unfold run_registrar, same_binding. revert a. induction ops as [|op ops IH]; intros a; cbn; [by rewrite app_nil_r|].
  destruct (IH (Register op a)) as [-> (-> & -> & ->)].
  rewrite register_routes, register_chain, register_prefix, register_transformers, <-app_assoc. split; [|done].
  do 2 f_equal. apply list_fmap_ext. intros i x _. apply bound_same. split_and!;
    [apply register_chain|apply register_prefix|apply register_transformers].
Qed.

Lemma registrars_spec a rs :
  huma_routes (foldl run_registrar a rs) = huma_routes a ++ (bound a <$> mjoin rs) /\ same_binding (foldl run_registrar a rs) a.
Proof.
  revert a. induction rs as [|r rs IH]; intros a; cbn; [by rewrite app_nil_r|].
  destruct (run_registrar_spec a r) as [Hr Hb]. destruct (IH (run_registrar a r)) as [-> Hb'].
  rewrite Hr, fmap_app, <-app_assoc. split.
  - do 2 f_equal. apply list_fmap_ext. intros i x _. by apply bound_same.
  - destruct Hb as (? & ? & ?), Hb' as (? & ? & ?). split_and!; congruence.
Qed.

Lemma use_each a ms :
  huma_routes (foldl (fun a m => UseMiddleware [m] a) a ms) = huma_routes a /\
  huma_chain (foldl (fun a m => UseMiddleware [m] a) a ms) = huma_chain a ++ ms /\
  huma_prefix (foldl (fun a m => UseMiddleware [m] a) a ms) = huma_prefix a /\
  huma_transformers (foldl (fun a m => UseMiddleware [m] a) a ms) = huma_transformers a.
Proof.
  revert a. induction ms as [|m ms IH]; intros a; cbn; [by rewrite app_nil_r|].
  destruct (IH (UseMiddleware [m] a)) as (-> & -> & -> & ->). by rewrite use_routes, use_chain, use_prefix, use_transformers, <-app_assoc.
Qed.

Abbreviation newAdmin := (Surfaces.newAdmin default_transformers version).
Abbreviation newPublic := (Surfaces.newPublic default_transformers).
Abbreviation transformers := (sanitizeServerErrors :: default_transformers).

(** An operation behind a chain, under a prefix. *)
Definition operation_route (ms : list Middleware) (prefix : string) (op : Operation) : route :=
  mkRoute (op_Method op) (prefix +:+ op_Path op) (chain ms (run_operation huma_encode transformers op)).

Lemma admin_routes c :
  sf_routes (newAdmin c) =
    operation_route [] "" (admin_healthz version) ::
    (operation_route (adminMiddlewares c) "" <$> mjoin (adminRegistrars c)) ++ adminHandlers c.
Proof.
  unfold Surfaces.newAdmin. cbn [sf_routes]. set (a0 := NewWithPrefix "" _).
  set (a1 := Register (admin_healthz version) a0).
  destruct (registrars_spec (foldl (fun a m => UseMiddleware [m] a) a1 (adminMiddlewares c)) (adminRegistrars c)) as [-> _].
  destruct (use_each a1 (adminMiddlewares c)) as (-> & Hc & Hp & Ht).
  unfold a1 in *. rewrite register_routes. rewrite register_chain in Hc. rewrite register_prefix in Hp. rewrite register_transformers in Ht.
  unfold a0 in *. rewrite new_chain in *. rewrite new_prefix in *. rewrite new_transformers in *. rewrite new_no_docs by done. cbn.
  f_equal. f_equal. apply list_fmap_ext. intros i x _. unfold bound, operation_route. by rewrite Hc, Hp, Ht.
Qed.

(** The documentation routes the framework adds to the public surface. *)
Definition docs_routes (c : apiConfig) : list route := huma_routes (NewWithPrefix (API := API) (basePath c) (humaConfig default_transformers c)).

Lemma docs_routes_off c r : r ∈ docs_routes c -> docs c = true.
Proof.
  unfold docs_routes, humaConfig. destruct (docs c); [done|]. cbn [negb]. rewrite new_no_docs by done. by intros ?%not_elem_of_nil.
Qed.

(** The routes of the public surface, each operation with the middleware it is
    behind. *)
Definition public_operations (readiness : Readiness) (c : apiConfig) : list route :=
  if (basePath c =? "")%string
  then docs_routes c ++ (operation_route (middlewares c) "" <$> healthz :: readyz readiness :: mjoin (registrars c))
  else (operation_route [] "" <$> [healthz; readyz readiness]) ++
       docs_routes c ++ (operation_route (middlewares c) (basePath c) <$> mjoin (registrars c)).

Lemma public_routes readiness c : sf_routes (newPublic readiness c) = public_operations readiness c.
Proof.
  unfold Surfaces.newPublic, public_operations, registerHealth, docs_routes.
  assert (hc_Transformers (humaConfig default_transformers c) = transformers) as Ht by (unfold humaConfig; by destruct (docs c)).
  destruct (basePath c =? "")%string eqn:Hb; cbn [sf_routes].
  - apply String.eqb_eq in Hb. rewrite Hb.
    destruct (registrars_spec (Register (readyz readiness) (Register healthz (UseMiddleware (middlewares c) (NewWithPrefix "" (humaConfig default_transformers c)))))
                (registrars c)) as [-> _].
    unfold bound. rewrite !register_routes, !register_chain, !register_prefix, !register_transformers, use_routes, use_chain, use_prefix,
      use_transformers, new_chain, new_prefix, new_transformers, Ht, <-!app_assoc. done.
  - destruct (registrars_spec (UseMiddleware (middlewares c) (NewWithPrefix (basePath c) (humaConfig default_transformers c))) (registrars c)) as [-> _].
    unfold bound. rewrite !register_routes, !register_chain, !register_prefix, !register_transformers, use_routes, use_chain, use_prefix,
      use_transformers, !new_chain, !new_prefix, !new_transformers, Ht. rewrite (new_no_docs "") by done. done.
Qed.

Lemma mux_find_in rs rq r : mux_find rs rq = Some r -> r ∈ rs.
Proof.
  unfold mux_find. enough (Hin : forall l best, foldl better best l = Some r -> best = Some r \/ r ∈ l).
  { intros [[=]|Hr%list_elem_of_In]%Hin. apply filter_In in Hr as [Hr _]. by apply list_elem_of_In. }
  induction l as [|x l IH]; cbn; intros best Hf; [auto|]. apply IH in Hf as [Hf|Hf]; [|by right; right].
  destruct best as [b|]; unfold better in Hf; [destruct (wildcards x <? wildcards b)%nat|]; injection Hf as <-; [right; by left|by left|right; by left].
Qed.

(** C15. Every admin route is behind the guard, and the public surface has none.
    Whatever the options and in whatever order they were given: a request the
    guard answers itself gets that answer from the admin surface, whichever
    operation it names, unless it names the liveness probe or a handler mounted
    outside the framework; and a route of the public surface is a health probe at
    the root, an operation of a public registrar under the base path or, only
    with documentation enabled, a route the framework documents the public API
    with, whatever the admin surface has. *)
Theorem surfaces_isolated (readiness : Readiness) (c : apiConfig) (guard : Middleware) (ms : list Middleware) (rq : HReq) (out : list action) :
  adminMiddlewares c = guard :: ms -> (forall next, guard next rq = out) ->
  (forall r, mux_find (sf_routes (newAdmin c)) rq = Some r ->
     serve_mux (sf_routes (newAdmin c)) rq = out \/ ro_Path r = "/admin/healthz" \/ r ∈ adminHandlers c) /\
  (forall r, r ∈ sf_routes (newPublic readiness c) ->
     ro_Path r = "/healthz" \/ ro_Path r = "/readyz" \/
     (exists op, op ∈ mjoin (registrars c) /\ ro_Path r = basePath c +:+ op_Path op /\
       ro_handler r = chain (middlewares c) (run_operation huma_encode transformers op)) \/
     (docs c = true /\ r ∈ docs_routes c)).
Proof.
  intros Hm Hg. split.
  - intros r Hf. unfold serve_mux. rewrite Hf. apply mux_find_in in Hf. rewrite admin_routes, elem_of_cons, elem_of_app in Hf.
    destruct Hf as [->|[(op & -> & _)%list_elem_of_fmap|Hf]]; [right; by left| |by right; right].
    left. cbn. rewrite Hm. apply Hg.
  - intros r. rewrite public_routes. unfold public_operations. pose proof (docs_routes_off c r) as Hd.
    destruct (basePath c =? "")%string eqn:Hb; [apply String.eqb_eq in Hb|]; rewrite ?Hb;
      rewrite !fmap_cons, ?fmap_nil, ?elem_of_app, !elem_of_cons, ?elem_of_nil, ?elem_of_app.
    + intros [Hr|[->|[->|(op & -> & Hop)%list_elem_of_fmap]]]; [by auto 6|by left|by right; left|]. right. right. left. by exists op.
    + intros [[->|[->|[]]]|[Hr|(op & -> & Hop)%list_elem_of_fmap]]; [by left|by right; left|by auto 6|]. right. right. left. by exists op.
Qed.

(** ** Server errors *)

Lemma transform_cons t ts rq v :
  transform (t :: ts) rq v = ((t rq v).1 ++ (transform ts rq (t rq v).2).1, (transform ts rq (t rq v).2).2).
Proof. cbn [transform]. destruct (t rq v) as [l1 v1]. cbn [fst snd]. by destruct (transform ts rq v1). Qed.

Lemma client_side_app l1 l2 : client_side (l1 ++ l2) = client_side l1 ++ client_side l2.
Proof. apply List.filter_app. Qed.

(** A 5xx body not written for the client becomes a generic one. *)
Lemma sanitize_server rq v st :
  body_status v = Some st -> 500 <= st -> ClientSafe v = false ->
  client_side (sanitizeServerErrors rq v).1 = [] /\
  (exists fields, Log "error" "request failed" fields ∈ (sanitizeServerErrors rq v).1 /\ ("error", errorDetail v) ∈ fields /\ ("request_id", hq_id rq) ∈ fields) /\
  (sanitizeServerErrors rq v).2 =
    BModel (mkErrorModel st (StatusText st) (ascii_lower (StatusText st) +:+ " (request id " +:+ hq_id rq +:+ ")") []).
Proof.
  intros Hs Hst Hc. unfold sanitizeServerErrors. rewrite Hs, Hc. unfold StatusInternalServerError.
  replace (st <? 500) with false by (symmetry; apply Z.ltb_ge; lia). split_and!; [done| |done].
  eexists. split; [by left|]. split; [by do 4 right; left|by left].
Qed.

(** C16. A client learns nothing of a server error. A request to two operations
    that fail in different ways with the same status, 500 or above, gets the same
    response, header, status and body, from the handlers the surfaces mount for
    them, unless the error was written for clients. The detail is logged under
    the request id, whatever else the response goes through. *)
Theorem server_errors_hidden (op1 op2 : Operation) (rq : HReq) (st : Z) (v1 v2 : body) :
  op_run op1 rq = (st, v1) -> op_run op2 rq = (st, v2) ->
  body_status v1 = Some st -> body_status v2 = Some st -> 500 <= st ->
  ClientSafe v1 = false -> ClientSafe v2 = false ->
  let answer op := run_operation huma_encode transformers op rq in
  client_side (answer op1) = client_side (answer op2) /\
  exists fields, Log "error" "request failed" fields ∈ answer op1 /\
    ("error", errorDetail v1) ∈ fields /\ ("request_id", hq_id rq) ∈ fields.
Proof.
  intros H1 H2 Hs1 Hs2 Hst Hc1 Hc2 answer. unfold answer, run_operation. rewrite H1, H2, !transform_cons.
  destruct (sanitize_server rq v1 st) as (Hl1 & (fields & Hf & Hfs) & ->); [done..|].
  destruct (sanitize_server rq v2 st) as (Hl2 & _ & ->); [done..|]. split.
  - by rewrite !client_side_app, Hl1, Hl2.
  - exists fields. split; [|done]. apply elem_of_app. left. apply elem_of_app. by left.
Qed.

End Routes.

(** ** What every response carries *)

(** [h] has [k] at [v], now and in the header already sent. *)
Definition carries (k v : string) (r : reply) : Prop :=
  rp_header r !! k = Some v /\ (forall st h, rp_sent r = Some (st, h) -> h !! k = Some v).

Lemma carries_send k v st r : carries k v r -> carries k v (send st r).
Proof.
  intros [H1 H2]. unfold send. destruct (rp_sent r) as [[st' h]|] eqn:E; [split; [done|]; by rewrite E|].
  destruct (interim st); [split; [done|]; by rewrite E|]. split; [done|]. by intros ? ? [= _ <-].
Qed.

Lemma carries_steps k v l r :
  (forall v', SetHeader k v' ∈ l -> v' = v) -> carries k v r -> carries k v (foldl reply_step r l).
Proof.
  revert r. induction l as [|a l IH]; intros r Hset Hr; cbn; [done|].
  apply IH; [intros v' Hv'; apply Hset; by right|]. destruct a as [k' v'|st|b|lv msg fs|n ats f|]; cbn; try done.
  - destruct Hr as [H1 H2]. split; [|done]. cbn. destruct (decide (k' = k)) as [->|].
    + rewrite lookup_insert_eq. f_equal. apply Hset. by left.
    + by rewrite lookup_insert_ne.
  - by apply carries_send.
  - destruct (carries_send k v 200 r Hr) as [H1 H2]. by split.
Qed.

Lemma carries_respond k v l r : carries k v (foldl reply_step r l) -> 
  match rp_sent (send 200 (foldl reply_step r l)) with Some (_, h) => h !! k = Some v | None => False end.
Proof.
  intros Hc. pose proof (carries_send k v 200 _ Hc) as [_ Hs]. unfold send in *.
  destruct (rp_sent (foldl reply_step r l)) as [[st h]|] eqn:E; [rewrite E in *; by eapply Hs|]. cbn. by eapply Hs.
Qed.

(** Every response of a surface carries the request's id and the security
    headers, a mux 404 or 405 as well, unless its handler set its own. *)
Lemma responses_carry {API} `{Huma API} (c : apiConfig) (fresh : string) (sf : Surface (API := API)) (rq : HReq) (k v : string) :
  (k, v) ∈ (RequestIDHeader, fresh) :: security_headers ->
  let inner := if traced c then traceRequests (sf_name sf) (sf_routes sf) else serve_mux (sf_routes sf) in
  (forall v', SetHeader k v' ∈ inner (with_id fresh rq) -> v' = v) ->
  header_of k (wrap c fresh sf rq) = Some v.
Proof.
  intros Hk inner Hset. unfold header_of, respond, wrap, requestid_Middleware, withSecurityHeaders. fold inner.
  change (SetHeader RequestIDHeader fresh :: ?l) with ([SetHeader RequestIDHeader fresh] ++ l).
  rewrite app_assoc, foldl_app. set (r0 := foldl _ new_reply _).
  assert (Hr0 : carries k v r0).
  { split; [|done]. unfold security_headers in Hk. rewrite !elem_of_cons in Hk.
    destruct Hk as [[= -> ->]|[[= -> ->]|[[= -> ->]|[[= -> ->]|[[= -> ->]|Hk%not_elem_of_nil]]]]]; done. }
  pose proof (carries_respond _ _ _ _ (carries_steps k v (inner (with_id fresh rq)) r0 Hset Hr0)) as Hs.
  by destruct (rp_sent _) as [[st h]|].
Qed.

(** ** The access log *)

(** A status net/http takes as final or as interim; 101 switches protocols. *)
Definition plain_status (a : action) : Prop := match a with WriteHeader st => 100 <= st /\ st <> 101 | _ => True end.

Definition in_step (rec : statusRecorder) (r : reply) : Prop :=
  sr_bytes rec = rp_bytes r /\
  match rp_sent r with
  | Some (st, _) => sr_wroteHeader rec = true /\ sr_status rec = st
  | None => sr_wroteHeader rec = false /\ sr_status rec = 200
  end.

Lemma interim_spec st : 100 <= st -> st <> 101 -> interim st = negb (200 <=? st).
Proof.
  intros H1 H2. unfold interim. replace (100 <=? st) with true by (symmetry; apply Z.leb_le; lia).
  replace (st =? 101) with false by (symmetry; apply Z.eqb_neq; lia). destruct (Z.leb_spec 200 st), (Z.leb_spec st 199); cbn; lia || done.
Qed.

Lemma recorder_in_step rec r a :
  plain_status a -> in_step rec r -> in_step (record_step (rec, r) a).1 (record_step (rec, r) a).2.
Proof.
  unfold in_step, record_step. intros Hp [Hb Hs]. destruct a as [k v|st|b|lv msg fs|n ats f|]; cbn; try done.
  - unfold send. destruct (rp_sent r) as [[st' h]|] eqn:E.
    + destruct Hs as [Hw Hs]. rewrite Hw. cbn. by rewrite E.
    + destruct Hp as [H1 H2]. destruct Hs as [Hw Hs]. rewrite (interim_spec st H1 H2), Hw. cbn. destruct (200 <=? st); cbn; [done|by rewrite E].
  - unfold accepted, send. destruct (rp_sent r) as [[st' h]|] eqn:E; cbn; rewrite ?E.
    + destruct Hs as [Hw Hs]. split; [by rewrite Hb|done].
    + destruct Hs as [Hw Hs]. split; [by rewrite Hb|done].
Qed.

Lemma recorder_run l :
  Forall plain_status l -> in_step (recorded_by l) (foldl reply_step new_reply l).
Proof.
  intros Hl. unfold recorded_by.
  enough (Hg : forall l s, Forall plain_status l -> in_step s.1 s.2 ->
            in_step (foldl record_step s l).1 (foldl record_step s l).2 /\ (foldl record_step s l).2 = foldl reply_step s.2 l).
  { destruct (Hg l (new_recorder, new_reply) Hl) as [H1 H2]; [done|]. by rewrite H2 in H1. }
  clear l Hl. induction l as [|a l IH]; intros [rec r] Hl Hs; [done|]. apply Forall_cons in Hl as [Ha Hl].
  cbn [foldl]. destruct (IH (record_step (rec, r) a) Hl) as [H1 H2]; [by apply recorder_in_step|]. split; [exact H1|]. rewrite H2. reflexivity.
Qed.

(** The access log says what the client got. Of a handler that returns, the
    status and the bytes of its line are those net/http sent, however often the
    handler wrote a header, interim ones and a missing one included, and the
    request id is the one in the response; and the line depends on nothing of
    the request but its method, path, remote address and User-Agent: not on its
    query, its other headers or its body. *)
Theorem access_log_truthful (enabled : string -> bool) (listener elapsed : string) (next : Handler) (rq : HReq) (fields : list (string * string)) (level : string) :
  Forall plain_status (next rq) -> existsb is_panic (next rq) = false ->
  access_line enabled listener elapsed rq (next rq) = Some (Log level "http request" fields) ->
  accessLog enabled listener elapsed next rq = next rq ++ [Log level "http request" fields] /\
  ("status", pretty (status_of (next rq))) ∈ fields /\ ("bytes", pretty (rp_bytes (respond (next rq)))) ∈ fields /\
  (forall id, rp_header (respond (next rq)) !! RequestIDHeader = Some id -> id <> "" -> ("request_id", id) ∈ fields) /\
  (forall rq', hq_Method rq' = hq_Method rq -> hq_Path rq' = hq_Path rq -> hq_RemoteAddr rq' = hq_RemoteAddr rq ->
     hq_Header rq' "User-Agent" = hq_Header rq "User-Agent" ->
     access_line enabled listener elapsed rq' (next rq) = Some (Log level "http request" fields)).
Proof.
  intros Hp Hn Hl. pose proof (recorder_run _ Hp) as [Hb Hs].
  assert (Hst : sr_status (recorded_by (next rq)) = status_of (next rq)).
  { unfold status_of, respond, send. destruct (rp_sent (foldl _ _ _)) as [[st h]|] eqn:E; cbn; [rewrite E|]; by destruct Hs as [_ ->]. }
  assert (Hby : sr_bytes (recorded_by (next rq)) = rp_bytes (respond (next rq))).
  { rewrite Hb. unfold respond, send. by destruct (rp_sent _). }
  assert (Hh : rp_header (respond (next rq)) = rp_header (foldl reply_step new_reply (next rq))).
  { unfold respond, send. by destruct (rp_sent _). }
  unfold accessLog. rewrite Hn, Hl, Hh. split; [done|]. unfold access_line in *.
  split_and!.
  1-3: destruct (negb _); [done|]; injection Hl as _ <-; rewrite Hst, Hby.
  - by do 3 right; left.
  - by do 5 right; left.
  - intros id Hid Hne. rewrite Hid. cbn. apply String.eqb_neq in Hne. rewrite Hne. by do 8 right; left.
  - intros rq' -> -> -> ->. done.
Qed.

(** ** Two surfaces *)

(** A framework that does what is asked of it and serves no documentation. *)
Record SimpleAPI := mkSimple { sa_routes : list route; sa_chain : list Middleware; sa_prefix : string; sa_ts : list Transformer }.

Definition simple_encode (v : body) : string :=
  match v with BModel em => em_Detail em | BStatus _ text _ => text | BValue fields => String.concat "," (List.map snd fields) end.

#[local] Instance simple_huma : Huma SimpleAPI := {
  huma_encode := simple_encode;
  NewWithPrefix p c := mkSimple [] [] p (hc_Transformers c);
  UseMiddleware ms a := mkSimple (sa_routes a) (sa_chain a ++ ms) (sa_prefix a) (sa_ts a);
  Register op a := mkSimple (sa_routes a ++ [mkRoute (op_Method op) (sa_prefix a +:+ op_Path op)
                                               (chain (sa_chain a) (run_operation simple_encode (sa_ts a) op))])
                     (sa_chain a) (sa_prefix a) (sa_ts a);
  huma_routes := sa_routes; huma_chain := sa_chain; huma_prefix := sa_prefix; huma_transformers := sa_ts
}.

#[local] Instance simple_huma_laws : HumaLaws SimpleAPI.
Proof. by split. Qed.

Definition ex_guard : Middleware := fun next rq =>
  if (hq_Header rq "Authorization" =? "Bearer s3cret")%string then next rq else [WriteHeader 401; Write "unauthorized"].

Definition ex_keys : Operation := mkOperation "GET" "/admin/keys/{id}" (fun _ => (500, BModel (mkErrorModel 500 "" "disk full at /var/lib" []))).
Definition ex_token : Operation := mkOperation "POST" "/token" (fun _ => (200, BValue [("token", "t")])).

Definition ex_options : list Option_ :=
  [WithAdminRegistrar [ex_keys]; WithRegistrar [ex_token]; WithBasePath "/idp"; WithAdminMiddleware ex_guard;
   WithAdminHandler (mkRoute "GET" "/metrics" (fun _ => [Write "m 1"]))].

Definition ex_request (method path auth : string) : HReq :=
  mkHReq method path "code=secret" (fun h => if (h =? "Authorization")%string then auth else "") "" "10.0.0.1:80" "".

Definition ex_servers := New (API := SimpleAPI) [] "dev" (NewReadiness None) ex_options.
Definition ex_answer (sf : Surface (API := SimpleAPI)) (rq : HReq) : Z := status_of (wrap (configure ex_options) "ID" sf rq).

(** The guard covers the key routes though its option came after theirs; the
    probe, the scraper and the public surface are outside it. *)
Example ex_statuses :
  (ex_answer ex_servers.2 <$> [ex_request "GET" "/admin/keys/k1" ""; ex_request "GET" "/admin/keys/k1" "Bearer s3cret";
     ex_request "GET" "/admin/healthz" ""; ex_request "GET" "/metrics" ""; ex_request "POST" "/metrics" ""]) = [401; 500; 200; 200; 405] /\
  (ex_answer ex_servers.1 <$> [ex_request "GET" "/admin/keys/k1" "Bearer s3cret"; ex_request "POST" "/idp/token" "";
     ex_request "POST" "/token" ""; ex_request "GET" "/healthz" ""; ex_request "GET" "/readyz" ""]) = [404; 200; 404; 200; 503].
Proof. vm_compute. auto. Qed.

Lemma surfaces_isolated_witness :
  serve_mux (sf_routes ex_servers.2) (ex_request "GET" "/admin/keys/k1" "") = [WriteHeader 401; Write "unauthorized"].
Proof.
  destruct (surfaces_isolated (API := SimpleAPI) [] "dev" (NewReadiness None) (configure ex_options) ex_guard [] (ex_request "GET" "/admin/keys/k1" "")
              [WriteHeader 401; Write "unauthorized"] eq_refl ltac:(done)) as [H _].
  destruct (H _ ltac:(vm_compute; reflexivity)) as [Hs|[Hs|Hs]]; [exact Hs|discriminate|].
  apply list_elem_of_singleton in Hs. discriminate.
Defined.

Lemma server_errors_hidden_witness :
  let fails detail := mkOperation "GET" "/x" (fun _ => (500, BModel (mkErrorModel 500 "" detail []))) in
  client_side (run_operation huma_encode [sanitizeServerErrors] (fails "disk full") (ex_request "GET" "/x" "")) =
  client_side (run_operation huma_encode [sanitizeServerErrors] (fails "bad key") (ex_request "GET" "/x" "")).
Proof.
  cbv zeta. apply (server_errors_hidden [] _ _ _ 500 (BModel (mkErrorModel 500 "" "disk full" [])) (BModel (mkErrorModel 500 "" "bad key" [])));
    reflexivity || lia.
Defined.

(** An interim header, then the final one, then one too many. *)
Definition ex_noisy : Handler := fun _ => [SetHeader RequestIDHeader "R1"; WriteHeader 103; WriteHeader 404; WriteHeader 200; Write "no"].

Lemma access_log_truthful_witness : exists fields,
  accessLog (fun _ => true) "public" "1ms" ex_noisy (ex_request "GET" "/x" "tok") = ex_noisy (ex_request "GET" "/x" "tok") ++ [Log "info" "http request" fields] /\
  ("status", "404") ∈ fields /\ ("bytes", "2") ∈ fields /\ ("request_id", "R1") ∈ fields.
Proof.
  eexists. edestruct (access_log_truthful (fun _ => true) "public" "1ms" ex_noisy (ex_request "GET" "/x" "tok")) as (H1 & H2 & H3 & H4 & _).
  - repeat constructor; cbn; lia.
  - reflexivity.
  - reflexivity.
  - split_and!; [exact H1|exact H2|exact H3|by apply H4].
Defined.
