(* ===== verification/Config.v ===== *)
(** * Configuration (config/)

    What an operator configures, its defaults, where a process looks for it, and
    the values projected for the parts of the server. Merging a YAML file or the
    environment over a configuration is the ferry library's. *)

From stdpp Require Import pretty.
From S2P Require Import Prelude GoStrings GoErrors GoURL GoNetip Oidc Client Cli.

(** ** Listeners (listener.go) *)

Record Listener := mkListener { ls_IP : option Addr; ls_Port : Z }.

(** [ip.String()]: an IPv4 address prints dotted, however it is held. *)
Definition IP_String (ip : Addr) : string := Addr_String (Unmap ip).

(** [net.JoinHostPort(host, port)]. *)
Definition JoinHostPort (host port : string) : string :=
  if ContainsByte host ":" || ContainsByte host "%" then "[" +:+ host +:+ "]:" +:+ port else host +:+ ":" +:+ port.

Definition Listener_String (l : Listener) : string :=
  JoinHostPort (match ls_IP l with None => "" | Some ip => IP_String ip end) (pretty (ls_Port l)).

(** [strconv.ParseUint(s, 10, 16)]. *)
Definition ParseUint16 (s : string) : option Z :=
  n ← parse_decimal s; if n <=? 65535 then Some n else None.

Definition Listener_UnmarshalText (text : string) : error + Listener :=
  match SplitHostPort text with
  | None => inl (Opaque "address")
  | Some host =>
      let port := match CutLast text ":" with Some (_, p) => p | None => "" end in
      match (if (host =? "")%string then Some None else Some <$> ParseIP host) with
      | None => inl (Opaque ("invalid listener IP address " +:+ host))
      | Some ip =>
          match ParseUint16 port with
          | None => inl (Errorf ("invalid listener port " +:+ port) (Opaque "strconv"))
          | Some p => inr (mkListener ip p)
          end
      end
  end.

(** ** What is configured (cfg.go) *)

Record LogConfig := mkLogConfig { lg_Level : string; lg_Format : string; lg_Requests : bool }.

Record RateLimitConfig := mkRateLimitConfig {
  rc_Authorize : Z; rc_DeviceAuthorization : Z; rc_DeviceVerification : Z; rc_Token : Z
}.

Record HTTPConfig := mkHTTPConfig { ht_Listener : Listener; ht_TrustedProxies : string; ht_RateLimit : RateLimitConfig }.

Record AdminConfig := mkAdminConfig {
  ad_Listener : Listener;
  ad_TokenSHA256 : string;
  ad_AllowedHosts : string;
  ad_AllowSystemGrants : bool;
  ad_KeysMaxTTL : duration
}.

Record KeysConfig := mkKeysConfig {
  kc_EncryptionKey : string;
  kc_EncryptionKeyFile : string;
  kc_RetirementGrace : duration;
  kc_ReloadInterval : duration;
  kc_PublishDelay : duration
}.

Record ServerConfig := mkServerConfig {
  sc_ReadHeaderTimeout : duration;
  sc_ReadTimeout : duration;
  sc_WriteTimeout : duration;
  sc_IdleTimeout : duration;
  sc_MaxHeaderBytes : Z;
  sc_ShutdownTimeout : duration
}.

Definition StateDriverSQLite : string := "sqlite".
Definition StateDriverPostgres : string := "postgres".

Record SqliteConfig := mkSqliteConfig { sq_Path : string; sq_MaxConns : Z; sq_BusyTimeout : duration }.

Record PostgresConfig := mkPostgresConfig {
  pc_DSN : string;
  pc_DSNFile : string;
  pc_ListenDSN : string;
  pc_MaxConns : Z;
  pc_ConnMaxIdleTime : duration;
  pc_AllowInsecureSSLMode : bool
}.

Record StateConfig := mkStateConfig {
  st_Driver : string; st_Sqlite : SqliteConfig; st_Postgres : PostgresConfig; st_ReaperInterval : duration
}.

Record AuthzConfig := mkAuthzConfig { az_Rules : list string; az_DefaultPermissions : string }.

Record GoogleSettings := mkGoogleSettings {
  gs_ClientID : string; gs_ClientSecret : string; gs_AuthEndpoint : string; gs_TokenEndpoint : string; gs_IssuerURL : string
}.

Record OIDCConfig := mkOIDCConfig {
  oc_Issuer : string;
  oc_AllowInsecureIssuer : bool;
  oc_Clients : string;
  oc_AllowInsecureRedirectURIs : bool;
  oc_ClientSecrets : string;
  oc_AllowedDomains : string;
  oc_AllowedHostedDomains : string;
  oc_SessionTTL : duration;
  oc_SessionSigningKey : string;
  oc_AccessTokenTTL : duration;
  oc_AccessTokenAudience : string;
  oc_RefreshTokenTTL : duration;
  oc_RefreshMaxLifetime : duration;
  oc_Authz : AuthzConfig;
  oc_Google : GoogleSettings
}.

Record Config := mkConfig {
  cfg_Log : LogConfig;
  cfg_HTTP : HTTPConfig;
  cfg_Admin : AdminConfig;
  cfg_Server : ServerConfig;
  cfg_APIDocsEnabled : bool;
  cfg_State : StateConfig;
  cfg_OIDC : OIDCConfig;
  cfg_Keys : KeysConfig
}.

(** ** Defaults (defaults.go) *)

(** [net.IPv4(127, 0, 0, 1)], which Go holds mapped into IPv6. *)
Definition IPv4_loopback : Addr := IP6 0xffff7f000001 "".

Definition FormatAuto : string := "auto".
Definition FormatJSON : string := "json".
Definition FormatPretty : string := "pretty".

Definition defaultConfig : Config := {|
  cfg_Log := mkLogConfig "info" FormatAuto true;
  cfg_HTTP := mkHTTPConfig (mkListener (Some IPv4_loopback) 8000) "" (mkRateLimitConfig 30 10 20 60);
  cfg_Admin := mkAdminConfig (mkListener (Some IPv4_loopback) 8081) "" "" false (90 * 24 * Hour);
  cfg_Server := mkServerConfig (10 * Second) (15 * Second) (30 * Second) (60 * Second) (Z.shiftl 16 10) (15 * Second);
  cfg_APIDocsEnabled := false;
  cfg_State := mkStateConfig StateDriverSQLite (mkSqliteConfig "/var/lib/tempogate/state.db" 1 (5 * Second))
                 (mkPostgresConfig "" "" "" 10 (30 * Minute) false) (5 * Minute);
  cfg_OIDC := mkOIDCConfig "http://127.0.0.1:8000" false "" false "" "" "" (5 * Minute) "" (4 * Hour) "temporal"
                (7 * 24 * Hour) (7 * 24 * Hour) (mkAuthzConfig [] "")
                (mkGoogleSettings "" "" "https://accounts.google.com/o/oauth2/v2/auth" "https://oauth2.googleapis.com/token"
                   "https://accounts.google.com");
  cfg_Keys := mkKeysConfig "" "" (4 * Hour) (30 * Second) (5 * Minute)
|}.

(** ** The admin Host allowlist (admin.go) *)

Definition adminAllowedHosts (c : AdminConfig) : list string :=
  if (TrimSpace (ad_AllowedHosts c) =? "")%string then
    let port := pretty (ls_Port (ad_Listener c)) in
    [JoinHostPort "127.0.0.1" port; JoinHostPort "localhost" port; JoinHostPort "::1" port]
  else List.filter (fun h => negb (h =? "")%string) (List.map TrimSpace (Split (ad_AllowedHosts c) ",")).

(** ** The issuer (issuer.go, basepath.go) *)

Section Issuer.
Context `{URLParser}.

Definition issuerBasePath (issuer : string) : string :=
  match url_Parse (TrimSpace issuer) with
  | None => ""
  | Some u => if (u_Scheme u =? "")%string || (u_Host u =? "")%string then "" else TrimRightByte (u_Path u) "/"
  end.

Definition issuerIsPlainHTTP (issuer : string) : bool :=
  match url_Parse (TrimSpace issuer) with None => false | Some u => EqualFold (u_Scheme u) "http" end.

(** [isLoopback(host)] is word for word the client's [isLoopbackHost]. *)
Definition config_isLoopback (host : string) : bool :=
  if EqualFold host "localhost" then true
  else match ParseIP host with Some ip => IsLoopback ip | None => false end.

Definition ValidateIssuer (issuer : string) : option error :=
  let bad := Some (Opaque ("OIDC_ISSUER " +:+ issuer +:+ " must use https")) in
  match url_Parse (TrimSpace issuer) with
  | None => bad
  | Some u =>
      if issuerIsPlainHTTP issuer then if config_isLoopback (Hostname u) then None else bad
      else if EqualFold (u_Scheme u) "https" && negb (u_Host u =? "")%string then None
      else bad
  end.

End Issuer.

(** ** Where the configuration comes from (path.go, loader.go) *)

Definition EnvPath : string := "TEMPOGATE_CONFIG".
Definition implicitFile : string := "application.yaml".

(** [strings.TrimPrefix(s, prefix)]. *)
Definition TrimPrefix (s prefix : string) : string :=
  if HasPrefix s prefix then String.substring (String.length prefix) (String.length s - String.length prefix) s else s.

(** The loop of [PathFromArgs]. *)
Fixpoint path_from_args (p : string) (args : list string) : string :=
  match args with
  | [] => p
  | a :: rest =>
      if (a =? "--")%string then p
      else if (a =? "--config")%string then
        match rest with
        | v :: rest' => path_from_args v rest'
        | [] => p
        end
      else if HasPrefix a "--config=" then path_from_args (TrimPrefix a "--config=") rest
      else path_from_args p rest
  end.

Definition PathFromArgs (args : list string) : string := path_from_args "" args.

(** What opening a file says; [errors.Is] tells the first failures apart. *)
Inductive opening := Opened | NotExist (e : error) | Denied (e : error) | OpenFailed (e : error).

Class ConfigEnv := {
  getenv : string -> string;
  (** [os.Stat(path)]: whether it is a directory. *)
  os_Stat : string -> error + bool;
  os_Open : string -> opening;
  (** [ferry.LoadOver(ctx, c, yaml.NewSource(path))] and [env.New()]. *)
  load_yaml : string -> Config -> error + Config;
  load_env : Config -> error + Config;
  (** [zapcore.ParseLevel(text)], the level's name. *)
  zap_ParseLevel : string -> option string
}.

Section Loading.
Context `{ConfigEnv} `{Unicode}.

Definition processPath (args : list string) : string :=
  let p := PathFromArgs args in if (p =? "")%string then getenv EnvPath else p.

Record Source := mkSource { so_Path : string; so_Skipped : option error }.

Definition configSource (explicit : string) : error + Source :=
  if negb (explicit =? "")%string then
    match os_Stat explicit with
    | inl e => inl (Errorf ("config file " +:+ explicit) e)
    | inr true => inl (Opaque ("config file " +:+ explicit +:+ " is a directory"))
    | inr false => inr (mkSource explicit None)
    end
  else
    match os_Open implicitFile with
    | Opened => inr (mkSource implicitFile None)
    | NotExist _ => inr (mkSource "" None)
    | Denied e => inr (mkSource "" (Some e))
    | OpenFailed e => inl (Errorf ("config file " +:+ implicitFile) e)
    end.

Definition config_Load (into : Config) (filePath : string) : error + (Config * Source) :=
  match configSource filePath with
  | inl e => inl e
  | inr src =>
      match (if negb (so_Path src =? "")%string then load_yaml (so_Path src) into else inr into) with
      | inl e => inl (Errorf ("load config " +:+ so_Path src) e)
      | inr c =>
          match load_env c with
          | inl e => inl (Errorf "load environment" e)
          | inr c => inr (c, src)
          end
      end
  end.

Definition ParseFormat (s : string) : error + string :=
  let f := ToLower (TrimSpace s) in
  if (f =? "")%string then inr FormatAuto
  else if (f =? FormatAuto)%string || (f =? FormatJSON)%string || (f =? FormatPretty)%string then inr f
  else inl (Opaque ("LOG_FORMAT must be auto, json or pretty, got " +:+ s)).

Definition ParseLevel (s : string) : error + string :=
  match zap_ParseLevel (ToLower (TrimSpace s)) with
  | None => inl (Opaque ("LOG_LEVEL must be debug, info, warn or error, got " +:+ s))
  | Some l => inr l
  end.

Definition normalize (l : LogConfig) : error + LogConfig :=
  match ParseLevel (lg_Level l) with
  | inl e => inl e
  | inr level =>
      match ParseFormat (lg_Format l) with
      | inl e => inl e
      | inr format => inr (mkLogConfig level format (lg_Requests l))
      end
  end.

Definition set_Log (l : LogConfig) (c : Config) : Config :=
  mkConfig l (cfg_HTTP c) (cfg_Admin c) (cfg_Server c) (cfg_APIDocsEnabled c) (cfg_State c) (cfg_OIDC c) (cfg_Keys c).

(** [New(p)]. *)
Definition config_New (path : string) : error + (Config * Source) :=
  match config_Load defaultConfig path with
  | inl e => inl e
  | inr (c, src) =>
      match normalize (cfg_Log c) with
      | inl e => inl (Errorf "invalid config" e)
      | inr l => inr (set_Log l c, src)
      end
  end.

(** [resolve(f, tty)] of log.go: the format a line is written in. *)
Definition resolve_format (f : string) (tty : bool) : string :=
  if negb (f =? FormatAuto)%string then f else if tty then FormatPretty else FormatJSON.

End Loading.

(** ** What the parts of the server are given (fx.go) *)

Record Result := mkResult {
  rs_LogLevel : string;
  rs_LogFormat : string;
  rs_LogRequests : bool;
  rs_HTTPListener : Listener;
  rs_AdminListener : Listener;
  rs_HTTPServer : ServerConfig;
  rs_APIDocsEnabled : bool;
  rs_HTTPTrustedProxies : string;
  rs_RateLimitAuthorize : Z;
  rs_RateLimitDeviceAuthz : Z;
  rs_RateLimitDeviceVerify : Z;
  rs_RateLimitToken : Z;
  rs_StateReaperInterval : duration;
  rs_AdminTokenSHA256 : string;
  rs_AdminAllowedHosts : list string;
  rs_AdminAllowSystemGrant : bool;
  rs_AdminKeysMaxTTL : duration;
  rs_KeysRetirementGrace : duration;
  rs_KeysReloadInterval : duration;
  rs_KeysPublishDelay : duration;
  rs_SqlitePath : string;
  rs_SqliteMaxConns : Z;
  rs_SqliteBusyTimeout : duration;
  rs_StateDriver : string;
  rs_PostgresDSN : string;
  rs_PostgresDSNFile : string;
  rs_PostgresListenDSN : string;
  rs_PostgresMaxConns : Z;
  rs_PostgresConnIdle : duration;
  rs_PostgresAllowInsecure : bool;
  rs_OIDCIssuer : string;
  rs_OIDCBasePath : string;
  rs_OIDCIssuerPlainHTTP : bool;
  rs_OIDCClients : string;
  rs_OIDCClientSecrets : string;
  rs_OIDCAllowInsecureURIs : bool;
  rs_OIDCAllowedDomains : string;
  rs_OIDCAllowedHDs : string;
  rs_OIDCSessionTTL : duration;
  rs_OIDCSessionSigningKey : string;
  rs_OIDCAccessTokenTTL : duration;
  rs_OIDCAccessTokenAud : string;
  rs_OIDCRefreshTokenTTL : duration;
  rs_OIDCRefreshMaxLife : duration;
  rs_OIDCAuthzRules : list string;
  rs_OIDCAuthzDefault : string;
  rs_GoogleClientID : string;
  rs_GoogleClientSecret : string;
  rs_GoogleAuthEndpoint : string;
  rs_GoogleTokenEndpoint : string;
  rs_GoogleIssuerURL : string;
  rs_KeysEncryptionKey : string;
  rs_KeysEncryptionKeyFile : string
}.

Definition project `{URLParser} (cfg : Config) : Result := {|
  rs_LogLevel := lg_Level (cfg_Log cfg);
  rs_LogFormat := lg_Format (cfg_Log cfg);
  rs_LogRequests := lg_Requests (cfg_Log cfg);
  rs_HTTPListener := ht_Listener (cfg_HTTP cfg);
  rs_AdminListener := ad_Listener (cfg_Admin cfg);
  rs_HTTPServer := cfg_Server cfg;
  rs_APIDocsEnabled := cfg_APIDocsEnabled cfg;
  rs_HTTPTrustedProxies := ht_TrustedProxies (cfg_HTTP cfg);
  rs_RateLimitAuthorize := rc_Authorize (ht_RateLimit (cfg_HTTP cfg));
  rs_RateLimitDeviceAuthz := rc_DeviceAuthorization (ht_RateLimit (cfg_HTTP cfg));
  rs_RateLimitDeviceVerify := rc_DeviceVerification (ht_RateLimit (cfg_HTTP cfg));
  rs_RateLimitToken := rc_Token (ht_RateLimit (cfg_HTTP cfg));
  rs_StateReaperInterval := st_ReaperInterval (cfg_State cfg);
  rs_AdminTokenSHA256 := ad_TokenSHA256 (cfg_Admin cfg);
  rs_AdminAllowedHosts := adminAllowedHosts (cfg_Admin cfg);
  rs_AdminAllowSystemGrant := ad_AllowSystemGrants (cfg_Admin cfg);
  rs_AdminKeysMaxTTL := ad_KeysMaxTTL (cfg_Admin cfg);
  rs_KeysRetirementGrace := kc_RetirementGrace (cfg_Keys cfg);
  rs_KeysReloadInterval := kc_ReloadInterval (cfg_Keys cfg);
  rs_KeysPublishDelay := kc_PublishDelay (cfg_Keys cfg);
  rs_SqlitePath := sq_Path (st_Sqlite (cfg_State cfg));
  rs_SqliteMaxConns := sq_MaxConns (st_Sqlite (cfg_State cfg));
  rs_SqliteBusyTimeout := sq_BusyTimeout (st_Sqlite (cfg_State cfg));
  rs_StateDriver := st_Driver (cfg_State cfg);
  rs_PostgresDSN := pc_DSN (st_Postgres (cfg_State cfg));
  rs_PostgresDSNFile := pc_DSNFile (st_Postgres (cfg_State cfg));
  rs_PostgresListenDSN := pc_ListenDSN (st_Postgres (cfg_State cfg));
  rs_PostgresMaxConns := pc_MaxConns (st_Postgres (cfg_State cfg));
  rs_PostgresConnIdle := pc_ConnMaxIdleTime (st_Postgres (cfg_State cfg));
  rs_PostgresAllowInsecure := pc_AllowInsecureSSLMode (st_Postgres (cfg_State cfg));
  rs_OIDCIssuer := oc_Issuer (cfg_OIDC cfg);
  rs_OIDCBasePath := issuerBasePath (oc_Issuer (cfg_OIDC cfg));
  rs_OIDCIssuerPlainHTTP := issuerIsPlainHTTP (oc_Issuer (cfg_OIDC cfg));
  rs_OIDCClients := oc_Clients (cfg_OIDC cfg);
  rs_OIDCClientSecrets := oc_ClientSecrets (cfg_OIDC cfg);
  rs_OIDCAllowInsecureURIs := oc_AllowInsecureRedirectURIs (cfg_OIDC cfg);
  rs_OIDCAllowedDomains := oc_AllowedDomains (cfg_OIDC cfg);
  rs_OIDCAllowedHDs := oc_AllowedHostedDomains (cfg_OIDC cfg);
  rs_OIDCSessionTTL := oc_SessionTTL (cfg_OIDC cfg);
  rs_OIDCSessionSigningKey := oc_SessionSigningKey (cfg_OIDC cfg);
  rs_OIDCAccessTokenTTL := oc_AccessTokenTTL (cfg_OIDC cfg);
  rs_OIDCAccessTokenAud := oc_AccessTokenAudience (cfg_OIDC cfg);
  rs_OIDCRefreshTokenTTL := oc_RefreshTokenTTL (cfg_OIDC cfg);
  rs_OIDCRefreshMaxLife := oc_RefreshMaxLifetime (cfg_OIDC cfg);
  rs_OIDCAuthzRules := az_Rules (oc_Authz (cfg_OIDC cfg));
  rs_OIDCAuthzDefault := az_DefaultPermissions (oc_Authz (cfg_OIDC cfg));
  rs_GoogleClientID := gs_ClientID (oc_Google (cfg_OIDC cfg));
  rs_GoogleClientSecret := gs_ClientSecret (oc_Google (cfg_OIDC cfg));
  rs_GoogleAuthEndpoint := gs_AuthEndpoint (oc_Google (cfg_OIDC cfg));
  rs_GoogleTokenEndpoint := gs_TokenEndpoint (oc_Google (cfg_OIDC cfg));
  rs_GoogleIssuerURL := gs_IssuerURL (oc_Google (cfg_OIDC cfg));
  rs_KeysEncryptionKey := kc_EncryptionKey (cfg_Keys cfg);
  rs_KeysEncryptionKeyFile := kc_EncryptionKeyFile (cfg_Keys cfg)
|}.
