(* ===== verification/Startup.v ===== *)
(** * Starting the server (cmd/servercmd, the fx.go files, api/wellknown.go)

    How `serve` builds the server from its configuration: every constructor of
    the object graph with its checks, the checks of the command itself, and the
    documents that tell relying parties what was built. The graph library
    orders the constructors by their dependencies, and shuffles those of a
    group; here they run in one such order, which decides only the error that is
    reported first. *)

From stdpp Require Import pretty.
From S2P Require Import Prelude GoStrings GoErrors GoEncoding GoURL GoHttp GoNetip Ratelimit Perms Authz Oidc EndpointLimits.
From S2P Require Import Keys Signer Verifier Binding Client Token Admin Session Login Google Device Reaper Config.

(** What the process finds outside itself: the state store it opens, the
    secrets mounted as files, the embedded stylesheet's hash, and Google. *)
Class Machine `{GoogleAPI} := {
  open_store : Result -> option error;
  store_Ping : option error;
  store_IsCurrent : option error;
  os_ReadFile : string -> error + string;
  style_source : string;
  google_state : nat -> GState;
  google_late : nat -> bool
}.

Section Checks.
Context {S : Type}.

(** [if err != nil { return err }]. *)
Definition require (e : option error) : M S unit := match e with Some e => throw e | None => mret tt end.
Definition checked {A} (r : error + A) : M S A := match r with inl e => throw e | inr x => mret x end.

(** [p.Redaction.Declare(kind, value)]. *)
Definition declare_value (kind value : string) : M S unit := emit (Declared kind [value]).

Fixpoint each {A} (f : A -> M S unit) (l : list A) : M S unit :=
  match l with [] => mret tt | x :: l => f x ≫= fun _ => each f l end.

End Checks.

(** ** Signing keys (keys/fx.go) *)

(** [base64.StdEncoding], [base64.URLEncoding]: padded to groups of four. *)
Definition pad4 (s : string) : string :=
  match (String.length s mod 4)%nat with 2%nat => s +:+ "==" | 3%nat => s +:+ "=" | _ => s end.

Definition URL_Decode (s : string) : option string := b64_decode_padded url_alphabet (strip_newlines s).

Definition kek_decoders : list (string -> option string) := [Std_Decode; RawStd_Decode; URL_Decode; RawURL_Decode].

Fixpoint first_decoded (decoders : list (string -> option string)) (s : string) : error + string :=
  match decoders with
  | [] => inl (Opaque "keys: encryption key is not valid base64")
  | d :: decoders =>
      match d s with
      | None => first_decoded decoders s
      | Some kek =>
          if negb (String.length kek =? kekBytes)%nat then inl (Opaque "keys: encryption key must decode to 32 bytes") else inr kek
      end
  end.

Definition decodeEncryptionKey (s : string) : error + option string :=
  match first_decoded kek_decoders s with inl e => inl e | inr kek => inr (Some kek) end.

Section Wiring.
Context `{GoogleAPI} `{!Machine} `{URLParser} `{Unicode} {S : Type}.

Definition LoadEncryptionKey (value file : string) : error + option string :=
  if negb (value =? "")%string && negb (file =? "")%string
  then inl (Opaque "keys: set only one of KEYS_ENCRYPTION_KEY and KEYS_ENCRYPTION_KEY_FILE")
  else if negb (file =? "")%string then
    match os_ReadFile file with
    | inl e => inl (Errorf "keys: read KEYS_ENCRYPTION_KEY_FILE" e)
    | inr b => decodeEncryptionKey (TrimSpace b)
    end
  else if (value =? "")%string then inr None
  else decodeEncryptionKey (TrimSpace value).

Definition kek_texts (kek : string) : list string :=
  [pad4 (RawStd_Encode kek); RawStd_Encode kek; pad4 (RawURL_Encode kek); RawURL_Encode kek].

(** [newFx(p)]. *)
Definition newKeys (r : Result) : M S KeysCfg :=
  if rs_KeysRetirementGrace r <? 0 then throw (Opaque "keys: KEYS_RETIREMENT_GRACE must not be negative")
  else if rs_KeysPublishDelay r <? 0 then throw (Opaque "keys: KEYS_PUBLISH_DELAY must not be negative")
  else
    kek ← checked (LoadEncryptionKey (rs_KeysEncryptionKey r) (rs_KeysEncryptionKeyFile r));
    each (declare_value "secret") (match kek with Some kek => kek_texts kek | None => [] end) ≫= fun _ =>
    mret (mkKeysCfg AlgRS256 (rs_KeysRetirementGrace r) kek (rs_KeysPublishDelay r)).

Definition errEmptyAudience : error := Opaque "keys: OIDC_ACCESS_TOKEN_AUDIENCE must not be empty".

(** [newSigner(p)] and [newVerifier(p)], over the keypairs cached when they are
    used. *)
Definition newSigner (r : Result) (keys : KeysCfg) (kps : list Keypair) : M S Signer :=
  if (rs_OIDCAccessTokenAud r =? "")%string then throw errEmptyAudience
  else mret (mkSigner (Some (keys, kps)) (rs_OIDCIssuer r) (rs_OIDCAccessTokenAud r)).

Definition newVerifier (r : Result) (keys : KeysCfg) (kps : list Keypair) : M S Verifier :=
  if (rs_OIDCAccessTokenAud r =? "")%string then throw errEmptyAudience
  else mret (mkVerifier (Some (keys, kps)) (rs_OIDCIssuer r) (rs_OIDCAccessTokenAud r) true).

(** ** Authorization rules (authz/fx.go) *)

Definition rule_domain (rl : Rule) : string :=
  if (r_kind rl =? selectEmail)%string then emailDomain (r_value rl) else r_value rl.

Definition log_rule (allowed : gset string) (workspaceMode : bool) (rl : Rule) : M S unit :=
  let attrs := [("op", "authz"); ("rule", pretty (r_Index rl)); ("selector", Selector rl)] in
  (if bool_decide (rule_domain rl ∈ allowed) then mret tt
   else emit (Logged "authorization rule can never match: its domain is not in OIDC_ALLOWED_DOMAINS, so nobody it selects can sign in" attrs))
  ≫= fun _ =>
  if (r_kind rl =? selectDomain)%string && negb workspaceMode
  then emit (Logged "domain authorization rule without Workspace mode" attrs) else mret tt.

Definition logPolicy (pol : Policy) (allowed : gset string) (workspaceMode : bool) : M S unit :=
  let systemRules := r_Index <$> List.filter (fun rl => negb (SystemRole (r_Grant rl) =? "")%string) (p_rules pol) in
  each (log_rule allowed workspaceMode) (p_rules pol) ≫= fun _ =>
  emit (Logged "authorization policy loaded"
          [("op", "authz"); ("rules", pretty (Z.of_nat (length (p_rules pol))));
           ("system_grant_rules", pretty (Z.of_nat (length systemRules)));
           ("system_grant_rule_indexes", String.concat " " (pretty <$> systemRules));
           ("default_permissions", String.concat " " (ToClaim (p_dflt pol)))]) ≫= fun _ =>
  let role := SystemRole (p_dflt pol) in
  if (role =? "")%string then mret tt
  else if (role =? "admin")%string
  then emit (Logged "OIDC_AUTHZ_DEFAULT_PERMISSIONS grants temporal-system:admin: every admitted user is cluster admin" [("op", "authz")])
  else emit (Logged "OIDC_AUTHZ_DEFAULT_PERMISSIONS grants a temporal-system role: every admitted user gets it on every namespace"
               [("op", "authz"); ("role", role)]).

(** [domainSet(raw)] is [ParseDomains] by another name. *)
Definition newPolicy (r : Result) : M S Policy :=
  pol ← checked (Parse (rs_OIDCAuthzRules r) (rs_OIDCAuthzDefault r));
  logPolicy pol (ParseDomains (rs_OIDCAllowedDomains r)) (negb (bool_decide (ParseDomains (rs_OIDCAllowedHDs r) = ∅))) ≫= fun _ =>
  mret pol.

(** ** The OIDC endpoints (oidc/fx.go, oidc/connector/google/fx.go) *)

Definition newClientRegistry (r : Result) : M S ClientRegistry :=
  reg ← checked (ParseClientRegistry (rs_OIDCClients r) (rs_OIDCAllowInsecureURIs r));
  let '(reg, e) := WithSecrets reg (rs_OIDCClientSecrets r) in
  require e ≫= fun _ =>
  each (fun kv => declare_value "identifier" kv.1 ≫= fun _ => declare_value "secret" (Secret kv.2)) (map_to_list reg) ≫= fun _ =>
  mret reg.

Definition newSessionSigningKey (r : Result) : M S string :=
  declare_value "secret" (rs_OIDCSessionSigningKey r) ≫= fun _ =>
  if (rs_OIDCSessionSigningKey r =? "")%string then throw (Opaque "oidc: OIDC_SESSION_SIGNING_KEY is required")
  else
    match RawURL_Decode (rs_OIDCSessionSigningKey r) with
    | None => throw (Errorf "oidc: OIDC_SESSION_SIGNING_KEY must be base64url-encoded" (Opaque "base64"))
    | Some key =>
        if negb (len key =? sessionSigningKeyBytes) then throw (Opaque "oidc: OIDC_SESSION_SIGNING_KEY must decode to 32 bytes")
        else mret key
    end.

(** [NewSessionManager(store, key, WithCookiePath, WithCookieSecure, WithSessionTTL)]. *)
Definition newSessionManager (r : Result) (key : string) : SessionManager :=
  mkSessionManager key (if 0 <? rs_OIDCSessionTTL r then rs_OIDCSessionTTL r else defaultSessionTTL) "tempogate_session"
    (rs_OIDCBasePath r +:+ DevicePath) (negb (rs_OIDCIssuerPlainHTTP r)).

Definition newUpstreamBinding (r : Result) (key : string) : M S UpstreamBinding :=
  checked (NewUpstreamBinding (rs_OIDCIssuer r) key).

(** google's [newFx(p)]. *)
Definition newGoogle (r : Result) : M S GoogleConnector :=
  declare_value "identifier" (rs_GoogleClientID r) ≫= fun _ =>
  declare_value "secret" (rs_GoogleClientSecret r) ≫= fun _ =>
  (if bool_decide (ParseDomains (rs_OIDCAllowedHDs r) = ∅)
   then emit (Logged "OIDC_ALLOWED_HOSTED_DOMAINS is not set" [("op", "oidc.callback")]) else mret tt) ≫= fun _ =>
  checked (NewConnector (mkGoogleConfig (rs_GoogleClientID r) (rs_GoogleAuthEndpoint r) (rs_GoogleIssuerURL r) (rs_OIDCAllowedHDs r))
             (NewGoogleClient (rs_GoogleClientID r) (rs_GoogleClientSecret r) (rs_GoogleTokenEndpoint r) (rs_GoogleIssuerURL r))).

Definition newConnectors (g : GoogleConnector) : M S Connectors :=
  checked (NewConnectors [google_connector g google_state google_late]).

Definition newToken (r : Result) (signer : Signer) (reg : ClientRegistry) (cs : Connectors) (pol : Policy) : M S Token :=
  require (ValidateTokenLifetimes (rs_OIDCAccessTokenTTL r) (rs_OIDCRefreshTokenTTL r) (rs_OIDCRefreshMaxLife r)) ≫= fun _ =>
  let t := NewToken signer (registry_clients reg) in
  mret (WithTokenLifetimes (rs_OIDCAccessTokenTTL r) (rs_OIDCRefreshTokenTTL r) (rs_OIDCRefreshMaxLife r)
          (mkToken true (t_signer t) (t_clients t) (Some (dom (cs_byID cs))) (ParseDomains (rs_OIDCAllowedDomains r)) (Resolve pol)
             (t_accessTTL t) (t_refreshTTL t) (t_refreshMaxLifetime t))).

Definition newCallback (r : Result) (cs : Connectors) (b : UpstreamBinding) (pol : Policy) : Callback :=
  mkCallback (TrimRightByte (rs_OIDCIssuer r) "/") cs b (ParseDomains (rs_OIDCAllowedDomains r)) (Resolve pol).

Definition newDeviceUI (r : Result) (g : GoogleConnector) (sessions : SessionManager) (reg : ClientRegistry) (t : Token) (key : string)
    (pol : Policy) : M S DeviceUI :=
  checked (NewDeviceUI sessions reg t key (rs_OIDCIssuer r) (FormActionSources g) style_source (Resolve pol)).

Definition newRateLimitMiddleware (r : Result) : M S RateLimiter :=
  let limits := mkRateLimits (rs_RateLimitAuthorize r) (rs_RateLimitDeviceAuthz r) (rs_RateLimitDeviceVerify r) (rs_RateLimitToken r) in
  require (RateLimits_Validate limits) ≫= fun _ =>
  proxies ← checked (ParseTrustedProxies (rs_HTTPTrustedProxies r));
  mret (NewRateLimiter limits proxies).

(** ** The admin API and the reaper (admin/fx.go, state/*/fx.go) *)

Definition newAdminKeys (r : Result) (signer : Signer) : M S AdminKeys.AdminKeys :=
  if rs_AdminKeysMaxTTL r <=? 0 then throw (Opaque "admin: ADMIN_KEYS_MAX_TTL must be positive")
  else mret (AdminKeys.NewKeys signer true (rs_AdminAllowSystemGrant r) (Some (rs_AdminKeysMaxTTL r))).

Definition newGuardInstaller (r : Result) : M S Guard.Guard :=
  digests ← checked (Guard.ParseTokenDigests (rs_AdminTokenSHA256 r));
  (if bool_decide (digests = []) then emit (Logged "admin API is locked: ADMIN_TOKEN_SHA256 is empty" []) else mret tt) ≫= fun _ =>
  mret (Guard.NewGuard digests (rs_AdminAllowedHosts r)).

(** The sweep's interval, and the reaper; a batch size is not configured. *)
Definition newReaperFx (r : Result) : M S (duration * Reaper) :=
  if rs_StateReaperInterval r <? 0 then throw (Opaque "STATE_REAPER_INTERVAL must not be negative")
  else mret (rs_StateReaperInterval r, NewReaper (rs_OIDCRefreshMaxLife r) 0).

(** [stateModule(driver)] and the store it provides. *)
Definition stateModule (r : Result) : M S unit :=
  if (rs_StateDriver r =? StateDriverSQLite)%string || (rs_StateDriver r =? StateDriverPostgres)%string
  then require (open_store r)
  else throw (Opaque ("STATE_DRIVER must be sqlite or postgres, got " +:+ rs_StateDriver r)).

(** ** The graph (cmd/servercmd/graph.go) *)

Definition server_checkIssuer (cfg : Config) : M S unit :=
  match ValidateIssuer (oc_Issuer (cfg_OIDC cfg)) with
  | None => mret tt
  | Some e =>
      if negb (oc_AllowInsecureIssuer (cfg_OIDC cfg)) then throw e
      else emit (Logged "insecure OIDC issuer allowed by OIDC_ALLOW_INSECURE_ISSUER; do not use in production"
                   [("issuer", oc_Issuer (cfg_OIDC cfg))])
  end.

(** The server, as a request sees it that finds the keypairs [kps] in the cache
    the signer and the verifier share. *)
Record Server := mkServer {
  sv_result : Result;
  sv_keys : KeysCfg;
  sv_signer : Signer;
  sv_verifier : Verifier;
  sv_policy : Policy;
  sv_clients : ClientRegistry;
  sv_connectors : Connectors;
  sv_authorizer : Authorizer;
  sv_callback : Callback;
  sv_token : Token;
  sv_sessions : SessionManager;
  sv_deviceAuthorization : DeviceAuthorization;
  sv_deviceUI : DeviceUI;
  sv_limiter : RateLimiter;
  sv_guard : Guard.Guard;
  sv_adminKeys : AdminKeys.AdminKeys;
  sv_reaper : duration * Reaper
}.

Definition serverModules (cfg : Config) (kps : list Keypair) : M S Server :=
  server_checkIssuer cfg ≫= fun _ =>
  let r := project cfg in
  stateModule r ≫= fun _ =>
  reaper ← newReaperFx r;
  keys ← newKeys r;
  signer ← newSigner r keys kps;
  verifier ← newVerifier r keys kps;
  pol ← newPolicy r;
  reg ← newClientRegistry r;
  key ← newSessionSigningKey r;
  let sessions := newSessionManager r key in
  binding ← newUpstreamBinding r key;
  g ← newGoogle r;
  cs ← newConnectors g;
  t ← newToken r signer reg cs pol;
  ui ← newDeviceUI r g sessions reg t key pol;
  limiter ← newRateLimitMiddleware r;
  admin ← newAdminKeys r signer;
  guard ← newGuardInstaller r;
  mret {|
    sv_result := r; sv_keys := keys; sv_signer := signer; sv_verifier := verifier; sv_policy := pol; sv_clients := reg;
    sv_connectors := cs; sv_authorizer := NewAuthorizer reg binding cs (rs_OIDCIssuer r); sv_callback := newCallback r cs binding pol;
    sv_token := t; sv_sessions := sessions; sv_deviceAuthorization := mkDeviceAuthorization reg (TrimRightByte (rs_OIDCIssuer r) "/");
    sv_deviceUI := ui; sv_limiter := limiter; sv_guard := guard; sv_adminKeys := admin; sv_reaper := reaper
  |}.

End Wiring.

(** ** The command (cmd/servercmd/serve.go) *)

Section Serve.
Context `{GoogleAPI} `{!Machine} `{URLParser} `{Unicode} `{Env} `{AEAD} `{RSAKeyGen} {S : Type} `{KeyStore S}.

Definition errAPIDocsNeedDevIssuer : error :=
  Opaque "API_DOCS_ENABLED is for local development only and requires a plain-http OIDC_ISSUER".

Definition requireAuthz (p : Policy) : option error := if negb (Configured p) then Some (Sentinel ErrNoPolicy) else None.

Definition storeReady : option error :=
  match store_Ping with Some e => Some (Errorf "state store unreachable" e) | None => store_IsCurrent end.

Definition warnUnencryptedKeys : M (KeyState S) unit :=
  kids ← on_store (fun ks => (ks, ks_unencrypted ks));
  if bool_decide (kids = []) then mret tt
  else emit (Logged "signing keys are stored unencrypted although KEYS_ENCRYPTION_KEY is set" [("kids", String.concat " " kids)]).

(** [serve(ctx, p)] up to the point where both listeners bind. *)
Definition serve (sv : Server) : M (KeyState S) unit :=
  if rs_APIDocsEnabled (sv_result sv) && negb (rs_OIDCIssuerPlainHTTP (sv_result sv)) then throw errAPIDocsNeedDevIssuer
  else
    require (requireAuthz (sv_policy sv)) ≫= fun _ =>
    require storeReady ≫= fun _ =>
    r ← attempt (Init (sv_keys sv));
    match r with
    | inl e => throw (Errorf "keys init" e)
    | inr _ =>
        warnUnencryptedKeys ≫= fun _ =>
        if rs_KeysReloadInterval (sv_result sv) <=? 0 then throw (Opaque "KEYS_RELOAD_INTERVAL must be positive") else mret tt
    end.

(** `tempogate serve`. *)
Definition serve_cmd (cfg : Config) (kps : list Keypair) : M (KeyState S) Server :=
  sv ← serverModules cfg kps;
  serve sv ≫= fun _ => mret sv.

End Serve.

(** ** What relying parties are told (api/wellknown.go) *)

Definition jwksPath : string := "/.well-known/jwks.json".
Definition discoveryPath : string := "/.well-known/openid-configuration".
Definition wellKnownCacheControl : string := "public, max-age=300".
Definition AuthorizePath : string := "/authorize".
Definition TokenPath : string := "/token".
Definition UserInfoPath : string := "/userinfo".
Definition DeviceAuthorizationPath : string := "/device_authorization".

Record jwkRSA := mkJwkRSA { w_Kty : string; w_Use : string; w_Alg : string; w_Kid : string; w_N : string; w_E : string }.

Record openIDConfig := mkOpenIDConfig {
  od_Issuer : string;
  od_AuthorizationEndpoint : string;
  od_TokenEndpoint : string;
  od_UserinfoEndpoint : string;
  od_DeviceAuthorizationEndpoint : string;
  od_JwksURI : string;
  od_ResponseTypesSupported : list string;
  od_GrantTypesSupported : list string;
  od_CodeChallengeMethodsSupported : list string;
  od_ScopesSupported : list string;
  od_SubjectTypesSupported : list string;
  od_IDTokenSigningAlgValuesSupported : list string;
  od_AuthorizationResponseISS : bool
}.

(** The document of [registerWellKnown(a, k, issuer)]. *)
Definition openid_configuration (issuer : string) : openIDConfig := {|
  od_Issuer := issuer;
  od_AuthorizationEndpoint := issuer +:+ AuthorizePath;
  od_TokenEndpoint := issuer +:+ TokenPath;
  od_UserinfoEndpoint := issuer +:+ UserInfoPath;
  od_DeviceAuthorizationEndpoint := issuer +:+ DeviceAuthorizationPath;
  od_JwksURI := issuer +:+ jwksPath;
  od_ResponseTypesSupported := ["code"];
  od_GrantTypesSupported := ["authorization_code"; "refresh_token"; "urn:ietf:params:oauth:grant-type:device_code"];
  od_CodeChallengeMethodsSupported := ["S256"];
  od_ScopesSupported := ["openid"; "email"];
  od_SubjectTypesSupported := ["public"];
  od_IDTokenSigningAlgValuesSupported := [AlgRS256];
  od_AuthorizationResponseISS := true
|}.

(** [WithWellKnown(k, issuer)]. *)
Definition discovery (sv : Server) : openIDConfig := openid_configuration (TrimRightByte (rs_OIDCIssuer (sv_result sv)) "/").

Definition jwks_doc `{Env} `{X509} {S} (sv : Server) : M (KeyState S) (string * list jwkRSA) :=
  r ← attempt (PublicJWKS (sv_keys sv));
  match r with
  | inl e => throw (Errorf "jwks unavailable" e)
  | inr set => mret (wellKnownCacheControl, (fun j => mkJwkRSA "RSA" "sig" (J_Alg j) (J_Kid j) (J_N j) (J_E j)) <$> set)
  end.
