(* ===== verification/StartupFacts.v ===== *)
(** * What a running server has checked, and what it tells the world

    A server that starts is configured safely and its parts agree with each
    other; the issuer rule of the server is the client's; the default Host
    allowlist of the admin API is the loopback names; the issuer that tokens
    carry against the one that is advertised. Last, two servers that start: one
    configured as the documentation recommends, one whose issuer ends in a slash,
    both evaluated up to the point where they bind their listeners. *)

From stdpp Require Import pretty.
From S2P Require Import Prelude GoStrings GoTime GoErrors GoEncoding GoURL GoHttp GoNetip Ratelimit Perms Authz Oidc EndpointLimits.
From S2P Require Import Keys Signer Verifier Binding Client Cli CliFacts Token Admin Session Login Google Device Reaper Config Startup.

(** ** Running the constructors *)

Section Steps.
Context {S : Type}.

Lemma require_ok (e : option error) (w w' : World S) x : require e w = (w', inr x) -> e = None /\ w' = w.
Proof. unfold require. destruct e; [done|]. by intros [= <- _]. Qed.

Lemma checked_ok {A} (r : error + A) (w w' : World S) x : checked r w = (w', inr x) -> r = inr x /\ w' = w.
Proof. unfold checked. destruct r; [done|]. by intros [= <- ->]. Qed.

Lemma mret_ok {A} (a : A) (w w' : World S) x : (mret a : M S A) w = (w', inr x) -> x = a.
Proof. by intros [= _ ->]. Qed.

End Steps.

(** Take the successful run of a sequence of steps apart. *)
Ltac steps H :=
  repeat match type of H with
  | (_ ≫= _) _ = (_, inr _) =>
      let w := fresh "w" in let x := fresh "x" in let E := fresh "E" in
      apply bind_inr in H as (w & x & E & H)
  end.

Section Served.
Context `{GoogleAPI} `{!Machine} `{URLParser} `{Unicode}.

(** An address relying parties can trust: https, or this machine. *)
Definition trusted_issuer (issuer : string) : Prop :=
  exists u, url_Parse (TrimSpace issuer) = Some u /\
    ((EqualFold (u_Scheme u) "https" = true /\ u_Host u <> "") \/
     (EqualFold (u_Scheme u) "http" = true /\ config_isLoopback (Hostname u) = true)).

Lemma ValidateIssuer_None issuer : ValidateIssuer issuer = None -> trusted_issuer issuer.
Proof.
  unfold ValidateIssuer, issuerIsPlainHTTP, trusted_issuer. destruct (url_Parse (TrimSpace issuer)) as [u|]; [|done].
  destruct (EqualFold (u_Scheme u) "http") eqn:Eh.
  - destruct (config_isLoopback (Hostname u)) eqn:El; [|done]. intros _. exists u. auto.
  - destruct (EqualFold (u_Scheme u) "https") eqn:Es; [|done]. cbn [andb].
    destruct (String.eqb_spec (u_Host u) "") as [|Hh]; [done|]. intros _. exists u. auto.
Qed.

(** What holds of the parts of a server built from [cfg]. *)
Record well_configured (cfg : Config) (sv : Server) : Prop := {
  issuer_trusted : oc_AllowInsecureIssuer (cfg_OIDC cfg) = false -> trusted_issuer (oc_Issuer (cfg_OIDC cfg));
  cookies_secure :
    sm_cookieSecure (sv_sessions sv) = negb (issuerIsPlainHTTP (oc_Issuer (cfg_OIDC cfg))) /\
    ub_secure (a_binding (sv_authorizer sv)) = negb (issuerIsPlainHTTP (oc_Issuer (cfg_OIDC cfg))) /\
    cb_binding (sv_callback sv) = a_binding (sv_authorizer sv);
  one_session_key :
    len (sm_signingKey (sv_sessions sv)) = 32 /\ ub_key (a_binding (sv_authorizer sv)) = sm_signingKey (sv_sessions sv) /\
    du_signingKey (sv_deviceUI sv) = sm_signingKey (sv_sessions sv);
  one_policy :
    t_authorizer (sv_token sv) = Resolve (sv_policy sv) /\ cb_authorizer (sv_callback sv) = Resolve (sv_policy sv) /\
    du_authorizer (sv_deviceUI sv) = Resolve (sv_policy sv);
  one_registry :
    a_clients (sv_authorizer sv) = sv_clients sv /\ t_clients (sv_token sv) = registry_clients (sv_clients sv) /\
    da_clients (sv_deviceAuthorization sv) = sv_clients sv /\ du_clients (sv_deviceUI sv) = sv_clients sv /\
    IsConfidential (sv_clients sv) defaultInternalDeviceUIClientID = true;
  one_admission :
    t_allowedDomains (sv_token sv) = cb_allowedDomains (sv_callback sv) /\
    t_connectors (sv_token sv) = Some (dom (cs_byID (cb_connectors (sv_callback sv))));
  lifetimes_coherent :
    0 < t_accessTTL (sv_token sv) < t_refreshTTL (sv_token sv) /\ t_refreshTTL (sv_token sv) <= t_refreshMaxLifetime (sv_token sv) /\
    rp_maxLifetime (sv_reaper sv).2 = t_refreshMaxLifetime (sv_token sv);
  tokens_verify :
    sg_keys (sv_signer sv) = vf_keys (sv_verifier sv) /\ sg_issuer (sv_signer sv) = vf_issuer (sv_verifier sv) /\
    sg_audience (sv_signer sv) = vf_audience (sv_verifier sv) /\ sg_audience (sv_signer sv) <> "" /\
    vf_denylist (sv_verifier sv) = true /\ t_signer (sv_token sv) = sv_signer sv /\
    AdminKeys.ak_signer (sv_adminKeys sv) = sv_signer sv;
  admin_locked :
    Forall (fun d => String.length d = 32%nat) (Guard.gd_digests (sv_guard sv)) /\
    AdminKeys.ak_systemGrants (sv_adminKeys sv) = ad_AllowSystemGrants (cfg_Admin cfg) /\
    0 < AdminKeys.ak_maxTTL (sv_adminKeys sv)
}.

Lemma parse_digests_32 entries out digests :
  Guard.parse_digests entries out = inr digests -> Forall (fun d => String.length d = 32%nat) out ->
  Forall (fun d => String.length d = 32%nat) digests.
Proof.
  revert out. induction entries as [|e entries IH]; intros out; cbn [Guard.parse_digests]; [by intros [= ->]|].
  destruct (TrimSpace e =? "")%string; [by apply IH|]. destruct (hex_Decode (TrimSpace e)) as [b|]; [|done].
  destruct (Nat.eqb_spec (String.length b) 32) as [Hb|]; [|done]. cbn [negb]. intros Hp Ho. apply (IH _ Hp), Forall_app. split; [done|].
  by apply Forall_singleton.
Qed.

Lemma NewGuard_digests digests hosts : Guard.gd_digests (Guard.NewGuard digests hosts) = digests.
Proof.
  unfold Guard.NewGuard. assert (forall g, Guard.gd_digests (foldl Guard.allow_host g hosts) = Guard.gd_digests g) as Hf; [|by rewrite Hf].
  induction hosts as [|h hosts IH]; intros g; cbn; [done|]. rewrite IH. unfold Guard.allow_host. by destruct (SplitHostPort _).
Qed.

(** *** The constructors, one by one *)

Section Constructors.
Context {S : Type}.
Implicit Types (w : World S) (r : Result).

Lemma server_checkIssuer_ok cfg w w' x :
  server_checkIssuer cfg w = (w', inr x) -> oc_AllowInsecureIssuer (cfg_OIDC cfg) = false -> trusted_issuer (oc_Issuer (cfg_OIDC cfg)).
Proof.
  unfold server_checkIssuer. destruct (ValidateIssuer _) eqn:E; [|by intros _ _; apply ValidateIssuer_None].
  by destruct (oc_AllowInsecureIssuer (cfg_OIDC cfg)).
Qed.

Lemma newSessionSigningKey_ok r w w' key : newSessionSigningKey r w = (w', inr key) -> len key = 32.
Proof.
  unfold newSessionSigningKey. intros E. steps E. destruct (_ =? "")%string; [done|]. destruct (RawURL_Decode _) as [k|]; [|done].
  destruct (Z.eqb_spec (len k) sessionSigningKeyBytes); [|done]. cbn [negb] in E. apply mret_ok in E as ->. done.
Qed.

Lemma newUpstreamBinding_ok r key w w' b :
  newUpstreamBinding r key w = (w', inr b) -> ub_key b = key /\ ub_secure b = negb (issuerIsPlainHTTP (rs_OIDCIssuer r)).
Proof.
  intros [E _]%checked_ok. unfold NewUpstreamBinding in E. unfold issuerIsPlainHTTP. destruct (negb _); [done|].
  destruct (url_Parse _) as [u|]; [destruct (EqualFold _ _)|]; by injection E as <-.
Qed.

Lemma newToken_ok r signer reg cs pol w w' t :
  newToken r signer reg cs pol w = (w', inr t) ->
  t_signer t = signer /\ t_clients t = registry_clients reg /\ t_connectors t = Some (dom (cs_byID cs)) /\
  t_allowedDomains t = ParseDomains (rs_OIDCAllowedDomains r) /\ t_authorizer t = Resolve pol /\
  0 < t_accessTTL t < t_refreshTTL t /\ t_refreshTTL t <= t_refreshMaxLifetime t /\ t_refreshMaxLifetime t = rs_OIDCRefreshMaxLife r.
Proof.
  unfold newToken. intros E. steps E. apply require_ok in E0 as [Ev _]. apply mret_ok in E as ->. cbn.
  unfold ValidateTokenLifetimes in Ev.
  destruct (Z.leb_spec (rs_OIDCAccessTokenTTL r) 0), (Z.leb_spec (rs_OIDCRefreshTokenTTL r) 0), (Z.leb_spec (rs_OIDCRefreshMaxLife r) 0); try done.
  cbn [orb] in Ev. destruct (Z.leb_spec (rs_OIDCRefreshTokenTTL r) (rs_OIDCAccessTokenTTL r)); [done|].
  destruct (Z.ltb_spec (rs_OIDCRefreshMaxLife r) (rs_OIDCRefreshTokenTTL r)); [done|].
  rewrite !(proj2 (Z.ltb_lt 0 _)) by done. by split_and!.
Qed.

Lemma newDeviceUI_ok r g sessions reg t key pol w w' ui :
  newDeviceUI r g sessions reg t key pol w = (w', inr ui) ->
  du_signingKey ui = key /\ du_clients ui = reg /\ du_authorizer ui = Resolve pol /\ IsConfidential reg defaultInternalDeviceUIClientID = true.
Proof.
  intros [E _]%checked_ok. unfold NewDeviceUI in E. unfold IsConfidential. destruct (reg !! _) as [c|]; [|done].
  destruct (Secret c =? "")%string; [done|]. destruct (url_Parse _); [|done]. destruct (_ || _); [done|].
  destruct (Validate _ _ _); [done|]. destruct (form_action_sources _); [done|]. by injection E as <-.
Qed.

Lemma newGuard_ok r w w' g : newGuardInstaller r w = (w', inr g) -> Forall (fun d => String.length d = 32%nat) (Guard.gd_digests g).
Proof.
  unfold newGuardInstaller. intros E. steps E. apply checked_ok in E0 as [Ed _]. apply mret_ok in E as ->. rewrite NewGuard_digests.
  by apply (parse_digests_32 _ _ _ Ed).
Qed.

Lemma newAdminKeys_ok r signer w w' a :
  newAdminKeys r signer w = (w', inr a) ->
  AdminKeys.ak_signer a = signer /\ AdminKeys.ak_systemGrants a = rs_AdminAllowSystemGrant r /\ 0 < AdminKeys.ak_maxTTL a.
Proof. unfold newAdminKeys. destruct (Z.leb_spec (rs_AdminKeysMaxTTL r) 0); [done|]. intros ->%mret_ok. by cbn. Qed.

(** The graph. *)
Lemma serverModules_ok cfg kps w w' sv :
  serverModules cfg kps w = (w', inr sv) -> well_configured cfg sv /\ sv_result sv = project cfg.
Proof.
  unfold serverModules. intros E. steps E. apply mret_ok in E as ->. cbv zeta in *. split; [|done].
  repeat match goal with
  | Hx : newSessionSigningKey _ _ = _ |- _ => apply newSessionSigningKey_ok in Hx
  | Hx : newUpstreamBinding _ _ _ = _ |- _ => apply newUpstreamBinding_ok in Hx as [? ?]
  | Hx : newToken _ _ _ _ _ _ = _ |- _ => apply newToken_ok in Hx as (? & ? & ? & ? & ? & ? & ? & ?)
  | Hx : newDeviceUI _ _ _ _ _ _ _ _ = _ |- _ => apply newDeviceUI_ok in Hx as (? & ? & ? & ?)
  | Hx : newGuardInstaller _ _ = _ |- _ => apply newGuard_ok in Hx
  | Hx : newAdminKeys _ _ _ = _ |- _ => apply newAdminKeys_ok in Hx as (? & ? & ?)
  | Hx : newReaperFx _ _ = _ |- _ => unfold newReaperFx in Hx; destruct (_ <? 0); [done|]; apply mret_ok in Hx
  | Hx : newSigner _ _ _ _ = _ |- _ => unfold newSigner in Hx; destruct (String.eqb_spec (rs_OIDCAccessTokenAud (project cfg)) ""); [done|]; apply mret_ok in Hx
  | Hx : newVerifier _ _ _ _ = _ |- _ => unfold newVerifier in Hx; destruct (_ =? "")%string; [done|]; apply mret_ok in Hx
  end.
  subst. split; cbn; try by split_and!.
  - by eapply server_checkIssuer_ok.
  - split; [done|]. by split; [|symmetry].
Qed.

End Constructors.

(** *** The command *)

Context `{Env} `{AEAD} `{RSAKeyGen} {S : Type} `{KeyStore S}.

(** C17. A server that gets as far as binding its listeners is configured
    safely, and its parts agree. The issuer is https or this machine, unless the
    operator asked otherwise; API docs are served over plain http only; every
    cookie is Secure unless the issuer is plain http; all browser-facing MACs use
    the one 32-byte session key; /token, the callback and the device pages decide
    with the one configured policy, over the one client registry, in which the
    device pages' own client is confidential; the domains and connectors a
    refresh is checked against are those of the sign-in; token lifetimes are
    ordered, and the reaper keeps families as long as they may be refreshed; what
    /token and the admin API sign the verifier checks, with one issuer, one
    audience and the denylist; the admin API accepts SHA-256 digests only. And
    some keypair signs, now and at every later instant. *)
Theorem server_starts_safely cfg kps (w w' : World (KeyState S)) sv :
  serve_cmd cfg kps w = (w', inr sv) ->
  well_configured cfg sv /\
  (cfg_APIDocsEnabled cfg = true -> issuerIsPlainHTTP (oc_Issuer (cfg_OIDC cfg)) = true) /\
  Configured (sv_policy sv) = true /\
  (forall t, exists kp, Signing (ks_keypairs (w_store w')) t (k_publishDelay (sv_keys sv)) = Some kp /\ Retired kp = false).
Proof.
  unfold serve_cmd. intros E. steps E. injection E as <- <-. apply serverModules_ok in E0 as [Hw Hr]. split; [done|].
  unfold serve in E1. rewrite Hr in E1. cbn [rs_APIDocsEnabled rs_OIDCIssuerPlainHTTP project] in E1.
  destruct (cfg_APIDocsEnabled cfg && _) eqn:Ed; [done|]. steps E1. apply require_ok in E as [Ea _].
  assert (Configured (sv_policy x) = true) as Hp by (unfold requireAuthz in Ea; by destruct (Configured _)).
  split; [|split; [done|]].
  { intros Hd. rewrite Hd in Ed. by destruct (issuerIsPlainHTTP _). }
  intros t. unfold attempt in E2. destruct (Init (sv_keys x) w3) as [w5 res] eqn:Ei. injection E2 as <- <-.
  destruct res as [e|[]]; [done|]. steps E1. assert (w_store w1 = w_store w5) as ->; [|exact (Init_has_signer _ _ _ t Ei)].
  destruct (_ <=? 0) in E1; [done|]. injection E1 as <- _.
  unfold warnUnencryptedKeys in E. steps E. injection E1 as <- <-. destruct (bool_decide _); by injection E as <- _.
Qed.

End Served.

(** ** The issuer rule *)

Lemma fold_bytes_ascii n s : is_ascii s = true -> (String.length s <= n)%nat -> fold_bytes n s = ascii_lower s.
Proof.
  revert s. induction n as [|n IH]; intros s Ha Hl; [by destruct s; cbn in *; [|lia]|].
  destruct s as [|a [|b s']]; [done..|]. cbn in Ha, Hl. apply andb_true_iff in Ha as [Ha Hb]. apply N.ltb_lt in Ha.
  assert (fold_bytes n (String b s') = ascii_lower (String b s')) as E by (apply IH; [done|cbn; lia]).
  cbn [fold_bytes]. rewrite (proj2 (N.eqb_neq (code a) 0xC5)) by lia. cbn [andb].
  destruct s' as [|c s'']; [by rewrite E|]. rewrite (proj2 (N.eqb_neq (code a) 0xE2)) by lia. cbn [andb]. by rewrite E.
Qed.

Lemma EqualFold_ascii s t : is_ascii s = true -> EqualFold s t = (ascii_lower s =? ascii_lower t)%string.
Proof. intros Ha. unfold EqualFold. by rewrite fold_bytes_ascii. Qed.

Section IssuerRule.
Context `{URLParser} `{Unicode}.

Lemma loopback_has_host u : config_isLoopback (Hostname u) = true -> u_Host u <> "".
Proof. intros Hl E. unfold Hostname in Hl. rewrite E in Hl. vm_compute in Hl. done. Qed.

(** The server accepts an issuer exactly when the command line client will
    talk to it without --insecure, so an issuer no override was needed for is
    one every client accepts. Schemes are ASCII in what url.Parse accepts. *)
Theorem issuer_rules_agree issuer :
  (forall u, url_Parse issuer = Some u -> is_ascii (u_Scheme u) = true) -> TrimSpace issuer = issuer ->
  (ValidateIssuer issuer = None <-> checkIssuer issuer false = None).
Proof.
  intros Ha Et. unfold ValidateIssuer, issuerIsPlainHTTP, checkIssuer. rewrite Et. destruct (url_Parse issuer) as [u|]; [|done].
  specialize (Ha u eq_refl). rewrite !(EqualFold_ascii (u_Scheme u)) by done. unfold ToLower. rewrite Ha. change (ascii_lower "http") with "http".
  change (ascii_lower "https") with "https". change (isLoopbackHost (Hostname u)) with (config_isLoopback (Hostname u)).
  destruct (String.eqb_spec (ascii_lower (u_Scheme u)) "http") as [->|]; cbn [orb negb andb].
  - destruct (config_isLoopback (Hostname u)) eqn:El; [|by destruct (_ =? "")%string].
    pose proof (loopback_has_host u El). by destruct (String.eqb_spec (u_Host u) "").
  - destruct (String.eqb_spec (u_Host u) ""), (String.eqb_spec (ascii_lower (u_Scheme u)) "https"); by cbn.
Qed.

End IssuerRule.

(** ** The default admin hosts *)

(** A byte that trimming and lower-casing keep. *)
Definition plain_byte (c : ascii) : bool := let n := code c in ((33 <=? n) && (n <? 127) && negb ((65 <=? n) && (n <=? 90)))%N.

Lemma plain_space_width c s : plain_byte c = true -> space_width (String c s) = 0%nat.
Proof.
  unfold plain_byte. rewrite !andb_true_iff, N.leb_le, N.ltb_lt. intros [[? ?] _]. cbn [space_width]. unfold ascii_space.
  replace ((9 <=? code c) && (code c <=? 13) || (code c =? 32))%N with false by (symmetry; apply orb_false_iff; split; [apply andb_false_iff; right; apply N.leb_gt|apply N.eqb_neq]; lia).
  rewrite !(proj2 (N.eqb_neq (code c) _)) by lia. cbn. by destruct s as [|? [|? ?]].
Qed.

Lemma TrimSpace_plain s : all_bytes plain_byte s = true -> TrimSpace s = s.
Proof.
  intros Hp. unfold TrimSpace. assert (TrimLeftSpace s = s) as ->.
  { unfold TrimLeftSpace. destruct s as [|c s]; [done|]. cbn in Hp. apply andb_true_iff in Hp as [Hc _].
    cbn [String.length trim_left_fuel]. by rewrite plain_space_width. }
  induction s as [|c s IH]; [done|]. cbn in Hp. apply andb_true_iff in Hp as [Hc Hp].
  cbn [TrimRightSpace String.length all_space]. rewrite plain_space_width by done. by rewrite IH.
Qed.

Lemma ToLower_plain `{Unicode} s : all_bytes plain_byte s = true -> ToLower s = s.
Proof.
  intros Hp. assert (is_ascii s = true /\ ascii_lower s = s) as [Ha El]; [|unfold ToLower; by rewrite Ha].
  induction s as [|c s IH]; [done|]. cbn in Hp. apply andb_true_iff in Hp as [Hc Hp]. destruct (IH Hp) as [Ha El].
  unfold plain_byte in Hc. rewrite !andb_true_iff, N.leb_le, N.ltb_lt in Hc. destruct Hc as [[? ?] Hu]. cbn. rewrite Ha.
  change (map_bytes lower_byte s) with (ascii_lower s). rewrite El. unfold lower_byte. apply negb_true_iff in Hu. rewrite Hu.
  by rewrite (proj2 (N.ltb_lt (code c) 128)) by lia.
Qed.

Definition digit_byte (c : ascii) : bool := ((48 <=? code c) && (code c <=? 57))%N.

Lemma digit_is_digit d : 0 <= d < 10 -> all_bytes digit_byte (GoTime.digit d) = true.
Proof.
  intros Hd. assert (d = 0 \/ d = 1 \/ d = 2 \/ d = 3 \/ d = 4 \/ d = 5 \/ d = 6 \/ d = 7 \/ d = 8 \/ d = 9) as Hc by lia.
  by repeat (destruct Hc as [->|Hc]; [vm_compute; done|]); subst d; vm_compute.
Qed.

Lemma pretty_digits x : 0 <= x -> all_bytes digit_byte (pretty x) = true.
Proof.
  intros Hx. assert (0 <= x -> all_bytes digit_byte (pretty x) = true) as Hg; [|by apply Hg]. pattern x.
  apply Z_lt_induction; [|done]. clear x Hx. intros x IH Hx.
  destruct (decide (x < 10)); [rewrite pretty_digit by lia; apply digit_is_digit; lia|].
  rewrite pretty_step, all_bytes_app by lia. rewrite IH; [|Z.to_euclidean_division_equations; lia..].
  apply digit_is_digit. by apply Z.mod_pos_bound.
Qed.

Lemma digits_lack (c : ascii) s : digit_byte c = false -> all_bytes digit_byte s = true -> ContainsByte s c = false.
Proof.
  intros Hc. induction s as [|d s IH]; [done|]. cbn. rewrite andb_true_iff. intros [Hd Hs]. rewrite IH by done.
  destruct (Ascii.eqb_spec d c) as [->|]; [congruence|done].
Qed.

Section AdminHosts.
Context `{Unicode}.
Implicit Types (host : string).

Lemma exact_host (g : Guard.Guard) h name :
  all_bytes plain_byte h = true -> SplitHostPort h = Some name ->
  Guard.allow_host g h = Guard.mkGuard (Guard.gd_digests g) ({[h]} ∪ Guard.gd_exact g) (Guard.gd_anyPort g).
Proof. intros Hp Hs. unfold Guard.allow_host. by rewrite TrimSpace_plain, ToLower_plain, Hs. Qed.

(** One of the default hosts, with the port's digits [p]. *)
Lemma default_host name p :
  name ∈ ["127.0.0.1"; "localhost"; "::1"] -> all_bytes digit_byte p = true ->
  all_bytes plain_byte (JoinHostPort name p) = true /\ SplitHostPort (JoinHostPort name p) = Some name.
Proof.
  intros Hn Hp. assert (forall a, all_bytes plain_byte a = true -> all_bytes plain_byte (a +:+ p) = true) as Hplain.
  { intros a Ha. rewrite all_bytes_app, Ha. cbn [andb]. revert Hp. apply all_bytes_impl. intros c Hc. unfold digit_byte in Hc. unfold plain_byte.
    apply andb_true_iff in Hc as [? ?]. rewrite N.leb_le in *.
    rewrite (proj2 (N.leb_le 33 _)), (proj2 (N.ltb_lt _ 127)), (proj2 (N.leb_gt 65 _)) by lia. done. }
  assert (forall a, CutLast (a +:+ ":" +:+ p) ":" = Some (a, p)) as Hcut.
  { intros a. apply CutLast_Some. split; [done|]. by apply digits_lack. }
  assert (forall c, digit_byte c = false -> ContainsByte p c = false) as Hlack by (intros c Hc; by apply digits_lack).
  rewrite !elem_of_cons, elem_of_nil in Hn. destruct Hn as [->|[->|[->|[]]]].
  - split; [exact (Hplain "127.0.0.1:" eq_refl)|]. change (JoinHostPort "127.0.0.1" p) with ("127.0.0.1" +:+ ":" +:+ p).
    unfold SplitHostPort. rewrite Hcut, !append_cons, !append_nil_l. cbn. by rewrite !Hlack.
  - split; [exact (Hplain "localhost:" eq_refl)|]. change (JoinHostPort "localhost" p) with ("localhost" +:+ ":" +:+ p).
    unfold SplitHostPort. rewrite Hcut, !append_cons, !append_nil_l. cbn. by rewrite !Hlack.
  - split; [exact (Hplain "[::1]:" eq_refl)|]. change (JoinHostPort "::1" p) with ("[::1]" +:+ ":" +:+ p).
    unfold SplitHostPort. rewrite Hcut, !append_cons, !append_nil_l. cbn. by rewrite !Hlack.
Qed.

(** Unless hosts are configured, the admin API answers only requests that
    address it by a loopback name and its own port: no other Host, which a web
    page rebinding its own name would send, passes the guard, whatever the
    listener is bound to. *)
Theorem default_admin_hosts (c : AdminConfig) digests host :
  TrimSpace (ad_AllowedHosts c) = "" -> 0 <= ls_Port (ad_Listener c) ->
  Guard.hostAllowed (Guard.NewGuard digests (adminAllowedHosts c)) host = true <->
  ToLower host ∈ (fun name => JoinHostPort name (pretty (ls_Port (ad_Listener c)))) <$> ["127.0.0.1"; "localhost"; "::1"].
Proof.
  intros Eh Hport. unfold adminAllowedHosts. rewrite Eh. cbn [String.eqb]. set (p := pretty (ls_Port (ad_Listener c))).
  assert (forall name, name ∈ ["127.0.0.1"; "localhost"; "::1"] ->
    all_bytes plain_byte (JoinHostPort name p) = true /\ SplitHostPort (JoinHostPort name p) = Some name) as Hd.
  { intros name Hn. apply default_host; [done|]. by apply pretty_digits. }
  destruct (Hd "127.0.0.1") as [P1 S1]; [set_solver|]. destruct (Hd "localhost") as [P2 S2]; [set_solver|]. destruct (Hd "::1") as [P3 S3]; [set_solver|].
  unfold Guard.NewGuard. cbn [foldl]. rewrite (exact_host _ _ _ P1 S1), (exact_host _ _ _ P2 S2), (exact_host _ _ _ P3 S3). cbn [Guard.gd_digests Guard.gd_exact Guard.gd_anyPort].
  unfold Guard.hostAllowed. cbn [Guard.gd_exact Guard.gd_anyPort]. rewrite !fmap_cons, fmap_nil, !elem_of_cons, elem_of_nil.
  case_bool_decide as Hin; [split; [intros _|done]; set_solver|]. rewrite bool_decide_eq_false_2 by set_solver. split; [done|set_solver].
Qed.

End AdminHosts.

(** ** The issuer relying parties see *)

Lemma TrimRightByte_id s c : TrimRightByte s c = s <-> HasSuffixByte s c = false.
Proof.
  assert (forall s, (String.length (TrimRightByte s c) <= String.length s)%nat) as Hlen.
  { induction s0 as [|d s0 IH]; [done|]. cbn. destruct (TrimRightByte s0 c); [by destruct (Ascii.eqb d c); cbn; lia|]. cbn in *. lia. }
  induction s as [|d s IH]; [done|]. destruct s as [|e s].
  - cbn. by destruct (Ascii.eqb d c).
  - change (HasSuffixByte (String d (String e s)) c) with (HasSuffixByte (String e s) c). rewrite <- IH.
    cbn [TrimRightByte] in *. set (t := match TrimRightByte s c with "" => _ | _ => _ end) in *.
    destruct t as [|x t]; [|split; [intros [= -> ->]; done|by intros ->]]. split; [|done]. by destruct (Ascii.eqb d c).
Qed.

Section Advertised.
Context `{GoogleAPI} `{!Machine} `{URLParser} `{Unicode} `{Env} `{AEAD} `{RSAKeyGen} {S : Type} `{KeyStore S}.

(** Every authorization response and every page carries the issuer the
    discovery document advertises; tokens do exactly when the configured issuer
    has no trailing slash. The parts that build addresses trim it, the signer
    does not. *)
Theorem advertised_issuer cfg kps (w w' : World (KeyState S)) sv :
  serve_cmd cfg kps w = (w', inr sv) ->
  let advertised := od_Issuer (discovery sv) in
  cb_issuer (sv_callback sv) = advertised /\ a_issuer (sv_authorizer sv) = advertised /\ du_issuer (sv_deviceUI sv) = advertised /\
  (sg_issuer (sv_signer sv) = advertised <-> HasSuffixByte (oc_Issuer (cfg_OIDC cfg)) "/" = false).
Proof.
  unfold serve_cmd. intros E. steps E. injection E as <- <-. unfold serverModules in E0. steps E0. apply mret_ok in E0 as ->.
  unfold discovery. cbn. split_and!; [done..| |].
  - repeat match goal with Hx : newDeviceUI _ _ _ _ _ _ _ _ = _ |- _ => apply checked_ok in Hx as [Hx _]; unfold NewDeviceUI in Hx end.
    repeat case_match; simplify_eq; done.
  - match goal with Hx : newSigner _ _ _ _ = _ |- _ => unfold newSigner in Hx; destruct (_ =? "")%string; [done|]; apply mret_ok in Hx as -> end.
    cbn. rewrite <- TrimRightByte_id. by split; symmetry.
Qed.

End Advertised.

(** ** Two servers that start *)

From S2P Require Import GoogleExamples.

Module StartupExample.
Import KeysExample GoogleExample.

#[local] Instance plain_unicode : Unicode := { unicode_lower s := s }.
#[local] Existing Instance KeysExample.mem_store.
#[local] Existing Instance KeysExample.xor_free_aead.
#[local] Existing Instance KeysExample.one_key.
#[local] Existing Instance KeysExample.fixed_env.
#[local] Existing Instance GoogleExample.google_up.

Definition https_url (host path : string) : URL := mkURL "https" "" None host host path path false "" false "".

#[local] Instance startup_parser : URLParser := {
  url_Parse raw :=
    if (raw =? "https://id.example")%string then Some (https_url "id.example" "")
    else if (raw =? "https://id.example/")%string then Some (https_url "id.example" "/")
    else if (raw =? "https://id.example/device/sso-callback")%string then Some (https_url "id.example" "/device/sso-callback")
    else if (raw =? "https://accounts.google.com/o/oauth2/v2/auth")%string then Some (https_url "accounts.google.com" "/o/oauth2/v2/auth")
    else if (raw =? "http://127.0.0.1:8000")%string
    then Some (mkURL "http" "" None "127.0.0.1:8000" "127.0.0.1:8000" "" "" false "" false "")
    else if (raw =? "https://accounts.google.com")%string then Some (https_url "accounts.google.com" "")
    else None
}.

#[local] Instance host_machine : Machine := {
  open_store _ := None;
  store_Ping := None;
  store_IsCurrent := None;
  os_ReadFile _ := inl (Opaque "no such file");
  style_source := "'sha256-x'";
  google_state _ := fresh;
  google_late _ := false
}.

(** The defaults, with what an operator has to set. *)
Definition configured (issuer : string) : Config := {|
  cfg_Log := cfg_Log defaultConfig;
  cfg_HTTP := cfg_HTTP defaultConfig;
  cfg_Admin := cfg_Admin defaultConfig;
  cfg_Server := cfg_Server defaultConfig;
  cfg_APIDocsEnabled := false;
  cfg_State := cfg_State defaultConfig;
  cfg_OIDC := mkOIDCConfig issuer false "tempogate-device-ui:https://id.example/device/sso-callback" false "tempogate-device-ui:s3cret"
    "x.io" "x.io" (5 * Minute) (RawURL_Encode "0123456789abcdef0123456789abcdef") (4 * Hour) "temporal" (7 * 24 * Hour) (7 * 24 * Hour)
    (mkAuthzConfig ["domain:x.io=default:read"] "") (oc_Google (cfg_OIDC defaultConfig));
  cfg_Keys := cfg_Keys defaultConfig
|}.

Definition started (issuer : string) := serve_cmd (configured issuer) [] boot.

Definition starts (issuer : string) : bool := match (started issuer).2 with inr _ => true | inl _ => false end.

Lemma starts_ok issuer : starts issuer = true -> exists w sv, started issuer = (w, inr sv).
Proof. unfold starts. destruct (started issuer) as [w [e|sv]]; [done|]. by exists w, sv. Qed.

Example both_start : starts "https://id.example" && starts "https://id.example/" = true.
Proof. vm_compute. reflexivity. Qed.

(** The defaults alone do not make a server. *)
Example defaults_refused : (serve_cmd defaultConfig [] boot).2 = inl (Opaque "oidc: OIDC_SESSION_SIGNING_KEY is required").
Proof. vm_compute. reflexivity. Qed.

Lemma server_starts_safely_witness :
  exists w sv, started "https://id.example" = (w, inr sv) /\ well_configured (configured "https://id.example") sv /\
    Configured (sv_policy sv) = true /\
    (forall t, exists kp, Signing (ks_keypairs (w_store w)) t (k_publishDelay (sv_keys sv)) = Some kp /\ Retired kp = false).
Proof.
  destruct (starts_ok "https://id.example") as (w & sv & E); [vm_compute; reflexivity|]. exists w, sv.
  destruct (server_starts_safely (configured "https://id.example") [] boot w sv E) as (Hw & _ & Hp & Hk). by split_and!.
Defined.

(** An issuer with a trailing slash starts, advertises itself without it, and
    signs with it. *)
Lemma advertised_issuer_witness :
  exists w sv, started "https://id.example/" = (w, inr sv) /\ od_Issuer (discovery sv) = "https://id.example" /\
    cb_issuer (sv_callback sv) = od_Issuer (discovery sv) /\ sg_issuer (sv_signer sv) <> od_Issuer (discovery sv).
Proof.
  destruct (starts_ok "https://id.example/") as (w & sv & E); [vm_compute; reflexivity|]. exists w, sv.
  destruct (advertised_issuer (configured "https://id.example/") [] boot w sv E) as (Hc & _ & _ & Hs). split_and!; [exact E| |exact Hc|].
  - assert (match (started "https://id.example/").2 with inr sv => od_Issuer (discovery sv) | inl _ => "" end = "https://id.example") as Hd
      by (vm_compute; reflexivity). by rewrite E in Hd.
  - intros Heq%Hs. vm_compute in Heq. done.
Defined.

Lemma issuer_rules_agree_witness :
  ValidateIssuer "https://id.example" = None /\ checkIssuer "https://id.example" false = None.
Proof.
  assert (ValidateIssuer "https://id.example" = None) as Hv by (vm_compute; reflexivity). split; [exact Hv|].
  apply (issuer_rules_agree "https://id.example"); [|vm_compute; reflexivity|exact Hv]. intros u [= <-]. reflexivity.
Defined.

Lemma default_admin_hosts_witness :
  Guard.hostAllowed (Guard.NewGuard [] (adminAllowedHosts (cfg_Admin defaultConfig))) "LOCALHOST:8081" = true /\
  Guard.hostAllowed (Guard.NewGuard [] (adminAllowedHosts (cfg_Admin defaultConfig))) "attacker.example:8081" = false.
Proof.
  split.
  - apply (default_admin_hosts (cfg_Admin defaultConfig) [] "LOCALHOST:8081"); [vm_compute; reflexivity|vm_compute; discriminate|].
    right. left.
  - apply not_true_iff_false. intros Hh.
    apply (default_admin_hosts (cfg_Admin defaultConfig) [] "attacker.example:8081") in Hh; [|vm_compute; reflexivity|vm_compute; discriminate].
    rewrite !fmap_cons, fmap_nil, !elem_of_cons, elem_of_nil in Hh. by destruct Hh as [Hh|[Hh|[Hh|[]]]]; vm_compute in Hh.
Defined.

End StartupExample.
