(* ===== verification/Commands.v ===== *)
(** * The operator's commands (cmd/servercmd)

    `tempogate keys`, `sessions` and `authz`: their arguments, what they do to
    the store, and what they print. A command is a computation that returns the
    lines it prints; the cells of a table are separated by tabs, as the code
    writes them. Flag parsing itself (pflag) is an argument. *)

From stdpp Require Import pretty.
From S2P Require Import Prelude GoStrings GoErrors GoTime GoEncoding Perms Authz Oidc Keys Sql Sqlite Admin AdminStores StartupFacts.

Definition tab : string := String (Ascii.ascii_of_nat 9) "".
Definition cells (l : list string) : string := String.concat tab l.
Definition rfc3339 (t : time) : string := Format RFC3339 t 0.

(** ** Kids as arguments (keys.go) *)

Definition kid_byte (c : ascii) : bool := bool_decide (is_Some (String.index 0 (String c "") url_alphabet)).
Fixpoint all_kid_bytes (s : string) : bool := match s with "" => true | String c s => kid_byte c && all_kid_bytes s end.
(** [kidPattern.MatchString(s)]. *)
Definition kidPattern (s : string) : bool := (String.length s =? 43)%nat && all_kid_bytes s.

(** The flags of a command: long names and shorthands. *)
Record FlagSet := mkFlagSet { fl_names : list string; fl_shorthands : list string }.

Definition before_eq (s : string) : string := match Cut s "=" with Some (name, _) => name | None => s end.

Definition isFlagArg (fs : FlagSet) (a : string) : bool :=
  if HasPrefix a "--" then bool_decide (before_eq (drop_bytes 2 a) ∈ fl_names fs)
  else (String.length a =? 2)%nat && bool_decide (drop_bytes 1 a ∈ fl_shorthands fs).

(** The loop of [parseKidArgs]: flags and positional arguments. *)
Fixpoint split_args (fs : FlagSet) (args : list string) : list string * list string :=
  match args with
  | [] => ([], [])
  | a :: args =>
      if (a =? "--")%string then ([], args)
      else
        let (flags, positional) := split_args fs args in
        if HasPrefix a "-" && (isFlagArg fs a || negb (kidPattern a)) then (a :: flags, positional) else (flags, a :: positional)
  end.

(** What pflag makes of the flags: an error, or the help and force flags and
    what it left as arguments. *)
Record parsed := mkParsed { pf_help : bool; pf_force : bool; pf_args : list string }.

Definition parseKidArgs (fs : FlagSet) (pflag : list string -> error + parsed) (args : list string) : error + (list string * bool * bool) :=
  let (flags, positional) := split_args fs args in
  match pflag flags with
  | inl e => inl e
  | inr p =>
      if pf_help p then inr ([], true, pf_force p)
      else
        let positional := positional ++ pf_args p in
        if (length positional =? 1)%nat then inr (positional, false, pf_force p)
        else inl (Opaque ("accepts 1 arg(s), received " +:+ pretty (length positional)))
  end.

(** ** Signing keys (keys.go) *)

Section Keys.
Context `{AEAD} `{RSAKeyGen} `{Env} {S : Type} `{KeyStore S}.
Context (store_ready : option error).

(** [storeReady(ctx, p.Store)] before anything else. *)
Definition when_ready {T A} (m : M T A) : M T A := match store_ready with Some e => throw e | None => m end.

Definition retired_at (kp : Keypair) : string := match RetiredAt kp with Some t => rfc3339 t | None => "" end.

Definition keys_retire (cfg : KeysCfg) (kid : string) (force : bool) : M (KeyState S) (list string) := when_ready (
  r ← attempt (Retire cfg kid force);
  match r with
  | inl e => throw (if errors_Is e ErrReplacementPending
                    then Errorf "retry then, or pass --force if this key is compromised (Temporal may reject new tokens until it next refreshes JWKS)" e
                    else e)
  | inr kp => mret ["retired keypair: kid=" +:+ Kid kp +:+ " retired_at=" +:+ retired_at kp +:+ "; it leaves JWKS after KEYS_RETIREMENT_GRACE"]
  end).

Definition status_cell (st : KeypairStatus) : string :=
  if Retired (st_Keypair st) then "retired " +:+ retired_at (st_Keypair st)
  else if st_Signing st then "signing"
  else match st_ActivatesAt st with Some t => "pending, signs from " +:+ rfc3339 t | None => "published" end.

Definition keys_list (cfg : KeysCfg) : M (KeyState S) (list string) := when_ready (
  sts ← Statuses cfg;
  mret (cells ["KID"; "CREATED_AT"; "STATUS"] ::
        List.map (fun st => cells [Kid (st_Keypair st); rfc3339 (CreatedAt (st_Keypair st)); status_cell st]) sts)).

Definition activation_line (kid : string) (st : KeypairStatus) : list string :=
  match st_ActivatesAt st with
  | Some t => if (Kid (st_Keypair st) =? kid)%string
              then ["published in JWKS now; signs from " +:+ rfc3339 t +:+ " (KEYS_PUBLISH_DELAY), retire the old key after that"] else []
  | None => []
  end.

(** The first line is printed before the statuses are read. *)
Definition keys_generate (cfg : KeysCfg) (force : bool) : M (KeyState S) (list string * option error) := when_ready (
  kp ← Generate cfg force;
  let line := "generated keypair: kid=" +:+ Kid kp +:+ " alg=" +:+ Alg kp +:+ " created_at=" +:+ rfc3339 (CreatedAt kp) in
  r ← attempt (Statuses cfg);
  mret (match r with
        | inl e => ([line], Some e)
        | inr sts => (line :: mjoin (activation_line (Kid kp) <$> sts), None)
        end)).

Definition keys_encrypt (UpdateKeypairPrivatePEM : string -> string -> S -> S * option error) (cfg : KeysCfg) : M (KeyState S) (list string) := when_ready (
  n ← EncryptStored UpdateKeypairPrivatePEM cfg;
  mret ["encrypted " +:+ pretty n +:+ " keypair(s)"]).
End Keys.

(** ** Sessions (sessions.go) *)

Section Sessions.
Context `{Env} {R : Type} `{SessionStore R}.
Context (store_ready : option error).

Definition session_row (s : RefreshSession) : string :=
  cells [rs_FamilyID s; rs_ClientID s; rs_Email s; TokenSubject (rs_ConnectorID s) (rs_Subject s);
         rfc3339 (rs_AuthTime s); rfc3339 (rs_RotatedAt s); rfc3339 (rs_ExpiresAt s)].

Definition sessions_list (email subject : string) : M R (list string) :=
  match (if (subject =? "")%string then inr ("", "") else ParseTokenSubject subject) with
  | inl e => throw e
  | inr (connectorID, sub) => when_ready store_ready (
      t ← now;
      r ← on_store (ListSessions (mkSessionFilter email connectorID sub) t);
      rows ← or_throw (fun e => e) r;
      mret (cells ["FAMILY_ID"; "CLIENT_ID"; "EMAIL"; "SUBJECT"; "AUTH_TIME"; "LAST_ROTATION"; "EXPIRES_AT"] :: List.map session_row rows))
  end.

Definition sessions_revoke (email subject family : string) : M R (list string) :=
  if (email =? "")%string && (subject =? "")%string && (family =? "")%string
  then throw (Opaque "one of --email, --subject or --family must be non-empty")
  else when_ready store_ready (
    t ← now;
    r ← (if negb (email =? "")%string then on_store (RevokeEmail email t)
         else if negb (subject =? "")%string then
           match ParseTokenSubject subject with
           | inl e => throw e
           | inr (connectorID, sub) => on_store (RevokeSubject connectorID sub t)
           end
         else on_store (RevokeFamily family t));
    n ← or_throw (fun e => e) r;
    mret ["revoked " +:+ pretty n +:+ " session(s)"]).
End Sessions.

(** ** Authorization (authz.go) *)

Section Authz.
Context `{Unicode}.

Definition domainAllowed (allowed email : string) : bool :=
  match CutLast email "@" with
  | None => false
  | Some (_, domain) => existsb (fun d => EqualFold (TrimSpace d) domain) (Split allowed ",")
  end.

Fixpoint matched_lines (first : bool) (rs : list Rule) : list string :=
  match rs with
  | [] => []
  | r :: rs => cells [if first then "matched:" else ""; "rule " +:+ pretty (r_Index r); TrimSpace (r_Raw r)] :: matched_lines false rs
  end.

Definition explain (p : Policy) (allowedDomains email : string) : list string :=
  let e := Explain p email in
  let claim := ToClaim (e_Grant e) in
  [cells ["email:"; e_Email e]] ++
  (if negb (domainAllowed allowedDomains (e_Email e))
   then [cells ["admission:"; "denied: the email domain is not in OIDC_ALLOWED_DOMAINS, so this person cannot sign in at all"]] else []) ++
  (if e_Default e then [cells ["matched:"; "no rule; OIDC_AUTHZ_DEFAULT_PERMISSIONS applies"]] else []) ++
  matched_lines true (e_Matched e) ++
  (match claim with
   | [] => [cells ["permissions:"; "none: sign-in is denied (access_denied), no token is issued"]]
   | _ => [cells ["permissions:"; String.concat "," claim]]
   end).

(** `tempogate authz explain --email ...`. *)
Definition authz_explain (p : Policy) (allowedDomains email : string) : error + list string :=
  if (TrimSpace email =? "")%string then inl (Opaque "--email must be non-empty") else inr (explain p allowedDomains email).
End Authz.

(** ** A kid is never taken for a flag *)

Lemma all_kid_bytes_no_eq s : all_kid_bytes s = true -> ContainsByte s "=" = false.
Proof.
  induction s as [|c s IH]; [done|]. cbn [all_kid_bytes ContainsByte]. intros [Hc Hs]%andb_true_iff. rewrite (IH Hs), orb_false_r.
  destruct (Ascii.eqb_spec c "="%char) as [->|]; [by vm_compute in Hc|done].
Qed.

Lemma all_kid_bytes_drop n s : all_kid_bytes s = true -> all_kid_bytes (drop_bytes n s) = true.
Proof.
  revert s. induction n as [|n IH]; intros [|c s]; cbn; try done. intros [_ Hs]%andb_true_iff. by apply IH.
Qed.

Lemma kid_not_flag fs kid :
  kidPattern kid = true -> Forall (fun n => String.length n <> 41%nat) (fl_names fs) -> isFlagArg fs kid = false.
Proof.
  unfold kidPattern, isFlagArg. intros [Hl%Nat.eqb_eq Hb]%andb_true_iff Hn. rewrite Hl. destruct (HasPrefix kid "--"); [|done].
  unfold before_eq. assert (Hc : Cut (drop_bytes 2 kid) "=" = None).
  { apply Cut_None, all_kid_bytes_no_eq. by apply all_kid_bytes_drop. }
  rewrite Hc. apply bool_decide_eq_false. intros Hin. rewrite Forall_forall in Hn. apply (Hn _ Hin). rewrite length_drop_bytes. lia.
Qed.

(** A flag of the command, other than the end of flags. *)
Definition is_flag (fs : FlagSet) (a : string) : Prop := HasPrefix a "-" = true /\ isFlagArg fs a = true /\ a <> "--".

Lemma split_args_flags fs flags rest :
  Forall (is_flag fs) flags -> split_args fs (flags ++ rest) = (flags ++ (split_args fs rest).1, (split_args fs rest).2).
Proof.
  induction 1 as [|a flags (Hp & Hf & Hd) _ IH]; cbn [app split_args]; [by destruct (split_args fs rest)|].
  apply String.eqb_neq in Hd. by rewrite Hd, IH, Hp, Hf.
Qed.

(** A kid reaches `keys retire` whole. Kids are thumbprints that may start
    with a dash: given among any flags of the command, in any position, such an
    argument is the one positional argument and the flags are what pflag reads,
    so --force is neither lost nor invented. *)
Theorem kid_argument_kept (fs : FlagSet) (pflag : list string -> error + parsed) (kid : string) (pre post : list string) (p : parsed) :
  kidPattern kid = true -> Forall (fun n => String.length n <> 41%nat) (fl_names fs) ->
  Forall (is_flag fs) pre -> Forall (is_flag fs) post ->
  pflag (pre ++ post) = inr p -> pf_help p = false -> pf_args p = [] ->
  parseKidArgs fs pflag (pre ++ kid :: post) = inr ([kid], false, pf_force p).
Proof.
  intros Hk Hn Hpre Hpost Hp Hh Ha. unfold parseKidArgs. rewrite split_args_flags by done.
  assert (Hpost' : split_args fs post = (post, [])).
  { rewrite <-(app_nil_r post) at 1. rewrite split_args_flags by done. cbn. by rewrite app_nil_r. }
  assert (Hkid : split_args fs (kid :: post) = (post, [kid])).
  { cbn [split_args]. assert (Hd : (kid =? "--")%string = false).
    { apply String.eqb_neq. intros ->. by vm_compute in Hk. }
    rewrite Hd, Hpost', (kid_not_flag fs kid Hk Hn), Hk. by rewrite andb_false_r. }
  rewrite Hkid. cbn [fst snd]. rewrite Hp, Hh, Ha. done.
Qed.

Definition retire_flags : FlagSet := mkFlagSet ["force"; "help"] ["h"].
Definition dash_kid : string := "-Ab3dEf6hIj9LmN0pQr2tUv4xYz6_-8cDeF1gHiJkLm".

Lemma kid_argument_kept_witness :
  parseKidArgs retire_flags (fun fl => inr (mkParsed false (bool_decide (fl = ["--force"])) [])) [dash_kid; "--force"] = inr ([dash_kid], false, true).
Proof.
  apply (kid_argument_kept retire_flags _ dash_kid [] ["--force"] (mkParsed false true [])); try reflexivity.
  - repeat constructor; discriminate.
  - constructor.
  - constructor; [|constructor]. split; [reflexivity|]. split; [reflexivity|discriminate].
Defined.

(** ** The command and its HTTP twin *)

Section Twin.
Import AdminSessions.
Context `{Unicode} `{Env} {R : Type} `{SessionStore R}.

(** `tempogate sessions revoke` and POST /admin/sessions/revoke are equal: with
    one selector given, both leave the store the same, at the same reading of the
    clock, and the command reports exactly the sessions the route counts, or fails
    where the route fails. *)
Theorem sessions_revoke_twin (b : sessionRevokeBody) (w : World R) :
  selectors b = 1%nat ->
  let cli := sessions_revoke None (rb_Email b) (rb_Subject b) (rb_FamilyID b) w in
  let http := revokeBy b w in
  w_store cli.1 = w_store http.1 /\ w_tick cli.1 = w_tick http.1 /\
  (forall n, http.2 = inr (n, None) -> cli.2 = inr ["revoked " +:+ pretty n +:+ " session(s)"]) /\
  ((exists e, http.2 = inl e \/ exists n, http.2 = inr (n, Some e)) <-> exists e, cli.2 = inl e).
Proof.
  intros Hs. unfold sessions_revoke, revokeBy. cbv zeta. rewrite Hs.
  assert (Hne : ((rb_Email b =? "") && (rb_Subject b =? "") && (rb_FamilyID b =? ""))%string = false).
  { unfold selectors in Hs. destruct (rb_Email b =? "")%string eqn:E1, (rb_Subject b =? "")%string eqn:E2, (rb_FamilyID b =? "")%string eqn:E3;
      try done. cbn in Hs. by rewrite E1, E2, E3 in Hs. }
  rewrite Hne. cbn [negb Nat.eqb]. unfold when_ready, mbind, M_bind, declare_pii, emit, now, on_store, or_throw, attempt, parseSubject, throw, mret, M_ret.
  destruct (negb (rb_Email b =? "")%string); cbn.
  - destruct (RevokeEmail _ _ _) as [s' [n [e|]]]; cbn; naive_solver.
  - destruct (negb (rb_Subject b =? "")%string); cbn.
    + destruct (ParseTokenSubject (rb_Subject b)) as [e|[cid sub]]; cbn; [naive_solver|].
      destruct (RevokeSubject _ _ _ _) as [s' [n [e|]]]; cbn; naive_solver.
    + destruct (RevokeFamily _ _ _) as [s' [n [e|]]]; cbn; naive_solver.
Qed.
End Twin.

Definition cli_world : World DB := mkWorld (mkDB emptyTables []) 0 0 [] None.

#[local] Instance plain_unicode : Unicode := { unicode_lower s := s }.
#[local] Instance still_env : Env := { clock _ := 0; entropy _ _ := None }.

Lemma sessions_revoke_twin_witness :
  w_store (sessions_revoke None "a@x.io" "" "" cli_world).1 = w_store (AdminSessions.revokeBy (AdminSessions.mkRevokeBody "a@x.io" "" "") cli_world).1.
Proof. exact (proj1 (sessions_revoke_twin (AdminSessions.mkRevokeBody "a@x.io" "" "") cli_world eq_refl)). Defined.

(** ** What explain says is what the server does *)

Lemma CutLast_lower s : CutLast (ascii_lower s) "@" = (fun ab => (ascii_lower ab.1, ascii_lower ab.2)) <$> CutLast s "@".
Proof.
  induction s as [|c s IH]; [done|]. cbn. unfold ascii_lower in IH. rewrite IH. destruct (CutLast s "@") as [[a b]|]; [done|]. cbn.
  assert (Hc : Ascii.eqb (lower_byte c) "@" = Ascii.eqb c "@"); [|by rewrite Hc; destruct (Ascii.eqb c "@")].
  by destruct c as [[] [] [] [] [] [] [] []].
Qed.

Lemma is_ascii_Split s c : is_ascii s = true -> Forall (fun d => is_ascii d = true) (Split s c).
Proof.
  induction s as [|d s IH]; cbn; [by repeat constructor|]. intros [Hd Hs]%andb_true_iff. specialize (IH Hs).
  destruct (Split s c) as [|x xs]; [constructor|]. apply Forall_cons in IH as [Hx Hxs].
  destruct (Ascii.eqb d c); repeat constructor; try done. cbn. by rewrite Hd.
Qed.

Lemma is_ascii_drop n s : is_ascii s = true -> is_ascii (drop_bytes n s) = true.
Proof. revert s. induction n as [|n IH]; intros [|c s]; cbn; try done. intros [_ Hs]%andb_true_iff. by apply IH. Qed.

Lemma is_ascii_TrimSpace s : is_ascii s = true -> is_ascii (TrimSpace s) = true.
Proof.
  intros Hs. unfold TrimSpace. assert (Hl : is_ascii (TrimLeftSpace s) = true).
  { unfold TrimLeftSpace. generalize (String.length s) as n. intros n. revert s Hs. induction n as [|n IH]; intros s Hs; cbn [trim_left_fuel]; [done|].
    destruct (space_width s) as [|k]; [done|]. apply IH. by apply is_ascii_drop. }
  revert Hl. generalize (TrimLeftSpace s) as t. clear. induction t as [|c t IH]; cbn [TrimRightSpace]; [by destruct (all_space _ _)|].
  intros [Hc Ht]%andb_true_iff. destruct (all_space _ _); [done|]. cbn. by rewrite Hc, IH.
Qed.

Lemma elem_of_ParseDomains `{Unicode} raw x :
  x ∈ ParseDomains raw <-> x <> "" /\ exists d, d ∈ Split raw "," /\ ToLower (TrimSpace d) = x.
Proof.
  unfold ParseDomains. induction (Split raw ",") as [|d ds IH]; cbn [foldr].
  { split; [by intros ?%not_elem_of_empty|]. by intros (_ & d & ?%not_elem_of_nil & _). }
  destruct (String.eqb_spec (ToLower (TrimSpace d)) "") as [He|He].
  - rewrite IH. split; intros (Hx & d' & Hd & Ht); (split; [done|]).
    + exists d'. split; [by right|done].
    + apply elem_of_cons in Hd as [->|Hd]; [congruence|by exists d'].
  - rewrite elem_of_union, elem_of_singleton, IH. split.
    + intros [->|(Hx & d' & Hd & Ht)]; (split; [done|]); [exists d; split; [by left|done]|exists d'; split; [by right|done]].
    + intros (Hx & d' & [->|Hd]%elem_of_cons & Ht); [by left|right]. split; [done|by exists d'].
Qed.

Lemma is_ascii_CutLast s c a b : CutLast s c = Some (a, b) -> is_ascii s = true -> is_ascii b = true.
Proof.
  revert a b. induction s as [|d s IH]; cbn; [done|]. intros a b. destruct (CutLast s c) as [[a' b']|].
  - intros [= <- <-] [_ Hs]%andb_true_iff. by eapply IH.
  - destruct (Ascii.eqb d c); [|done]. intros [= <- <-] [_ Hs]%andb_true_iff. done.
Qed.

Lemma domainAllowed_agrees `{Unicode} allowed email :
  is_ascii email = true -> is_ascii allowed = true -> emailDomain email <> "" ->
  domainAllowed allowed (ascii_lower email) = emailDomainAllowed (ParseDomains allowed) email.
Proof.
  intros He Ha Hd. unfold domainAllowed, emailDomainAllowed, emailDomain in *. rewrite CutLast_lower.
  destruct (CutLast email "@") as [[loc dom]|] eqn:E; [|done]. cbn. apply String.eqb_neq in Hd as Hd'. rewrite Hd'.
  pose proof (is_ascii_CutLast _ _ _ _ E He) as Hdom. assert (HTo : ToLower dom = ascii_lower dom) by (unfold ToLower; by rewrite Hdom).
  rewrite HTo. apply eq_true_iff_eq. rewrite existsb_exists, bool_decide_eq_true, elem_of_ParseDomains.
  assert (Hpiece : forall d, d ∈ Split allowed "," -> is_ascii (TrimSpace d) = true).
  { intros d Hin. pose proof (is_ascii_Split allowed "," Ha) as Hall. rewrite Forall_forall in Hall. by apply is_ascii_TrimSpace, Hall. }
  split.
  - intros (d & Hin%list_elem_of_In & Hf). rewrite EqualFold_ascii in Hf by auto. apply String.eqb_eq in Hf. rewrite ascii_lower_idem in Hf.
    split; [by intros Hx; destruct dom|]. exists d. split; [done|]. unfold ToLower. by rewrite Hpiece.
  - intros (_ & d & Hin & Ht). exists d. split; [by apply list_elem_of_In|]. rewrite EqualFold_ascii by auto.
    apply String.eqb_eq. rewrite ascii_lower_idem. unfold ToLower in Ht. by rewrite Hpiece in Ht.
Qed.

Definition denied_admission : string :=
  cells ["admission:"; "denied: the email domain is not in OIDC_ALLOWED_DOMAINS, so this person cannot sign in at all"].

Lemma matched_lines_label first rs : existsb (fun l => HasPrefix l "admission:") (matched_lines first rs) = false.
Proof. revert first. induction rs as [|r rs IH]; intros first; [done|]. cbn [matched_lines existsb]. rewrite IH. by destruct first. Qed.

(** `tempogate authz explain` says what the server would do: for an address in
    ASCII with a domain, the line that it cannot sign in is printed exactly when
    the callback's gate refuses it under the same configuration, and the
    permissions it prints are those the policy resolves to, or none exactly when
    that grants nothing. *)
Theorem explain_truthful `{Unicode} (p : Policy) (allowed email : string) (g : option Grant) :
  is_ascii email = true -> is_ascii allowed = true -> TrimSpace email = email -> emailDomain email <> "" ->
  Resolve p email = inr g ->
  existsb (fun l => HasPrefix l "admission:") (explain p allowed email) = negb (emailDomainAllowed (ParseDomains allowed) email) /\
  last (explain p allowed email) = Some (cells ["permissions:";
    match ToClaim g with [] => "none: sign-in is denied (access_denied), no token is issued" | claim => String.concat "," claim end]).
Proof.
  intros He Ha Ht Hd [= <-]. rewrite <-(domainAllowed_agrees allowed email He Ha Hd).
  assert (Hemail : e_Email (Explain p email) = ascii_lower email) by (unfold Explain; cbn; rewrite Ht; unfold ToLower; by rewrite He).
  unfold explain. rewrite Hemail. split.
  - rewrite !existsb_app, matched_lines_label. destruct (domainAllowed allowed (ascii_lower email)); cbn [negb].
    + destruct (e_Default _), (ToClaim _); reflexivity.
    + destruct (e_Default _), (ToClaim _); reflexivity.
  - rewrite !app_assoc. destruct (ToClaim _); by rewrite last_app.
Qed.

(** An address with an empty domain is the exception: a trailing comma admits it
    here, and the server refuses it. *)
Example explain_empty_domain :
  domainAllowed "x.io," "a@" = true /\ emailDomainAllowed (ParseDomains "x.io,") "a@" = false.
Proof. split; reflexivity. Qed.

Lemma explain_truthful_witness :
  existsb (fun l => HasPrefix l "admission:") (explain (mkPolicy [] (Some (New []))) "x.io, Y.io" "Bob@y.IO") = false.
Proof.
  destruct (explain_truthful (mkPolicy [] (Some (New []))) "x.io, Y.io" "Bob@y.IO" _ eq_refl eq_refl eq_refl ltac:(discriminate) eq_refl) as [H1 _].
  rewrite H1. reflexivity.
Defined.
